(* ===== verification/_CoqProject ===== *)
-Q . S2P
Prelude.v
GoString.v
GoSort.v
GoFloat.v
World.v
Json.v
Cdip.v
Types.v
Protocol.v
Models.v
Codec.v
State.v
Conversations.v
Scheduling.v
JobStore.v
FileStore.v
ModelView.v
RpcPool.v
DistributedPlan.v
Views.v
Capacity.v
Transport.v
Coordinator.v
Http.v
Handlers.v
Demo.v
ModelHandlers.v
Server.v
Access.v
Turns.v
Paths.v
Files.v
LlamaCpp.v
MatrixJob.v
Prompt.v
HttpTransport.v
Discovery.v
ModelJobs.v
Execute.v
Worker.v
WorkerControl.v
ControlRun.v
ControlState.v
PgStore.v
PgRun.v
PgPool.v
PgMethods.v
PgFaults.v
PgAgree.v
Flags.v
Commands.v
WorkerLife.v
JobText.v
