(* ===== verification/Prelude.v ===== *)
(** * CMesh: a verification library (root file)

    CMesh (the Go program under [src/]) runs language models on a mesh of
    workers.  A manager keeps the cluster state: nodes, jobs, benchmarks, RPC
    endpoint health, conversations and memories.  Workers register, send
    heartbeats, poll for jobs and report results over HTTP.  A model too large for
    one worker is split by layers over several: the manager plans the stages,
    creates one stage job per worker, and a coordinator drives the stages through
    the CDIP protocol, relaying activations between neighbours.  Alternatively a
    coordinator job names a pool of RPC endpoints that llama.cpp uses directly.  On
    its machine a worker installs models and the llama.cpp programs, executes jobs,
    and may be started and stopped by a local control server.

    ** The files and what they model

    - [Prelude]: record update, results of fallible functions, machine integers
      with their wrap-around, lemmas on lists and options.
    - [GoString], [GoSort], [GoFloat]: the parts of Go's strings, strconv, sort
      and math packages the program uses.  [strings.ToLower], [ToUpper] and
      [strconv.ParseFloat] are classes whose laws fix them on ASCII text and on
      decimal literals.
    - [World]: the choices of the run-time environment of one call (clock, order
      of map ranges and unstable sorts, random bytes, out-of-range conversions).
      Theorems hold for every world; [sub_world] gives each call inside an
      operation a world of its own.
    - [Json]: [encoding/json] as an interface with its round-trip law; [Codec] has
      lawful instances that only the worked examples use.
    - [Cdip] (internal/cdip/types.go): messages, validation, stage chains, shard
      manifests, the stage state machine.
    - [Types] (internal/cluster, jobs, membership, resources, and the records of
      internal/manager): the data.
    - [Protocol] (internal/protocol/distributed_rpc.go): RPC execution plans and
      results with their validation.
    - [Models] (internal/models/catalog.go): catalog, presets, job inputs.
    - [State], [Conversations], [Scheduling], [JobStore]
      (internal/manager/state.go, conversations.go): the manager's state.  The
      Go struct [State] is the record [State]; a method that takes the lock is a
      function from the state before to the state after and its results, so one
      step is one critical section.  [JobStore] ends with the operations as a
      step relation, [reachable] states, and the life cycle of a job as an
      abstract specification ([lifecycle], [transition]) that every operation
      refines.
    - [FileStore] (internal/manager/file_store.go): the file system as a map with
      failing operations, [save] as the sequence of its file operations with every
      point where it can stop, [load], and a wrapper per saving operation.
    - [ModelView] (internal/manager/models.go): where a model is installed, which
      workers could take it, the filtered catalog, placement over workers.
    - [RpcPool], [Views], [Capacity] (internal/manager/server.go, the functions
      behind the handlers): the pool of RPC endpoints with its health records,
      ranking, quarantine and plans; the queries on jobs, runs and workers; the
      readiness checks, the capacity report and the comparison of two.
    - [DistributedPlan] (internal/manager/distributed.go, first half, and
      cdip.go): candidates, selection, division of the layers, the CDIP messages
      and the stage jobs of a plan.
    - [Transport] (internal/transport/transport.go, internal/runtimes/
      distributed_stage.go): activation frames, the in-memory transport as
      bounded channels, the logical stage runtime.  A call that waits returns,
      blocks or panics ([outcome]).
    - [Coordinator] (internal/manager/distributed.go, second half): prepare,
      prefill, decode, complete, the mock run, [advance] and the server's periodic
      loop.  It is written against the class [StageStore] (the Go interface
      [Store]) with the laws [StageStoreLaws]; [State_store] and [State_laws] show
      that the job store keeps them.
    - [Http], [Handlers], [ModelHandlers], [Server] (internal/manager/server.go):
      the HTTP layer.  A handler is a program ([prog]) whose steps are the calls it
      makes on the store and the streams; each call is one atomic action, and a
      [pool] of running requests and background loops interleaves them in any
      order ([pool_step]).  [Http] has requests, tokens, decoding and the program
      logic ([wp], [does], [acts]); [Server] has the routing table, [ServeHTTP]
      and the background ticks.  [Demo] instantiates the parameters for worked
      examples.
    - [JobText]: the functions behind the template of the dashboard that put a job, a
      conversation, a memory or a worker in a line of text.
    - [Access] and [Turns]: properties of the HTTP layer, about credentials and
      activation streams, and about the turns of a conversation.
    - [HttpTransport] (internal/transport/transport.go): the HTTP client of the
      activation streams and of the worker ([Do]), run against [ServeHTTP] over a
      network that may lose a request or a reply.
    - [Paths], [Files]: [path/filepath], and the file tree of a machine with the
      calls of [os] on it, each of which may fail.
    - [LlamaCpp] (internal/runtimes/llamacpp*.go): finding, migrating,
      downloading and unpacking the llama.cpp programs, and their probes.
    - [Discovery] (internal/resources/discovery.go, workerstatus/status.go): the
      snapshot of its resources a worker reports, the manifests of models, the
      published state of the RPC server, the status file.
    - [ModelJobs], [MatrixJob], [Prompt], [Execute], [Worker]
      (cmd/cmesh/main.go): the jobs on model files, the matrix job, the prompts and
      the cleaning of answers, the resource guard and the execution of every job
      type, and the rounds of a worker with the manager.  A job is a function on a
      [Site]: the worker's files and the manager's server.
    - [Flags], [Commands], [WorkerLife] (cmd/cmesh/main.go, dev.go,
      internal/resources/runner.go): flags, the command of the arguments, the life
      of a worker from joining to leaving with its main loop over the events that
      wake it, the benchmarks and the commands on jobs.
    - [WorkerControl], [ControlRun], [ControlState] (internal/workercontrol): the
      local control server.  A handler is a program of actions on the [Desk]
      (configuration, processes, files, output); [desk_step] is what processes do
      on their own; a pool of requests interleaves with it.
    - [PgStore], [PgRun], [PgPool], [PgMethods], [PgFaults], [PgAgree]
      (internal/manager/postgres_store.go): the store over PostgreSQL.  A method is
      a program of SQL statements ([query]) on the tables ([DB]), each atomic, any
      of which may fail.  A statement runs on a connection of the pool: given back
      at once, or kept while the rows are read or the transaction runs ([conn]); a
      call waits when none is free ([prun]).  [PgRun] has the total-correctness
      logic of one method, [PgPool] how many connections it needs, [PgFaults] the
      interleaving of several.

    ** What the theorems show

    - Job store: every operation moves each job along its life cycle and keeps
      the state well formed; no worker is placed above its slots; a job is placed
      at most as often as its attempts allow; finished jobs never change; a lost
      worker's jobs are retried elsewhere, requeued or failed; polling,
      completion, stage reports and node listing do what they promise.
    - HTTP layer: however their calls interleave, requests without an operator
      credential run the operations of workers only, and all but the requests a
      worker makes are refused; nobody joins without the join token; activation streams are open to the parties of the stage alone
      and carry frames in order; a conversation has at most one generation at a
      time as long as requests are served one after the other, and
      [race_two_generations] shows two with interleaved requests.
    - Persistence: a save replaces the file or leaves it, wherever it stops; a
      restart restores the state the saving operations left.
    - Scheduling: the chosen worker is the best of the eligible ones, and no job
      waits while a worker could take it.
    - CDIP: a manifest is valid exactly when its shards partition the layers.
    - Planning: the layers are divided without gap or overlap, the messages of a
      feasible plan are valid, the stage jobs link neighbours; an executable RPC
      plan passes the validation of its receiver.
    - Coordination: stages move together or not at all; a decode step relays one
      frame per neighbour pair; a ready job completes in three steps.  Streams are
      bounded first-in-first-out queues.
    - Views: capabilities, placement, capacity, the ranking of endpoints, message
      memories and prompt budget; the dashboard says something about every job, and
      of a running one the progress its worker reported.
    - Worker: a round completes the job it is given; the manager places no job the
      guard refuses but for the models already installed; the runner keeps to its
      slots; a worker that joined leaves the manager without work of its own,
      however it ends.  Files: an installed model is reported, a cleanup removes no
      installed model, unpacking stays inside its directory.  Answers are cleaned
      by terminating loops, prompts keep the conversation.
    - Streams over HTTP refine queues as long as replies arrive.
    - Worker control: one process of each role whatever interleaves; an answered
      stop or disconnect has settled the processes; requests without the token do
      nothing; a configuration that was put survives a restart, and a worker that is
      started reads exactly that configuration from its arguments.
    - PostgreSQL store: it refines the same life cycle of jobs; concurrent calls
      never break a row or lose one; alone and with connections enough every
      method ends, and with the default pool a listing can wait for ever
      ([listing_waits_for_ever]); while the database answers nothing, every method
      answers as of an empty cluster; it agrees with the store in memory up to what
      columns keep of a value, and the coordinator's theorems hold over it
      ([Pg_laws]).
    - Benchmarks end once the clock has passed their deadlines.
    Examples named in the files show where the code falls short of its intent.

    ** Bounds and fuel

    Loops of the code are structural recursions on the list they walk where they
    walk one.  The string functions ([trim_left], [runes_fuel], [fields_fuel],
    [replace_fuel], [reasoning_loop]) take fuel from the length of their input, and
    their lemmas show that this is enough.  [pg_Nodes], which its own timed-out
    workers call again, has fuel above the number of online nodes: each inner call
    has taken one offline; without it ([read_only_listing_never_ends]) the code does
    not return either.  Each of these calls keeps a connection of the pool while the
    next one runs, so the pool must have more connections than the fuel counts calls,
    or the code waits as [prun] says.  The loops of the benchmarks have fuel above the number of
    clock readings before the deadline.  A stop polls its process until its
    deadline, at most 51 times.  Integers that the code adds up as [uint64] or
    [int] wrap ([u64], [i64]); theorems state the range they need.

    ** Abstractions

    A coordinator step, a health check of the endpoints and a plan are one atomic
    action when they run among other requests, although each makes several calls
    on the store.  Request paths are taken clean, as [ServeMux] redirects the
    others.  The text of an error is opaque where nothing compares it, and the bytes
    of a response are the value encoded.  The HTTP layer runs over the in-memory
    store, whose [CreateJob] never fails.  The rest of the machine is given by
    classes: [Files] (which calls fail, working directory), [Host] (environment,
    programs found, what a download or an archive contains), [Facts] (processors,
    disk, command output), [Network] (which calls get through), [Processes] (what
    the text generator prints), [Surroundings] (addresses, programs started,
    signals), [Bench].  Paths are Unix paths, and the tree has no links and no
    permissions.  A configuration file of the worker control is written in one
    action.  PostgreSQL runs at read committed, statements are atomic, and the
    update of a poll is a snapshot and an update of the rows that still qualify.
    The polls in flight of a worker appear in its main loop by what they do to the
    manager's store and the files, and by how they end; one that panics ends the
    process there and then ([PollPanicked]).

    ** Not modelled

    The HTML pages of the dashboard; what commands
    print; the statements of [Migrate] and [Close] of the PostgreSQL
    store, which are the database's; the Windows variants of the process and disk
    calls; the packages that hold only interfaces and constants (agent, consensus,
    scheduler, storage, version). *)

From stdpp Require Export base tactics gmap strings list fin_maps sorting pretty.
From Stdlib Require Export ZArith Lia SpecFloat.

#[global] Open Scope Z_scope.

Declare Scope go_scope.
Delimit Scope go_scope with go.
#[global] Open Scope go_scope.

(** Hints of the development. *)
Create HintDb cmesh.

(** ** Record update

    Go assigns to single fields of a struct ([job.Status = ...]); a [Setter]
    instance per field gives the notation [x <| f := v |>]. *)

Class Setter {R T : Type} (proj : R → T) := set : (T → T) → R → R.
Arguments set {R T} proj {_} f r : assert.

Notation "x <| proj := v |>" := (set proj (λ _, v) x)
  (at level 1, left associativity,
   format "x  <|  proj  :=  v  |>") : go_scope.

(** ** Results of fallible Go functions: [(value, error)] *)

Inductive result (E A : Type) : Type :=
  | Ok (a : A)
  | Err (e : E).
Arguments Ok {E A} a.
Arguments Err {E A} e.

#[export] Instance result_bind {E} : MBind (result E) :=
  λ A B f r, match r with Ok a => f a | Err e => Err e end.
#[export] Instance result_ret {E} : MRet (result E) := λ A a, Ok a.

(** A Go [error] value: [None] is [nil].  [check] runs a validation and goes on
    when it returned [nil]. *)
Definition check {E A : Type} (err : option E) (k : result E A) : result E A :=
  match err with Some e => Err e | None => k end.

(** The guards of a validation function, in order: the first one that holds
    decides the error. *)
Fixpoint first_error {E : Type} (guards : list (bool * E)) : option E :=
  match guards with
  | [] => None
  | (b, e) :: rest => if b then Some e else first_error rest
  end.

Lemma first_error_None {E} (gs : list (bool * E)) :
  first_error gs = None ↔ Forall (λ g, g.1 = false) gs.
Proof.
  induction gs as [|[b e] gs IH]; simpl; [by split|].
  rewrite Forall_cons. destruct b; simpl; naive_solver.
Qed.

Lemma bind_Ok {E A B} (r : result E A) (f : A → result E B) b :
  r ≫= f = Ok b ↔ ∃ a, r = Ok a ∧ f a = Ok b.
Proof. destruct r; simpl; naive_solver. Qed.

Lemma check_Ok {E A} (err : option E) (k : result E A) a :
  check err k = Ok a ↔ err = None ∧ k = Ok a.
Proof. destruct err; simpl; naive_solver. Qed.

(** Sequencing a validation over a list, as a [for] loop that returns at the
    first error. *)
Fixpoint try_map {E A B : Type} (f : A → result E B) (l : list A) : result E (list B) :=
  match l with
  | [] => Ok []
  | x :: l => y ← f x; ys ← try_map f l; Ok (y :: ys)
  end.

Lemma try_map_Ok {E A B} (f : A → result E B) l ys :
  try_map f l = Ok ys ↔ Forall2 (λ x y, f x = Ok y) l ys.
Proof.
  revert ys. induction l as [|x l IH]; intros ys; simpl.
  - split; [intros [= <-]; constructor|by inversion 1].
  - rewrite bind_Ok. setoid_rewrite bind_Ok. split.
    + intros (y & Hy & zs & Hzs & [= <-]). constructor; [done|]. by apply IH.
    + inversion 1 as [|? y ? zs Hy Hzs]; subst. exists y; split; [done|].
      exists zs. split; [by apply IH|done].
Qed.

Lemma try_map_length {E A B} (f : A → result E B) l ys :
  try_map f l = Ok ys → length ys = length l.
Proof. rewrite try_map_Ok. intros H. symmetry. by eapply Forall2_length. Qed.

Lemma filter_all {A} (P : A → Prop) `{∀ x, Decision (P x)} (l : list A) :
  length (filter P l) = length l ↔ Forall P l.
Proof.
  induction l as [|x l IH]; [done|]. rewrite filter_cons, Forall_cons, <- IH. case_decide; simpl.
  - split; [intros [= ?]|intros [_ ->]]; done.
  - pose proof (length_filter P l). split; [lia|by intros [? _]].
Qed.

Lemma ex_cons {A} (P : A → Prop) a l :
  (∃ x, x ∈ a :: l ∧ P x) ↔ P a ∨ ∃ x, x ∈ l ∧ P x.
Proof. setoid_rewrite elem_of_cons. split; [intros (? & [->|?] & ?); eauto|intros [?|(? & ? & ?)]; eauto]. Qed.

(** What every step of a loop preserves, the loop preserves. *)
Lemma foldl_keeps {A B C} (P : A → C) (f : A → B → A) l a :
  (∀ a x, P (f a x) = P a) → P (foldl f a l) = P a.
Proof. intros Hf. revert a. induction l as [|x l IH]; intros a; simpl; [done|]. by rewrite IH. Qed.
Lemma foldl_invariant {A B} (P : A → Prop) (f : A → B → A) l a :
  P a → (∀ a x, P a → P (f a x)) → P (foldl f a l).
Proof. intros Ha Hf. revert a Ha. induction l as [|x l IH]; intros a Ha; simpl; auto. Qed.

Lemma foldl_ext_in {A B} (f g : A → B → A) l a :
  (∀ a x, x ∈ l → f a x = g a x) → foldl f a l = foldl g a l.
Proof.
  revert a. induction l as [|x l IH]; intros a Hfg; simpl; [done|].
  rewrite Hfg by apply list_elem_of_here. apply IH. intros. apply Hfg. by apply list_elem_of_further.
Qed.

(** ** Machine integers

    Go's [uint64] wraps modulo 2^64; [int] and [int64] are two's complement. *)

Definition u64 (z : Z) : Z := z mod 2^64.
Definition i64 (z : Z) : Z := (z + 2^63) mod 2^64 - 2^63.

Lemma u64_small z : 0 ≤ z < 2^64 → u64 z = z.
Proof. intros. by apply Z.mod_small. Qed.
Lemma u64_range z : 0 ≤ u64 z < 2^64.
Proof. apply Z.mod_pos_bound. lia. Qed.
Lemma u64_idemp z : u64 (u64 z) = u64 z.
Proof. apply u64_small, u64_range. Qed.
Lemma u64_add_l a b : u64 (u64 a + b) = u64 (a + b).
Proof. apply Zplus_mod_idemp_l. Qed.
Lemma u64_add_r a b : u64 (a + u64 b) = u64 (a + b).
Proof. apply Zplus_mod_idemp_r. Qed.
Lemma i64_small z : - 2^63 ≤ z < 2^63 → i64 z = z.
Proof. intros. unfold i64. rewrite Z.mod_small; lia. Qed.
Lemma i64_range z : - 2^63 ≤ i64 z < 2^63.
Proof. unfold i64. pose proof (Z.mod_pos_bound (z + 2^63) (2^64)). lia. Qed.
Lemma i64_add_l a b : i64 (i64 a + b) = i64 (a + b).
Proof.
  unfold i64. f_equal.
  replace ((a + 2^63) mod 2^64 - 2^63 + b + 2^63) with ((a + 2^63) mod 2^64 + b) by lia.
  rewrite Zplus_mod_idemp_l. f_equal. lia.
Qed.

Definition sumZ (l : list Z) : Z := foldr Z.add 0 l.

Lemma sumZ_app l1 l2 : sumZ (l1 ++ l2) = sumZ l1 + sumZ l2.
Proof. induction l1; simpl; lia. Qed.
#[export] Instance sumZ_Permutation : Proper ((≡ₚ) ==> (=)) sumZ.
Proof. induction 1; simpl; lia. Qed.
Lemma sumZ_nonneg l : Forall (λ z, 0 ≤ z) l → 0 ≤ sumZ l.
Proof. induction 1; simpl; lia. Qed.

(** A [+=] loop over [uint64] values computes the sum modulo 2^64. *)
Lemma foldl_u64_sum {A} (f : A → Z) l a :
  foldl (λ acc x, u64 (acc + f x)) (u64 a) l = u64 (a + sumZ (f <$> l)).
Proof.
  revert a. induction l as [|x l IH]; intros a; csimpl.
  - by rewrite Z.add_0_r.
  - rewrite u64_add_l, IH. f_equal. lia.
Qed.
