(* ===== verification/GoString.v ===== *)
(** * Go strings

    The functions of package [strings] that CMesh uses, on byte strings:
    [TrimSpace], [HasPrefix], [Contains], [Join], [Split], the byte order [<],
    [strconv.Itoa] and [hex.EncodeToString].  A Go string is a sequence of
    bytes, which is what [string] is; the white space [TrimSpace] removes is the
    Unicode White_Space set in its UTF-8 encoding. *)

From S2P Require Import Prelude.

#[global] Arguments String.append !_ _ / : simpl nomatch.

Abbreviation str_eqb a b := (bool_decide (a =@{string} b)).

(** ** Prefixes *)

(** [drop_prefix p s] is [s] without the prefix [p], when it has it. *)
Fixpoint drop_prefix (p s : string) : option string :=
  match p, s with
  | "", _ => Some s
  | String a p', String b s' => if Ascii.eqb a b then drop_prefix p' s' else None
  | _, _ => None
  end%string.

Definition HasPrefix (s p : string) : bool :=
  match drop_prefix p s with Some _ => true | None => false end.

(** strings.Contains *)
Fixpoint Contains (s sub : string) : bool :=
  HasPrefix s sub || match s with String _ s' => Contains s' sub | "" => false end%string.

Lemma drop_prefix_Some p s r : drop_prefix p s = Some r ↔ s = (p +:+ r).
Proof.
  revert s. induction p as [|a p IH]; intros s; simpl.
  - split; [by intros [= ->]|by intros ->].
  - destruct s as [|b s]; [split; done|].
    destruct (Ascii.eqb_spec a b) as [<-|Hne].
    + rewrite IH. split; [by intros ->|by intros [= ->]].
    + split; [done|by intros [= -> ->]].
Qed.

Lemma string_app_length (s t : string) :
  String.length (s +:+ t) = (String.length s + String.length t)%nat.
Proof. induction s; simpl; congruence. Qed.

Lemma string_app_assoc (s t u : string) : (s +:+ t +:+ u) = ((s +:+ t) +:+ u).
Proof. induction s as [|a s IH]; simpl; [done|by rewrite IH]. Qed.
Lemma string_app_nil_r (s : string) : (s +:+ "") = s.
Proof. induction s as [|a s IH]; simpl; [done|by rewrite IH]. Qed.

Lemma drop_prefix_app p s r t : drop_prefix p s = Some r → drop_prefix p (s +:+ t) = Some (r +:+ t).
Proof.
  rewrite !drop_prefix_Some. intros ->. by rewrite string_app_assoc.
Qed.

(** ** Trimming *)

Fixpoint drop_any (ps : list string) (s : string) : option string :=
  match ps with
  | [] => None
  | p :: ps => match drop_prefix p s with Some r => Some r | None => drop_any ps s end
  end.

Fixpoint trim_left (ps : list string) (fuel : nat) (s : string) : string :=
  match fuel with
  | O => s
  | S fuel => match drop_any ps s with Some r => trim_left ps fuel r | None => s end
  end.

Definition bytes (l : list nat) : string := foldr (λ n, String (Ascii.ascii_of_nat n)) ""%string l.

(** The UTF-8 encodings of the Unicode White_Space code points. *)
Definition space_runes : list string :=
  bytes <$> [[32]; [9]; [10]; [11]; [12]; [13]; [194; 133]; [194; 160]; [225; 154; 128];
             [226; 128; 128]; [226; 128; 129]; [226; 128; 130]; [226; 128; 131];
             [226; 128; 132]; [226; 128; 133]; [226; 128; 134]; [226; 128; 135];
             [226; 128; 136]; [226; 128; 137]; [226; 128; 138]; [226; 128; 168];
             [226; 128; 169]; [226; 128; 175]; [226; 129; 159]; [227; 128; 128]]%nat.

Fixpoint rev_string_acc (s acc : string) : string :=
  match s with "" => acc | String a s => rev_string_acc s (String a acc) end%string.
Definition rev_string (s : string) : string := rev_string_acc s "".

Definition TrimLeftSpace (s : string) : string :=
  trim_left space_runes (String.length s) s.
Definition TrimRightSpace (s : string) : string :=
  rev_string (trim_left (rev_string <$> space_runes) (String.length s) (rev_string s)).

(** strings.TrimSpace; the fuel is the length: each round removes a byte. *)
Definition TrimSpace (s : string) : string := TrimRightSpace (TrimLeftSpace s).

(** [strings.TrimSpace(s) == ""], the blank test used all over the code. *)
Definition blank (s : string) : bool := str_eqb (TrimSpace s) "".

(** strings.Trim(s, cutset), the cutset given as the encodings of its characters. *)
Definition TrimSet (cutset : list string) (s : string) : string :=
  rev_string (trim_left (rev_string <$> cutset) (String.length s)
    (rev_string (trim_left cutset (String.length s) s))).

Lemma rev_string_acc_app s acc : rev_string_acc s acc = (rev_string s +:+ acc).
Proof.
  unfold rev_string. revert acc. induction s as [|a s IH]; intros acc; simpl; [done|].
  rewrite IH, (IH (String a "")). by rewrite <- string_app_assoc.
Qed.
Lemma rev_string_app s t : rev_string (s +:+ t) = (rev_string t +:+ rev_string s).
Proof.
  induction s as [|a s IH]; simpl.
  - by rewrite string_app_nil_r.
  - unfold rev_string at 1 3; simpl. rewrite !rev_string_acc_app, IH.
    by rewrite string_app_assoc.
Qed.
Lemma rev_string_involutive s : rev_string (rev_string s) = s.
Proof.
  induction s as [|a s IH]; [done|].
  unfold rev_string at 2; simpl. by rewrite rev_string_acc_app, rev_string_app, IH.
Qed.
Lemma rev_string_length s : String.length (rev_string s) = String.length s.
Proof.
  induction s as [|a s IH]; [done|]. unfold rev_string; simpl.
  rewrite rev_string_acc_app, string_app_length, IH. simpl. lia.
Qed.

(** What is left after trimming is a suffix that no longer starts with white
    space, when the fuel is at least the length. *)
Lemma drop_any_suffix ps s r : drop_any ps s = Some r → ∃ p, p ∈ ps ∧ s = (p +:+ r).
Proof.
  induction ps as [|p ps IH]; simpl; [done|].
  destruct (drop_prefix p s) eqn:E.
  - intros [= ->]. exists p. split; [by left|]. by apply drop_prefix_Some.
  - intros H. destruct (IH H) as (q & ? & ?). exists q. split; [by right|done].
Qed.
Lemma drop_any_app ps s r t : drop_any ps s = Some r → is_Some (drop_any ps (s +:+ t)).
Proof.
  induction ps as [|p ps IH]; simpl; [done|].
  destruct (drop_prefix p s) as [r'|] eqn:E.
  - intros _. by rewrite (drop_prefix_app _ _ _ t E).
  - intros H. destruct (drop_prefix p (s +:+ t)); [by eexists|by apply IH].
Qed.
Lemma trim_left_suffix ps n s : ∃ w, s = (w +:+ trim_left ps n s).
Proof.
  revert s. induction n as [|n IH]; intros s; simpl; [by exists ""%string|].
  destruct (drop_any ps s) as [r|] eqn:E; [|by exists ""%string].
  apply drop_any_suffix in E as (p & _ & ->). destruct (IH r) as [w Hw].
  exists (p +:+ w). by rewrite <- string_app_assoc, <- Hw.
Qed.
Lemma trim_left_done ps n s :
  Forall (λ p, (0 < String.length p)%nat) ps → (String.length s ≤ n)%nat →
  drop_any ps (trim_left ps n s) = None.
Proof.
  intros Hps. revert s. induction n as [|n IH]; intros s Hn; simpl.
  - destruct s; simpl in *; [|lia].
    clear Hn. induction Hps as [|p ps Hp _ IHp]; simpl; [done|]. destruct p; simpl in *; [lia|done].
  - destruct (drop_any ps s) as [r|] eqn:E; [|done]. apply IH.
    apply drop_any_suffix in E as (p & Hp & ->).
    rewrite Forall_forall in Hps. specialize (Hps _ Hp).
    rewrite string_app_length in Hn. lia.
Qed.
Lemma trim_left_id ps n s : drop_any ps s = None → trim_left ps n s = s.
Proof. destruct n; simpl; [done|by intros ->]. Qed.

Lemma app_empty_inv (w s : string) : s = (w +:+ s) → w = ""%string.
Proof.
  intros H. apply (f_equal String.length) in H. rewrite string_app_length in H.
  destruct w; simpl in *; [done|lia].
Qed.

(** TrimSpace is idempotent: a trimmed string neither starts nor ends with
    white space. *)
Lemma TrimRight_prefix s : ∃ w, s = (TrimRightSpace s +:+ w).
Proof.
  unfold TrimRightSpace.
  destruct (trim_left_suffix (rev_string <$> space_runes) (String.length s) (rev_string s)) as [w Hw].
  exists (rev_string w). rewrite <- rev_string_app, <- Hw. by rewrite rev_string_involutive.
Qed.

Lemma space_runes_pos : Forall (λ p, (0 < String.length p)%nat) space_runes.
Proof. by apply (bool_decide_unpack _); vm_compute. Qed.
Lemma rev_space_runes_pos : Forall (λ p, (0 < String.length p)%nat) (rev_string <$> space_runes).
Proof. by apply (bool_decide_unpack _); vm_compute. Qed.

Lemma TrimSpace_left s : drop_any space_runes (TrimSpace s) = None.
Proof.
  unfold TrimSpace. set (l := TrimLeftSpace s).
  assert (drop_any space_runes l = None) as Hl
    by (apply trim_left_done; [apply space_runes_pos|lia]).
  destruct (drop_any space_runes (TrimRightSpace l)) as [r|] eqn:E; [|done].
  destruct (TrimRight_prefix l) as [w Hw].
  destruct (drop_any_app _ _ _ w E) as [r' E']. rewrite <- Hw in E'. congruence.
Qed.
Lemma TrimSpace_right s :
  drop_any (rev_string <$> space_runes) (rev_string (TrimSpace s)) = None.
Proof.
  unfold TrimSpace, TrimRightSpace. rewrite rev_string_involutive.
  apply trim_left_done; [apply rev_space_runes_pos|]. by rewrite rev_string_length.
Qed.
Lemma TrimSpace_idemp s : TrimSpace (TrimSpace s) = TrimSpace s.
Proof.
  unfold TrimSpace at 1. unfold TrimLeftSpace at 1.
  rewrite (trim_left_id _ _ _ (TrimSpace_left s)).
  unfold TrimRightSpace. rewrite (trim_left_id _ _ _ (TrimSpace_right s)).
  apply rev_string_involutive.
Qed.

Lemma blank_empty : blank "" = true.
Proof. done. Qed.
Lemma blank_TrimSpace s : blank (TrimSpace s) = blank s.
Proof. unfold blank. by rewrite TrimSpace_idemp. Qed.
Lemma blank_false_ne s : blank s = false → s ≠ ""%string.
Proof. by intros H ->. Qed.
Lemma blank_true s : blank s = true ↔ TrimSpace s = ""%string.
Proof. unfold blank. apply bool_decide_eq_true. Qed.
Lemma blank_false s : blank s = false ↔ TrimSpace s ≠ ""%string.
Proof. unfold blank. apply bool_decide_eq_false. Qed.

(** ** Joining, printing *)

(** strings.Join *)
Fixpoint Join (parts : list string) (sep : string) : string :=
  match parts with
  | [] => ""
  | [p] => p
  | p :: ps => p +:+ sep +:+ Join ps sep
  end.

(** strconv.Itoa and the [%d] verb *)
Definition Itoa (z : Z) : string := pretty z.

Definition hex_digit (n : nat) : string :=
  String (Ascii.ascii_of_nat (if (n <? 10)%nat then 48 + n else 87 + n)) "".
(** hex.EncodeToString *)
Fixpoint hex_encode (s : string) : string :=
  match s with
  | "" => ""
  | String a s =>
      let n := Ascii.nat_of_ascii a in
      hex_digit (n / 16) +:+ hex_digit (n mod 16) +:+ hex_encode s
  end.

Lemma hex_digit_inj a b :
  (a < 16)%nat → (b < 16)%nat → hex_digit a = hex_digit b → a = b.
Proof.
  intros Ha Hb H. injection H as H. apply (f_equal Ascii.nat_of_ascii) in H.
  destruct (Nat.ltb_spec a 10), (Nat.ltb_spec b 10);
    rewrite !Ascii.nat_ascii_embedding in H by lia; lia.
Qed.

Lemma hex_digit_app_inj a b s t :
  (a < 16)%nat → (b < 16)%nat →
  (hex_digit a +:+ s) = (hex_digit b +:+ t) → a = b ∧ s = t.
Proof.
  intros Ha Hb H.
  assert (hex_digit a = hex_digit b ∧ s = t) as [? ->]; [|by split; [apply hex_digit_inj|]].
  revert H. unfold hex_digit. generalize (Ascii.ascii_of_nat (if (a <? 10)%nat then 48 + a else 87 + a)%nat).
  generalize (Ascii.ascii_of_nat (if (b <? 10)%nat then 48 + b else 87 + b)%nat).
  intros x y H. simpl in H. by injection H as -> ->.
Qed.

(** Distinct random buffers give distinct identifiers. *)
Lemma hex_encode_inj s t : hex_encode s = hex_encode t → s = t.
Proof.
  revert t. induction s as [|a s IH]; intros [|b t]; [done|done|done|].
  cbn [hex_encode]. intros H.
  pose proof (Ascii.nat_ascii_bounded a) as Ha. pose proof (Ascii.nat_ascii_bounded b) as Hb.
  apply hex_digit_app_inj in H as [H1 H];
    [|apply Nat.Div0.div_lt_upper_bound; lia..].
  apply hex_digit_app_inj in H as [H2 H]; [|apply Nat.mod_upper_bound; lia..].
  assert (Ascii.nat_of_ascii a = Ascii.nat_of_ascii b) as Hab
    by (rewrite (Nat.div_mod_eq (Ascii.nat_of_ascii a) 16),
          (Nat.div_mod_eq (Ascii.nat_of_ascii b) 16); congruence).
  f_equal; [|by apply IH].
  by rewrite <- (Ascii.ascii_nat_embedding a), <- (Ascii.ascii_nat_embedding b), Hab.
Qed.

(** strings.Split(s, sep) for a one-byte separator. *)
Fixpoint Split (s : string) (sep : Ascii.ascii) : list string :=
  match s with
  | "" => [""]
  | String a s' =>
      if Ascii.eqb a sep then "" :: Split s' sep
      else match Split s' sep with
           | [] => [String a ""]
           | p :: ps => String a p :: ps
           end
  end%string.

Fixpoint no_sep (sep : Ascii.ascii) (s : string) : Prop :=
  match s with "" => True | String a s => a ≠ sep ∧ no_sep sep s end%string.

Lemma Split_head sep p s : no_sep sep p → Split (p +:+ String sep s) sep = p :: Split s sep.
Proof.
  induction p as [|a p IH]; simpl.
  - intros _. by rewrite Ascii.eqb_refl.
  - intros [Ha Hp]. rewrite (proj2 (Ascii.eqb_neq _ _) Ha). by rewrite IH.
Qed.
Lemma Split_whole sep p : no_sep sep p → Split p sep = [p].
Proof.
  induction p as [|a p IH]; simpl; [done|].
  intros [Ha Hp]. rewrite (proj2 (Ascii.eqb_neq _ _) Ha). by rewrite IH.
Qed.
Lemma Split_parts sep s : Forall (no_sep sep) (Split s sep).
Proof.
  induction s as [|a s IH]; simpl; [by repeat constructor|].
  destruct (Ascii.eqb_spec a sep) as [->|Ha]; [by constructor|].
  destruct IH as [|p ps Hp Hps]; by repeat constructor.
Qed.
Lemma no_sep_app sep p s : no_sep sep p → no_sep sep s → no_sep sep (p +:+ s).
Proof. induction p as [|a p IH]; simpl; [done|]. intros [? ?] ?. split; auto. Qed.
Lemma Split_app sep a b : Split (a +:+ String sep b) sep = Split a sep ++ Split b sep.
Proof.
  induction a as [|x a IH]; simpl; [by rewrite Ascii.eqb_refl|].
  destruct (Ascii.eqb x sep); [by rewrite IH|]. rewrite IH.
  destruct (Split a sep) as [|p ps] eqn:E; [|done]. by destruct a as [|y a]; simpl in E; repeat case_match.
Qed.

(** strings.TrimPrefix *)
Definition TrimPrefix (s p : string) : string := default s (drop_prefix p s).

(** ** The byte order of strings: [a < b] *)

Definition string_lt (a b : string) : bool := String.ltb a b.

Lemma ascii_compare_eq a b : Ascii.compare a b = Eq ↔ a = b.
Proof.
  unfold Ascii.compare. rewrite N.compare_eq_iff. split; [|by intros ->].
  intros H. by rewrite <- (Ascii.ascii_N_embedding a), <- (Ascii.ascii_N_embedding b), H.
Qed.
Lemma string_ltb_spec a b : string_lt a b = true ↔ String.compare a b = Lt.
Proof. unfold string_lt, String.ltb. by destruct (String.compare a b). Qed.
Lemma string_compare_eq a b : String.compare a b = Eq ↔ a = b.
Proof.
  revert b. induction a as [|x a IH]; intros [|y b]; simpl; [done..|].
  destruct (Ascii.compare x y) eqn:E.
  - apply ascii_compare_eq in E as <-. rewrite IH. naive_solver.
  - split; [done|intros [= -> ->]]. by rewrite (proj2 (ascii_compare_eq y y) eq_refl) in E.
  - split; [done|intros [= -> ->]]. by rewrite (proj2 (ascii_compare_eq y y) eq_refl) in E.
Qed.
Lemma string_lt_irrefl a : string_lt a a = false.
Proof. unfold string_lt, String.ltb. by rewrite (proj2 (string_compare_eq a a) eq_refl). Qed.
Lemma string_lt_trans a b c :
  string_lt a b = true → string_lt b c = true → string_lt a c = true.
Proof.
  rewrite !string_ltb_spec. revert b c.
  induction a as [|x a IH]; intros [|y b] [|z c]; simpl; try done.
  unfold Ascii.compare.
  destruct (N.compare_spec (Ascii.N_of_ascii x) (Ascii.N_of_ascii y)) as [E1|E1|E1],
    (N.compare_spec (Ascii.N_of_ascii y) (Ascii.N_of_ascii z)) as [E2|E2|E2],
    (N.compare_spec (Ascii.N_of_ascii x) (Ascii.N_of_ascii z)) as [E3|E3|E3];
    try done; try lia; eauto.
Qed.
Lemma string_lt_total a b : string_lt a b = false → string_lt b a = false → a = b.
Proof.
  unfold string_lt, String.ltb. rewrite (String.compare_antisym b a).
  destruct (String.compare a b) eqn:E; simpl; try done. intros _ _.
  by apply string_compare_eq.
Qed.
Lemma string_lt_asym a b : string_lt a b = true → string_lt b a = false.
Proof.
  intros H. destruct (string_lt b a) eqn:E; [|done].
  pose proof (string_lt_trans _ _ _ H E) as H'. by rewrite string_lt_irrefl in H'.
Qed.
Lemma string_lt_negtrans a b c :
  string_lt b a = false → string_lt c b = false → string_lt c a = false.
Proof.
  intros Hba Hcb. destruct (string_lt c a) eqn:E; [|done].
  destruct (string_lt a b) eqn:E2.
  - by rewrite (string_lt_trans _ _ _ E E2) in Hcb.
  - rewrite (string_lt_total _ _ E2 Hba) in E. congruence.
Qed.

(** ** Cleaning a list of strings

    The loop that three functions of the repository share: trim, skip blanks
    and repetitions, keep the order of first occurrences. *)

Fixpoint clean_loop (seen : gset string) (l : list string) : list string :=
  match l with
  | [] => []
  | x :: l =>
      let x := TrimSpace x in
      if str_eqb x "" || bool_decide (x ∈ seen) then clean_loop seen l
      else x :: clean_loop ({[x]} ∪ seen) l
  end.

(** What cleaning promises: the distinct non-blank trimmed strings, in the order
    of their first occurrences. *)
Record cleaned (l out : list string) : Prop := {
  cleaned_elem x : x ∈ out ↔ x ≠ ""%string ∧ ∃ y, y ∈ l ∧ x = TrimSpace y;
  cleaned_NoDup : NoDup out;
  cleaned_order : out `sublist_of` (TrimSpace <$> l);
}.

Lemma clean_loop_elem seen l x :
  x ∈ clean_loop seen l ↔ x ≠ ""%string ∧ x ∉ seen ∧ ∃ y, y ∈ l ∧ x = TrimSpace y.
Proof.
  revert seen. induction l as [|y l IH]; intros seen; simpl.
  { split; [by intros ?%not_elem_of_nil|]. intros (_ & _ & y & Hy & _). by apply not_elem_of_nil in Hy. }
  setoid_rewrite elem_of_cons. case_bool_decide as H1; simpl; [|case_bool_decide as H2].
  - rewrite IH. split; [naive_solver|]. intros (? & ? & z & [->|?] & ->); naive_solver.
  - rewrite IH. split; [naive_solver|]. intros (? & ? & z & [->|?] & ->); naive_solver.
  - rewrite elem_of_cons, IH, not_elem_of_union, not_elem_of_singleton.
    split; [naive_solver|]. intros (? & ? & z & [->|?] & ->); [by left|].
    destruct (decide (TrimSpace z = TrimSpace y)); [by left|right; naive_solver].
Qed.

Lemma clean_loop_NoDup seen l : NoDup (clean_loop seen l).
Proof.
  revert seen. induction l as [|y l IH]; intros seen; simpl; [constructor|].
  case_match; [done|]. constructor; [|done].
  rewrite clean_loop_elem. set_solver.
Qed.

Lemma clean_loop_sublist seen l : clean_loop seen l `sublist_of` (TrimSpace <$> l).
Proof.
  revert seen. induction l as [|y l IH]; intros seen; csimpl; [constructor|].
  case_match; by constructor.
Qed.

Lemma clean_loop_cleaned l : cleaned l (clean_loop ∅ l).
Proof.
  split; [|apply clean_loop_NoDup|apply clean_loop_sublist].
  intros x. rewrite clean_loop_elem. set_solver.
Qed.

(** Cleaning a list of distinct trimmed non-empty strings changes nothing. *)
Lemma clean_loop_id seen l :
  NoDup l → (∀ x, x ∈ l → x ≠ ""%string ∧ TrimSpace x = x ∧ x ∉ seen) → clean_loop seen l = l.
Proof.
  revert seen. induction l as [|y l IH]; intros seen Hnd Hl; simpl; [done|].
  apply NoDup_cons in Hnd as [Hy Hnd]. destruct (Hl y) as (Hne & Ht & Hs); [by left|].
  rewrite Ht, !bool_decide_eq_false_2 by done. simpl. f_equal. apply IH; [done|].
  intros x Hx. destruct (Hl x) as (? & ? & ?); [by right|]. set_solver.
Qed.
Lemma clean_loop_idemp l : clean_loop ∅ (clean_loop ∅ l) = clean_loop ∅ l.
Proof.
  apply clean_loop_id; [apply clean_loop_NoDup|]. intros x Hx.
  apply clean_loop_elem in Hx as (Hne & _ & y & _ & ->).
  split; [done|]. split; [apply TrimSpace_idemp|set_solver].
Qed.
#[export] Hint Resolve clean_loop_NoDup : cmesh.

(** ** Case

    [strings.ToLower] follows the Unicode tables; on ASCII strings it is the
    ASCII mapping, which is all the code's comparisons with constants need. *)

Fixpoint is_ascii (s : string) : bool :=
  match s with "" => true | String a s => (Ascii.nat_of_ascii a <? 128)%nat && is_ascii s end%string.
Definition lower_ascii (a : Ascii.ascii) : Ascii.ascii :=
  let n := Ascii.nat_of_ascii a in
  if (65 <=? n)%nat && (n <=? 90)%nat then Ascii.ascii_of_nat (n + 32) else a.
Fixpoint ascii_lower (s : string) : string :=
  match s with "" => "" | String a s => String (lower_ascii a) (ascii_lower s) end%string.

Class LowerCase := {
  ToLower : string → string;
  ToLower_ascii s : is_ascii s = true → ToLower s = ascii_lower s;
}.
(** The instance for examples over ASCII data. *)
Definition ascii_case : LowerCase := {| ToLower := ascii_lower; ToLower_ascii _ _ := eq_refl |}.

(** [strings.ToUpper], in the same way. *)
Definition upper_ascii (a : Ascii.ascii) : Ascii.ascii :=
  let n := Ascii.nat_of_ascii a in
  if (97 <=? n)%nat && (n <=? 122)%nat then Ascii.ascii_of_nat (n - 32) else a.
Fixpoint ascii_upper (s : string) : string :=
  match s with "" => "" | String a s => String (upper_ascii a) (ascii_upper s) end.
Class UpperCase := {
  ToUpper : string → string;
  ToUpper_ascii s : is_ascii s = true → ToUpper s = ascii_upper s;
}.
Definition ascii_upper_case : UpperCase := {| ToUpper := ascii_upper; ToUpper_ascii _ _ := eq_refl |}.

(** strings.TrimSuffix *)
Definition TrimSuffix (s p : string) : string := rev_string (TrimPrefix (rev_string s) (rev_string p)).

(** ** Code points

    [[]rune(s)] decodes UTF-8; a byte that starts no valid encoding is one rune,
    U+FFFD.  A decoded rune carries its bytes in the string. *)

Definition byte_of (a : Ascii.ascii) : Z := Z.of_N (Ascii.N_of_ascii a).
Definition in_range (lo hi : Z) (a : Ascii.ascii) : bool := (lo <=? byte_of a) && (byte_of a <=? hi).

Record rune := mkRune { rune_code : Z; rune_bytes : string }.
Definition RuneError (a : Ascii.ascii) : rune := mkRune 65533 (String a "").

(** The range of the second byte after a lead byte, and the number of bytes. *)
Definition lead (a : Ascii.ascii) : option (nat * Z * Z) :=
  let b := byte_of a in
  if (194 <=? b) && (b <=? 223) then Some (2%nat, 128, 191)
  else if b =? 224 then Some (3%nat, 160, 191)
  else if b =? 237 then Some (3%nat, 128, 159)
  else if (225 <=? b) && (b <=? 239) then Some (3%nat, 128, 191)
  else if b =? 240 then Some (4%nat, 144, 191)
  else if (241 <=? b) && (b <=? 243) then Some (4%nat, 128, 191)
  else if b =? 244 then Some (4%nat, 128, 143)
  else None.

Definition cont (a : Ascii.ascii) : bool := in_range 128 191 a.

(** utf8.DecodeRuneInString on a string that starts with the byte [a]. *)
Definition decode_rune (a : Ascii.ascii) (s : string) : rune * string :=
  if byte_of a <? 128 then (mkRune (byte_of a) (String a ""), s) else
  match lead a, s with
  | Some (2%nat, lo, hi), String b s1 =>
      if in_range lo hi b
      then (mkRune (byte_of a mod 32 * 64 + byte_of b mod 64) (String a (String b "")), s1)
      else (RuneError a, s)
  | Some (3%nat, lo, hi), String b (String c s2) =>
      if in_range lo hi b && cont c
      then (mkRune (byte_of a mod 16 * 4096 + byte_of b mod 64 * 64 + byte_of c mod 64)
              (String a (String b (String c ""))), s2)
      else (RuneError a, s)
  | Some (4%nat, lo, hi), String b (String c (String d s3)) =>
      if in_range lo hi b && cont c && cont d
      then (mkRune (byte_of a mod 8 * 262144 + byte_of b mod 64 * 4096 + byte_of c mod 64 * 64
                      + byte_of d mod 64)
              (String a (String b (String c (String d "")))), s3)
      else (RuneError a, s)
  | _, _ => (RuneError a, s)
  end%string.

Fixpoint runes_fuel (fuel : nat) (s : string) : list rune :=
  match fuel, s with
  | S fuel, String a s => (decode_rune a s).1 :: runes_fuel fuel (decode_rune a s).2
  | _, _ => []
  end%string.
(** [[]rune(s)]; each rune has at least one byte, so the length is fuel enough. *)
Definition runes (s : string) : list rune := runes_fuel (String.length s) s.

(** [string(rs)]: an invalid byte comes back as the encoding of U+FFFD. *)
Definition encode_rune (r : rune) : string :=
  if rune_code r =? 65533 then bytes [239; 191; 189]%nat else rune_bytes r.
Definition string_of_runes (rs : list rune) : string :=
  foldr (λ r acc, encode_rune r +:+ acc) ""%string rs.

Lemma decode_rune_split a s :
  String a s = (rune_bytes (decode_rune a s).1 +:+ (decode_rune a s).2).
Proof.
  unfold decode_rune. destruct (byte_of a <? 128); [done|].
  destruct (lead a) as [[[n lo] hi]|]; [|done].
  destruct n as [|[|[|[|[|n]]]]]; try done; destruct s as [|b [|c [|d s]]]; try done;
    simpl; repeat case_match; done.
Qed.
Lemma decode_rune_length a s : (String.length (decode_rune a s).2 <= String.length s)%nat.
Proof.
  unfold decode_rune. destruct (byte_of a <? 128); [done|].
  destruct (lead a) as [[[n lo] hi]|]; [|done].
  destruct n as [|[|[|[|[|n]]]]]; try done; destruct s as [|b [|c [|d s]]]; try done;
    simpl; repeat case_match; simpl; lia.
Qed.
Lemma runes_fuel_enough n m s :
  (String.length s <= n)%nat → (String.length s <= m)%nat → runes_fuel n s = runes_fuel m s.
Proof.
  revert m s. induction n as [|n IH]; intros [|m] [|a s] Hn Hm; simpl in *; try done; try lia.
  pose proof (decode_rune_length a s). f_equal. apply IH; lia.
Qed.
(** The decoding equation without fuel. *)
Lemma runes_cons a s : runes (String a s) = (decode_rune a s).1 :: runes (decode_rune a s).2.
Proof.
  unfold runes. simpl. f_equal. apply runes_fuel_enough; [apply decode_rune_length|done].
Qed.
(** Decoding loses no byte. *)
Lemma runes_bytes s : foldr (λ r acc, rune_bytes r +:+ acc) ""%string (runes s) = s.
Proof.
  remember (String.length s) as n eqn:Hn. assert (String.length s <= n)%nat as Hle by lia. clear Hn.
  revert s Hle. induction n as [|n IH]; intros [|a s] Hle; simpl in Hle; [done|lia|done|].
  rewrite runes_cons. simpl. rewrite IH by (pose proof (decode_rune_length a s); lia).
  symmetry. apply decode_rune_split.
Qed.

(** *** Counting code points under concatenation and trimming *)

Lemma string_eq_ind_len (P : string → Prop) :
  (∀ s, (∀ t, (String.length t < String.length s)%nat → P t) → P s) → ∀ s, P s.
Proof.
  intros IH s. remember (String.length s) as n eqn:Hn. revert s Hn.
  induction (lt_wf n) as [n _ IHn]. intros s ->. apply IH. intros t Ht. by eapply IHn.
Qed.

(** A string that cannot continue an encoding begun before it. *)
Definition starts_rune (t : string) : Prop :=
  match t with "" => True | String a _ => cont a = false end%string.

Lemma second_byte_cont a n lo hi : lead a = Some (n, lo, hi) → 128 ≤ lo ∧ hi ≤ 191.
Proof. unfold lead. intros H. repeat case_match; simplify_eq; lia. Qed.

Lemma in_range_cont lo hi b : 128 ≤ lo → hi ≤ 191 → cont b = false → in_range lo hi b = false.
Proof.
  unfold cont, in_range. rewrite !andb_false_iff, !Z.leb_gt. lia.
Qed.

Lemma decode_rune_app a s t :
  starts_rune t → decode_rune a (s +:+ t) = ((decode_rune a s).1, (decode_rune a s).2 +:+ t).
Proof.
  intros Ht. unfold decode_rune. destruct (byte_of a <? 128); [done|].
  destruct (lead a) as [[[n lo] hi]|] eqn:El; [|done].
  destruct (second_byte_cont _ _ _ _ El) as [Hlo Hhi].
  destruct n as [|[|[|[|[|n]]]]]; try done;
    destruct s as [|b [|c [|d s]]]; destruct t as [|x [|y [|z t]]]; simpl in *; try done;
    rewrite ?Ht, ?(in_range_cont lo hi x) by done; rewrite ?andb_false_r; simpl;
    repeat case_match; done.
Qed.

Lemma runes_app s t : starts_rune t → runes (s +:+ t) = runes s ++ runes t.
Proof.
  intros Ht. induction s as [s IH] using string_eq_ind_len. destruct s as [|a s]; [done|].
  cbn [String.append]. rewrite !runes_cons, (decode_rune_app a s t Ht). simpl. f_equal.
  apply IH. pose proof (decode_rune_length a s). simpl. lia.
Qed.

(** One white-space character is one code point, at either end. *)
Definition one_rune (p : string) : Prop :=
  starts_rune p ∧ length (runes p) = 1%nat ∧ ∀ s, length (runes (p +:+ s)) = S (length (runes s)).

Lemma space_one_rune : Forall one_rune space_runes.
Proof.
  unfold space_runes. apply Forall_fmap.
  repeat (apply Forall_cons_2;
    [cbv beta delta [compose one_rune]; split_and!;
     [vm_compute; done|vm_compute; done|intros s; unfold bytes; simpl foldr; cbn [String.append]; rewrite runes_cons; reflexivity]|]).
  apply Forall_nil_2.
Qed.

Lemma drop_any_elem ps s r : drop_any ps s = Some r → ∃ p, p ∈ ps ∧ s = (p +:+ r).
Proof.
  induction ps as [|p ps IH]; simpl; [done|].
  destruct (drop_prefix p s) as [r'|] eqn:E.
  - intros [= ->]. apply drop_prefix_Some in E. exists p. split; [by left|done].
  - intros H. destruct (IH H) as (p' & ? & ?). exists p'. split; [by right|done].
Qed.

Lemma trim_left_runes n s : (length (runes (trim_left space_runes n s)) <= length (runes s))%nat.
Proof.
  revert s. induction n as [|n IH]; intros s; cbn [trim_left]; [lia|].
  destruct (drop_any space_runes s) as [r|] eqn:E; [|lia].
  apply drop_any_elem in E as (p & Hp & ->).
  destruct (proj1 (Forall_forall _ _) space_one_rune p Hp) as (_ & _ & Hs).
  rewrite Hs. specialize (IH r). lia.
Qed.

Lemma trim_right_runes n s :
  (length (runes (rev_string (trim_left (rev_string <$> space_runes) n (rev_string s))))
   <= length (runes s))%nat.
Proof.
  revert s. induction n as [|n IH]; intros s; cbn [trim_left]; [rewrite rev_string_involutive; lia|].
  destruct (drop_any _ (rev_string s)) as [r|] eqn:E; [|rewrite rev_string_involutive; lia].
  apply drop_any_elem in E as (q & Hq & Hs).
  apply list_elem_of_fmap in Hq as (p & -> & Hp).
  apply (f_equal rev_string) in Hs. rewrite rev_string_involutive, rev_string_app, rev_string_involutive in Hs.
  destruct (proj1 (Forall_forall _ _) space_one_rune p Hp) as (Hstart & Hone & _).
  rewrite Hs, runes_app, length_app by done.
  specialize (IH (rev_string r)). rewrite rev_string_involutive in IH. lia.
Qed.

Lemma TrimSpace_runes s : (length (runes (TrimSpace s)) <= length (runes s))%nat.
Proof.
  unfold TrimSpace, TrimRightSpace. etrans; [apply trim_right_runes|]. apply trim_left_runes.
Qed.

(** A decoded rune, written back, is one rune again whatever follows. *)
Lemma decode_rune_encode a s t :
  length (runes (encode_rune (decode_rune a s).1 +:+ t)) = S (length (runes t)).
Proof.
  assert (length (runes (encode_rune (RuneError a) +:+ t)) = S (length (runes t))) as Herr.
  { unfold encode_rune. cbn [rune_code RuneError Z.eqb Pos.eqb bytes foldr String.append]. by rewrite runes_cons. }
  unfold encode_rune. destruct (Z.eqb_spec (rune_code (decode_rune a s).1) 65533) as [_|Hne].
  { cbn [bytes foldr String.append]. by rewrite runes_cons. }
  revert Hne. unfold decode_rune at 1 2. destruct (byte_of a <? 128) eqn:Hlow.
  { intros _. cbn [rune_bytes fst String.append]. rewrite runes_cons. unfold decode_rune. by rewrite Hlow. }
  destruct (lead a) as [[[n lo] hi]|] eqn:El; [|done].
  destruct n as [|[|[|[|[|n]]]]]; try done; destruct s as [|b [|c [|d s]]]; try done;
    (match goal with |- context [if ?c then _ else _] => destruct c eqn:Hc end; [|done]); intros _;
    cbn [rune_bytes fst String.append]; rewrite runes_cons; unfold decode_rune;
    rewrite Hlow, El; simpl; by rewrite Hc.
Qed.

Lemma string_of_runes_length s k :
  (length (runes (string_of_runes (drop k (runes s)))) <= length (runes s) - k)%nat.
Proof.
  revert k. induction s as [s IH] using string_eq_ind_len. intros k.
  destruct s as [|a s]; [destruct k; simpl; lia|]. rewrite runes_cons.
  assert (String.length (decode_rune a s).2 < String.length (String a s))%nat as Hlt
    by (pose proof (decode_rune_length a s); simpl; lia).
  destruct k as [|k].
  - rewrite drop_0 in *. change (string_of_runes (?r :: ?rs)) with (encode_rune r +:+ string_of_runes rs).
    cbn [length]. rewrite decode_rune_encode. specialize (IH _ Hlt 0%nat). rewrite drop_0 in IH. lia.
  - cbn [drop length]. rewrite Nat.sub_succ. by apply IH.
Qed.

(** *** Valid UTF-8 *)

(** [utf8.ValidString]: every rune is encoded by its own bytes. *)
Definition rune_valid (r : rune) : bool := str_eqb (encode_rune r) (rune_bytes r).
Definition valid_utf8 (s : string) : bool := forallb rune_valid (runes s).

Lemma ascii_valid s : is_ascii s = true → valid_utf8 s = true.
Proof.
  unfold valid_utf8. induction s as [|a s IH]; [done|]. cbn [is_ascii]. intros [Ha Hs]%andb_prop.
  assert (Hb : byte_of a < 128).
  { apply Nat.ltb_lt in Ha. unfold byte_of. unfold Ascii.nat_of_ascii in Ha. lia. }
  rewrite runes_cons. unfold decode_rune. rewrite (proj2 (Z.ltb_lt _ _) Hb). cbn [fst snd forallb].
  rewrite IH by done. rewrite andb_true_r. unfold rune_valid, encode_rune. cbn [rune_code rune_bytes].
  rewrite (proj2 (Z.eqb_neq _ _)) by lia. by apply bool_decide_eq_true.
Qed.
Lemma is_ascii_app s t : is_ascii (s +:+ t) = is_ascii s && is_ascii t.
Proof. induction s as [|a s IH]; simpl; [done|]. by rewrite IH, andb_assoc. Qed.
Lemma hex_ascii s : is_ascii (hex_encode s) = true.
Proof.
  induction s as [|a s IH]; [done|]. cbn [hex_encode]. cbv zeta. rewrite !is_ascii_app, IH, andb_true_r.
  assert (∀ n, (n < 16)%nat → is_ascii (hex_digit n) = true) as Hd.
  { intros n Hn. do 16 (destruct n as [|n]; [reflexivity|]). lia. }
  assert (Ascii.nat_of_ascii a < 256)%nat by apply Ascii.nat_ascii_bounded.
  rewrite !Hd; [done|by apply Nat.mod_upper_bound|apply Nat.Div0.div_lt_upper_bound; lia].
Qed.

(** Trimming white space leaves whole runes. *)
Lemma space_split : Forall (λ p, ∀ s, runes (p +:+ s) = runes p ++ runes s) space_runes.
Proof.
  unfold space_runes. apply Forall_fmap.
  repeat (apply Forall_cons_2;
    [intros s; unfold compose, bytes; simpl foldr; cbn [String.append]; rewrite runes_cons; reflexivity|]).
  apply Forall_nil_2.
Qed.
Lemma trim_left_valid n s : valid_utf8 s = true → valid_utf8 (trim_left space_runes n s) = true.
Proof.
  revert s. induction n as [|n IH]; intros s Hs; cbn [trim_left]; [done|].
  destruct (drop_any space_runes s) as [r|] eqn:E; [|done]. apply drop_any_elem in E as (p & Hp & ->). apply IH.
  unfold valid_utf8 in *. rewrite (proj1 (Forall_forall _ _) space_split p Hp), forallb_app in Hs.
  by apply andb_prop in Hs as [_ ?].
Qed.
Lemma trim_right_valid n s :
  valid_utf8 s = true → valid_utf8 (rev_string (trim_left (rev_string <$> space_runes) n (rev_string s))) = true.
Proof.
  revert s. induction n as [|n IH]; intros s Hv; cbn [trim_left]; [by rewrite rev_string_involutive|].
  destruct (drop_any _ (rev_string s)) as [r|] eqn:E; [|by rewrite rev_string_involutive].
  apply drop_any_elem in E as (q & Hq & Hs). apply list_elem_of_fmap in Hq as (p & -> & Hp).
  apply (f_equal rev_string) in Hs. rewrite rev_string_involutive, rev_string_app, rev_string_involutive in Hs.
  destruct (proj1 (Forall_forall _ _) space_one_rune p Hp) as (Hstart & _).
  specialize (IH (rev_string r)). rewrite rev_string_involutive in IH. apply IH.
  unfold valid_utf8 in *. rewrite Hs, runes_app, forallb_app in Hv by done. by apply andb_prop in Hv as [? _].
Qed.
Lemma TrimSpace_valid s : valid_utf8 s = true → valid_utf8 (TrimSpace s) = true.
Proof. intros Hs. unfold TrimSpace, TrimRightSpace. by apply trim_right_valid, trim_left_valid. Qed.

(** ** Texts that are not empty *)

Lemma app_nonempty_r (a b : string) : b ≠ "" → a +:+ b ≠ "".
Proof. by destruct a. Qed.
Lemma Join_nonempty (parts : list string) (sep : string) :
  parts ≠ [] → Forall (λ r, r ≠ "") parts → Join parts sep ≠ "".
Proof.
  intros Hn Hf. destruct Hf as [|p ps Hp Hps]; [done|]. destruct ps; simpl; [done|].
  by destruct p.
Qed.
