(* ===== verification/GoSort.v ===== *)
(** * Sorting as Go does it

    [sort.SliceStable] is a stable sort by a [less] function; [sort.Slice] may
    put elements that compare equal in any order.  The comparison functions of
    the code are chains of [if a.k != b.k { return a.k < b.k }]; the combinators
    below spell such a chain, and their instances of [StrictWeakOrder] carry the
    sorting lemmas over to each of them. *)

From S2P Require Import Prelude GoString.

Section sort.
Context {A : Type} (less : A → A → bool).

Fixpoint insert_by (x : A) (l : list A) : list A :=
  match l with
  | [] => [x]
  | y :: l' => if less y x then y :: insert_by x l' else x :: y :: l'
  end.

(** sort.SliceStable *)
Definition sort_by (l : list A) : list A := foldr insert_by [] l.

Lemma insert_by_perm x l : insert_by x l ≡ₚ x :: l.
Proof.
  induction l as [|y l IH]; simpl; [done|].
  destruct (less y x); [|done]. rewrite IH. constructor.
Qed.
Lemma sort_by_perm l : sort_by l ≡ₚ l.
Proof. induction l as [|x l IH]; simpl; [done|]. by rewrite insert_by_perm, IH. Qed.
Lemma sort_by_length l : length (sort_by l) = length l.
Proof. by rewrite sort_by_perm. Qed.
Lemma elem_of_sort_by x l : x ∈ sort_by l ↔ x ∈ l.
Proof. by rewrite sort_by_perm. Qed.

(** The sort is stable: elements that compare equal keep their order. *)
Lemma insert_by_stable (P : A → Prop) `{∀ a, Decision (P a)} x l :
  (∀ a b, P a → P b → less a b = false) → filter P (insert_by x l) = filter P (x :: l).
Proof.
  intros HP. induction l as [|y l IH]; [done|]. cbn [insert_by].
  destruct (less y x) eqn:E; [|done]. rewrite filter_cons, IH, !filter_cons.
  repeat case_decide; try done. by rewrite (HP y x) in E.
Qed.
Lemma sort_by_stable (P : A → Prop) `{∀ a, Decision (P a)} l :
  (∀ a b, P a → P b → less a b = false) → filter P (sort_by l) = filter P l.
Proof.
  intros HP. induction l as [|x l IH]; [done|]. cbn [sort_by foldr].
  rewrite insert_by_stable by done. rewrite !filter_cons. by fold (sort_by l); rewrite IH.
Qed.

(** The order of a sorted slice: no later element is less than an earlier one. *)
Definition not_after (a b : A) : Prop := less b a = false.

Class StrictWeakOrder : Prop := {
  swo_asym a b : less a b = true → less b a = false;
  swo_negtrans a b c : less b a = false → less c b = false → less c a = false;
}.

Context `{!StrictWeakOrder}.

Lemma swo_irrefl a : less a a = false.
Proof. destruct (less a a) eqn:E; [|done]. by rewrite (swo_asym _ _ E) in E. Qed.

Lemma insert_by_sorted x l :
  StronglySorted not_after l → StronglySorted not_after (insert_by x l).
Proof.
  induction 1 as [|y l Hl IH Hy]; simpl; [by repeat constructor|].
  destruct (less y x) eqn:E.
  - constructor; [done|]. rewrite insert_by_perm. constructor; [|done].
    by apply swo_asym.
  - constructor; [by constructor|]. constructor; [done|].
    eapply Forall_impl; [exact Hy|]. intros z Hz. by apply (swo_negtrans x y z).
Qed.
Lemma sort_by_sorted l : StronglySorted not_after (sort_by l).
Proof. induction l; simpl; [constructor|by apply insert_by_sorted]. Qed.

(** A sorted slice is left as it is. *)
Lemma sort_by_id l : StronglySorted not_after l → sort_by l = l.
Proof.
  induction 1 as [|x l Hl IH Hx]; simpl; [done|]. rewrite IH.
  destruct l as [|y l]; simpl; [done|].
  inversion Hx as [|? ? Hy _]; subst. by rewrite Hy.
Qed.

(** When the order tells all elements apart the result does not depend on the
    order of the input. *)
Lemma sorted_unique l1 l2 :
  (∀ a b, a ∈ l1 → b ∈ l1 → less a b = false → less b a = false → a = b) →
  StronglySorted not_after l1 → StronglySorted not_after l2 → l1 ≡ₚ l2 → l1 = l2.
Proof.
  intros Htot H1. revert l2. induction H1 as [|x l1 H1 IH Hx1]; intros l2 H2 Hp.
  { symmetry in Hp. by apply Permutation_nil_r in Hp. }
  destruct l2 as [|y l2]; [by apply Permutation_nil_r in Hp|].
  inversion H2 as [|? ? H2' Hy2]; subst.
  assert (x = y) as <-.
  { assert (x ∈ y :: l2) as Hx by (rewrite <- Hp; left).
    assert (y ∈ x :: l1) as Hy by (rewrite Hp; left).
    rewrite Forall_forall in Hx1, Hy2.
    apply elem_of_cons in Hx as [->|Hx]; [done|].
    pose proof Hy as Hy'. apply elem_of_cons in Hy as [->|Hy]; [done|].
    apply Htot; [left|done|by apply Hy2|by apply Hx1]. }
  f_equal. apply IH; [|done|by apply (Permutation_cons_inv (a := x))].
  intros a b Ha Hb. apply Htot; by right.
Qed.
Lemma sort_by_unique l1 l2 :
  (∀ a b, a ∈ l1 → b ∈ l1 → less a b = false → less b a = false → a = b) →
  l1 ≡ₚ l2 → sort_by l1 = sort_by l2.
Proof.
  intros Htot Hp. apply sorted_unique; [|apply sort_by_sorted..|].
  - intros a b Ha Hb. rewrite !elem_of_sort_by in *. by apply Htot.
  - by rewrite !sort_by_perm.
Qed.
End sort.
Arguments StrictWeakOrder {A} less.

Lemma swo_ext {A} (less less' : A → A → bool) :
  (∀ a b, less' a b = less a b) → StrictWeakOrder less' → StrictWeakOrder less.
Proof.
  intros He [H1 H2]. split; intros *; rewrite <- !He; [apply H1|apply H2].
Qed.

(** ** Comparison chains *)

Section chains.
Context {A : Type}.
Implicit Type rest : A → A → bool.

(** [if a.k != b.k { return a.k < b.k }; rest] *)
Definition asc_Z (k : A → Z) rest (a b : A) : bool :=
  if bool_decide (k a = k b) then rest a b else k a <? k b.
(** [if a.k != b.k { return a.k > b.k }; rest] *)
Definition desc_Z (k : A → Z) rest (a b : A) : bool :=
  if bool_decide (k a = k b) then rest a b else k b <? k a.
(** [if a.k != b.k { return a.k < b.k }; rest] on strings *)
Definition asc_str (k : A → string) rest (a b : A) : bool :=
  if bool_decide (k a = k b) then rest a b else string_lt (k a) (k b).
(** [if a.k != b.k { return a.k }; rest] on booleans *)
Definition true_first (k : A → bool) rest (a b : A) : bool :=
  if bool_decide (k a = k b) then rest a b else k a.
(** the end of a chain whose last key is compared without a test *)
Definition no_less (_ _ : A) : bool := false.

#[export] Instance no_less_swo : StrictWeakOrder no_less.
Proof. by split. Qed.

#[export] Instance asc_Z_swo k rest : StrictWeakOrder rest → StrictWeakOrder (asc_Z k rest).
Proof.
  intros H. unfold asc_Z. split; intros *.
  - repeat case_bool_decide; try congruence; [apply (swo_asym rest)|].
    destruct (Z.ltb_spec (k a) (k b)), (Z.ltb_spec (k b) (k a)); done || lia.
  - repeat case_bool_decide; try congruence; try lia.
    by apply (swo_negtrans rest).
Qed.
#[export] Instance desc_Z_swo k rest : StrictWeakOrder rest → StrictWeakOrder (desc_Z k rest).
Proof.
  intros H. unfold desc_Z. split; intros *.
  - repeat case_bool_decide; try congruence; [apply (swo_asym rest)|].
    destruct (Z.ltb_spec (k a) (k b)), (Z.ltb_spec (k b) (k a)); done || lia.
  - repeat case_bool_decide; try congruence; try lia.
    by apply (swo_negtrans rest).
Qed.
#[export] Instance asc_str_swo k rest : StrictWeakOrder rest → StrictWeakOrder (asc_str k rest).
Proof.
  intros H. unfold asc_str. split; intros *.
  - repeat case_bool_decide; try congruence; [apply (swo_asym rest)|]. apply string_lt_asym.
  - repeat case_bool_decide; try congruence; intros Hba Hcb;
      first [by apply (swo_negtrans rest a b c)
            |by apply (string_lt_negtrans (k a) (k b) (k c))
            |by replace (k a) with (k b) by congruence
            |by replace (k c) with (k b) by congruence
            |exfalso; destruct (string_lt_total (k b) (k a)); congruence].
Qed.
#[export] Instance true_first_swo k rest : StrictWeakOrder rest → StrictWeakOrder (true_first k rest).
Proof.
  intros H. unfold true_first. split; intros *.
  - repeat case_bool_decide; try congruence; [apply (swo_asym rest)|].
    destruct (k a), (k b); done.
  - repeat case_bool_decide; try congruence; intros;
      first [by apply (swo_negtrans rest a b c)|destruct (k a), (k b), (k c); done].
Qed.
End chains.

Abbreviation asc_Z_last k := (asc_Z k no_less).
Abbreviation desc_Z_last k := (desc_Z k no_less).
Abbreviation asc_str_last k := (asc_str k no_less).
