(* ===== verification/GoFloat.v ===== *)
(** * float64

    IEEE 754 binary64 arithmetic with [spec_float] of the Standard Library at
    precision 53 and exponent bound 1024; every operation rounds to nearest,
    ties to even, as Go's [float64] does. *)

From S2P Require Import Prelude GoString.

Definition float64 := spec_float.

Definition f_zero : float64 := S754_zero false.
(** [float64(n)] for an integer *)
Definition f_of_Z (z : Z) : float64 := binary_normalize 53 1024 z 0 false.
Definition f_add : float64 → float64 → float64 := SFadd 53 1024.
Definition f_mul : float64 → float64 → float64 := SFmul 53 1024.
Definition f_div : float64 → float64 → float64 := SFdiv 53 1024.
Definition f_lt : float64 → float64 → bool := SFltb.

(** The value of a finite float is [m * 2^e]; integer roundings of it. *)
Definition f_signed (s : bool) (z : Z) : Z := if s then - z else z.

(** int(math.Round(x)): halves away from zero; [oor] is what the conversion of
    a value outside the integer type gives, which Go leaves to the
    implementation. *)
Definition f_round_to_int (lo hi : Z) (oor : float64 → Z) (x : float64) : Z :=
  match x with
  | S754_zero _ => 0
  | S754_finite s m e =>
      let n := if 0 <=? e then Z.pos m * 2^e
               else (2 * Z.pos m + 2^(-e)) / (2 * 2^(-e)) in
      let r := f_signed s n in
      if (lo <=? r) && (r <? hi) then r else oor x
  | _ => oor x
  end.

(** uint64(math.Ceil(x)) *)
Definition f_ceil_to_u64 (oor : float64 → Z) (x : float64) : Z :=
  match x with
  | S754_zero _ => 0
  | S754_finite s m e =>
      let num := f_signed s (Z.pos m) in
      let r := if 0 <=? e then num * 2^e else - ((- num) / 2^(-e)) in
      if (0 <=? r) && (r <? 2^64) then r else oor x
  | _ => oor x
  end.

(** int(x): toward zero *)
Definition f_trunc_to_int (lo hi : Z) (oor : float64 → Z) (x : float64) : Z :=
  match x with
  | S754_zero _ => 0
  | S754_finite s m e =>
      let n := if 0 <=? e then Z.pos m * 2^e else Z.pos m / 2^(-e) in
      let r := f_signed s n in
      if (lo <=? r) && (r <? hi) then r else oor x
  | _ => oor x
  end.

Definition f_tenths (m : positive) (e : Z) : Z :=
  if 0 <=? e then 10 * Z.pos m * 2^e
  else let q := 10 * Z.pos m / 2^(-e) in
       let r := 10 * Z.pos m mod 2^(-e) in
       if 2 * r <? 2^(-e) then q
       else if 2^(-e) <? 2 * r then q + 1
       else if Z.even q then q else q + 1.

(** The [%.1f] verb: the exact value rounded to tenths, ties to even. *)
Definition f_fmt1 (x : float64) : string :=
  match x with
  | S754_nan => "NaN"
  | S754_infinity s => if s then "-Inf" else "+Inf"
  | S754_zero s => if s then "-0.0" else "0.0"
  | S754_finite s m e =>
      let t := f_tenths m e in
      ((if s then "-" else "") +:+ Itoa (t / 10)%Z +:+ "." +:+ Itoa (t mod 10)%Z)%string
  end.

Definition f_le : float64 → float64 → bool := SFleb.

(** ** strconv.ParseFloat

    Decimal literals [digits] and [digits.digits] are read exactly and rounded
    once; the other spellings (signs, exponents, hexadecimal, infinities, NaN)
    are left to the instance. *)

Fixpoint digits (acc : Z) (s : string) : option Z :=
  match s with
  | "" => Some acc
  | String a s =>
      let n := Ascii.nat_of_ascii a in
      if (48 <=? n)%nat && (n <=? 57)%nat then digits (10 * acc + Z.of_nat (n - 48)) s else None
  end.

(** [m / 10^k], rounded to nearest even *)
Definition f_decimal (m : Z) (k : nat) : float64 :=
  match m, Z.of_nat k with
  | Zpos m, Zpos k =>
      let '(q, e, l) := SFdiv_core_binary 53 1024 (Zpos m) 0 (10 ^ Zpos k) 0 in
      binary_round_aux 53 1024 false q e l
  | m, _ => f_of_Z m
  end.

Definition decimal_literal (s : string) : option float64 :=
  match Split s (Ascii.ascii_of_nat 46) with
  | [int] => if str_eqb int "" then None else m ← digits 0 int; Some (f_decimal m 0)
  | [int; frac] =>
      if str_eqb int "" || str_eqb frac "" then None
      else m ← digits 0 (int +:+ frac); Some (f_decimal m (String.length frac))
  | _ => None
  end.

Definition is_finite (x : float64) : bool :=
  match x with S754_zero _ | S754_finite _ _ _ => true | _ => false end.

(** The value, or [None] for an error. *)
Class FloatSyntax := {
  ParseFloat : string → option float64;
  ParseFloat_decimal s f : decimal_literal s = Some f → is_finite f = true → ParseFloat s = Some f;
}.
Definition decimal_syntax : FloatSyntax := {|
  ParseFloat := decimal_literal; ParseFloat_decimal s f H _ := H |}.

(** ** The order of floats is transitive, NaN included *)

Lemma f_lt_spec a b : f_lt a b = true ↔ SFcompare a b = Some Lt.
Proof. unfold f_lt, SFltb. by destruct (SFcompare a b) as [[]|]. Qed.

Lemma finite_compare_lt s m1 e1 m2 e2 :
  SFcompare (S754_finite s m1 e1) (S754_finite s m2 e2) = Some Lt ↔
  if s then e2 < e1 ∨ (e1 = e2 ∧ (m2 < m1)%positive)
  else e1 < e2 ∨ (e1 = e2 ∧ (m1 < m2)%positive).
Proof.
  simpl. change (PosDef.Pos.compare_cont Eq m1 m2) with (m1 ?= m2)%positive.
  destruct s, (Z.compare_spec e1 e2), (Pos.compare_spec m1 m2); simpl;
    (split; [intros [=]; lia|intros ?; done || lia]).
Qed.

Lemma f_lt_trans a b c : f_lt a b = true → f_lt b c = true → f_lt a c = true.
Proof.
  rewrite !f_lt_spec.
  destruct a as [[]|[]| |[] m1 e1], b as [[]|[]| |[] m2 e2], c as [[]|[]| |[] m3 e3];
    try done; rewrite !finite_compare_lt; intuition (lia || congruence).
Qed.
Lemma f_lt_irrefl a : f_lt a a = false.
Proof.
  destruct (f_lt a a) eqn:E; [|done]. apply f_lt_spec in E. exfalso.
  destruct a as [[]|[]| |[] m e]; try done; apply finite_compare_lt in E; lia.
Qed.
