(* ===== verification/World.v ===== *)
(** * The run-time environment of one call

    A Go method reads the clock, draws random identifiers, walks maps in an
    order the runtime picks and sorts with an unstable sort.  A [World] fixes
    these choices for one call of an operation: each is indexed by a tag that
    names the place (and, inside a loop, the key) where the choice is made, so
    that two places never share a choice.  Theorems hold for every world. *)

From S2P Require Import Prelude GoString GoSort GoFloat.

(** [time.Time]: nanoseconds after the zero time; [time.Time{}] is 0. *)
Abbreviation Time := Z (only parsing).
Abbreviation Tag := (list string) (only parsing).

Class World := mkWorld {
  (** [time.Now().UTC()] *)
  w_clock : Tag → Time;
  (** the order in which a map range, or an unstable sort, presents elements *)
  w_perm : Tag → ∀ A : Type, list A → list A;
  w_perm_ok : ∀ t A (l : list A), w_perm t A l ≡ₚ l;
  (** [rand.Read] into a fresh buffer: the bytes, or [None] for an error *)
  w_rand : Tag → option string;
  (** a float-to-integer conversion out of range, implementation-specific *)
  w_fconv : float64 → Z;
}.
Arguments w_perm {_} t {A} l.

(** The keys of a map in the order a [for key, value := range m] visits them. *)
Definition range_keys `{World} {V} (t : Tag) (m : gmap string V) : list string :=
  w_perm t (map_to_list m).*1.
(** The values in that order. *)
Definition range_values `{World} {V} (t : Tag) (m : gmap string V) : list V :=
  w_perm t (map_to_list m).*2.

(** An operation that calls others gives each call a world of its own. *)
Definition sub_world `{W : World} (p : Tag) : World := {|
  w_clock t := w_clock (p ++ t);
  w_perm t := λ A, @w_perm W (p ++ t) A;
  w_perm_ok t A l := w_perm_ok (p ++ t) A l;
  w_rand t := w_rand (p ++ t);
  w_fconv := w_fconv;
|}.

(** [runtime.GOOS] and [runtime.GOARCH]. *)
Class Platform := { GOOS : string; GOARCH : string }.
Definition platform `{Platform} : string := GOOS +:+ "/" +:+ GOARCH.

(** sort.Slice *)
Definition sort_slice `{World} {A} (t : Tag) (less : A → A → bool) (l : list A) : list A :=
  sort_by less (w_perm t l).

Definition IsZero (t : Time) : bool := t =? 0.
(** [t.Sub(u)] saturates at the bounds of [time.Duration]. *)
Definition time_Sub (t u : Time) : Z := Z.max (- 2^63) (Z.min (2^63 - 1) (t - u)).
Definition Second : Z := 1000000000.

(** [time.Format] with the layout [time.RFC3339], in UTC: the civil date of a
    day count from 0001-01-01, by 400-year eras that start in March. *)
Definition civil (days : Z) : Z * Z * Z :=
  let z := days + 306 in
  let era := z / 146097 in
  let doe := z mod 146097 in
  let yoe := (doe - doe / 1460 + doe / 36524 - doe / 146096) / 365 in
  let doy := doe - (365 * yoe + yoe / 4 - yoe / 100) in
  let mp := (5 * doy + 2) / 153 in
  let d := doy - (153 * mp + 2) / 5 + 1 in
  let m := if mp <? 10 then mp + 3 else mp - 9 in
  (yoe + era * 400 + (if m <=? 2 then 1 else 0), m, d).
Definition pad (n : nat) (z : Z) : string :=
  let s := Itoa z in
  String.concat "" (replicate (n - String.length s) "0"%string) +:+ s.
Definition FormatRFC3339 (t : Time) : string :=
  let secs := t / Second in
  let '(y, m, d) := civil (secs / 86400) in
  let sod := secs mod 86400 in
  pad 4 y +:+ "-" +:+ pad 2 m +:+ "-" +:+ pad 2 d +:+ "T" +:+ pad 2 (sod / 3600) +:+ ":"
    +:+ pad 2 (sod / 60 mod 60) +:+ ":" +:+ pad 2 (sod mod 60) +:+ "Z".

(** The identifier generators: [prefix-unknown] when [rand.Read] fails. *)
Definition newID (prefix : string) (buf : option string) : string :=
  match buf with
  | None => prefix +:+ "-unknown"
  | Some buf => prefix +:+ "-" +:+ hex_encode buf
  end.

(** A world for evaluating examples: a clock that stands at [now], maps walked
    in their internal order, and [salt] with the tag's text as random bytes. *)
Definition salted_world (salt : string) (now : Time) : World := {|
  w_clock := λ _, now;
  w_perm := λ _ _ l, l;
  w_perm_ok := λ _ _ _, reflexivity _;
  w_rand := λ t, Some (Join (salt :: t) "/");
  w_fconv := λ _, - 2^63;
|}.
Definition world_at : Time → World := salted_world "".

(** ** Lemmas *)

Lemma string_app_inj_l p s t : (p +:+ s) = (p +:+ t) → s = t.
Proof. induction p as [|a p IH]; simpl; [done|]. intros [= H]. by apply IH. Qed.

Lemma newID_inj prefix b1 b2 :
  newID prefix (Some b1) = newID prefix (Some b2) → b1 = b2.
Proof.
  unfold newID. intros H. apply string_app_inj_l in H. injection H as H.
  by apply hex_encode_inj.
Qed.

Lemma newID_ascii prefix buf : is_ascii prefix = true → is_ascii (newID prefix buf) = true.
Proof. intros Hp. unfold newID. destruct buf; rewrite !is_ascii_app, Hp, ?hex_ascii; reflexivity. Qed.

Section lemmas.
Context `{World}.

Lemma range_keys_elem {V} t (m : gmap string V) k :
  k ∈ range_keys t m ↔ is_Some (m !! k).
Proof.
  unfold range_keys. rewrite w_perm_ok. rewrite <- elem_of_dom.
  rewrite list_elem_of_fmap. split.
  - intros ((k' & v) & -> & Hin). apply elem_of_map_to_list in Hin.
    apply elem_of_dom. by eexists.
  - intros [v Hv]%elem_of_dom. exists (k, v). split; [done|]. by apply elem_of_map_to_list.
Qed.
Lemma range_keys_NoDup {V} t (m : gmap string V) : NoDup (range_keys t m).
Proof. unfold range_keys. rewrite w_perm_ok. apply NoDup_fst_map_to_list. Qed.
Lemma range_values_elem {V} t (m : gmap string V) v :
  v ∈ range_values t m ↔ ∃ k, m !! k = Some v.
Proof.
  unfold range_values. rewrite w_perm_ok, list_elem_of_fmap. split.
  - intros ((k & v') & -> & Hin). apply elem_of_map_to_list in Hin. by exists k.
  - intros [k Hk]. exists (k, v). split; [done|]. by apply elem_of_map_to_list.
Qed.
Lemma range_values_perm {V} t (m : gmap string V) : range_values t m ≡ₚ (map_to_list m).*2.
Proof. apply w_perm_ok. Qed.

Lemma sort_slice_perm {A} t less (l : list A) : sort_slice t less l ≡ₚ l.
Proof. unfold sort_slice. by rewrite sort_by_perm, w_perm_ok. Qed.
Lemma sort_slice_sorted {A} t less (l : list A) :
  StrictWeakOrder less → StronglySorted (not_after less) (sort_slice t less l).
Proof. intros. by apply sort_by_sorted. Qed.
Lemma elem_of_sort_slice {A} t less (l : list A) x : x ∈ sort_slice t less l ↔ x ∈ l.
Proof. by rewrite sort_slice_perm. Qed.
End lemmas.
