(* ===== verification/Json.v ===== *)
(** * encoding/json as an interface

    Job inputs and results are JSON text whose structs the code encodes and
    decodes with [json.Marshal] and [json.Unmarshal].  The text itself is opaque
    to the manager; what it relies on is the contract of this class: decoding
    what was encoded gives the value back (for values whose strings are valid
    UTF-8, [json_ok]).  [codec] is an instance for evaluating examples. *)

From S2P Require Import Prelude GoString.

Class Json (A : Type) := {
  Marshal : A → string;
  Unmarshal : string → option A;
  json_ok : A → Prop;
  json_roundtrip : ∀ x, json_ok x → Unmarshal (Marshal x) = Some x;
}.

(** A value of a [map[string]any], the payloads built field by field. *)
Inductive any :=
  | any_int (z : Z)
  | any_string (s : string)
  | any_time (t : Z)
  | any_float (f : SpecFloat.spec_float)
  | any_other (text : string).

(** [json.Marshal] and [json.Unmarshal] on such a map.  Encoding fails on a float
    that is not finite; decoding the text [null] succeeds and leaves a nil map,
    the inner [None]. *)
Definition plain_any (v : any) : Prop :=
  match v with any_int _ | any_string _ => True | _ => False end.
Class JsonMap := {
  Marshal_map : gmap string any → option string;
  Unmarshal_map : string → option (option (gmap string any));
  Marshal_map_ok m : map_Forall (λ _ v, plain_any v) m → is_Some (Marshal_map m);
}.

(** ** An instance for examples: any countable type, as a bit string. *)

Definition bit0 : Ascii.ascii := Ascii.ascii_of_nat 48.
Definition bit1 : Ascii.ascii := Ascii.ascii_of_nat 49.

Fixpoint bits_of_pos (p : positive) : string :=
  match p with
  | xH => String bit1 ""
  | xO p => String bit0 (bits_of_pos p)
  | xI p => String bit1 (bits_of_pos p)
  end.
Fixpoint pos_of_bits (s : string) : option positive :=
  match s with
  | "" => None
  | String a "" => if Ascii.eqb a bit1 then Some xH else None
  | String a s => p ← pos_of_bits s; Some (if Ascii.eqb a bit1 then xI p else xO p)
  end.

Lemma pos_of_bits_of_pos p : pos_of_bits (bits_of_pos p) = Some p.
Proof.
  induction p as [p IH|p IH|]; simpl; [..|done];
    destruct (bits_of_pos p) eqn:E; try (by destruct p); by rewrite IH.
Qed.

Definition decode_bits {A} `{Countable A} (s : string) : option A :=
  match pos_of_bits s with Some p => decode p | None => None end.
Lemma decode_bits_encode {A} `{Countable A} (x : A) :
  decode_bits (bits_of_pos (encode x)) = Some x.
Proof. unfold decode_bits. by rewrite pos_of_bits_of_pos, decode_encode. Qed.

Definition codec (A : Type) `{Countable A} : Json A := {|
  Marshal x := bits_of_pos (encode x);
  Unmarshal := decode_bits;
  json_ok _ := True;
  json_roundtrip := λ x _, decode_bits_encode x;
|}.

Definition opaque_map_codec : JsonMap := {|
  Marshal_map _ := Some "{}"%string;
  Unmarshal_map s := Some (if String.eqb s "null" then None else Some ∅);
  Marshal_map_ok m _ := ltac:(by eexists);
|}.

(** A codec for one value, for examples that decode a single payload. *)
Definition fixed_codec {A} (x : A) : Json A := {|
  Marshal _ := "";
  Unmarshal _ := Some x;
  json_ok y := y = x;
  json_roundtrip := λ y H, f_equal Some (eq_sym H);
|}.
