(* ===== verification/Cdip.v ===== *)
(** * Package cdip: the distributed inference protocol

    [internal/cdip/types.go]: envelopes, the message types with their
    validation, stage chains, shard manifests and the stage state machine.  A
    validation function returns [None] for a nil error and otherwise the error
    of the guard that stopped it; the error's constructor carries the values the
    Go error message prints. *)

From S2P Require Import Prelude GoString.

Definition Protocol : string := "cdip".
Definition Version : string := "0.1".

(** A Go [MessageType] is a string; [MessageOther] is any string but the
    declared constants. *)
Inductive MessageType :=
  | MessageNodeHello | MessagePlanProposal | MessageShardManifest
  | MessageStagePrepare | MessageStageReady | MessageStagePrefill
  | MessageStageDecode | MessageStageComplete | MessageStageAbort
  | MessageActivationChunk | MessageError
  | MessageOther (s : string).
#[export] Instance MessageType_eq_dec : EqDecision MessageType.
Proof. solve_decision. Defined.

Record Envelope := mkEnvelope {
  env_Protocol : string;
  env_Version : string;
  env_Type : MessageType;
}.

Definition NewEnvelope (messageType : MessageType) : Envelope :=
  mkEnvelope Protocol Version messageType.

Definition KnownMessageType (messageType : MessageType) : bool :=
  match messageType with
  | MessageNodeHello | MessagePlanProposal | MessageShardManifest
  | MessageStagePrepare | MessageStageReady | MessageStagePrefill
  | MessageStageDecode | MessageStageComplete | MessageStageAbort
  | MessageActivationChunk | MessageError => true
  | MessageOther _ => false
  end.

Inductive ShardMaterialization :=
  | ShardLogicalLayers | ShardPhysicalArtifact
  | ShardMaterializationOther (s : string).
#[export] Instance ShardMaterialization_eq_dec : EqDecision ShardMaterialization.
Proof. solve_decision. Defined.

Inductive error :=
  | UnsupportedProtocol (p : string)
  | UnsupportedVersion (v : string)
  | UnknownMessageType (t : MessageType)
  | ExpectedMessage (want got : MessageType)
  | NodeIDRequired
  | ResourceRequired
  | ModelIDRequired
  | ModeRequired
  | RuntimeRequired
  | TotalLayersNotPositive
  | UnknownMaterialization (m : ShardMaterialization)
  | NoShards
  | ShardRuntimeRequired (i : Z)
  | ShardMaterializationInvalid (i : Z) (m : ShardMaterialization)
  | ShardLayerEndExceeds (i layerEnd totalLayers : Z)
  | FirstShardStart (layerStart : Z)
  | LastShardEnd (want got : Z)
  | ParentJobIDRequired
  | StageJobIDRequired
  | StageNodeIDRequired
  | StageLayerRangeInvalid
  | NotAStageCommand (t : MessageType)
  | StageIndexNegative
  | ContentTypeRequired
  | PayloadBytesRequired
  | CodeRequired
  | MessageRequired
  | StageIndexMismatch (got position : Z)
  | ChainNodeIDRequired (i : Z)
  | ChainStart (i start expected : Z)
  | ChainRangeInvalid (i : Z).

Definition Envelope_Validate (e : Envelope) : option error :=
  first_error [
    (negb (str_eqb (env_Protocol e) Protocol), UnsupportedProtocol (env_Protocol e));
    (negb (str_eqb (env_Version e) Version), UnsupportedVersion (env_Version e));
    (negb (KnownMessageType (env_Type e)), UnknownMessageType (env_Type e))].

(** The two checks every message starts with. *)
Definition envelope_of_type (e : Envelope) (want : MessageType) : option error :=
  match Envelope_Validate e with
  | Some err => Some err
  | None => first_error [(negb (bool_decide (env_Type e = want)), ExpectedMessage want (env_Type e))]
  end.

Record RuntimeCapability := mkRuntimeCapability {
  rcap_Name : string; rcap_Ready : bool; rcap_Features : list string }.
Record ResourceCapability := mkResourceCapability {
  rescap_CPUCores : Z; rescap_MemoryBytes : Z; rescap_DiskBytes : Z; rescap_VRAMBytes : Z }.
Record NetworkCapability := mkNetworkCapability {
  net_ListenEndpoint : string; net_EstimatedRTTMS : Z }.

Record NodeHello := mkNodeHello {
  hello_Envelope : Envelope;
  hello_NodeID : string;
  hello_Runtimes : list RuntimeCapability;
  hello_Resources : ResourceCapability;
  hello_Network : NetworkCapability }.

Definition andthen {E} (a b : option E) : option E := match a with Some e => Some e | None => b end.

Definition NodeHello_Validate (m : NodeHello) : option error :=
  let r := hello_Resources m in
  andthen (envelope_of_type (hello_Envelope m) MessageNodeHello) (first_error [
    (blank (hello_NodeID m), NodeIDRequired);
    ((rescap_CPUCores r <=? 0) && (rescap_MemoryBytes r =? 0) && (rescap_DiskBytes r =? 0)
       && (rescap_VRAMBytes r =? 0), ResourceRequired)]).

Record Stage := mkStage {
  stage_Index : Z;
  stage_NodeID : string;
  stage_NodeName : string;
  stage_LayerStart : Z;
  stage_LayerEnd : Z }.
#[export] Instance Stage_eq_dec : EqDecision Stage.
Proof. solve_decision. Defined.

(** [Stage.Layers]: the subtraction is on Go [int]s. *)
Definition Stage_Layers (s : Stage) : Z :=
  if stage_LayerEnd s <? stage_LayerStart s then 0
  else i64 (stage_LayerEnd s - stage_LayerStart s + 1).

(** The loop of [ValidateStageChain]: position [i], next expected layer
    [expectedStart]. *)
Fixpoint stage_chain_loop (i expectedStart : Z) (stages : list Stage) : option error :=
  match stages with
  | [] => None
  | stage :: rest =>
      match first_error [
        (negb (stage_Index stage =? i), StageIndexMismatch (stage_Index stage) i);
        (blank (stage_NodeID stage), ChainNodeIDRequired i);
        (negb (stage_LayerStart stage =? expectedStart),
           ChainStart i (stage_LayerStart stage) expectedStart);
        (stage_LayerEnd stage <? stage_LayerStart stage, ChainRangeInvalid i)]
      with
      | Some e => Some e
      | None => stage_chain_loop (i + 1) (i64 (stage_LayerEnd stage + 1)) rest
      end
  end.

Definition ValidateStageChain (stages : list Stage) : option error :=
  match stages with
  | [] => None
  | s0 :: _ => stage_chain_loop 0 (stage_LayerStart s0) stages
  end.

Record PlanProposal := mkPlanProposal {
  plan_Envelope : Envelope;
  plan_ModelID : string;
  plan_Mode : string;
  plan_Runtime : string;
  plan_ExecutableNow : bool;
  plan_Stages : list Stage;
  plan_Blockers : list string }.

Definition PlanProposal_Validate (m : PlanProposal) : option error :=
  andthen (envelope_of_type (plan_Envelope m) MessagePlanProposal)
    (andthen (first_error [
       (blank (plan_ModelID m), ModelIDRequired);
       (blank (plan_Mode m), ModeRequired)])
     (ValidateStageChain (plan_Stages m))).

Record ModelArtifact := mkModelArtifact {
  art_ModelID : string; art_Runtime : string; art_Repository : string; art_File : string;
  art_URL : string; art_Quant : string; art_Parameters : string; art_Checksum : string;
  art_Bytes : Z }.

Record ModelShard := mkModelShard {
  shard_Stage : Stage;
  shard_Runtime : string;
  shard_RequiredMemoryBytes : Z;
  shard_RequiredDiskBytes : Z;
  shard_SourceArtifact : string;
  shard_TargetArtifact : string;
  shard_Materialization : ShardMaterialization;
  shard_Capabilities : list string }.

Record ShardManifest := mkShardManifest {
  man_Envelope : Envelope;
  man_Model : ModelArtifact;
  man_Mode : string;
  man_TotalLayers : Z;
  man_Materialization : ShardMaterialization;
  man_Shards : list ModelShard;
  man_Warnings : list string }.

Definition KnownShardMaterialization (m : ShardMaterialization) : bool :=
  match m with
  | ShardLogicalLayers | ShardPhysicalArtifact => true
  | ShardMaterializationOther _ => false
  end.

(** The loop over the shards; it collects the stages. *)
Fixpoint shard_loop (i totalLayers : Z) (shards : list ModelShard) : result error (list Stage) :=
  match shards with
  | [] => Ok []
  | shard :: rest =>
      check (first_error [
        (blank (shard_Runtime shard), ShardRuntimeRequired i);
        (negb (KnownShardMaterialization (shard_Materialization shard)),
           ShardMaterializationInvalid i (shard_Materialization shard));
        (totalLayers <=? stage_LayerEnd (shard_Stage shard),
           ShardLayerEndExceeds i (stage_LayerEnd (shard_Stage shard)) totalLayers)])
      (stages ← shard_loop (i + 1) totalLayers rest; Ok (shard_Stage shard :: stages))
  end.

Definition ShardManifest_Validate (m : ShardManifest) : option error :=
  andthen (envelope_of_type (man_Envelope m) MessageShardManifest)
    (andthen (first_error [
       (blank (art_ModelID (man_Model m)), ModelIDRequired);
       (blank (art_Runtime (man_Model m)), RuntimeRequired);
       (blank (man_Mode m), ModeRequired);
       (man_TotalLayers m <=? 0, TotalLayersNotPositive);
       (negb (KnownShardMaterialization (man_Materialization m)),
          UnknownMaterialization (man_Materialization m));
       (Nat.eqb (length (man_Shards m)) 0, NoShards)])
     match shard_loop 0 (man_TotalLayers m) (man_Shards m) with
     | Err e => Some e
     | Ok stages =>
         andthen (ValidateStageChain stages)
           match stages, last stages with
           | s0 :: _, Some sl =>
               first_error [
                 (negb (stage_LayerStart s0 =? 0), FirstShardStart (stage_LayerStart s0));
                 (negb (stage_LayerEnd sl =? man_TotalLayers m - 1),
                    LastShardEnd (man_TotalLayers m - 1) (stage_LayerEnd sl))]
           | _, _ => None (* unreachable: [len(m.Shards) > 0] was checked *)
           end
     end).

Record StagePrepare := mkStagePrepare {
  prep_Envelope : Envelope;
  prep_ParentJobID : string;
  prep_StageJobID : string;
  prep_ModelID : string;
  prep_Stage : Stage;
  prep_UpstreamNodeID : string;
  prep_DownstreamNodeID : string }.

Definition StagePrepare_Validate (m : StagePrepare) : option error :=
  andthen (envelope_of_type (prep_Envelope m) MessageStagePrepare) (first_error [
    (blank (prep_ParentJobID m), ParentJobIDRequired);
    (blank (prep_StageJobID m), StageJobIDRequired);
    (blank (prep_ModelID m), ModelIDRequired);
    (blank (stage_NodeID (prep_Stage m)), StageNodeIDRequired);
    (Stage_Layers (prep_Stage m) <=? 0, StageLayerRangeInvalid)]).

Record StageCommand := mkStageCommand {
  cmd_Envelope : Envelope;
  cmd_ParentJobID : string;
  cmd_StageJobID : string;
  cmd_StageIndex : Z;
  cmd_Step : Z }.

Definition isStageCommand (t : MessageType) : bool :=
  match t with
  | MessageStagePrefill | MessageStageDecode | MessageStageComplete | MessageStageAbort => true
  | _ => false
  end.

Definition StageCommand_Validate (m : StageCommand) (expected : MessageType) : option error :=
  andthen (envelope_of_type (cmd_Envelope m) expected) (first_error [
    (negb (isStageCommand expected), NotAStageCommand expected);
    (blank (cmd_ParentJobID m), ParentJobIDRequired);
    (blank (cmd_StageJobID m), StageJobIDRequired);
    (cmd_StageIndex m <? 0, StageIndexNegative)]).

(** [StageNone] is the empty string, the zero value of a job that is no stage. *)
Inductive StageState :=
  | StageNone
  | StagePlanned | StagePreparing | StageReady | StagePrefill | StageDecode
  | StageCompleted | StageFailed | StageAborted
  | StageOther (s : string).
#[export] Instance StageState_eq_dec : EqDecision StageState.
Proof. solve_decision. Defined.

Definition CanTransition (from to : StageState) : bool :=
  if bool_decide (from = to) then true else
  match from with
  | StagePlanned =>
      bool_decide (to = StagePreparing) || bool_decide (to = StageAborted) || bool_decide (to = StageFailed)
  | StagePreparing =>
      bool_decide (to = StageReady) || bool_decide (to = StageAborted) || bool_decide (to = StageFailed)
  | StageReady =>
      bool_decide (to = StagePrefill) || bool_decide (to = StageAborted) || bool_decide (to = StageFailed)
  | StagePrefill =>
      bool_decide (to = StageDecode) || bool_decide (to = StageAborted) || bool_decide (to = StageFailed)
  | StageDecode =>
      bool_decide (to = StageCompleted) || bool_decide (to = StageAborted) || bool_decide (to = StageFailed)
  | StageCompleted | StageFailed | StageAborted => false
  | _ => false
  end.

Record ActivationChunk := mkActivationChunk {
  chunk_Envelope : Envelope;
  chunk_ParentJobID : string;
  chunk_StageJobID : string;
  chunk_Sequence : Z;
  chunk_ContentType : string;
  chunk_Encoding : string;
  chunk_Shape : list Z;
  chunk_DType : string;
  chunk_PayloadBytes : Z;
  chunk_Checksum : string }.

Definition ActivationChunk_Validate (m : ActivationChunk) : option error :=
  andthen (envelope_of_type (chunk_Envelope m) MessageActivationChunk) (first_error [
    (blank (chunk_ParentJobID m), ParentJobIDRequired);
    (blank (chunk_StageJobID m), StageJobIDRequired);
    (blank (chunk_ContentType m), ContentTypeRequired);
    (chunk_PayloadBytes m =? 0, PayloadBytesRequired)]).

Record ProtocolError := mkProtocolError {
  perr_Envelope : Envelope;
  perr_Code : string;
  perr_Message : string;
  perr_Retryable : bool;
  perr_NodeID : string;
  perr_StageIndex : option Z }.

Definition ProtocolError_Validate (m : ProtocolError) : option error :=
  andthen (envelope_of_type (perr_Envelope m) MessageError) (first_error [
    (blank (perr_Code m), CodeRequired);
    (blank (perr_Message m), MessageRequired)]).

(** ** Theorems: messages *)

Lemma andthen_None {E} (a b : option E) : andthen a b = None ↔ a = None ∧ b = None.
Proof. destruct a; simpl; naive_solver. Qed.

Lemma envelope_of_type_None e want :
  envelope_of_type e want = None ↔
  env_Protocol e = Protocol ∧ env_Version e = Version ∧ env_Type e = want ∧
  KnownMessageType want = true.
Proof.
  unfold envelope_of_type, Envelope_Validate.
  destruct (first_error _) eqn:E.
  - split; [done|]. intros (H1 & H2 & <- & H4). exfalso.
    simpl in E. rewrite H1, H2, H4 in E. by repeat case_bool_decide.
  - rewrite first_error_None in E. rewrite !Forall_cons in E. simpl in *.
    destruct E as (H1 & H2 & H3 & _).
    rewrite !negb_false_iff, ?bool_decide_eq_true in *.
    case_bool_decide; simpl; naive_solver.
Qed.

Lemma NewEnvelope_valid t : KnownMessageType t = true → envelope_of_type (NewEnvelope t) t = None.
Proof. intros H. by apply envelope_of_type_None. Qed.

Ltac unfold_guards :=
  repeat match goal with
  | H : first_error _ = None |- _ =>
      rewrite first_error_None in H; rewrite ?Forall_cons, ?Forall_nil in H; simpl in H
  | H : andthen _ _ = None |- _ => rewrite andthen_None in H
  | H : _ ∧ _ |- _ => destruct H
  end.

(** ** Theorems: stage chains and shard manifests *)

(** [covers a b stages]: the stages' layer ranges, in order, are non-empty and
    tile the layers [a .. b-1]. *)
Inductive covers : Z → Z → list Stage → Prop :=
  | covers_nil a : covers a a []
  | covers_cons a b s rest :
      stage_LayerStart s = a → a ≤ stage_LayerEnd s →
      covers (stage_LayerEnd s + 1) b rest → covers a b (s :: rest).
#[export] Hint Constructors covers : cmesh.

Lemma covers_le a b stages : covers a b stages → a ≤ b.
Proof. induction 1; lia. Qed.

Lemma covers_lookup a b stages k s :
  covers a b stages → stages !! k = Some s →
  a ≤ stage_LayerStart s ∧ stage_LayerStart s ≤ stage_LayerEnd s < b.
Proof.
  intros H. revert k. induction H as [|a b s' rest <- Hle Hc IH]; intros [|k] Hk; try done.
  - injection Hk as ->. apply covers_le in Hc. lia.
  - simpl in Hk. apply IH in Hk. lia.
Qed.

Lemma covers_last a b stages s : covers a b stages → last stages = Some s → stage_LayerEnd s = b - 1.
Proof.
  induction 1 as [|a b s' rest <- Hle Hc IH]; [done|].
  destruct rest as [|s2 rest]; simpl.
  - intros [= ->]. inversion Hc. lia.
  - intros H. by apply IH.
Qed.

(** What the numbering and node checks of a chain say. *)
Definition numbered (stages : list Stage) : Prop :=
  ∀ k s, stages !! k = Some s → stage_Index s = Z.of_nat k ∧ blank (stage_NodeID s) = false.

Lemma stage_chain_loop_None i start hi stages :
  Forall (λ s, stage_LayerEnd s < hi) stages → hi < 2^63 → - 2^63 ≤ start →
  stage_chain_loop i start stages = None ↔
  (∃ b, covers start b stages) ∧
  ∀ k s, stages !! k = Some s → stage_Index s = i + Z.of_nat k ∧ blank (stage_NodeID s) = false.
Proof.
  intros Hhi Hb. revert i start. induction Hhi as [|s rest Hs _ IH]; intros i start Hst.
  { simpl. split; [|done]. intros _. split; [exists start; constructor|done]. }
  cbn [stage_chain_loop].
  destruct (first_error _) eqn:E.
  - split; [done|]. intros [[b Hc] Hn]. exfalso. inversion Hc as [|? ? ? ? <- Hle Hc']; subst.
    destruct (Hn O s eq_refl) as [Hi Hbl]. simpl in E. rewrite Hbl, Hi in E.
    replace (i + Z.of_nat 0) with i in E by lia. rewrite !Z.eqb_refl in E. simpl in E.
    by destruct (Z.ltb_spec (stage_LayerEnd s) (stage_LayerStart s)); [lia|].
  - unfold_guards. rewrite !negb_false_iff, !Z.eqb_eq, Z.ltb_ge in *.
    rewrite i64_small by lia. rewrite IH by lia. split.
    + intros [[b Hc] Hn]. split; [exists b; constructor; [done|lia|done]|].
      intros [|k] s' Hk; simpl in Hk.
      * injection Hk as <-. split; [lia|done].
      * destruct (Hn k s' Hk). split; [lia|done].
    + intros [[b Hc] Hn]. inversion Hc; subst. split; [by exists b|].
      intros k s' Hk. destruct (Hn (S k) s' Hk). split; [lia|done].
Qed.

Lemma ValidateStageChain_covers a b stages :
  covers a b stages → numbered stages → - 2^63 ≤ a → b < 2^63 → ValidateStageChain stages = None.
Proof.
  intros Hc Hn Ha Hb. destruct stages as [|s0 rest]; [done|].
  inversion Hc as [|? ? ? ? Hs]; subst. unfold ValidateStageChain.
  apply (stage_chain_loop_None 0 (stage_LayerStart s0) b); [|done|done|].
  - apply Forall_lookup. intros k s Hk. apply (covers_lookup _ _ _ _ _ Hc Hk).
  - split; [by exists b|]. intros k s Hk. destruct (Hn k s Hk). split; [lia|done].
Qed.

Lemma shard_loop_Ok i total shards stages :
  shard_loop i total shards = Ok stages ↔
  stages = shard_Stage <$> shards ∧
  Forall (λ sh, blank (shard_Runtime sh) = false ∧
                KnownShardMaterialization (shard_Materialization sh) = true ∧
                stage_LayerEnd (shard_Stage sh) < total) shards.
Proof.
  revert i stages. induction shards as [|sh shards IH]; intros i stages; csimpl.
  - split; [intros [= <-]; by split|by intros [-> _]].
  - rewrite Forall_cons.
    destruct (blank (shard_Runtime sh)); simpl; [naive_solver|].
    destruct (KnownShardMaterialization (shard_Materialization sh)); simpl; [|naive_solver].
    destruct (Z.leb_spec total (stage_LayerEnd (shard_Stage sh))); simpl.
    { split; [done|]. intros [_ [(_ & _ & ?) _]]. lia. }
    rewrite bind_Ok. setoid_rewrite IH. naive_solver.
Qed.

(** The contract of a shard manifest (docs/CDIP.md, "Shard Manifest"). *)
Record manifest_spec (m : ShardManifest) : Prop := {
  ms_envelope : man_Envelope m = NewEnvelope MessageShardManifest;
  ms_model : blank (art_ModelID (man_Model m)) = false;
  ms_runtime : blank (art_Runtime (man_Model m)) = false;
  ms_mode : blank (man_Mode m) = false;
  ms_total : 0 < man_TotalLayers m;
  ms_mat : KnownShardMaterialization (man_Materialization m) = true;
  ms_shards : Forall (λ sh, blank (shard_Runtime sh) = false ∧
                KnownShardMaterialization (shard_Materialization sh) = true) (man_Shards m);
  ms_numbered : numbered (shard_Stage <$> man_Shards m);
  ms_covers : covers 0 (man_TotalLayers m) (shard_Stage <$> man_Shards m);
}.

Lemma ShardManifest_Validate_sound m :
  man_TotalLayers m < 2^63 → ShardManifest_Validate m = None → manifest_spec m.
Proof.
  intros Htot Hv. unfold ShardManifest_Validate in Hv.
  apply andthen_None in Hv as [He Hv]. apply andthen_None in Hv as [Hg Hv].
  apply envelope_of_type_None in He as (He1 & He2 & He3 & _).
  unfold_guards. rewrite negb_false_iff, Z.leb_gt, Nat.eqb_neq in *.
  destruct (shard_loop _ _ _) as [stages|] eqn:Hl; [|done].
  apply shard_loop_Ok in Hl as [-> Hsh].
  apply andthen_None in Hv as [Hch Hends].
  destruct (man_Shards m) as [|sh0 shards] eqn:Hm; [done|].
  rewrite fmap_cons in Hends, Hch.
  destruct (last (shard_Stage sh0 :: (shard_Stage <$> shards))) as [sl|] eqn:Hlast;
    [|by apply last_None in Hlast].
  unfold_guards. rewrite !negb_false_iff, !Z.eqb_eq in *.
  unfold ValidateStageChain in Hch.
  apply (stage_chain_loop_None 0 _ (man_TotalLayers m)) in Hch as [[b Hc] Hn]; [|..|lia|lia].
  2:{ rewrite <- fmap_cons. apply Forall_fmap. eapply Forall_impl; [exact Hsh|]. naive_solver. }
  replace (stage_LayerStart (shard_Stage sh0)) with 0 in Hc by congruence.
  assert (b = man_TotalLayers m) as -> by (pose proof (covers_last _ _ _ _ Hc Hlast); lia).
  split; rewrite ?Hm, ?fmap_cons; try done.
  - destruct (man_Envelope m); simpl in *; by subst.
  - eapply Forall_impl; [exact Hsh|]. naive_solver.
Qed.

Lemma ShardManifest_Validate_complete m :
  man_TotalLayers m < 2^63 → manifest_spec m → ShardManifest_Validate m = None.
Proof.
  intros Htot [He Hmod Hrt Hmode Ht Hmat Hsh Hn Hc]. unfold ShardManifest_Validate.
  rewrite !andthen_None. split_and!.
  - rewrite He. by apply NewEnvelope_valid.
  - simpl. rewrite Hmod, Hrt, Hmode, Hmat. simpl. destruct (Z.leb_spec (man_TotalLayers m) 0); [lia|].
    destruct (man_Shards m); [|done]. inversion Hc; lia.
  - assert (shard_loop 0 (man_TotalLayers m) (man_Shards m) = Ok (shard_Stage <$> man_Shards m)) as ->.
    { apply shard_loop_Ok. split; [done|]. apply Forall_lookup. intros k sh Hk.
      rewrite Forall_lookup in Hsh. destruct (Hsh k sh Hk). split_and!; [done..|].
      assert ((shard_Stage <$> man_Shards m) !! k = Some (shard_Stage sh)) as Hk'
        by (by rewrite list_lookup_fmap, Hk).
      apply (covers_lookup _ _ _ _ _ Hc Hk'). }
    rewrite andthen_None. split; [eapply ValidateStageChain_covers; [exact Hc|done|lia|lia]|].
    destruct (shard_Stage <$> man_Shards m) as [|s0 rest] eqn:Hs; [done|].
    destruct (last _) as [sl|] eqn:Hl; [|done].
    rewrite (covers_last _ _ _ _ Hc Hl). inversion Hc as [|? ? ? ? Hstart]; subst. simpl.
    by rewrite Hstart, !Z.eqb_refl.
Qed.

Lemma covers_unique a b stages L :
  covers a b stages → a ≤ L < b →
  exists! k, ∃ s, stages !! k = Some s ∧ stage_LayerStart s ≤ L ≤ stage_LayerEnd s.
Proof.
  intros H. induction H as [|a b s rest Hs Hle Hc IH]; intros HL; [lia|].
  destruct (decide (L ≤ stage_LayerEnd s)) as [Hin|Hout].
  - exists O. split; [exists s; split; [done|lia]|].
    intros [|k] (s' & Hk & Hs'); [done|]. destruct (covers_lookup _ _ _ _ _ Hc Hk). lia.
  - destruct IH as (k & (s' & Hk & Hs') & Huniq); [lia|].
    exists (S k). split; [by exists s'|].
    intros [|k'] (s'' & Hk' & Hs''); [injection Hk' as <-; lia|].
    f_equal. apply Huniq. by exists s''.
Qed.

Lemma covers_sum a b stages :
  covers a b stages → 0 ≤ a → b < 2^63 → sumZ (Stage_Layers <$> stages) = b - a.
Proof.
  induction 1 as [|a b s rest Hs Hle Hc IH]; intros Ha Hb; csimpl; [simpl; lia|].
  rewrite IH by lia. apply covers_le in Hc. unfold Stage_Layers.
  destruct (Z.ltb_spec (stage_LayerEnd s) (stage_LayerStart s)); [lia|].
  rewrite i64_small; lia.
Qed.

(** ** Theorems: the stage state machine *)

(** The lifecycle of docs/CDIP.md as a step relation. *)
Inductive stage_step : StageState → StageState → Prop :=
  | step_prepare : stage_step StagePlanned StagePreparing
  | step_ready : stage_step StagePreparing StageReady
  | step_prefill : stage_step StageReady StagePrefill
  | step_decode : stage_step StagePrefill StageDecode
  | step_complete : stage_step StageDecode StageCompleted
  | step_fail s : s ∈ [StagePlanned; StagePreparing; StageReady; StagePrefill; StageDecode] →
      stage_step s StageFailed
  | step_abort s : s ∈ [StagePlanned; StagePreparing; StageReady; StagePrefill; StageDecode] →
      stage_step s StageAborted.
#[export] Hint Constructors stage_step : cmesh.

Definition terminal_stage (s : StageState) : Prop :=
  s ∈ [StageCompleted; StageFailed; StageAborted].

Lemma CanTransition_step from to : CanTransition from to = true ↔ from = to ∨ stage_step from to.
Proof.
  unfold CanTransition. case_bool_decide as Heq; [naive_solver|]. split.
  - intros H. right.
    destruct from, to; simpl in H; try discriminate H; constructor; set_solver.
  - intros [|H]; [done|]. destruct H as [| | | | |s Hs|s Hs]; try done;
      rewrite !elem_of_cons, elem_of_nil in Hs; by destruct_or! Hs; subst.
Qed.

Lemma CanTransition_refl s : CanTransition s s = true.
Proof. apply CanTransition_step. by left. Qed.

Lemma CanTransition_terminal s t : terminal_stage s → CanTransition s t = true → t = s.
Proof.
  intros Hs Ht. apply CanTransition_step in Ht as [|H]; [done|]. exfalso.
  unfold terminal_stage in Hs. rewrite !elem_of_cons, elem_of_nil in Hs.
  destruct_or! Hs; subst; inversion H as [| | | | |? Hi|? Hi];
    subst; rewrite !elem_of_cons, elem_of_nil in Hi; by destruct_or! Hi.
Qed.

(** A run of a stage: consecutive states allowed by [CanTransition]. *)
Fixpoint stage_run (s : StageState) (l : list StageState) : Prop :=
  match l with
  | [] => True
  | t :: l => CanTransition s t = true ∧ stage_run t l
  end.

(** The states still to come from [s] on the way to completion. *)
Definition to_completion (s : StageState) : option (list StageState) :=
  match s with
  | StagePlanned => Some [StagePreparing; StageReady; StagePrefill; StageDecode; StageCompleted]
  | StagePreparing => Some [StageReady; StagePrefill; StageDecode; StageCompleted]
  | StageReady => Some [StagePrefill; StageDecode; StageCompleted]
  | StagePrefill => Some [StageDecode; StageCompleted]
  | StageDecode => Some [StageCompleted]
  | StageCompleted => Some []
  | _ => None
  end.

Lemma to_completion_step s t :
  stage_step s t → ∃ todo, to_completion s = Some todo ∧
    (to_completion t = None ∨ ∃ todo', to_completion t = Some todo' ∧ todo = t :: todo').
Proof.
  destruct 1 as [| | | | |s Hs|s Hs]; simpl; try (eexists; split; [done|]; right; by eexists);
    rewrite !elem_of_cons, elem_of_nil in Hs; destruct_or! Hs; subst; simpl; eauto; done.
Qed.

Lemma stage_run_completed s l :
  stage_run s l → last (s :: l) = Some StageCompleted →
  ∃ todo, to_completion s = Some todo ∧ todo `sublist_of` l.
Proof.
  revert s. induction l as [|t l IH]; intros s Hrun Hlast.
  - injection Hlast as ->. exists []. by split.
  - destruct Hrun as [Hst Hrun]. destruct (IH t Hrun Hlast) as (todo & Htodo & Hsub).
    apply CanTransition_step in Hst as [->|Hst]; [exists todo; split; [done|by apply sublist_cons]|].
    destruct (to_completion_step _ _ Hst) as (todo' & Hs & [Ht|(todo2 & Ht & ->)]); [congruence|].
    exists (t :: todo2). split; [done|]. rewrite Htodo in Ht. injection Ht as <-.
    by apply sublist_skip.
Qed.

(** ** Properties *)

(** C27 (functional, equivalence). [ShardManifest.Validate] returns nil exactly
    for the manifests of the protocol document: envelope, model, runtime and
    mode present, known materializations, stages numbered 0, 1, 2, ... on
    non-blank nodes, and the shards' layer ranges contiguous, non-overlapping,
    starting at layer 0 and ending at [total_layers - 1].  [total_layers] is a
    Go [int], hence below 2^63. *)
Theorem manifest_valid_iff_partition (m : ShardManifest) :
  man_TotalLayers m < 2^63 →
  ShardManifest_Validate m = None ↔ manifest_spec m.
Proof.
  intros H. split; [by apply ShardManifest_Validate_sound|by apply ShardManifest_Validate_complete].
Qed.

(** (invariant, state machine). A stage that ends completed went through
    preparing, ready, prefill and decode in this order, whatever sequence of
    transitions [CanTransition] accepted from the planned state. *)
Theorem stage_completion_visits_all (l : list StageState) :
  stage_run StagePlanned l → last (StagePlanned :: l) = Some StageCompleted →
  [StagePreparing; StageReady; StagePrefill; StageDecode; StageCompleted] `sublist_of` l.
Proof.
  intros Hrun Hlast. by destruct (stage_run_completed _ _ Hrun Hlast) as (todo & [= <-] & ?).
Qed.

Lemma stage_completion_visits_all_witness :
  [StagePreparing; StageReady; StagePrefill; StageDecode; StageCompleted] `sublist_of`
  [StagePreparing; StagePreparing; StageReady; StagePrefill; StageDecode; StageCompleted].
Proof. apply stage_completion_visits_all; [by repeat split|reflexivity]. Defined.

(** (safety). In a valid manifest every layer of the model is held by exactly
    one shard, and the shards' layer counts add up to the model's. *)
Theorem manifest_layers_exactly_once (m : ShardManifest) :
  man_TotalLayers m < 2^63 → ShardManifest_Validate m = None →
  (∀ L, 0 ≤ L < man_TotalLayers m →
     exists! k, ∃ s, (shard_Stage <$> man_Shards m) !! k = Some s ∧
       stage_LayerStart s ≤ L ≤ stage_LayerEnd s) ∧
  sumZ (Stage_Layers <$> (shard_Stage <$> man_Shards m)) = man_TotalLayers m.
Proof.
  intros Htot Hv. destruct (ShardManifest_Validate_sound m Htot Hv) as [].
  split; [intros L HL; by eapply covers_unique|].
  rewrite (covers_sum 0 (man_TotalLayers m)); [lia|done|lia|done].
Qed.

Definition demo_manifest : ShardManifest :=
  let shard i n a b := mkModelShard (mkStage i n "" a b) "llama.cpp" 0 0 "" "" ShardLogicalLayers [] in
  mkShardManifest (NewEnvelope MessageShardManifest)
    (mkModelArtifact "m" "llama.cpp" "" "" "" "" "" "" 0) "pipeline_layers" 24 ShardLogicalLayers
    [shard 0 "node-a" 0 9; shard 1 "node-b" 10 23] [].

Lemma manifest_valid_iff_partition_witness :
  man_TotalLayers demo_manifest < 2^63 ∧ manifest_spec demo_manifest.
Proof.
  split; [reflexivity|].
  apply (manifest_valid_iff_partition demo_manifest); [reflexivity|vm_compute; reflexivity].
Defined.

Lemma manifest_layers_exactly_once_witness :
  (exists! k, ∃ s, (shard_Stage <$> man_Shards demo_manifest) !! k = Some s ∧
     stage_LayerStart s ≤ 10 ≤ stage_LayerEnd s).
Proof.
  refine (proj1 (manifest_layers_exactly_once demo_manifest _ _) 10 _);
    [reflexivity|vm_compute; reflexivity|split; [discriminate|reflexivity]].
Defined.
