(* ===== verification/Types.v ===== *)
(** * The shared domain types

    [internal/cluster/types.go], [internal/jobs/types.go],
    [internal/membership/types.go], [internal/resources/benchmark.go] and the
    records of [internal/manager/store.go] and [conversations.go].  A field
    [F] of the Go struct [T] is the projection [t_F]; [uint64] fields range over
    [0 .. 2^64-1], [int] fields over the signed 64-bit range. *)

From S2P Require Import Prelude GoString GoFloat World Cdip.

(** ** Package cluster *)

Inductive NodeRole := NodeRoleManager | NodeRoleWorker | NodeRoleOther (s : string).
#[export] Instance NodeRole_eq_dec : EqDecision NodeRole.
Proof. solve_decision. Defined.

Inductive NodeStatus :=
  | NodeStatusJoining | NodeStatusOnline | NodeStatusOffline | NodeStatusDraining
  | NodeStatusOther (s : string).
#[export] Instance NodeStatus_eq_dec : EqDecision NodeStatus.
Proof. solve_decision. Defined.

Record CPUResources := mkCPUResources { cpu_CoresTotal : Z; cpu_CoresAllowed : Z }.
Record MemoryResources := mkMemoryResources { mem_TotalBytes : Z; mem_AllowedBytes : Z }.

Record GPUResources := mkGPUResources {
  gpu_Name : string;
  gpu_Vendor : string;
  gpu_TotalVRAMBytes : Z;
  gpu_AllowedVRAMBytes : Z;
  gpu_ComputeCompatible : bool;
}.

Record StorageResources := mkStorageResources {
  sto_TotalBytes : Z;
  sto_AllowedBytes : Z;
  sto_FreeBytes : Z;
  sto_UsedByModelsBytes : Z;
  sto_UsedByRuntimesBytes : Z;
  sto_UsedByCacheBytes : Z;
  sto_PartialModelBytes : Z;
  sto_PartialModelFiles : Z;
  sto_OrphanModelBytes : Z;
  sto_OrphanModelDirs : Z;
}.

(* field setters *)
#[export] Instance set_sto_TotalBytes : Setter sto_TotalBytes := λ f r, mkStorageResources (f (sto_TotalBytes r)) (sto_AllowedBytes r) (sto_FreeBytes r) (sto_UsedByModelsBytes r) (sto_UsedByRuntimesBytes r) (sto_UsedByCacheBytes r) (sto_PartialModelBytes r) (sto_PartialModelFiles r) (sto_OrphanModelBytes r) (sto_OrphanModelDirs r).
#[export] Instance set_sto_AllowedBytes : Setter sto_AllowedBytes := λ f r, mkStorageResources (sto_TotalBytes r) (f (sto_AllowedBytes r)) (sto_FreeBytes r) (sto_UsedByModelsBytes r) (sto_UsedByRuntimesBytes r) (sto_UsedByCacheBytes r) (sto_PartialModelBytes r) (sto_PartialModelFiles r) (sto_OrphanModelBytes r) (sto_OrphanModelDirs r).
#[export] Instance set_sto_FreeBytes : Setter sto_FreeBytes := λ f r, mkStorageResources (sto_TotalBytes r) (sto_AllowedBytes r) (f (sto_FreeBytes r)) (sto_UsedByModelsBytes r) (sto_UsedByRuntimesBytes r) (sto_UsedByCacheBytes r) (sto_PartialModelBytes r) (sto_PartialModelFiles r) (sto_OrphanModelBytes r) (sto_OrphanModelDirs r).
#[export] Instance set_sto_UsedByModelsBytes : Setter sto_UsedByModelsBytes := λ f r, mkStorageResources (sto_TotalBytes r) (sto_AllowedBytes r) (sto_FreeBytes r) (f (sto_UsedByModelsBytes r)) (sto_UsedByRuntimesBytes r) (sto_UsedByCacheBytes r) (sto_PartialModelBytes r) (sto_PartialModelFiles r) (sto_OrphanModelBytes r) (sto_OrphanModelDirs r).
#[export] Instance set_sto_UsedByRuntimesBytes : Setter sto_UsedByRuntimesBytes := λ f r, mkStorageResources (sto_TotalBytes r) (sto_AllowedBytes r) (sto_FreeBytes r) (sto_UsedByModelsBytes r) (f (sto_UsedByRuntimesBytes r)) (sto_UsedByCacheBytes r) (sto_PartialModelBytes r) (sto_PartialModelFiles r) (sto_OrphanModelBytes r) (sto_OrphanModelDirs r).
#[export] Instance set_sto_UsedByCacheBytes : Setter sto_UsedByCacheBytes := λ f r, mkStorageResources (sto_TotalBytes r) (sto_AllowedBytes r) (sto_FreeBytes r) (sto_UsedByModelsBytes r) (sto_UsedByRuntimesBytes r) (f (sto_UsedByCacheBytes r)) (sto_PartialModelBytes r) (sto_PartialModelFiles r) (sto_OrphanModelBytes r) (sto_OrphanModelDirs r).
#[export] Instance set_sto_PartialModelBytes : Setter sto_PartialModelBytes := λ f r, mkStorageResources (sto_TotalBytes r) (sto_AllowedBytes r) (sto_FreeBytes r) (sto_UsedByModelsBytes r) (sto_UsedByRuntimesBytes r) (sto_UsedByCacheBytes r) (f (sto_PartialModelBytes r)) (sto_PartialModelFiles r) (sto_OrphanModelBytes r) (sto_OrphanModelDirs r).
#[export] Instance set_sto_PartialModelFiles : Setter sto_PartialModelFiles := λ f r, mkStorageResources (sto_TotalBytes r) (sto_AllowedBytes r) (sto_FreeBytes r) (sto_UsedByModelsBytes r) (sto_UsedByRuntimesBytes r) (sto_UsedByCacheBytes r) (sto_PartialModelBytes r) (f (sto_PartialModelFiles r)) (sto_OrphanModelBytes r) (sto_OrphanModelDirs r).
#[export] Instance set_sto_OrphanModelBytes : Setter sto_OrphanModelBytes := λ f r, mkStorageResources (sto_TotalBytes r) (sto_AllowedBytes r) (sto_FreeBytes r) (sto_UsedByModelsBytes r) (sto_UsedByRuntimesBytes r) (sto_UsedByCacheBytes r) (sto_PartialModelBytes r) (sto_PartialModelFiles r) (f (sto_OrphanModelBytes r)) (sto_OrphanModelDirs r).
#[export] Instance set_sto_OrphanModelDirs : Setter sto_OrphanModelDirs := λ f r, mkStorageResources (sto_TotalBytes r) (sto_AllowedBytes r) (sto_FreeBytes r) (sto_UsedByModelsBytes r) (sto_UsedByRuntimesBytes r) (sto_UsedByCacheBytes r) (sto_PartialModelBytes r) (sto_PartialModelFiles r) (sto_OrphanModelBytes r) (f (sto_OrphanModelDirs r)).

Record RPCRuntimeResource := mkRPCRuntimeResource {
  rpc_Name : string;
  rpc_Ready : bool;
  rpc_ServerPath : string;
  rpc_Endpoint : string;
  rpc_Protocol : string;
  rpc_Blockers : list string;
}.

Record StageRuntimeResource := mkStageRuntimeResource {
  srt_Name : string;
  srt_Ready : bool;
  srt_CLIReady : bool;
  srt_BinaryPath : string;
  srt_RequiredHooks : list string;
  srt_Blockers : list string;
}.

Record RuntimeResource := mkRuntimeResource {
  rt_Name : string;
  rt_Ready : bool;
  rt_Version : string;
  rt_Platform : string;
  rt_BinaryPath : string;
  rt_Source : string;
  rt_Capabilities : list string;
  rt_RPCRuntimes : list RPCRuntimeResource;
  rt_StageRuntimes : list StageRuntimeResource;
  rt_Error : string;
}.

Record ModelResource := mkModelResource {
  mr_ID : string;
  mr_Name : string;
  mr_Family : string;
  mr_Runtime : string;
  mr_Path : string;
  mr_Bytes : Z;
  mr_Ready : bool;
  mr_Error : string;
  mr_InstalledAt : Time;
}.

Record ResourceSnapshot := mkResourceSnapshot {
  res_CPU : CPUResources;
  res_Memory : MemoryResources;
  res_GPU : list GPUResources;
  res_Storage : StorageResources;
  res_JobSlots : Z;
  res_Models : list ModelResource;
  res_Runtimes : list RuntimeResource;
}.

Definition zero_storage : StorageResources := mkStorageResources 0 0 0 0 0 0 0 0 0 0.
Definition zero_snapshot : ResourceSnapshot :=
  mkResourceSnapshot (mkCPUResources 0 0) (mkMemoryResources 0 0) [] zero_storage 0 [] [].

Record Node := mkNode {
  node_ID : string;
  node_Name : string;
  node_Role : NodeRole;
  node_Status : NodeStatus;
  node_Endpoint : string;
  node_Resources : ResourceSnapshot;
  node_JoinedAt : Time;
  node_UpdatedAt : Time;
}.

(* field setters *)
#[export] Instance set_node_ID : Setter node_ID := λ f r, mkNode (f (node_ID r)) (node_Name r) (node_Role r) (node_Status r) (node_Endpoint r) (node_Resources r) (node_JoinedAt r) (node_UpdatedAt r).
#[export] Instance set_node_Name : Setter node_Name := λ f r, mkNode (node_ID r) (f (node_Name r)) (node_Role r) (node_Status r) (node_Endpoint r) (node_Resources r) (node_JoinedAt r) (node_UpdatedAt r).
#[export] Instance set_node_Role : Setter node_Role := λ f r, mkNode (node_ID r) (node_Name r) (f (node_Role r)) (node_Status r) (node_Endpoint r) (node_Resources r) (node_JoinedAt r) (node_UpdatedAt r).
#[export] Instance set_node_Status : Setter node_Status := λ f r, mkNode (node_ID r) (node_Name r) (node_Role r) (f (node_Status r)) (node_Endpoint r) (node_Resources r) (node_JoinedAt r) (node_UpdatedAt r).
#[export] Instance set_node_Endpoint : Setter node_Endpoint := λ f r, mkNode (node_ID r) (node_Name r) (node_Role r) (node_Status r) (f (node_Endpoint r)) (node_Resources r) (node_JoinedAt r) (node_UpdatedAt r).
#[export] Instance set_node_Resources : Setter node_Resources := λ f r, mkNode (node_ID r) (node_Name r) (node_Role r) (node_Status r) (node_Endpoint r) (f (node_Resources r)) (node_JoinedAt r) (node_UpdatedAt r).
#[export] Instance set_node_JoinedAt : Setter node_JoinedAt := λ f r, mkNode (node_ID r) (node_Name r) (node_Role r) (node_Status r) (node_Endpoint r) (node_Resources r) (f (node_JoinedAt r)) (node_UpdatedAt r).
#[export] Instance set_node_UpdatedAt : Setter node_UpdatedAt := λ f r, mkNode (node_ID r) (node_Name r) (node_Role r) (node_Status r) (node_Endpoint r) (node_Resources r) (node_JoinedAt r) (f (node_UpdatedAt r)).

(** ** Package jobs *)

Inductive Status :=
  | StatusQueued | StatusScheduled | StatusRunning
  | StatusSucceeded | StatusFailed | StatusCanceled
  | StatusOther (s : string).
#[export] Instance Status_eq_dec : EqDecision Status.
Proof. solve_decision. Defined.

Definition DefaultMaxAttempts : Z := 3.

Record Requirements := mkRequirements {
  req_CPUCores : Z;
  req_MemoryBytes : Z;
  req_DiskBytes : Z;
  req_GPURequired : bool;
  req_VRAMBytes : Z;
}.

Record Job := mkJob {
  job_ID : string;
  job_Type : string;
  job_Status : Status;
  job_RequestedBy : string;
  job_AssignedTo : string;
  job_Input : string;
  job_Requirements : Requirements;
  job_Result : string;
  job_Error : string;
  job_Attempts : Z;
  job_MaxAttempts : Z;
  job_LastFailure : string;
  job_CDIPState : StageState;
  job_CDIPParentJobID : string;
  job_CDIPStageIndex : Z;
  job_CreatedAt : Time;
  job_UpdatedAt : Time;
  job_StartedAt : Time;
  job_FinishedAt : Time;
}.

(* field setters *)
#[export] Instance set_job_ID : Setter job_ID := λ f r, mkJob (f (job_ID r)) (job_Type r) (job_Status r) (job_RequestedBy r) (job_AssignedTo r) (job_Input r) (job_Requirements r) (job_Result r) (job_Error r) (job_Attempts r) (job_MaxAttempts r) (job_LastFailure r) (job_CDIPState r) (job_CDIPParentJobID r) (job_CDIPStageIndex r) (job_CreatedAt r) (job_UpdatedAt r) (job_StartedAt r) (job_FinishedAt r).
#[export] Instance set_job_Type : Setter job_Type := λ f r, mkJob (job_ID r) (f (job_Type r)) (job_Status r) (job_RequestedBy r) (job_AssignedTo r) (job_Input r) (job_Requirements r) (job_Result r) (job_Error r) (job_Attempts r) (job_MaxAttempts r) (job_LastFailure r) (job_CDIPState r) (job_CDIPParentJobID r) (job_CDIPStageIndex r) (job_CreatedAt r) (job_UpdatedAt r) (job_StartedAt r) (job_FinishedAt r).
#[export] Instance set_job_Status : Setter job_Status := λ f r, mkJob (job_ID r) (job_Type r) (f (job_Status r)) (job_RequestedBy r) (job_AssignedTo r) (job_Input r) (job_Requirements r) (job_Result r) (job_Error r) (job_Attempts r) (job_MaxAttempts r) (job_LastFailure r) (job_CDIPState r) (job_CDIPParentJobID r) (job_CDIPStageIndex r) (job_CreatedAt r) (job_UpdatedAt r) (job_StartedAt r) (job_FinishedAt r).
#[export] Instance set_job_RequestedBy : Setter job_RequestedBy := λ f r, mkJob (job_ID r) (job_Type r) (job_Status r) (f (job_RequestedBy r)) (job_AssignedTo r) (job_Input r) (job_Requirements r) (job_Result r) (job_Error r) (job_Attempts r) (job_MaxAttempts r) (job_LastFailure r) (job_CDIPState r) (job_CDIPParentJobID r) (job_CDIPStageIndex r) (job_CreatedAt r) (job_UpdatedAt r) (job_StartedAt r) (job_FinishedAt r).
#[export] Instance set_job_AssignedTo : Setter job_AssignedTo := λ f r, mkJob (job_ID r) (job_Type r) (job_Status r) (job_RequestedBy r) (f (job_AssignedTo r)) (job_Input r) (job_Requirements r) (job_Result r) (job_Error r) (job_Attempts r) (job_MaxAttempts r) (job_LastFailure r) (job_CDIPState r) (job_CDIPParentJobID r) (job_CDIPStageIndex r) (job_CreatedAt r) (job_UpdatedAt r) (job_StartedAt r) (job_FinishedAt r).
#[export] Instance set_job_Input : Setter job_Input := λ f r, mkJob (job_ID r) (job_Type r) (job_Status r) (job_RequestedBy r) (job_AssignedTo r) (f (job_Input r)) (job_Requirements r) (job_Result r) (job_Error r) (job_Attempts r) (job_MaxAttempts r) (job_LastFailure r) (job_CDIPState r) (job_CDIPParentJobID r) (job_CDIPStageIndex r) (job_CreatedAt r) (job_UpdatedAt r) (job_StartedAt r) (job_FinishedAt r).
#[export] Instance set_job_Requirements : Setter job_Requirements := λ f r, mkJob (job_ID r) (job_Type r) (job_Status r) (job_RequestedBy r) (job_AssignedTo r) (job_Input r) (f (job_Requirements r)) (job_Result r) (job_Error r) (job_Attempts r) (job_MaxAttempts r) (job_LastFailure r) (job_CDIPState r) (job_CDIPParentJobID r) (job_CDIPStageIndex r) (job_CreatedAt r) (job_UpdatedAt r) (job_StartedAt r) (job_FinishedAt r).
#[export] Instance set_job_Result : Setter job_Result := λ f r, mkJob (job_ID r) (job_Type r) (job_Status r) (job_RequestedBy r) (job_AssignedTo r) (job_Input r) (job_Requirements r) (f (job_Result r)) (job_Error r) (job_Attempts r) (job_MaxAttempts r) (job_LastFailure r) (job_CDIPState r) (job_CDIPParentJobID r) (job_CDIPStageIndex r) (job_CreatedAt r) (job_UpdatedAt r) (job_StartedAt r) (job_FinishedAt r).
#[export] Instance set_job_Error : Setter job_Error := λ f r, mkJob (job_ID r) (job_Type r) (job_Status r) (job_RequestedBy r) (job_AssignedTo r) (job_Input r) (job_Requirements r) (job_Result r) (f (job_Error r)) (job_Attempts r) (job_MaxAttempts r) (job_LastFailure r) (job_CDIPState r) (job_CDIPParentJobID r) (job_CDIPStageIndex r) (job_CreatedAt r) (job_UpdatedAt r) (job_StartedAt r) (job_FinishedAt r).
#[export] Instance set_job_Attempts : Setter job_Attempts := λ f r, mkJob (job_ID r) (job_Type r) (job_Status r) (job_RequestedBy r) (job_AssignedTo r) (job_Input r) (job_Requirements r) (job_Result r) (job_Error r) (f (job_Attempts r)) (job_MaxAttempts r) (job_LastFailure r) (job_CDIPState r) (job_CDIPParentJobID r) (job_CDIPStageIndex r) (job_CreatedAt r) (job_UpdatedAt r) (job_StartedAt r) (job_FinishedAt r).
#[export] Instance set_job_MaxAttempts : Setter job_MaxAttempts := λ f r, mkJob (job_ID r) (job_Type r) (job_Status r) (job_RequestedBy r) (job_AssignedTo r) (job_Input r) (job_Requirements r) (job_Result r) (job_Error r) (job_Attempts r) (f (job_MaxAttempts r)) (job_LastFailure r) (job_CDIPState r) (job_CDIPParentJobID r) (job_CDIPStageIndex r) (job_CreatedAt r) (job_UpdatedAt r) (job_StartedAt r) (job_FinishedAt r).
#[export] Instance set_job_LastFailure : Setter job_LastFailure := λ f r, mkJob (job_ID r) (job_Type r) (job_Status r) (job_RequestedBy r) (job_AssignedTo r) (job_Input r) (job_Requirements r) (job_Result r) (job_Error r) (job_Attempts r) (job_MaxAttempts r) (f (job_LastFailure r)) (job_CDIPState r) (job_CDIPParentJobID r) (job_CDIPStageIndex r) (job_CreatedAt r) (job_UpdatedAt r) (job_StartedAt r) (job_FinishedAt r).
#[export] Instance set_job_CDIPState : Setter job_CDIPState := λ f r, mkJob (job_ID r) (job_Type r) (job_Status r) (job_RequestedBy r) (job_AssignedTo r) (job_Input r) (job_Requirements r) (job_Result r) (job_Error r) (job_Attempts r) (job_MaxAttempts r) (job_LastFailure r) (f (job_CDIPState r)) (job_CDIPParentJobID r) (job_CDIPStageIndex r) (job_CreatedAt r) (job_UpdatedAt r) (job_StartedAt r) (job_FinishedAt r).
#[export] Instance set_job_CDIPParentJobID : Setter job_CDIPParentJobID := λ f r, mkJob (job_ID r) (job_Type r) (job_Status r) (job_RequestedBy r) (job_AssignedTo r) (job_Input r) (job_Requirements r) (job_Result r) (job_Error r) (job_Attempts r) (job_MaxAttempts r) (job_LastFailure r) (job_CDIPState r) (f (job_CDIPParentJobID r)) (job_CDIPStageIndex r) (job_CreatedAt r) (job_UpdatedAt r) (job_StartedAt r) (job_FinishedAt r).
#[export] Instance set_job_CDIPStageIndex : Setter job_CDIPStageIndex := λ f r, mkJob (job_ID r) (job_Type r) (job_Status r) (job_RequestedBy r) (job_AssignedTo r) (job_Input r) (job_Requirements r) (job_Result r) (job_Error r) (job_Attempts r) (job_MaxAttempts r) (job_LastFailure r) (job_CDIPState r) (job_CDIPParentJobID r) (f (job_CDIPStageIndex r)) (job_CreatedAt r) (job_UpdatedAt r) (job_StartedAt r) (job_FinishedAt r).
#[export] Instance set_job_CreatedAt : Setter job_CreatedAt := λ f r, mkJob (job_ID r) (job_Type r) (job_Status r) (job_RequestedBy r) (job_AssignedTo r) (job_Input r) (job_Requirements r) (job_Result r) (job_Error r) (job_Attempts r) (job_MaxAttempts r) (job_LastFailure r) (job_CDIPState r) (job_CDIPParentJobID r) (job_CDIPStageIndex r) (f (job_CreatedAt r)) (job_UpdatedAt r) (job_StartedAt r) (job_FinishedAt r).
#[export] Instance set_job_UpdatedAt : Setter job_UpdatedAt := λ f r, mkJob (job_ID r) (job_Type r) (job_Status r) (job_RequestedBy r) (job_AssignedTo r) (job_Input r) (job_Requirements r) (job_Result r) (job_Error r) (job_Attempts r) (job_MaxAttempts r) (job_LastFailure r) (job_CDIPState r) (job_CDIPParentJobID r) (job_CDIPStageIndex r) (job_CreatedAt r) (f (job_UpdatedAt r)) (job_StartedAt r) (job_FinishedAt r).
#[export] Instance set_job_StartedAt : Setter job_StartedAt := λ f r, mkJob (job_ID r) (job_Type r) (job_Status r) (job_RequestedBy r) (job_AssignedTo r) (job_Input r) (job_Requirements r) (job_Result r) (job_Error r) (job_Attempts r) (job_MaxAttempts r) (job_LastFailure r) (job_CDIPState r) (job_CDIPParentJobID r) (job_CDIPStageIndex r) (job_CreatedAt r) (job_UpdatedAt r) (f (job_StartedAt r)) (job_FinishedAt r).
#[export] Instance set_job_FinishedAt : Setter job_FinishedAt := λ f r, mkJob (job_ID r) (job_Type r) (job_Status r) (job_RequestedBy r) (job_AssignedTo r) (job_Input r) (job_Requirements r) (job_Result r) (job_Error r) (job_Attempts r) (job_MaxAttempts r) (job_LastFailure r) (job_CDIPState r) (job_CDIPParentJobID r) (job_CDIPStageIndex r) (job_CreatedAt r) (job_UpdatedAt r) (job_StartedAt r) (f (job_FinishedAt r)).

Record CreateRequest := mkCreateRequest {
  cr_Type : string;
  cr_Input : string;
  cr_RequestedBy : string;
  cr_AssignedTo : string;
  cr_Requirements : Requirements;
  cr_MaxAttempts : Z;
  cr_NoAutoAssign : bool;
  cr_CDIPState : StageState;
  cr_CDIPParentJobID : string;
  cr_CDIPStageIndex : Z;
}.

Record CompleteRequest := mkCompleteRequest {
  comp_NodeID : string;
  comp_Result : string;
  comp_Error : string;
}.

Record ProgressRequest := mkProgressRequest {
  prog_NodeID : string;
  prog_ProgressBytes : Z;
  prog_TotalBytes : Z;
  prog_ProgressPercent : float64;
  prog_ProgressLabel : string;
}.

(** ** Package membership *)

Record JoinRequest := mkJoinRequest {
  join_NodeName : string;
  join_Role : NodeRole;
  join_Endpoint : string;
  join_JoinToken : string;
  join_Resources : ResourceSnapshot;
}.

Record JoinResponse := mkJoinResponse {
  joined_NodeID : string;
  joined_ManagerPeers : list string;
  joined_HeartbeatEvery : Z;
}.

Record Heartbeat := mkHeartbeat {
  hb_NodeID : string;
  hb_At : Time;
  hb_Resources : ResourceSnapshot;
}.

(** ** Package resources: benchmark results; a kind is its string *)

Abbreviation BenchmarkKind := string (only parsing).
Definition BenchmarkCPU : BenchmarkKind := "cpu".
Definition BenchmarkMemory : BenchmarkKind := "memory".
Definition BenchmarkDisk : BenchmarkKind := "disk".
Definition BenchmarkNetwork : BenchmarkKind := "network".
Definition BenchmarkAI : BenchmarkKind := "ai".

Record BenchmarkResult := mkBenchmarkResult {
  bench_NodeID : string;
  bench_Kind : BenchmarkKind;
  bench_Score : float64;
  bench_Unit : string;
  bench_Duration : Z;
  bench_CreatedAt : Time;
  bench_Metadata : gmap string string;
}.

(* field setters *)
#[export] Instance set_bench_NodeID : Setter bench_NodeID := λ f r, mkBenchmarkResult (f (bench_NodeID r)) (bench_Kind r) (bench_Score r) (bench_Unit r) (bench_Duration r) (bench_CreatedAt r) (bench_Metadata r).
#[export] Instance set_bench_Kind : Setter bench_Kind := λ f r, mkBenchmarkResult (bench_NodeID r) (f (bench_Kind r)) (bench_Score r) (bench_Unit r) (bench_Duration r) (bench_CreatedAt r) (bench_Metadata r).
#[export] Instance set_bench_Score : Setter bench_Score := λ f r, mkBenchmarkResult (bench_NodeID r) (bench_Kind r) (f (bench_Score r)) (bench_Unit r) (bench_Duration r) (bench_CreatedAt r) (bench_Metadata r).
#[export] Instance set_bench_Unit : Setter bench_Unit := λ f r, mkBenchmarkResult (bench_NodeID r) (bench_Kind r) (bench_Score r) (f (bench_Unit r)) (bench_Duration r) (bench_CreatedAt r) (bench_Metadata r).
#[export] Instance set_bench_Duration : Setter bench_Duration := λ f r, mkBenchmarkResult (bench_NodeID r) (bench_Kind r) (bench_Score r) (bench_Unit r) (f (bench_Duration r)) (bench_CreatedAt r) (bench_Metadata r).
#[export] Instance set_bench_CreatedAt : Setter bench_CreatedAt := λ f r, mkBenchmarkResult (bench_NodeID r) (bench_Kind r) (bench_Score r) (bench_Unit r) (bench_Duration r) (f (bench_CreatedAt r)) (bench_Metadata r).
#[export] Instance set_bench_Metadata : Setter bench_Metadata := λ f r, mkBenchmarkResult (bench_NodeID r) (bench_Kind r) (bench_Score r) (bench_Unit r) (bench_Duration r) (bench_CreatedAt r) (f (bench_Metadata r)).

(** ** Package manager: RPC health, conversations, memories *)

Record RPCHealthUpdate := mkRPCHealthUpdate {
  rhu_Endpoint : string;
  rhu_NodeID : string;
  rhu_NodeName : string;
  rhu_Ready : bool;
  rhu_LatencyMS : Z;
  rhu_Error : string;
  rhu_CheckedAt : Time;
}.

Record RPCHealthRecord := mkRPCHealthRecord {
  rh_Endpoint : string;
  rh_NodeID : string;
  rh_NodeName : string;
  rh_Ready : bool;
  rh_Successes : Z;
  rh_Failures : Z;
  rh_ConsecutiveFailures : Z;
  rh_LastLatencyMS : Z;
  rh_LastError : string;
  rh_UpdatedAt : Time;
}.

(* field setters *)
#[export] Instance set_rh_Endpoint : Setter rh_Endpoint := λ f r, mkRPCHealthRecord (f (rh_Endpoint r)) (rh_NodeID r) (rh_NodeName r) (rh_Ready r) (rh_Successes r) (rh_Failures r) (rh_ConsecutiveFailures r) (rh_LastLatencyMS r) (rh_LastError r) (rh_UpdatedAt r).
#[export] Instance set_rh_NodeID : Setter rh_NodeID := λ f r, mkRPCHealthRecord (rh_Endpoint r) (f (rh_NodeID r)) (rh_NodeName r) (rh_Ready r) (rh_Successes r) (rh_Failures r) (rh_ConsecutiveFailures r) (rh_LastLatencyMS r) (rh_LastError r) (rh_UpdatedAt r).
#[export] Instance set_rh_NodeName : Setter rh_NodeName := λ f r, mkRPCHealthRecord (rh_Endpoint r) (rh_NodeID r) (f (rh_NodeName r)) (rh_Ready r) (rh_Successes r) (rh_Failures r) (rh_ConsecutiveFailures r) (rh_LastLatencyMS r) (rh_LastError r) (rh_UpdatedAt r).
#[export] Instance set_rh_Ready : Setter rh_Ready := λ f r, mkRPCHealthRecord (rh_Endpoint r) (rh_NodeID r) (rh_NodeName r) (f (rh_Ready r)) (rh_Successes r) (rh_Failures r) (rh_ConsecutiveFailures r) (rh_LastLatencyMS r) (rh_LastError r) (rh_UpdatedAt r).
#[export] Instance set_rh_Successes : Setter rh_Successes := λ f r, mkRPCHealthRecord (rh_Endpoint r) (rh_NodeID r) (rh_NodeName r) (rh_Ready r) (f (rh_Successes r)) (rh_Failures r) (rh_ConsecutiveFailures r) (rh_LastLatencyMS r) (rh_LastError r) (rh_UpdatedAt r).
#[export] Instance set_rh_Failures : Setter rh_Failures := λ f r, mkRPCHealthRecord (rh_Endpoint r) (rh_NodeID r) (rh_NodeName r) (rh_Ready r) (rh_Successes r) (f (rh_Failures r)) (rh_ConsecutiveFailures r) (rh_LastLatencyMS r) (rh_LastError r) (rh_UpdatedAt r).
#[export] Instance set_rh_ConsecutiveFailures : Setter rh_ConsecutiveFailures := λ f r, mkRPCHealthRecord (rh_Endpoint r) (rh_NodeID r) (rh_NodeName r) (rh_Ready r) (rh_Successes r) (rh_Failures r) (f (rh_ConsecutiveFailures r)) (rh_LastLatencyMS r) (rh_LastError r) (rh_UpdatedAt r).
#[export] Instance set_rh_LastLatencyMS : Setter rh_LastLatencyMS := λ f r, mkRPCHealthRecord (rh_Endpoint r) (rh_NodeID r) (rh_NodeName r) (rh_Ready r) (rh_Successes r) (rh_Failures r) (rh_ConsecutiveFailures r) (f (rh_LastLatencyMS r)) (rh_LastError r) (rh_UpdatedAt r).
#[export] Instance set_rh_LastError : Setter rh_LastError := λ f r, mkRPCHealthRecord (rh_Endpoint r) (rh_NodeID r) (rh_NodeName r) (rh_Ready r) (rh_Successes r) (rh_Failures r) (rh_ConsecutiveFailures r) (rh_LastLatencyMS r) (f (rh_LastError r)) (rh_UpdatedAt r).
#[export] Instance set_rh_UpdatedAt : Setter rh_UpdatedAt := λ f r, mkRPCHealthRecord (rh_Endpoint r) (rh_NodeID r) (rh_NodeName r) (rh_Ready r) (rh_Successes r) (rh_Failures r) (rh_ConsecutiveFailures r) (rh_LastLatencyMS r) (rh_LastError r) (f (rh_UpdatedAt r)).

Definition zero_RPCHealthRecord : RPCHealthRecord :=
  mkRPCHealthRecord "" "" "" false 0 0 0 0 "" 0.

Record ChatMessage := mkChatMessage { msg_Role : string; msg_Content : string }.

Record Conversation := mkConversation {
  conv_ID : string;
  conv_ModelID : string;
  conv_NodeID : string;
  conv_SystemPrompt : string;
  conv_Messages : list ChatMessage;
  conv_CreatedAt : Time;
  conv_UpdatedAt : Time;
}.

(* field setters *)
#[export] Instance set_conv_ID : Setter conv_ID := λ f r, mkConversation (f (conv_ID r)) (conv_ModelID r) (conv_NodeID r) (conv_SystemPrompt r) (conv_Messages r) (conv_CreatedAt r) (conv_UpdatedAt r).
#[export] Instance set_conv_ModelID : Setter conv_ModelID := λ f r, mkConversation (conv_ID r) (f (conv_ModelID r)) (conv_NodeID r) (conv_SystemPrompt r) (conv_Messages r) (conv_CreatedAt r) (conv_UpdatedAt r).
#[export] Instance set_conv_NodeID : Setter conv_NodeID := λ f r, mkConversation (conv_ID r) (conv_ModelID r) (f (conv_NodeID r)) (conv_SystemPrompt r) (conv_Messages r) (conv_CreatedAt r) (conv_UpdatedAt r).
#[export] Instance set_conv_SystemPrompt : Setter conv_SystemPrompt := λ f r, mkConversation (conv_ID r) (conv_ModelID r) (conv_NodeID r) (f (conv_SystemPrompt r)) (conv_Messages r) (conv_CreatedAt r) (conv_UpdatedAt r).
#[export] Instance set_conv_Messages : Setter conv_Messages := λ f r, mkConversation (conv_ID r) (conv_ModelID r) (conv_NodeID r) (conv_SystemPrompt r) (f (conv_Messages r)) (conv_CreatedAt r) (conv_UpdatedAt r).
#[export] Instance set_conv_CreatedAt : Setter conv_CreatedAt := λ f r, mkConversation (conv_ID r) (conv_ModelID r) (conv_NodeID r) (conv_SystemPrompt r) (conv_Messages r) (f (conv_CreatedAt r)) (conv_UpdatedAt r).
#[export] Instance set_conv_UpdatedAt : Setter conv_UpdatedAt := λ f r, mkConversation (conv_ID r) (conv_ModelID r) (conv_NodeID r) (conv_SystemPrompt r) (conv_Messages r) (conv_CreatedAt r) (f (conv_UpdatedAt r)).

Record Memory := mkMemory {
  memo_ID : string;
  memo_ModelID : string;
  memo_Key : string;
  memo_Value : string;
  memo_Source : string;
  memo_ConversationID : string;
  memo_CreatedAt : Time;
  memo_UpdatedAt : Time;
}.

(* field setters *)
#[export] Instance set_memo_ID : Setter memo_ID := λ f r, mkMemory (f (memo_ID r)) (memo_ModelID r) (memo_Key r) (memo_Value r) (memo_Source r) (memo_ConversationID r) (memo_CreatedAt r) (memo_UpdatedAt r).
#[export] Instance set_memo_ModelID : Setter memo_ModelID := λ f r, mkMemory (memo_ID r) (f (memo_ModelID r)) (memo_Key r) (memo_Value r) (memo_Source r) (memo_ConversationID r) (memo_CreatedAt r) (memo_UpdatedAt r).
#[export] Instance set_memo_Key : Setter memo_Key := λ f r, mkMemory (memo_ID r) (memo_ModelID r) (f (memo_Key r)) (memo_Value r) (memo_Source r) (memo_ConversationID r) (memo_CreatedAt r) (memo_UpdatedAt r).
#[export] Instance set_memo_Value : Setter memo_Value := λ f r, mkMemory (memo_ID r) (memo_ModelID r) (memo_Key r) (f (memo_Value r)) (memo_Source r) (memo_ConversationID r) (memo_CreatedAt r) (memo_UpdatedAt r).
#[export] Instance set_memo_Source : Setter memo_Source := λ f r, mkMemory (memo_ID r) (memo_ModelID r) (memo_Key r) (memo_Value r) (f (memo_Source r)) (memo_ConversationID r) (memo_CreatedAt r) (memo_UpdatedAt r).
#[export] Instance set_memo_ConversationID : Setter memo_ConversationID := λ f r, mkMemory (memo_ID r) (memo_ModelID r) (memo_Key r) (memo_Value r) (memo_Source r) (f (memo_ConversationID r)) (memo_CreatedAt r) (memo_UpdatedAt r).
#[export] Instance set_memo_CreatedAt : Setter memo_CreatedAt := λ f r, mkMemory (memo_ID r) (memo_ModelID r) (memo_Key r) (memo_Value r) (memo_Source r) (memo_ConversationID r) (f (memo_CreatedAt r)) (memo_UpdatedAt r).
#[export] Instance set_memo_UpdatedAt : Setter memo_UpdatedAt := λ f r, mkMemory (memo_ID r) (memo_ModelID r) (memo_Key r) (memo_Value r) (memo_Source r) (memo_ConversationID r) (memo_CreatedAt r) (f (memo_UpdatedAt r)).
