(* ===== verification/Protocol.v ===== *)
(** * Package protocol: distributed RPC plans and results

    [internal/protocol/distributed_rpc.go]: the execution plan the manager sends
    with a distributed RPC job and the result the worker sends back, with the
    validation each side runs.  An error is the constructor of the check that
    failed. *)

From S2P Require Import Prelude GoString.

Definition DistributedRPCProtocol : string := "cmesh.distributed-rpc".
Definition DistributedRPCProtocolVersion : Z := 1.
Definition DistributedRPCPlanSchemaVersion : Z := 1.

Record DistributedRPCBackend := mkDistributedRPCBackend {
  be_NodeID : string;
  be_NodeName : string;
  be_Runtime : string;
  be_Endpoint : string;
  be_HealthStatus : string;
  be_LatencyMS : Z;
  be_Error : string;
}.

Record DistributedRPCExecutionPlan := mkDistributedRPCExecutionPlan {
  ep_ID : string;
  ep_Protocol : string;
  ep_ProtocolVersion : Z;
  ep_PlanSchemaVersion : Z;
  ep_Mode : string;
  ep_ModelID : string;
  ep_CoordinatorNodeID : string;
  ep_CoordinatorNodeName : string;
  ep_RPCEndpoints : list string;
  ep_Backends : list DistributedRPCBackend;
  ep_HealthChecked : bool;
  ep_PlannedAt : string;
}.

Record DistributedRPCExecutionResult := mkDistributedRPCExecutionResult {
  er_Protocol : string;
  er_ProtocolVersion : Z;
  er_PlanSchemaVersion : Z;
  er_PlanID : string;
  er_Kind : string;
  er_ModelID : string;
  er_Output : string;
  er_Runtime : string;
  er_RuntimeVersion : string;
  er_WorkerRuntime : string;
  er_RPCEndpoints : list string;
  er_RPCEndpointCount : Z;
  er_DurationMS : Z;
  er_CompletedAt : string;
}.

Inductive plan_error :=
  | ProtocolRequired
  | UnsupportedRPCProtocol (p : string)
  | UnsupportedProtocolVersion (v : Z)
  | UnsupportedPlanSchemaVersion (v : Z)
  | PlanModeRequired
  | PlanModelIDRequired
  | PlanModelIDMismatch (plan want : string)
  | CoordinatorRequired
  | CoordinatorMismatch (plan want : string)
  | RPCEndpointsRequired
  | BackendsRequired
  | BackendEmptyEndpoint
  | BackendNotListed (endpoint : string)
  | BackendEmptyNodeID (endpoint : string)
  | ResultKindRequired
  | ResultModelIDRequired
  | ResultOutputRequired
  | ResultPlanIDMismatch (result plan : string)
  | ResultEndpointNotListed (endpoint : string).

Definition cleanRPCEndpoints (endpoints : list string) : list string := clean_loop ∅ endpoints.

(** The loop over the backends: the first offending backend decides. *)
Fixpoint backends_loop (endpointSet : list string) (bs : list DistributedRPCBackend) : option plan_error :=
  match bs with
  | [] => None
  | backend :: bs =>
      let endpoint := TrimSpace (be_Endpoint backend) in
      match first_error [
        (str_eqb endpoint "", BackendEmptyEndpoint);
        (negb (bool_decide (endpoint ∈ endpointSet)), BackendNotListed endpoint);
        (blank (be_NodeID backend), BackendEmptyNodeID endpoint)]
      with
      | Some e => Some e
      | None => backends_loop endpointSet bs
      end
  end.

Definition ValidateDistributedRPCExecutionPlan
    (plan : DistributedRPCExecutionPlan) (modelID coordinatorNodeID : string) : option plan_error :=
  match first_error [
    (blank (ep_Protocol plan), ProtocolRequired);
    (negb (str_eqb (ep_Protocol plan) DistributedRPCProtocol), UnsupportedRPCProtocol (ep_Protocol plan));
    (negb (ep_ProtocolVersion plan =? DistributedRPCProtocolVersion),
       UnsupportedProtocolVersion (ep_ProtocolVersion plan));
    (negb (ep_PlanSchemaVersion plan =? DistributedRPCPlanSchemaVersion),
       UnsupportedPlanSchemaVersion (ep_PlanSchemaVersion plan));
    (blank (ep_Mode plan), PlanModeRequired);
    (blank (ep_ModelID plan), PlanModelIDRequired);
    (negb (str_eqb modelID "") && negb (str_eqb (ep_ModelID plan) modelID),
       PlanModelIDMismatch (ep_ModelID plan) modelID);
    (blank (ep_CoordinatorNodeID plan), CoordinatorRequired);
    (negb (str_eqb coordinatorNodeID "") && negb (str_eqb (ep_CoordinatorNodeID plan) coordinatorNodeID),
       CoordinatorMismatch (ep_CoordinatorNodeID plan) coordinatorNodeID);
    (Nat.eqb (length (cleanRPCEndpoints (ep_RPCEndpoints plan))) 0, RPCEndpointsRequired);
    (Nat.eqb (length (ep_Backends plan)) 0, BackendsRequired)]
  with
  | Some e => Some e
  | None => backends_loop (cleanRPCEndpoints (ep_RPCEndpoints plan)) (ep_Backends plan)
  end.

Fixpoint endpoints_listed (planEndpoints endpoints : list string) : option plan_error :=
  match endpoints with
  | [] => None
  | endpoint :: endpoints =>
      if bool_decide (endpoint ∈ planEndpoints) then endpoints_listed planEndpoints endpoints
      else Some (ResultEndpointNotListed endpoint)
  end.

Definition ValidateDistributedRPCExecutionResult
    (result : DistributedRPCExecutionResult) (plan : DistributedRPCExecutionPlan) : option plan_error :=
  match first_error [
    (negb (str_eqb (er_Protocol result) DistributedRPCProtocol), UnsupportedRPCProtocol (er_Protocol result));
    (negb (er_ProtocolVersion result =? DistributedRPCProtocolVersion),
       UnsupportedProtocolVersion (er_ProtocolVersion result));
    (negb (er_PlanSchemaVersion result =? DistributedRPCPlanSchemaVersion),
       UnsupportedPlanSchemaVersion (er_PlanSchemaVersion result));
    (blank (er_Kind result), ResultKindRequired);
    (blank (er_ModelID result), ResultModelIDRequired);
    (blank (er_Output result), ResultOutputRequired);
    (Nat.eqb (length (cleanRPCEndpoints (er_RPCEndpoints result))) 0, RPCEndpointsRequired);
    (negb (str_eqb (ep_ID plan) "") && negb (str_eqb (er_PlanID result) "")
       && negb (str_eqb (er_PlanID result) (ep_ID plan)),
       ResultPlanIDMismatch (er_PlanID result) (ep_ID plan));
    (negb (str_eqb (ep_ModelID plan) "") && negb (str_eqb (er_ModelID result) (ep_ModelID plan)),
       PlanModelIDMismatch (er_ModelID result) (ep_ModelID plan))]
  with
  | Some e => Some e
  | None => endpoints_listed (cleanRPCEndpoints (ep_RPCEndpoints plan))
              (cleanRPCEndpoints (er_RPCEndpoints result))
  end.

(** ** Lemmas *)

Lemma backends_loop_None eps bs :
  backends_loop eps bs = None ↔
  Forall (λ b, TrimSpace (be_Endpoint b) ≠ "" ∧ TrimSpace (be_Endpoint b) ∈ eps ∧
               blank (be_NodeID b) = false) bs.
Proof.
  induction bs as [|b bs IH]; simpl; [by split|]. rewrite Forall_cons, <- IH.
  repeat case_bool_decide; simpl; destruct (blank (be_NodeID b)); naive_solver.
Qed.

Lemma endpoints_listed_None ps es :
  endpoints_listed ps es = None ↔ Forall (λ e, e ∈ ps) es.
Proof.
  induction es as [|e es IH]; simpl; [by split|]. rewrite Forall_cons, <- IH.
  case_bool_decide; naive_solver.
Qed.

(** The contract of an execution plan for a request. *)
Record plan_spec (plan : DistributedRPCExecutionPlan) (modelID coordinatorNodeID : string) : Prop := {
  ps_protocol : ep_Protocol plan = DistributedRPCProtocol;
  ps_version : ep_ProtocolVersion plan = DistributedRPCProtocolVersion;
  ps_schema : ep_PlanSchemaVersion plan = DistributedRPCPlanSchemaVersion;
  ps_mode : blank (ep_Mode plan) = false;
  ps_model : blank (ep_ModelID plan) = false;
  ps_model_match : modelID = "" ∨ ep_ModelID plan = modelID;
  ps_coord : blank (ep_CoordinatorNodeID plan) = false;
  ps_coord_match : coordinatorNodeID = "" ∨ ep_CoordinatorNodeID plan = coordinatorNodeID;
  ps_endpoints : cleanRPCEndpoints (ep_RPCEndpoints plan) ≠ [];
  ps_backends : ep_Backends plan ≠ [];
  ps_listed : Forall (λ b, TrimSpace (be_Endpoint b) ≠ "" ∧
      TrimSpace (be_Endpoint b) ∈ cleanRPCEndpoints (ep_RPCEndpoints plan) ∧
      blank (be_NodeID b) = false) (ep_Backends plan);
}.

Lemma length_eqb_0 {A} (l : list A) : Nat.eqb (length l) 0 = false ↔ l ≠ [].
Proof. destruct l; simpl; naive_solver. Qed.
Lemma mismatch_false (x want : string) :
  negb (str_eqb want "") && negb (str_eqb x want) = false ↔ want = "" ∨ x = want.
Proof. repeat case_bool_decide; simpl; naive_solver. Qed.

Lemma plan_valid_spec plan modelID coord :
  ValidateDistributedRPCExecutionPlan plan modelID coord = None ↔ plan_spec plan modelID coord.
Proof.
  unfold ValidateDistributedRPCExecutionPlan. split.
  - intros H. destruct (first_error _) eqn:E; [done|]. apply backends_loop_None in H.
    rewrite first_error_None, !Forall_cons in E. simpl in E.
    rewrite !negb_false_iff, !Z.eqb_eq, !mismatch_false, !length_eqb_0, !bool_decide_eq_true in E.
    destruct_and! E. by constructor.
  - intros []. destruct (first_error _) eqn:E; [|by apply backends_loop_None].
    exfalso. revert E. cbn [first_error].
    rewrite ps_protocol0, ps_version0, ps_schema0, ps_mode0, ps_model0, ps_coord0.
    apply mismatch_false in ps_model_match0 as ->. apply mismatch_false in ps_coord_match0 as ->.
    apply length_eqb_0 in ps_endpoints0 as ->. apply length_eqb_0 in ps_backends0 as ->. done.
Qed.
