(* ===== verification/Models.v ===== *)
(** * Package models: job inputs and the model catalog

    [internal/models/catalog.go]: the job types, the inputs of model jobs, the
    catalog and the quality presets. *)

From S2P Require Import Prelude GoString Cdip Types Protocol.

Definition JobInstall : string := "model.install".
Definition JobDelete : string := "model.delete".
Definition JobGenerate : string := "model.generate".
Definition JobGenerateDistributedRPC : string := "model.generate.distributed_rpc".
Definition JobGenerateDistributed : string := "model.generate.distributed".
Definition JobGenerateStage : string := "model.generate.distributed.stage".
Definition JobRepair : string := "model.repair".
Definition JobCleanup : string := "model.cleanup".

Definition RuntimeLlamaCPP : string := "llama.cpp".

Record Model := mkModel {
  model_ID : string;
  model_Name : string;
  model_Family : string;
  model_Runtime : string;
  model_Repo : string;
  model_File : string;
  model_URL : string;
  model_Parameters : string;
  model_Quant : string;
  model_Context : Z;
  model_DiskBytes : Z;
  model_MemoryBytes : Z;
  model_VRAMBytes : Z;
  model_License : string;
  model_Description : string;
}.

Record QualityPreset := mkQualityPreset {
  qp_Temperature : string;
  qp_MaxTokens : Z;
  qp_SystemPrompt : string;
}.

(** Inputs of the install, delete and repair jobs have the same two fields. *)
Record DeleteInput := mkDeleteInput { del_ModelID : string; del_CacheDir : string }.

Record GenerateInput := mkGenerateInput {
  gen_ModelID : string;
  gen_Prompt : string;
  gen_Messages : list ChatMessage;
  gen_SystemPrompt : string;
  gen_ConversationID : string;
  gen_MaxTokens : Z;
  gen_Temperature : string;
  gen_CacheDir : string;
}.

Record DistributedStageInput := mkDistributedStageInput {
  dsi_Index : Z;
  dsi_NodeID : string;
  dsi_NodeName : string;
  dsi_LayerStart : Z;
  dsi_LayerEnd : Z;
  dsi_Layers : Z;
}.

Record DistributedGenerateInput := mkDistributedGenerateInput {
  dgi_ModelID : string;
  dgi_Prompt : string;
  dgi_Messages : list ChatMessage;
  dgi_SystemPrompt : string;
  dgi_ConversationID : string;
  dgi_MaxTokens : Z;
  dgi_Temperature : string;
  dgi_Mode : string;
  dgi_Stages : list DistributedStageInput;
  dgi_Shards : list ModelShard;
}.

Record DistributedRPCGenerateInput := mkDistributedRPCGenerateInput {
  drg_ModelID : string;
  drg_Prompt : string;
  drg_Messages : list ChatMessage;
  drg_SystemPrompt : string;
  drg_ConversationID : string;
  drg_MaxTokens : Z;
  drg_Temperature : string;
  drg_RPCEndpoints : list string;
  drg_ExecutionPlan : DistributedRPCExecutionPlan;
}.

Record DistributedStageJobInput := mkDistributedStageJobInput {
  sji_ParentJobID : string;
  sji_ModelID : string;
  sji_ConversationID : string;
  sji_Stage : DistributedStageInput;
  sji_Shard : ModelShard;
  sji_UpstreamNodeID : string;
  sji_DownstreamNodeID : string;
  sji_Prompt : string;
  sji_Messages : list ChatMessage;
  sji_SystemPrompt : string;
  sji_MaxTokens : Z;
  sji_Temperature : string;
}.

(** [QualityPresetFor]: the preset by identifier, then by family. *)
Definition preset_base : string :=
  "You are CMesh's local AI assistant. Continue the conversation using the provided history. Answer the latest user message directly. If the user shared personal details earlier in this conversation, remember and use them. Do not print role names, chat template tokens, or hidden reasoning.".

Definition QualityPresetFor `{LowerCase} (model : Model) : QualityPreset :=
  let id := ToLower (model_ID model) in
  let family := ToLower (model_Family model) in
  if Contains id "deepseek" then
    mkQualityPreset "0.3" 768
      (preset_base +:+ " Return only the final answer unless the user explicitly asks for reasoning.")
  else if Contains id "coder" then
    mkQualityPreset "0.2" 768
      (preset_base +:+ " Prefer precise code, commands, and short explanations.")
  else if str_eqb family "qwen" then
    mkQualityPreset "0.5" 768 (preset_base +:+ " Prefer concise, natural answers.")
  else if str_eqb family "gemma" then
    mkQualityPreset "0.7" 512 (preset_base +:+ " Keep answers clear and conversational.")
  else if str_eqb family "mistral" then
    mkQualityPreset "0.4" 768 (preset_base +:+ " Be practical and concise.")
  else if str_eqb family "phi" then
    mkQualityPreset "0.3" 512 (preset_base +:+ " Keep answers short unless more detail is needed.")
  else if str_eqb family "llama" then
    mkQualityPreset "0.6" 512 preset_base
  else mkQualityPreset "0.6" 512 preset_base.

Definition gb : Z := 1024 * 1024 * 1024.

(** The models for a laptop or a workstation, then the larger ones. *)
Definition local_models : list Model :=
  [
    mkModel "qwen2.5-0.5b-instruct-q4-k-m"
      "Qwen2.5 0.5B Instruct" "Qwen" RuntimeLlamaCPP
      "Qwen/Qwen2.5-0.5B-Instruct-GGUF"
      "qwen2.5-0.5b-instruct-q4_k_m.gguf"
      "https://huggingface.co/Qwen/Qwen2.5-0.5B-Instruct-GGUF/resolve/main/qwen2.5-0.5b-instruct-q4_k_m.gguf"
      "0.5B" "Q4_K_M" 32768 (1 * gb) (2 * gb) 0 "Apache-2.0"
      "Small default chat model for first cluster inference tests.";
    mkModel "tinyllama-1.1b-chat-q4-k-m"
      "TinyLlama 1.1B Chat" "Llama" RuntimeLlamaCPP
      "TheBloke/TinyLlama-1.1B-Chat-v1.0-GGUF"
      "tinyllama-1.1b-chat-v1.0.Q4_K_M.gguf"
      "https://huggingface.co/TheBloke/TinyLlama-1.1B-Chat-v1.0-GGUF/resolve/main/tinyllama-1.1b-chat-v1.0.Q4_K_M.gguf"
      "1.1B" "Q4_K_M" 2048 (2 * gb) (3 * gb) 0 "Apache-2.0"
      "Compact chat model with a tiny disk footprint.";
    mkModel "gemma-2b-q4-k-m"
      "Gemma 2B" "Gemma" RuntimeLlamaCPP
      "MaziyarPanahi/gemma-2b-GGUF"
      "gemma-2b.Q4_K_M.gguf"
      "https://huggingface.co/MaziyarPanahi/gemma-2b-GGUF/resolve/main/gemma-2b.Q4_K_M.gguf"
      "2B" "Q4_K_M" 8192 (3 * gb) (5 * gb) 0 "Gemma"
      "Larger first-run option for stronger local Macs.";
    mkModel "phi-3.5-mini-instruct-q4-k-m"
      "Phi-3.5 Mini Instruct" "Phi" RuntimeLlamaCPP
      "bartowski/Phi-3.5-mini-instruct-GGUF"
      "Phi-3.5-mini-instruct-Q4_K_M.gguf"
      "https://huggingface.co/bartowski/Phi-3.5-mini-instruct-GGUF/resolve/main/Phi-3.5-mini-instruct-Q4_K_M.gguf"
      "3.8B" "Q4_K_M" 4096 (3 * gb) (5 * gb) 0 "MIT"
      "Small instruct model that should be more useful than the tiny smoke-test models.";
    mkModel "gemma-3-4b-it-q4-k-m"
      "Gemma 3 4B IT" "Gemma" RuntimeLlamaCPP
      "ggml-org/gemma-3-4b-it-GGUF"
      "gemma-3-4b-it-Q4_K_M.gguf"
      "https://huggingface.co/ggml-org/gemma-3-4b-it-GGUF/resolve/main/gemma-3-4b-it-Q4_K_M.gguf"
      "4B" "Q4_K_M" 8192 (4 * gb) (6 * gb) 0 "Gemma"
      "Modern Gemma instruct model for better local chat tests.";
    mkModel "mistral-7b-instruct-v0.3-q4-k-m"
      "Mistral 7B Instruct v0.3" "Mistral" RuntimeLlamaCPP
      "bartowski/Mistral-7B-Instruct-v0.3-GGUF"
      "Mistral-7B-Instruct-v0.3-Q4_K_M.gguf"
      "https://huggingface.co/bartowski/Mistral-7B-Instruct-v0.3-GGUF/resolve/main/Mistral-7B-Instruct-v0.3-Q4_K_M.gguf"
      "7B" "Q4_K_M" 32768 (5 * gb) (8 * gb) 0 "Apache-2.0"
      "Reliable general-purpose 7B instruct baseline.";
    mkModel "qwen2.5-7b-instruct-q4-k-m"
      "Qwen2.5 7B Instruct" "Qwen" RuntimeLlamaCPP
      "bartowski/Qwen2.5-7B-Instruct-GGUF"
      "Qwen2.5-7B-Instruct-Q4_K_M.gguf"
      "https://huggingface.co/bartowski/Qwen2.5-7B-Instruct-GGUF/resolve/main/Qwen2.5-7B-Instruct-Q4_K_M.gguf"
      "7B" "Q4_K_M" 32768 (5 * gb) (8 * gb) 0 "Apache-2.0"
      "Stronger default chat candidate for a 48 GB Mac.";
    mkModel "qwen2.5-coder-7b-instruct-q4-k-m"
      "Qwen2.5 Coder 7B Instruct" "Qwen" RuntimeLlamaCPP
      "Qwen/Qwen2.5-Coder-7B-Instruct-GGUF"
      "qwen2.5-coder-7b-instruct-q4_k_m.gguf"
      "https://huggingface.co/Qwen/Qwen2.5-Coder-7B-Instruct-GGUF/resolve/main/qwen2.5-coder-7b-instruct-q4_k_m.gguf"
      "7B" "Q4_K_M" 32768 (5 * gb) (8 * gb) 0 "Apache-2.0"
      "Code-focused model for testing developer prompts on the cluster.";
    mkModel "gemma-3-12b-it-q4-k-m"
      "Gemma 3 12B IT" "Gemma" RuntimeLlamaCPP
      "ggml-org/gemma-3-12b-it-GGUF"
      "gemma-3-12b-it-Q4_K_M.gguf"
      "https://huggingface.co/ggml-org/gemma-3-12b-it-GGUF/resolve/main/gemma-3-12b-it-Q4_K_M.gguf"
      "12B" "Q4_K_M" 8192 (8 * gb) (14 * gb) 0 "Gemma"
      "Heavier Gemma option for larger local machines."
  ]%string.
Definition large_models : list Model :=
  [
    mkModel "qwen2.5-14b-instruct-q4-k-m"
      "Qwen2.5 14B Instruct" "Qwen" RuntimeLlamaCPP
      "bartowski/Qwen2.5-14B-Instruct-GGUF"
      "Qwen2.5-14B-Instruct-Q4_K_M.gguf"
      "https://huggingface.co/bartowski/Qwen2.5-14B-Instruct-GGUF/resolve/main/Qwen2.5-14B-Instruct-Q4_K_M.gguf"
      "14B" "Q4_K_M" 32768 (10 * gb) (16 * gb) 0 "Apache-2.0"
      "Large local instruct model for high-memory Macs.";
    mkModel "mistral-small-24b-instruct-2501-q4-k-m"
      "Mistral Small 24B Instruct 2501" "Mistral" RuntimeLlamaCPP
      "bartowski/Mistral-Small-24B-Instruct-2501-GGUF"
      "Mistral-Small-24B-Instruct-2501-Q4_K_M.gguf"
      "https://huggingface.co/bartowski/Mistral-Small-24B-Instruct-2501-GGUF/resolve/main/Mistral-Small-24B-Instruct-2501-Q4_K_M.gguf"
      "24B" "Q4_K_M" 32768 (15 * gb) (26 * gb) 0 "Apache-2.0"
      "Heavy general-purpose instruct model for high-memory local workers.";
    mkModel "gemma-3-27b-it-q4-k-m"
      "Gemma 3 27B IT" "Gemma" RuntimeLlamaCPP
      "bartowski/google_gemma-3-27b-it-GGUF"
      "google_gemma-3-27b-it-Q4_K_M.gguf"
      "https://huggingface.co/bartowski/google_gemma-3-27b-it-GGUF/resolve/main/google_gemma-3-27b-it-Q4_K_M.gguf"
      "27B" "Q4_K_M" 8192 (18 * gb) (30 * gb) 0 "Gemma"
      "Large Gemma instruct model for stronger local reasoning tests.";
    mkModel "qwen2.5-32b-instruct-q4-k-m"
      "Qwen2.5 32B Instruct" "Qwen" RuntimeLlamaCPP
      "bartowski/Qwen2.5-32B-Instruct-GGUF"
      "Qwen2.5-32B-Instruct-Q4_K_M.gguf"
      "https://huggingface.co/bartowski/Qwen2.5-32B-Instruct-GGUF/resolve/main/Qwen2.5-32B-Instruct-Q4_K_M.gguf"
      "32B" "Q4_K_M" 32768 (21 * gb) (34 * gb) 0 "Apache-2.0"
      "Very large Qwen instruct model; recommended upper-end test for 48 GB Macs.";
    mkModel "qwen2.5-coder-32b-instruct-q4-k-m"
      "Qwen2.5 Coder 32B Instruct" "Qwen" RuntimeLlamaCPP
      "bartowski/Qwen2.5-Coder-32B-Instruct-GGUF"
      "Qwen2.5-Coder-32B-Instruct-Q4_K_M.gguf"
      "https://huggingface.co/bartowski/Qwen2.5-Coder-32B-Instruct-GGUF/resolve/main/Qwen2.5-Coder-32B-Instruct-Q4_K_M.gguf"
      "32B" "Q4_K_M" 32768 (21 * gb) (34 * gb) 0 "Apache-2.0"
      "Large code-focused model for serious local developer prompts.";
    mkModel "deepseek-r1-distill-qwen-32b-q4-k-m"
      "DeepSeek R1 Distill Qwen 32B" "Qwen" RuntimeLlamaCPP
      "bartowski/DeepSeek-R1-Distill-Qwen-32B-GGUF"
      "DeepSeek-R1-Distill-Qwen-32B-Q4_K_M.gguf"
      "https://huggingface.co/bartowski/DeepSeek-R1-Distill-Qwen-32B-GGUF/resolve/main/DeepSeek-R1-Distill-Qwen-32B-Q4_K_M.gguf"
      "32B" "Q4_K_M" 32768 (21 * gb) (34 * gb) 0 "MIT"
      "Experimental reasoning-oriented 32B model; expect slower responses."
  ]%string.

Definition catalog : list Model := local_models ++ large_models.

(** [Catalog] copies the slice. *)
Definition Catalog : list Model := catalog.

Fixpoint find_model (id : string) (l : list Model) : option Model :=
  match l with
  | [] => None
  | model :: l => if str_eqb (model_ID model) id then Some model else find_model id l
  end.

(** [(Model{}, false)] is [None]. *)
Definition Find (id : string) : option Model := find_model id catalog.

Definition MustFind (id : string) : result string Model :=
  match Find id with Some model => Ok model | None => Err id end.

(** ** Lemmas *)

Lemma find_model_Some id l model :
  find_model id l = Some model → model ∈ l ∧ model_ID model = id.
Proof.
  induction l as [|m l IH]; simpl; [done|]. case_bool_decide as H.
  - intros [= <-]. split; [by left|done].
  - intros Hm. destruct (IH Hm). split; [by right|done].
Qed.

Lemma find_model_complete id l :
  NoDup (model_ID <$> l) → ∀ model, model ∈ l → model_ID model = id → find_model id l = Some model.
Proof.
  induction l as [|m l IH]; csimpl; intros Hnd model Hin Hid; [by apply not_elem_of_nil in Hin|].
  apply NoDup_cons in Hnd as [Hm Hnd]. apply elem_of_cons in Hin as [->|Hin].
  - by rewrite bool_decide_eq_true_2.
  - rewrite bool_decide_eq_false_2; [by apply IH|]. intros Heq. apply Hm.
    apply list_elem_of_fmap. exists model. by rewrite Heq.
Qed.

Lemma catalog_ids_NoDup : NoDup (model_ID <$> catalog).
Proof. apply (bool_decide_unpack _). by vm_compute. Qed.
