(* ===== verification/Codec.v ===== *)
(** * A concrete JSON codec for examples

    The record types that travel as JSON are countable, so the bit-string codec
    of [Json] gives lawful [Marshal] and [Unmarshal] for them.  Only the worked
    examples and witnesses use it; the theorems hold for every codec. *)

From S2P Require Import Prelude GoString Json Cdip Types Protocol Models.
From stdpp Require Import countable.

Ltac record_countable f g := refine (inj_countable' f g _); by intros [].

#[export] Instance ChatMessage_eq_dec : EqDecision ChatMessage.
Proof. solve_decision. Defined.
#[export] Instance ChatMessage_countable : Countable ChatMessage.
Proof.
  record_countable (λ m, (msg_Role m, msg_Content m)) (λ '(r, c), mkChatMessage r c).
Defined.

#[export] Instance DeleteInput_eq_dec : EqDecision DeleteInput.
Proof. solve_decision. Defined.
#[export] Instance DeleteInput_countable : Countable DeleteInput.
Proof.
  record_countable (λ i, (del_ModelID i, del_CacheDir i)) (λ '(m, c), mkDeleteInput m c).
Defined.

#[export] Instance GenerateInput_eq_dec : EqDecision GenerateInput.
Proof. solve_decision. Defined.
#[export] Instance GenerateInput_countable : Countable GenerateInput.
Proof.
  record_countable
    (λ i, (gen_ModelID i, gen_Prompt i, gen_Messages i, gen_SystemPrompt i, gen_ConversationID i,
           gen_MaxTokens i, gen_Temperature i, gen_CacheDir i))
    (λ '(a, b, c, d, e, f, g, h), mkGenerateInput a b c d e f g h).
Defined.

#[export] Instance Backend_eq_dec : EqDecision DistributedRPCBackend.
Proof. solve_decision. Defined.
#[export] Instance Backend_countable : Countable DistributedRPCBackend.
Proof.
  record_countable
    (λ b, (be_NodeID b, be_NodeName b, be_Runtime b, be_Endpoint b, be_HealthStatus b, be_LatencyMS b,
           be_Error b))
    (λ '(a, b, c, d, e, f, g), mkDistributedRPCBackend a b c d e f g).
Defined.

#[export] Instance ExecutionPlan_eq_dec : EqDecision DistributedRPCExecutionPlan.
Proof. solve_decision. Defined.
#[export] Instance ExecutionPlan_countable : Countable DistributedRPCExecutionPlan.
Proof.
  record_countable
    (λ p, (ep_ID p, ep_Protocol p, ep_ProtocolVersion p, ep_PlanSchemaVersion p, ep_Mode p, ep_ModelID p,
           ep_CoordinatorNodeID p, ep_CoordinatorNodeName p, ep_RPCEndpoints p, ep_Backends p,
           ep_HealthChecked p, ep_PlannedAt p))
    (λ '(a, b, c, d, e, f, g, h, i, j, k, l), mkDistributedRPCExecutionPlan a b c d e f g h i j k l).
Defined.

#[export] Instance RPCInput_eq_dec : EqDecision DistributedRPCGenerateInput.
Proof. solve_decision. Defined.
#[export] Instance RPCInput_countable : Countable DistributedRPCGenerateInput.
Proof.
  record_countable
    (λ i, (drg_ModelID i, drg_Prompt i, drg_Messages i, drg_SystemPrompt i, drg_ConversationID i,
           drg_MaxTokens i, drg_Temperature i, drg_RPCEndpoints i, drg_ExecutionPlan i))
    (λ '(a, b, c, d, e, f, g, h, i), mkDistributedRPCGenerateInput a b c d e f g h i).
Defined.

#[export] Instance Stage_countable : Countable Stage.
Proof.
  record_countable (λ s, (stage_Index s, stage_NodeID s, stage_NodeName s, stage_LayerStart s, stage_LayerEnd s))
    (λ '(a, b, c, d, e), mkStage a b c d e).
Defined.
#[export] Instance Materialization_countable : Countable ShardMaterialization.
Proof.
  refine (inj_countable'
    (λ m, match m with ShardLogicalLayers => inl true | ShardPhysicalArtifact => inl false
                     | ShardMaterializationOther s => inr s end)
    (λ x, match x with inl true => ShardLogicalLayers | inl false => ShardPhysicalArtifact
                     | inr s => ShardMaterializationOther s end) _).
  by intros [].
Defined.
#[export] Instance ModelShard_eq_dec : EqDecision ModelShard.
Proof. solve_decision. Defined.
#[export] Instance ModelShard_countable : Countable ModelShard.
Proof.
  record_countable
    (λ s, (shard_Stage s, shard_Runtime s, shard_RequiredMemoryBytes s, shard_RequiredDiskBytes s,
           shard_SourceArtifact s, shard_TargetArtifact s, shard_Materialization s, shard_Capabilities s))
    (λ '(a, b, c, d, e, f, g, h), mkModelShard a b c d e f g h).
Defined.
#[export] Instance StageInput_eq_dec : EqDecision DistributedStageInput.
Proof. solve_decision. Defined.
#[export] Instance StageInput_countable : Countable DistributedStageInput.
Proof.
  record_countable
    (λ s, (dsi_Index s, dsi_NodeID s, dsi_NodeName s, dsi_LayerStart s, dsi_LayerEnd s, dsi_Layers s))
    (λ '(a, b, c, d, e, f), mkDistributedStageInput a b c d e f).
Defined.
#[export] Instance StageJobInput_eq_dec : EqDecision DistributedStageJobInput.
Proof. solve_decision. Defined.
#[export] Instance StageJobInput_countable : Countable DistributedStageJobInput.
Proof.
  record_countable
    (λ s, (sji_ParentJobID s, sji_ModelID s, sji_ConversationID s, sji_Stage s, sji_Shard s,
           sji_UpstreamNodeID s, sji_DownstreamNodeID s, sji_Prompt s, sji_Messages s, sji_SystemPrompt s,
           sji_MaxTokens s, sji_Temperature s))
    (λ '(a, b, c, d, e, f, g, h, i, j, k, l), mkDistributedStageJobInput a b c d e f g h i j k l).
Defined.
