(* ===== verification/State.v ===== *)
(** * Manager state

    [internal/manager/state.go], the data: the in-memory store of the manager.
    One record holds the maps of nodes, benchmarks, RPC health, jobs,
    conversations and memories; every method takes the lock for its whole body,
    so a method is a function from the state before to the state after.  This
    file has the record, the read-only views, benchmarks and RPC health. *)

From S2P Require Import Prelude GoString GoSort GoFloat World Types.

Definition defaultWorkerJobSlots : Z := 1.

Record State := mkState {
  st_startedAt : Time;
  st_heartbeatTimeout : Z;
  st_nodes : gmap string Node;
  st_benchmarks : gmap string (gmap BenchmarkKind BenchmarkResult);
  st_rpcHealth : gmap string RPCHealthRecord;
  st_jobs : gmap string Job;
  st_conversations : gmap string Conversation;
  st_memories : gmap string Memory;
}.

(* field setters *)
#[export] Instance set_st_startedAt : Setter st_startedAt := λ f r, mkState (f (st_startedAt r)) (st_heartbeatTimeout r) (st_nodes r) (st_benchmarks r) (st_rpcHealth r) (st_jobs r) (st_conversations r) (st_memories r).
#[export] Instance set_st_heartbeatTimeout : Setter st_heartbeatTimeout := λ f r, mkState (st_startedAt r) (f (st_heartbeatTimeout r)) (st_nodes r) (st_benchmarks r) (st_rpcHealth r) (st_jobs r) (st_conversations r) (st_memories r).
#[export] Instance set_st_nodes : Setter st_nodes := λ f r, mkState (st_startedAt r) (st_heartbeatTimeout r) (f (st_nodes r)) (st_benchmarks r) (st_rpcHealth r) (st_jobs r) (st_conversations r) (st_memories r).
#[export] Instance set_st_benchmarks : Setter st_benchmarks := λ f r, mkState (st_startedAt r) (st_heartbeatTimeout r) (st_nodes r) (f (st_benchmarks r)) (st_rpcHealth r) (st_jobs r) (st_conversations r) (st_memories r).
#[export] Instance set_st_rpcHealth : Setter st_rpcHealth := λ f r, mkState (st_startedAt r) (st_heartbeatTimeout r) (st_nodes r) (st_benchmarks r) (f (st_rpcHealth r)) (st_jobs r) (st_conversations r) (st_memories r).
#[export] Instance set_st_jobs : Setter st_jobs := λ f r, mkState (st_startedAt r) (st_heartbeatTimeout r) (st_nodes r) (st_benchmarks r) (st_rpcHealth r) (f (st_jobs r)) (st_conversations r) (st_memories r).
#[export] Instance set_st_conversations : Setter st_conversations := λ f r, mkState (st_startedAt r) (st_heartbeatTimeout r) (st_nodes r) (st_benchmarks r) (st_rpcHealth r) (st_jobs r) (f (st_conversations r)) (st_memories r).
#[export] Instance set_st_memories : Setter st_memories := λ f r, mkState (st_startedAt r) (st_heartbeatTimeout r) (st_nodes r) (st_benchmarks r) (st_rpcHealth r) (st_jobs r) (st_conversations r) (f (st_memories r)).

Record ClusterSummary := mkClusterSummary {
  cs_StartedAt : Time;
  cs_WorkersTotal : Z;
  cs_WorkersOnline : Z;
  cs_GPUs : Z;
  cs_VRAMTotalBytes : Z;
  cs_VRAMAllowedBytes : Z;
  cs_BenchmarkScore : float64;
  cs_Resources : ResourceSnapshot;
}.

Record NodeBenchmarkSummary := mkNodeBenchmarkSummary {
  nbs_NodeID : string;
  nbs_TotalScore : float64;
  nbs_Results : gmap BenchmarkKind BenchmarkResult;
}.

Definition NewState (now : Time) : State :=
  mkState now (30 * Second) ∅ ∅ ∅ ∅ ∅ ∅.

Definition normalizeMaxAttempts (value : Z) : Z :=
  if value <=? 0 then DefaultMaxAttempts else value.

Definition workerJobSlots (node : Node) : Z :=
  if 0 <? res_JobSlots (node_Resources node) then res_JobSlots (node_Resources node)
  else defaultWorkerJobSlots.

Definition jobCanBeCanceled (job : Job) : bool :=
  bool_decide (job_Status job = StatusQueued) || bool_decide (job_Status job = StatusScheduled)
  || bool_decide (job_Status job = StatusRunning).

(** [job.Status == Scheduled || job.Status == Running] *)
Definition is_active (job : Job) : bool :=
  bool_decide (job_Status job = StatusScheduled) || bool_decide (job_Status job = StatusRunning).

(** The GPU loop of [nodeMeetsRequirements]. *)
Definition gpu_meets (req : Requirements) (gpu : GPUResources) : bool :=
  gpu_ComputeCompatible gpu &&
  ((req_VRAMBytes req =? 0) || (req_VRAMBytes req <=? gpu_AllowedVRAMBytes gpu)).

Definition nodeMeetsRequirements (node : Node) (req : Requirements) : bool :=
  let r := node_Resources node in
  if (0 <? req_CPUCores req) && (cpu_CoresAllowed (res_CPU r) <? req_CPUCores req) then false
  else if (0 <? req_MemoryBytes req) && (mem_AllowedBytes (res_Memory r) <? req_MemoryBytes req) then false
  else if (0 <? req_DiskBytes req) && (sto_AllowedBytes (res_Storage r) <? req_DiskBytes req) then false
  else if (0 <? req_DiskBytes req) && (0 <? sto_FreeBytes (res_Storage r))
            && (sto_FreeBytes (res_Storage r) <? req_DiskBytes req) then false
  else if negb (req_GPURequired req) && (req_VRAMBytes req =? 0) then true
  else existsb (gpu_meets req) (res_GPU r).

Definition deriveNodeStatus (s : State) (node : Node) (now : Time) : Node :=
  if bool_decide (node_Role node = NodeRoleWorker) && bool_decide (node_Status node = NodeStatusOnline)
     && (st_heartbeatTimeout s <? time_Sub now (node_UpdatedAt node))
  then node <| node_Status := NodeStatusOffline |> else node.

Definition activeJobsForWorkerLocked `{World} (s : State) (t : Tag) (nodeID : string) : Z :=
  foldl (λ active job,
      if bool_decide (job_AssignedTo job ≠ nodeID) then active
      else if is_active job then active + 1 else active)
    0 (range_values t (st_jobs s)).

Definition nodeBenchmarkScoreLocked `{World} (s : State) (t : Tag) (nodeID : string) : float64 :=
  foldl (λ score r, f_add score (bench_Score r)) f_zero
    (range_values t (st_benchmarks s !!! nodeID)).

(** ** Benchmarks *)

Definition PutBenchmark `{World} (s : State) (res : BenchmarkResult) : State * bool :=
  match st_nodes s !! bench_NodeID res with
  | None => (s, false)
  | Some _ =>
      let res := if IsZero (bench_CreatedAt res)
                 then res <| bench_CreatedAt := w_clock ["now"] |> else res in
      let byKind := st_benchmarks s !!! bench_NodeID res in
      (s <| st_benchmarks := <[bench_NodeID res := <[bench_Kind res := res]> byKind]> (st_benchmarks s) |>, true)
  end.

Definition Benchmarks `{World} (s : State) : list BenchmarkResult :=
  foldl (λ results nodeID,
      results ++ range_values ["results"; nodeID] (st_benchmarks s !!! nodeID))
    [] (range_keys ["benchmarks"] (st_benchmarks s)).

(** One summary: the results copied, their scores added in the order of the walk. *)
Definition summarize `{World} (nodeID : string) (byKind : gmap BenchmarkKind BenchmarkResult)
    : NodeBenchmarkSummary :=
  foldl (λ summary kind,
      match byKind !! kind with
      | None => summary
      | Some r => mkNodeBenchmarkSummary (nbs_NodeID summary)
                    (f_add (nbs_TotalScore summary) (bench_Score r))
                    (<[kind := r]> (nbs_Results summary))
      end)
    (mkNodeBenchmarkSummary nodeID f_zero ∅)
    (range_keys ["results"; nodeID] byKind).

Definition BenchmarkSummaryByNode `{World} (s : State) : gmap string NodeBenchmarkSummary :=
  foldl (λ summaries nodeID,
      match st_benchmarks s !! nodeID with
      | None => summaries
      | Some byKind => <[nodeID := summarize nodeID byKind]> summaries
      end)
    ∅ (range_keys ["benchmarks"] (st_benchmarks s)).

(** ** RPC health *)

Definition PutRPCHealth `{World} (s : State) (update : RPCHealthUpdate) : State * RPCHealthRecord :=
  let endpoint := TrimSpace (rhu_Endpoint update) in
  if str_eqb endpoint "" then (s, zero_RPCHealthRecord) else
  let checkedAt := if IsZero (rhu_CheckedAt update) then w_clock ["now"] else rhu_CheckedAt update in
  let record := default zero_RPCHealthRecord (st_rpcHealth s !! endpoint) in
  let record := record <| rh_Endpoint := endpoint |> in
  let record := if negb (blank (rhu_NodeID update))
                then record <| rh_NodeID := TrimSpace (rhu_NodeID update) |> else record in
  let record := if negb (blank (rhu_NodeName update))
                then record <| rh_NodeName := TrimSpace (rhu_NodeName update) |> else record in
  let record := record <| rh_Ready := rhu_Ready update |>
                       <| rh_LastLatencyMS := rhu_LatencyMS update |>
                       <| rh_LastError := TrimSpace (rhu_Error update) |>
                       <| rh_UpdatedAt := checkedAt |> in
  let record :=
    if rhu_Ready update
    then record <| rh_Successes := i64 (rh_Successes record + 1) |> <| rh_ConsecutiveFailures := 0 |>
    else record <| rh_Failures := i64 (rh_Failures record + 1) |>
                <| rh_ConsecutiveFailures := i64 (rh_ConsecutiveFailures record + 1) |> in
  (s <| st_rpcHealth := <[endpoint := record]> (st_rpcHealth s) |>, record).

(** Ready records first, then the most recent, then by endpoint. *)
Definition rpc_less : RPCHealthRecord → RPCHealthRecord → bool :=
  true_first rh_Ready (desc_Z rh_UpdatedAt (asc_str_last rh_Endpoint)).

Definition RPCHealth `{World} (s : State) : list RPCHealthRecord :=
  sort_slice ["sort"] rpc_less (range_values ["rpc"] (st_rpcHealth s)).

(** ** Views *)

Definition Jobs `{World} (s : State) : list Job := range_values ["jobs"] (st_jobs s).
Definition FindJob (s : State) (id : string) : option Job := st_jobs s !! id.
Definition FindConversation (s : State) (id : string) : option Conversation := st_conversations s !! id.
Definition Conversations `{World} (s : State) : list Conversation :=
  range_values ["conversations"] (st_conversations s).
Definition Memories `{World} (s : State) (modelID : string) : list Memory :=
  filter (λ m, modelID = ""%string ∨ memo_ModelID m = modelID)
    (range_values ["memories"] (st_memories s)).

(** ** Counting active jobs *)

(** A job that occupies a slot of worker [nodeID]. *)
Definition occupies (nodeID : string) (job : Job) : Prop :=
  job_AssignedTo job = nodeID ∧ is_active job = true.
#[export] Instance occupies_dec nodeID job : Decision (occupies nodeID job).
Proof. unfold occupies. apply _. Defined.

(** The number of active jobs of a worker, as a cardinality. *)
Definition active_on (nodeID : string) (jobs : gmap string Job) : Z :=
  Z.of_nat (size (filter (λ kv, occupies nodeID kv.2) jobs)).

Definition occ (nodeID : string) (job : Job) : Z :=
  if decide (occupies nodeID job) then 1 else 0.

Lemma occ_bounds n job : 0 ≤ occ n job ≤ 1.
Proof. unfold occ. case_decide; lia. Qed.

Lemma active_on_empty n : active_on n ∅ = 0.
Proof. unfold active_on. by rewrite map_filter_empty, map_size_empty. Qed.

Lemma active_on_insert n jobs k job :
  jobs !! k = None → active_on n (<[k := job]> jobs) = active_on n jobs + occ n job.
Proof.
  intros Hk. unfold active_on, occ. case_decide as H.
  - rewrite map_filter_insert_True by done. rewrite map_size_insert_None; [lia|].
    rewrite map_lookup_filter, Hk. done.
  - rewrite map_filter_insert_False by done. rewrite delete_id by done. lia.
Qed.

Lemma active_on_delete n jobs k old :
  jobs !! k = Some old → active_on n jobs = active_on n (delete k jobs) + occ n old.
Proof.
  intros Hk. rewrite <- (insert_delete_id jobs k old Hk) at 1.
  apply active_on_insert, lookup_delete_eq.
Qed.

Lemma active_on_update n jobs k old job :
  jobs !! k = Some old →
  active_on n (<[k := job]> jobs) = active_on n jobs - occ n old + occ n job.
Proof.
  intros Hk. rewrite <- insert_delete_eq, active_on_insert by apply lookup_delete_eq.
  rewrite (active_on_delete n jobs k old Hk). lia.
Qed.

Lemma active_on_nonneg n jobs : 0 ≤ active_on n jobs.
Proof. unfold active_on. lia. Qed.

Lemma active_on_0 n jobs :
  active_on n jobs = 0 ↔ ∀ k job, jobs !! k = Some job → ¬ occupies n job.
Proof.
  unfold active_on. split.
  - intros H k job Hk Ho.
    assert (size (filter (λ kv, occupies n kv.2) jobs) = 0%nat) as Hs by lia.
    apply map_size_empty_inv in Hs.
    assert (filter (λ kv : string * Job, occupies n kv.2) jobs !! k = Some job) as Hf
      by (apply map_lookup_filter_Some; done).
    by rewrite Hs, lookup_empty in Hf.
  - intros H. replace (filter _ jobs) with (∅ : gmap string Job); [done|].
    symmetry. apply map_empty_filter. intros k job Hk. by apply (H k).
Qed.

Section lemmas.
Context `{World}.

Lemma count_loop nodeID l a :
  foldl (λ active job,
      if bool_decide (job_AssignedTo job ≠ nodeID) then active
      else if is_active job then active + 1 else active) a l
  = a + Z.of_nat (length (filter (occupies nodeID) l)).
Proof.
  revert a. induction l as [|job l IH]; intros a; cbn [foldl]; [simpl; lia|].
  rewrite IH, filter_cons.
  destruct (decide (occupies nodeID job)) as [[H1 H2]|H']; simpl.
  - rewrite H2. case_bool_decide as Hn; [by destruct Hn|]. lia.
  - case_bool_decide as H1; [lia|]. destruct (is_active job) eqn:E; [|lia].
    by destruct H'.
Qed.

Lemma filter_values_size {V} (P : V → Prop) `{∀ v, Decision (P v)} (m : gmap string V) :
  length (filter P ((map_to_list m).*2)) = size (filter (λ kv : string * V, P kv.2) m).
Proof.
  induction m as [|k v m Hk IH] using map_ind.
  { by rewrite map_to_list_empty, map_filter_empty, map_size_empty. }
  rewrite map_to_list_insert by done. rewrite fmap_cons, filter_cons. simpl.
  case_decide as Hv.
  - rewrite map_filter_insert_True by done. rewrite map_size_insert_None
      by (by rewrite map_lookup_filter, Hk). simpl. by rewrite IH.
  - rewrite map_filter_insert_False by done. by rewrite delete_id by done.
Qed.

(** The counting loop computes the cardinality, in any order of the walk. *)
Lemma activeJobs_spec s t nodeID :
  activeJobsForWorkerLocked s t nodeID = active_on nodeID (st_jobs s).
Proof.
  unfold activeJobsForWorkerLocked, active_on. rewrite count_loop, Z.add_0_l.
  by rewrite (range_values_perm t), filter_values_size.
Qed.
End lemmas.

(** ** Node status *)

Lemma deriveNodeStatus_cases s node now :
  deriveNodeStatus s node now = node ∨
  (node_Role node = NodeRoleWorker ∧ node_Status node = NodeStatusOnline ∧
   st_heartbeatTimeout s < time_Sub now (node_UpdatedAt node) ∧
   deriveNodeStatus s node now = node <| node_Status := NodeStatusOffline |>).
Proof.
  unfold deriveNodeStatus. destruct (_ && _) eqn:E; [|by left]. right.
  rewrite !andb_true_iff, !bool_decide_eq_true, Z.ltb_lt in E.
  by destruct E as [[-> ->] ?].
Qed.
Lemma deriveNodeStatus_ID s node now : node_ID (deriveNodeStatus s node now) = node_ID node.
Proof. destruct (deriveNodeStatus_cases s node now) as [->|(_ & _ & _ & ->)]; done. Qed.
Lemma deriveNodeStatus_Role s node now : node_Role (deriveNodeStatus s node now) = node_Role node.
Proof. destruct (deriveNodeStatus_cases s node now) as [->|(_ & _ & _ & ->)]; done. Qed.
Lemma deriveNodeStatus_Resources s node now :
  node_Resources (deriveNodeStatus s node now) = node_Resources node.
Proof. destruct (deriveNodeStatus_cases s node now) as [->|(_ & _ & _ & ->)]; done. Qed.

(** A node that still counts as an online worker at [now]. *)
Definition online_worker (s : State) (now : Time) (node : Node) : bool :=
  bool_decide (node_Role (deriveNodeStatus s node now) = NodeRoleWorker)
  && bool_decide (node_Status (deriveNodeStatus s node now) = NodeStatusOnline).

Lemma online_worker_spec s now node :
  online_worker s now node = true ↔
  node_Role node = NodeRoleWorker ∧ node_Status node = NodeStatusOnline ∧
  time_Sub now (node_UpdatedAt node) ≤ st_heartbeatTimeout s.
Proof.
  unfold online_worker. rewrite andb_true_iff, !bool_decide_eq_true, deriveNodeStatus_Role.
  unfold deriveNodeStatus.
  destruct (Z.ltb_spec (st_heartbeatTimeout s) (time_Sub now (node_UpdatedAt node)));
    repeat case_bool_decide; simpl; intuition (congruence || lia).
Qed.

Lemma workerJobSlots_pos node : 0 < workerJobSlots node.
Proof. unfold workerJobSlots, defaultWorkerJobSlots. destruct (Z.ltb_spec 0 (res_JobSlots (node_Resources node))); lia. Qed.

(** ** RPC health *)

(** The records are stored under their endpoints. *)
Definition rpc_wf (s : State) : Prop :=
  map_Forall (λ e r, rh_Endpoint r = e ∧ e ≠ ""%string) (st_rpcHealth s).

(** A sequence of reports, each made in its own world. *)
Definition put_rpc_all (s : State) (us : list (World * RPCHealthUpdate)) : State :=
  foldl (λ s u, (@PutRPCHealth u.1 s u.2).1) s us.

Definition about_endpoint (e : string) (u : World * RPCHealthUpdate) : Prop :=
  TrimSpace (rhu_Endpoint u.2) = e.
#[export] Instance about_endpoint_dec e u : Decision (about_endpoint e u).
Proof. unfold about_endpoint. apply _. Defined.

(** The record an update leaves for its endpoint. *)
Lemma PutRPCHealth_lookup `{World} s u e :
  e ≠ ""%string →
  st_rpcHealth (PutRPCHealth s u).1 !! e =
    if decide (TrimSpace (rhu_Endpoint u) = e) then Some (PutRPCHealth s u).2
    else st_rpcHealth s !! e.
Proof.
  intros He. unfold PutRPCHealth. case_bool_decide as Hb.
  { rewrite decide_False by congruence. done. }
  simpl. case_decide as Hd; [subst e; apply lookup_insert_eq|by apply lookup_insert_ne].
Qed.

Lemma PutRPCHealth_record `{World} s u (r0 := default zero_RPCHealthRecord
    (st_rpcHealth s !! TrimSpace (rhu_Endpoint u))) :
  TrimSpace (rhu_Endpoint u) ≠ ""%string →
  let r := (PutRPCHealth s u).2 in
  rh_Endpoint r = TrimSpace (rhu_Endpoint u) ∧ rh_Ready r = rhu_Ready u ∧
  rh_Successes r = (if rhu_Ready u then i64 (rh_Successes r0 + 1) else rh_Successes r0) ∧
  rh_Failures r = (if rhu_Ready u then rh_Failures r0 else i64 (rh_Failures r0 + 1)) ∧
  rh_ConsecutiveFailures r =
    (if rhu_Ready u then 0 else i64 (rh_ConsecutiveFailures r0 + 1)).
Proof.
  intros Hb. unfold PutRPCHealth. rewrite bool_decide_eq_false_2 by done. subst r0. simpl.
  destruct (blank (rhu_NodeID u)), (blank (rhu_NodeName u)), (rhu_Ready u); done.
Qed.

Lemma PutRPCHealth_wf `{World} s u : rpc_wf s → rpc_wf (PutRPCHealth s u).1.
Proof.
  intros Hwf. destruct (decide (TrimSpace (rhu_Endpoint u) = ""%string)) as [Hb|Hb].
  - unfold PutRPCHealth. by rewrite bool_decide_eq_true_2.
  - destruct (PutRPCHealth_record s u Hb) as [He _]. revert He.
    unfold PutRPCHealth. rewrite bool_decide_eq_false_2 by done. simpl. intros He.
    apply map_Forall_insert_2; [by split|done].
Qed.

(** What the record of an endpoint says about the reports it received. *)
Definition counts (us : list (World * RPCHealthUpdate)) (r : RPCHealthRecord) : Prop :=
  rh_Successes r = i64 (Z.of_nat (length (filter (λ u, rhu_Ready u.2 = true) us))) ∧
  rh_Failures r = i64 (Z.of_nat (length (filter (λ u, rhu_Ready u.2 = false) us))) ∧
  ∃ before fails, us = before ++ fails ∧ Forall (λ u, rhu_Ready u.2 = false) fails ∧
    (∀ u, last before = Some u → rhu_Ready u.2 = true) ∧
    rh_ConsecutiveFailures r = i64 (Z.of_nat (length fails)).

Lemma counts_zero : counts [] zero_RPCHealthRecord.
Proof. split_and!; [done..|]. exists [], []. by repeat split. Qed.

Lemma counts_step `{W : World} us u s r :
  TrimSpace (rhu_Endpoint u) ≠ ""%string →
  counts us (default zero_RPCHealthRecord (st_rpcHealth s !! TrimSpace (rhu_Endpoint u))) →
  (PutRPCHealth s u).2 = r → counts (us ++ [(W, u)]) r.
Proof.
  intros Hb (Hs & Hf & before & fails & Hus & Hfails & Hlast & Hc) <-.
  destruct (PutRPCHealth_record s u Hb) as (_ & _ & Hs' & Hf' & Hc').
  unfold counts. rewrite Hs', Hf', Hc', !filter_app, !length_app, Hs, Hf, Hc.
  rewrite !filter_cons, !filter_nil. simpl. destruct (rhu_Ready u) eqn:Hr; simpl.
  - split_and!; [rewrite i64_add_l; f_equal; lia|f_equal; lia|].
    exists (us ++ [(W, u)]), []. rewrite app_nil_r. split_and!; [done..| |done].
    intros u'. rewrite last_snoc. by intros [= <-].
  - split_and!; [f_equal; lia|rewrite i64_add_l; f_equal; lia|].
    exists before, (fails ++ [(W, u)]). rewrite Hus, app_assoc. split_and!; [done| |done|].
    + apply Forall_app. by repeat constructor.
    + rewrite i64_add_l, length_app. simpl. f_equal. lia.
Qed.

(** (functional, invariant). After any sequence of health reports the record
    of an endpoint counts them: its successes and failures are the numbers of
    ready and not-ready reports it received, its consecutive failures the length
    of the trailing run of not-ready ones (as 64-bit integers), and an endpoint
    without reports has no record. *)
Theorem rpc_health_counts (now : Time) (us : list (World * RPCHealthUpdate)) (e : string) :
  match st_rpcHealth (put_rpc_all (NewState now) us) !! e with
  | None => e = ""%string ∨ filter (about_endpoint e) us = []
  | Some r => e ≠ ""%string ∧ rh_Endpoint r = e ∧ counts (filter (about_endpoint e) us) r
  end.
Proof.
  unfold put_rpc_all. destruct (decide (e = ""%string)) as [->|He].
  { assert (rpc_wf (foldl (λ s u, (@PutRPCHealth u.1 s u.2).1) (NewState now) us)) as Hwf.
    { assert (rpc_wf (NewState now)) as H0 by apply map_Forall_empty.
      revert H0. generalize (NewState now). induction us as [|u us IH]; intros s Hs; [done|].
      by apply IH, PutRPCHealth_wf. }
    destruct (_ !! _) as [r|] eqn:E; [|by left]. by destruct (Hwf _ _ E). }
  induction us as [|[W u] us IH] using rev_ind; [by right|].
  rewrite foldl_app, filter_app, filter_cons, filter_nil. cbn [foldl fst snd].
  rewrite PutRPCHealth_lookup by done.
  destruct (decide (about_endpoint e (W, u))) as [Hd|Hd]; unfold about_endpoint in Hd; simpl in Hd;
    [rewrite decide_True by done|by rewrite decide_False, app_nil_r by done].
  destruct (@PutRPCHealth_record W (foldl (λ s u, (@PutRPCHealth u.1 s u.2).1) (NewState now) us) u)
    as [Hend _]; [congruence|].
  split_and!; [done|congruence|]. eapply counts_step; [congruence| |done]. rewrite Hd.
  destruct (_ !! _) as [r|]; [by destruct IH as (_ & _ & ?)|]. destruct IH as [?|IH]; [done|].
  rewrite IH. apply counts_zero.
Qed.

Lemma rpc_less_total s ka kb a b :
  rpc_wf s → st_rpcHealth s !! ka = Some a → st_rpcHealth s !! kb = Some b →
  rpc_less a b = false → rpc_less b a = false → a = b.
Proof.
  intros Hwf Ha Hb.
  unfold rpc_less, true_first, desc_Z, asc_str, no_less. intros H1 H2.
  assert (rh_Endpoint a = rh_Endpoint b) as Heq.
  { revert H1 H2. repeat case_bool_decide; try done; try congruence; intros;
      first [by apply string_lt_total|lia|by destruct (rh_Ready a), (rh_Ready b)]. }
  destruct (Hwf _ _ Ha), (Hwf _ _ Hb). congruence.
Qed.

(** (functional). The health listing has exactly the stored records, ready
    ones first, then newest first, then by endpoint, and does not depend on the
    order in which the map is walked or the sort treats equal keys. *)
Theorem rpc_health_listing (W1 W2 : World) (s : State) :
  rpc_wf s →
  StronglySorted (not_after rpc_less) (@RPCHealth W1 s) ∧
  (∀ r, r ∈ @RPCHealth W1 s ↔ st_rpcHealth s !! rh_Endpoint r = Some r) ∧
  @RPCHealth W1 s = @RPCHealth W2 s.
Proof.
  intros Hwf. split_and!.
  - apply sort_slice_sorted, _.
  - intros r. unfold RPCHealth. rewrite elem_of_sort_slice, range_values_elem. split; [|by eauto].
    intros [k Hk]. by destruct (Hwf _ _ Hk) as [-> _].
  - unfold RPCHealth, sort_slice. apply sort_by_unique; [apply _| |].
    + intros a b Ha Hb. rewrite w_perm_ok in Ha, Hb.
      apply range_values_elem in Ha as [ka Ha], Hb as [kb Hb]. by eapply rpc_less_total.
    + by rewrite !w_perm_ok, !range_values_perm.
Qed.

Definition demo_rpc_state : State :=
  put_rpc_all (NewState 0)
    [(world_at 5, mkRPCHealthUpdate "10.0.0.1:50052" "n1" "one" true 3 "" 0);
     (world_at 6, mkRPCHealthUpdate " 10.0.0.2:50052 " "n2" "two" false 0 "refused" 0)].

Lemma rpc_health_listing_witness :
  @RPCHealth (world_at 9) demo_rpc_state = @RPCHealth (world_at 10) demo_rpc_state.
Proof.
  refine (proj2 (proj2 (rpc_health_listing (world_at 9) (world_at 10) demo_rpc_state _))).
  apply (bool_decide_unpack _). vm_compute. reflexivity.
Defined.
