(* ===== verification/Conversations.v ===== *)
(** * Conversations and memories

    [internal/manager/conversations.go] and the conversation and memory methods
    of [state.go]: message normalization, the 40-message window, the prompt
    budget, extraction of memories from user messages, and the clean-up after a
    model is deleted. *)

From S2P Require Import Prelude GoString GoSort GoFloat World Json Types Protocol Models State.

Definition maxConversationMessages : nat := 40.
Definition defaultPromptContextTokens : Z := 4096.
Definition promptContextOverheadTokens : Z := 128.
Definition minPromptHistoryBudgetTokens : Z := 256.

Record PromptContextPreview := mkPromptContextPreview {
  pcp_ModelID : string;
  pcp_ContextTokens : Z;
  pcp_OutputReserveTokens : Z;
  pcp_SystemPromptTokens : Z;
  pcp_HistoryBudgetTokens : Z;
  pcp_IncludedMessageTokens : Z;
  pcp_TotalMessages : Z;
  pcp_IncludedMessages : list ChatMessage;
  pcp_DroppedMessages : Z;
  pcp_EffectiveSystemPrompt : string;
}.

(** ** Messages *)

Section messages.
Context `{LowerCase}.

Definition normalizeChatRole (role : string) : string :=
  let r := ToLower (TrimSpace role) in
  if str_eqb r "system" || str_eqb r "assistant" then r else "user".

Definition normalizeChatMessage (message : ChatMessage) : ChatMessage :=
  mkChatMessage (normalizeChatRole (msg_Role message)) (TrimSpace (msg_Content message)).

Fixpoint filter_messages (messages : list ChatMessage) : list ChatMessage :=
  match messages with
  | [] => []
  | message :: messages =>
      let message := normalizeChatMessage message in
      if str_eqb (msg_Content message) "" then filter_messages messages
      else message :: filter_messages messages
  end.

Definition trimConversationMessages (messages : list ChatMessage) : list ChatMessage :=
  let filtered := filter_messages messages in
  if (length filtered <=? maxConversationMessages)%nat then filtered
  else drop (length filtered - maxConversationMessages) filtered.

(** ** Prompt budget *)

Definition estimateTextTokens (text : string) : Z :=
  let text := TrimSpace text in
  if str_eqb text "" then 0 else
  let tokens := (Z.of_nat (length (runes text)) + 3) / 4 in
  if tokens <? 1 then 1 else tokens.

Definition estimateMessageTokens (message : ChatMessage) : Z :=
  4 + estimateTextTokens (msg_Role message) + estimateTextTokens (msg_Content message).

Definition truncateChatMessage (message : ChatMessage) (tokenBudget : Z) : ChatMessage :=
  let message := normalizeChatMessage message in
  if tokenBudget <=? 0 then mkChatMessage (msg_Role message) "" else
  let allowedRunes := Z.to_nat (tokenBudget * 4) in
  let rs := runes (msg_Content message) in
  if (length rs <=? allowedRunes)%nat then message else
  mkChatMessage (msg_Role message)
    (TrimSpace (string_of_runes (drop (length rs - allowedRunes) rs))).

Definition promptContextBudget (model : Model) (systemPrompt : string) (maxTokens : Z) : Z * Z * Z :=
  let context := if (model_Context model <=? 0) || (defaultPromptContextTokens <? model_Context model)
                 then defaultPromptContextTokens else model_Context model in
  let outputReserve := if maxTokens <=? 0 then 256 else maxTokens in
  let outputReserve := if 2048 <? outputReserve then 2048 else outputReserve in
  let budget := context - outputReserve - promptContextOverheadTokens - estimateTextTokens systemPrompt in
  let budget := if budget <? minPromptHistoryBudgetTokens then minPromptHistoryBudgetTokens else budget in
  (context, outputReserve, budget).

Definition promptHistoryBudgetTokens (model : Model) (systemPrompt : string) (maxTokens : Z) : Z :=
  (promptContextBudget model systemPrompt maxTokens).2.

(** One round of the selection loop; [selected] is in the order of selection,
    newest first. *)
Definition select_step (historyBudget : Z) (acc : list ChatMessage * Z) (message : ChatMessage)
    : list ChatMessage * Z :=
  let '(selected, used) := acc in
  let cost := estimateMessageTokens message in
  if (0 <? length selected)%nat && (historyBudget <? used + cost) then (selected, used) else
  let message := if (length selected =? 0)%nat && (historyBudget <? cost)
                 then truncateChatMessage message historyBudget else message in
  (selected ++ [message], used + estimateMessageTokens message).

Definition promptContextPreview (model : Model) (systemPrompt : string)
    (messages : list ChatMessage) (maxTokens : Z) : PromptContextPreview :=
  let filtered := trimConversationMessages messages in
  let '(contextTokens, outputReserve, historyBudget) := promptContextBudget model systemPrompt maxTokens in
  let total := Z.of_nat (length filtered) in
  match filtered with
  | [] => mkPromptContextPreview (model_ID model) contextTokens outputReserve
            (estimateTextTokens systemPrompt) historyBudget 0 total [] 0 systemPrompt
  | _ =>
      let '(selected, used) := foldl (select_step historyBudget) ([], 0) (reverse filtered) in
      mkPromptContextPreview (model_ID model) contextTokens outputReserve
        (estimateTextTokens systemPrompt) historyBudget used total (reverse selected)
        (total - Z.of_nat (length selected)) systemPrompt
  end.

Definition budgetConversationMessages (model : Model) (systemPrompt : string)
    (messages : list ChatMessage) (maxTokens : Z) : list ChatMessage :=
  pcp_IncludedMessages (promptContextPreview model systemPrompt messages maxTokens).
End messages.

Definition memoryContext (modelID : string) (memories : list Memory) : string :=
  let filtered := (λ m, "- " +:+ memo_Key m +:+ ": " +:+ memo_Value m) <$>
    filter (λ m, memo_ModelID m = modelID ∧ blank (memo_Value m) = false) memories in
  match filtered with
  | [] => ""
  | _ => "Known memory for this model:
" +:+ Join filtered "
"
  end%string.

(** ** The patterns of [extractMemories]

    Each pattern is a literal matched case-insensitively, white space, and a
    group of 1 to [n] characters outside a class.  Case folding follows the
    Unicode orbits of the letters that occur in the patterns. *)

Inductive pattern_token :=
  | One (alternatives : list Z)   (** one of these code points *)
  | Maybe (alternatives : list Z). (** optionally one of them, greedy *)

Record pattern := mkPattern {
  pat_boundary : bool;            (** starts with [\b] *)
  pat_tokens : list pattern_token;
  pat_excluded : list Z;          (** the characters the group stops at *)
  pat_max : nat;
}.

(** The code points that fold to [c] (simple folding). *)
Definition fold_orbit (c : Z) : list Z :=
  if (97 <=? c) && (c <=? 122) then
    [c; c - 32] ++ (if c =? 115 then [383] else if c =? 107 then [8490] else [])
  else if (1072 <=? c) && (c <=? 1103) then
    [c; c - 32] ++
    (if c =? 1074 then [7296] else if c =? 1076 then [7297] else if c =? 1086 then [7298]
     else if c =? 1089 then [7299] else if c =? 1090 then [7300; 7301]
     else if c =? 1098 then [7302] else [])
  else if (1104 <=? c) && (c <=? 1119) then [c; c - 80]
  else [c].

Definition literal (s : string) : list pattern_token :=
  (λ r, One (fold_orbit (rune_code r))) <$> runes s.

Definition sentence_end : list Z := [46; 33; 63; 10].

(** The candidates of [extractMemories] in order. *)
Definition memory_candidates : list (string * pattern) := [
  ("user.name", mkPattern true (literal "my name is") (44 :: sentence_end) 80);
  ("user.name", mkPattern true (literal "i am called") (44 :: sentence_end) 80);
  ("user.name", mkPattern false (literal "мене звати") (44 :: sentence_end) 80);
  ("user.name", mkPattern false
     (literal "моє ім" ++ [Maybe [39; 8217]] ++ literal "я") (44 :: sentence_end) 80);
  ("user.preference", mkPattern true (literal "i like") sentence_end 120);
  ("user.preference", mkPattern false (literal "мені подобається") sentence_end 120);
  ("user.preference", mkPattern false (literal "я люблю") sentence_end 120)]%string.

Definition is_code (alts : list Z) (r : rune) : bool := bool_decide (rune_code r ∈ alts).

Fixpoint match_tokens (toks : list pattern_token) (s : list rune) : option (list rune) :=
  match toks with
  | [] => Some s
  | One alts :: toks =>
      match s with
      | r :: s => if is_code alts r then match_tokens toks s else None
      | [] => None
      end
  | Maybe alts :: toks =>
      match s with
      | r :: s' =>
          if is_code alts r then
            match match_tokens toks s' with Some x => Some x | None => match_tokens toks s end
          else match_tokens toks s
      | [] => match_tokens toks s
      end
  end.

(** [\s] *)
Definition is_space (r : rune) : bool := is_code [9; 10; 12; 13; 32] r.
(** [\w] *)
Definition is_word (r : rune) : bool :=
  let c := rune_code r in
  ((48 <=? c) && (c <=? 57)) || ((65 <=? c) && (c <=? 90)) || (c =? 95) || ((97 <=? c) && (c <=? 122)).

(** The capture [[^...]{1,n}], greedy. *)
Fixpoint take_group (excluded : list Z) (n : nat) (s : list rune) : list rune :=
  match n, s with
  | S n, r :: s => if is_code excluded r then [] else r :: take_group excluded n s
  | _, _ => []
  end.

(** [\s+] and the group: the longest run of spaces first, giving spaces back
    while the group would be empty. *)
Fixpoint match_spaces (excluded : list Z) (n : nat) (s : list rune) : option (list rune) :=
  match s with
  | [] => None
  | r :: s =>
      if is_space r then
        match match_spaces excluded n s with
        | Some g => Some g
        | None => match take_group excluded n s with [] => None | g => Some g end
        end
      else None
  end.

Definition match_here (p : pattern) (s : list rune) : option (list rune) :=
  s ← match_tokens (pat_tokens p) s; match_spaces (pat_excluded p) (pat_max p) s.

(** The leftmost match; [prev] tells whether the character before is a word
    character. *)
Fixpoint find_match (p : pattern) (prev : bool) (s : list rune) : option (list rune) :=
  let here := if pat_boundary p && Bool.eqb prev (match s with r :: _ => is_word r | [] => false end)
              then None else match_here p s in
  match here with
  | Some g => Some g
  | None => match s with r :: s => find_match p (is_word r) s | [] => None end
  end.

(** [FindStringSubmatch(content)[1]] *)
Definition FindSubmatch (p : pattern) (content : string) : option string :=
  (λ g, foldr (λ r acc, rune_bytes r +:+ acc) ""%string g) <$> find_match p false (runes content).

(** The characters trimmed off a captured value: space and quotation marks. *)
Definition quote_cutset : list string :=
  bytes <$> [[32]; [34]; [39]; [226; 128; 156]; [226; 128; 157]; [194; 171]; [194; 187]]%nat.

Section memories.
Context `{World} `{LowerCase}.

Fixpoint extract_loop (modelID conversationID content : string) (now : Time)
    (i : nat) (seen : gset (string * string)) (candidates : list (string * pattern)) : list Memory :=
  match candidates with
  | [] => []
  | (key, p) :: candidates =>
      let continue seen := extract_loop modelID conversationID content now (S i) seen candidates in
      match FindSubmatch p content with
      | None => continue seen
      | Some group =>
          let value := TrimSet quote_cutset (TrimSpace group) in
          if str_eqb value "" then continue seen
          else if bool_decide ((key, ToLower value) ∈ seen) then continue seen
          else mkMemory (newID "mem" (w_rand ["memory"; pretty i])) modelID key value content
                 conversationID now now
               :: continue ({[(key, ToLower value)]} ∪ seen)
      end
  end.

Definition extractMemories (modelID conversationID content : string) (now : Time) : list Memory :=
  let content := TrimSpace content in
  if str_eqb modelID "" || str_eqb content "" then []
  else extract_loop modelID conversationID content now 0 ∅ memory_candidates.

(** The first memory, in the order of the walk, with the same model and key. *)
Fixpoint find_memory (memories : gmap string Memory) (modelID key : string) (ids : list string) : string :=
  match ids with
  | [] => ""
  | id :: ids =>
      match memories !! id with
      | Some existing =>
          if str_eqb (memo_ModelID existing) modelID && str_eqb (memo_Key existing) key then id
          else find_memory memories modelID key ids
      | None => find_memory memories modelID key ids
      end
  end.

Definition upsert_extracted (conversationID : string) (now : Time)
    (memories : gmap string Memory) (memory : Memory) : gmap string Memory :=
  let existingID := find_memory memories (memo_ModelID memory) (memo_Key memory)
                      (range_keys ["memories"; memo_ID memory] memories) in
  if negb (str_eqb existingID "") then
    match memories !! existingID with
    | Some existing =>
        <[existingID := existing <| memo_Value := memo_Value memory |>
                                 <| memo_Source := memo_Source memory |>
                                 <| memo_ConversationID := memo_ConversationID memory |>
                                 <| memo_UpdatedAt := now |>]> memories
    | None => memories
    end
  else <[memo_ID memory := memory]> memories.

Definition upsertExtractedMemoriesLocked (s : State) (modelID conversationID content : string)
    (now : Time) : State :=
  s <| st_memories := foldl (upsert_extracted conversationID now) (st_memories s)
                        (extractMemories modelID conversationID content now) |>.

Definition AppendConversationMessage (s : State) (id modelID nodeID systemPrompt : string)
    (message : ChatMessage) : State * Conversation :=
  let now := w_clock ["now"] in
  let message := normalizeChatMessage message in
  let conversation := default (mkConversation id "" "" "" [] now 0) (st_conversations s !! id) in
  let conversation := conversation <| conv_ModelID := modelID |> <| conv_NodeID := nodeID |> in
  let conversation := if negb (str_eqb systemPrompt "")
                      then conversation <| conv_SystemPrompt := systemPrompt |> else conversation in
  let '(s, conversation) :=
    if negb (str_eqb (msg_Content message) "") then
      let conversation := conversation <| conv_Messages :=
            trimConversationMessages (conv_Messages conversation ++ [message]) |> in
      (if str_eqb (msg_Role message) "user"
       then upsertExtractedMemoriesLocked s modelID (conv_ID conversation) (msg_Content message) now
       else s, conversation)
    else (s, conversation) in
  let conversation := conversation <| conv_UpdatedAt := now |> in
  (s <| st_conversations := <[id := conversation]> (st_conversations s) |>, conversation).

Definition DeleteConversation (s : State) (id : string) : State * bool :=
  match st_conversations s !! id with
  | None => (s, false)
  | Some _ => (s <| st_conversations := delete id (st_conversations s) |>, true)
  end.

Definition DeleteMemory (s : State) (id : string) : State * bool :=
  match st_memories s !! id with
  | None => (s, false)
  | Some _ => (s <| st_memories := delete id (st_memories s) |>, true)
  end.

Inductive memory_error := MemoryModelIDRequired | MemoryKeyRequired | MemoryValueRequired.

Definition UpsertMemory (s : State) (memory : Memory) : State * result memory_error Memory :=
  let now := w_clock ["now"] in
  let memory := memory <| memo_ModelID := TrimSpace (memo_ModelID memory) |>
                       <| memo_Key := TrimSpace (memo_Key memory) |>
                       <| memo_Value := TrimSpace (memo_Value memory) |>
                       <| memo_Source := TrimSpace (memo_Source memory) |>
                       <| memo_ConversationID := TrimSpace (memo_ConversationID memory) |> in
  match first_error [
    (str_eqb (memo_ModelID memory) "", MemoryModelIDRequired);
    (str_eqb (memo_Key memory) "", MemoryKeyRequired);
    (str_eqb (memo_Value memory) "", MemoryValueRequired)]
  with
  | Some e => (s, Err e)
  | None =>
      let memory := if str_eqb (memo_ID memory) ""
                    then memory <| memo_ID := newID "mem" (w_rand ["memory"]) |> else memory in
      let memory :=
        match st_memories s !! memo_ID memory with
        | Some existing => if IsZero (memo_CreatedAt memory)
                           then memory <| memo_CreatedAt := memo_CreatedAt existing |> else memory
        | None => if IsZero (memo_CreatedAt memory)
                  then memory <| memo_CreatedAt := now |> else memory
        end in
      let memory := memory <| memo_UpdatedAt := now |> in
      (s <| st_memories := <[memo_ID memory := memory]> (st_memories s) |>, Ok memory)
  end.

Definition delete_step {V} (drop : V → bool) (acc : gmap string V * Z) (id : string) : gmap string V * Z :=
  let '(m, deleted) := acc in
  match m !! id with
  | Some v => if drop v then (delete id m, deleted + 1) else (m, deleted)
  | None => (m, deleted)
  end.

(** [for id, v := range m { if drop v { delete(m, id); deleted++ } }] *)
Definition delete_loop {V} (t : Tag) (drop : V → bool) (m : gmap string V) : gmap string V * Z :=
  foldl (delete_step drop) (m, 0) (range_keys t m).

Definition DeleteMemoriesByModel (s : State) (modelID : string) : State * Z :=
  let modelID := TrimSpace modelID in
  if str_eqb modelID "" then (s, 0) else
  let '(memories, deleted) :=
    delete_loop ["memories"] (λ m, str_eqb (memo_ModelID m) modelID) (st_memories s) in
  (s <| st_memories := memories |>, deleted).
End memories.

(** ** Lemmas: messages *)

Section message_lemmas.
Context `{LowerCase}.

Lemma normalizeChatRole_cases role :
  normalizeChatRole role = "system" ∨ normalizeChatRole role = "assistant" ∨
  normalizeChatRole role = "user".
Proof. unfold normalizeChatRole. repeat case_bool_decide; simpl; eauto. Qed.

Lemma normalizeChatRole_idemp role : normalizeChatRole (normalizeChatRole role) = normalizeChatRole role.
Proof.
  assert (∀ r, r ∈ ["system"; "assistant"; "user"]%string → normalizeChatRole r = r) as Hfix.
  { intros r Hr. unfold normalizeChatRole.
    rewrite !elem_of_cons, elem_of_nil in Hr. destruct_or! Hr; subst; try done;
      by rewrite ToLower_ascii by (by vm_compute). }
  apply Hfix. destruct (normalizeChatRole_cases role) as [->|[->| ->]]; set_solver.
Qed.

Lemma normalizeChatMessage_idemp m : normalizeChatMessage (normalizeChatMessage m) = normalizeChatMessage m.
Proof. unfold normalizeChatMessage. simpl. by rewrite normalizeChatRole_idemp, TrimSpace_idemp. Qed.

(** A message as the store keeps it. *)
Definition normal_message (m : ChatMessage) : Prop :=
  normalizeChatMessage m = m ∧ msg_Content m ≠ ""%string.

Lemma filter_messages_normal ms : Forall normal_message (filter_messages ms).
Proof.
  induction ms as [|m ms IH]; simpl; [constructor|]. case_bool_decide; [done|].
  constructor; [|done]. split; [apply normalizeChatMessage_idemp|done].
Qed.
Lemma filter_messages_id ms : Forall normal_message ms → filter_messages ms = ms.
Proof.
  induction 1 as [|m ms [Hn Hc] _ IH]; cbn [filter_messages]; [done|].
  by rewrite Hn, bool_decide_eq_false_2, IH.
Qed.

Lemma trim_suffix ms : trimConversationMessages ms `suffix_of` filter_messages ms.
Proof.
  unfold trimConversationMessages. case_match; [done|].
  eexists. symmetry. apply take_drop.
Qed.
Lemma trim_normal ms : Forall normal_message (trimConversationMessages ms).
Proof.
  destruct (trim_suffix ms) as [k Hk]. pose proof (filter_messages_normal ms) as Hn.
  rewrite Hk in Hn. by apply Forall_app in Hn as [_ ?].
Qed.
Lemma trim_length ms :
  length (trimConversationMessages ms) = Nat.min maxConversationMessages (length (filter_messages ms)).
Proof.
  unfold trimConversationMessages.
  destruct (Nat.leb_spec (length (filter_messages ms)) maxConversationMessages); [lia|].
  rewrite length_drop. lia.
Qed.
Lemma trim_id ms :
  Forall normal_message ms → (length ms <= maxConversationMessages)%nat → trimConversationMessages ms = ms.
Proof.
  intros Hn Hl. unfold trimConversationMessages. rewrite filter_messages_id by done.
  by rewrite (proj2 (Nat.leb_le _ _)).
Qed.

(** (functional). Trimming a conversation keeps the newest at most 40
    non-empty messages, each normalized, in order: the result is a suffix of
    the normalized non-empty messages, and trimming it again changes nothing. *)
Theorem trim_keeps_newest (ms : list ChatMessage) :
  trimConversationMessages ms `suffix_of` filter_messages ms ∧
  length (trimConversationMessages ms) =
    Nat.min maxConversationMessages (length (filter_messages ms)) ∧
  Forall normal_message (trimConversationMessages ms) ∧
  trimConversationMessages (trimConversationMessages ms) = trimConversationMessages ms.
Proof.
  split_and!; [apply trim_suffix|apply trim_length|apply trim_normal|].
  apply trim_id; [apply trim_normal|rewrite trim_length; lia].
Qed.

(** ** Lemmas: the prompt budget *)

Lemma estimateTextTokens_nonneg s : 0 ≤ estimateTextTokens s.
Proof.
  unfold estimateTextTokens. case_bool_decide; [done|].
  destruct (Z.ltb_spec ((Z.of_nat (length (runes (TrimSpace s))) + 3) / 4) 1); lia.
Qed.
Lemma estimateMessageTokens_pos m : 4 ≤ estimateMessageTokens m.
Proof.
  unfold estimateMessageTokens. pose proof (estimateTextTokens_nonneg (msg_Role m)).
  pose proof (estimateTextTokens_nonneg (msg_Content m)). lia.
Qed.

Lemma promptHistoryBudget_bounds model systemPrompt maxTokens :
  minPromptHistoryBudgetTokens ≤ promptHistoryBudgetTokens model systemPrompt maxTokens
    ≤ defaultPromptContextTokens.
Proof.
  unfold promptHistoryBudgetTokens, promptContextBudget. simpl.
  pose proof (estimateTextTokens_nonneg systemPrompt).
  unfold minPromptHistoryBudgetTokens, defaultPromptContextTokens, promptContextOverheadTokens.
  repeat case_match; try lia;
    repeat match goal with
    | E : (_ <? _) = _ |- _ => apply Z.ltb_lt in E || apply Z.ltb_ge in E
    | E : (_ <=? _) = _ |- _ => apply Z.leb_le in E || apply Z.leb_gt in E
    | E : (_ || _) = _ |- _ => apply orb_false_iff in E as [? ?] || clear E
    end; lia.
Qed.

#[local] Opaque estimateMessageTokens.

Definition sum_tokens (ms : list ChatMessage) : Z := sumZ (estimateMessageTokens <$> ms).

Lemma sum_tokens_snoc ms m : sum_tokens (ms ++ [m]) = sum_tokens ms + estimateMessageTokens m.
Proof. unfold sum_tokens. rewrite fmap_app, sumZ_app. cbn. lia. Qed.

(** The invariant of the selection loop over the messages seen so far (newest
    first). *)
Record selection (budget : Z) (seen selected : list ChatMessage) (used : Z) : Prop := {
  sel_used : used = sum_tokens selected;
  sel_first : match seen, selected with
              | [], [] => True
              | m :: _, x :: _ => (estimateMessageTokens m ≤ budget ∧ x = m) ∨ (budget < estimateMessageTokens m ∧ x = truncateChatMessage m budget)
              | _, _ => False
              end;
  sel_rest : tail selected `sublist_of` tail seen;
  sel_budget : match selected with
               | [] => True
               | x :: _ => used ≤ Z.max budget (estimateMessageTokens x)
               end;
}.

Lemma selection_nil budget : selection budget [] [] 0.
Proof. by constructor; try constructor. Qed.

Lemma select_step_inv budget seen selected used m :
  selection budget seen selected used →
  let '(selected', used') := select_step budget (selected, used) m in
  selection budget (seen ++ [m]) selected' used'.
Proof.
  intros [Hu Hf Hr Hb]. unfold select_step.
  destruct selected as [|x sel], seen as [|m0 seen]; try done.
  - simpl. destruct (Z.ltb_spec budget (estimateMessageTokens m)); simpl in Hu; subst used.
    + constructor; [unfold sum_tokens; cbn; lia|by right|done|cbn; lia].
    + constructor; [unfold sum_tokens; cbn; lia|by left|done|cbn; lia].
  - cbn [length Nat.ltb Nat.leb Nat.eqb andb]. simpl in Hr.
    destruct (Z.ltb_spec budget (used + estimateMessageTokens m)).
    + constructor; [done|done|simpl; by apply sublist_inserts_r|done].
    + constructor; [by rewrite Hu, sum_tokens_snoc|done| |cbn; lia]. simpl. by apply sublist_app.
Qed.

Lemma select_inv budget l seen selected used :
  selection budget seen selected used →
  selection budget (seen ++ l) (foldl (select_step budget) (selected, used) l).1
    (foldl (select_step budget) (selected, used) l).2.
Proof.
  revert seen selected used. induction l as [|m l IH]; intros seen selected used Hs; cbn [foldl].
  - by rewrite app_nil_r.
  - pose proof (select_step_inv budget seen selected used m Hs) as Hs'.
    destruct (select_step budget (selected, used) m) as [sel' used'].
    specialize (IH _ _ _ Hs'). by rewrite <- app_assoc in IH.
Qed.

Lemma promptContextPreview_selection model systemPrompt ms maxTokens :
  let p := promptContextPreview model systemPrompt ms maxTokens in
  let budget := promptHistoryBudgetTokens model systemPrompt maxTokens in
  selection budget (reverse (trimConversationMessages ms)) (reverse (pcp_IncludedMessages p))
    (pcp_IncludedMessageTokens p) ∧
  pcp_TotalMessages p = Z.of_nat (length (trimConversationMessages ms)) ∧
  pcp_DroppedMessages p = pcp_TotalMessages p - Z.of_nat (length (pcp_IncludedMessages p)) ∧
  pcp_HistoryBudgetTokens p = budget.
Proof.
  unfold promptContextPreview, promptHistoryBudgetTokens.
  destruct (promptContextBudget model systemPrompt maxTokens) as [[c o] b].
  destruct (trimConversationMessages ms) as [|m l] eqn:E.
  { by split_and!; try apply selection_nil. }
  pose proof (select_inv b (reverse (m :: l)) [] [] 0) as Hs.
  destruct (foldl _ _ _) as [sel used]. simpl in *. rewrite reverse_involutive, length_reverse.
  split_and!; try done. apply Hs, selection_nil.
Qed.
#[local] Transparent estimateMessageTokens.

Lemma estimateTextTokens_le text b :
  1 ≤ b → Z.of_nat (length (runes text)) ≤ 4 * b → estimateTextTokens text ≤ b.
Proof.
  intros Hb Hr. unfold estimateTextTokens. case_bool_decide; [lia|].
  pose proof (TrimSpace_runes text).
  assert ((Z.of_nat (length (runes (TrimSpace text))) + 3) / 4 < b + 1)
    by (apply Z.div_lt_upper_bound; lia).
  destruct (Z.ltb_spec ((Z.of_nat (length (runes (TrimSpace text))) + 3) / 4) 1); lia.
Qed.

Lemma normalizeChatRole_tokens role : estimateTextTokens (normalizeChatRole role) ≤ 3.
Proof. destruct (normalizeChatRole_cases role) as [->|[->| ->]]; by vm_compute. Qed.

(** A truncated message costs at most the budget, its role and the overhead. *)
Lemma truncate_tokens m budget :
  1 ≤ budget → estimateMessageTokens (truncateChatMessage m budget) ≤ budget + 7.
Proof.
  intros Hb. unfold truncateChatMessage, estimateMessageTokens.
  destruct (Z.leb_spec budget 0); [lia|]. pose proof (normalizeChatRole_tokens (msg_Role m)).
  set (rs := runes (msg_Content (normalizeChatMessage m))).
  destruct (Nat.leb_spec (length rs) (Z.to_nat (budget * 4))) as [Hle|Hgt].
  - cbn [msg_Role normalizeChatMessage].
    pose proof (estimateTextTokens_le (msg_Content (normalizeChatMessage m)) budget Hb).
    subst rs. cbn [msg_Content normalizeChatMessage] in *. lia.
  - cbn [msg_Role msg_Content normalizeChatMessage].
    pose proof (string_of_runes_length (msg_Content (normalizeChatMessage m))
                  (length rs - Z.to_nat (budget * 4))) as Hlen.
    fold rs in Hlen. pose proof (TrimSpace_runes
      (string_of_runes (drop (length rs - Z.to_nat (budget * 4)) rs))).
    pose proof (estimateTextTokens_le (TrimSpace
      (string_of_runes (drop (length rs - Z.to_nat (budget * 4)) rs))) budget Hb). lia.
Qed.

Lemma selection_facts budget seen selected used :
  1 ≤ budget → selection budget seen selected used →
  used ≤ budget + 7 ∧ (length selected <= length seen)%nat ∧
  ∀ m, head seen = Some m →
    head selected = Some m ∨ head selected = Some (truncateChatMessage m budget).
Proof.
  intros Hb [Hu Hf Hr Hbud].
  destruct seen as [|m seen], selected as [|x selected]; try done.
  { subst used. cbn. split_and!; [lia|lia|done]. }
  apply sublist_length in Hr. simpl in Hr. split_and!; [|simpl; lia|].
  - destruct Hf as [[Hm ->]|[_ ->]]; [lia|]. pose proof (truncate_tokens m budget Hb). lia.
  - intros m' [= <-]. destruct Hf as [[_ ->]|[_ ->]]; [by left|by right].
Qed.

(** (bounds). The prompt context: the included messages cost what the
    preview reports, at most the history budget plus 7 tokens (the overhead
    and role of a newest message that had to be truncated), included and
    dropped messages add up, and when there is any message the newest one is
    included, truncated if it alone exceeds the budget. *)
Theorem preview_within_budget (model : Model) (systemPrompt : string)
    (messages : list ChatMessage) (maxTokens : Z) :
  let p := promptContextPreview model systemPrompt messages maxTokens in
  let budget := promptHistoryBudgetTokens model systemPrompt maxTokens in
  pcp_IncludedMessageTokens p = sum_tokens (pcp_IncludedMessages p) ∧
  pcp_IncludedMessageTokens p ≤ budget + 7 ∧
  256 ≤ budget ≤ 4096 ∧
  pcp_TotalMessages p = Z.of_nat (length (pcp_IncludedMessages p)) + pcp_DroppedMessages p ∧
  0 ≤ pcp_DroppedMessages p ∧
  ∀ newest, last (trimConversationMessages messages) = Some newest →
    last (pcp_IncludedMessages p) = Some newest ∨
    last (pcp_IncludedMessages p) = Some (truncateChatMessage newest budget).
Proof.
  intros p budget.
  destruct (promptContextPreview_selection model systemPrompt messages maxTokens)
    as (Hsel & Ht & Hd & _). fold p budget in Hsel, Ht, Hd.
  pose proof (promptHistoryBudget_bounds model systemPrompt maxTokens) as Hbounds.
  fold budget in Hbounds.
  unfold minPromptHistoryBudgetTokens, defaultPromptContextTokens in Hbounds.
  destruct (selection_facts budget _ _ _ ltac:(lia) Hsel) as (Hle & Hlen & Hnew).
  rewrite !length_reverse in Hlen. rewrite <- !head_reverse. split_and!; try done; try lia.
  rewrite (sel_used _ _ _ _ Hsel). unfold sum_tokens. by rewrite reverse_Permutation.
Qed.
End message_lemmas.

(** The slack is real: one user message of 1100 letters against the smallest
    budget is charged more than the budget. *)
Definition long_message : ChatMessage :=
  mkChatMessage "user" (foldr (λ _ acc, String (Ascii.ascii_of_nat 97) acc) "" (replicate 1100 tt)).

Example preview_can_exceed_budget :
  let p := @promptContextPreview ascii_case
             (mkModel "m" "" "" "" "" "" "" "" "" 512 0 0 0 "" "") "" [long_message] 256 in
  pcp_HistoryBudgetTokens p < pcp_IncludedMessageTokens p.
Proof. vm_compute. reflexivity. Qed.

(** ** Lemmas: memories *)

(** Each model has at most one memory per key, and none without identifier. *)
Record memories_wf (memories : gmap string Memory) : Prop := {
  mem_unique i j a b : memories !! i = Some a → memories !! j = Some b →
    memo_ModelID a = memo_ModelID b → memo_Key a = memo_Key b → i = j;
  mem_named : memories !! ""%string = None;
}.

Section memory_lemmas.
Context `{World} `{LowerCase}.

Lemma find_memory_Some memories modelID key ids id :
  find_memory memories modelID key ids = id → id ≠ ""%string →
  ∃ m, memories !! id = Some m ∧ memo_ModelID m = modelID ∧ memo_Key m = key.
Proof.
  induction ids as [|i ids IH]; simpl; [by intros <-|].
  destruct (memories !! i) as [m|] eqn:E; [|done].
  destruct (_ && _) eqn:Em; [|done]. intros <- _. exists m.
  by rewrite andb_true_iff, !bool_decide_eq_true in Em.
Qed.

Lemma find_memory_None memories modelID key ids :
  memories !! ""%string = None → find_memory memories modelID key ids = ""%string →
  ∀ id m, id ∈ ids → memories !! id = Some m → ¬ (memo_ModelID m = modelID ∧ memo_Key m = key).
Proof.
  intros Hne. induction ids as [|i ids IH]; simpl; [by intros _ ? ? ?%not_elem_of_nil|].
  destruct (memories !! i) as [m|] eqn:E.
  - destruct (_ && _) eqn:Em; [intros ->; congruence|].
    intros Hf id m' [->|Hin]%elem_of_cons Hl; [|by eapply IH].
    rewrite andb_false_iff, !bool_decide_eq_false in Em. simplify_eq. naive_solver.
  - intros Hf id m' [->|Hin]%elem_of_cons Hl; [congruence|by eapply IH].
Qed.

Lemma upsert_extracted_wf conversationID now memories memory :
  memories_wf memories → memo_ID memory ≠ ""%string →
  memories_wf (upsert_extracted conversationID now memories memory).
Proof.
  intros [Hu Hne] Hid. unfold upsert_extracted.
  set (e := find_memory _ _ _ _). case_bool_decide as He; simpl.
  - assert (Hnone : ∀ i m, memories !! i = Some m →
      ¬ (memo_ModelID m = memo_ModelID memory ∧ memo_Key m = memo_Key memory)).
    { intros i m Hi. eapply find_memory_None; [done|exact He| |done].
      apply range_keys_elem. by exists m. }
    split; [|by rewrite lookup_insert_ne].
    intros i j a b. rewrite !lookup_insert_Some.
    intros [[<- <-]|[? Ha]] [[<- <-]|[? Hb]] HM HK; try done;
      [by destruct (Hnone _ _ Hb)|by destruct (Hnone _ _ Ha)|by eapply Hu].
  - destruct (find_memory_Some _ _ _ _ e eq_refl He) as (m & Hm & HM & HK).
    rewrite Hm. split; [|by rewrite lookup_insert_ne].
    intros i j a b. rewrite !lookup_insert_Some.
    intros [[<- <-]|[? Ha]] [[<- <-]|[? Hb]] HM' HK'; try done;
      [by apply (Hu _ _ _ _ Hm Hb)|by apply (Hu _ _ _ _ Ha Hm)|by eapply Hu].
Qed.

Lemma newID_nonempty b : newID "mem" b ≠ ""%string.
Proof. by destruct b. Qed.

Lemma extract_loop_spec modelID conversationID content now i seen cs m :
  m ∈ extract_loop modelID conversationID content now i seen cs →
  memo_ID m ≠ ""%string ∧ memo_ModelID m = modelID ∧ memo_Value m ≠ ""%string ∧
  memo_Key m ∈ cs.*1.
Proof.
  revert i seen. induction cs as [|[key p] cs IH]; intros i seen; cbn [extract_loop].
  { by intros ?%not_elem_of_nil. }
  assert (Hrest : ∀ i seen, m ∈ extract_loop modelID conversationID content now i seen cs →
    memo_ID m ≠ ""%string ∧ memo_ModelID m = modelID ∧ memo_Value m ≠ ""%string ∧
    memo_Key m ∈ ((key, p) :: cs).*1).
  { intros i' seen' Hin. destruct (IH _ _ Hin) as (? & ? & ? & ?). split_and!; try done.
    rewrite fmap_cons. by right. }
  destruct (FindSubmatch p content) as [g|]; [|apply Hrest].
  case_bool_decide; [apply Hrest|]. case_bool_decide; [apply Hrest|].
  intros [->|Hin]%elem_of_cons; [|by eapply Hrest].
  split_and!; [apply newID_nonempty|done|done|rewrite fmap_cons; left].
Qed.

Lemma extractMemories_spec modelID conversationID content now m :
  m ∈ extractMemories modelID conversationID content now →
  memo_ID m ≠ ""%string ∧ memo_ModelID m = modelID ∧ memo_Value m ≠ ""%string ∧
  (memo_Key m = "user.name" ∨ memo_Key m = "user.preference").
Proof.
  unfold extractMemories. case_match; [by intros ?%not_elem_of_nil|].
  intros (? & ? & ? & Hk)%extract_loop_spec. split_and!; try done.
  revert Hk. cbn. rewrite !elem_of_cons, elem_of_nil. naive_solver.
Qed.

(** (invariant). Appending a message to a conversation keeps at most one
    memory per model and key: what a user message states again replaces the
    stored value instead of adding a second entry. *)
Theorem append_message_memories_unique (s : State) (id modelID nodeID systemPrompt : string)
    (message : ChatMessage) :
  memories_wf (st_memories s) →
  memories_wf (st_memories (AppendConversationMessage s id modelID nodeID systemPrompt message).1).
Proof.
  intros Hwf. unfold AppendConversationMessage. cbv zeta.
  case_bool_decide as Hc; simpl; [done|].
  destruct (bool_decide (normalizeChatRole _ = _)); simpl; [|done].
  set (l := extractMemories _ _ _ _).
  assert (Hl : Forall (λ m, memo_ID m ≠ ""%string) l).
  { apply Forall_forall. intros m Hm. by destruct (extractMemories_spec _ _ _ _ _ Hm). }
  clearbody l. clear Hc. revert Hwf. generalize (st_memories s).
  induction Hl as [|m l Hm _ IH]; intros mems Hwf; simpl; [done|].
  by apply IH, upsert_extracted_wf.
Qed.

Lemma delete_steps {V} (drop : V → bool) ks (m : gmap string V) n :
  (∀ k, (foldl (delete_step drop) (m, n) ks).1 !! k =
     v ← m !! k; if bool_decide (k ∈ ks) && drop v then None else Some v) ∧
  (foldl (delete_step drop) (m, n) ks).2 + Z.of_nat (size (foldl (delete_step drop) (m, n) ks).1)
    = n + Z.of_nat (size m).
Proof.
  revert m n. induction ks as [|k0 ks IH]; intros m n; cbn [foldl].
  { split; [|done]. intros k. simpl. by destruct (m !! k). }
  unfold delete_step at 2 4 6. destruct (m !! k0) as [v0|] eqn:E; [destruct (drop v0) eqn:Ed|].
  - destruct (IH (delete k0 m) (n + 1)) as [H1 H2]. split.
    + intros k. rewrite H1. destruct (decide (k = k0)) as [->|Hne].
      * rewrite lookup_delete_eq, E. simpl. by rewrite bool_decide_eq_true_2, Ed by left.
      * rewrite lookup_delete_ne by done. destruct (m !! k); simpl; [|done].
        by rewrite (bool_decide_ext (k ∈ ks) (k ∈ k0 :: ks)) by set_solver.
    + rewrite H2. rewrite map_size_delete, E. simpl.
      assert (size m ≠ 0%nat) by (intros Hs; apply map_size_empty_inv in Hs; subst; by rewrite lookup_empty in E).
      lia.
  - destruct (IH m n) as [H1 H2]. split; [|done]. intros k. rewrite H1.
    destruct (m !! k) as [v|] eqn:Ek; simpl; [|done].
    destruct (decide (k = k0)) as [->|Hne]; [by simplify_eq; rewrite Ed, !andb_false_r|].
    by rewrite (bool_decide_ext (k ∈ ks) (k ∈ k0 :: ks)) by set_solver.
  - destruct (IH m n) as [H1 H2]. split; [|done]. intros k. rewrite H1.
    destruct (m !! k) as [v|] eqn:Ek; simpl; [|done].
    destruct (decide (k = k0)) as [->|Hne]; [congruence|].
    by rewrite (bool_decide_ext (k ∈ ks) (k ∈ k0 :: ks)) by set_solver.
Qed.

(** The deletion loop removes exactly the matching entries and counts them,
    whatever the order of the walk. *)
Lemma delete_loop_spec {V} t (drop : V → bool) (m : gmap string V) :
  (delete_loop t drop m).1 = filter (λ kv, drop kv.2 = false) m ∧
  (delete_loop t drop m).2 = Z.of_nat (size m) - Z.of_nat (size (delete_loop t drop m).1).
Proof.
  unfold delete_loop.
  destruct (delete_steps drop (range_keys t m) m 0) as [H1 H2]. split; [|lia].
  apply map_eq. intros k. rewrite H1. destruct (m !! k) as [v|] eqn:E; simpl.
  - rewrite bool_decide_eq_true_2 by (apply range_keys_elem; by exists v).
    destruct (drop v) eqn:Ed; simpl; symmetry.
    + apply map_lookup_filter_None. right. intros v' Hv' Hf. simpl in Hf. congruence.
    + by apply map_lookup_filter_Some.
  - symmetry. apply map_lookup_filter_None. by left.
Qed.
End memory_lemmas.

Lemma append_message_memories_unique_witness :
  memories_wf (st_memories (@AppendConversationMessage (world_at 7) ascii_case (NewState 0)
    "c" "m" "n" "" (mkChatMessage "USER" " my name is Ann. I like tea")).1).
Proof.
  apply (@append_message_memories_unique (world_at 7) ascii_case (NewState 0)).
  split; [intros i j a b Ha; discriminate Ha|reflexivity].
Defined.
