(* ===== verification/Scheduling.v ===== *)
(** * Placement of jobs on workers

    [internal/manager/state.go], the scheduler: which workers are eligible, how
    one is picked, how queued jobs are placed and how the jobs of a failed worker
    move on.  [pickWorkerExcludingLocked] reads the clock itself, apart from the
    [now] of the operation that calls it. *)

From S2P Require Import Prelude GoString GoSort GoFloat World Cdip Types State.

Section scheduling.
Context `{World}.

(** One round of the loop over the nodes: the best worker so far. *)
Definition pick_step (s : State) (t : Tag) (req : Requirements) (excluded : gset string) (now : Time)
    (best : string * float64) (node : Node) : string * float64 :=
  if bool_decide (node_ID node ∈ excluded) then best else
  let node := deriveNodeStatus s node now in
  if bool_decide (node_Role node ≠ NodeRoleWorker) || bool_decide (node_Status node ≠ NodeStatusOnline)
  then best else
  if negb (nodeMeetsRequirements node req) then best else
  if workerJobSlots node <=? activeJobsForWorkerLocked s ("active" :: node_ID node :: t) (node_ID node)
  then best else
  let score := nodeBenchmarkScoreLocked s ("score" :: node_ID node :: t) (node_ID node) in
  if str_eqb best.1 "" || f_lt best.2 score then (node_ID node, score) else best.

Definition pickWorkerExcludingLocked (s : State) (t : Tag) (req : Requirements)
    (excluded : gset string) : string :=
  (foldl (pick_step s t req excluded (w_clock ("clock" :: t))) (""%string, f_zero)
     (range_values ("nodes" :: t) (st_nodes s))).1.

Definition pickWorkerLocked (s : State) (t : Tag) (req : Requirements) : string :=
  pickWorkerExcludingLocked s t req ∅.

Definition nodeCanAcceptJobLocked (s : State) (t : Tag) (node : Node) (req : Requirements)
    (now : Time) : bool :=
  let node := deriveNodeStatus s node now in
  bool_decide (node_Role node = NodeRoleWorker) && bool_decide (node_Status node = NodeStatusOnline)
  && nodeMeetsRequirements node req
  && (activeJobsForWorkerLocked s ("active" :: t) (node_ID node) <? workerJobSlots node).

Definition waiting_capacity : string := "waiting for available worker capacity".
Definition waiting_capable : string := "waiting for capable worker".

Definition waitingReasonLocked (s : State) (t : Tag) (req : Requirements) (now : Time) : string :=
  if existsb (λ node,
       let node := deriveNodeStatus s node now in
       bool_decide (node_Role node = NodeRoleWorker) && bool_decide (node_Status node = NodeStatusOnline)
       && nodeMeetsRequirements node req)
     (range_values ("waiting" :: t) (st_nodes s))
  then waiting_capacity else waiting_capable.

(** The body of the loop of [scheduleQueuedJobsLocked] for the job [id]. *)
Definition schedule_step (now : Time) (s : State) (id : string) : State :=
  match st_jobs s !! id with
  | None => s
  | Some job =>
      if bool_decide (job_Status job ≠ StatusQueued) || negb (str_eqb (job_AssignedTo job) "") then s else
      let workerID := pickWorkerLocked s ["schedule"; id] (job_Requirements job) in
      let waiting := str_eqb (job_LastFailure job) waiting_capable
                     || str_eqb (job_LastFailure job) waiting_capacity in
      if str_eqb workerID "" then
        let reason := waitingReasonLocked s ["schedule"; id] (job_Requirements job) now in
        if str_eqb (job_LastFailure job) "" || waiting
        then s <| st_jobs := <[id := job <| job_LastFailure := reason |> <| job_UpdatedAt := now |>]> (st_jobs s) |>
        else s
      else
        let job := job <| job_AssignedTo := workerID |> <| job_Status := StatusScheduled |>
                       <| job_Attempts := i64 (job_Attempts job + 1) |> in
        let job := if waiting then job <| job_LastFailure := "" |> else job in
        let job := job <| job_Error := "" |> <| job_Result := "" |> <| job_StartedAt := 0 |>
                       <| job_FinishedAt := 0 |> <| job_UpdatedAt := now |> in
        s <| st_jobs := <[id := job]> (st_jobs s) |>
  end.

Definition scheduleQueuedJobsLocked (s : State) (now : Time) : State :=
  foldl (schedule_step now) s (range_keys ["schedule"] (st_jobs s)).

Definition rescheduleOrFailJobLocked (s : State) (t : Tag) (job : Job) (failedNodeID : string)
    (now : Time) (reason : string) : Job :=
  let job := job <| job_MaxAttempts := normalizeMaxAttempts (job_MaxAttempts job) |> in
  let job := if job_Attempts job <=? 0 then job <| job_Attempts := 1 |> else job in
  if job_Attempts job <? job_MaxAttempts job then
    let nextWorkerID := pickWorkerExcludingLocked s t (job_Requirements job) {[failedNodeID]} in
    if negb (str_eqb nextWorkerID "") then
      job <| job_Status := StatusScheduled |> <| job_AssignedTo := nextWorkerID |>
          <| job_Attempts := i64 (job_Attempts job + 1) |> <| job_LastFailure := reason |>
          <| job_Error := "" |> <| job_Result := "" |> <| job_StartedAt := 0 |>
          <| job_FinishedAt := 0 |> <| job_UpdatedAt := now |>
    else
      job <| job_Status := StatusQueued |> <| job_AssignedTo := "" |>
          <| job_LastFailure := reason +:+ "; waiting for capable worker" |>
          <| job_Error := "" |> <| job_Result := "" |> <| job_StartedAt := 0 |>
          <| job_FinishedAt := 0 |> <| job_UpdatedAt := now |>
  else
    job <| job_Status := StatusFailed |> <| job_Error := reason |> <| job_LastFailure := reason |>
        <| job_FinishedAt := now |> <| job_UpdatedAt := now |>.

(** The body of the loop of [failActiveJobsForWorkerLocked]. *)
Definition fail_step (nodeID : string) (now : Time) (reason : string) (s : State) (id : string) : State :=
  match st_jobs s !! id with
  | None => s
  | Some job =>
      if bool_decide (job_AssignedTo job ≠ nodeID) then s
      else if negb (is_active job) then s
      else s <| st_jobs := <[id := rescheduleOrFailJobLocked s ["fail"; nodeID; id] job nodeID now reason]>
                             (st_jobs s) |>
  end.

Definition failActiveJobsForWorkerLocked (s : State) (nodeID : string) (now : Time) (reason : string)
    : State :=
  foldl (fail_step nodeID now reason) s (range_keys ["fail"; nodeID] (st_jobs s)).

Definition markWorkerOfflineLocked (s : State) (nodeID : string) (now : Time) (reason : string)
    : State * bool :=
  match st_nodes s !! nodeID with
  | None => (s, false)
  | Some node =>
      let node := node <| node_Status := NodeStatusOffline |> <| node_UpdatedAt := now |> in
      let s := s <| st_nodes := <[nodeID := node]> (st_nodes s) |> in
      (failActiveJobsForWorkerLocked s nodeID now reason, true)
  end.
End scheduling.

(** ** Well-formed states *)

(** Nodes and jobs are stored under their identifiers, which are not empty. *)
Definition nodes_wf (nodes : gmap string Node) : Prop :=
  map_Forall (λ k node, node_ID node = k ∧ k ≠ ""%string) nodes.

(** The retry accounting of a job: between 0 and [MaxAttempts] attempts, an
    active job is on a named worker and has been attempted, and a job waiting for
    placement has an attempt left. *)
Record job_ok (job : Job) : Prop := {
  jo_attempts : 0 ≤ job_Attempts job ≤ job_MaxAttempts job;
  jo_max : 1 ≤ job_MaxAttempts job < 2^63;
  jo_active : is_active job = true → job_AssignedTo job ≠ ""%string ∧ 1 ≤ job_Attempts job;
  jo_waiting : job_Status job = StatusQueued → job_AssignedTo job = ""%string →
    job_Attempts job < job_MaxAttempts job;
}.

Definition jobs_wf (jobs : gmap string Job) : Prop :=
  map_Forall (λ k job, job_ID job = k ∧ job_ok job) jobs.

Record state_wf (s : State) : Prop := {
  wf_nodes : nodes_wf (st_nodes s);
  wf_jobs : jobs_wf (st_jobs s);
}.

(** ** Eligibility and picking *)

Section pick.
Context `{World}.

(** A worker that may receive a job: online at [now], with the resources the
    job requires and a free slot. *)
Record eligible (s : State) (now : Time) (req : Requirements) (node : Node) : Prop := {
  el_role : node_Role node = NodeRoleWorker;
  el_status : node_Status node = NodeStatusOnline;
  el_fresh : time_Sub now (node_UpdatedAt node) ≤ st_heartbeatTimeout s;
  el_meets : nodeMeetsRequirements node req = true;
  el_free : active_on (node_ID node) (st_jobs s) < workerJobSlots node;
}.

Lemma meets_derive s node now req :
  nodeMeetsRequirements (deriveNodeStatus s node now) req = nodeMeetsRequirements node req.
Proof. unfold nodeMeetsRequirements. by rewrite deriveNodeStatus_Resources. Qed.
Lemma slots_derive s node now : workerJobSlots (deriveNodeStatus s node now) = workerJobSlots node.
Proof. unfold workerJobSlots. by rewrite deriveNodeStatus_Resources. Qed.

Lemma eligible_online s now req node :
  eligible s now req node ↔
  online_worker s now node = true ∧ nodeMeetsRequirements node req = true ∧
  active_on (node_ID node) (st_jobs s) < workerJobSlots node.
Proof.
  rewrite online_worker_spec. split; [intros []; done|]. intros ((? & ? & ?) & ? & ?). by constructor.
Qed.

(** The step of the loop replaces the best by an eligible better node. *)
Lemma pick_step_cases s t req excl now best node :
  let score := nodeBenchmarkScoreLocked s ("score" :: node_ID node :: t) (node_ID node) in
  (¬ (eligible s now req node ∧ node_ID node ∉ excl) ∧ pick_step s t req excl now best node = best) ∨
  (eligible s now req node ∧ node_ID node ∉ excl ∧ best.1 ≠ ""%string ∧ f_lt best.2 score = false ∧
   pick_step s t req excl now best node = best) ∨
  (eligible s now req node ∧ node_ID node ∉ excl ∧ (best.1 = ""%string ∨ f_lt best.2 score = true) ∧
   pick_step s t req excl now best node = (node_ID node, score)).
Proof.
  intros score. rewrite eligible_online. unfold pick_step.
  rewrite activeJobs_spec, meets_derive, slots_derive, !deriveNodeStatus_ID. fold score.
  case_bool_decide as Hex; [left; split; [by intros [_ ?]|done]|].
  replace (bool_decide (_ ≠ NodeRoleWorker) || bool_decide (_ ≠ NodeStatusOnline))
    with (negb (online_worker s now node)).
  2:{ unfold online_worker. rewrite !bool_decide_not. by rewrite negb_andb. }
  destruct (online_worker s now node); simpl; [|left; split; [by intros [[? _] _]|done]].
  destruct (nodeMeetsRequirements node req); simpl; [|left; split; [by intros [(_ & ? & _) _]|done]].
  destruct (Z.leb_spec (workerJobSlots node) (active_on (node_ID node) (st_jobs s))).
  { left. split; [|done]. intros [(_ & _ & ?) _]. lia. }
  right. case_bool_decide as Hb; simpl; [right; by eauto 10|].
  destruct (f_lt best.2 score) eqn:Ef; [right|left]; eauto 10.
Qed.

(** The score under which the loop compares the worker [id]. *)
Definition pick_score (s : State) (t : Tag) (id : string) : float64 :=
  nodeBenchmarkScoreLocked s ("score" :: id :: t) id.

Definition candidate s (req : Requirements) (excl : gset string) now (node : Node) : Prop :=
  eligible s now req node ∧ node_ID node ∉ excl.

(** The best of the nodes seen so far. *)
Definition best_of s t req excl now (seen : list Node) (best : string * float64) : Prop :=
  (best.1 = ""%string ∧ ∀ n, n ∈ seen → ¬ candidate s req excl now n) ∨
  (∃ node, node ∈ seen ∧ candidate s req excl now node ∧
     best = (node_ID node, pick_score s t (node_ID node)) ∧
     ∀ n, n ∈ seen → candidate s req excl now n →
       f_lt (pick_score s t (node_ID node)) (pick_score s t (node_ID n)) = false).

Lemma best_of_step s t req excl now seen best node :
  (∀ n, n ∈ seen ++ [node] → node_ID n ≠ ""%string) →
  best_of s t req excl now seen best →
  best_of s t req excl now (seen ++ [node]) (pick_step s t req excl now best node).
Proof.
  intros Hids Hbest. setoid_rewrite elem_of_app in Hids. setoid_rewrite list_elem_of_singleton in Hids.
  destruct (pick_step_cases s t req excl now best node) as
    [[Hno ->]|[(Hel & Hex & Hne & Hlt & ->)|(Hel & Hex & Hne & ->)]];
    unfold best_of; setoid_rewrite elem_of_app; setoid_rewrite list_elem_of_singleton.
  - destruct Hbest as [[-> Hs]|(b & Hb & Hc & -> & Hmax)]; [left|right].
    + split; [done|]. intros n [?| ->]; eauto.
    + exists b. split_and!; eauto. intros n [?| ->] ?; [by eauto|done].
  - destruct Hbest as [[? _]|(b & Hb & Hc & -> & Hmax)]; [done|right].
    exists b. split_and!; eauto. intros n [?| ->] ?; [by eauto|done].
  - right. exists node. split_and!; [by right|done|done|].
    intros n [Hn| ->] Hc; [|apply f_lt_irrefl].
    destruct Hbest as [[_ Hs]|(b & Hb & _ & -> & Hmax)]; [by destruct (Hs n)|].
    destruct Hne as [He|Hlt]; [by destruct (Hids b); auto|].
    destruct (f_lt (pick_score s t (node_ID node)) (pick_score s t (node_ID n))) eqn:E; [|done].
    specialize (Hmax n Hn Hc). simpl in Hlt. by rewrite (f_lt_trans _ _ _ Hlt E) in Hmax.
Qed.

Lemma best_of_fold s t req excl now l seen best :
  (∀ n, n ∈ seen ++ l → node_ID n ≠ ""%string) →
  best_of s t req excl now seen best →
  best_of s t req excl now (seen ++ l) (foldl (pick_step s t req excl now) best l).
Proof.
  revert seen best. induction l as [|node l IH]; intros seen best Hids Hb; cbn [foldl].
  - by rewrite app_nil_r.
  - rewrite (cons_middle node seen l), app_assoc in Hids |- *. apply IH; [done|].
    apply best_of_step; [|done]. intros n Hn. apply Hids. by apply elem_of_app; left.
Qed.

Lemma pick_spec s t req excl (now := w_clock ("clock" :: t)) (w := pickWorkerExcludingLocked s t req excl) :
  nodes_wf (st_nodes s) →
  (w = ""%string ∧ ∀ k n, st_nodes s !! k = Some n → ¬ candidate s req excl now n) ∨
  (∃ node, st_nodes s !! w = Some node ∧ node_ID node = w ∧ w ≠ ""%string ∧ candidate s req excl now node ∧
     ∀ k n, st_nodes s !! k = Some n → candidate s req excl now n →
       f_lt (pick_score s t w) (pick_score s t k) = false).
Proof.
  intros Hwf. set (l := range_values ("nodes" :: t) (st_nodes s)).
  assert (Hl : ∀ n, n ∈ l → st_nodes s !! node_ID n = Some n ∧ node_ID n ≠ ""%string).
  { intros n [k Hk]%range_values_elem. by destruct (Hwf _ _ Hk) as [-> ?]. }
  assert (Hl' : ∀ k n, st_nodes s !! k = Some n → n ∈ l ∧ node_ID n = k).
  { intros k n Hk. split; [apply range_values_elem; by eauto|by destruct (Hwf _ _ Hk)]. }
  destruct (best_of_fold s t req excl now l [] (""%string, f_zero)) as
    [[Hw Hno]|(node & Hn & Hc & Hw & Hmax)].
  - intros n Hn. by apply Hl.
  - left. split; [done|]. by intros n ?%not_elem_of_nil.
  - left. split; [exact Hw|]. intros k n Hk. apply Hno. by apply (Hl' k).
  - right. assert (w = node_ID node) as Hww by exact (f_equal fst Hw). rewrite Hww.
    destruct (Hl node Hn). exists node. split_and!; try done.
    intros k n Hk Hcn. destruct (Hl' k n Hk) as [Hin <-]. by apply Hmax.
Qed.
End pick.

(** ** Changes of the job table

    [job_moves J s s'] says that [s'] differs from [s] in the jobs only, each job
    changed as [J] allows, and that no worker has more active jobs than it had
    or than it has slots. *)

Definition slots_of (nodes : gmap string Node) (n : string) : Z :=
  match nodes !! n with Some node => workerJobSlots node | None => 0 end.

(** The worker has a free slot and is recorded online. *)
Definition room (s : State) (n : string) : Prop :=
  active_on n (st_jobs s) < slots_of (st_nodes s) n ∧
  ∃ node, st_nodes s !! n = Some node ∧ node_Status node = NodeStatusOnline.
Definition not_online (s : State) (n : string) : Prop :=
  ∀ node, st_nodes s !! n = Some node → node_Status node ≠ NodeStatusOnline.

Record job_moves (J : Job → Job → Prop) (s s' : State) : Prop := {
  jm_state : s' = s <| st_jobs := st_jobs s' |>;
  jm_within n : active_on n (st_jobs s') ≤ Z.max (active_on n (st_jobs s)) (slots_of (st_nodes s) n);
  jm_offline n : not_online s n → active_on n (st_jobs s') ≤ active_on n (st_jobs s);
  jm_jobs id : option_Forall2 J (st_jobs s !! id) (st_jobs s' !! id);
}.

#[export] Instance job_moves_preorder J : PreOrder J → PreOrder (job_moves J).
Proof.
  intros HJ. split.
  - intros s. split; [by destruct s|lia|lia|]. intros id. destruct (st_jobs s !! id); by constructor.
  - intros s1 s2 s3 [E1 W1 O1 J1] [E2 W2 O2 J2]. split.
    + rewrite E2, E1. by destruct s1.
    + intros n. specialize (W1 n). specialize (W2 n). rewrite E1 in W2. simpl in W2. lia.
    + intros n Hoff. etrans; [apply O2|by apply O1]. rewrite E1. exact Hoff.
    + intros id. specialize (J1 id). specialize (J2 id). destruct J1; inversion J2; subst; constructor.
      by etrans.
Qed.

Lemma job_moves_update J s id job job' :
  Reflexive J → st_jobs s !! id = Some job → J job job' →
  (∀ n, occ n job' ≤ occ n job ∨ room s n) →
  job_moves J s (s <| st_jobs := <[id := job']> (st_jobs s) |>).
Proof.
  intros HJ Hid Hj Hocc. split; [done| | |].
  - intros n. simpl. rewrite (active_on_update n _ _ job) by done.
    pose proof (occ_bounds n job). pose proof (occ_bounds n job'). destruct (Hocc n) as [|[]]; lia.
  - intros n Hoff. simpl. rewrite (active_on_update n _ _ job) by done.
    destruct (Hocc n) as [|(_ & node & Hn & Hon)]; [lia|]. by destruct (Hoff node Hn).
  - intros id'. simpl. destruct (decide (id = id')) as [<-|Hne].
    + rewrite lookup_insert_eq, Hid. by constructor.
    + rewrite lookup_insert_ne by done. destruct (st_jobs s !! id'); by constructor.
Qed.

Lemma foldl_preorder {A S} (R : S → S → Prop) (I : S → Prop) (f : S → A → S) l s :
  PreOrder R → (∀ s a, I s → R s (f s a) ∧ I (f s a)) → I s → R s (foldl f s l) ∧ I (foldl f s l).
Proof.
  intros HR Hf. revert s. induction l as [|a l IH]; intros s HI; simpl; [done|].
  destruct (Hf s a HI) as [H1 H2]. destruct (IH _ H2) as [H3 H4]. split; [by etrans|done].
Qed.

Lemma job_moves_nodes J s s' : job_moves J s s' → st_nodes s' = st_nodes s.
Proof. intros [E _ _]. by rewrite E. Qed.

Lemma jm_lookup_new J s s' k j' :
  job_moves J s s' → st_jobs s' !! k = Some j' → ∃ j, st_jobs s !! k = Some j ∧ J j j'.
Proof.
  intros Hm Hk. pose proof (jm_jobs _ _ _ Hm k) as Ho. rewrite Hk in Ho.
  destruct (st_jobs s !! k) as [j|]; inversion Ho; eauto.
Qed.
Lemma jm_lookup_old J s s' k j :
  job_moves J s s' → st_jobs s !! k = Some j → ∃ j', st_jobs s' !! k = Some j' ∧ J j j'.
Proof.
  intros Hm Hk. pose proof (jm_jobs _ _ _ Hm k) as Ho. rewrite Hk in Ho.
  destruct (st_jobs s' !! k) as [j'|]; inversion Ho; eauto.
Qed.

(** The fields no scheduling decision touches. *)
Definition same_job (j j' : Job) : Prop :=
  job_ID j' = job_ID j ∧ job_Type j' = job_Type j ∧ job_RequestedBy j' = job_RequestedBy j ∧
  job_Input j' = job_Input j ∧ job_Requirements j' = job_Requirements j ∧
  job_CDIPState j' = job_CDIPState j ∧ job_CDIPParentJobID j' = job_CDIPParentJobID j ∧
  job_CDIPStageIndex j' = job_CDIPStageIndex j ∧ job_CreatedAt j' = job_CreatedAt j.
#[export] Instance same_job_preorder : PreOrder same_job.
Proof. split; [done|]. intros j1 j2 j3 H1 H2. unfold same_job in *. destruct_and!. split_and!; congruence. Qed.

Definition waiting (j : Job) : Prop := job_Status j = StatusQueued ∧ job_AssignedTo j = ""%string.

(** What [scheduleQueuedJobsLocked] may do to a job. *)
Definition sched_change (j j' : Job) : Prop :=
  j' = j ∨
  (waiting j ∧ same_job j j' ∧ job_MaxAttempts j' = job_MaxAttempts j ∧
   ((waiting j' ∧ job_Attempts j' = job_Attempts j) ∨
    (job_Status j' = StatusScheduled ∧ job_AssignedTo j' ≠ ""%string ∧
     job_Attempts j' = i64 (job_Attempts j + 1)))).
#[export] Instance sched_change_preorder : PreOrder sched_change.
Proof.
  split; [by left|]. intros j1 j2 j3 [->|(W1 & S1 & M1 & C1)] [->|(W2 & S2 & M2 & C2)];
    [by left|by right|by right|right].
  split_and!; [done|by etrans|congruence|].
  destruct C1 as [[_ A1]|(St1 & _)]; [|by destruct W2; congruence].
  rewrite A1 in C2. done.
Qed.

(** What failing the worker [node] may do to a job: it was active there and now
    is scheduled elsewhere with one more attempt, or waits with an attempt left,
    or has failed with none left. *)
Definition fail_moved (node : string) (j j' : Job) : Prop :=
  (occupies node j ∧ same_job j j' ∧ job_MaxAttempts j' = normalizeMaxAttempts (job_MaxAttempts j) ∧
   let attempts := Z.max 1 (job_Attempts j) in
   ((job_Status j' = StatusScheduled ∧ job_AssignedTo j' ≠ ""%string ∧ job_AssignedTo j' ≠ node ∧
     attempts < job_MaxAttempts j' ∧ job_Attempts j' = i64 (attempts + 1)) ∨
    (waiting j' ∧ attempts < job_MaxAttempts j' ∧ job_Attempts j' = attempts) ∨
    (job_Status j' = StatusFailed ∧ job_AssignedTo j' = node ∧
     job_MaxAttempts j' ≤ attempts ∧ job_Attempts j' = attempts))).
Definition fail_change (node : string) (j j' : Job) : Prop := j' = j ∨ fail_moved node j j'.

Lemma waiting_not_active j : waiting j → is_active j = false.
Proof. intros [H _]. unfold is_active. by rewrite H. Qed.
Lemma not_active_status j st :
  job_Status j = st → st ≠ StatusScheduled → st ≠ StatusRunning → is_active j = false.
Proof. intros <- H1 H2. unfold is_active. by rewrite !bool_decide_eq_false_2. Qed.

Lemma occ_zero n j : is_active j = false → occ n j = 0.
Proof. intros H. unfold occ. rewrite decide_False; [done|]. intros [_ ?]. congruence. Qed.
Lemma occ_other n j : job_AssignedTo j ≠ n → occ n j = 0.
Proof. intros H. unfold occ. rewrite decide_False; [done|]. by intros [? _]. Qed.

Lemma fail_moved_leaves node j j' : fail_moved node j j' → ¬ occupies node j'.
Proof.
  intros (_ & _ & _ & C) [Ha Hact].
  destruct C as [(_ & _ & ? & _)|[(W & _)|(Hst & _)]]; [done|..].
  - by rewrite waiting_not_active in Hact.
  - by rewrite (not_active_status j' StatusFailed) in Hact.
Qed.

#[export] Instance fail_change_preorder node : PreOrder (fail_change node).
Proof.
  split; [by left|]. intros j1 j2 j3 [->|C1] [->|C2]; [by left|by right|by right|].
  exfalso. apply fail_moved_leaves in C1. by destruct C2.
Qed.

Section steps.
Context `{World}.

(** A picked worker has room for one more job. *)
Lemma pick_room s t req excl (w := pickWorkerExcludingLocked s t req excl) :
  nodes_wf (st_nodes s) → w ≠ ""%string →
  w ∉ excl ∧ room s w.
Proof.
  intros Hwf Hw. destruct (pick_spec s t req excl Hwf) as [[? _]|(node & Hn & Hid & _ & [Hel Hex] & _)]; [done|].
  fold w in Hn, Hid. unfold room, slots_of. rewrite Hn. destruct Hel. rewrite Hid in *.
  split_and!; [done|done|by exists node].
Qed.

Lemma schedule_step_moves now s id :
  nodes_wf (st_nodes s) → job_moves sched_change s (schedule_step now s id).
Proof.
  intros Hwf. unfold schedule_step.
  destruct (st_jobs s !! id) as [job|] eqn:Hid; [|reflexivity].
  destruct (_ || _) eqn:Hg; [reflexivity|].
  rewrite orb_false_iff, bool_decide_eq_false, negb_false_iff, bool_decide_eq_true in Hg.
  destruct Hg as [Hst%dec_stable Ha].
  set (w := pickWorkerLocked s _ _).
  case_bool_decide as Hw.
  - destruct (_ || _); [|reflexivity]. apply (job_moves_update _ _ _ job); [apply _|done| |].
    + right. split_and!; try done. left. by split.
    + intros n. left. unfold occ, occupies. done.
  - destruct (pick_room s ["schedule"; id] (job_Requirements job) ∅ Hwf Hw) as [_ Hroom].
    apply (job_moves_update _ _ _ job); [apply _|done| |].
    + right. destruct (_ || _); split_and!; try done; right; by split_and!.
    + intros n. destruct (decide (n = w)) as [->|Hn]; [by right|left].
      rewrite occ_other; [apply occ_bounds|]. destruct (_ || _); simpl; congruence.
Qed.

Lemma scheduleQueuedJobs_moves now s :
  nodes_wf (st_nodes s) → job_moves sched_change s (scheduleQueuedJobsLocked s now).
Proof.
  intros Hwf. unfold scheduleQueuedJobsLocked.
  apply (foldl_preorder (job_moves sched_change) (λ s, nodes_wf (st_nodes s))); [apply _| |done].
  intros s' id Hs'. pose proof (schedule_step_moves now s' id Hs') as Hm.
  split; [done|]. by rewrite (job_moves_nodes _ _ _ Hm).
Qed.

(** Failing a job: every branch is an allowed move. *)
Lemma rescheduleOrFail_change s t job node now reason :
  nodes_wf (st_nodes s) → occupies node job →
  let job' := rescheduleOrFailJobLocked s t job node now reason in
  fail_moved node job job' ∧
  (∀ n, occ n job' ≤ occ n job ∨ room s n).
Proof.
  intros Hwf Hocc job'. subst job'. unfold rescheduleOrFailJobLocked.
  set (job1 := job <| job_MaxAttempts := _ |>).
  set (job2 := if job_Attempts job1 <=? 0 then _ else job1).
  assert (Hj2 : same_job job job2 ∧ job_MaxAttempts job2 = normalizeMaxAttempts (job_MaxAttempts job) ∧
            job_Attempts job2 = Z.max 1 (job_Attempts job) ∧ job_AssignedTo job2 = job_AssignedTo job).
  { subst job2 job1. simpl. destruct (Z.leb_spec (job_Attempts job) 0); simpl;
      (split_and!; [by split_and!|done|lia|done]). }
  clearbody job2. clear job1. destruct Hj2 as (Hsame & Hmax & Hatt & Hto).
  destruct (Z.ltb_spec (job_Attempts job2) (job_MaxAttempts job2)) as [Hlt|Hge].
  - set (w := pickWorkerExcludingLocked s t _ _). case_bool_decide as Hw; simpl.
    + split; [|intros n; left; rewrite (occ_zero n) by done; apply occ_bounds].
      split_and!; try done. cbv zeta. simpl. rewrite <- Hatt. right; left. by split_and!.
    + destruct (pick_room s t (job_Requirements job2) {[node]} Hwf Hw) as [Hex Hroom].
      fold w in Hex, Hroom. split.
      * split_and!; try done. cbv zeta. simpl. rewrite <- Hatt. left. split_and!; [done|done|set_solver|done..].
      * intros n. destruct (decide (n = w)) as [->|Hn]; [by right|left].
        rewrite occ_other; [apply occ_bounds|]. simpl. congruence.
  - split; [|intros n; left; rewrite (occ_zero n) by done; apply occ_bounds].
    split_and!; try done. cbv zeta. simpl. rewrite <- Hatt. right; right.
    destruct Hocc. split_and!; [done|congruence|lia|done].
Qed.

Lemma fail_step_moves node now reason s id :
  nodes_wf (st_nodes s) → job_moves (fail_change node) s (fail_step node now reason s id).
Proof.
  intros Hwf. unfold fail_step.
  destruct (st_jobs s !! id) as [job|] eqn:Hid; [|reflexivity].
  case_bool_decide as Ha; [reflexivity|].
  destruct (is_active job) eqn:Hact; simpl; [|reflexivity].
  destruct (rescheduleOrFail_change s ["fail"; node; id] job node now reason Hwf) as [Hm Hocc]; [by split|].
  apply (job_moves_update _ _ _ job); [apply _|done|by right|done].
Qed.

Lemma failActiveJobs_moves node now reason s :
  nodes_wf (st_nodes s) →
  job_moves (fail_change node) s (failActiveJobsForWorkerLocked s node now reason).
Proof.
  intros Hwf. unfold failActiveJobsForWorkerLocked.
  apply (foldl_preorder (job_moves (fail_change node)) (λ s, nodes_wf (st_nodes s))); [apply _| |done].
  intros s' id Hs'. pose proof (fail_step_moves node now reason s' id Hs') as Hm.
  split; [done|]. by rewrite (job_moves_nodes _ _ _ Hm).
Qed.

Lemma fail_step_clears node now reason s id job :
  nodes_wf (st_nodes s) → st_jobs (fail_step node now reason s id) !! id = Some job → ¬ occupies node job.
Proof.
  intros Hwf. unfold fail_step. destruct (st_jobs s !! id) as [job0|] eqn:Hid; [|by rewrite Hid].
  case_bool_decide as Ha.
  { rewrite Hid. intros [= <-] [? _]. done. }
  destruct (is_active job0) eqn:Hact; simpl.
  - rewrite lookup_insert_eq. intros [= <-].
    eapply fail_moved_leaves, rescheduleOrFail_change; [done|by split].
  - rewrite Hid. intros [= <-] [_ ?]. congruence.
Qed.

(** After the loop no job is active on the failed worker. *)
Lemma failActiveJobs_clears node now reason s :
  nodes_wf (st_nodes s) →
  active_on node (st_jobs (failActiveJobsForWorkerLocked s node now reason)) = 0.
Proof.
  intros Hwf. apply active_on_0. unfold failActiveJobsForWorkerLocked.
  assert (Hks : ∀ k, is_Some (st_jobs s !! k) → k ∈ range_keys ["fail"; node] (st_jobs s))
    by (intros k; by rewrite range_keys_elem).
  revert Hks. generalize (range_keys ["fail"; node] (st_jobs s)) as ks. intros ks Hks k job Hk.
  assert (Hgen : ∀ ks s, nodes_wf (st_nodes s) → st_jobs (foldl (fail_step node now reason) s ks) !! k = Some job →
            (∀ j, st_jobs s !! k = Some j → k ∈ ks ∨ ¬ occupies node j) → ¬ occupies node job).
  { clear. intros ks. induction ks as [|k' ks IH]; intros s Hwf; cbn [foldl].
    - intros Hk Hj. destruct (Hj job Hk) as [?%not_elem_of_nil|]; done.
    - intros Hk Hj. pose proof (fail_step_moves node now reason s k' Hwf) as Hm.
      apply (IH (fail_step node now reason s k')); [by rewrite (job_moves_nodes _ _ _ Hm)|done|].
      intros j Hj'. destruct (decide (k = k')) as [->|Hne]; [right; by eapply fail_step_clears|].
      destruct (jm_lookup_new _ _ _ _ _ Hm Hj') as (j0 & Hj0 & [->|Hc]);
        [|right; by eapply fail_moved_leaves].
      destruct (Hj j0 Hj0) as [[?|?]%elem_of_cons|?]; [done|by left|by right]. }
  apply (Hgen ks s Hwf Hk). intros j Hj. left. apply Hks. by exists j.
Qed.
End steps.

(** ** The invariants are preserved *)

Lemma sched_change_ok j j' : sched_change j j' → job_ok j → job_ok j'.
Proof.
  intros [->|(Hw & _ & Hm & C)] Hok; [done|]. destruct Hok as [Ha Hmax _ Hwait].
  specialize (Hwait (proj1 Hw) (proj2 Hw)).
  destruct C as [[Hw' Ha']|(Hst & Hto & Ha')].
  - split; rewrite ?Hm, ?Ha'; try done. by rewrite waiting_not_active.
  - rewrite i64_small in Ha' by lia. split; rewrite ?Hm, ?Ha'; try lia.
    + intros _. split; [done|lia].
    + intros Hq. congruence.
Qed.

Lemma normalizeMaxAttempts_pos v : 1 ≤ v → normalizeMaxAttempts v = v.
Proof. intros. unfold normalizeMaxAttempts. by destruct (Z.leb_spec v 0); [lia|]. Qed.
Lemma normalizeMaxAttempts_range v : v < 2^63 → 1 ≤ normalizeMaxAttempts v < 2^63.
Proof. intros. unfold normalizeMaxAttempts, DefaultMaxAttempts. destruct (Z.leb_spec v 0); lia. Qed.

Lemma fail_moved_ok node j j' : fail_moved node j j' → job_ok j → job_ok j'.
Proof.
  intros (Ho & _ & Hm & C) [Ha Hmax Hact _]. rewrite normalizeMaxAttempts_pos in Hm by lia.
  destruct (Hact (proj2 Ho)) as [_ Hpos]. cbv zeta in C. rewrite Z.max_r in C by lia. rewrite Hm in C.
  destruct C as [(Hst & Hto & _ & Hlt & Ha')|[(Hw & Hlt & Ha')|(Hst & _ & Hge & Ha')]].
  - rewrite i64_small in Ha' by lia.
    split; rewrite ?Hm, ?Ha'; try lia; [intros _; split; [done|lia]|congruence].
  - split; rewrite ?Hm, ?Ha'; try lia. by rewrite waiting_not_active.
  - split; rewrite ?Hm, ?Ha'; try lia; [|congruence].
    by rewrite (not_active_status j' StatusFailed).
Qed.

Lemma job_moves_wf J s s' :
  (∀ j j', J j j' → job_ID j' = job_ID j ∧ (job_ok j → job_ok j')) →
  job_moves J s s' → jobs_wf (st_jobs s) → jobs_wf (st_jobs s').
Proof.
  intros HJ Hm Hwf k j' Hk. destruct (jm_lookup_new _ _ _ _ _ Hm Hk) as (j & Hj & Hc).
  destruct (Hwf k j Hj) as [HID Hok].
  destruct (HJ _ _ Hc) as [-> Hok']. auto.
Qed.

Lemma sched_change_ID j j' : sched_change j j' → job_ID j' = job_ID j ∧ (job_ok j → job_ok j').
Proof. intros H. split; [by destruct H as [->|(_ & [? _] & _)]|by apply sched_change_ok]. Qed.
Lemma fail_change_ID node j j' : fail_change node j j' → job_ID j' = job_ID j ∧ (job_ok j → job_ok j').
Proof.
  intros H. split; [by destruct H as [->|(_ & [? _] & _)]|].
  destruct H as [->|H]; [done|by eapply fail_moved_ok].
Qed.

(** ** Properties *)

Lemma active_on_mono n jobs jobs' :
  (∀ k j, jobs !! k = Some j → occupies n j → ∃ j', jobs' !! k = Some j' ∧ occupies n j') →
  active_on n jobs ≤ active_on n jobs'.
Proof.
  intros Hmono. unfold active_on. rewrite <- !(size_dom (D := gset string)).
  apply inj_le, subseteq_size. intros k. rewrite !elem_of_dom.
  intros [j [Hk Ho]%map_lookup_filter_Some]. destruct (Hmono k j Hk Ho) as (j' & Hk' & Ho').
  exists j'. by apply map_lookup_filter_Some.
Qed.

Lemma sched_moves_active_mono n s s' :
  job_moves sched_change s s' → active_on n (st_jobs s) ≤ active_on n (st_jobs s').
Proof.
  intros Hm. apply active_on_mono. intros k j Hk Ho.
  destruct (jm_lookup_old _ _ _ _ _ Hm Hk) as (j' & Hk' & Hc). exists j'. split; [done|].
  destruct Hc as [->|(Hw & _)]; [done|]. destruct Ho as [_ Hact].
  by rewrite waiting_not_active in Hact.
Qed.

Lemma sched_change_waiting j j' : sched_change j j' → waiting j' → waiting j.
Proof. by intros [->|(Hw & _)]. Qed.
Lemma sched_change_requirements j j' : sched_change j j' → job_Requirements j' = job_Requirements j.
Proof. intros [->|(_ & Hs & _)]; [done|]. by unfold same_job in Hs; destruct_and! Hs. Qed.

Section properties.
Context `{World}.

Lemma schedule_fold_moves now s ks :
  nodes_wf (st_nodes s) → job_moves sched_change s (foldl (schedule_step now) s ks).
Proof.
  intros Hwf.
  apply (foldl_preorder (job_moves sched_change) (λ s, nodes_wf (st_nodes s))); [apply _| |done].
  intros s' id Hs'. pose proof (schedule_step_moves now s' id Hs') as Hm.
  split; [done|]. by rewrite (job_moves_nodes _ _ _ Hm).
Qed.

(** A job still waiting after its turn had no candidate at its turn. *)
Lemma schedule_step_waiting now s id job' :
  nodes_wf (st_nodes s) → st_jobs (schedule_step now s id) !! id = Some job' → waiting job' →
  ∀ k node, st_nodes s !! k = Some node →
    ¬ eligible s (w_clock ["clock"; "schedule"; id]) (job_Requirements job') node.
Proof.
  intros Hwf Hk Hw. pose proof (schedule_step_moves now s id Hwf) as Hm.
  destruct (jm_lookup_new _ _ _ _ _ Hm Hk) as (job & Hjob & Hc).
  rewrite (sched_change_requirements _ _ Hc). apply sched_change_waiting in Hc; [|done].
  revert Hk. unfold schedule_step. rewrite Hjob. destruct Hc as [Hst Ha].
  rewrite Hst, Ha. simpl.
  case_bool_decide as Hpick.
  - intros _ k node Hnode Hel. unfold pickWorkerLocked in Hpick.
    destruct (pick_spec s ["schedule"; id] (job_Requirements job) ∅ Hwf) as [[_ Hno]|(? & _ & _ & Hne & _)];
      [|done].
    apply (Hno k node Hnode). split; [done|set_solver].
  - simpl. rewrite lookup_insert_eq. intros [= <-]. exfalso.
    destruct Hw as [Hw _]. by destruct (_ || _) in Hw.
Qed.

(** (functional, safety). The picked worker is an online worker with the
    required resources, a free slot and not excluded, and no other such worker
    has a higher benchmark score; the empty string is returned exactly when
    there is no such worker. *)
Theorem pick_worker_best (s : State) (t : Tag) (req : Requirements) (excl : gset string) :
  nodes_wf (st_nodes s) →
  let now := w_clock ("clock" :: t) in
  let w := pickWorkerExcludingLocked s t req excl in
  (w = ""%string ↔ ∀ k n, st_nodes s !! k = Some n → ¬ candidate s req excl now n) ∧
  (w ≠ ""%string → ∃ node, st_nodes s !! w = Some node ∧ candidate s req excl now node ∧
     ∀ k n, st_nodes s !! k = Some n → candidate s req excl now n →
       f_lt (pick_score s t w) (pick_score s t k) = false).
Proof.
  intros Hwf now w.
  destruct (pick_spec s t req excl Hwf) as [[Hw Hno]|(node & Hn & _ & Hne & Hc & Hmax)].
  - split; [done|]. by intros [].
  - split; [|by eauto]. split; [done|]. intros Hno. by destruct (Hno _ _ Hn).
Qed.

(** (liveness). Scheduling is work-conserving: a job it leaves waiting has no
    online worker with the required resources and a free slot, even in the
    state where all other jobs have been placed. *)
Theorem scheduling_work_conserving (s : State) (now : Time) (id : string) (job : Job) :
  nodes_wf (st_nodes s) →
  let s' := scheduleQueuedJobsLocked s now in
  st_jobs s' !! id = Some job → waiting job →
  ∀ k node, st_nodes s' !! k = Some node →
    ¬ eligible s' (w_clock ["clock"; "schedule"; id]) (job_Requirements job) node.
Proof.
  intros Hwf s' Hid Hw k node Hk [Hr Hs Hf Hm Hfree].
  pose proof (scheduleQueuedJobs_moves now s Hwf) as Hmoves. fold s' in Hmoves.
  destruct (jm_lookup_new _ _ _ _ _ Hmoves Hid) as (job0 & Hjob0 & _).
  assert (id ∈ range_keys ["schedule"] (st_jobs s)) as Hin by (apply range_keys_elem; by exists job0).
  apply list_elem_of_split in Hin as (pre & post & Hks).
  unfold scheduleQueuedJobsLocked in s'. subst s'. rewrite Hks, foldl_app in *. cbn [foldl] in *.
  set (s1 := foldl (schedule_step now) s pre) in *.
  pose proof (schedule_fold_moves now s pre Hwf) as M1. fold s1 in M1.
  pose proof (job_moves_nodes _ _ _ M1) as N1.
  assert (Hwf1 : nodes_wf (st_nodes s1)) by (by rewrite N1).
  pose proof (schedule_step_moves now s1 id Hwf1) as M2. pose proof (job_moves_nodes _ _ _ M2) as N2.
  set (s2 := schedule_step now s1 id) in *.
  assert (Hwf2 : nodes_wf (st_nodes s2)) by (by rewrite N2).
  pose proof (schedule_fold_moves now s2 post Hwf2) as M3. pose proof (job_moves_nodes _ _ _ M3) as N3.
  destruct (jm_lookup_new _ _ _ _ _ M3 Hid) as (job2 & Hjob2 & Hc).
  eapply (schedule_step_waiting now s1 id job2); [done|done|by eapply sched_change_waiting| |].
  - rewrite <- N2, <- N3. exact Hk.
  - rewrite <- (sched_change_requirements _ _ Hc). split; try done.
    + rewrite (jm_state _ _ _ M3), (jm_state _ _ _ M2) in Hf. done.
    + pose proof (sched_moves_active_mono (node_ID node) _ _ M3).
      pose proof (sched_moves_active_mono (node_ID node) _ _ M2). lia.
Qed.
End properties.

(** ** A concrete state: two workers, one waiting job *)

Definition demo_resources (cores slots : Z) : ResourceSnapshot :=
  mkResourceSnapshot (mkCPUResources cores cores) (mkMemoryResources 16 16) [] zero_storage slots [] [].
Definition demo_node (id : string) (cores slots : Z) : Node :=
  mkNode id id NodeRoleWorker NodeStatusOnline "" (demo_resources cores slots) 0 0.
Definition demo_req (cores : Z) : Requirements := mkRequirements cores 0 0 false 0.
Definition demo_job (id : string) (cores : Z) : Job :=
  mkJob id "model.generate" StatusQueued "" "" "" (demo_req cores) "" "" 0 3 "" StageNone "" 0 0 0 0 0.
Definition demo_state : State :=
  (NewState 0) <| st_nodes := <["a" := demo_node "a" 4 1]> (<["b" := demo_node "b" 8 2]> ∅) |>
    <| st_jobs := <["j1" := demo_job "j1" 6]> (<["j2" := demo_job "j2" 64]> ∅) |>.

Lemma demo_nodes_wf : nodes_wf (st_nodes demo_state).
Proof. apply (bool_decide_unpack _). vm_compute. reflexivity. Qed.

Lemma pick_worker_best_witness :
  @pickWorkerExcludingLocked (world_at 5) demo_state ["t"] (demo_req 6) ∅ = "b"%string ∧
  ∃ node, st_nodes demo_state !! "b"%string = Some node.
Proof.
  split; [vm_compute; reflexivity|].
  destruct (proj2 (@pick_worker_best (world_at 5) demo_state ["t"] (demo_req 6) ∅ demo_nodes_wf))
    as (node & Hn & _); [vm_compute; discriminate|]. exists node. exact Hn.
Defined.

Lemma scheduling_work_conserving_witness :
  ¬ eligible (@scheduleQueuedJobsLocked (world_at 5) demo_state 5) 5 (demo_req 64) (demo_node "b" 8 2).
Proof.
  refine (@scheduling_work_conserving (world_at 5) demo_state 5 "j2"
    ((demo_job "j2" 64) <| job_LastFailure := waiting_capable |> <| job_UpdatedAt := 5 |>) demo_nodes_wf
    _ _ "b" (demo_node "b" 8 2) _);
    [vm_compute; reflexivity|split; reflexivity|vm_compute; reflexivity].
Defined.
