(* ===== verification/JobStore.v ===== *)
(** * The job store

    [internal/manager/state.go], the operations: registration and heartbeats of
    workers, creation, polling, progress, completion and cancellation of jobs,
    stage transitions, node listing and the cluster summary.  Each operation
    takes the lock for its whole body and is a function from the state before to
    the state after and the values it returns. *)

From S2P Require Import Prelude GoString GoSort GoFloat World Json Cdip Types Protocol Models State.
From S2P Require Import Codec Conversations Scheduling.

(** The decoded part of a generate result: [struct { Output string }]. *)
Record GenerateOutput := mkGenerateOutput { go_Output : string }.

(** The text-level services the store relies on. *)
Class Codecs := {
  c_lower :: LowerCase;
  c_map :: JsonMap;
  c_delete :: Json DeleteInput;
  c_generate :: Json GenerateInput;
  c_generate_rpc :: Json DistributedRPCGenerateInput;
  c_output :: Json GenerateOutput;
}.

(** A run-time panic: assignment to an entry of a nil map. *)
Inductive panic : Set := AssignmentToNilMap.

Definition stage_text (st : StageState) : string :=
  match st with
  | StageNone => ""
  | StagePlanned => "planned" | StagePreparing => "preparing" | StageReady => "ready"
  | StagePrefill => "prefill" | StageDecode => "decode" | StageCompleted => "completed"
  | StageFailed => "failed" | StageAborted => "aborted"
  | StageOther s => s
  end.

Section store.
Context `{World} `{Codecs}.

Definition jobProgressResult (req : ProgressRequest) (updatedAt : Time) : string :=
  let payload : gmap string any :=
    <["kind" := any_string "job.progress"]> $ <["progress_bytes" := any_int (prog_ProgressBytes req)]> $
    <["total_bytes" := any_int (prog_TotalBytes req)]> $
    <["progress_percent" := any_float (prog_ProgressPercent req)]> $
    <["progress_label" := any_string (TrimSpace (prog_ProgressLabel req))]> $
    <["updated_at" := any_time updatedAt]> ∅ in
  default "" (Marshal_map payload).

Definition cdipStageResult (state : StageState) (detail : string) (updatedAt : Time) : string :=
  let payload : gmap string any :=
    <["kind" := any_string "cdip.stage.state"]> $ <["state" := any_string (stage_text state)]> $
    <["detail" := any_string (TrimSpace detail)]> $ <["updated_at" := any_time updatedAt]> ∅ in
  default "" (Marshal_map payload).

(** ** Workers *)

Definition RegisterWorker (s : State) (req : JoinRequest) : State * JoinResponse :=
  let now := w_clock ["now"] in
  let nodeID := newID "node" (w_rand ["node"]) in
  let node := mkNode nodeID (join_NodeName req) NodeRoleWorker NodeStatusOnline (join_Endpoint req)
                (join_Resources req) now now in
  let s := s <| st_nodes := <[nodeID := node]> (st_nodes s) |> in
  (scheduleQueuedJobsLocked s now,
   mkJoinResponse nodeID ["http://127.0.0.1:8080"] (10 * Second)).

Definition HeartbeatOp (s : State) (hb : Heartbeat) : State * bool :=
  match st_nodes s !! hb_NodeID hb with
  | None => (s, false)
  | Some node =>
      let now := w_clock ["now"] in
      let node := node <| node_Status := NodeStatusOnline |> <| node_Resources := hb_Resources hb |>
                       <| node_UpdatedAt := now |> in
      let s := s <| st_nodes := <[hb_NodeID hb := node]> (st_nodes s) |> in
      (scheduleQueuedJobsLocked s now, true)
  end.

Definition MarkWorkerOffline (s : State) (nodeID : string) : State * bool :=
  markWorkerOfflineLocked s nodeID (w_clock ["now"]) "worker went offline".

(** ** Creation *)

(** The body shared by [CreateJob] and the loop of [CreateJobsBatch]. *)
Definition create_job (s : State) (t : Tag) (now : Time) (req : CreateRequest) : State * Job :=
  let job := mkJob (newID "job" (w_rand ("job" :: t))) (cr_Type req) StatusQueued (cr_RequestedBy req) ""
               (cr_Input req) (cr_Requirements req) "" "" 0 (normalizeMaxAttempts (cr_MaxAttempts req)) ""
               (cr_CDIPState req) (cr_CDIPParentJobID req) (cr_CDIPStageIndex req) now now 0 0 in
  let schedule w := job <| job_AssignedTo := w |> <| job_Status := StatusScheduled |> <| job_Attempts := 1 |> in
  let wait := job <| job_LastFailure := waitingReasonLocked s t (job_Requirements job) now |> in
  let job :=
    if cr_NoAutoAssign req then
      job <| job_AssignedTo := cr_AssignedTo req |> <| job_LastFailure := "waiting for coordinator" |>
    else if negb (str_eqb (cr_AssignedTo req) "") then
      match st_nodes s !! cr_AssignedTo req with
      | Some node =>
          if nodeCanAcceptJobLocked s t node (job_Requirements job) now
          then schedule (cr_AssignedTo req) else wait
      | None => wait
      end
    else
      let workerID := pickWorkerLocked s t (job_Requirements job) in
      if negb (str_eqb workerID "") then schedule workerID else wait in
  (s <| st_jobs := <[job_ID job := job]> (st_jobs s) |>, job).

Definition CreateJob (s : State) (req : CreateRequest) : State * Job :=
  create_job s ["create"] (w_clock ["now"]) req.

Fixpoint create_loop (s : State) (i : nat) (requests : list CreateRequest) : State * list Job :=
  match requests with
  | [] => (s, [])
  | req :: requests =>
      let '(s, job) := create_job s ["create"; pretty i] (w_clock ["now"]) req in
      let '(s, created) := create_loop s (S i) requests in
      (s, job :: created)
  end.
Definition CreateJobsBatch (s : State) (requests : list CreateRequest) : State * list Job :=
  create_loop s 0 requests.

(** ** Polling, progress *)

(** The first scheduled job of the worker in the order of the walk. *)
Fixpoint next_loop (s : State) (nodeID : string) (now : Time) (jobs : list Job) : State * option Job :=
  match jobs with
  | [] => (s, None)
  | job :: jobs =>
      if bool_decide (job_AssignedTo job ≠ nodeID) || bool_decide (job_Status job ≠ StatusScheduled)
      then next_loop s nodeID now jobs
      else
        let job := job <| job_Status := StatusRunning |> <| job_StartedAt := now |>
                       <| job_UpdatedAt := now |> in
        (s <| st_jobs := <[job_ID job := job]> (st_jobs s) |>, Some job)
  end.
Definition NextJobForWorker (s : State) (nodeID : string) : State * option Job :=
  next_loop s nodeID (w_clock ["now"]) (range_values ["next"] (st_jobs s)).

Definition UpdateJobProgress (s : State) (jobID : string) (req : ProgressRequest) : State * option Job :=
  match st_jobs s !! jobID with
  | None => (s, None)
  | Some job =>
      if bool_decide (job_AssignedTo job ≠ prog_NodeID req) || bool_decide (job_Status job ≠ StatusRunning)
      then (s, None)
      else
        let now := w_clock ["now"] in
        let job := job <| job_Result := jobProgressResult req now |> <| job_UpdatedAt := now |> in
        (s <| st_jobs := <[job_ID job := job]> (st_jobs s) |>, Some job)
  end.

(** ** Completion *)

Definition generateJobConversationModelAndPrompt (job : Job) : string * string * string :=
  if str_eqb (job_Type job) JobGenerate then
    match Unmarshal (A := GenerateInput) (job_Input job) with
    | None => ("", "", "")
    | Some input => (gen_ConversationID input, gen_ModelID input, gen_SystemPrompt input)
    end
  else if str_eqb (job_Type job) JobGenerateDistributedRPC then
    match Unmarshal (A := DistributedRPCGenerateInput) (job_Input job) with
    | None => ("", "", "")
    | Some input => (drg_ConversationID input, drg_ModelID input, drg_SystemPrompt input)
    end
  else ("", "", "").

Definition appendAssistantMessageForJobLocked (s : State) (job : Job) (now : Time) : State :=
  if (negb (str_eqb (job_Type job) JobGenerate) && negb (str_eqb (job_Type job) JobGenerateDistributedRPC))
     || str_eqb (job_Result job) "" then s else
  let '(conversationID, modelID, systemPrompt) := generateJobConversationModelAndPrompt job in
  if str_eqb conversationID "" then s else
  match Unmarshal (A := GenerateOutput) (job_Result job) with
  | None => s
  | Some result =>
      if str_eqb (go_Output result) "" then s else
      let conversation := default (mkConversation conversationID modelID "" "" [] now 0)
                            (st_conversations s !! conversationID) in
      let conversation := conversation <| conv_ModelID := modelID |> in
      let conversation :=
        if negb (str_eqb systemPrompt "") && str_eqb (conv_SystemPrompt conversation) ""
        then conversation <| conv_SystemPrompt := systemPrompt |> else conversation in
      let conversation := conversation <| conv_Messages := trimConversationMessages
            (conv_Messages conversation ++ [mkChatMessage "assistant" (go_Output result)]) |>
            <| conv_UpdatedAt := now |> in
      s <| st_conversations := <[conversationID := conversation]> (st_conversations s) |>
  end.

Definition modelInstalledOnAnotherOnlineWorkerLocked (s : State) (modelID excludedNodeID : string) : bool :=
  let modelID := TrimSpace modelID in
  if str_eqb modelID "" then false else
  existsb (λ node,
      if str_eqb (node_ID node) excludedNodeID || bool_decide (node_Role node ≠ NodeRoleWorker)
         || bool_decide (node_Status node ≠ NodeStatusOnline) then false
      else existsb (λ installed, str_eqb (mr_ID installed) modelID) (res_Models (node_Resources node)))
    (range_values ["installed"] (st_nodes s)).

Definition withDeleteCleanupResult (text : string) (deletedMemories deletedConversations : Z)
    : result panic string :=
  let write (payload : gmap string any) :=
    Ok (default text (Marshal_map
      (<["deleted_conversations" := any_int deletedConversations]> $
       <["deleted_memories" := any_int deletedMemories]> payload))) in
  if blank text then write ∅ else
  match Unmarshal_map text with
  | None => Ok text
  | Some None => Err AssignmentToNilMap
  | Some (Some payload) => write payload
  end.

Definition cleanupModelPersistenceForDeleteJobLocked (s : State) (job : Job) : State * result panic Job :=
  if negb (str_eqb (job_Type job) JobDelete) then (s, Ok job) else
  match Unmarshal (A := DeleteInput) (job_Input job) with
  | None => (s, Ok job)
  | Some input =>
      if str_eqb (del_ModelID input) "" then (s, Ok job) else
      let finish s memories conversations :=
        (s, r ← withDeleteCleanupResult (job_Result job) memories conversations;
            Ok (job <| job_Result := r |>)) in
      if modelInstalledOnAnotherOnlineWorkerLocked s (del_ModelID input) (job_AssignedTo job)
      then finish s 0 0
      else
        let '(memories, deletedMemories) :=
          delete_loop ["memories"] (λ m, str_eqb (memo_ModelID m) (del_ModelID input)) (st_memories s) in
        let '(conversations, deletedConversations) :=
          delete_loop ["conversations"] (λ c, str_eqb (conv_ModelID c) (del_ModelID input))
            (st_conversations s) in
        finish (s <| st_memories := memories |> <| st_conversations := conversations |>)
          deletedMemories deletedConversations
  end.

Definition CompleteJob (s : State) (jobID : string) (req : CompleteRequest)
    : State * result panic (option Job) :=
  match st_jobs s !! jobID with
  | None => (s, Ok None)
  | Some job =>
      if bool_decide (job_AssignedTo job ≠ comp_NodeID req) then (s, Ok None)
      else if bool_decide (job_Status job = StatusCanceled) then (s, Ok (Some job))
      else if bool_decide (job_Status job ≠ StatusRunning) then (s, Ok None)
      else
        let now := w_clock ["now"] in
        let job := job <| job_Result := comp_Result req |> <| job_Error := comp_Error req |>
                       <| job_UpdatedAt := now |> in
        let '(s, completed) :=
          if negb (str_eqb (comp_Error req) "") then
            (s, Ok (rescheduleOrFailJobLocked s ["complete"] job (comp_NodeID req) now (comp_Error req)))
          else
            let job := job <| job_Status := StatusSucceeded |> <| job_FinishedAt := now |> in
            let s := appendAssistantMessageForJobLocked s job now in
            cleanupModelPersistenceForDeleteJobLocked s job in
        match completed with
        | Err p => (s, Err p)
        | Ok job =>
            let s := s <| st_jobs := <[job_ID job := job]> (st_jobs s) |> in
            (scheduleQueuedJobsLocked s now, Ok (Some job))
        end
  end.

(** ** Stage transitions, coordinator jobs, cancellation *)

(** The job after an accepted transition to [next]. *)
Definition stage_job (job : Job) (next : StageState) (detail : string) (now : Time) : Job :=
  let job := job <| job_CDIPState := next |> <| job_Result := cdipStageResult next detail now |>
                 <| job_UpdatedAt := now |> in
  match next with
  | StagePreparing =>
      if bool_decide (job_Status job = StatusQueued) && negb (blank (job_AssignedTo job)) then
        let job := job <| job_Status := StatusScheduled |> <| job_LastFailure := "" |> in
        if job_Attempts job =? 0 then job <| job_Attempts := 1 |> else job
      else job
  | StageCompleted => job <| job_Status := StatusSucceeded |> <| job_FinishedAt := now |>
  | StageFailed =>
      let job := job <| job_Status := StatusFailed |> <| job_Error := TrimSpace detail |> in
      job <| job_LastFailure := job_Error job |> <| job_FinishedAt := now |>
  | StageAborted =>
      job <| job_Status := StatusCanceled |> <| job_Error := TrimSpace detail |>
          <| job_FinishedAt := now |>
  | _ => job
  end.

(** The state a stage job is in: planned when it has none. *)
Definition stage_current (job : Job) : StageState :=
  if bool_decide (job_CDIPState job = StageNone) then StagePlanned else job_CDIPState job.

Definition UpdateCDIPStageState (s : State) (jobID : string) (next : StageState) (detail : string)
    : State * option Job :=
  match st_jobs s !! jobID with
  | None => (s, None)
  | Some job =>
      if bool_decide (job_Type job ≠ JobGenerateStage) then (s, None)
      else if negb (CanTransition (stage_current job) next) then (s, None)
      else
        let job := stage_job job next detail (w_clock ["now"]) in
        (s <| st_jobs := <[job_ID job := job]> (st_jobs s) |>, Some job)
  end.

Definition CompleteCoordinatorJob (s : State) (jobID result errText : string) : State * option Job :=
  match st_jobs s !! jobID with
  | None => (s, None)
  | Some job =>
      if bool_decide (job_Type job ≠ JobGenerateDistributed) then (s, None) else
      let now := w_clock ["now"] in
      let job := job <| job_Result := TrimSpace result |> <| job_Error := TrimSpace errText |>
                     <| job_UpdatedAt := now |> <| job_FinishedAt := now |> in
      let job :=
        if negb (str_eqb (job_Error job) "")
        then job <| job_Status := StatusFailed |> <| job_LastFailure := job_Error job |>
        else job <| job_Status := StatusSucceeded |> in
      (s <| st_jobs := <[job_ID job := job]> (st_jobs s) |>, Some job)
  end.

Definition CancelJob (s : State) (jobID : string) : State * option Job :=
  match st_jobs s !! jobID with
  | None => (s, None)
  | Some job =>
      if negb (jobCanBeCanceled job) then (s, None) else
      let now := w_clock ["now"] in
      let job := job <| job_Status := StatusCanceled |> <| job_Error := "canceled by operator" |>
                     <| job_LastFailure := "" |> <| job_UpdatedAt := now |> <| job_FinishedAt := now |> in
      let s := s <| st_jobs := <[job_ID job := job]> (st_jobs s) |> in
      (scheduleQueuedJobsLocked s now, Some job)
  end.

(** ** Nodes and the summary *)

(** One round of the loop of [Nodes]. *)
Definition nodes_step (now : Time) (acc : State * list Node) (id : string) : State * list Node :=
  let '(s, nodes) := acc in
  match st_nodes s !! id with
  | None => (s, nodes)
  | Some node =>
      let previousStatus := node_Status node in
      let node := deriveNodeStatus s node now in
      if bool_decide (previousStatus = NodeStatusOnline) && bool_decide (node_Status node = NodeStatusOffline)
      then
        let node := node <| node_UpdatedAt := now |> in
        let s := s <| st_nodes := <[node_ID node := node]> (st_nodes s) |> in
        (failActiveJobsForWorkerLocked s (node_ID node) now "worker heartbeat timed out", nodes ++ [node])
      else (s, nodes ++ [node])
  end.
Definition Nodes (s : State) : State * list Node :=
  foldl (nodes_step (w_clock ["now"])) (s, []) (range_keys ["nodes"] (st_nodes s)).

Definition add_storage (a b : StorageResources) : StorageResources :=
  mkStorageResources
    (u64 (sto_TotalBytes a + sto_TotalBytes b)) (u64 (sto_AllowedBytes a + sto_AllowedBytes b))
    (u64 (sto_FreeBytes a + sto_FreeBytes b)) (u64 (sto_UsedByModelsBytes a + sto_UsedByModelsBytes b))
    (u64 (sto_UsedByRuntimesBytes a + sto_UsedByRuntimesBytes b))
    (u64 (sto_UsedByCacheBytes a + sto_UsedByCacheBytes b))
    (u64 (sto_PartialModelBytes a + sto_PartialModelBytes b))
    (i64 (sto_PartialModelFiles a + sto_PartialModelFiles b))
    (u64 (sto_OrphanModelBytes a + sto_OrphanModelBytes b))
    (i64 (sto_OrphanModelDirs a + sto_OrphanModelDirs b)).

(** [summary.Resources] keeps its zero GPU list, slots, models and runtimes. *)
Definition add_resources (a b : ResourceSnapshot) : ResourceSnapshot :=
  mkResourceSnapshot
    (mkCPUResources (i64 (cpu_CoresTotal (res_CPU a) + cpu_CoresTotal (res_CPU b)))
       (i64 (cpu_CoresAllowed (res_CPU a) + cpu_CoresAllowed (res_CPU b))))
    (mkMemoryResources (u64 (mem_TotalBytes (res_Memory a) + mem_TotalBytes (res_Memory b)))
       (u64 (mem_AllowedBytes (res_Memory a) + mem_AllowedBytes (res_Memory b))))
    (res_GPU a) (add_storage (res_Storage a) (res_Storage b))
    (res_JobSlots a) (res_Models a) (res_Runtimes a).

Definition summary_step (scores : gmap string NodeBenchmarkSummary) (sum : ClusterSummary) (node : Node)
    : ClusterSummary :=
  let worker := bool_decide (node_Role node = NodeRoleWorker) in
  let online := worker && bool_decide (node_Status node = NodeStatusOnline) in
  let gpus := res_GPU (node_Resources node) in
  mkClusterSummary (cs_StartedAt sum)
    (if worker then i64 (cs_WorkersTotal sum + 1) else cs_WorkersTotal sum)
    (if online then i64 (cs_WorkersOnline sum + 1) else cs_WorkersOnline sum)
    (if online then i64 (cs_GPUs sum + Z.of_nat (length gpus)) else cs_GPUs sum)
    (if online then foldl (λ a g, u64 (a + gpu_TotalVRAMBytes g)) (cs_VRAMTotalBytes sum) gpus
     else cs_VRAMTotalBytes sum)
    (if online then foldl (λ a g, u64 (a + gpu_AllowedVRAMBytes g)) (cs_VRAMAllowedBytes sum) gpus
     else cs_VRAMAllowedBytes sum)
    (if online then f_add (cs_BenchmarkScore sum)
                      (default f_zero (nbs_TotalScore <$> scores !! node_ID node))
     else cs_BenchmarkScore sum)
    (if online then add_resources (cs_Resources sum) (node_Resources node) else cs_Resources sum).

(** [Nodes] and [BenchmarkSummaryByNode] are separate calls on the store. *)
Definition ClusterSummaryOp (s : State) : State * ClusterSummary :=
  let '(s, nodes) := Nodes s in
  (s, foldl (summary_step (BenchmarkSummaryByNode s))
        (mkClusterSummary (st_startedAt s) 0 0 0 0 0 f_zero zero_snapshot) nodes).

(** ** The store as a transition system

    One constructor per method that changes the state; [exec] is the method's
    effect.  A panic in [CompleteJob] leaves the state it had reached. *)

Inductive store_op :=
  | OpRegisterWorker (req : JoinRequest)
  | OpHeartbeat (hb : Heartbeat)
  | OpMarkWorkerOffline (nodeID : string)
  | OpPutBenchmark (res : BenchmarkResult)
  | OpPutRPCHealth (update : RPCHealthUpdate)
  | OpCreateJob (req : CreateRequest)
  | OpCreateJobsBatch (requests : list CreateRequest)
  | OpNextJobForWorker (nodeID : string)
  | OpUpdateJobProgress (jobID : string) (req : ProgressRequest)
  | OpUpdateCDIPStageState (jobID : string) (next : StageState) (detail : string)
  | OpCompleteCoordinatorJob (jobID text errText : string)
  | OpCompleteJob (jobID : string) (req : CompleteRequest)
  | OpCancelJob (jobID : string)
  | OpNodes
  | OpAppendConversationMessage (id modelID nodeID systemPrompt : string) (message : ChatMessage)
  | OpDeleteConversation (id : string)
  | OpDeleteMemory (id : string)
  | OpUpsertMemory (memory : Memory)
  | OpDeleteMemoriesByModel (modelID : string).

Definition exec (s : State) (op : store_op) : State :=
  match op with
  | OpRegisterWorker req => (RegisterWorker s req).1
  | OpHeartbeat hb => (HeartbeatOp s hb).1
  | OpMarkWorkerOffline nodeID => (MarkWorkerOffline s nodeID).1
  | OpPutBenchmark res => (PutBenchmark s res).1
  | OpPutRPCHealth update => (PutRPCHealth s update).1
  | OpCreateJob req => (CreateJob s req).1
  | OpCreateJobsBatch requests => (CreateJobsBatch s requests).1
  | OpNextJobForWorker nodeID => (NextJobForWorker s nodeID).1
  | OpUpdateJobProgress jobID req => (UpdateJobProgress s jobID req).1
  | OpUpdateCDIPStageState jobID next detail => (UpdateCDIPStageState s jobID next detail).1
  | OpCompleteCoordinatorJob jobID text errText => (CompleteCoordinatorJob s jobID text errText).1
  | OpCompleteJob jobID req => (CompleteJob s jobID req).1
  | OpCancelJob jobID => (CancelJob s jobID).1
  | OpNodes => (Nodes s).1
  | OpAppendConversationMessage id modelID nodeID systemPrompt message =>
      (AppendConversationMessage s id modelID nodeID systemPrompt message).1
  | OpDeleteConversation id => (DeleteConversation s id).1
  | OpDeleteMemory id => (DeleteMemory s id).1
  | OpUpsertMemory memory => (UpsertMemory s memory).1
  | OpDeleteMemoriesByModel modelID => (DeleteMemoriesByModel s modelID).1
  end.

(** The identifiers an operation draws for the jobs it creates. *)
Definition created_ids (op : store_op) : list string :=
  match op with
  | OpCreateJob _ => [newID "job" (w_rand ["job"; "create"])]
  | OpCreateJobsBatch requests =>
      imap (λ i _, newID "job" (w_rand ["job"; "create"; pretty i])) requests
  | _ => []
  end.
End store.

(** ** The life of a job

    The abstract specification of the store: a job moves along [lifecycle], and
    the store's operations only compose such moves. *)

Record job_core := mkCore {
  core_ID : string; core_Type : string; core_RequestedBy : string; core_Input : string;
  core_Requirements : Requirements; core_MaxAttempts : Z; core_Parent : string;
  core_StageIndex : Z; core_CreatedAt : Time }.
Definition core (j : Job) : job_core :=
  mkCore (job_ID j) (job_Type j) (job_RequestedBy j) (job_Input j) (job_Requirements j)
    (job_MaxAttempts j) (job_CDIPParentJobID j) (job_CDIPStageIndex j) (job_CreatedAt j).

Definition stage_kind (j : Job) : Prop := job_Type j = JobGenerateStage.
Definition coordinator_kind (j : Job) : Prop := job_Type j = JobGenerateDistributed.
Definition terminal (j : Job) : Prop :=
  job_Status j ∈ [StatusSucceeded; StatusFailed; StatusCanceled].

Inductive transition (j j' : Job) : Prop :=
  | t_wait : waiting j → waiting j' → job_Attempts j' = job_Attempts j → transition j j'
  | t_place : waiting j → job_Status j' = StatusScheduled → job_AssignedTo j' ≠ ""%string →
      job_Attempts j' = job_Attempts j + 1 → transition j j'
  | t_start : job_Status j = StatusScheduled → job_Status j' = StatusRunning →
      job_AssignedTo j' = job_AssignedTo j → job_Attempts j' = job_Attempts j → transition j j'
  | t_progress : job_Status j = StatusRunning → job_Status j' = StatusRunning →
      job_AssignedTo j' = job_AssignedTo j → job_Attempts j' = job_Attempts j → transition j j'
  | t_succeed : job_Status j = StatusRunning → job_Status j' = StatusSucceeded →
      job_AssignedTo j' = job_AssignedTo j → job_Attempts j' = job_Attempts j → transition j j'
  | t_retry : is_active j = true → job_Status j' = StatusScheduled → job_AssignedTo j' ≠ ""%string →
      job_AssignedTo j' ≠ job_AssignedTo j →
      job_Attempts j < job_MaxAttempts j → job_Attempts j' = job_Attempts j + 1 → transition j j'
  | t_requeue : is_active j = true → waiting j' → job_Attempts j < job_MaxAttempts j →
      job_Attempts j' = job_Attempts j → transition j j'
  | t_fail : is_active j = true → job_Status j' = StatusFailed → job_AssignedTo j' = job_AssignedTo j →
      job_Attempts j = job_MaxAttempts j → job_Attempts j' = job_Attempts j → transition j j'
  | t_cancel : jobCanBeCanceled j = true → job_Status j' = StatusCanceled →
      job_AssignedTo j' = job_AssignedTo j → job_Attempts j' = job_Attempts j → transition j j'.

(** A stage job also follows the stage state machine, whatever its status; a
    coordinator job is finished by the coordinator. *)
Inductive lifecycle (j j' : Job) : Prop :=
  | lc_status : core j' = core j → job_CDIPState j' = job_CDIPState j → transition j j' → lifecycle j j'
  | lc_stage : core j' = core j → stage_kind j → job_AssignedTo j' = job_AssignedTo j →
      CanTransition (stage_current j) (job_CDIPState j') = true →
      job_Attempts j ≤ job_Attempts j' →
      (job_Status j' = job_Status j ∨ terminal j' ∨
       (job_Status j = StatusQueued ∧ job_Status j' = StatusScheduled ∧ job_CDIPState j' = StagePreparing)) →
      lifecycle j j'
  | lc_coordinator : core j' = core j → coordinator_kind j → job_CDIPState j' = job_CDIPState j →
      job_AssignedTo j' = job_AssignedTo j → job_Attempts j' = job_Attempts j →
      (job_Status j' = StatusSucceeded ∨ job_Status j' = StatusFailed) → lifecycle j j'.
#[export] Hint Constructors transition lifecycle : cmesh.

Lemma terminal_not_cancelable j : terminal j → jobCanBeCanceled j = false ∧ is_active j = false.
Proof.
  unfold terminal, is_active, jobCanBeCanceled. rewrite !elem_of_cons, elem_of_nil.
  intros Ht. destruct_or! Ht; try done; by rewrite Ht.
Qed.

Lemma lifecycle_core j j' : lifecycle j j' → core j' = core j.
Proof. by destruct 1. Qed.
Lemma rtc_lifecycle_core j j' : rtc lifecycle j j' → core j' = core j.
Proof. induction 1 as [|j1 j2 j3 H _ IH]; [done|]. by rewrite IH, (lifecycle_core _ _ H). Qed.

Lemma same_job_core j j' : same_job j j' → job_MaxAttempts j' = job_MaxAttempts j → core j' = core j.
Proof. unfold same_job, core. intros H HM. destruct_and! H. by f_equal. Qed.

(** The scheduler's changes are life-cycle moves. *)
Lemma sched_change_lifecycle j j' : job_ok j → sched_change j j' → rtc lifecycle j j'.
Proof.
  intros Hok [->|(Hw & Hs & HM & C)]; [done|]. apply rtc_once, lc_status; [by apply same_job_core| |].
  - unfold same_job in Hs. by destruct_and! Hs.
  - destruct C as [[? ?]|(? & ? & Ha)]; [by apply t_wait|].
    destruct Hok as [? ? _ Hq]. specialize (Hq (proj1 Hw) (proj2 Hw)).
    rewrite i64_small in Ha by lia. by apply t_place.
Qed.

Lemma fail_moved_lifecycle node j j' : job_ok j → fail_moved node j j' → lifecycle j j'.
Proof.
  intros [Ha Hmax Hact _] (Ho & Hs & HM & C).
  destruct (Hact (proj2 Ho)) as [_ Hpos]. rewrite normalizeMaxAttempts_pos in HM by lia.
  apply lc_status; [by apply same_job_core| |].
  - unfold same_job in Hs. by destruct_and! Hs.
  - destruct Ho as [Hto Hac]. cbv zeta in C. rewrite Z.max_r, HM in C by lia.
    destruct C as [(? & ? & ? & ? & Ha')|[(? & ? & ?)|(? & ? & ? & ?)]].
    + rewrite i64_small in Ha' by lia. apply t_retry; [done..|congruence|done|done].
    + by apply t_requeue.
    + apply t_fail; [done..|congruence|lia|done].
Qed.
Lemma fail_change_lifecycle node j j' : job_ok j → fail_change node j j' → rtc lifecycle j j'.
Proof. intros Hok [->|H]; [done|]. by eapply rtc_once, fail_moved_lifecycle. Qed.

(** ** One step of the store *)

(** [store_step cap ids s s']: every job of [s] outside [ids] moved along its
    life cycle, no job appeared except [ids], the state is well formed, and with
    [cap] no worker went above its slots by placement. *)
Record store_step (cap : bool) (ids : list string) (s s' : State) : Prop := {
  ss_wf : state_wf s';
  ss_jobs id j : st_jobs s !! id = Some j → id ∉ ids →
    ∃ j', st_jobs s' !! id = Some j' ∧ rtc lifecycle j j';
  ss_new id : is_Some (st_jobs s' !! id) → is_Some (st_jobs s !! id) ∨ id ∈ ids;
  ss_within n : cap = true →
    active_on n (st_jobs s') ≤ Z.max (active_on n (st_jobs s)) (slots_of (st_nodes s') n);
}.

Lemma store_step_refl cap ids s s' :
  state_wf s' → st_jobs s' = st_jobs s → store_step cap ids s s'.
Proof.
  intros Hwf Hj. split; rewrite ?Hj; [done|by eauto using rtc_refl|by left|lia].
Qed.

Lemma store_step_jobs cap ids s0 s s' :
  st_jobs s0 = st_jobs s → store_step cap ids s0 s' → store_step cap ids s s'.
Proof. intros Hj [W J N C]. rewrite Hj in *. by split. Qed.

Lemma store_step_trans cap ids1 ids2 s1 s2 s3 :
  (∀ n, slots_of (st_nodes s2) n = slots_of (st_nodes s3) n) →
  store_step cap ids1 s1 s2 → store_step cap ids2 s2 s3 → store_step cap (ids1 ++ ids2) s1 s3.
Proof.
  intros Hsl [W1 J1 N1 C1] [W2 J2 N2 C2]. split; [done| | |].
  - intros id j Hj [H1 H2]%not_elem_of_app. destruct (J1 id j Hj H1) as (j2 & Hj2 & R1).
    destruct (J2 id j2 Hj2 H2) as (j3 & Hj3 & R2). exists j3. split; [done|]. by etrans.
  - intros id [Hs|?]%N2; [|right; by apply elem_of_app; right].
    destruct (N1 id Hs); [by left|right; by apply elem_of_app; left].
  - intros n Hc. specialize (C1 n Hc). specialize (C2 n Hc). rewrite Hsl in C1. lia.
Qed.

Lemma moves_step J s s' :
  state_wf s → job_moves J s s' →
  (∀ j j', job_ok j → J j j' → rtc lifecycle j j') →
  (∀ j j', J j j' → job_ID j' = job_ID j ∧ (job_ok j → job_ok j')) →
  store_step true [] s s'.
Proof.
  intros [Hn Hj] Hm HJ HID. pose proof (job_moves_nodes _ _ _ Hm) as HN. split.
  - split; [by rewrite HN|by eapply job_moves_wf].
  - intros id j Hid _. destruct (jm_lookup_old _ _ _ _ _ Hm Hid) as (j' & Hid' & Hc).
    exists j'. split; [done|]. apply HJ; [|done]. by destruct (Hj _ _ Hid).
  - intros id [j' Hid']. left. destruct (jm_lookup_new _ _ _ _ _ Hm Hid') as (j & Hid & _). by exists j.
  - intros n _. rewrite HN. apply (jm_within _ _ _ Hm).
Qed.

Lemma update_step cap s id job job' :
  state_wf s → st_jobs s !! id = Some job → lifecycle job job' → job_ok job' →
  (cap = true → ∀ n, occ n job' ≤ occ n job ∨ active_on n (st_jobs s) < slots_of (st_nodes s) n) →
  store_step cap [] s (s <| st_jobs := <[job_ID job' := job']> (st_jobs s) |>).
Proof.
  intros [Hn Hj] Hid Hl Hok Hocc. destruct (Hj _ _ Hid) as [HID Hok0].
  assert (job_ID job' = id) as ->.
  { pose proof (lifecycle_core _ _ Hl) as Hc. apply (f_equal core_ID) in Hc. simpl in Hc. congruence. }
  split; simpl.
  - split; [done|]. apply map_Forall_insert_2; [|done]. split; [|done].
    pose proof (lifecycle_core _ _ Hl) as Hc. apply (f_equal core_ID) in Hc. simpl in Hc. congruence.
  - intros id' j Hid' _. destruct (decide (id' = id)) as [->|Hne].
    + exists job'. rewrite lookup_insert_eq. split; [done|]. simplify_eq. by apply rtc_once.
    + exists j. rewrite lookup_insert_ne by done. by split.
  - intros id'. destruct (decide (id' = id)) as [->|Hne]; [by left; exists job|].
    rewrite lookup_insert_ne by done. by left.
  - intros n Hc. rewrite (active_on_update n _ _ job) by done.
    pose proof (occ_bounds n job). pose proof (occ_bounds n job'). destruct (Hocc Hc n); lia.
Qed.

Lemma insert_step cap s job n0 :
  state_wf s → job_ok job →
  (cap = true → ∀ n, occ n job = 0 ∨ (n = n0 ∧ active_on n (st_jobs s) < slots_of (st_nodes s) n)) →
  store_step cap [job_ID job] s (s <| st_jobs := <[job_ID job := job]> (st_jobs s) |>).
Proof.
  intros [Hn Hj] Hok Hocc. split; simpl.
  - split; [done|]. by apply map_Forall_insert_2.
  - intros id j Hid Hne%not_elem_of_cons. exists j. rewrite lookup_insert_ne by naive_solver. by split.
  - intros id. destruct (decide (id = job_ID job)) as [->|Hne]; [right; left|].
    rewrite lookup_insert_ne by done. by left.
  - intros n Hc. pose proof (occ_bounds n job).
    assert (active_on n (<[job_ID job := job]> (st_jobs s)) ≤ active_on n (st_jobs s) + occ n job).
    { destruct (st_jobs s !! job_ID job) as [old|] eqn:E.
      - rewrite (active_on_update n _ _ old) by done. pose proof (occ_bounds n old). lia.
      - rewrite active_on_insert by done. lia. }
    destruct (Hocc Hc n) as [?|[-> ?]]; lia.
Qed.

(** ** Every operation is a step *)

Section operations.
Context `{World} `{Codecs}.

Lemma schedule_store_step s now :
  state_wf s → store_step true [] s (scheduleQueuedJobsLocked s now).
Proof.
  intros Hwf. eapply moves_step; [done|apply scheduleQueuedJobs_moves; apply Hwf|
    apply sched_change_lifecycle|apply sched_change_ID].
Qed.
Lemma fail_store_step s node now reason :
  state_wf s → store_step true [] s (failActiveJobsForWorkerLocked s node now reason).
Proof.
  intros Hwf. eapply moves_step; [done|apply failActiveJobs_moves; apply Hwf|
    apply fail_change_lifecycle|apply fail_change_ID].
Qed.
Lemma schedule_nodes s now :
  nodes_wf (st_nodes s) → st_nodes (scheduleQueuedJobsLocked s now) = st_nodes s.
Proof. intros Hwf. by apply (job_moves_nodes _ _ _ (scheduleQueuedJobs_moves now s Hwf)). Qed.
Lemma fail_nodes s node now reason :
  nodes_wf (st_nodes s) → st_nodes (failActiveJobsForWorkerLocked s node now reason) = st_nodes s.
Proof. intros Hwf. by apply (job_moves_nodes _ _ _ (failActiveJobs_moves node now reason s Hwf)). Qed.

Lemma state_wf_nodes s node k :
  state_wf s → node_ID node = k → k ≠ ""%string →
  state_wf (s <| st_nodes := <[k := node]> (st_nodes s) |>).
Proof. intros [Hn Hj] HID Hk. split; simpl; [|done]. by apply map_Forall_insert_2. Qed.

Lemma RegisterWorker_step s req : state_wf s → store_step true [] s (RegisterWorker s req).1.
Proof.
  intros Hwf. unfold RegisterWorker. simpl. set (s0 := s <| st_nodes := _ |>).
  apply (store_step_jobs _ _ s0); [done|]. apply schedule_store_step.
  apply state_wf_nodes; [done|done|]. by destruct (w_rand _).
Qed.

Lemma HeartbeatOp_step s hb : state_wf s → store_step true [] s (HeartbeatOp s hb).1.
Proof.
  intros Hwf. unfold HeartbeatOp.
  destruct (st_nodes s !! hb_NodeID hb) as [node|] eqn:E; [|by apply store_step_refl].
  destruct (wf_nodes s Hwf _ _ E) as [HID Hne]. simpl. set (s0 := s <| st_nodes := _ |>).
  apply (store_step_jobs _ _ s0); [done|]. apply schedule_store_step. by apply state_wf_nodes.
Qed.

Lemma markWorkerOffline_step s nodeID now reason :
  state_wf s → store_step true [] s (markWorkerOfflineLocked s nodeID now reason).1.
Proof.
  intros Hwf. unfold markWorkerOfflineLocked.
  destruct (st_nodes s !! nodeID) as [node|] eqn:E; [|by apply store_step_refl].
  destruct (wf_nodes s Hwf _ _ E) as [HID Hne]. simpl. set (s0 := s <| st_nodes := _ |>).
  apply (store_step_jobs _ _ s0); [done|]. apply fail_store_step. by apply state_wf_nodes.
Qed.

Lemma create_job_step s t now req :
  state_wf s → cr_MaxAttempts req < 2^63 →
  store_step true [newID "job" (w_rand ("job" :: t))] s (create_job s t now req).1 ∧
  st_nodes (create_job s t now req).1 = st_nodes s.
Proof.
  intros Hwf Hmax. pose proof (normalizeMaxAttempts_range _ Hmax) as Hr. unfold create_job.
  set (job := mkJob _ _ _ _ _ _ _ _ _ _ _ _ _ _ _ _ _ _ _).
  set (waiting_job := job <| job_LastFailure := waitingReasonLocked _ _ _ _ |>).
  assert (Hwait : ∀ j', job_ID j' = job_ID job → job_Status j' = StatusQueued → job_Attempts j' = 0 →
      job_MaxAttempts j' = job_MaxAttempts job →
      store_step true [job_ID job] s (s <| st_jobs := <[job_ID j' := j']> (st_jobs s) |>)).
  { intros j' HID Hst Ha HM. rewrite <- HID. apply (insert_step _ _ _ ""); [done| |].
    - split; rewrite ?Ha, ?HM; simpl; try lia. by rewrite (not_active_status j' StatusQueued).
    - intros _ n. left. apply occ_zero. by rewrite (not_active_status j' StatusQueued). }
  assert (Hplace : ∀ w, w ≠ ""%string → active_on w (st_jobs s) < slots_of (st_nodes s) w →
      let j' := job <| job_AssignedTo := w |> <| job_Status := StatusScheduled |> <| job_Attempts := 1 |> in
      store_step true [job_ID job] s (s <| st_jobs := <[job_ID j' := j']> (st_jobs s) |>)).
  { intros w Hw Hroom j'. apply (insert_step _ _ j' w); [done|by split; simpl; try lia|].
    intros _ n. destruct (decide (n = w)) as [->|Hne]; [by right|left]. apply occ_other. simpl. congruence. }
  destruct (cr_NoAutoAssign req); [split; [by apply Hwait|done]|].
  case_bool_decide as Ha; simpl.
  - set (w := pickWorkerLocked s t _). case_bool_decide as Hw; simpl; (split; [|done]); [by apply Hwait|].
    apply Hplace; [done|]. by apply (pick_room s t (cr_Requirements req) ∅ (wf_nodes s Hwf)).
  - destruct (st_nodes s !! cr_AssignedTo req) as [node|] eqn:E; simpl; [|split; [by apply Hwait|done]].
    destruct (nodeCanAcceptJobLocked _ _ _ _ _) eqn:Hacc; simpl; (split; [|done]); [|by apply Hwait].
    apply Hplace; [done|]. unfold nodeCanAcceptJobLocked in Hacc.
    rewrite !andb_true_iff, Z.ltb_lt, activeJobs_spec, slots_derive, deriveNodeStatus_ID in Hacc.
    destruct (wf_nodes s Hwf _ _ E) as [HID _]. unfold slots_of. rewrite E, <- HID. apply Hacc.
Qed.

(** The requests' [MaxAttempts] are Go [int]s. *)
Definition op_ok (op : store_op) : Prop :=
  match op with
  | OpCreateJob req => cr_MaxAttempts req < 2^63
  | OpCreateJobsBatch reqs => Forall (λ req, cr_MaxAttempts req < 2^63) reqs
  | _ => True
  end.

Lemma create_loop_step s i reqs :
  state_wf s → Forall (λ req, cr_MaxAttempts req < 2^63) reqs →
  store_step true (imap (λ k _, newID "job" (w_rand ["job"; "create"; pretty (i + k)%nat])) reqs)
    s (create_loop s i reqs).1 ∧
  st_nodes (create_loop s i reqs).1 = st_nodes s.
Proof.
  intros Hwf Hr. revert s i Hwf. induction Hr as [|req reqs Hreq _ IH]; intros s i Hwf; cbn [create_loop].
  { split; [by apply store_step_refl|done]. }
  destruct (create_job_step s ["create"; pretty i] (w_clock ["now"]) req Hwf Hreq) as [H1 N1].
  destruct (create_job _ _ _ _) as [s1 job]. simpl in H1, N1.
  destruct (IH s1 (S i) (ss_wf _ _ _ _ H1)) as [H2 N2].
  destruct (create_loop s1 (S i) reqs) as [s2 created]. simpl in *. split; [|congruence].
  rewrite Nat.add_0_r.
  rewrite (imap_ext _ (λ k _, newID "job" (w_rand ["job"; "create"; pretty (S i + k)%nat])))
    by (intros; simpl; by rewrite Nat.add_succ_r).
  apply (store_step_trans _ [_] _ _ s1); [|done|done]. intros n. by rewrite N2.
Qed.

Lemma occ_same n j j' :
  job_AssignedTo j' = job_AssignedTo j → (is_active j' = true → is_active j = true) → occ n j' ≤ occ n j.
Proof.
  intros Hto Hact. unfold occ. destruct (decide (occupies n j')) as [[H1 H2]|]; case_decide as Hj; try lia.
  destruct Hj. split; [congruence|auto].
Qed.

Lemma job_ok_keep j j' :
  job_ok j → job_Attempts j' = job_Attempts j → job_MaxAttempts j' = job_MaxAttempts j →
  job_AssignedTo j' = job_AssignedTo j → (is_active j' = true → is_active j = true) →
  (job_Status j' = StatusQueued → job_Status j = StatusQueued) → job_ok j'.
Proof. intros [] E1 E2 E3 H1 H2. split; rewrite ?E1, ?E2, ?E3; auto. Qed.

Lemma active_cases j : is_active j = true ↔ job_Status j = StatusScheduled ∨ job_Status j = StatusRunning.
Proof. unfold is_active. by rewrite orb_true_iff, !bool_decide_eq_true. Qed.

(** Changing a job without moving it: enough to give the transition. *)
Lemma quiet_update s id job job' :
  state_wf s → st_jobs s !! id = Some job → lifecycle job job' →
  job_Attempts job' = job_Attempts job → job_AssignedTo job' = job_AssignedTo job →
  (is_active job' = true → is_active job = true) →
  (job_Status job' = StatusQueued → job_Status job = StatusQueued) →
  store_step true [] s (s <| st_jobs := <[job_ID job' := job']> (st_jobs s) |>).
Proof.
  intros Hwf Hid Hl Ha Hto Hact Hq. apply (update_step _ _ id job); [done..| |].
  - destruct (wf_jobs s Hwf _ _ Hid) as [_ Hok]. eapply job_ok_keep; try done.
    pose proof (lifecycle_core _ _ Hl) as Hc. by apply (f_equal core_MaxAttempts) in Hc.
  - intros _ n. left. by apply occ_same.
Qed.

Lemma NextJob_step s nodeID : state_wf s → store_step true [] s (NextJobForWorker s nodeID).1.
Proof.
  intros Hwf. unfold NextJobForWorker.
  assert (Hl : Forall (λ j, ∃ k, st_jobs s !! k = Some j) (range_values ["next"] (st_jobs s)))
    by (apply Forall_forall; intros j; by rewrite range_values_elem).
  induction Hl as [|job l [k Hk] _ IH]; cbn [next_loop]; [by apply store_step_refl|].
  destruct (_ || _) eqn:Hg; [done|]. simpl.
  rewrite orb_false_iff, !bool_decide_eq_false in Hg. destruct Hg as [_ Hst%dec_stable].
  set (job' := job <| job_Status := _ |> <| job_StartedAt := _ |> <| job_UpdatedAt := _ |>).
  apply (quiet_update s k job job'); [done|done| |done|done| |done].
  - apply lc_status; [done|done|]. by apply t_start.
  - intros _. apply active_cases. by left.
Qed.

Lemma UpdateJobProgress_step s jobID req : state_wf s → store_step true [] s (UpdateJobProgress s jobID req).1.
Proof.
  intros Hwf. unfold UpdateJobProgress.
  destruct (st_jobs s !! jobID) as [job|] eqn:Hid; [|by apply store_step_refl].
  destruct (_ || _) eqn:Hg; [by apply store_step_refl|]. simpl.
  rewrite orb_false_iff, !bool_decide_eq_false in Hg. destruct Hg as [_ Hst%dec_stable].
  set (job' := job <| job_Result := _ |> <| job_UpdatedAt := _ |>).
  apply (quiet_update s jobID job job'); [done|done| |done..].
  apply lc_status; [done|done|]. by apply t_progress.
Qed.

Lemma cancelable_cases j : jobCanBeCanceled j = true ↔ job_Status j = StatusQueued ∨ is_active j = true.
Proof.
  unfold jobCanBeCanceled, is_active. rewrite !orb_true_iff, !bool_decide_eq_true. tauto.
Qed.

Lemma CancelJob_step s jobID : state_wf s → store_step true [] s (CancelJob s jobID).1.
Proof.
  intros Hwf. unfold CancelJob.
  destruct (st_jobs s !! jobID) as [job|] eqn:Hid; [|by apply store_step_refl].
  destruct (jobCanBeCanceled job) eqn:Hc; simpl; [|by apply store_step_refl].
  set (job' := job <| job_Status := _ |> <| job_Error := _ |> <| job_LastFailure := _ |>
                   <| job_UpdatedAt := _ |> <| job_FinishedAt := _ |>).
  set (s1 := s <| st_jobs := _ |>).
  assert (H1 : store_step true [] s s1).
  { apply (quiet_update s jobID job job'); [done|done| |done|done|done|done].
    apply lc_status; [done|done|]. by apply t_cancel. }
  apply (store_step_trans _ [] [] _ s1); [|done|apply schedule_store_step, H1].
  intros n. by rewrite schedule_nodes by apply H1.
Qed.

Lemma CompleteCoordinatorJob_step s jobID text err :
  state_wf s → store_step true [] s (CompleteCoordinatorJob s jobID text err).1.
Proof.
  intros Hwf. unfold CompleteCoordinatorJob.
  destruct (st_jobs s !! jobID) as [job|] eqn:Hid; [|by apply store_step_refl].
  case_bool_decide as Ht; [by apply store_step_refl|]. cbv zeta. cbn [fst].
  match goal with |- context [<[job_ID ?j := ?j]>] => set (job' := j) end.
  assert (Hst : job_Status job' = StatusSucceeded ∨ job_Status job' = StatusFailed)
    by (unfold job'; destruct (negb _); [by right|by left]).
  assert (Hsame : core job' = core job ∧ job_CDIPState job' = job_CDIPState job ∧
            job_AssignedTo job' = job_AssignedTo job ∧ job_Attempts job' = job_Attempts job)
    by (unfold job'; by destruct (negb _)).
  destruct Hsame as (? & ? & ? & ?).
  apply (quiet_update s jobID job job'); try done.
  - by apply lc_coordinator.
  - intros Ha. exfalso. apply active_cases in Ha. naive_solver congruence.
  - intros Ha. naive_solver congruence.
Qed.

(** What a stage transition does to the job. *)
Lemma stage_job_spec job next detail now :
  let job' := stage_job job next detail now in
  core job' = core job ∧ job_CDIPState job' = next ∧ job_AssignedTo job' = job_AssignedTo job ∧
  ((job_Attempts job' = job_Attempts job ∧ job_Status job' = job_Status job) ∨
   (job_Attempts job' = job_Attempts job ∧ terminal job') ∨
   (job_Status job = StatusQueued ∧ job_Status job' = StatusScheduled ∧ next = StagePreparing ∧
    job_AssignedTo job ≠ ""%string ∧
    job_Attempts job' = if job_Attempts job =? 0 then 1 else job_Attempts job)).
Proof.
  unfold stage_job, terminal.
  destruct next; simpl; try (split_and!; try done; right; left; split; [done|set_solver]);
    try (split_and!; try done; by left).
  destruct (bool_decide (job_Status job = _)) eqn:Hs; simpl; [|split_and!; try done; by left].
  destruct (blank (job_AssignedTo job)) eqn:Hb; simpl; [split_and!; try done; by left|].
  apply bool_decide_eq_true in Hs. apply blank_false_ne in Hb.
  destruct (job_Attempts job =? 0) eqn:Ha; (split_and!; try done; right; right; by split_and!).
Qed.

Lemma stage_job_lifecycle job next detail now :
  job_ok job → stage_kind job → CanTransition (stage_current job) next = true →
  lifecycle job (stage_job job next detail now) ∧ job_ok (stage_job job next detail now).
Proof.
  intros [Ha Hm Hact Hq] Hk Hcan.
  destruct (stage_job_spec job next detail now) as (Hc & Hn & Hto & Hst).
  set (job' := stage_job job next detail now) in *. clearbody job'. subst next.
  assert (HM : job_MaxAttempts job' = job_MaxAttempts job) by (by apply (f_equal core_MaxAttempts) in Hc).
  split.
  - apply lc_stage; [done|done|done|done| |].
    + destruct Hst as [[-> _]|[[-> _]|(_ & _ & _ & _ & ->)]]; [lia|lia|].
      destruct (Z.eqb_spec (job_Attempts job) 0); lia.
    + destruct Hst as [[_ ?]|[[_ ?]|(? & ? & ? & _)]]; eauto.
  - destruct Hst as [[E1 E2]|[[E1 E2]|(E0 & E1 & E2 & E3 & E4)]].
    + eapply (job_ok_keep job); [by split|done..| |by rewrite E2].
      unfold is_active. by rewrite E2.
    + destruct (terminal_not_cancelable _ E2) as [Hcb Hina].
      split; rewrite ?E1, ?HM, ?Hto; try done; [by rewrite Hina|].
      intros Hqu. unfold jobCanBeCanceled in Hcb. by rewrite Hqu in Hcb.
    + destruct (Z.eqb_spec (job_Attempts job) 0);
        (split; rewrite ?E4, ?HM, ?Hto; try lia; [|congruence]; intros _; split; [done|lia]).
Qed.

(** Only the start of a stage hands its job to a worker. *)
Lemma stage_job_occ job next detail now n :
  next ≠ StagePreparing → occ n (stage_job job next detail now) ≤ occ n job.
Proof.
  intros Hnext. destruct (stage_job_spec job next detail now) as (_ & _ & Hto & Hst). apply occ_same; [done|].
  destruct Hst as [[_ E]|[[_ E]|(_ & _ & E & _)]]; [|by destruct (terminal_not_cancelable _ E) as [_ ->]|done].
  unfold is_active. by rewrite E.
Qed.

(** Placement happens in every operation but the start of a stage, which puts a
    stage job on its planned node without looking at its slots. *)
Definition places_within_slots (op : store_op) : bool :=
  match op with OpUpdateCDIPStageState _ next _ => negb (bool_decide (next = StagePreparing)) | _ => true end.

Lemma UpdateCDIPStageState_step s jobID next detail :
  state_wf s → store_step (negb (bool_decide (next = StagePreparing))) [] s (UpdateCDIPStageState s jobID next detail).1.
Proof.
  intros Hwf. unfold UpdateCDIPStageState. set (cap := negb _).
  destruct (st_jobs s !! jobID) as [job|] eqn:Hid; [|by apply store_step_refl].
  case_bool_decide as Ht; [by apply store_step_refl|].
  destruct (CanTransition _ _) eqn:Hcan; simpl; [|by apply store_step_refl].
  destruct (stage_job_lifecycle job next detail (w_clock ["now"])) as [Hl Hok];
    [by destruct (wf_jobs s Hwf _ _ Hid)|done|done|].
  apply (update_step _ _ jobID job _ Hwf Hid Hl Hok). unfold cap. case_bool_decide; [done|]. intros _ n. left. by apply stage_job_occ.
Qed.

Lemma append_assistant_same s job now :
  st_jobs (appendAssistantMessageForJobLocked s job now) = st_jobs s ∧
  st_nodes (appendAssistantMessageForJobLocked s job now) = st_nodes s.
Proof.
  unfold appendAssistantMessageForJobLocked. case_match; [done|].
  destruct (generateJobConversationModelAndPrompt job) as [[c m] p].
  repeat case_match; done.
Qed.

Lemma cleanup_same s job :
  let '(s', r) := cleanupModelPersistenceForDeleteJobLocked s job in
  st_jobs s' = st_jobs s ∧ st_nodes s' = st_nodes s ∧
  ∀ job', r = Ok job' → ∃ text, job' = job <| job_Result := text |>.
Proof.
  unfold cleanupModelPersistenceForDeleteJobLocked.
  assert (Hid : ∀ job', Ok (E := panic) job = Ok job' → ∃ text, job' = job <| job_Result := text |>)
    by (intros ? [= <-]; exists (job_Result job); by destruct job).
  assert (Hr : ∀ m c job', (r ← withDeleteCleanupResult (job_Result job) m c;
      Ok (E := panic) (job <| job_Result := r |>)) = Ok job' → ∃ text, job' = job <| job_Result := text |>).
  { intros m c job' (text & _ & [= <-])%bind_Ok. by exists text. }
  repeat case_match; simplify_eq; simpl; split_and!; eauto.
Qed.

Lemma CompleteJob_step s jobID req : state_wf s → store_step true [] s (CompleteJob s jobID req).1.
Proof.
  intros Hwf. unfold CompleteJob.
  destruct (st_jobs s !! jobID) as [job|] eqn:Hid; [|by apply store_step_refl].
  case_bool_decide as Hto; [by apply store_step_refl|].
  case_bool_decide as Hcan; [by apply store_step_refl|].
  case_bool_decide as Hrun; [by apply store_step_refl|].
  set (job1 := job <| job_Result := _ |> <| job_Error := _ |> <| job_UpdatedAt := _ |>).
  destruct (wf_jobs s Hwf _ _ Hid) as [HID Hok].
  assert (Hact : is_active job = true) by (apply active_cases; by right).
  assert (Hok1 : job_ok job1) by by eapply job_ok_keep.
  (* the stored job, before the queued jobs are placed *)
  assert (Hstore : ∀ s1 job', st_jobs s1 = st_jobs s → st_nodes s1 = st_nodes s →
    lifecycle job job' → job_ok job' →
    (∀ n, occ n job' ≤ occ n job ∨ room s n) →
    store_step true [] s (scheduleQueuedJobsLocked
      (s1 <| st_jobs := <[job_ID job' := job']> (st_jobs s1) |>) (w_clock ["now"]))).
  { intros s1 job' Ej En Hl Hok' Hocc.
    assert (Hwf1 : state_wf s1) by (destruct Hwf; split; by rewrite ?En, ?Ej).
    assert (H1 : store_step true [] s1 (s1 <| st_jobs := <[job_ID job' := job']> (st_jobs s1) |>)).
    { apply (update_step _ _ jobID job); [done|congruence|done|done|].
      intros _ n. destruct (Hocc n) as [|[]]; [by left|right]. by rewrite Ej, En. }
    apply (store_step_jobs _ _ s1); [done|].
    eapply (store_step_trans _ [] []); [|exact H1|apply schedule_store_step, H1].
    intros n. by rewrite schedule_nodes by apply H1. }
  destruct (negb _).
  - destruct (rescheduleOrFail_change s ["complete"] job1 (comp_NodeID req) (w_clock ["now"])
      (comp_Error req) (wf_nodes s Hwf)) as [Hm Hocc]; [by split|].
    simpl. apply Hstore; [done|done| |by eapply fail_moved_ok|done].
    by apply (fail_moved_lifecycle (comp_NodeID req) job).
  - pose proof (append_assistant_same s
      (job1 <| job_Status := StatusSucceeded |> <| job_FinishedAt := w_clock ["now"] |>) (w_clock ["now"]))
      as [Ej1 En1].
    set (s1 := appendAssistantMessageForJobLocked _ _ _) in *.
    set (job2 := job1 <| job_Status := StatusSucceeded |> <| job_FinishedAt := w_clock ["now"] |>).
    pose proof (cleanup_same s1 job2) as Hc.
    destruct (cleanupModelPersistenceForDeleteJobLocked s1 job2) as [s2 [job3|p]]; simpl.
    + destruct Hc as (Ej2 & En2 & Htext). destruct (Htext job3 eq_refl) as [text ->].
      apply Hstore; [congruence|congruence| | |].
      * apply lc_status; [done|done|]. by apply t_succeed.
      * eapply (job_ok_keep job); done.
      * intros n. left. by apply occ_same.
    + destruct Hc as (Ej2 & En2 & _). apply store_step_refl; [|congruence].
      destruct Hwf; split; by rewrite ?En2, ?En1, ?Ej2, ?Ej1.
Qed.

(** A node the listing finds timed out. *)
Definition timed_out (s : State) (now : Time) (node : Node) : Prop :=
  node_Role node = NodeRoleWorker ∧ node_Status node = NodeStatusOnline ∧
  st_heartbeatTimeout s < time_Sub now (node_UpdatedAt node).

Lemma timed_out_derive s now node :
  bool_decide (node_Status node = NodeStatusOnline)
    && bool_decide (node_Status (deriveNodeStatus s node now) = NodeStatusOffline) = true
  ↔ timed_out s now node.
Proof.
  rewrite andb_true_iff, !bool_decide_eq_true. unfold timed_out.
  destruct (deriveNodeStatus_cases s node now) as [E|(? & ? & ? & E)]; [|rewrite E; simpl; naive_solver].
  rewrite E. split; [intros [-> [=]]|]. intros (Hr & Hs & Ht). exfalso. revert E.
  unfold deriveNodeStatus. rewrite Hr, Hs. simpl. rewrite (proj2 (Z.ltb_lt _ _) Ht).
  intros E. apply (f_equal node_Status) in E. simpl in E. congruence.
Qed.

(** One round of [Nodes], on a well-formed state. *)
Lemma nodes_step_spec now s l id :
  state_wf s →
  let s' := (nodes_step now (s, l) id).1 in
  store_step true [] s s' ∧ (∀ n, slots_of (st_nodes s) n = slots_of (st_nodes s') n) ∧
  st_heartbeatTimeout s' = st_heartbeatTimeout s ∧
  (∀ n, n ≠ id → st_nodes s' !! n = st_nodes s !! n ∧
     (not_online s n → active_on n (st_jobs s') ≤ active_on n (st_jobs s))) ∧
  (∀ node, st_nodes s !! id = Some node → timed_out s now node →
     not_online s' id ∧ active_on id (st_jobs s') = 0).
Proof.
  intros Hwf. unfold nodes_step. destruct (st_nodes s !! id) as [node|] eqn:E; cbv zeta.
  2:{ split_and!; try done. by apply store_step_refl. }
  destruct (_ && _) eqn:Ht.
  2:{ simpl. split_and!; try done; [by apply store_step_refl|].
      intros node' [= <-] Hto. apply timed_out_derive in Hto. congruence. }
  apply timed_out_derive in Ht. destruct (wf_nodes s Hwf _ _ E) as [HID Hne]. simpl.
  set (node' := (deriveNodeStatus s node now) <| node_UpdatedAt := now |>).
  assert (HID' : node_ID (deriveNodeStatus s node now) = id) by (by rewrite deriveNodeStatus_ID).
  rewrite HID'. set (s0 := s <| st_nodes := _ |>).
  assert (Hwf0 : state_wf s0) by (by apply state_wf_nodes).
  pose proof (failActiveJobs_moves id now "worker heartbeat timed out" s0 (wf_nodes _ Hwf0)) as Hm.
  pose proof (job_moves_nodes _ _ _ Hm) as HN.
  assert (Hoff : node_Status node' = NodeStatusOffline).
  { simpl. destruct Ht as (Hr & Hs & Hlt). unfold deriveNodeStatus. rewrite Hr, Hs. simpl.
    by rewrite (proj2 (Z.ltb_lt _ _) Hlt). }
  split_and!.
  - apply (store_step_jobs _ _ s0); [done|]. by apply fail_store_step.
  - intros n. rewrite HN. unfold slots_of, s0. simpl. destruct (decide (n = id)) as [->|Hn].
    + rewrite lookup_insert_eq, E. unfold workerJobSlots, node'. simpl. by rewrite deriveNodeStatus_Resources.
    + by rewrite lookup_insert_ne.
  - by rewrite (jm_state _ _ _ Hm).
  - intros n Hn. rewrite HN. unfold s0 at 1. simpl. rewrite lookup_insert_ne by done. split; [done|].
    intros Hno. apply (jm_offline _ _ _ Hm). intros x. unfold s0. simpl.
    rewrite lookup_insert_ne by done. apply Hno.
  - intros x [= <-] _. split.
    + intros x. rewrite HN. unfold s0. simpl. rewrite lookup_insert_eq. intros [= <-]. by rewrite Hoff.
    + by apply failActiveJobs_clears, Hwf0.
Qed.

Lemma nodes_fold_spec now ks s l :
  state_wf s →
  let s' := (foldl (nodes_step now) (s, l) ks).1 in
  store_step true [] s s' ∧ (∀ n, slots_of (st_nodes s) n = slots_of (st_nodes s') n) ∧
  st_heartbeatTimeout s' = st_heartbeatTimeout s ∧
  (∀ n, n ∉ ks → st_nodes s' !! n = st_nodes s !! n ∧
     (not_online s n → active_on n (st_jobs s') ≤ active_on n (st_jobs s))).
Proof.
  revert s l. induction ks as [|k ks IH]; intros s l Hwf; cbn [foldl].
  { split_and!; try done. by apply store_step_refl. }
  destruct (nodes_step_spec now s l k Hwf) as (H1 & Hs1 & Ht1 & Hn1 & _).
  destruct (nodes_step now (s, l) k) as [s1 l1]. simpl in *.
  destruct (IH s1 l1 (ss_wf _ _ _ _ H1)) as (H2 & Hs2 & Ht2 & Hn2).
  split_and!; [by eapply (store_step_trans _ [] [])|congruence|congruence|].
  intros n [Hk Hks]%not_elem_of_cons. destruct (Hn1 n Hk) as [E1 A1], (Hn2 n Hks) as [E2 A2].
  split; [congruence|]. intros Hno. etrans; [apply A2|by apply A1].
  intros x. rewrite E1. apply Hno.
Qed.

Lemma Nodes_step s : state_wf s → store_step true [] s (Nodes s).1.
Proof. intros Hwf. by apply (nodes_fold_spec (w_clock ["now"]) _ s []). Qed.

Lemma conversation_step s op :
  state_wf s → st_jobs (exec s op) = st_jobs s → st_nodes (exec s op) = st_nodes s →
  store_step (places_within_slots op) (created_ids op) s (exec s op).
Proof.
  intros [Hn Hj] Ej En. apply store_step_refl; [|done]. split; by rewrite ?Ej, ?En.
Qed.

Lemma exec_step s op :
  state_wf s → op_ok op → store_step (places_within_slots op) (created_ids op) s (exec s op).
Proof.
  intros Hwf Hop. destruct op; simpl in *.
  - by apply RegisterWorker_step.
  - by apply HeartbeatOp_step.
  - by apply markWorkerOffline_step.
  - apply (conversation_step s (OpPutBenchmark res)); [done|..];
      simpl; unfold PutBenchmark; by case_match.
  - apply (conversation_step s (OpPutRPCHealth update)); [done|..];
      simpl; unfold PutRPCHealth; by case_match.
  - by apply create_job_step.
  - by apply (create_loop_step s 0 requests).
  - by apply NextJob_step.
  - by apply UpdateJobProgress_step.
  - by apply UpdateCDIPStageState_step.
  - by apply CompleteCoordinatorJob_step.
  - by apply CompleteJob_step.
  - by apply CancelJob_step.
  - by apply Nodes_step.
  - apply (conversation_step s (OpAppendConversationMessage id modelID nodeID systemPrompt message)); [done|..];
      simpl; unfold AppendConversationMessage; repeat case_match; by simplify_eq/=.
  - apply (conversation_step s (OpDeleteConversation id)); [done|..];
      simpl; unfold DeleteConversation; by case_match.
  - apply (conversation_step s (OpDeleteMemory id)); [done|..];
      simpl; unfold DeleteMemory; by case_match.
  - apply (conversation_step s (OpUpsertMemory memory)); [done|..];
      simpl; unfold UpsertMemory; repeat case_match; by simplify_eq/=.
  - apply (conversation_step s (OpDeleteMemoriesByModel modelID)); [done|..];
      simpl; unfold DeleteMemoriesByModel; repeat case_match; by simplify_eq/=.
Qed.
End operations.

(** ** Consequences of the life cycle *)

Lemma terminal_no_transition j j' : transition j j' → ¬ terminal j.
Proof.
  intros T Hterm. destruct (terminal_not_cancelable _ Hterm) as [Hc Ha].
  unfold terminal in Hterm. rewrite !elem_of_cons, elem_of_nil in Hterm.
  destruct T as [[E _]|[E _]|E|E|E|E|E|E|E]; try congruence; destruct_or! Hterm; congruence || done.
Qed.

Lemma rtc_lifecycle_terminal j j' :
  rtc lifecycle j j' → terminal j → ¬ stage_kind j → ¬ coordinator_kind j → j' = j.
Proof.
  intros Hr Ht Hs Hc. destruct Hr as [|j j1 j' Hl _]; [done|].
  destruct Hl as [_ _ T| |]; [by apply terminal_no_transition in T|done..].
Qed.

Lemma core_kinds j j' : core j' = core j →
  job_ID j' = job_ID j ∧ job_MaxAttempts j' = job_MaxAttempts j ∧
  (stage_kind j' ↔ stage_kind j) ∧ (coordinator_kind j' ↔ coordinator_kind j).
Proof.
  unfold stage_kind, coordinator_kind. intros H. injection H as -> -> _ _ _ -> _ _ _. done.
Qed.

Lemma lifecycle_attempts j j' : lifecycle j j' → job_Attempts j ≤ job_Attempts j'.
Proof. intros [_ _ T|? ? ? ? ? ?|]; [|done|lia]. destruct T; lia. Qed.
Lemma rtc_lifecycle_attempts j j' : rtc lifecycle j j' → job_Attempts j ≤ job_Attempts j'.
Proof. induction 1 as [|j1 j2 j3 H _ IH]; [lia|]. apply lifecycle_attempts in H. lia. Qed.

(** The job is handed to a worker: it is scheduled now and was not, or was
    scheduled on another worker. *)
Definition placed (j j' : Job) : Prop :=
  job_Status j' = StatusScheduled ∧
  (job_Status j ≠ StatusScheduled ∨ job_AssignedTo j' ≠ job_AssignedTo j).

(** Each placement uses up an attempt. *)
Lemma placed_attempts j j' :
  rtc lifecycle j j' → ¬ stage_kind j → placed j j' → job_Attempts j < job_Attempts j'.
Proof.
  intros Hr Hk [Hst Hpl]. apply rtc_inv_r in Hr as [->|(j1 & Hr & Hl)]; [naive_solver|].
  pose proof (rtc_lifecycle_attempts _ _ Hr) as Hle.
  assert (¬ stage_kind j1) as Hk1 by (by rewrite (proj1 (proj2 (proj2 (core_kinds _ _ (rtc_lifecycle_core _ _ Hr)))))).
  destruct Hl as [_ _ T| |_ _ _ _ _ [?|?]]; [|done|congruence..].
  destruct T as [_ [? _] _|_ _ _ ?|? ? _ _|? ? _ _|? ? _ _|_ _ _ _ _ ?|_ [? _] _ _|_ ? _ _ _|_ ? _ _];
    congruence || lia.
Qed.

(** ** Reachable states and runs *)

Section runs.
Context `{Codecs}.

Inductive reachable : State → Prop :=
  | reachable_init now : reachable (NewState now)
  | reachable_step (W : World) s op : reachable s → op_ok op → reachable (exec s op).

Lemma reachable_state_wf s : reachable s → state_wf s.
Proof.
  induction 1 as [now|W s op _ IH Hop]; [by split; apply map_Forall_empty|].
  by apply (exec_step s op IH Hop).
Qed.

(** The states an execution goes through after [s]. *)
Fixpoint states_of (s : State) (l : list (World * store_op)) : list State :=
  match l with
  | [] => []
  | (W, op) :: l => let s' := exec s op in s' :: states_of s' l
  end.

(** The number of times the job [id] is handed to a worker along a run. *)
Fixpoint placements (id : string) (s : State) (states : list State) : Z :=
  match states with
  | [] => 0
  | s' :: states =>
      placements id s' states +
      match st_jobs s !! id, st_jobs s' !! id with
      | Some j, Some j' =>
          if bool_decide (job_Status j' = StatusScheduled)
             && (bool_decide (job_Status j ≠ StatusScheduled)
                 || bool_decide (job_AssignedTo j' ≠ job_AssignedTo j)) then 1 else 0
      | _, _ => 0
      end
  end.

Lemma placements_attempts id s l j :
  state_wf s → Forall (λ o, op_ok o.2 ∧ id ∉ @created_ids o.1 o.2) l →
  st_jobs s !! id = Some j → ¬ stage_kind j →
  job_Attempts j + placements id s (states_of s l) ≤ job_MaxAttempts j.
Proof.
  intros Hwf Hl. revert s j Hwf. induction Hl as [|[W op] l [Hop Hnew] _ IH]; intros s j Hwf Hj Hk; simpl.
  { destruct (wf_jobs s Hwf _ _ Hj) as [_ []]. lia. }
  destruct (exec_step s op Hwf Hop) as [Hwf' Hstep _ _].
  destruct (Hstep id j Hj Hnew) as (j' & Hj' & Hr). rewrite Hj, Hj'.
  destruct (core_kinds _ _ (rtc_lifecycle_core _ _ Hr)) as (_ & HM & Hks & _).
  specialize (IH _ j' Hwf' Hj'). rewrite Hks, HM in IH. specialize (IH Hk).
  pose proof (rtc_lifecycle_attempts _ _ Hr).
  destruct (_ && _) eqn:Hp; [|lia].
  rewrite andb_true_iff, orb_true_iff, !bool_decide_eq_true in Hp.
  pose proof (placed_attempts _ _ Hr Hk Hp). lia.
Qed.

(** ** Properties *)

(** C1 (refinement). The store implements the life cycle: whatever operation
    runs, each job that existed before exists after and has moved along
    [lifecycle] only (its identity, type, input, requirements and retry limit
    unchanged), and no job appears but those the operation creates. *)
Theorem store_refines_lifecycle (W : World) (s : State) (op : store_op) :
  reachable s → op_ok op →
  (∀ id j, st_jobs s !! id = Some j → id ∉ created_ids op →
     ∃ j', st_jobs (exec s op) !! id = Some j' ∧ rtc lifecycle j j') ∧
  (∀ id, is_Some (st_jobs (exec s op) !! id) → is_Some (st_jobs s !! id) ∨ id ∈ created_ids op).
Proof.
  intros Hr Hop. destruct (exec_step s op (reachable_state_wf s Hr) Hop) as [_ HJ HN _]. by split.
Qed.

(** C19 (invariant). In every reachable state nodes and jobs are stored under
    their own non-empty (for nodes) identifiers, and each job's retry account
    is sound: 0 <= attempts <= limit, the limit is positive, an active job has
    a worker and at least one attempt, and a job waiting for placement has an
    attempt left. *)
Theorem reachable_states_well_formed (s : State) :
  reachable s → nodes_wf (st_nodes s) ∧ jobs_wf (st_jobs s).
Proof. intros Hr. by destruct (reachable_state_wf s Hr). Qed.

(** C18 (safety). No operation but the report that a stage is preparing puts more active jobs on
    a worker than the worker had or has slots for. *)
Theorem placement_within_slots (W : World) (s : State) (op : store_op) (n : string) :
  reachable s → op_ok op → places_within_slots op = true →
  active_on n (st_jobs (exec s op)) ≤
    Z.max (active_on n (st_jobs s)) (slots_of (st_nodes (exec s op)) n).
Proof.
  intros Hr Hop Hp. destruct (exec_step s op (reachable_state_wf s Hr) Hop) as [_ _ _ HC]. by apply HC.
Qed.

(** C38 (termination). Retries are bounded: along any run, a job other than a
    pipeline stage is handed to workers at most as many times as it has
    attempts left, so at most [MaxAttempts] times in all. *)
Theorem placements_bounded (s : State) (l : list (World * store_op)) (id : string) (j : Job) :
  reachable s → Forall (λ o, op_ok o.2 ∧ id ∉ @created_ids o.1 o.2) l →
  st_jobs s !! id = Some j → ¬ stage_kind j →
  placements id s (states_of s l) ≤ job_MaxAttempts j - job_Attempts j.
Proof.
  intros Hr Hl Hj Hk. pose proof (placements_attempts id s l j (reachable_state_wf s Hr) Hl Hj Hk). lia.
Qed.

(** (safety). A job that succeeded, failed or was canceled, and is neither a
    pipeline stage nor a coordinator job, never changes again: every later
    state of every run holds the same record. *)
Theorem terminal_jobs_never_change (s : State) (l : list (World * store_op)) (id : string) (j : Job) :
  reachable s → Forall (λ o, op_ok o.2 ∧ id ∉ @created_ids o.1 o.2) l →
  st_jobs s !! id = Some j → terminal j → ¬ stage_kind j → ¬ coordinator_kind j →
  Forall (λ s', st_jobs s' !! id = Some j) (states_of s l).
Proof.
  intros Hr Hl. revert s Hr. induction Hl as [|[W op] l [Hop Hnew] _ IH]; intros s Hr Hj Ht Hs Hc; simpl; [done|].
  destruct (exec_step s op (reachable_state_wf s Hr) Hop) as [_ Hstep _ _].
  destruct (Hstep id j Hj Hnew) as (j' & Hj' & Hlc).
  apply rtc_lifecycle_terminal in Hlc as ->; [|done..].
  constructor; [done|]. apply IH; try done. by apply reachable_step.
Qed.
End runs.

(** ** Functional behaviour of single operations *)

Section behaviour.
Context `{World} `{Codecs}.

(** (safety). Taking a worker offline: the call succeeds exactly for known
    workers; afterwards the worker is recorded offline and runs nothing, and
    each job is unchanged unless it was active there, in which case it moved to
    another worker with one more attempt, waits with an attempt left, or failed
    with none left. *)
Theorem offline_worker_releases_jobs (s : State) (nodeID : string) :
  state_wf s →
  let '(s', ok) := MarkWorkerOffline s nodeID in
  ok = bool_decide (is_Some (st_nodes s !! nodeID)) ∧
  (ok = false → s' = s) ∧
  (ok = true →
     not_online s' nodeID ∧ active_on nodeID (st_jobs s') = 0 ∧
     ∀ id, option_Forall2 (fail_change nodeID) (st_jobs s !! id) (st_jobs s' !! id)).
Proof.
  intros Hwf. unfold MarkWorkerOffline, markWorkerOfflineLocked.
  destruct (st_nodes s !! nodeID) as [node|] eqn:E.
  2:{ split_and!; [|done|done]. symmetry. apply bool_decide_eq_false. by intros [? ?]. }
  destruct (wf_nodes s Hwf _ _ E) as [HID Hne].
  set (node' := node <| node_Status := _ |> <| node_UpdatedAt := _ |>).
  set (s0 := s <| st_nodes := _ |>).
  assert (Hwf0 : state_wf s0) by (by apply state_wf_nodes).
  pose proof (failActiveJobs_moves nodeID (w_clock ["now"]) "worker went offline" s0 (wf_nodes _ Hwf0)) as Hm.
  split_and!; [|done|]; [symmetry; apply bool_decide_eq_true; by eexists|]. intros _. split_and!.
  - intros x. rewrite (job_moves_nodes _ _ _ Hm). unfold s0. simpl. rewrite lookup_insert_eq. by intros [= <-].
  - by apply failActiveJobs_clears, Hwf0.
  - apply (jm_jobs _ _ _ Hm).
Qed.

(** (safety). Listing the nodes times out every online worker whose last
    heartbeat is older than the timeout: in the state it leaves, the worker is
    not online and runs nothing, even when jobs were moved between workers that
    timed out together. *)
Theorem listing_times_out_workers (s : State) (id : string) (node : Node) :
  state_wf s → st_nodes s !! id = Some node → timed_out s (w_clock ["now"]) node →
  not_online (Nodes s).1 id ∧ active_on id (st_jobs (Nodes s).1) = 0.
Proof.
  intros Hwf Hid Hto. unfold Nodes.
  assert (id ∈ range_keys ["nodes"] (st_nodes s)) as Hin by (apply range_keys_elem; by exists node).
  pose proof (range_keys_NoDup ["nodes"] (st_nodes s)) as Hnd.
  apply list_elem_of_split in Hin as (pre & post & Hks). rewrite Hks in *.
  apply NoDup_app in Hnd as (_ & Hpre & Hpost). apply NoDup_cons in Hpost as [Hpost _].
  assert (Hpre' : id ∉ pre) by (intros Hin; by destruct (Hpre id Hin); left).
  set (now := w_clock ["now"]) in *. rewrite foldl_app. cbn [foldl].
  destruct (nodes_fold_spec now pre s [] Hwf) as (H1 & _ & T1 & N1).
  destruct (foldl (nodes_step now) (s, []) pre) as [s1 l1]. simpl in H1, T1, N1.
  destruct (nodes_step_spec now s1 l1 id (ss_wf _ _ _ _ H1)) as (H2 & _ & _ & _ & Hclr).
  destruct (nodes_step now (s1, l1) id) as [s2 l2]. simpl in H2, Hclr.
  destruct (Hclr node) as [Hoff Hact].
  { rewrite <- Hid. by apply N1. }
  { unfold timed_out in *. by rewrite T1. }
  destruct (nodes_fold_spec now post s2 l2 (ss_wf _ _ _ _ H2)) as (_ & _ & _ & N3).
  destruct (N3 id Hpost) as [E3 A3]. split.
  - intros x. rewrite E3. apply Hoff.
  - pose proof (A3 Hoff). pose proof (active_on_nonneg id (st_jobs (foldl (nodes_step now) (s2, l2) post).1)). lia.
Qed.

(** Scheduling leaves a job that is not waiting as it is. *)
Lemma schedule_keeps s now id job :
  nodes_wf (st_nodes s) → st_jobs s !! id = Some job → ¬ waiting job →
  st_jobs (scheduleQueuedJobsLocked s now) !! id = Some job.
Proof.
  intros Hwf Hid Hw.
  destruct (jm_lookup_old _ _ _ _ _ (scheduleQueuedJobs_moves now s Hwf) Hid) as (j' & Hj' & [->|[? _]]); done.
Qed.

(** The outcome a worker's report should have. *)
Inductive completion (s : State) (jobID : string) (req : CompleteRequest) (job : Job) :
    State → result panic (option Job) → Prop :=
  | completion_wrong_node : job_AssignedTo job ≠ comp_NodeID req →
      completion s jobID req job s (Ok None)
  | completion_canceled : job_AssignedTo job = comp_NodeID req → job_Status job = StatusCanceled →
      completion s jobID req job s (Ok (Some job))
  | completion_not_running : job_AssignedTo job = comp_NodeID req →
      job_Status job ≠ StatusCanceled → job_Status job ≠ StatusRunning →
      completion s jobID req job s (Ok None)
  | completion_failed s' job' job'' : job_AssignedTo job = comp_NodeID req → job_Status job = StatusRunning →
      comp_Error req ≠ ""%string → fail_moved (comp_NodeID req) job job' →
      st_jobs s' !! jobID = Some job'' → sched_change job' job'' →
      completion s jobID req job s' (Ok (Some job'))
  | completion_succeeded s' job' : job_AssignedTo job = comp_NodeID req → job_Status job = StatusRunning →
      comp_Error req = ""%string → job_Status job' = StatusSucceeded →
      job_FinishedAt job' = w_clock ["now"] → core job' = core job →
      (job_Type job ≠ JobDelete → job_Result job' = comp_Result req) →
      st_jobs s' !! jobID = Some job' →
      completion s jobID req job s' (Ok (Some job'))
  | completion_panicked s' : job_AssignedTo job = comp_NodeID req → job_Status job = StatusRunning →
      comp_Error req = ""%string → job_Type job = JobDelete →
      Unmarshal_map (comp_Result req) = Some None → st_jobs s' = st_jobs s →
      completion s jobID req job s' (Err AssignmentToNilMap).

Lemma cleanup_outcome s job :
  match (cleanupModelPersistenceForDeleteJobLocked s job).2 with
  | Ok job' => job_Type job ≠ JobDelete → job' = job
  | Err _ => job_Type job = JobDelete ∧ Unmarshal_map (job_Result job) = Some None
  end.
Proof.
  unfold cleanupModelPersistenceForDeleteJobLocked. case_bool_decide as Ht; simpl; [|done].
  assert (Hw : ∀ m c, match (r ← withDeleteCleanupResult (job_Result job) m c;
      Ok (E := panic) (job <| job_Result := r |>)) with
    | Ok job' => job_Type job ≠ JobDelete → job' = job
    | Err _ => job_Type job = JobDelete ∧ Unmarshal_map (job_Result job) = Some None end).
  { intros m c. unfold withDeleteCleanupResult. destruct (blank _); simpl; [by intros []|].
    destruct (Unmarshal_map (job_Result job)) as [[p|]|]; simpl; [by intros []|done|by intros []]. }
  destruct (Unmarshal _) as [input|]; [|by intros []]. case_bool_decide; [by intros []|].
  destruct (modelInstalledOnAnotherOnlineWorkerLocked _ _ _); [apply Hw|].
  destruct (delete_loop _ _ (st_memories s)), (delete_loop _ _ (st_conversations s)). apply Hw.
Qed.

Lemma CompleteJob_completion (s : State) (jobID : string) (req : CompleteRequest) :
  state_wf s →
  let '(s', answer) := CompleteJob s jobID req in
  match st_jobs s !! jobID with
  | None => s' = s ∧ answer = Ok None
  | Some job => completion s jobID req job s' answer
  end.
Proof.
  intros Hwf. unfold CompleteJob. destruct (st_jobs s !! jobID) as [job|] eqn:Hid; [|done].
  case_bool_decide as Hto; [by apply completion_wrong_node|].
  case_bool_decide as Hcan; [by apply completion_canceled|].
  case_bool_decide as Hrun; [by apply completion_not_running|].
  set (job1 := job <| job_Result := _ |> <| job_Error := _ |> <| job_UpdatedAt := _ |>).
  destruct (wf_jobs s Hwf _ _ Hid) as [HID _].
  assert (Hact : is_active job = true) by (apply active_cases; by right).
  case_bool_decide as Herr; simpl.
  - set (job2 := job1 <| job_Status := _ |> <| job_FinishedAt := _ |>).
    destruct (append_assistant_same s job2 (w_clock ["now"])) as [Ej1 En1].
    set (s1 := appendAssistantMessageForJobLocked _ _ _) in *.
    pose proof (cleanup_same s1 job2) as Hc. pose proof (cleanup_outcome s1 job2) as Ho.
    destruct (cleanupModelPersistenceForDeleteJobLocked s1 job2) as [s2 [job3|[]]]; simpl in Ho |- *.
    + destruct Hc as (Ej2 & En2 & Htext). destruct (Htext job3 eq_refl) as [text ->].
      apply completion_succeeded; try done.
      { intros Ht. by rewrite (Ho Ht). }
      apply schedule_keeps; simpl; [rewrite En2, En1; apply Hwf| |by intros [? _]].
      rewrite HID. apply lookup_insert_eq.
    + destruct Hc as (Ej2 & _). destruct Ho. apply completion_panicked; congruence.
  - destruct (rescheduleOrFail_change s ["complete"] job1 (comp_NodeID req) (w_clock ["now"])
      (comp_Error req) (wf_nodes s Hwf)) as [Hm _]; [by split|].
    set (job' := rescheduleOrFailJobLocked _ _ _ _ _ _) in *.
    set (s1 := s <| st_jobs := _ |>).
    assert (Hid1 : st_jobs s1 !! jobID = Some job').
    { unfold s1. simpl. replace (job_ID job') with jobID; [apply lookup_insert_eq|].
      destruct Hm as (_ & [-> _] & _). done. }
    destruct (jm_lookup_old _ _ _ _ _ (scheduleQueuedJobs_moves (w_clock ["now"]) s1 (wf_nodes s Hwf)) Hid1)
      as (job'' & Hid'' & Hc).
    by eapply completion_failed.
Qed.

(** (functional, error). A worker's report on a job: rejected without any
    effect for an unknown job, from another worker, or when the job is not
    running; answered with the job when it was canceled; a failure moves the
    job on as for a failed worker; a success stores the result and the finish
    time.  The one panic is the result text [null] of a delete job, whose
    decoding leaves a nil map that is then written to. *)
Theorem complete_job_outcome (s : State) (jobID : string) (req : CompleteRequest) :
  state_wf s →
  let '(s', answer) := CompleteJob s jobID req in
  match st_jobs s !! jobID with
  | None => s' = s ∧ answer = Ok None
  | Some job => completion s jobID req job s' answer
  end.
Proof. exact (CompleteJob_completion s jobID req). Qed.

Lemma NextJobForWorker_spec (s : State) (nodeID : string) :
  state_wf s →
  let '(s', answer) := NextJobForWorker s nodeID in
  match answer with
  | None => s' = s ∧ ∀ id j, st_jobs s !! id = Some j →
              ¬ (job_AssignedTo j = nodeID ∧ job_Status j = StatusScheduled)
  | Some j' => ∃ j, st_jobs s !! job_ID j = Some j ∧ job_AssignedTo j = nodeID ∧
      job_Status j = StatusScheduled ∧
      j' = j <| job_Status := StatusRunning |> <| job_StartedAt := w_clock ["now"] |>
             <| job_UpdatedAt := w_clock ["now"] |> ∧
      s' = s <| st_jobs := <[job_ID j := j']> (st_jobs s) |>
  end.
Proof.
  intros Hwf. unfold NextJobForWorker.
  assert (Hl : ∀ j, j ∈ range_values ["next"] (st_jobs s) ↔ st_jobs s !! job_ID j = Some j).
  { intros j. rewrite range_values_elem. split; [|by eauto]. intros [k Hk].
    by destruct (wf_jobs s Hwf _ _ Hk) as [-> _]. }
  assert (Hgen : ∀ l, (∀ j, j ∈ l → st_jobs s !! job_ID j = Some j) →
    match next_loop s nodeID (w_clock ["now"]) l with
    | (s', None) => s' = s ∧ ∀ j, j ∈ l → ¬ (job_AssignedTo j = nodeID ∧ job_Status j = StatusScheduled)
    | (s', Some j') => ∃ j, j ∈ l ∧ job_AssignedTo j = nodeID ∧ job_Status j = StatusScheduled ∧
      j' = j <| job_Status := StatusRunning |> <| job_StartedAt := w_clock ["now"] |>
             <| job_UpdatedAt := w_clock ["now"] |> ∧
      s' = s <| st_jobs := <[job_ID j := j']> (st_jobs s) |>
    end).
  { induction l as [|j l IH]; intros Hin; cbn [next_loop].
    { split; [done|]. by intros j ?%not_elem_of_nil. }
    destruct (_ || _) eqn:Hg.
    - rewrite orb_true_iff, !bool_decide_eq_true in Hg.
      specialize (IH (λ j' Hj', Hin j' (list_elem_of_further _ _ _ Hj'))).
      destruct (next_loop _ _ _ l) as [s' [j'|]].
      + destruct IH as (j0 & Hj0 & Hrest). exists j0. split; [by right|done].
      + destruct IH as [-> Hno]. split; [done|]. intros j0 [->|Hj0]%elem_of_cons; [naive_solver|by apply Hno].
    - rewrite orb_false_iff, !bool_decide_eq_false in Hg. destruct Hg as [Ha%dec_stable Hs%dec_stable].
      exists j. split_and!; [by left|done..]. }
  specialize (Hgen _ (λ j, proj1 (Hl j))).
  destruct (next_loop _ _ _ _) as [s' [j'|]].
  - destruct Hgen as (j & Hj & Hrest). exists j. split; [by apply Hl|done].
  - destruct Hgen as [-> Hno]. split; [done|]. intros id j Hj. apply Hno, range_values_elem. by exists id.
Qed.

(** (functional). A worker that polls gets a job scheduled for it, which is
    now running with its start time set, all else unchanged; it gets nothing
    exactly when no job is scheduled for it. *)
Theorem next_job_for_worker (s : State) (nodeID : string) :
  state_wf s →
  let '(s', answer) := NextJobForWorker s nodeID in
  match answer with
  | None => s' = s ∧ ∀ id j, st_jobs s !! id = Some j →
              ¬ (job_AssignedTo j = nodeID ∧ job_Status j = StatusScheduled)
  | Some j' => ∃ j, st_jobs s !! job_ID j = Some j ∧ job_AssignedTo j = nodeID ∧
      job_Status j = StatusScheduled ∧
      j' = j <| job_Status := StatusRunning |> <| job_StartedAt := w_clock ["now"] |>
             <| job_UpdatedAt := w_clock ["now"] |> ∧
      s' = s <| st_jobs := <[job_ID j := j']> (st_jobs s) |>
  end.
Proof. exact (NextJobForWorker_spec s nodeID). Qed.

(** (functional). A stage report is accepted exactly for a known stage job
    whose state (planned when it has none) may move to the reported one; the
    job then carries that state, a completed stage has succeeded, a failed one
    has failed with the reported detail and an aborted one is canceled. *)
Theorem stage_report_outcome (s : State) (jobID : string) (next : StageState) (detail : string) :
  state_wf s →
  let '(s', answer) := UpdateCDIPStageState s jobID next detail in
  match answer with
  | None => s' = s ∧ ∀ j, st_jobs s !! jobID = Some j → stage_kind j →
      CanTransition (stage_current j) next = false
  | Some j' => ∃ j, st_jobs s !! jobID = Some j ∧ stage_kind j ∧
      s' = s <| st_jobs := <[jobID := j']> (st_jobs s) |> ∧
      lifecycle j j' ∧ job_CDIPState j' = next ∧
      (next = StageCompleted → job_Status j' = StatusSucceeded) ∧
      (next = StageFailed → job_Status j' = StatusFailed ∧ job_Error j' = TrimSpace detail) ∧
      (next = StageAborted → job_Status j' = StatusCanceled ∧ job_Error j' = TrimSpace detail)
  end.
Proof.
  intros Hwf. unfold UpdateCDIPStageState.
  destruct (st_jobs s !! jobID) as [j|] eqn:Hid; [|by split].
  case_bool_decide as Ht; [split; [done|]; intros ? [= <-] ?; done|].
  destruct (CanTransition _ _) eqn:Hcan; simpl; [|split; [done|]; by intros ? [= <-] _].
  destruct (wf_jobs s Hwf _ _ Hid) as [HID Hok].
  destruct (stage_job_lifecycle j next detail (w_clock ["now"])) as [Hl _]; [done..|].
  destruct (stage_job_spec j next detail (w_clock ["now"])) as (Hc & Hn & _ & _).
  apply (f_equal core_ID) in Hc. simpl in Hc. rewrite Hc, HID.
  exists j. split_and!; [done..| | |]; by intros ->.
Qed.

(** How the listing shows a node. *)
Definition listed (s : State) (now : Time) (node : Node) : Node :=
  let node' := deriveNodeStatus s node now in
  if bool_decide (node_Status node = NodeStatusOnline) && bool_decide (node_Status node' = NodeStatusOffline)
  then node' <| node_UpdatedAt := now |> else node'.

Lemma nodes_step_listed now s l id :
  state_wf s →
  (nodes_step now (s, l) id).2 = l ++ option_list (listed s now <$> st_nodes s !! id).
Proof.
  intros _. unfold nodes_step, listed. destruct (st_nodes s !! id) as [node|]; simpl; [|by rewrite app_nil_r].
  by destruct (_ && _).
Qed.

Lemma omap_cons_eq {A B} (f : A → option B) x l :
  omap f (x :: l) = match f x with Some y => y :: omap f l | None => omap f l end.
Proof. done. Qed.

Lemma nodes_fold_listed now ks s l :
  state_wf s → NoDup ks →
  (foldl (nodes_step now) (s, l) ks).2 = l ++ omap (λ k, listed s now <$> st_nodes s !! k) ks.
Proof.
  revert s l. induction ks as [|k ks IH]; intros s l Hwf Hnd; cbn [foldl]; [by rewrite app_nil_r|].
  apply NoDup_cons in Hnd as [Hk Hnd].
  destruct (nodes_step_spec now s l k Hwf) as (H1 & _ & Ht & Hn & _).
  pose proof (nodes_step_listed now s l k Hwf) as Hl.
  destruct (nodes_step now (s, l) k) as [s1 l1]. cbn [fst snd] in *. subst l1.
  rewrite IH by (done || apply H1). rewrite <- app_assoc. f_equal.
  assert (E : omap (λ k, listed s1 now <$> st_nodes s1 !! k) ks = omap (λ k, listed s now <$> st_nodes s !! k) ks).
  { clear IH Hnd. induction ks as [|k' ks IH]; [done|]. apply not_elem_of_cons in Hk as [Hne Hk].
    rewrite !omap_cons_eq, IH by done. destruct (Hn k') as [-> _]; [done|].
    assert (∀ n, listed s1 now n = listed s now n) as Hlist
      by (intros n; unfold listed, deriveNodeStatus; by rewrite Ht).
    by destruct (st_nodes s !! k'); simpl; rewrite ?Hlist. }
  rewrite E, omap_cons_eq. by destruct (st_nodes s !! k).
Qed.

Lemma Nodes_listed s :
  state_wf s → (Nodes s).2 ≡ₚ listed s (w_clock ["now"]) <$> (map_to_list (st_nodes s)).*2.
Proof.
  intros Hwf. unfold Nodes. rewrite nodes_fold_listed by (done || apply range_keys_NoDup). simpl.
  unfold range_keys. rewrite w_perm_ok.
  assert (E : ∀ l : list (string * Node), (∀ k n, (k, n) ∈ l → st_nodes s !! k = Some n) →
    omap (λ k, listed s (w_clock ["now"]) <$> st_nodes s !! k) l.*1 = listed s (w_clock ["now"]) <$> l.*2).
  { induction l as [|[k n] l IH]; intros Hl; [done|].
    rewrite fmap_cons, omap_cons_eq. cbn [fst]. rewrite (Hl k n) by left. csimpl.
    f_equal. apply IH. intros k' n' Hin. apply Hl. by right. }
  by rewrite E by (intros k n; apply elem_of_map_to_list).
Qed.

Definition counted (node : Node) : bool :=
  bool_decide (node_Role node = NodeRoleWorker) && bool_decide (node_Status node = NodeStatusOnline).

Lemma counted_listed s now node :
  counted (listed s now node) = online_worker s now node ∧
  node_Resources (listed s now node) = node_Resources node ∧
  node_Role (listed s now node) = node_Role node.
Proof.
  unfold counted, listed, online_worker. cbv zeta.
  destruct (_ && bool_decide (_ = NodeStatusOffline)); simpl;
    by rewrite deriveNodeStatus_Resources, deriveNodeStatus_Role.
Qed.

Lemma summary_fold {X} (w : Z → Z) (g : X → Z) (step : X → Node → X) (P : Node → bool) (f : Node → Z) acc l a :
  (∀ acc n a, g acc = w a → g (step acc n) = w (if P n then a + f n else a)) →
  g acc = w a →
  g (foldl step acc l) = w (a + sumZ (f <$> filter (λ n, P n = true) l)).
Proof.
  intros Hstep. revert acc a. induction l as [|n l IH]; intros acc a Ha; cbn [foldl].
  - simpl. by rewrite Z.add_0_r.
  - rewrite (IH _ _ (Hstep _ _ _ Ha)), filter_cons. f_equal.
    destruct (P n); csimpl; lia.
Qed.

(** A total over the nodes listed is the total over the online workers. *)
Lemma sum_listed s (f : ResourceSnapshot → Z) :
  state_wf s →
  sumZ ((λ n, f (node_Resources n)) <$> filter (λ n, counted n = true) (Nodes s).2) =
  sumZ ((λ n, f (node_Resources n)) <$>
    filter (λ n, online_worker s (w_clock ["now"]) n = true) (map_to_list (st_nodes s)).*2).
Proof.
  intros Hwf. rewrite (Nodes_listed s Hwf). generalize ((map_to_list (st_nodes s)).*2). intros l.
  induction l as [|n l IH]; csimpl; [done|].
  destruct (counted_listed s (w_clock ["now"]) n) as (Hc & Hr & _). rewrite !filter_cons, Hc.
  case_decide; csimpl; by rewrite ?Hr, IH.
Qed.

(** The online workers of a state, as the summary sees them. *)
Definition online_workers (s : State) : list Node :=
  filter (λ n, online_worker s (w_clock ["now"]) n = true) (map_to_list (st_nodes s)).*2.

(** (functional, bounds). The cluster summary counts the online workers with
    a fresh heartbeat and adds up their resources, GPUs and GPU memory, each
    total modulo 2^64, whatever the order in which the nodes are walked. *)
Theorem cluster_summary_totals (s : State) :
  state_wf s →
  let sum := (ClusterSummaryOp s).2 in
  let total (f : ResourceSnapshot → Z) := sumZ ((λ n, f (node_Resources n)) <$> online_workers s) in
  cs_WorkersOnline sum = i64 (Z.of_nat (length (online_workers s))) ∧
  cs_GPUs sum = i64 (total (λ r, Z.of_nat (length (res_GPU r)))) ∧
  cs_VRAMTotalBytes sum = u64 (total (λ r, sumZ (gpu_TotalVRAMBytes <$> res_GPU r))) ∧
  cs_VRAMAllowedBytes sum = u64 (total (λ r, sumZ (gpu_AllowedVRAMBytes <$> res_GPU r))) ∧
  cpu_CoresAllowed (res_CPU (cs_Resources sum)) = i64 (total (λ r, cpu_CoresAllowed (res_CPU r))) ∧
  mem_TotalBytes (res_Memory (cs_Resources sum)) = u64 (total (λ r, mem_TotalBytes (res_Memory r))) ∧
  mem_AllowedBytes (res_Memory (cs_Resources sum)) = u64 (total (λ r, mem_AllowedBytes (res_Memory r))) ∧
  sto_AllowedBytes (res_Storage (cs_Resources sum)) = u64 (total (λ r, sto_AllowedBytes (res_Storage r))) ∧
  sto_FreeBytes (res_Storage (cs_Resources sum)) = u64 (total (λ r, sto_FreeBytes (res_Storage r))).
Proof.
  intros Hwf. unfold ClusterSummaryOp, online_workers. pose proof (λ f, sum_listed s f Hwf) as Hsum.
  destruct (Nodes s) as [s' nodes]. simpl in *.
  set (workers := filter _ (map_to_list (st_nodes s)).*2) in *.
  set (acc0 := mkClusterSummary _ 0 0 0 0 0 f_zero zero_snapshot). set (step := summary_step _).
  assert (Hw : ∀ (w : Z → Z) (g : ClusterSummary → Z) f, g acc0 = w 0 →
    (∀ acc n a, counted n = true → g acc = w a → g (step acc n) = w (a + f (node_Resources n))) →
    (∀ acc n, counted n = false → g (step acc n) = g acc) →
    g (foldl step acc0 nodes) = w (sumZ ((λ n, f (node_Resources n)) <$> workers))).
  { intros w g f H0' Ht Hf. rewrite <- Hsum.
    apply (summary_fold w g step counted (λ n, f (node_Resources n)) acc0 nodes 0); [|done].
    intros acc n a Ha. destruct (counted n) eqn:E; [by apply Ht|by rewrite Hf]. }
  assert (Hcount : Z.of_nat (length workers) = sumZ ((λ n, (λ _, 1) (node_Resources n)) <$> workers))
    by (clear; induction workers; csimpl; lia).
  rewrite Hcount.
  split_and!; [apply (Hw i64 cs_WorkersOnline (λ _, 1))
    |apply (Hw i64 cs_GPUs (λ r, Z.of_nat (length (res_GPU r))))
    |apply (Hw u64 cs_VRAMTotalBytes (λ r, sumZ (gpu_TotalVRAMBytes <$> res_GPU r)))
    |apply (Hw u64 cs_VRAMAllowedBytes (λ r, sumZ (gpu_AllowedVRAMBytes <$> res_GPU r)))
    |apply (Hw i64 (λ c, cpu_CoresAllowed (res_CPU (cs_Resources c))) (λ r, cpu_CoresAllowed (res_CPU r)))
    |apply (Hw u64 (λ c, mem_TotalBytes (res_Memory (cs_Resources c))) (λ r, mem_TotalBytes (res_Memory r)))
    |apply (Hw u64 (λ c, mem_AllowedBytes (res_Memory (cs_Resources c))) (λ r, mem_AllowedBytes (res_Memory r)))
    |apply (Hw u64 (λ c, sto_AllowedBytes (res_Storage (cs_Resources c)))
              (λ r, sto_AllowedBytes (res_Storage r)))
    |apply (Hw u64 (λ c, sto_FreeBytes (res_Storage (cs_Resources c))) (λ r, sto_FreeBytes (res_Storage r)))];
    try done;
    first [intros acc n a E Ha|intros acc n E]; unfold counted in E; simpl; rewrite E; cbn; try done;
    rewrite Ha, ?i64_add_l, ?u64_add_l, ?foldl_u64_sum; done.
Qed.
End behaviour.

(** ** A concrete run *)

#[export] Instance GenerateOutput_eq_dec : EqDecision GenerateOutput.
Proof. solve_decision. Defined.
#[export] Instance GenerateOutput_countable : Countable GenerateOutput.
Proof. record_countable (λ o, go_Output o) (λ s, mkGenerateOutput s). Defined.

Definition demo_codecs : Codecs := {|
  c_lower := ascii_case; c_map := opaque_map_codec;
  c_delete := codec DeleteInput; c_generate := codec GenerateInput;
  c_generate_rpc := codec DistributedRPCGenerateInput; c_output := codec GenerateOutput;
|}.

Section demo.
#[local] Existing Instance demo_codecs.

Definition join (name : string) : JoinRequest :=
  mkJoinRequest name NodeRoleWorker "" "" (demo_resources 8 1).
Definition demo_request (kind : string) (parked : bool) : CreateRequest :=
  mkCreateRequest kind "" "" "" (demo_req 4) 0 parked StageNone "" 0.

Definition do (salt : string) (now : Time) (op : store_op) (s : State) : State :=
  @exec (salted_world salt now) _ s op.
Definition node_of (salt : string) : string := newID "node" (Some (Join [salt; "node"] "/")).
Definition job_of (salt : string) : string := newID "job" (Some (Join [salt; "job"; "create"] "/")).

(** Worker [a] joins, a job is created and polled, worker [b] joins. *)
Definition running_state : State :=
  do "b" 40 (OpRegisterWorker (join "b")) $
  do "x" 30 (OpNextJobForWorker (node_of "a")) $
  do "j" 20 (OpCreateJob (demo_request JobCleanup false)) $
  do "a" 10 (OpRegisterWorker (join "a")) (NewState 0).

Lemma running_reachable : reachable running_state.
Proof. unfold running_state, do. repeat (apply reachable_step; [|first [exact I|reflexivity]]). apply reachable_init. Qed.

Definition running_job : Job := default (demo_job "" 0) (st_jobs running_state !! job_of "j").

Lemma running_job_lookup : st_jobs running_state !! job_of "j" = Some running_job.
Proof. vm_compute. reflexivity. Qed.

Lemma store_refines_lifecycle_witness :
  ∃ j', st_jobs (do "y" 50 (OpMarkWorkerOffline (node_of "a")) running_state) !! job_of "j" = Some j' ∧
    rtc lifecycle running_job j'.
Proof.
  apply (store_refines_lifecycle (salted_world "y" 50) running_state
    (OpMarkWorkerOffline (node_of "a")) running_reachable I); [exact running_job_lookup|].
  apply not_elem_of_nil.
Defined.

Lemma reachable_states_well_formed_witness : jobs_wf (st_jobs running_state).
Proof. apply (reachable_states_well_formed running_state running_reachable). Defined.

Lemma placement_within_slots_witness :
  active_on (node_of "b") (st_jobs (do "y" 50 (OpMarkWorkerOffline (node_of "a")) running_state)) ≤
  Z.max (active_on (node_of "b") (st_jobs running_state))
    (slots_of (st_nodes (do "y" 50 (OpMarkWorkerOffline (node_of "a")) running_state)) (node_of "b")).
Proof.
  apply (placement_within_slots (salted_world "y" 50) running_state
    (OpMarkWorkerOffline (node_of "a")) (node_of "b") running_reachable I eq_refl).
Defined.

(** The worker fails, the job moves on, is polled and succeeds. *)
Definition demo_run : list (World * store_op) :=
  [(salted_world "y" 50, OpMarkWorkerOffline (node_of "a"));
   (salted_world "z" 51, OpNextJobForWorker (node_of "b"));
   (salted_world "w" 52, OpCompleteJob (job_of "j") (mkCompleteRequest (node_of "b") "done" ""))].

Lemma demo_run_ok id : Forall (λ o, op_ok o.2 ∧ id ∉ @created_ids o.1 o.2) demo_run.
Proof. repeat constructor; apply not_elem_of_nil. Qed.

Lemma running_job_kind : ¬ stage_kind running_job ∧ ¬ coordinator_kind running_job.
Proof. split; unfold stage_kind, coordinator_kind; vm_compute; discriminate. Qed.

Lemma placements_bounded_witness :
  placements (job_of "j") running_state (states_of running_state demo_run) = 1 ∧
  placements (job_of "j") running_state (states_of running_state demo_run)
    ≤ job_MaxAttempts running_job - job_Attempts running_job.
Proof.
  split; [vm_compute; reflexivity|].
  exact (placements_bounded running_state demo_run (job_of "j") running_job running_reachable
    (demo_run_ok _) running_job_lookup (proj1 running_job_kind)).
Defined.

(** The state in which the job has succeeded. *)
Definition final_state : State :=
  do "w" 52 (OpCompleteJob (job_of "j") (mkCompleteRequest (node_of "b") "done" "")) $
  do "z" 51 (OpNextJobForWorker (node_of "b")) $
  do "y" 50 (OpMarkWorkerOffline (node_of "a")) running_state.
Lemma final_reachable : reachable final_state.
Proof. unfold final_state, do. do 3 (apply reachable_step; [|first [exact I|reflexivity]]). apply running_reachable. Qed.
Definition final_job : Job := default (demo_job "" 0) (st_jobs final_state !! job_of "j").

Lemma terminal_jobs_never_change_witness :
  job_Status final_job = StatusSucceeded ∧
  Forall (λ s', st_jobs s' !! job_of "j" = Some final_job)
    (states_of final_state [(salted_world "q" 60, OpCancelJob (job_of "j")); (salted_world "r" 99, OpNodes)]).
Proof.
  split; [vm_compute; reflexivity|].
  apply (terminal_jobs_never_change final_state _ (job_of "j") final_job final_reachable).
  - repeat constructor; apply not_elem_of_nil.
  - vm_compute. reflexivity.
  - vm_compute. left.
  - unfold stage_kind. vm_compute. discriminate.
  - unfold coordinator_kind. vm_compute. discriminate.
Defined.

Lemma running_wf : state_wf running_state.
Proof. apply reachable_state_wf, running_reachable. Qed.

Lemma offline_worker_releases_jobs_witness :
  active_on (node_of "a") (st_jobs (@MarkWorkerOffline (salted_world "y" 50) running_state (node_of "a")).1) = 0.
Proof.
  pose proof (@offline_worker_releases_jobs (salted_world "y" 50) running_state (node_of "a") running_wf) as H.
  destruct (MarkWorkerOffline _ _) as [s' ok] eqn:E. destruct H as (Hok & _ & H). apply H.
  rewrite Hok. vm_compute. reflexivity.
Defined.

Lemma listing_times_out_workers_witness :
  active_on (node_of "a") (st_jobs (@Nodes (world_at (40 * Second)) running_state).1) = 0.
Proof.
  eapply (@listing_times_out_workers (world_at (40 * Second)) running_state (node_of "a")).
  - exact running_wf.
  - vm_compute. reflexivity.
  - split; [|split]; vm_compute; reflexivity.
Defined.

Lemma complete_job_outcome_witness :
  ∃ s', @completion (world_at 60) _ running_state (job_of "j") (mkCompleteRequest (node_of "b") "" "") running_job
          s' (Ok None).
Proof.
  pose proof (@complete_job_outcome (world_at 60) _ running_state (job_of "j")
    (mkCompleteRequest (node_of "b") "" "") running_wf) as H.
  rewrite running_job_lookup in H. destruct (CompleteJob _ _ _) as [s' a] eqn:E.
  assert (a = Ok None) as -> by (apply (f_equal snd) in E; refine (eq_trans (eq_sym E) _); vm_compute; reflexivity).
  exists s'. exact H.
Defined.

Lemma next_job_for_worker_witness :
  ∃ j, st_jobs (do "y" 50 (OpMarkWorkerOffline (node_of "a")) running_state) !! job_ID j = Some j ∧
    job_Status j = StatusScheduled.
Proof.
  pose proof (@next_job_for_worker (world_at 55)
    (do "y" 50 (OpMarkWorkerOffline (node_of "a")) running_state) (node_of "b")
    (ss_wf _ _ _ _ (@exec_step (salted_world "y" 50) _ running_state
       (OpMarkWorkerOffline (node_of "a")) running_wf I))) as H.
  destruct (NextJobForWorker _ _) as [s' [j'|]] eqn:E; [|vm_compute in E; discriminate E].
  destruct H as (j & Hj & _ & Hs & _). exists j. split; [exact Hj|exact Hs].
Defined.

Lemma cluster_summary_totals_witness :
  cs_WorkersOnline (@ClusterSummaryOp (world_at 60) running_state).2 = 2.
Proof.
  refine (eq_trans (proj1 (@cluster_summary_totals (world_at 60) running_state running_wf)) _).
  vm_compute. reflexivity.
Defined.

(** ** Findings *)

Definition stage_request : CreateRequest :=
  mkCreateRequest JobGenerateStage "" "" (node_of "a") (demo_req 4) 1 true StagePlanned "p" 0.
Definition stage_state : State :=
  do "s" 50 (OpCreateJob stage_request) running_state.
Lemma stage_state_wf : state_wf stage_state.
Proof.
  apply (@exec_step (salted_world "s" 50) _ running_state (OpCreateJob stage_request)); [exact running_wf|reflexivity].
Qed.

Lemma stage_report_outcome_witness :
  ∃ j', (@UpdateCDIPStageState (world_at 60) _ stage_state (job_of "s") StagePreparing "").2 = Some j' ∧
    job_CDIPState j' = StagePreparing.
Proof.
  pose proof (@stage_report_outcome (world_at 60) _ stage_state (job_of "s") StagePreparing "" stage_state_wf) as H.
  destruct (UpdateCDIPStageState _ _ _ _) as [s' [j'|]] eqn:E; [|vm_compute in E; discriminate E].
  destruct H as (j & _ & _ & _ & _ & Hn & _). exists j'. split; [reflexivity|exact Hn].
Defined.

(** A stage job that an operator canceled still follows stage reports, and a
    completed report makes the canceled job a succeeded one. *)
Example canceled_stage_job_succeeds :
  let s0 := do "c" 60 (OpCancelJob (job_of "s")) stage_state in
  let s1 := foldl (λ s st, do "r" 61 (OpUpdateCDIPStageState (job_of "s") st "") s) s0
              [StagePreparing; StageReady; StagePrefill; StageDecode; StageCompleted] in
  (job_Status <$> st_jobs s0 !! job_of "s" = Some StatusCanceled) ∧
  (job_Status <$> st_jobs s1 !! job_of "s" = Some StatusSucceeded).
Proof. split; vm_compute; reflexivity. Qed.

(** A job created with [NoAutoAssign] and no worker is a queued unassigned job
    like any other: the next heartbeat hands it to a worker. *)
Example parked_job_is_assigned :
  let s0 := do "p" 50 (OpCreateJob (demo_request JobGenerateDistributed true)) running_state in
  let s1 := do "h" 60 (OpHeartbeat (mkHeartbeat (node_of "b") 60 (demo_resources 8 1))) s0 in
  (job_AssignedTo <$> st_jobs s0 !! job_of "p" = Some ""%string) ∧
  (job_AssignedTo <$> st_jobs s1 !! job_of "p" = Some (node_of "b")) ∧
  (job_Status <$> st_jobs s1 !! job_of "p" = Some StatusScheduled).
Proof. split_and!; vm_compute; reflexivity. Qed.

(** The panic of [CompleteJob]: the result text [null] for a delete job. *)
Example null_delete_result_panics :
  let s0 := do "d" 50 (OpCreateJob (mkCreateRequest JobDelete (Marshal (mkDeleteInput "m" "")) "" ""
              (demo_req 4) 0 false StageNone "" 0)) running_state in
  let s1 := do "n" 51 (OpNextJobForWorker (node_of "b")) s0 in
  (@CompleteJob (world_at 52) _ s1 (job_of "d") (mkCompleteRequest (node_of "b") "null" "")).2
    = Err AssignmentToNilMap.
Proof. vm_compute. reflexivity. Qed.
End demo.
