(* ===== verification/FileStore.v ===== *)
(** * The file store

    [internal/manager/file_store.go]: the manager's state kept in a JSON file.
    Each method runs the method of the embedded [State] and, when that reports
    success, saves a snapshot: the maps are copied, encoded, written to a
    temporary file and renamed over the store's file.  Errors of the save are
    dropped by the methods.  The file system is a map from paths to contents;
    the faults of one call are choices of the environment ([IO]). *)

From S2P Require Import Prelude GoString GoFloat World Json Cdip Types Models State Conversations Scheduling JobStore.

(** ** The file system *)

Abbreviation disk := (gmap string string) (only parsing).

Inductive io_error := NotExist | IOFailed (what : string).

(** The outcome of the system calls of one operation: [None] is success.  A
    failing write has written the first [n] bytes. *)
Class IO := mkIO {
  io_read : option string;
  io_mkdir : option string;
  io_open : option string;
  io_write : option (nat * string);
  io_rename : option string;
}.
(** Nothing fails. *)
Definition faultless : IO := mkIO None None None None None.

Definition ReadFile `{IO} (d : disk) (path : string) : result io_error string :=
  match io_read with
  | Some e => Err (IOFailed e)
  | None => match d !! path with Some data => Ok data | None => Err NotExist end
  end.

(** [os.WriteFile]: opens and truncates the file, then writes. *)
Definition WriteFile `{IO} (d : disk) (path data : string) : disk * option io_error :=
  match io_open with
  | Some e => (d, Some (IOFailed e))
  | None =>
      match io_write with
      | Some (n, e) => (<[path := String.substring 0 n data]> d, Some (IOFailed e))
      | None => (<[path := data]> d, None)
      end
  end.

Definition Rename `{IO} (d : disk) (from to : string) : disk * option io_error :=
  match io_rename, d !! from with
  | Some e, _ => (d, Some (IOFailed e))
  | None, None => (d, Some NotExist)
  | None, Some data => (<[to := data]> (delete from d), None)
  end.

(** ** Snapshots *)

Record fileStoreSnapshot := mkSnapshot {
  snap_StartedAt : Time;
  snap_Nodes : option (gmap string Node);
  snap_Benchmarks : option (gmap string (gmap BenchmarkKind BenchmarkResult));
  snap_RPCHealth : option (gmap string RPCHealthRecord);
  snap_Jobs : option (gmap string Job);
  snap_Conversations : option (gmap string Conversation);
  snap_Memories : option (gmap string Memory);
}.

(** A field tagged [omitempty] is not written when its map is empty, so it is
    decoded as nil. *)
Definition omit {V} (m : option (gmap string V)) : option (gmap string V) :=
  match m with
  | Some m => match map_to_list m with [] => None | _ => Some m end
  | None => None
  end.
Definition omitempty (x : fileStoreSnapshot) : fileStoreSnapshot :=
  mkSnapshot (snap_StartedAt x) (snap_Nodes x) (snap_Benchmarks x) (omit (snap_RPCHealth x))
    (snap_Jobs x) (omit (snap_Conversations x)) (omit (snap_Memories x)).

(** [json.MarshalIndent] and [json.Unmarshal] on snapshots.  [snapshot_ok] holds
    of the snapshots JSON can represent (finite scores, valid UTF-8, years up
    to 9999); a document is never the empty text. *)
Class SnapshotJson := {
  MarshalIndent : fileStoreSnapshot → option string;
  UnmarshalSnapshot : string → option fileStoreSnapshot;
  snapshot_ok : fileStoreSnapshot → Prop;
  snapshot_roundtrip x : snapshot_ok x →
    ∃ data, MarshalIndent x = Some data ∧ data ≠ ""%string ∧
            UnmarshalSnapshot data = Some (omitempty x);
}.

(** The copying loops. *)
Definition clone_map `{World} {V} (t : Tag) (f : string → V → V) (m : gmap string V) : gmap string V :=
  foldl (λ out key, match m !! key with Some value => <[key := f key value]> out | None => out end)
    ∅ (range_keys t m).
Definition cloneNodes `{World} : gmap string Node → gmap string Node :=
  clone_map ["nodes"] (λ _ v, v).
Definition cloneBenchmarks `{World} (m : gmap string (gmap BenchmarkKind BenchmarkResult))
    : gmap string (gmap BenchmarkKind BenchmarkResult) :=
  clone_map ["benchmarks"] (λ nodeID, clone_map ["benchmarks"; nodeID] (λ _ v, v)) m.
Definition cloneRPCHealth `{World} : gmap string RPCHealthRecord → gmap string RPCHealthRecord :=
  clone_map ["rpc"] (λ _ v, v).
Definition cloneJobs `{World} : gmap string Job → gmap string Job :=
  clone_map ["jobs"] (λ _ v, v).
Definition cloneConversations `{World} : gmap string Conversation → gmap string Conversation :=
  clone_map ["conversations"] (λ _ value, value <| conv_Messages := [] ++ conv_Messages value |>).
Definition cloneMemories `{World} : gmap string Memory → gmap string Memory :=
  clone_map ["memories"] (λ _ v, v).

(** ** Save and load *)

Inductive store_error :=
  | FSRead (e : io_error) | FSDecode | FSEncode
  | FSMkdir (e : string) | FSWrite (e : io_error) | FSRename (e : io_error).

Record FileStore := mkFileStore {
  fst_State : State;
  fst_path : string;
}.

(* field setters *)
#[export] Instance set_fst_State : Setter fst_State := λ f r, mkFileStore (f (fst_State r)) (fst_path r).
#[export] Instance set_fst_path : Setter fst_path := λ f r, mkFileStore (fst_State r) (f (fst_path r)).

Definition tmp_path (path : string) : string := path +:+ ".tmp".

Section store.
Context `{World} `{Codecs} `{SnapshotJson} `{IO}.

Definition snapshot_of (s : State) : fileStoreSnapshot :=
mkSnapshot (st_startedAt s) (Some (cloneNodes (st_nodes s)))
  (Some (cloneBenchmarks (st_benchmarks s))) (Some (cloneRPCHealth (st_rpcHealth s)))
  (Some (cloneJobs (st_jobs s))) (Some (cloneConversations (st_conversations s)))
  (Some (cloneMemories (st_memories s))).

Definition save (fs : FileStore) (d : disk) : disk * option store_error :=
match MarshalIndent (snapshot_of (fst_State fs)) with
| None => (d, Some FSEncode)
| Some data =>
    match io_mkdir with
    | Some e => (d, Some (FSMkdir e))
    | None =>
        match WriteFile d (tmp_path (fst_path fs)) data with
        | (d, Some e) => (d, Some (FSWrite e))
        | (d, None) =>
            let '(d, e) := Rename d (tmp_path (fst_path fs)) (fst_path fs) in (d, FSRename <$> e)
        end
    end
end.

(** The snapshot replaces what it has: a zero time and nil maps change nothing. *)
Definition restore (snapshot : fileStoreSnapshot) (s : State) : State :=
let s := if negb (IsZero (snap_StartedAt snapshot))
         then s <| st_startedAt := snap_StartedAt snapshot |> else s in
let s := match snap_Nodes snapshot with Some m => s <| st_nodes := m |> | None => s end in
let s := match snap_Benchmarks snapshot with Some m => s <| st_benchmarks := m |> | None => s end in
let s := match snap_RPCHealth snapshot with Some m => s <| st_rpcHealth := m |> | None => s end in
let s := match snap_Jobs snapshot with Some m => s <| st_jobs := m |> | None => s end in
let s := match snap_Conversations snapshot with Some m => s <| st_conversations := m |> | None => s end in
match snap_Memories snapshot with Some m => s <| st_memories := m |> | None => s end.

Definition load (fs : FileStore) (d : disk) : FileStore * disk * option store_error :=
match ReadFile d (fst_path fs) with
| Err NotExist => let '(d, e) := save fs d in (fs, d, e)
| Err e => (fs, d, Some (FSRead e))
| Ok data =>
    if str_eqb data "" then (fs, d, None)
    else match UnmarshalSnapshot data with
         | None => (fs, d, Some FSDecode)
         | Some snapshot => (fs <| fst_State := restore snapshot (fst_State fs) |>, d, None)
         end
end.

Definition NewFileStore (path : string) (d : disk) : disk * result store_error FileStore :=
let store := mkFileStore (NewState (w_clock ["now"])) path in
match load store d with
| (_, d, Some e) => (d, Err e)
| (store, d, None) => (d, Ok store)
end.

(** ** The methods

  Each runs the method of [State] and saves when [saves] accepts its result. *)
Definition saving {R} (saves : R → bool) (fs : FileStore) (d : disk) (out : State * R)
  : FileStore * disk * R :=
let fs := fs <| fst_State := out.1 |> in
(fs, if saves out.2 then (save fs d).1 else d, out.2).

Definition some {A} (o : option A) : bool := match o with Some _ => true | None => false end.

Definition FS_RegisterWorker fs d (req : JoinRequest) :=
saving (λ _, true) fs d (RegisterWorker (fst_State fs) req).
Definition FS_Heartbeat fs d (hb : Heartbeat) :=
saving id fs d (HeartbeatOp (fst_State fs) hb).
Definition FS_MarkWorkerOffline fs d (nodeID : string) :=
saving id fs d (MarkWorkerOffline (fst_State fs) nodeID).
Definition FS_PutBenchmark fs d (res : BenchmarkResult) :=
saving id fs d (PutBenchmark (fst_State fs) res).
Definition FS_PutRPCHealth fs d (update : RPCHealthUpdate) :=
saving (λ record, negb (str_eqb (rh_Endpoint record) "")) fs d (PutRPCHealth (fst_State fs) update).
(** [State] never returns an error from the creation of jobs. *)
Definition FS_CreateJob fs d (req : CreateRequest) :=
saving (λ _, true) fs d (CreateJob (fst_State fs) req).
Definition FS_CreateJobsBatch fs d (requests : list CreateRequest) :=
saving (λ _, true) fs d (CreateJobsBatch (fst_State fs) requests).
Definition FS_NextJobForWorker fs d (nodeID : string) :=
saving some fs d (NextJobForWorker (fst_State fs) nodeID).
Definition FS_UpdateCDIPStageState fs d (jobID : string) (next : StageState) (detail : string) :=
saving some fs d (UpdateCDIPStageState (fst_State fs) jobID next detail).
Definition FS_CompleteCoordinatorJob fs d (jobID text errText : string) :=
saving some fs d (CompleteCoordinatorJob (fst_State fs) jobID text errText).
(** A panic leaves the method before the save. *)
Definition FS_CompleteJob fs d (jobID : string) (req : CompleteRequest) :=
saving (λ r, match r with Ok job => some job | Err _ => false end) fs d
  (CompleteJob (fst_State fs) jobID req).
Definition FS_AppendConversationMessage fs d (id modelID nodeID systemPrompt : string) (message : ChatMessage) :=
saving (λ _, true) fs d (AppendConversationMessage (fst_State fs) id modelID nodeID systemPrompt message).
Definition FS_DeleteConversation fs d (id : string) :=
saving Datatypes.id fs d (DeleteConversation (fst_State fs) id).
Definition FS_DeleteMemory fs d (id : string) :=
saving Datatypes.id fs d (DeleteMemory (fst_State fs) id).
Definition FS_UpsertMemory fs d (memory : Memory) :=
saving (λ r, match r with Ok _ => true | Err _ => false end) fs d (UpsertMemory (fst_State fs) memory).
Definition FS_DeleteMemoriesByModel fs d (modelID : string) :=
saving (λ deleted, 0 <? deleted) fs d (DeleteMemoriesByModel (fst_State fs) modelID).
Definition FS_CancelJob fs d (jobID : string) :=
saving some fs d (CancelJob (fst_State fs) jobID).

(** The methods promoted from [State]: no save. *)
Definition unsaved {R} (fs : FileStore) (d : disk) (out : State * R) : FileStore * disk * R :=
saving (λ _, false) fs d out.

(** One operation of the manager on the file store. *)
Definition fexec (fs : FileStore) (d : disk) (op : store_op) : FileStore * disk :=
match op with
| OpRegisterWorker req => (FS_RegisterWorker fs d req).1
| OpHeartbeat hb => (FS_Heartbeat fs d hb).1
| OpMarkWorkerOffline nodeID => (FS_MarkWorkerOffline fs d nodeID).1
| OpPutBenchmark res => (FS_PutBenchmark fs d res).1
| OpPutRPCHealth update => (FS_PutRPCHealth fs d update).1
| OpCreateJob req => (FS_CreateJob fs d req).1
| OpCreateJobsBatch requests => (FS_CreateJobsBatch fs d requests).1
| OpNextJobForWorker nodeID => (FS_NextJobForWorker fs d nodeID).1
| OpUpdateJobProgress jobID req => (unsaved fs d (UpdateJobProgress (fst_State fs) jobID req)).1
| OpUpdateCDIPStageState jobID next detail => (FS_UpdateCDIPStageState fs d jobID next detail).1
| OpCompleteCoordinatorJob jobID text errText => (FS_CompleteCoordinatorJob fs d jobID text errText).1
| OpCompleteJob jobID req => (FS_CompleteJob fs d jobID req).1
| OpCancelJob jobID => (FS_CancelJob fs d jobID).1
| OpNodes => (unsaved fs d (Nodes (fst_State fs))).1
| OpAppendConversationMessage id modelID nodeID systemPrompt message =>
    (FS_AppendConversationMessage fs d id modelID nodeID systemPrompt message).1
| OpDeleteConversation id => (FS_DeleteConversation fs d id).1
| OpDeleteMemory id => (FS_DeleteMemory fs d id).1
| OpUpsertMemory memory => (FS_UpsertMemory fs d memory).1
| OpDeleteMemoriesByModel modelID => (FS_DeleteMemoriesByModel fs d modelID).1
end.

(** The disks a save goes through, at each of which the process may stop: the
  state before, the temporary file cut anywhere, the state after. *)
Definition save_disks (fs : FileStore) (d : disk) : list disk :=
let tmp := tmp_path (fst_path fs) in
d :: match MarshalIndent (snapshot_of (fst_State fs)) with
     | None => []
     | Some data => (λ n, <[tmp := String.substring 0 n data]> d) <$> seq 0 (S (String.length data))
     end ++ [(save fs d).1].
End store.

(** ** Lemmas: copies and snapshots *)

Lemma clone_map_eq `{World} {V} t (f : string → V → V) (m : gmap string V) :
  (∀ k v, f k v = v) → clone_map t f m = m.
Proof.
  intros Hf.
  assert (∀ ks (out : gmap string V) k, foldl (λ (out : gmap string V) key, match m !! key with
      Some value => <[key := f key value]> out | None => out end) out ks !! k =
    if bool_decide (k ∈ ks) then (match m !! k with Some v => Some v | None => out !! k end) else out !! k)
    as Hl.
  { induction ks as [|k0 ks IH]; intros out k; simpl; [done|]. rewrite IH.
    destruct (decide (k = k0)) as [->|Hne].
    - rewrite (bool_decide_eq_true_2 (k0 ∈ k0 :: ks)) by left.
      case_bool_decide; destruct (m !! k0); by rewrite ?lookup_insert_eq, ?Hf.
    - rewrite (bool_decide_ext (k ∈ k0 :: ks) (k ∈ ks)) by set_solver.
      replace ((match m !! k0 with Some value => <[k0:=f k0 value]> out | None => out end) !! k)
        with (out !! k) by (destruct (m !! k0); [by rewrite lookup_insert_ne|done]).
      done. }
  apply map_eq. intros k. unfold clone_map. rewrite Hl, lookup_empty.
  destruct (m !! k) eqn:E; [|by case_bool_decide].
  rewrite bool_decide_eq_true_2; [done|]. apply range_keys_elem. by eexists.
Qed.

(** The snapshot of a state, without the copying. *)
Definition full_snapshot (s : State) : fileStoreSnapshot :=
  mkSnapshot (st_startedAt s) (Some (st_nodes s)) (Some (st_benchmarks s)) (Some (st_rpcHealth s))
    (Some (st_jobs s)) (Some (st_conversations s)) (Some (st_memories s)).

Lemma snapshot_of_full `{World} s : snapshot_of s = full_snapshot s.
Proof.
  unfold snapshot_of, full_snapshot, cloneNodes, cloneBenchmarks, cloneRPCHealth, cloneJobs,
    cloneConversations, cloneMemories.
  repeat (rewrite clone_map_eq; [|try done]); [done|by intros _ []|].
  intros k v. by apply clone_map_eq.
Qed.

Lemma omit_default {V} (m : gmap string V) : default ∅ (omit (Some m)) = m.
Proof.
  unfold omit. destruct (map_to_list m) eqn:E; [|done].
  by apply map_to_list_empty_iff in E as ->.
Qed.

#[local] Arguments omit : simpl never.

(** What a manager's restart keeps of the configuration of a state. *)
Record fresh_config (s : State) : Prop := {
  fc_started : st_startedAt s ≠ 0;
  fc_timeout : st_heartbeatTimeout s = 30 * Second;
}.

Lemma restore_full now s :
  fresh_config s → restore (omitempty (full_snapshot s)) (NewState now) = s.
Proof.
  intros [Hs Ht]. destruct s as [t0 tm no be rp jo co me]. simpl in *.
  unfold restore, omitempty, full_snapshot. simpl. unfold IsZero. rewrite (proj2 (Z.eqb_neq t0 0)) by done.
  simpl. pose proof (omit_default rp) as Hr. pose proof (omit_default co) as Hc. pose proof (omit_default me) as Hm.
  subst tm. destruct (omit (Some rp)), (omit (Some co)), (omit (Some me)); simpl in Hr, Hc, Hm; subst; reflexivity.
Qed.

Lemma tmp_path_ne path : tmp_path path ≠ path.
Proof.
  unfold tmp_path. induction path as [|a path IH]; [done|]. simpl. by intros [= ?].
Qed.
#[export] Hint Resolve tmp_path_ne : cmesh.

(** ** Lemmas: save *)

Section save_lemmas.
Context `{World} `{SnapshotJson}.

(** A save without faults puts the encoded state into the store's file. *)
Lemma save_faultless fs d data :
MarshalIndent (full_snapshot (fst_State fs)) = Some data →
@save _ _ faultless fs d =
  (<[fst_path fs := data]> (delete (tmp_path (fst_path fs)) (<[tmp_path (fst_path fs) := data]> d)), None).
Proof.
intros Hm. unfold save. rewrite snapshot_of_full, Hm. unfold WriteFile, Rename. simpl.
by rewrite lookup_insert_eq.
Qed.

Lemma save_faultless_path fs d data :
MarshalIndent (full_snapshot (fst_State fs)) = Some data →
(@save _ _ faultless fs d).1 !! fst_path fs = Some data.
Proof. intros Hm. rewrite (save_faultless fs d data Hm). by apply lookup_insert_eq. Qed.

(** Whatever fails, the file has the old or the new contents. *)
Lemma save_path `{IO} fs d :
(save fs d).1 !! fst_path fs = d !! fst_path fs ∨
∃ data, MarshalIndent (full_snapshot (fst_State fs)) = Some data ∧
        (save fs d).1 !! fst_path fs = Some data.
Proof.
pose proof (tmp_path_ne (fst_path fs)) as Hne.
unfold save. rewrite snapshot_of_full.
destruct (MarshalIndent _) as [data|] eqn:Hm; [|by left].
destruct io_mkdir; [by left|]. unfold WriteFile. destruct io_open; [by left|].
destruct io_write as [[n e]|]; [left; simpl; by rewrite lookup_insert_ne|].
unfold Rename. rewrite lookup_insert_eq. destruct io_rename; simpl.
- left. by rewrite lookup_insert_ne.
- right. exists data. split; [done|]. by rewrite lookup_insert_eq.
Qed.

Lemma save_disks_path `{IO} fs d d' :
d' ∈ save_disks fs d →
d' !! fst_path fs = d !! fst_path fs ∨
∃ data, MarshalIndent (full_snapshot (fst_State fs)) = Some data ∧ d' !! fst_path fs = Some data.
Proof.
pose proof (tmp_path_ne (fst_path fs)) as Hne. unfold save_disks. rewrite snapshot_of_full.
rewrite elem_of_cons, elem_of_app, list_elem_of_singleton.
intros [->|[Hd| ->]]; [by left| |by apply save_path].
left. destruct (MarshalIndent _) as [data|]; [|by apply elem_of_nil in Hd].
apply list_elem_of_fmap in Hd as (n & -> & _). by rewrite lookup_insert_ne.
Qed.

Lemma save_disks_others `{IO} fs d d' p :
p ≠ fst_path fs → p ≠ tmp_path (fst_path fs) → d' ∈ save_disks fs d → d' !! p = d !! p.
Proof.
intros Hp Ht. unfold save_disks.
assert ((save fs d).1 !! p = d !! p) as Hs.
{ unfold save. destruct (MarshalIndent _); [|done]. destruct io_mkdir; [done|].
  unfold WriteFile. destruct io_open; [done|].
  destruct io_write as [[n e]|]; [simpl; by rewrite lookup_insert_ne|].
  unfold Rename. rewrite lookup_insert_eq. destruct io_rename; simpl;
    by rewrite ?lookup_insert_ne, ?lookup_delete_ne, ?lookup_insert_ne. }
rewrite elem_of_cons, elem_of_app, list_elem_of_singleton.
intros [->|[Hd| ->]]; [done| |done].
destruct (MarshalIndent _) as [data|]; [|by apply elem_of_nil in Hd].
apply list_elem_of_fmap in Hd as (n & -> & _). by rewrite lookup_insert_ne.
Qed.

(** The outcome of a start depends on the store's file only. *)
Lemma NewFileStore_path path d d' :
d !! path = d' !! path → (@NewFileStore _ _ faultless path d).2 = (@NewFileStore _ _ faultless path d').2.
Proof.
intros Hd. unfold NewFileStore, load, ReadFile. simpl. rewrite <- Hd.
destruct (d !! path) as [data|].
- destruct (str_eqb data ""); [done|]. by destruct (UnmarshalSnapshot data).
- set (fs := mkFileStore _ _).
  destruct (MarshalIndent (full_snapshot (fst_State fs))) as [data|] eqn:Hm.
  + by rewrite !(save_faultless fs _ data Hm).
  + unfold save. by rewrite snapshot_of_full, Hm.
Qed.

Lemma NewFileStore_restores fs d data :
fresh_config (fst_State fs) → snapshot_ok (full_snapshot (fst_State fs)) →
MarshalIndent (full_snapshot (fst_State fs)) = Some data → d !! fst_path fs = Some data →
@NewFileStore _ _ faultless (fst_path fs) d = (d, Ok fs).
Proof.
intros Hc Hok Hm Hd. destruct (snapshot_roundtrip _ Hok) as (data' & Hm' & Hne & Hu).
simplify_eq. unfold NewFileStore, load, ReadFile. simpl. rewrite Hd.
rewrite bool_decide_eq_false_2 by done. rewrite Hu. simpl.
rewrite restore_full by done. by destruct fs.
Qed.
End save_lemmas.

(** ** Lemmas: the configuration never changes *)

Definition config (s : State) : Time * Z := (st_startedAt s, st_heartbeatTimeout s).

Section config.
Context `{World} `{Codecs}.

Lemma schedule_config s now : config (scheduleQueuedJobsLocked s now) = config s.
Proof. apply (foldl_keeps config). intros a x. unfold schedule_step. by repeat (case_match; try done). Qed.
Lemma fail_config s n now r : config (failActiveJobsForWorkerLocked s n now r) = config s.
Proof. apply (foldl_keeps config). intros a x. unfold fail_step. by repeat (case_match; try done). Qed.
Lemma offline_config s n now r : config (markWorkerOfflineLocked s n now r).1 = config s.
Proof. unfold markWorkerOfflineLocked. case_match; [|done]. simpl. by rewrite fail_config. Qed.
Lemma create_config s t now req : config (create_job s t now req).1 = config s.
Proof. done. Qed.
Lemma create_loop_config s i reqs : config (create_loop s i reqs).1 = config s.
Proof.
revert s i. induction reqs as [|req reqs IH]; intros s i; cbn [create_loop]; [done|].
destruct (create_job s ["create"; pretty i] (w_clock ["now"]) req) as [s1 job] eqn:E.
pose proof (IH s1 (S i)) as IH'. destruct (create_loop s1 (S i) reqs) as [s2 l]. cbn [fst] in *.
rewrite IH'. apply (f_equal fst) in E. cbn [fst] in E. rewrite <- E. apply create_config.
Qed.
Lemma next_config s n now jobs : config (next_loop s n now jobs).1 = config s.
Proof. induction jobs as [|job jobs IH]; simpl; [done|]. by case_match. Qed.
Lemma nodes_config now ks acc : config (foldl (nodes_step now) acc ks).1 = config acc.1.
Proof.
apply (foldl_keeps (λ a, config a.1)). intros [s l] id. unfold nodes_step.
destruct (st_nodes s !! id) as [node|]; [|done].
by case_match; [simpl; rewrite fail_config|].
Qed.

Lemma append_config s job now : config (appendAssistantMessageForJobLocked s job now) = config s.
Proof. unfold appendAssistantMessageForJobLocked. by repeat (case_match; try done). Qed.
Lemma cleanup_config s job : config (cleanupModelPersistenceForDeleteJobLocked s job).1 = config s.
Proof. unfold cleanupModelPersistenceForDeleteJobLocked. by repeat (case_match; try done). Qed.

Lemma complete_config s jobID req : config (CompleteJob s jobID req).1 = config s.
Proof.
unfold CompleteJob. destruct (st_jobs s !! jobID) as [job|]; [|done].
do 3 (case_match; [done|]). set (job' := job <| job_Result := _ |> <| job_Error := _ |> <| job_UpdatedAt := _ |>).
destruct (negb _); simpl.
- by rewrite schedule_config.
- set (j2 := job' <| job_Status := _ |> <| job_FinishedAt := _ |>).
  pose proof (cleanup_config (appendAssistantMessageForJobLocked s j2 (w_clock ["now"])) j2) as Hc.
  destruct (cleanupModelPersistenceForDeleteJobLocked _ _) as [s' [j|e]]; simpl in *;
    rewrite ?schedule_config; etrans; [exact Hc|apply append_config|exact Hc|apply append_config].
Qed.

(** No operation changes the start time or the heartbeat timeout. *)
Lemma exec_config s op : config (exec s op) = config s.
Proof.
destruct op; simpl; try done.
- by rewrite schedule_config.
- unfold HeartbeatOp. case_match; [|done]. simpl. by rewrite schedule_config.
- apply offline_config.
- unfold PutBenchmark. by case_match.
- unfold PutRPCHealth. by case_match.
- apply create_loop_config.
- apply next_config.
- unfold UpdateJobProgress. by repeat (case_match; try done).
- unfold UpdateCDIPStageState. by repeat (case_match; try done).
- unfold CompleteCoordinatorJob. by repeat (case_match; try done).
- apply complete_config.
- unfold CancelJob. repeat (case_match; try done). simpl. by rewrite schedule_config.
- apply nodes_config.
- unfold AppendConversationMessage. by repeat (case_match; simplify_eq/=; try done).
- unfold DeleteConversation. by case_match.
- unfold DeleteMemory. by case_match.
- unfold UpsertMemory. by case_match.
- unfold DeleteMemoriesByModel. by repeat (case_match; simplify_eq/=; try done).
Qed.
End config.

(** ** Lemmas: the methods *)

Section methods.
Context `{World} `{Codecs} `{SnapshotJson} `{IO}.

(** The operations whose effect is in the file afterwards: all but progress
  reports, the time-outs found by listing the nodes, and a completion that
  panics. *)
Definition durable (s : State) (op : store_op) : Prop :=
match op with
| OpUpdateJobProgress _ _ | OpNodes => False
| OpCompleteJob jobID req => ∃ job, (CompleteJob s jobID req).2 = Ok job
| _ => True
end.

Lemma saving_state {R} (saves : R → bool) fs d (out : State * R) :
(saving saves fs d out).1.1 = fs <| fst_State := out.1 |>.
Proof. done. Qed.

Lemma saving_cases {R} (saves : R → bool) fs d (out : State * R) s' :
out.1 = s' → (saves out.2 = false → s' = fst_State fs) →
(saving saves fs d out).1 = (fs <| fst_State := s' |>, (save (fs <| fst_State := s' |>) d).1) ∨
(saving saves fs d out).1 = (fs, d) ∧ s' = fst_State fs.
Proof.
intros <- Hs. unfold saving. destruct (saves out.2); [by left|right].
specialize (Hs eq_refl). split; [|done]. rewrite Hs. by destruct fs.
Qed.

Lemma fexec_state fs d op : (fexec fs d op).1 = fs <| fst_State := exec (fst_State fs) op |>.
Proof. destruct op; cbn [fexec exec]; apply saving_state. Qed.

(** A method that reports failure has changed nothing. *)
Lemma rejected_unchanged fs d op :
durable (fst_State fs) op →
fexec fs d op = (fs <| fst_State := exec (fst_State fs) op |>,
                 (save (fs <| fst_State := exec (fst_State fs) op |>) d).1) ∨
fexec fs d op = (fs, d) ∧ exec (fst_State fs) op = fst_State fs.
Proof.
set (s := fst_State fs). intros Hd.
destruct op; cbn [durable] in Hd; try contradiction; cbn [fexec exec];
  (apply saving_cases; [reflexivity|]); fold s; try discriminate; simpl.
- unfold HeartbeatOp. by case_match.
- unfold MarkWorkerOffline, markWorkerOfflineLocked. by case_match.
- unfold PutBenchmark. by case_match.
- unfold PutRPCHealth. case_match; [done|]. simpl. unfold set. simpl.
  intros Hf. apply negb_false_iff in Hf. exfalso. revert Hf.
  repeat case_match; simpl; congruence.
- unfold NextJobForWorker. induction (range_values _ _) as [|j l IH]; simpl; [done|]. by case_match.
- unfold UpdateCDIPStageState. by repeat (case_match; try done).
- unfold CompleteCoordinatorJob. by repeat (case_match; try done).
- destruct Hd as [job Hj]. revert Hj. fold s. unfold CompleteJob.
  repeat (case_match; simplify_eq/=; try done).
- unfold CancelJob. by repeat (case_match; try done).
- unfold DeleteConversation. by case_match.
- unfold DeleteMemory. by case_match.
- unfold UpsertMemory. by destruct (first_error _).
- unfold DeleteMemoriesByModel. case_match; [done|].
  destruct (delete_loop _ _ _) as [m n] eqn:E. simpl. intros Hn.
  pose proof (delete_loop_spec ["memories"] (λ m, str_eqb (memo_ModelID m) (TrimSpace modelID)) (st_memories s)) as [D1 D2].
  rewrite E in D1, D2. cbn [fst snd] in *.
  rewrite (map_subseteq_size_eq m (st_memories s)); [by destruct s| |lia].
  rewrite D1. apply map_filter_subseteq.
Qed.
End methods.

(** ** Runs of a manager on the file store *)

Section runs.
Context `{Codecs} `{SnapshotJson}.

(** A run: each operation in a world of its own, no fault of the disk. *)
Definition fs_run (l : list (World * store_op)) (st : FileStore * disk) : FileStore * disk :=
foldl (λ st o, @fexec o.1 _ _ faultless st.1 st.2 o.2) st l.
(** The same operations on the store in memory. *)
Definition mem_run (l : list (World * store_op)) (s : State) : State :=
foldl (λ s o, @exec o.1 _ s o.2) s l.

(** Every state of the run can be encoded and every operation saves. *)
Fixpoint run_ok (s : State) (l : list (World * store_op)) : Prop :=
snapshot_ok (full_snapshot s) ∧
match l with
| [] => True
| (W, op) :: l => durable s op ∧ run_ok (exec s op) l
end.

(** The file holds the state. *)
Definition in_sync (fs : FileStore) (d : disk) : Prop :=
∃ data, MarshalIndent (full_snapshot (fst_State fs)) = Some data ∧ d !! fst_path fs = Some data.

Lemma fexec_in_sync (W : World) fs d op :
durable (fst_State fs) op → snapshot_ok (full_snapshot (exec (fst_State fs) op)) →
in_sync fs d → in_sync (@fexec _ _ _ faultless fs d op).1 (@fexec _ _ _ faultless fs d op).2.
Proof.
intros Hd Hok Hs. destruct (@rejected_unchanged W _ _ faultless fs d op Hd) as [-> | [-> _]]; [|done].
destruct (snapshot_roundtrip _ Hok) as (data & Hm & _ & _). exists data. split; [done|].
by apply (save_faultless_path (fs <| fst_State := exec (fst_State fs) op |>)).
Qed.

Lemma fs_run_spec l fs d :
run_ok (fst_State fs) l → in_sync fs d →
(fs_run l (fs, d)).1 = fs <| fst_State := mem_run l (fst_State fs) |> ∧
in_sync (fs_run l (fs, d)).1 (fs_run l (fs, d)).2 ∧
config (mem_run l (fst_State fs)) = config (fst_State fs) ∧
snapshot_ok (full_snapshot (mem_run l (fst_State fs))).
Proof.
revert fs d. induction l as [|[W op] l IH]; intros fs d Hr Hs.
{ split_and!; [by destruct fs|done|done|]. by destruct Hr. }
destruct Hr as (Hok & Hd & Hr).
pose proof (fexec_in_sync W fs d op Hd) as Hs'.
assert (snapshot_ok (full_snapshot (exec (fst_State fs) op))) as Hok' by (destruct l as [|[??]?]; by destruct Hr).
specialize (Hs' Hok' Hs).
pose proof (@fexec_state W _ _ faultless fs d op) as Hst.
destruct (@fexec W _ _ faultless fs d op) as [fs1 d1] eqn:E. cbn [fst snd] in *. subst fs1.
pose proof (λ A, IH _ d1 A Hs') as IH'. destruct (IH' Hr) as (H1 & H2 & H3 & H4).
unfold fs_run, mem_run in *. cbn [foldl fst snd]. rewrite E.
split_and!; [by rewrite H1|done| |done]. etrans; [exact H3|]. apply exec_config.
Qed.
End runs.

(** ** Properties *)

(** C21 (roundtrip). A manager that starts without a state file and runs any
    sequence of saving operations is the manager kept in memory, and at any
    point of the run a new process reading the file gets exactly that state. *)
Theorem restart_restores_state `{Codecs} `{SnapshotJson} (W0 W1 : World) (path : string) (d : disk)
    (l : list (World * store_op)) :
  d !! path = None → @w_clock W0 ["now"] ≠ 0 → run_ok (NewState (@w_clock W0 ["now"])) l →
  ∃ d1 fs fs' d', @NewFileStore W0 _ faultless path d = (d1, Ok fs) ∧
    fs_run l (fs, d1) = (fs', d') ∧
    fst_State fs' = mem_run l (NewState (@w_clock W0 ["now"])) ∧
    @NewFileStore W1 _ faultless path d' = (d', Ok fs').
Proof.
  intros Hd Hc Hr. set (fs := mkFileStore (NewState (@w_clock W0 ["now"])) path).
  assert (snapshot_ok (full_snapshot (fst_State fs))) as Hok by (destruct l as [|[??]?]; by destruct Hr).
  destruct (snapshot_roundtrip _ Hok) as (data & Hm & _ & _).
  set (d1 := (@save W0 _ faultless fs d).1).
  assert (in_sync fs d1) as Hs by (exists data; split; [done|by apply save_faultless_path]).
  destruct (fs_run_spec l fs d1 Hr Hs) as (H1 & (data' & Hm' & Hd') & H3 & H4).
  exists d1, fs, (fs_run l (fs, d1)).1, (fs_run l (fs, d1)).2. split_and!.
  - unfold NewFileStore, load, ReadFile. simpl. rewrite Hd. fold fs.
    unfold d1. by rewrite (@save_faultless W0 _ fs d data Hm).
  - apply surjective_pairing.
  - by rewrite H1.
  - rewrite H1 in Hm', Hd' |- *. injection H3 as Ht Hh.
    apply (@NewFileStore_restores W1 _ (mkFileStore (mem_run l (fst_State fs)) path) _ data'); [|done..].
    split; cbn [fst_State]; unfold fs; cbn [fst_State]; [by rewrite Ht|by rewrite Hh].
Qed.

(** C34 (safety). A save is atomic: whatever fails during it and wherever the
    process stops, no other file is touched and the next start finds either the
    state saved before or the complete new one. *)
Theorem crash_keeps_old_or_new `{SnapshotJson} `{IO} (W : World) (fs : FileStore) (d d' : disk) :
  fresh_config (fst_State fs) → snapshot_ok (full_snapshot (fst_State fs)) → d' ∈ save_disks fs d →
  (∀ p, p ≠ fst_path fs → p ≠ tmp_path (fst_path fs) → d' !! p = d !! p) ∧
  ((@NewFileStore _ _ faultless (fst_path fs) d').2 = (@NewFileStore _ _ faultless (fst_path fs) d).2 ∨
   (@NewFileStore _ _ faultless (fst_path fs) d').2 = Ok fs).
Proof.
  intros Hc Hok Hd. split.
  - intros p Hp Ht. by apply (save_disks_others fs d d' p).
  - destruct (save_disks_path fs d d' Hd) as [Heq|(data & Hm & Hl)].
    + left. by apply NewFileStore_path.
    + right. by rewrite (NewFileStore_restores fs d' data).
Qed.

(** A save works on the snapshot taken under the lock, the file is written
    without it: a save that was overtaken puts the older state back. *)
Lemma overtaken_save_reverts `{SnapshotJson} (W : World) (older newer : FileStore) (d : disk) data :
  fst_path older = fst_path newer → MarshalIndent (full_snapshot (fst_State older)) = Some data →
  (@save _ _ faultless older (@save _ _ faultless newer d).1).1 !! fst_path newer = Some data.
Proof. intros <- Hm. by apply save_faultless_path. Qed.

(** ** Examples *)

(** An instance of the interface from any encoder and decoder: the snapshots
    they carry over are the ones it accepts. *)
Definition snapshot_codec (enc : fileStoreSnapshot → string) (dec : string → option fileStoreSnapshot)
    : SnapshotJson := {|
  MarshalIndent x := Some (enc x);
  UnmarshalSnapshot := dec;
  snapshot_ok x := enc x ≠ ""%string ∧ dec (enc x) = Some (omitempty x);
  snapshot_roundtrip x '(conj Hne Hd) := ex_intro _ (enc x) (conj eq_refl (conj Hne Hd));
|}.

Section demo.
#[local] Existing Instance demo_codecs.

Definition empty_state : State := NewState 5.
Definition joined_state : State := @exec (salted_world "a" 7) _ empty_state (OpRegisterWorker (join "a")).
(** Tells the two states apart by their nodes. *)
Definition two_snapshots : SnapshotJson :=
snapshot_codec
  (λ x, if decide (map_to_list (default ∅ (snap_Nodes x)) = []) then "0" else "1")
  (λ data, if str_eqb data "0" then Some (omitempty (full_snapshot empty_state))
           else Some (omitempty (full_snapshot joined_state))).

Lemma restart_restores_state_witness :
∃ d1 fs fs' d', @NewFileStore (world_at 5) two_snapshots faultless "s" ∅ = (d1, Ok fs) ∧
  @fs_run _ two_snapshots [(salted_world "a" 7, OpRegisterWorker (join "a"))] (fs, d1) = (fs', d') ∧
  fst_State fs' = joined_state ∧
  @NewFileStore (world_at 9) two_snapshots faultless "s" d' = (d', Ok fs').
Proof.
apply (@restart_restores_state _ two_snapshots (world_at 5) (world_at 9) "s" ∅
         [(salted_world "a" 7, OpRegisterWorker (join "a"))]).
- reflexivity.
- discriminate.
- split; [vm_compute; by split|]. split; [exact I|]. split; [|exact I]. vm_compute. by split.
Defined.

Lemma crash_keeps_old_or_new_witness :
let fs := mkFileStore joined_state "s" in
let d : gmap string string := {[ "s" := "0" ]} in
let d' := <[tmp_path "s" := ""]> d in
(∀ p, p ≠ fst_path fs → p ≠ tmp_path (fst_path fs) → d' !! p = d !! p) ∧
((@NewFileStore (world_at 9) two_snapshots faultless "s" d').2
   = (@NewFileStore (world_at 9) two_snapshots faultless "s" d).2 ∨
 (@NewFileStore (world_at 9) two_snapshots faultless "s" d').2 = Ok fs).
Proof.
apply (@crash_keeps_old_or_new two_snapshots (mkIO None None None (Some (0%nat, "disk full")) None)
         (world_at 9) (mkFileStore joined_state "s")).
- by split.
- vm_compute. by split.
- right. left.
Defined.

(** A progress report changes the state but not the file: after a restart it is
  gone. *)
Example progress_not_saved :
let fs := mkFileStore running_state "s" in
let op := OpUpdateJobProgress (job_of "j") (mkProgressRequest (node_of "a") 1 2 f_zero "") in
(@fexec (world_at 60) _ two_snapshots faultless fs ∅ op).2 = ∅ ∧
(job_Result <$> st_jobs (fst_State (@fexec (world_at 60) _ two_snapshots faultless fs ∅ op).1) !! job_of "j")
  ≠ (job_Result <$> st_jobs running_state !! job_of "j").
Proof. split; [reflexivity|]. vm_compute. discriminate. Qed.
End demo.
