(* ===== verification/ModelView.v ===== *)
(** * The manager's view of models

    [internal/manager/models.go]: where models are installed and ready, which
    workers could take a model and why not, the filtered catalog, and the
    placement plan of a model over one or several workers. *)

From S2P Require Import Prelude GoString GoSort GoFloat World Json Cdip Types Protocol Models State.

Record ModelCapability := mkModelCapability {
  cap_NodeID : string;
  cap_Name : string;
  cap_Capable : bool;
  cap_Installed : bool;
  cap_AllowedMemoryBytes : Z;
  cap_AllowedStorageBytes : Z;
  cap_FreeStorageBytes : Z;
  cap_AllowedVRAMBytes : Z;
  cap_ActiveJobs : Z;
  cap_ActiveJobID : string;
  cap_JobSlots : Z;
  cap_Reasons : list string;
}.

(* field setters *)
#[export] Instance set_cap_NodeID : Setter cap_NodeID := λ f r, mkModelCapability (f (cap_NodeID r)) (cap_Name r) (cap_Capable r) (cap_Installed r) (cap_AllowedMemoryBytes r) (cap_AllowedStorageBytes r) (cap_FreeStorageBytes r) (cap_AllowedVRAMBytes r) (cap_ActiveJobs r) (cap_ActiveJobID r) (cap_JobSlots r) (cap_Reasons r).
#[export] Instance set_cap_Name : Setter cap_Name := λ f r, mkModelCapability (cap_NodeID r) (f (cap_Name r)) (cap_Capable r) (cap_Installed r) (cap_AllowedMemoryBytes r) (cap_AllowedStorageBytes r) (cap_FreeStorageBytes r) (cap_AllowedVRAMBytes r) (cap_ActiveJobs r) (cap_ActiveJobID r) (cap_JobSlots r) (cap_Reasons r).
#[export] Instance set_cap_Capable : Setter cap_Capable := λ f r, mkModelCapability (cap_NodeID r) (cap_Name r) (f (cap_Capable r)) (cap_Installed r) (cap_AllowedMemoryBytes r) (cap_AllowedStorageBytes r) (cap_FreeStorageBytes r) (cap_AllowedVRAMBytes r) (cap_ActiveJobs r) (cap_ActiveJobID r) (cap_JobSlots r) (cap_Reasons r).
#[export] Instance set_cap_Installed : Setter cap_Installed := λ f r, mkModelCapability (cap_NodeID r) (cap_Name r) (cap_Capable r) (f (cap_Installed r)) (cap_AllowedMemoryBytes r) (cap_AllowedStorageBytes r) (cap_FreeStorageBytes r) (cap_AllowedVRAMBytes r) (cap_ActiveJobs r) (cap_ActiveJobID r) (cap_JobSlots r) (cap_Reasons r).
#[export] Instance set_cap_AllowedMemoryBytes : Setter cap_AllowedMemoryBytes := λ f r, mkModelCapability (cap_NodeID r) (cap_Name r) (cap_Capable r) (cap_Installed r) (f (cap_AllowedMemoryBytes r)) (cap_AllowedStorageBytes r) (cap_FreeStorageBytes r) (cap_AllowedVRAMBytes r) (cap_ActiveJobs r) (cap_ActiveJobID r) (cap_JobSlots r) (cap_Reasons r).
#[export] Instance set_cap_AllowedStorageBytes : Setter cap_AllowedStorageBytes := λ f r, mkModelCapability (cap_NodeID r) (cap_Name r) (cap_Capable r) (cap_Installed r) (cap_AllowedMemoryBytes r) (f (cap_AllowedStorageBytes r)) (cap_FreeStorageBytes r) (cap_AllowedVRAMBytes r) (cap_ActiveJobs r) (cap_ActiveJobID r) (cap_JobSlots r) (cap_Reasons r).
#[export] Instance set_cap_FreeStorageBytes : Setter cap_FreeStorageBytes := λ f r, mkModelCapability (cap_NodeID r) (cap_Name r) (cap_Capable r) (cap_Installed r) (cap_AllowedMemoryBytes r) (cap_AllowedStorageBytes r) (f (cap_FreeStorageBytes r)) (cap_AllowedVRAMBytes r) (cap_ActiveJobs r) (cap_ActiveJobID r) (cap_JobSlots r) (cap_Reasons r).
#[export] Instance set_cap_AllowedVRAMBytes : Setter cap_AllowedVRAMBytes := λ f r, mkModelCapability (cap_NodeID r) (cap_Name r) (cap_Capable r) (cap_Installed r) (cap_AllowedMemoryBytes r) (cap_AllowedStorageBytes r) (cap_FreeStorageBytes r) (f (cap_AllowedVRAMBytes r)) (cap_ActiveJobs r) (cap_ActiveJobID r) (cap_JobSlots r) (cap_Reasons r).
#[export] Instance set_cap_ActiveJobs : Setter cap_ActiveJobs := λ f r, mkModelCapability (cap_NodeID r) (cap_Name r) (cap_Capable r) (cap_Installed r) (cap_AllowedMemoryBytes r) (cap_AllowedStorageBytes r) (cap_FreeStorageBytes r) (cap_AllowedVRAMBytes r) (f (cap_ActiveJobs r)) (cap_ActiveJobID r) (cap_JobSlots r) (cap_Reasons r).
#[export] Instance set_cap_ActiveJobID : Setter cap_ActiveJobID := λ f r, mkModelCapability (cap_NodeID r) (cap_Name r) (cap_Capable r) (cap_Installed r) (cap_AllowedMemoryBytes r) (cap_AllowedStorageBytes r) (cap_FreeStorageBytes r) (cap_AllowedVRAMBytes r) (cap_ActiveJobs r) (f (cap_ActiveJobID r)) (cap_JobSlots r) (cap_Reasons r).
#[export] Instance set_cap_JobSlots : Setter cap_JobSlots := λ f r, mkModelCapability (cap_NodeID r) (cap_Name r) (cap_Capable r) (cap_Installed r) (cap_AllowedMemoryBytes r) (cap_AllowedStorageBytes r) (cap_FreeStorageBytes r) (cap_AllowedVRAMBytes r) (cap_ActiveJobs r) (cap_ActiveJobID r) (f (cap_JobSlots r)) (cap_Reasons r).
#[export] Instance set_cap_Reasons : Setter cap_Reasons := λ f r, mkModelCapability (cap_NodeID r) (cap_Name r) (cap_Capable r) (cap_Installed r) (cap_AllowedMemoryBytes r) (cap_AllowedStorageBytes r) (cap_FreeStorageBytes r) (cap_AllowedVRAMBytes r) (cap_ActiveJobs r) (cap_ActiveJobID r) (cap_JobSlots r) (f (cap_Reasons r)).

Record ModelInstall := mkModelInstall {
  inst_NodeID : string;
  inst_NodeName : string;
  inst_Path : string;
  inst_Bytes : Z;
  inst_Family : string;
  inst_Runtime : string;
  inst_InstalledAt : Time;
  inst_ModelReady : bool;
  inst_ModelError : string;
  inst_Repairable : bool;
  inst_RepairReason : string;
  inst_RuntimeReady : bool;
  inst_RuntimeStatus : RuntimeResource;
  inst_GenerateReady : bool;
  inst_GenerateBlocked : string;
  inst_AllowedStorageBytes : Z;
  inst_FreeStorageBytes : Z;
  inst_UsedByModelsBytes : Z;
  inst_UsedByCacheBytes : Z;
  inst_ActiveJobID : string;
}.

Record ModelSummary := mkModelSummary {
  sum_Model : Model;
  sum_Status : string;
  sum_InstalledOn : list string;
  sum_GeneratableOn : list string;
  sum_Installed : list ModelInstall;
  sum_ActiveJobID : string;
  sum_LastJobID : string;
  sum_LastError : string;
  sum_LastUpdated : Time;
  sum_CapableNodes : Z;
  sum_Capabilities : list ModelCapability;
}.

(* field setters *)
#[export] Instance set_sum_Model : Setter sum_Model := λ f r, mkModelSummary (f (sum_Model r)) (sum_Status r) (sum_InstalledOn r) (sum_GeneratableOn r) (sum_Installed r) (sum_ActiveJobID r) (sum_LastJobID r) (sum_LastError r) (sum_LastUpdated r) (sum_CapableNodes r) (sum_Capabilities r).
#[export] Instance set_sum_Status : Setter sum_Status := λ f r, mkModelSummary (sum_Model r) (f (sum_Status r)) (sum_InstalledOn r) (sum_GeneratableOn r) (sum_Installed r) (sum_ActiveJobID r) (sum_LastJobID r) (sum_LastError r) (sum_LastUpdated r) (sum_CapableNodes r) (sum_Capabilities r).
#[export] Instance set_sum_InstalledOn : Setter sum_InstalledOn := λ f r, mkModelSummary (sum_Model r) (sum_Status r) (f (sum_InstalledOn r)) (sum_GeneratableOn r) (sum_Installed r) (sum_ActiveJobID r) (sum_LastJobID r) (sum_LastError r) (sum_LastUpdated r) (sum_CapableNodes r) (sum_Capabilities r).
#[export] Instance set_sum_GeneratableOn : Setter sum_GeneratableOn := λ f r, mkModelSummary (sum_Model r) (sum_Status r) (sum_InstalledOn r) (f (sum_GeneratableOn r)) (sum_Installed r) (sum_ActiveJobID r) (sum_LastJobID r) (sum_LastError r) (sum_LastUpdated r) (sum_CapableNodes r) (sum_Capabilities r).
#[export] Instance set_sum_Installed : Setter sum_Installed := λ f r, mkModelSummary (sum_Model r) (sum_Status r) (sum_InstalledOn r) (sum_GeneratableOn r) (f (sum_Installed r)) (sum_ActiveJobID r) (sum_LastJobID r) (sum_LastError r) (sum_LastUpdated r) (sum_CapableNodes r) (sum_Capabilities r).
#[export] Instance set_sum_ActiveJobID : Setter sum_ActiveJobID := λ f r, mkModelSummary (sum_Model r) (sum_Status r) (sum_InstalledOn r) (sum_GeneratableOn r) (sum_Installed r) (f (sum_ActiveJobID r)) (sum_LastJobID r) (sum_LastError r) (sum_LastUpdated r) (sum_CapableNodes r) (sum_Capabilities r).
#[export] Instance set_sum_LastJobID : Setter sum_LastJobID := λ f r, mkModelSummary (sum_Model r) (sum_Status r) (sum_InstalledOn r) (sum_GeneratableOn r) (sum_Installed r) (sum_ActiveJobID r) (f (sum_LastJobID r)) (sum_LastError r) (sum_LastUpdated r) (sum_CapableNodes r) (sum_Capabilities r).
#[export] Instance set_sum_LastError : Setter sum_LastError := λ f r, mkModelSummary (sum_Model r) (sum_Status r) (sum_InstalledOn r) (sum_GeneratableOn r) (sum_Installed r) (sum_ActiveJobID r) (sum_LastJobID r) (f (sum_LastError r)) (sum_LastUpdated r) (sum_CapableNodes r) (sum_Capabilities r).
#[export] Instance set_sum_LastUpdated : Setter sum_LastUpdated := λ f r, mkModelSummary (sum_Model r) (sum_Status r) (sum_InstalledOn r) (sum_GeneratableOn r) (sum_Installed r) (sum_ActiveJobID r) (sum_LastJobID r) (sum_LastError r) (f (sum_LastUpdated r)) (sum_CapableNodes r) (sum_Capabilities r).
#[export] Instance set_sum_CapableNodes : Setter sum_CapableNodes := λ f r, mkModelSummary (sum_Model r) (sum_Status r) (sum_InstalledOn r) (sum_GeneratableOn r) (sum_Installed r) (sum_ActiveJobID r) (sum_LastJobID r) (sum_LastError r) (sum_LastUpdated r) (f (sum_CapableNodes r)) (sum_Capabilities r).
#[export] Instance set_sum_Capabilities : Setter sum_Capabilities := λ f r, mkModelSummary (sum_Model r) (sum_Status r) (sum_InstalledOn r) (sum_GeneratableOn r) (sum_Installed r) (sum_ActiveJobID r) (sum_LastJobID r) (sum_LastError r) (sum_LastUpdated r) (sum_CapableNodes r) (f (sum_Capabilities r)).

Record ModelCatalogFilters := mkModelCatalogFilters {
  filt_Query : string;
  filt_Status : string;
  filt_Family : string;
  filt_CapableOnly : bool;
  filt_Sort : string;
}.

(* field setters *)
#[export] Instance set_filt_Query : Setter filt_Query := λ f r, mkModelCatalogFilters (f (filt_Query r)) (filt_Status r) (filt_Family r) (filt_CapableOnly r) (filt_Sort r).
#[export] Instance set_filt_Status : Setter filt_Status := λ f r, mkModelCatalogFilters (filt_Query r) (f (filt_Status r)) (filt_Family r) (filt_CapableOnly r) (filt_Sort r).
#[export] Instance set_filt_Family : Setter filt_Family := λ f r, mkModelCatalogFilters (filt_Query r) (filt_Status r) (f (filt_Family r)) (filt_CapableOnly r) (filt_Sort r).
#[export] Instance set_filt_CapableOnly : Setter filt_CapableOnly := λ f r, mkModelCatalogFilters (filt_Query r) (filt_Status r) (filt_Family r) (f (filt_CapableOnly r)) (filt_Sort r).
#[export] Instance set_filt_Sort : Setter filt_Sort := λ f r, mkModelCatalogFilters (filt_Query r) (filt_Status r) (filt_Family r) (filt_CapableOnly r) (f (filt_Sort r)).

Record ModelPlanShard := mkModelPlanShard {
  ps_NodeID : string;
  ps_NodeName : string;
  ps_MemoryBytes : Z;
  ps_DiskBytes : Z;
  ps_AllowedMemoryBytes : Z;
  ps_AllowedStorageBytes : Z;
}.

Record ModelPlacementPlan := mkModelPlacementPlan {
  mpp_ModelID : string;
  mpp_Mode : string;
  mpp_Feasible : bool;
  mpp_RunnableNow : bool;
  mpp_RequiredMemoryBytes : Z;
  mpp_RequiredDiskBytes : Z;
  mpp_AggregateMemoryBytes : Z;
  mpp_AggregateDiskBytes : Z;
  mpp_SingleNodeCandidates : list ModelCapability;
  mpp_Shards : list ModelPlanShard;
  mpp_Blockers : list string;
  mpp_Warnings : list string;
}.

(* field setters *)
#[export] Instance set_mpp_ModelID : Setter mpp_ModelID := λ f r, mkModelPlacementPlan (f (mpp_ModelID r)) (mpp_Mode r) (mpp_Feasible r) (mpp_RunnableNow r) (mpp_RequiredMemoryBytes r) (mpp_RequiredDiskBytes r) (mpp_AggregateMemoryBytes r) (mpp_AggregateDiskBytes r) (mpp_SingleNodeCandidates r) (mpp_Shards r) (mpp_Blockers r) (mpp_Warnings r).
#[export] Instance set_mpp_Mode : Setter mpp_Mode := λ f r, mkModelPlacementPlan (mpp_ModelID r) (f (mpp_Mode r)) (mpp_Feasible r) (mpp_RunnableNow r) (mpp_RequiredMemoryBytes r) (mpp_RequiredDiskBytes r) (mpp_AggregateMemoryBytes r) (mpp_AggregateDiskBytes r) (mpp_SingleNodeCandidates r) (mpp_Shards r) (mpp_Blockers r) (mpp_Warnings r).
#[export] Instance set_mpp_Feasible : Setter mpp_Feasible := λ f r, mkModelPlacementPlan (mpp_ModelID r) (mpp_Mode r) (f (mpp_Feasible r)) (mpp_RunnableNow r) (mpp_RequiredMemoryBytes r) (mpp_RequiredDiskBytes r) (mpp_AggregateMemoryBytes r) (mpp_AggregateDiskBytes r) (mpp_SingleNodeCandidates r) (mpp_Shards r) (mpp_Blockers r) (mpp_Warnings r).
#[export] Instance set_mpp_RunnableNow : Setter mpp_RunnableNow := λ f r, mkModelPlacementPlan (mpp_ModelID r) (mpp_Mode r) (mpp_Feasible r) (f (mpp_RunnableNow r)) (mpp_RequiredMemoryBytes r) (mpp_RequiredDiskBytes r) (mpp_AggregateMemoryBytes r) (mpp_AggregateDiskBytes r) (mpp_SingleNodeCandidates r) (mpp_Shards r) (mpp_Blockers r) (mpp_Warnings r).
#[export] Instance set_mpp_RequiredMemoryBytes : Setter mpp_RequiredMemoryBytes := λ f r, mkModelPlacementPlan (mpp_ModelID r) (mpp_Mode r) (mpp_Feasible r) (mpp_RunnableNow r) (f (mpp_RequiredMemoryBytes r)) (mpp_RequiredDiskBytes r) (mpp_AggregateMemoryBytes r) (mpp_AggregateDiskBytes r) (mpp_SingleNodeCandidates r) (mpp_Shards r) (mpp_Blockers r) (mpp_Warnings r).
#[export] Instance set_mpp_RequiredDiskBytes : Setter mpp_RequiredDiskBytes := λ f r, mkModelPlacementPlan (mpp_ModelID r) (mpp_Mode r) (mpp_Feasible r) (mpp_RunnableNow r) (mpp_RequiredMemoryBytes r) (f (mpp_RequiredDiskBytes r)) (mpp_AggregateMemoryBytes r) (mpp_AggregateDiskBytes r) (mpp_SingleNodeCandidates r) (mpp_Shards r) (mpp_Blockers r) (mpp_Warnings r).
#[export] Instance set_mpp_AggregateMemoryBytes : Setter mpp_AggregateMemoryBytes := λ f r, mkModelPlacementPlan (mpp_ModelID r) (mpp_Mode r) (mpp_Feasible r) (mpp_RunnableNow r) (mpp_RequiredMemoryBytes r) (mpp_RequiredDiskBytes r) (f (mpp_AggregateMemoryBytes r)) (mpp_AggregateDiskBytes r) (mpp_SingleNodeCandidates r) (mpp_Shards r) (mpp_Blockers r) (mpp_Warnings r).
#[export] Instance set_mpp_AggregateDiskBytes : Setter mpp_AggregateDiskBytes := λ f r, mkModelPlacementPlan (mpp_ModelID r) (mpp_Mode r) (mpp_Feasible r) (mpp_RunnableNow r) (mpp_RequiredMemoryBytes r) (mpp_RequiredDiskBytes r) (mpp_AggregateMemoryBytes r) (f (mpp_AggregateDiskBytes r)) (mpp_SingleNodeCandidates r) (mpp_Shards r) (mpp_Blockers r) (mpp_Warnings r).
#[export] Instance set_mpp_SingleNodeCandidates : Setter mpp_SingleNodeCandidates := λ f r, mkModelPlacementPlan (mpp_ModelID r) (mpp_Mode r) (mpp_Feasible r) (mpp_RunnableNow r) (mpp_RequiredMemoryBytes r) (mpp_RequiredDiskBytes r) (mpp_AggregateMemoryBytes r) (mpp_AggregateDiskBytes r) (f (mpp_SingleNodeCandidates r)) (mpp_Shards r) (mpp_Blockers r) (mpp_Warnings r).
#[export] Instance set_mpp_Shards : Setter mpp_Shards := λ f r, mkModelPlacementPlan (mpp_ModelID r) (mpp_Mode r) (mpp_Feasible r) (mpp_RunnableNow r) (mpp_RequiredMemoryBytes r) (mpp_RequiredDiskBytes r) (mpp_AggregateMemoryBytes r) (mpp_AggregateDiskBytes r) (mpp_SingleNodeCandidates r) (f (mpp_Shards r)) (mpp_Blockers r) (mpp_Warnings r).
#[export] Instance set_mpp_Blockers : Setter mpp_Blockers := λ f r, mkModelPlacementPlan (mpp_ModelID r) (mpp_Mode r) (mpp_Feasible r) (mpp_RunnableNow r) (mpp_RequiredMemoryBytes r) (mpp_RequiredDiskBytes r) (mpp_AggregateMemoryBytes r) (mpp_AggregateDiskBytes r) (mpp_SingleNodeCandidates r) (mpp_Shards r) (f (mpp_Blockers r)) (mpp_Warnings r).
#[export] Instance set_mpp_Warnings : Setter mpp_Warnings := λ f r, mkModelPlacementPlan (mpp_ModelID r) (mpp_Mode r) (mpp_Feasible r) (mpp_RunnableNow r) (mpp_RequiredMemoryBytes r) (mpp_RequiredDiskBytes r) (mpp_AggregateMemoryBytes r) (mpp_AggregateDiskBytes r) (mpp_SingleNodeCandidates r) (mpp_Shards r) (mpp_Blockers r) (f (mpp_Warnings r)).

(** ** Helpers *)

Definition gbDiff (required actual : Z) : float64 :=
  if required <=? actual then f_zero
  else f_div (f_div (f_div (f_of_Z (required - actual)) (f_of_Z 1024)) (f_of_Z 1024)) (f_of_Z 1024).

(** ["<what> short by %.1f GB"] *)
Definition short_by (what : string) (required actual : Z) : string :=
  what +:+ " short by " +:+ f_fmt1 (gbDiff required actual) +:+ " GB".

Definition minUint64 (left right : Z) : Z := if left <? right then left else right.

Fixpoint firstNonEmptyString (values : list string) : string :=
  match values with
  | [] => ""
  | value :: values => if negb (blank value) then value else firstNonEmptyString values
  end.

Definition visibleModelLastError (value : string) : string :=
  if Contains value "unsupported job type" then "" else value.

Definition modelInstallRepairable (model : ModelResource) : bool :=
  negb (mr_Ready model) || negb (blank (mr_Error model)).

Definition modelInstallRepairReason (model : ModelResource) : string :=
  if negb (blank (mr_Error model)) then mr_Error model
  else if negb (mr_Ready model) then "model files are not ready" else "".

Definition modelInstallGenerateReadiness (model : ModelResource) (runtimeStatus : RuntimeResource)
    (runtimeReady : bool) (activeJobID : string) : bool * string :=
  if negb (mr_Ready model) then
    if negb (blank (mr_Error model)) then (false, "model files are not ready: " +:+ mr_Error model)
    else (false, "model files are not ready"%string)
  else if negb runtimeReady then
    if negb (blank (rt_Error runtimeStatus)) then (false, "runtime is not ready: " +:+ rt_Error runtimeStatus)
    else (false, "runtime is not ready"%string)
  else if negb (blank activeJobID)
  then (false, "model has an active job on this worker: " +:+ activeJobID)
  else (true, ""%string).

Definition named_runtime (name : string) (ready : bool) (err : string) : RuntimeResource :=
  mkRuntimeResource name ready "" "" "" "" [] [] [] err.

(** The first runtime entry with the name decides. *)
Fixpoint find_runtime (runtimeName : string) (runtimes : list RuntimeResource) : RuntimeResource * bool :=
  match runtimes with
  | [] => (named_runtime runtimeName false "runtime not reported", false)
  | runtime :: runtimes =>
      if str_eqb (rt_Name runtime) runtimeName && rt_Ready runtime then (runtime, true)
      else if str_eqb (rt_Name runtime) runtimeName then (runtime, false)
      else find_runtime runtimeName runtimes
  end.

Definition nodeRuntimeStatus (node : Node) (runtimeName : string) : RuntimeResource * bool :=
  let runtimeName := TrimSpace runtimeName in
  if str_eqb runtimeName "" then (named_runtime "" true "", true)
  else find_runtime runtimeName (res_Runtimes (node_Resources node)).

Definition nodeRuntimeReady (node : Node) (runtimeName : string) : bool :=
  (nodeRuntimeStatus node runtimeName).2.

Definition nodeDisplayName (node : Node) : string :=
  if negb (blank (node_Name node)) then node_Name node else node_ID node.

(** Queued, scheduled or running. *)
Definition is_open (job : Job) : bool :=
  bool_decide (job_Status job = StatusQueued) || bool_decide (job_Status job = StatusScheduled)
  || bool_decide (job_Status job = StatusRunning).

Fixpoint activeModelJobsForNode (jobsList : list Job) (nodeID : string) : Z :=
  match jobsList with
  | [] => 0
  | job :: jobsList =>
      (if bool_decide (job_AssignedTo job ≠ nodeID) then 0 else if is_open job then 1 else 0)
      + activeModelJobsForNode jobsList nodeID
  end.

Fixpoint capableModelNodes (capabilities : list ModelCapability) : Z :=
  match capabilities with
  | [] => 0
  | c :: capabilities => (if cap_Capable c then 1 else 0) + capableModelNodes capabilities
  end.

Definition hasAllowedVRAM (gpus : list GPUResources) (required : Z) : bool :=
  existsb (λ gpu, gpu_ComputeCompatible gpu && (required <=? gpu_AllowedVRAMBytes gpu)) gpus.

Definition maxAllowedVRAM (gpus : list GPUResources) : Z :=
  foldl (λ maxValue gpu,
      if gpu_ComputeCompatible gpu && (maxValue <? gpu_AllowedVRAMBytes gpu)
      then gpu_AllowedVRAMBytes gpu else maxValue) 0 gpus.

Definition is_online_worker (node : Node) : bool :=
  bool_decide (node_Role node = NodeRoleWorker) && bool_decide (node_Status node = NodeStatusOnline).

Definition has_model (node : Node) (modelID : string) : bool :=
  existsb (λ installed, str_eqb (mr_ID installed) modelID) (res_Models (node_Resources node)).

(** The decoded part of a job input: [struct { ModelID string }]. *)
Record ModelIDPayload := mkModelIDPayload { mip_ModelID : string }.

Section view.
Context `{World} `{!Json ModelIDPayload} `{LowerCase}.

Definition jobModelID (job : Job) : string * bool :=
  if blank (job_Input job) then (""%string, false) else
  match Unmarshal (A := ModelIDPayload) (job_Input job) with
  | None => (""%string, false)
  | Some payload => (mip_ModelID payload, negb (str_eqb (mip_ModelID payload) ""))
  end.

Fixpoint active_model_job (jobsList : list Job) (modelID nodeID : string) : string :=
  match jobsList with
  | [] => ""
  | job :: jobsList =>
      if bool_decide (job_AssignedTo job ≠ nodeID) then active_model_job jobsList modelID nodeID
      else if negb (is_open job) then active_model_job jobsList modelID nodeID
      else
        let '(activeModelID, ok) := jobModelID job in
        if ok && str_eqb activeModelID modelID then job_ID job
        else active_model_job jobsList modelID nodeID
  end.
Definition activeModelJobForNode (jobsList : list Job) (modelID nodeID : string) : string :=
  let modelID := TrimSpace modelID in
  let nodeID := TrimSpace nodeID in
  if str_eqb modelID "" || str_eqb nodeID "" then "" else active_model_job jobsList modelID nodeID.

(** ** Capabilities *)

(** The reasons why a worker cannot take the model, in the order of the checks. *)
Definition capability_reasons (model : Model) (node : Node) (installed : bool) (activeJobID : string)
    (activeJobs slots : Z) : list string :=
  let sto := res_Storage (node_Resources node) in
  let mem := mem_AllowedBytes (res_Memory (node_Resources node)) in
  let gpus := res_GPU (node_Resources node) in
  (if installed then ["already installed"%string] else []) ++
  (if negb (str_eqb activeJobID "") then [("model job already active: " +:+ activeJobID)%string] else []) ++
  (if mem <? model_MemoryBytes model then [short_by "RAM" (model_MemoryBytes model) mem] else []) ++
  (if sto_AllowedBytes sto <? model_DiskBytes model
   then [short_by "disk" (model_DiskBytes model) (sto_AllowedBytes sto)] else []) ++
  (if (0 <? sto_AllowedBytes sto) && (0 <? sto_UsedByModelsBytes sto)
      && (sto_AllowedBytes sto <? u64 (sto_UsedByModelsBytes sto + model_DiskBytes model))
   then
     let remaining := if sto_UsedByModelsBytes sto <? sto_AllowedBytes sto
                      then sto_AllowedBytes sto - sto_UsedByModelsBytes sto else 0 in
     [short_by "model quota" (model_DiskBytes model) remaining]
   else []) ++
  (if (0 <? sto_FreeBytes sto) && (sto_FreeBytes sto <? model_DiskBytes model)
   then [short_by "free disk" (model_DiskBytes model) (sto_FreeBytes sto)] else []) ++
  (if (0 <? model_VRAMBytes model) && negb (hasAllowedVRAM gpus (model_VRAMBytes model))
   then [short_by "VRAM" (model_VRAMBytes model) (maxAllowedVRAM gpus)] else []) ++
  (if (0 <? slots) && (slots <=? activeJobs)
   then [("all job slots busy (" +:+ Itoa activeJobs +:+ "/" +:+ Itoa slots +:+ ")")%string] else []).

Definition model_capability (model : Model) (jobsList : list Job) (installed : gset string) (node : Node)
    : ModelCapability :=
  let isInstalled := bool_decide (node_ID node ∈ installed) in
  let activeJobs := activeModelJobsForNode jobsList (node_ID node) in
  let activeJobID := activeModelJobForNode jobsList (model_ID model) (node_ID node) in
  let slots := workerJobSlots node in
  let reasons := capability_reasons model node isInstalled activeJobID activeJobs slots in
  mkModelCapability (node_ID node)
    (if blank (node_Name node) then node_ID node else node_Name node)
    (Nat.eqb (length reasons) 0) isInstalled
    (mem_AllowedBytes (res_Memory (node_Resources node)))
    (sto_AllowedBytes (res_Storage (node_Resources node)))
    (sto_FreeBytes (res_Storage (node_Resources node)))
    (maxAllowedVRAM (res_GPU (node_Resources node)))
    activeJobs activeJobID slots reasons.

Definition capability_less : ModelCapability → ModelCapability → bool :=
  true_first cap_Capable (asc_str_last cap_Name).

Definition modelCapabilities (model : Model) (nodes : list Node) (jobsList : list Job)
    (installed : gset string) : list ModelCapability :=
  sort_slice ["capabilities"; model_ID model] capability_less
    (model_capability model jobsList installed <$> filter (λ n, is_online_worker n = true) nodes).

(** ** Summaries *)

Definition installed_on (modelID : string) (nodes : list Node) : gset string :=
  foldl (λ installed node,
      if negb (is_online_worker node) then installed
      else if has_model node modelID then {[node_ID node]} ∪ installed else installed)
    ∅ nodes.

Definition model_install (model : Model) (jobsList : list Job) (node : Node) (m : ModelResource)
    : ModelInstall :=
  let '(runtimeStatus, runtimeReady) := nodeRuntimeStatus node (model_Runtime model) in
  let activeJobID := activeModelJobForNode jobsList (model_ID model) (node_ID node) in
  let '(generateReady, generateBlocked) :=
    modelInstallGenerateReadiness m runtimeStatus runtimeReady activeJobID in
  let sto := res_Storage (node_Resources node) in
  mkModelInstall (node_ID node) (nodeDisplayName node) (mr_Path m) (mr_Bytes m)
    (firstNonEmptyString [mr_Family m; model_Family model])
    (firstNonEmptyString [mr_Runtime m; model_Runtime model])
    (mr_InstalledAt m) (mr_Ready m) (mr_Error m) (modelInstallRepairable m) (modelInstallRepairReason m)
    runtimeReady runtimeStatus generateReady generateBlocked
    (sto_AllowedBytes sto) (sto_FreeBytes sto) (sto_UsedByModelsBytes sto) (sto_UsedByCacheBytes sto)
    activeJobID.

Definition install_less : ModelInstall → ModelInstall → bool :=
  asc_str inst_NodeName (asc_str_last inst_NodeID).

(** One job of the loop that finds the last job and the running change;
    the pair carries [lastUpdated]. *)
Definition summary_job (model : Model) (acc : ModelSummary * Time) (job : Job) : ModelSummary * Time :=
  let '(summary, lastUpdated) := acc in
  let '(modelID, ok) := jobModelID job in
  if negb ok || bool_decide (modelID ≠ model_ID model) then (summary, lastUpdated) else
  let '(summary, lastUpdated) :=
    if lastUpdated <? job_UpdatedAt job then
      (summary <| sum_LastJobID := job_ID job |> <| sum_LastUpdated := job_UpdatedAt job |>
               <| sum_LastError := visibleModelLastError (job_Error job) |>, job_UpdatedAt job)
    else (summary, lastUpdated) in
  if str_eqb (job_Type job) JobInstall || str_eqb (job_Type job) JobRepair then
    if is_open job then
      (summary <| sum_Status := if str_eqb (job_Type job) JobRepair then "repairing"%string else "installing"%string |>
               <| sum_ActiveJobID := job_ID job |>, lastUpdated)
    else (summary, lastUpdated)
  else if str_eqb (job_Type job) JobDelete then
    if is_open job then
      (summary <| sum_Status := "deleting"%string |> <| sum_ActiveJobID := job_ID job |>, lastUpdated)
    else (summary, lastUpdated)
  else (summary, lastUpdated).

Definition model_summary (nodes : list Node) (jobsList : list Job) (model : Model) : ModelSummary :=
  let installed := installed_on (model_ID model) nodes in
  let capabilities := modelCapabilities model nodes jobsList installed in
  let entries := flat_map (λ node,
      if negb (is_online_worker node) then [] else
      model_install model jobsList node <$>
        filter (λ m, mr_ID m = model_ID model) (res_Models (node_Resources node))) nodes in
  let generatable := inst_NodeID <$> filter (λ e, inst_GenerateReady e = true) entries in
  let summary := mkModelSummary model "available" [] generatable entries "" "" "" 0
                   (capableModelNodes capabilities) capabilities in
  let '(summary, _) := foldl (summary_job model) (summary, 0) jobsList in
  let installedOn := sort_slice ["installed-on"; model_ID model] string_lt (elements installed) in
  summary <| sum_InstalledOn := installedOn |>
          <| sum_GeneratableOn := sort_slice ["generatable-on"; model_ID model] string_lt
                                    (sum_GeneratableOn summary) |>
          <| sum_Installed := sort_slice ["installs"; model_ID model] install_less (sum_Installed summary) |>
          <| sum_Status := if (0 <? length installedOn)%nat && str_eqb (sum_Status summary) "available"
                           then "installed"%string else sum_Status summary |>.

Definition modelSummaries (catalog : list Model) (jobsList : list Job) (nodes : list Node)
    : list ModelSummary :=
  let jobsList := sort_slice ["jobs"] (asc_Z_last job_UpdatedAt) jobsList in
  model_summary nodes jobsList <$> catalog.

(** ** The filtered catalog *)

Definition modelSummaryMatchesQuery (summary : ModelSummary) (query : string) : bool :=
  let m := sum_Model summary in
  let haystack := ToLower (Join [model_ID m; model_Name m; model_Family m; model_Parameters m;
                                 model_Quant m; model_Runtime m; model_Description m] " ") in
  Contains haystack query.

Definition lower_name (summary : ModelSummary) : string := ToLower (model_Name (sum_Model summary)).
Definition sum_memory (summary : ModelSummary) : Z := model_MemoryBytes (sum_Model summary).
Definition sum_disk (summary : ModelSummary) : Z := model_DiskBytes (sum_Model summary).

(** The comparison of [filterAndSortModelSummaries] for a sort key. *)
Definition summary_less (sort : string) : ModelSummary → ModelSummary → bool :=
  let by_name := asc_str_last lower_name in
  if str_eqb sort "name" then by_name
  else if str_eqb sort "ram-asc" then asc_Z sum_memory by_name
  else if str_eqb sort "ram-desc" then desc_Z sum_memory by_name
  else if str_eqb sort "disk-asc" then asc_Z sum_disk by_name
  else if str_eqb sort "capable-desc" then desc_Z sum_CapableNodes (asc_Z sum_memory by_name)
  else desc_Z sum_CapableNodes (asc_Z sum_memory (asc_Z sum_disk by_name)).

Definition normalize_filters (filters : ModelCatalogFilters) : ModelCatalogFilters :=
  let filters := filters <| filt_Query := TrimSpace (ToLower (filt_Query filters)) |>
                         <| filt_Status := TrimSpace (ToLower (filt_Status filters)) |>
                         <| filt_Family := TrimSpace (ToLower (filt_Family filters)) |>
                         <| filt_Sort := TrimSpace (ToLower (filt_Sort filters)) |> in
  if str_eqb (filt_Sort filters) "" then filters <| filt_Sort := "recommended"%string |> else filters.

Definition summary_passes (filters : ModelCatalogFilters) (summary : ModelSummary) : bool :=
  if negb (str_eqb (filt_Query filters) "") && negb (modelSummaryMatchesQuery summary (filt_Query filters))
  then false
  else if negb (str_eqb (filt_Status filters) "")
            && negb (str_eqb (ToLower (sum_Status summary)) (filt_Status filters)) then false
  else if negb (str_eqb (filt_Family filters) "")
            && negb (str_eqb (ToLower (model_Family (sum_Model summary))) (filt_Family filters)) then false
  else negb (filt_CapableOnly filters && (sum_CapableNodes summary =? 0)).

Definition filterAndSortModelSummaries (summaries : list ModelSummary) (filters : ModelCatalogFilters)
    : list ModelSummary :=
  let filters := normalize_filters filters in
  sort_by (summary_less (filt_Sort filters)) (filter (λ s, summary_passes filters s = true) summaries).

(** ** Placement *)

Definition effectiveShardStorageBytes (capability : ModelCapability) : Z :=
  if (0 <? cap_FreeStorageBytes capability) && (cap_FreeStorageBytes capability <? cap_AllowedStorageBytes capability)
  then cap_FreeStorageBytes capability else cap_AllowedStorageBytes capability.

Fixpoint plan_shards_loop (remainingMemory remainingDisk : Z) (selected : list ModelCapability)
    : list ModelPlanShard :=
  match selected with
  | [] => []
  | capability :: rest =>
      let '(memoryShare, diskShare) :=
        match rest with
        | [] => (remainingMemory, remainingDisk)
        | _ => (minUint64 (cap_AllowedMemoryBytes capability) remainingMemory,
                minUint64 (cap_AllowedStorageBytes capability) remainingDisk)
        end in
      let memoryShare := if remainingMemory <? memoryShare then remainingMemory else memoryShare in
      let diskShare := if remainingDisk <? diskShare then remainingDisk else diskShare in
      mkModelPlanShard (cap_NodeID capability) (cap_Name capability) memoryShare diskShare
        (cap_AllowedMemoryBytes capability) (cap_AllowedStorageBytes capability)
      :: plan_shards_loop (u64 (remainingMemory - memoryShare)) (u64 (remainingDisk - diskShare)) rest
  end.
Definition buildModelPlanShards (model : Model) (selected : list ModelCapability) : list ModelPlanShard :=
  plan_shards_loop (model_MemoryBytes model) (model_DiskBytes model) selected.

Definition modelPlacementBlockers (summary : ModelSummary) (aggregateMemoryBytes aggregateDiskBytes : Z)
    : list string :=
  let m := sum_Model summary in
  let blockers :=
    (if aggregateMemoryBytes <? model_MemoryBytes m
     then [short_by "aggregate RAM" (model_MemoryBytes m) aggregateMemoryBytes] else []) ++
    (if aggregateDiskBytes <? model_DiskBytes m
     then [short_by "aggregate disk" (model_DiskBytes m) aggregateDiskBytes] else []) in
  let blockers :=
    match blockers with
    | [] => sort_slice ["blockers"] string_lt
              ((λ c, cap_Name c +:+ ": " +:+ Join (cap_Reasons c) "; ") <$>
                filter (λ c, cap_Reasons c ≠ []) (sum_Capabilities summary))
    | _ => blockers
    end in
  match blockers with [] => ["no viable placement found"%string] | _ => blockers end.

Definition shard_candidate (capability : ModelCapability) : option ModelCapability :=
  if cap_Installed capability || negb (str_eqb (cap_ActiveJobID capability) "") then None
  else if (0 <? cap_JobSlots capability) && (cap_JobSlots capability <=? cap_ActiveJobs capability) then None
  else
    let capability := capability <| cap_AllowedStorageBytes := effectiveShardStorageBytes capability |> in
    if (cap_AllowedMemoryBytes capability =? 0) || (cap_AllowedStorageBytes capability =? 0) then None
    else Some capability.

Definition candidate_less : ModelCapability → ModelCapability → bool :=
  desc_Z cap_AllowedMemoryBytes (desc_Z cap_AllowedStorageBytes (asc_str_last cap_Name)).

(** The selection loop: the workers taken so far and their total memory and
    disk; it stops when two or more suffice. *)
Fixpoint select_loop (model : Model) (selected : list ModelCapability) (memory disk : Z)
    (candidates : list ModelCapability) : list ModelCapability * Z * Z :=
  match candidates with
  | [] => (selected, memory, disk)
  | capability :: candidates =>
      let selected := selected ++ [capability] in
      let memory := u64 (memory + cap_AllowedMemoryBytes capability) in
      let disk := u64 (disk + cap_AllowedStorageBytes capability) in
      if (model_MemoryBytes model <=? memory) && (model_DiskBytes model <=? disk) && (1 <? length selected)%nat
      then (selected, memory, disk)
      else select_loop model selected memory disk candidates
  end.

Definition modelPlacementPlan (summary : ModelSummary) : ModelPlacementPlan :=
  let m := sum_Model summary in
  let single := filter (λ c, cap_Capable c = true) (sum_Capabilities summary) in
  let plan := mkModelPlacementPlan (model_ID m) "blocked" false false (model_MemoryBytes m) (model_DiskBytes m)
                0 0 single [] [] [] in
  match single with
  | _ :: _ => plan <| mpp_Mode := "single_worker"%string |> <| mpp_Feasible := true |> <| mpp_RunnableNow := true |>
  | [] =>
  match sum_Capabilities summary with
  | [] => plan <| mpp_Blockers := ["no online workers are reporting resources"%string] |>
  | capabilities =>
      let candidates := sort_slice ["candidates"] candidate_less (omap shard_candidate capabilities) in
      let '(selected, memory, disk) := select_loop m [] 0 0 candidates in
      let plan := plan <| mpp_AggregateMemoryBytes := memory |> <| mpp_AggregateDiskBytes := disk |> in
      if (1 <? length selected)%nat && (model_MemoryBytes m <=? memory) && (model_DiskBytes m <=? disk) then
        plan <| mpp_Mode := "sharded_estimate"%string |> <| mpp_Feasible := true |> <| mpp_RunnableNow := false |>
             <| mpp_Warnings :=
                  ["multi-worker layer sharding is a placement estimate; distributed execution is not implemented yet";
                   "real latency will depend on network bandwidth, activation transfer size, and runtime support"]%string |>
             <| mpp_Shards := buildModelPlanShards m selected |>
      else plan <| mpp_Blockers := modelPlacementBlockers summary memory disk |>
  end
  end.

(** ** Lookups used by the handlers *)

Definition modelInstalledOn (summary : ModelSummary) (nodeID : string) : bool :=
  existsb (λ id, str_eqb id nodeID) (sum_InstalledOn summary).
Definition modelGeneratableOn (summary : ModelSummary) (nodeID : string) : bool :=
  existsb (λ id, str_eqb id nodeID) (sum_GeneratableOn summary).

Definition install_blocked (install : ModelInstall) : string :=
  if negb (str_eqb (inst_GenerateBlocked install) "") then inst_GenerateBlocked install
  else if negb (inst_ModelReady install) then
    if negb (str_eqb (inst_ModelError install) "")
    then "model files are not ready on the selected worker: " +:+ inst_ModelError install
    else "model files are not ready on the selected worker"
  else if negb (inst_RuntimeReady install) then
    if negb (str_eqb (rt_Error (inst_RuntimeStatus install)) "")
    then "model runtime is not ready on the selected worker: " +:+ rt_Error (inst_RuntimeStatus install)
    else "model runtime is not ready on the selected worker"
  else "".

Fixpoint blocked_reason_loop (nodeID : string) (installs : list ModelInstall) : string :=
  match installs with
  | [] => "model is not installed on the selected worker"
  | install :: installs =>
      if bool_decide (inst_NodeID install ≠ nodeID) then blocked_reason_loop nodeID installs
      else install_blocked install
  end.
Definition modelGenerateBlockedReason (summary : ModelSummary) (nodeID : string) : string :=
  blocked_reason_loop nodeID (sum_Installed summary).

Fixpoint findModelSummary (summaries : list ModelSummary) (modelID : string) : option ModelSummary :=
  match summaries with
  | [] => None
  | s :: summaries => if str_eqb (model_ID (sum_Model s)) modelID then Some s else findModelSummary summaries modelID
  end.

Fixpoint eligible_on (nodeID : string) (capabilities : list ModelCapability) : bool * string :=
  match capabilities with
  | [] => (false, "selected worker is not online or does not exist"%string)
  | c :: capabilities =>
      if bool_decide (cap_NodeID c ≠ nodeID) then eligible_on nodeID capabilities
      else if cap_Capable c then (true, ""%string)
      else (false, cap_Name c +:+ ": " +:+ Join (cap_Reasons c) "; ")
  end.

Definition modelInstallEligibility (summary : ModelSummary) (nodeID : string) : bool * string :=
  if negb (str_eqb nodeID "") then eligible_on nodeID (sum_Capabilities summary)
  else if 0 <? sum_CapableNodes summary then (true, ""%string)
  else match sum_Capabilities summary with
  | [] => (false, "no online workers are reporting resources"%string)
  | capabilities =>
      let reasons := (λ c,
          let reason := Join (cap_Reasons c) "; " in
          let reason := if str_eqb reason "" then "not eligible"%string else reason in
          cap_Name c +:+ ": " +:+ reason) <$> filter (λ c, cap_Capable c = false) capabilities in
      (false, Join (sort_slice ["reasons"] string_lt reasons) " | ")
  end.
End view.

(** ** Shards *)

Definition u64_ok (z : Z) : Prop := 0 ≤ z < 2^64.
(** The byte counts of a capability are [uint64] values. *)
Definition cap_ok (c : ModelCapability) : Prop :=
  u64_ok (cap_AllowedMemoryBytes c) ∧ u64_ok (cap_AllowedStorageBytes c) ∧ u64_ok (cap_FreeStorageBytes c).
Definition model_bytes_ok (m : Model) : Prop :=
  u64_ok (model_MemoryBytes m) ∧ u64_ok (model_DiskBytes m).
(** The shard of a worker: where it goes, and that it fits. *)
Definition shard_fits (s : ModelPlanShard) (c : ModelCapability) : Prop :=
  ps_NodeID s = cap_NodeID c ∧ ps_NodeName s = cap_Name c ∧
  0 ≤ ps_MemoryBytes s ≤ cap_AllowedMemoryBytes c ∧ 0 ≤ ps_DiskBytes s ≤ cap_AllowedStorageBytes c.

(** The loop hands out exactly what is left, and no worker gets more than it
    allows as long as the workers together allow enough. *)
Lemma plan_shards_loop_spec (rm rd : Z) (sel : list ModelCapability) :
  Forall cap_ok sel → sel ≠ [] → u64_ok rm → u64_ok rd →
  rm ≤ sumZ (cap_AllowedMemoryBytes <$> sel) → rd ≤ sumZ (cap_AllowedStorageBytes <$> sel) →
  let shards := plan_shards_loop rm rd sel in
  sumZ (ps_MemoryBytes <$> shards) = rm ∧ sumZ (ps_DiskBytes <$> shards) = rd ∧
  Forall2 shard_fits shards sel.
Proof.
  intros Hok. revert rm rd. induction Hok as [|c sel Hc Hok IH]; [done|].
  intros rm rd _ Hrm Hrd Hm Hd. destruct Hc as (Hcm & Hcd & _).
  unfold u64_ok in *. cbn [plan_shards_loop].
  change (rm ≤ cap_AllowedMemoryBytes c + sumZ (cap_AllowedMemoryBytes <$> sel)) in Hm.
  change (rd ≤ cap_AllowedStorageBytes c + sumZ (cap_AllowedStorageBytes <$> sel)) in Hd.
  assert (∀ a b, (if b <? minUint64 a b then b else minUint64 a b) = Z.min a b) as Hmin.
  { intros a b. unfold minUint64. repeat case_match; lia. }
  destruct sel as [|c' sel].
  - cbn in Hm, Hd |- *. rewrite !Z.ltb_irrefl.
    split_and!; cbn; [lia..|]. constructor; [|constructor]. unfold shard_fits; cbn. split_and!; done || lia.
  - cbv zeta. cbv beta iota. rewrite !Hmin. rewrite !u64_small by lia.
    assert (0 ≤ sumZ (cap_AllowedMemoryBytes <$> c' :: sel) ∧ 0 ≤ sumZ (cap_AllowedStorageBytes <$> c' :: sel)) as [Hm0 Hd0].
    { split; apply sumZ_nonneg, Forall_fmap; eapply Forall_impl; try exact Hok; unfold cap_ok, u64_ok; simpl; lia. }
    set (m := Z.min (cap_AllowedMemoryBytes c) rm). set (d := Z.min (cap_AllowedStorageBytes c) rd).
    destruct (IH (rm - m) (rd - d)) as (IHm & IHd & IHf); [done|subst m d; lia..|].
    revert IHm IHd IHf. generalize (plan_shards_loop (rm - m) (rd - d) (c' :: sel)).
    intros shards IHm IHd IHf.
    csimpl. rewrite IHm, IHd. split_and!; [lia..|]. constructor; [|done]. subst m d.
    unfold shard_fits; cbn. split_and!; done || lia.
Qed.

(** The selection is an initial segment of the candidates with its total; when
    the loop ran to the end, it took them all. *)
Lemma select_loop_spec (m : Model) (cs sel0 : list ModelCapability) (mem0 disk0 : Z) :
  let '(sel, mem, disk) := select_loop m sel0 (u64 mem0) (u64 disk0) cs in
  ∃ taken rest, cs = taken ++ rest ∧ sel = sel0 ++ taken ∧
    mem = u64 (mem0 + sumZ (cap_AllowedMemoryBytes <$> taken)) ∧
    disk = u64 (disk0 + sumZ (cap_AllowedStorageBytes <$> taken)) ∧
    (rest = [] ∨ (model_MemoryBytes m ≤ mem ∧ model_DiskBytes m ≤ disk ∧ (1 < length sel)%nat)).
Proof.
  revert sel0 mem0 disk0. induction cs as [|c cs IH]; intros sel0 mem0 disk0; simpl.
  - exists [], []. rewrite !app_nil_r, !Z.add_0_r. split_and!; [done..|by left].
  - rewrite !u64_add_l.
    destruct (_ && _ && _) eqn:E.
    + apply andb_prop in E as [[E1%Z.leb_le E2%Z.leb_le]%andb_prop E3%Nat.ltb_lt].
      exists [c], cs. simpl. rewrite !Z.add_0_r. split_and!; auto.
    + specialize (IH (sel0 ++ [c]) (mem0 + cap_AllowedMemoryBytes c) (disk0 + cap_AllowedStorageBytes c)).
      destruct (select_loop _ _ _ _ _) as [[sel mem] disk].
      destruct IH as (taken & rest & -> & -> & -> & -> & IH).
      exists (c :: taken), rest. csimpl. rewrite <- app_assoc in IH |- *. cbn [app] in IH |- *. rewrite !Z.add_assoc.
      auto.
Qed.

(** A worker that may hold a shard: not installed, no active job of the model,
    a free slot, some memory and some usable storage. *)
Definition shard_worker (c c' : ModelCapability) : Prop :=
  cap_Installed c = false ∧ cap_ActiveJobID c = "" ∧
  ¬ (0 < cap_JobSlots c ≤ cap_ActiveJobs c) ∧
  cap_NodeID c' = cap_NodeID c ∧ cap_Name c' = cap_Name c ∧
  cap_AllowedMemoryBytes c' = cap_AllowedMemoryBytes c ∧ cap_AllowedMemoryBytes c ≠ 0 ∧
  cap_AllowedStorageBytes c' = effectiveShardStorageBytes c ∧ effectiveShardStorageBytes c ≠ 0 ∧
  cap_FreeStorageBytes c' = cap_FreeStorageBytes c.

Lemma shard_candidate_spec c c' : shard_candidate c = Some c' → shard_worker c c'.
Proof.
  unfold shard_candidate, shard_worker. intros H.
  destruct (cap_Installed c) eqn:E1; [done|]. simpl in H.
  case_bool_decide as E2; [|done]. simpl in H.
  destruct ((0 <? _) && _) eqn:E3 in H; [done|].
  destruct (_ || _) eqn:E4 in H; [done|]. injection H as <-.
  apply orb_false_iff in E4 as [E4%Z.eqb_neq E5%Z.eqb_neq]. cbn in *.
  split_and!; try done. intros [??]. apply andb_false_iff in E3 as [E3%Z.ltb_ge|E3%Z.leb_gt]; lia.
Qed.

Lemma effectiveShardStorage_ok c : cap_ok c → u64_ok (effectiveShardStorageBytes c).
Proof. unfold cap_ok, effectiveShardStorageBytes. intros (? & ? & ?). by case_match. Qed.
Lemma shard_worker_ok c c' : cap_ok c → shard_worker c c' → cap_ok c'.
Proof.
  intros Hok (_ & _ & _ & _ & _ & Hm & _ & Hs & _ & Hf).
  unfold cap_ok. rewrite Hm, Hs, Hf. pose proof (effectiveShardStorage_ok c Hok).
  by destruct Hok as (? & ? & ?).
Qed.

(** What the scheduler may count on for a placement plan. *)
Definition blocked_plan (p : ModelPlacementPlan) : Prop :=
  mpp_Mode p = "blocked" ∧ mpp_Feasible p = false ∧ mpp_RunnableNow p = false ∧
  mpp_Shards p = [] ∧ mpp_Blockers p ≠ [].

Section views.
Context `{World} `{!Json ModelIDPayload} `{LowerCase}.

Lemma modelPlacementBlockers_nonempty s mem disk : modelPlacementBlockers s mem disk ≠ [].
Proof. unfold modelPlacementBlockers. cbv zeta. by case_match. Qed.

Lemma candidates_spec (caps : list ModelCapability) c' :
  c' ∈ sort_slice ["candidates"] candidate_less (omap shard_candidate caps) →
  ∃ c, c ∈ caps ∧ shard_worker c c'.
Proof.
  rewrite elem_of_sort_slice, list_elem_of_omap. intros (c & Hc & Hs).
  exists c. split; [done|by apply shard_candidate_spec].
Qed.

(** (functional). The placement plan of a model: with capable workers it is
    a runnable single-worker plan whose candidates are exactly these; otherwise
    it is either a sharded estimate over at least two idle workers whose shards
    add up to exactly the memory and disk of the model, each within what its
    worker allows (also when the [uint64] totals wrap), or blocked, with a
    reason. *)
Theorem placement_plan_sound (summary : ModelSummary) :
  model_bytes_ok (sum_Model summary) → Forall cap_ok (sum_Capabilities summary) →
  let plan := modelPlacementPlan summary in
  let m := sum_Model summary in
  mpp_SingleNodeCandidates plan = filter (λ c, cap_Capable c = true) (sum_Capabilities summary) ∧
  if bool_decide (mpp_SingleNodeCandidates plan ≠ []) then
    mpp_Mode plan = "single_worker" ∧ mpp_RunnableNow plan = true ∧ mpp_Shards plan = []
  else if bool_decide (mpp_Mode plan = "sharded_estimate") then
    mpp_Feasible plan = true ∧ mpp_RunnableNow plan = false ∧
    (1 < length (mpp_Shards plan))%nat ∧
    sumZ (ps_MemoryBytes <$> mpp_Shards plan) = model_MemoryBytes m ∧
    sumZ (ps_DiskBytes <$> mpp_Shards plan) = model_DiskBytes m ∧
    Forall (λ s, ∃ c c', c ∈ sum_Capabilities summary ∧ shard_worker c c' ∧ shard_fits s c')
      (mpp_Shards plan)
  else blocked_plan plan.
Proof.
  intros [Hmm Hmd] Hcaps. cbv zeta. unfold modelPlacementPlan.
  destruct (filter _ _) as [|c0 single] eqn:Esingle; [|by split_and!].
  destruct (sum_Capabilities summary) as [|c1 caps] eqn:Ecaps; [by split_and!|].
  rewrite <- Ecaps in *. clear c1 caps Ecaps.
  pose proof (select_loop_spec (sum_Model summary)
    (sort_slice ["candidates"] candidate_less (omap shard_candidate (sum_Capabilities summary))) [] 0 0) as Hsel.
  change (u64 0) with 0 in Hsel.
  destruct (select_loop _ _ _ _ _) as [[sel mem] disk].
  destruct Hsel as (taken & rest & Hc & -> & -> & -> & _). simpl app in *.
  destruct (_ && _ && _) eqn:E.
  - apply andb_prop in E as [[E1%Nat.ltb_lt E2%Z.leb_le]%andb_prop E3%Z.leb_le].
    cbn. split; [done|].
    assert (Forall (λ c', ∃ c, c ∈ sum_Capabilities summary ∧ shard_worker c c') taken) as Ht.
    { apply Forall_forall. intros c' Hin. apply candidates_spec. rewrite Hc. apply elem_of_app. by left. }
    assert (Forall cap_ok taken) as Hok.
    { eapply Forall_impl; [exact Ht|]. intros c' (c & Hin & Hw).
      rewrite Forall_forall in Hcaps. apply (shard_worker_ok c); auto. }
    assert (0 ≤ sumZ (cap_AllowedMemoryBytes <$> taken) ∧ 0 ≤ sumZ (cap_AllowedStorageBytes <$> taken)) as [Hm0 Hd0].
    { split; apply sumZ_nonneg, Forall_fmap; eapply Forall_impl; try exact Hok; unfold cap_ok, u64_ok; simpl; lia. }
    assert (u64 (0 + sumZ (cap_AllowedMemoryBytes <$> taken)) ≤ sumZ (cap_AllowedMemoryBytes <$> taken)) by (by apply Z.mod_le).
    assert (u64 (0 + sumZ (cap_AllowedStorageBytes <$> taken)) ≤ sumZ (cap_AllowedStorageBytes <$> taken)) by (by apply Z.mod_le).
    destruct (plan_shards_loop_spec (model_MemoryBytes (sum_Model summary)) (model_DiskBytes (sum_Model summary)) taken)
      as (Hsm & Hsd & Hf); [done|by destruct taken; simpl in *; [lia|]|done|done|lia|lia|].
    unfold buildModelPlanShards. split_and!; try done.
    + by rewrite (Forall2_length _ _ _ Hf).
    + eapply Forall2_Forall_l; [exact Hf|]. eapply Forall_impl; [exact Ht|]. naive_solver.
  - cbn. split; [done|]. split_and!; try done. apply modelPlacementBlockers_nonempty.
Qed.

(** ** Capabilities *)

(** A worker meets the requirements of a model. *)
Definition meets (m : Model) (jobsList : list Job) (installed : gset string) (node : Node) : Prop :=
  let sto := res_Storage (node_Resources node) in
  node_ID node ∉ installed ∧ activeModelJobForNode jobsList (model_ID m) (node_ID node) = "" ∧
  model_MemoryBytes m ≤ mem_AllowedBytes (res_Memory (node_Resources node)) ∧
  model_DiskBytes m ≤ sto_AllowedBytes sto ∧
  (0 < sto_UsedByModelsBytes sto → 0 < sto_AllowedBytes sto →
    sto_UsedByModelsBytes sto + model_DiskBytes m ≤ sto_AllowedBytes sto) ∧
  (0 < sto_FreeBytes sto → model_DiskBytes m ≤ sto_FreeBytes sto) ∧
  (0 < model_VRAMBytes m → ∃ gpu, gpu ∈ res_GPU (node_Resources node) ∧
    gpu_ComputeCompatible gpu = true ∧ model_VRAMBytes m ≤ gpu_AllowedVRAMBytes gpu) ∧
  activeModelJobsForNode jobsList (node_ID node) < workerJobSlots node.

Lemma guard_nil {A} (b : bool) (l1 l2 : list A) :
  l1 ≠ [] → (if b then l1 else []) ++ l2 = [] ↔ b = false ∧ l2 = [].
Proof. destruct b, l1; naive_solver. Qed.
Lemma hasAllowedVRAM_spec gpus v :
  hasAllowedVRAM gpus v = true ↔
  ∃ gpu, gpu ∈ gpus ∧ gpu_ComputeCompatible gpu = true ∧ v ≤ gpu_AllowedVRAMBytes gpu.
Proof.
  unfold hasAllowedVRAM. rewrite existsb_exists. setoid_rewrite <- list_elem_of_In.
  setoid_rewrite andb_true_iff. by setoid_rewrite Z.leb_le.
Qed.
Lemma andb_not (b1 b2 : bool) (P Q : Prop) :
  (b1 = true ↔ P) → (b2 = false ↔ Q) → b1 && b2 = false ↔ (P → Q).
Proof. destruct b1, b2; naive_solver. Qed.

(** (functional). A worker is listed as capable of a model, with no reasons
    against it, exactly when it meets every requirement: the model is neither
    installed nor being changed there, memory, disk, model quota, free disk and
    a compute GPU suffice, and a job slot is free. *)
Theorem capability_iff_requirements (m : Model) (jobsList : list Job) (installed : gset string) (node : Node) :
  let sto := res_Storage (node_Resources node) in
  0 ≤ sto_UsedByModelsBytes sto + model_DiskBytes m < 2^64 →
  let c := model_capability m jobsList installed node in
  (cap_Capable c = true ↔ meets m jobsList installed node) ∧ (cap_Capable c = true ↔ cap_Reasons c = []).
Proof.
  intros sto Hb c. assert (cap_Capable c = true ↔ cap_Reasons c = []) as Hr.
  { unfold c, model_capability; cbn [cap_Capable cap_Reasons]. rewrite Nat.eqb_eq. apply length_zero_iff_nil. }
  split; [|done]. rewrite Hr. unfold c, model_capability, capability_reasons; cbn [cap_Reasons]. cbv zeta.
  fold sto. rewrite !guard_nil by done. rewrite <- (app_nil_r (if (0 <? _) && (_ <=? _) then _ else _)).
  rewrite guard_nil by done. rewrite (u64_small _ Hb).
  rewrite bool_decide_eq_false, negb_false_iff, bool_decide_eq_true, !Z.ltb_ge.
  unfold meets. fold sto. pose proof (workerJobSlots_pos node) as Hslots.
  rewrite <- hasAllowedVRAM_spec, <- (Z.ltb_lt 0 (model_VRAMBytes m)), <- (negb_false_iff (hasAllowedVRAM _ _)).
  rewrite (andb_not (0 <? model_VRAMBytes m) _ _ _ (reflexivity _) (reflexivity _)).
  rewrite !andb_false_iff, !Z.ltb_ge, Z.leb_gt.
  intuition lia.
Qed.

(** ** Summaries *)

(** An open job that installs, repairs or deletes the model. *)
Definition changes (m : Model) (job : Job) : Prop :=
  jobModelID job = (model_ID m, true) ∧ is_open job = true ∧
  job_Type job ∈ [JobInstall; JobRepair; JobDelete].
Definition change_status (job : Job) : string :=
  if bool_decide (job_Type job = JobRepair) then "repairing"
  else if bool_decide (job_Type job = JobInstall) then "installing" else "deleting".
(** The fields that the walk over the jobs leaves alone. *)
Definition same_views (s s' : ModelSummary) : Prop :=
  sum_Model s' = sum_Model s ∧ sum_GeneratableOn s' = sum_GeneratableOn s ∧ sum_Installed s' = sum_Installed s ∧
  sum_CapableNodes s' = sum_CapableNodes s ∧ sum_Capabilities s' = sum_Capabilities s.

Lemma summary_job_spec (m : Model) (s : ModelSummary) (u : Time) (job : Job) :
  let '(s', _) := summary_job m (s, u) job in
  same_views s s' ∧
  ((changes m job ∧ sum_ActiveJobID s' = job_ID job ∧ sum_Status s' = change_status job) ∨
   (¬ changes m job ∧ sum_ActiveJobID s' = sum_ActiveJobID s ∧ sum_Status s' = sum_Status s)).
Proof.
  unfold summary_job, changes, change_status. destruct (jobModelID job) as [id ok].
  destruct ok; [|split; [done|right; naive_solver]]. cbn [negb orb].
  destruct (decide (id = model_ID m)) as [->|Hid];
    [rewrite bool_decide_eq_false_2 by naive_solver
    |rewrite bool_decide_eq_true_2 by done; split; [done|right; naive_solver]].
  assert (∀ x, x ∈ [JobInstall; JobRepair; JobDelete] ↔ x = JobInstall ∨ x = JobRepair ∨ x = JobDelete) as Hin
    by (intros x; rewrite !elem_of_cons, elem_of_nil; tauto).
  destruct (_ <? _); destruct (is_open job); repeat case_bool_decide;
    simpl; (split; [done|]); rewrite Hin; naive_solver.
Qed.

Lemma summary_jobs_spec (m : Model) (l : list Job) (s : ModelSummary) (u : Time) :
  let s' := (foldl (summary_job m) (s, u) l).1 in
  same_views s s' ∧
  ((∃ job, job ∈ l ∧ changes m job ∧ sum_ActiveJobID s' = job_ID job ∧ sum_Status s' = change_status job) ∨
   ((∀ job, job ∈ l → ¬ changes m job) ∧ sum_ActiveJobID s' = sum_ActiveJobID s ∧ sum_Status s' = sum_Status s)).
Proof.
  revert s u. induction l as [|job l IH]; intros s u; cbn [foldl].
  { split; [done|]. right. split; [by intros ? ?%elem_of_nil|done]. }
  pose proof (summary_job_spec m s u job) as Hj. destruct (summary_job m (s, u) job) as [s1 u1].
  destruct Hj as [Hv Hj]. destruct (IH s1 u1) as [Hv1 IH1]. unfold same_views in *.
  split; [destruct Hv as (? & ? & ? & ? & ?), Hv1 as (? & ? & ? & ? & ?); split_and!; congruence|]. setoid_rewrite elem_of_cons.
  destruct IH1 as [(j & ? & ?)|(Hno & HA & HS)]; [naive_solver|].
  rewrite HA, HS. destruct Hj as [(? & ? & ?)|(? & ? & ?)]; [left; exists job; naive_solver|right; naive_solver].
Qed.

Lemma installed_on_spec (id : string) (nodes : list Node) (n : string) :
  n ∈ installed_on id nodes ↔
  ∃ node, node ∈ nodes ∧ node_ID node = n ∧ is_online_worker node = true ∧ has_model node id = true.
Proof.
  unfold installed_on.
  assert (∀ acc : gset string, n ∈ foldl (λ installed node,
      if negb (is_online_worker node) then installed
      else if has_model node id then {[node_ID node]} ∪ installed else installed) acc nodes ↔
    n ∈ acc ∨ ∃ node, node ∈ nodes ∧ node_ID node = n ∧ is_online_worker node = true ∧ has_model node id = true) as Hacc.
  { induction nodes as [|node nodes IH]; intros acc; simpl; [set_solver|].
    rewrite IH, ex_cons.
    destruct (is_online_worker node) eqn:?, (has_model node id) eqn:?; simpl;
      rewrite ?elem_of_union, ?elem_of_singleton; intuition congruence. }
  rewrite Hacc. set_solver.
Qed.

Lemma generate_ready_spec (m : Model) (jobsList : list Job) (node : Node) (r : ModelResource) :
  inst_GenerateReady (model_install m jobsList node r) = true ↔
  mr_Ready r = true ∧ nodeRuntimeReady node (model_Runtime m) = true ∧
  blank (activeModelJobForNode jobsList (model_ID m) (node_ID node)) = true.
Proof.
  unfold model_install, nodeRuntimeReady. destruct (nodeRuntimeStatus _ _) as [st ready].
  unfold modelInstallGenerateReadiness. simpl.
  destruct (mr_Ready r), ready, (blank (activeModelJobForNode _ _ _)); simpl; repeat case_match; naive_solver.
Qed.
Lemma install_node (m : Model) (jobsList : list Job) (node : Node) (r : ModelResource) :
  inst_NodeID (model_install m jobsList node r) = node_ID node.
Proof. unfold model_install. by repeat case_match. Qed.

Lemma model_summary_views_of (nodes : list Node) (jobsList : list Job) (m : Model) :
  let s := model_summary nodes jobsList m in
  sum_Capabilities s = modelCapabilities m nodes jobsList (installed_on (model_ID m) nodes) ∧
  sum_CapableNodes s = capableModelNodes (sum_Capabilities s).
Proof.
  unfold model_summary.
  match goal with |- context [foldl (summary_job m) (?s0, 0) jobsList] =>
    pose proof (summary_jobs_spec m jobsList s0 0) as Hs end.
  destruct (foldl _ _ _) as [s' u']. cbn [fst] in Hs. destruct Hs as [(_ & _ & _ & HC & HCs) _].
  simpl. by rewrite HC, HCs.
Qed.

(** (functional). What the catalog says of a model: it is installed on
    exactly the online workers that report it; it can be generated with on
    exactly those whose files and runtime are ready and where no job of the
    model is open; the capable nodes are counted; and the status is the one of
    an open install, repair or delete job when there is one, else whether it is
    installed anywhere. *)
Theorem model_summary_views (nodes : list Node) (jobsList : list Job) (m : Model) :
  let s := model_summary nodes jobsList m in
  (∀ n, n ∈ sum_InstalledOn s ↔
    ∃ node, node ∈ nodes ∧ node_ID node = n ∧ is_online_worker node = true ∧ has_model node (model_ID m) = true) ∧
  NoDup (sum_InstalledOn s) ∧
  (∀ n, n ∈ sum_GeneratableOn s ↔
    ∃ node r, node ∈ nodes ∧ node_ID node = n ∧ is_online_worker node = true ∧
      r ∈ res_Models (node_Resources node) ∧ mr_ID r = model_ID m ∧ mr_Ready r = true ∧
      nodeRuntimeReady node (model_Runtime m) = true ∧
      blank (activeModelJobForNode jobsList (model_ID m) n) = true) ∧
  sum_CapableNodes s = capableModelNodes (sum_Capabilities s) ∧
  ((∃ job, job ∈ jobsList ∧ changes m job ∧ sum_ActiveJobID s = job_ID job ∧ sum_Status s = change_status job) ∨
   ((∀ job, job ∈ jobsList → ¬ changes m job) ∧ sum_ActiveJobID s = "" ∧
    sum_Status s = if bool_decide (sum_InstalledOn s = []) then "available"%string else "installed"%string)).
Proof.
  cbv zeta. unfold model_summary.
  match goal with |- context [foldl (summary_job m) (?s0, 0) jobsList] =>
    pose proof (summary_jobs_spec m jobsList s0 0) as Hs; set (s1 := s0) in * end.
  destruct (foldl _ _ _) as [s' u']. cbn [fst] in Hs. destruct Hs as [(HM & HG & HI & HC & HCs) Hst].
  cbn [set sum_InstalledOn sum_GeneratableOn sum_CapableNodes sum_Capabilities sum_Status sum_ActiveJobID].
  split_and!.
  - intros n. simpl. rewrite elem_of_sort_slice, elem_of_elements. apply installed_on_spec.
  - simpl. rewrite sort_slice_perm. apply NoDup_elements.
  - intros n. simpl. rewrite elem_of_sort_slice, HG. unfold s1; simpl.
    rewrite list_elem_of_fmap. setoid_rewrite list_elem_of_filter. setoid_rewrite list_elem_of_In at 1.
    setoid_rewrite in_flat_map. setoid_rewrite <- list_elem_of_In. split.
    + intros (e & -> & Hr & node & Hn & He).
      destruct (is_online_worker node) eqn:Eo; simpl in He; [|by apply elem_of_nil in He].
      apply list_elem_of_fmap in He as (r & -> & [Hid Hr']%list_elem_of_filter).
      apply generate_ready_spec in Hr. rewrite install_node in *. naive_solver.
    + intros (node & r & Hn & <- & Ho & Hr & Hid & Hg).
      exists (model_install m jobsList node r). rewrite install_node, generate_ready_spec.
      split_and!; [done|naive_solver..|]. exists node. split; [done|]. rewrite Ho. simpl.
      apply list_elem_of_fmap. exists r. split; [done|]. by apply list_elem_of_filter.
  - simpl. rewrite HC, HCs. done.
  - simpl. destruct Hst as [(job & Hin & Hc & HA & HS)|(Hno & HA & HS)]; [left|right].
    + exists job. split_and!; try done. rewrite HS.
      assert (change_status job ≠ "available") by (unfold change_status; by repeat case_bool_decide).
      by rewrite bool_decide_eq_false_2, andb_false_r by done.
    + split_and!; try done. rewrite HS. unfold s1; simpl. rewrite andb_true_r.
      by destruct (sort_slice _ _ _).
Qed.

(** ** The filtered catalog *)

#[export] Instance summary_less_swo sort : StrictWeakOrder (summary_less sort).
Proof. unfold summary_less. repeat case_match; apply _. Qed.

(** (functional). The filtered catalog holds exactly the summaries that pass
    the normalised filters, sorted by the requested key, and summaries that no
    key tells apart stay in the order of the catalog. *)
Theorem catalog_filtered_and_sorted (summaries : list ModelSummary) (filters : ModelCatalogFilters) :
  let nf := normalize_filters filters in
  let out := filterAndSortModelSummaries summaries filters in
  (∀ s, s ∈ out ↔ s ∈ summaries ∧ summary_passes nf s = true) ∧
  length out = length (filter (λ s, summary_passes nf s = true) summaries) ∧
  StronglySorted (not_after (summary_less (filt_Sort nf))) out ∧
  ∀ k, filter (λ s, lower_name s = k.1.1 ∧ sum_memory s = k.1.2 ∧ sum_disk s = k.2.1 ∧ sum_CapableNodes s = k.2.2) out
     = filter (λ s, (lower_name s = k.1.1 ∧ sum_memory s = k.1.2 ∧ sum_disk s = k.2.1 ∧ sum_CapableNodes s = k.2.2)
                     ∧ summary_passes nf s = true) summaries.
Proof.
  cbv zeta. unfold filterAndSortModelSummaries. cbv zeta. split_and!.
  - intros s. rewrite elem_of_sort_by, list_elem_of_filter. tauto.
  - apply sort_by_length.
  - apply sort_by_sorted, _.
  - intros [[name mem] [disk cap]]. cbn [fst snd]. rewrite sort_by_stable; [by rewrite list_filter_filter|].
    intros a b (Ha1 & Ha2 & Ha3 & Ha4) (Hb1 & Hb2 & Hb3 & Hb4).
    unfold summary_less. cbv zeta.
    repeat case_match; unfold asc_str, asc_Z, desc_Z;
      rewrite ?Ha1, ?Ha2, ?Ha3, ?Ha4, ?Hb1, ?Hb2, ?Hb3, ?Hb4; by repeat case_bool_decide.
Qed.

(** ** Eligibility *)

Lemma capableModelNodes_pos caps : 0 < capableModelNodes caps ↔ ∃ c, c ∈ caps ∧ cap_Capable c = true.
Proof.
  assert (0 ≤ capableModelNodes caps ∧ (0 < capableModelNodes caps ↔ ∃ c, c ∈ caps ∧ cap_Capable c = true)) as [_ ?]; [|done].
  induction caps as [|c caps [IH0 IH]]; simpl.
  - split; [lia|]. split; [lia|]. by intros (? & ?%elem_of_nil & _).
  - rewrite ex_cons. destruct (cap_Capable c); (split; [lia|]); rewrite <- IH; intuition lia.
Qed.

Lemma capabilities_NoDup (m : Model) (nodes : list Node) (jobsList : list Job) (installed : gset string) :
  NoDup (node_ID <$> nodes) → NoDup (cap_NodeID <$> modelCapabilities m nodes jobsList installed).
Proof.
  intros Hnd. unfold modelCapabilities. rewrite sort_slice_perm, <- list_fmap_compose.
  change (cap_NodeID ∘ model_capability m jobsList installed) with node_ID.
  eapply sublist_NoDup; [exact Hnd|]. apply fmap_sublist, sublist_filter.
Qed.

Lemma eligible_on_spec (nodeID : string) (caps : list ModelCapability) :
  NoDup (cap_NodeID <$> caps) →
  let '(ok, reason) := eligible_on nodeID caps in
  (ok = true ↔ ∃ c, c ∈ caps ∧ cap_Capable c = true ∧ cap_NodeID c = nodeID) ∧ (ok = false → reason ≠ "").
Proof.
  induction caps as [|c caps IH]; simpl; intros Hnd.
  - split; [|done]. split; [done|]. by intros (? & ?%elem_of_nil & _).
  - apply NoDup_cons in Hnd as [Hc Hnd]. case_bool_decide as Hid.
    + specialize (IH Hnd). destruct (eligible_on nodeID caps) as [ok reason]. destruct IH as [-> IH].
      split; [|done]. rewrite ex_cons. naive_solver.
    + assert (cap_NodeID c = nodeID) as <- by (destruct (decide (cap_NodeID c = nodeID)); tauto).
      assert (¬ ∃ x, x ∈ caps ∧ cap_Capable x = true ∧ cap_NodeID x = cap_NodeID c) as Hno.
      { intros (x & Hx & _ & Hxc). apply Hc. rewrite <- Hxc. by apply list_elem_of_fmap_2. }
      destruct (cap_Capable c) eqn:Ec; (split; [rewrite ex_cons|try done]).
      * tauto.
      * split; [done|]. intros [[? _]|?]; congruence || tauto.
      * intros _. by apply app_nonempty_r.
Qed.

(** (functional). An install request is accepted exactly when the chosen
    worker, or with no choice some worker, is capable; a refusal says why. *)
Theorem install_eligibility (nodes : list Node) (jobsList : list Job) (m : Model) (nodeID : string) :
  NoDup (node_ID <$> nodes) →
  let s := model_summary nodes jobsList m in
  let '(ok, reason) := modelInstallEligibility s nodeID in
  (ok = true ↔ ∃ c, c ∈ sum_Capabilities s ∧ cap_Capable c = true ∧ (nodeID = "" ∨ cap_NodeID c = nodeID)) ∧
  (ok = false → reason ≠ "").
Proof.
  intros Hnd s. destruct (model_summary_views_of nodes jobsList m) as (Hcs & Hcn). fold s in Hcs, Hcn.
  unfold modelInstallEligibility. case_bool_decide as Hid; cbn [negb].
  - rewrite Hcn. destruct (Z.ltb_spec 0 (capableModelNodes (sum_Capabilities s))) as [Hp|Hp].
    + apply capableModelNodes_pos in Hp. naive_solver.
    + assert (¬ ∃ c, c ∈ sum_Capabilities s ∧ cap_Capable c = true) as Hno by (rewrite <- capableModelNodes_pos; lia).
      destruct (sum_Capabilities s) as [|c0 caps] eqn:E; [naive_solver|]. split; [naive_solver|]. intros _.
      match goal with |- Join ?l _ ≠ _ => assert (l ≠ [] ∧ Forall (λ r, r ≠ "") l) as [Hl Hf] end.
      { split.
        - intros Hn%(f_equal length). rewrite sort_slice_perm, length_fmap in Hn.
          rewrite filter_cons_True in Hn; [done|].
          destruct (cap_Capable c0) eqn:?; [|done]. exfalso. apply Hno. exists c0. split; [left|done].
        - rewrite sort_slice_perm. apply Forall_fmap, Forall_true. intros c. by apply app_nonempty_r. }
      by apply Join_nonempty.
  - pose proof (eligible_on_spec nodeID (sum_Capabilities s)) as He. rewrite Hcs in He at 1.
    specialize (He (capabilities_NoDup _ _ _ _ Hnd)).
    destruct (eligible_on _ _) as [ok reason]. destruct He as [-> He]. split; [naive_solver|done].
Qed.
End views.

(** ** Worked examples *)

Section demo.
#[local] Existing Instance ascii_case.
#[local] Instance payload_json : Json ModelIDPayload := {|
  Marshal x := mip_ModelID x; Unmarshal s := Some (mkModelIDPayload s);
  json_ok _ := True; json_roundtrip := λ x _, ltac:(by destruct x) |}.
#[local] Instance demo_view_world : World := world_at 50.

Definition demo_model : Model := mkModel "m" "M" "f" "" "" "" "" "" "" 0 100 300 0 "" "".
Definition demo_worker (id : string) (mem disk : Z) (installed : list ModelResource) : Node :=
  mkNode id "" NodeRoleWorker NodeStatusOnline ""
    (mkResourceSnapshot (mkCPUResources 8 8) (mkMemoryResources mem mem) []
       (mkStorageResources disk disk disk 0 0 0 0 0 0 0) 1 installed []) 0 0.
(** Two workers, neither large enough alone. *)
Definition demo_nodes : list Node := [demo_worker "a" 200 60 []; demo_worker "b" 150 70 []].

Example demo_shards :
  (λ s, (ps_NodeID s, ps_MemoryBytes s, ps_DiskBytes s)) <$>
    mpp_Shards (modelPlacementPlan (model_summary demo_nodes [] demo_model)) =
  [("a"%string, 200, 60); ("b"%string, 100, 40)].
Proof. vm_compute. reflexivity. Qed.

Lemma placement_plan_sound_witness :
  let plan := modelPlacementPlan (model_summary demo_nodes [] demo_model) in
  mpp_Mode plan = "sharded_estimate" ∧
  sumZ (ps_MemoryBytes <$> mpp_Shards plan) = 300 ∧ sumZ (ps_DiskBytes <$> mpp_Shards plan) = 100.
Proof.
  destruct (placement_plan_sound (model_summary demo_nodes [] demo_model)) as (_ & H).
  - vm_compute. repeat split; discriminate.
  - match goal with |- Forall _ ?l =>
      let v := eval vm_compute in l in replace l with v by (vm_compute; reflexivity) end.
    repeat (apply Forall_cons; split; [unfold cap_ok, u64_ok; cbn; lia|]). by apply Forall_nil.
  - rewrite bool_decide_eq_false_2 in H by (intros Hne; by apply Hne).
    rewrite bool_decide_eq_true_2 in H by (vm_compute; reflexivity).
    destruct H as (_ & _ & _ & Hm & Hd & _). split_and!; [vm_compute; reflexivity|done|done].
Defined.

Lemma capability_iff_requirements_witness :
  cap_Capable (model_capability demo_model [] ∅ (demo_worker "a" 300 100 [])) = true ∧
  meets demo_model [] ∅ (demo_worker "a" 300 100 []).
Proof.
  assert (cap_Capable (model_capability demo_model [] ∅ (demo_worker "a" 300 100 [])) = true) as Hc
    by (vm_compute; reflexivity).
  split; [exact Hc|]. apply capability_iff_requirements; [vm_compute; split; done || discriminate|exact Hc].
Defined.

Lemma install_eligibility_witness :
  (modelInstallEligibility (model_summary demo_nodes [] demo_model) "a").1 = false ∧
  (modelInstallEligibility (model_summary demo_nodes [] demo_model) "a").2 ≠ "".
Proof.
  pose proof (install_eligibility demo_nodes [] demo_model "a") as H. cbv zeta in H.
  destruct (modelInstallEligibility (model_summary demo_nodes [] demo_model) "a") as [ok reason] eqn:E.
  vm_compute in E. injection E as <- <-. split; [done|]. apply H; [|done].
  apply (bool_decide_unpack _). vm_compute. exact I.
Defined.
End demo.
