(* ===== verification/RpcPool.v ===== *)
(** * The pool of RPC endpoints and distributed RPC plans

    [internal/manager/server.go], the part that finds llama.cpp RPC servers on
    the workers, checks that they can be reached, records their health, ranks
    and schedules them, and builds the execution plan of a distributed RPC job.
    Whether an endpoint accepts a connection is a choice of the environment
    ([Dialer]); [State] is the store. *)

From S2P Require Import Prelude GoString GoSort GoFloat World Json Cdip Types Protocol Models State.
From S2P Require Import Scheduling JobStore ModelView.

Definition rpcEndpointQuarantineConsecutiveFailures : Z := 3.
Definition distributedRPCMaxScheduledEndpoints : Z := 8.

(** [net.Dialer.DialContext] on one endpoint with a timeout in milliseconds:
    the elapsed milliseconds and the error. *)
Class Dialer := { dial : string → Z → Z * option string }.

Record RuntimeRPCPoolSummary := mkPoolSummary {
  pool_Workers : Z;
  pool_RuntimeReadyWorkers : Z;
  pool_RPCReadyWorkers : Z;
  pool_Endpoints : Z;
}.

(* field setters *)
#[export] Instance set_pool_Workers : Setter pool_Workers := λ f r, mkPoolSummary (f (pool_Workers r)) (pool_RuntimeReadyWorkers r) (pool_RPCReadyWorkers r) (pool_Endpoints r).
#[export] Instance set_pool_RuntimeReadyWorkers : Setter pool_RuntimeReadyWorkers := λ f r, mkPoolSummary (pool_Workers r) (f (pool_RuntimeReadyWorkers r)) (pool_RPCReadyWorkers r) (pool_Endpoints r).
#[export] Instance set_pool_RPCReadyWorkers : Setter pool_RPCReadyWorkers := λ f r, mkPoolSummary (pool_Workers r) (pool_RuntimeReadyWorkers r) (f (pool_RPCReadyWorkers r)) (pool_Endpoints r).
#[export] Instance set_pool_Endpoints : Setter pool_Endpoints := λ f r, mkPoolSummary (pool_Workers r) (pool_RuntimeReadyWorkers r) (pool_RPCReadyWorkers r) (f (pool_Endpoints r)).

Record RuntimeRPCPoolWorker := mkPoolWorker {
  pw_NodeID : string;
  pw_NodeName : string;
  pw_Status : NodeStatus;
  pw_Runtime : string;
  pw_RuntimeReady : bool;
  pw_RPC : RPCRuntimeResource;
  pw_Capabilities : list string;
}.

Record RuntimeRPCSmokeResult := mkSmokeResult {
  smoke_Endpoint : string;
  smoke_Ready : bool;
  smoke_LatencyMS : Z;
  smoke_Error : string;
}.

Record RuntimeRPCSmokeReport := mkSmokeReport {
  rep_Checked : Z;
  rep_Ready : Z;
  rep_Failed : Z;
  rep_TimeoutMS : Z;
  rep_DurationMS : Z;
  rep_Results : list RuntimeRPCSmokeResult;
  rep_RunnableNow : bool;
}.

(* field setters *)
#[export] Instance set_rep_Checked : Setter rep_Checked := λ f r, mkSmokeReport (f (rep_Checked r)) (rep_Ready r) (rep_Failed r) (rep_TimeoutMS r) (rep_DurationMS r) (rep_Results r) (rep_RunnableNow r).
#[export] Instance set_rep_Ready : Setter rep_Ready := λ f r, mkSmokeReport (rep_Checked r) (f (rep_Ready r)) (rep_Failed r) (rep_TimeoutMS r) (rep_DurationMS r) (rep_Results r) (rep_RunnableNow r).
#[export] Instance set_rep_Failed : Setter rep_Failed := λ f r, mkSmokeReport (rep_Checked r) (rep_Ready r) (f (rep_Failed r)) (rep_TimeoutMS r) (rep_DurationMS r) (rep_Results r) (rep_RunnableNow r).
#[export] Instance set_rep_TimeoutMS : Setter rep_TimeoutMS := λ f r, mkSmokeReport (rep_Checked r) (rep_Ready r) (rep_Failed r) (f (rep_TimeoutMS r)) (rep_DurationMS r) (rep_Results r) (rep_RunnableNow r).
#[export] Instance set_rep_DurationMS : Setter rep_DurationMS := λ f r, mkSmokeReport (rep_Checked r) (rep_Ready r) (rep_Failed r) (rep_TimeoutMS r) (f (rep_DurationMS r)) (rep_Results r) (rep_RunnableNow r).
#[export] Instance set_rep_Results : Setter rep_Results := λ f r, mkSmokeReport (rep_Checked r) (rep_Ready r) (rep_Failed r) (rep_TimeoutMS r) (rep_DurationMS r) (f (rep_Results r)) (rep_RunnableNow r).
#[export] Instance set_rep_RunnableNow : Setter rep_RunnableNow := λ f r, mkSmokeReport (rep_Checked r) (rep_Ready r) (rep_Failed r) (rep_TimeoutMS r) (rep_DurationMS r) (rep_Results r) (f (rep_RunnableNow r)).

Record ModelDistributedRPCBackend := mkRPCBackend {
  mb_NodeID : string;
  mb_NodeName : string;
  mb_Runtime : string;
  mb_Endpoint : string;
  mb_HealthStatus : string;
  mb_LatencyMS : Z;
  mb_Error : string;
}.

Record ModelDistributedRPCPlan := mkRPCPlan {
  rp_ModelID : string;
  rp_Mode : string;
  rp_CoordinatorNodeID : string;
  rp_CoordinatorNodeName : string;
  rp_ExecutableNow : bool;
  rp_Blockers : list string;
  rp_Warnings : list string;
  rp_RPCEndpoints : list string;
  rp_Backends : list ModelDistributedRPCBackend;
  rp_RPCPool : RuntimeRPCPoolSummary;
  rp_HealthChecked : bool;
}.

Record ModelDistributedRPCReadiness := mkRPCReadiness {
  rr_Ready : bool;
  rr_ModelID : string;
  rr_NodeID : string;
  rr_Blockers : list string;
  rr_RPCEndpoints : list string;
  rr_RPCPool : RuntimeRPCPoolSummary;
  rr_Plan : ModelDistributedRPCPlan;
}.

(** ** The pool *)

(** What the loops of [runtimeRPCPoolReport] have collected; the set of seen
    endpoints is the list itself. *)
Abbreviation pool_acc := (RuntimeRPCPoolSummary * list RuntimeRPCPoolWorker * list string)%type (only parsing).

Definition pool_rpc (node : Node) (runtimeStatus : RuntimeResource) (acc : pool_acc) (rpc : RPCRuntimeResource)
    : pool_acc :=
  let '(summary, workers, endpoints) := acc in
  let endpoint := TrimSpace (rpc_Endpoint rpc) in
  let '(summary, endpoints) :=
    if rpc_Ready rpc && negb (str_eqb endpoint "") then
      (summary <| pool_RPCReadyWorkers := pool_RPCReadyWorkers summary + 1 |>,
       if bool_decide (endpoint ∈ endpoints) then endpoints else endpoints ++ [endpoint])
    else (summary, endpoints) in
  (summary,
   workers ++ [mkPoolWorker (node_ID node) (nodeDisplayName node) (node_Status node) (rt_Name runtimeStatus)
                 (rt_Ready runtimeStatus) rpc (rt_Capabilities runtimeStatus)],
   endpoints).

Definition pool_runtime (node : Node) (acc : pool_acc) (runtimeStatus : RuntimeResource) : pool_acc :=
  let '(summary, workers, endpoints) := acc in
  if negb (rt_Ready runtimeStatus) then acc else
  foldl (pool_rpc node runtimeStatus)
    (summary <| pool_RuntimeReadyWorkers := pool_RuntimeReadyWorkers summary + 1 |>, workers, endpoints)
    (rt_RPCRuntimes runtimeStatus).

Definition pool_node (acc : pool_acc) (node : Node) : pool_acc :=
  let '(summary, workers, endpoints) := acc in
  if bool_decide (node_Role node ≠ NodeRoleWorker) || bool_decide (node_Status node ≠ NodeStatusOnline)
  then acc else
  foldl (pool_runtime node) (summary <| pool_Workers := pool_Workers summary + 1 |>, workers, endpoints)
    (res_Runtimes (node_Resources node)).

Definition pool_worker_less : RuntimeRPCPoolWorker → RuntimeRPCPoolWorker → bool :=
  asc_str pw_NodeName (asc_str_last (λ w, rpc_Endpoint (pw_RPC w))).

Definition runtimeRPCPoolReport `{World} (nodes : list Node)
    : RuntimeRPCPoolSummary * list RuntimeRPCPoolWorker * list string :=
  let '(summary, workers, endpoints) := foldl pool_node (mkPoolSummary 0 0 0 0, [], []) nodes in
  (summary <| pool_Endpoints := Z.of_nat (length endpoints) |>,
   sort_slice ["pool"] pool_worker_less workers, sort_by string_lt endpoints).

Definition rpcWorkersByEndpoint (workers : list RuntimeRPCPoolWorker) : gmap string RuntimeRPCPoolWorker :=
  foldl (λ (out : gmap string RuntimeRPCPoolWorker) worker,
      let endpoint := TrimSpace (rpc_Endpoint (pw_RPC worker)) in
      if str_eqb endpoint "" then out else
      match out !! endpoint with Some _ => out | None => <[endpoint := worker]> out end) ∅ workers.

(** ** Health and rank *)

Definition rpcHealthByEndpoint (health : list RPCHealthRecord) : gmap string RPCHealthRecord :=
  foldl (λ (out : gmap string RPCHealthRecord) record,
      let endpoint := TrimSpace (rh_Endpoint record) in
      if str_eqb endpoint "" then out else <[endpoint := record]> out) ∅ health.

Definition cleanEndpointList (endpoints : list string) : list string := clean_loop ∅ endpoints.

Definition rpcEndpointQuarantined (record : RPCHealthRecord) : bool :=
  negb (rh_Ready record) && (rpcEndpointQuarantineConsecutiveFailures <=? rh_ConsecutiveFailures record).

Definition rpcHealthRank (record : option RPCHealthRecord) : Z :=
  match record with
  | None => 1
  | Some record => if rh_Ready record then 0 else 2
  end.

(** The order of [rankRPCEndpoints] on two endpoints with their records. *)
Definition endpoint_less (health : gmap string RPCHealthRecord) (a b : string) : bool :=
  let l := health !! a in
  let r := health !! b in
  if negb (rpcHealthRank l =? rpcHealthRank r) then rpcHealthRank l <? rpcHealthRank r else
  match l, r with
  | Some l, Some r =>
      if negb (rh_ConsecutiveFailures l =? rh_ConsecutiveFailures r)
      then rh_ConsecutiveFailures l <? rh_ConsecutiveFailures r
      else if negb (rh_Failures l =? rh_Failures r) then rh_Failures l <? rh_Failures r
      else if negb (rh_LastLatencyMS l =? rh_LastLatencyMS r) then
        if rh_LastLatencyMS l =? 0 then false
        else if rh_LastLatencyMS r =? 0 then true
        else rh_LastLatencyMS l <? rh_LastLatencyMS r
      else string_lt a b
  | _, _ => string_lt a b
  end.

Definition rankRPCEndpoints (endpoints : list string) (health : list RPCHealthRecord) : list string :=
  let out := cleanEndpointList endpoints in
  if (length out <=? 1)%nat then out else sort_by (endpoint_less (rpcHealthByEndpoint health)) out.

Definition quarantined_in (health : gmap string RPCHealthRecord) (endpoint : string) : bool :=
  match health !! endpoint with Some record => rpcEndpointQuarantined record | None => false end.

Definition usableRPCEndpoints (endpoints : list string) (health : list RPCHealthRecord)
    (includeQuarantined : bool) : list string :=
  let ranked := rankRPCEndpoints endpoints health in
  if includeQuarantined then ranked else
  filter (λ endpoint, quarantined_in (rpcHealthByEndpoint health) endpoint = false) ranked.

Definition quarantinedRPCEndpoints (endpoints : list string) (health : list RPCHealthRecord) : list string :=
  sort_by string_lt (rh_Endpoint <$>
    filter (λ record, rh_Endpoint record ∈ cleanEndpointList endpoints ∧ rpcEndpointQuarantined record = true)
      health).

(** ** Checking endpoints *)

Section smoke.
Context `{World} `{Dialer}.

Definition smokeRuntimeRPCEndpoint (endpoint : string) (timeout : Z) : RuntimeRPCSmokeResult :=
let endpoint := TrimSpace endpoint in
if str_eqb endpoint "" then mkSmokeResult endpoint false 0 "empty endpoint" else
let '(latency, err) := dial endpoint timeout in
match err with
| Some e => mkSmokeResult endpoint false latency e
| None => mkSmokeResult endpoint true latency ""
end.

Definition smoke_step (timeout : Z) (report : RuntimeRPCSmokeReport) (endpoint : string) : RuntimeRPCSmokeReport :=
let result := smokeRuntimeRPCEndpoint endpoint timeout in
let report := if smoke_Ready result then report <| rep_Ready := rep_Ready report + 1 |>
              else report <| rep_Failed := rep_Failed report + 1 |> in
report <| rep_Results := rep_Results report ++ [result] |>.

Definition smokeRuntimeRPCEndpoints (endpoints : list string) (timeout : Z) : RuntimeRPCSmokeReport :=
let started := w_clock ["smoke"; "started"] in
let report := foldl (smoke_step timeout)
                (mkSmokeReport (Z.of_nat (length endpoints)) 0 0 0 0 [] false) endpoints in
let report := report <| rep_DurationMS := Z.quot (time_Sub (w_clock ["smoke"; "ended"]) started) 1000000 |> in
report <| rep_RunnableNow := (0 <? rep_Checked report) && (rep_Failed report =? 0) |>.

(** The update recorded for one result; an endpoint no worker reports leaves the
  node empty. *)
Definition health_update (workers : gmap string RuntimeRPCPoolWorker) (now : Time) (result : RuntimeRPCSmokeResult)
  : RPCHealthUpdate :=
let worker := workers !! smoke_Endpoint result in
mkRPCHealthUpdate (smoke_Endpoint result) (default "" (pw_NodeID <$> worker)) (default "" (pw_NodeName <$> worker))
  (smoke_Ready result) (smoke_LatencyMS result) (smoke_Error result) now.

Definition recordRPCHealthReport (s : State) (workers : list RuntimeRPCPoolWorker) (report : RuntimeRPCSmokeReport)
  : State :=
let workersByEndpoint := rpcWorkersByEndpoint workers in
let now := w_clock ["record"] in
foldl (λ s result, (PutRPCHealth (H := sub_world ["record"]) s (health_update workersByEndpoint now result)).1)
  s (rep_Results report).

Definition refreshRuntimeRPCHealth (s : State) (timeoutMS : Z) : State * RuntimeRPCSmokeReport :=
let timeoutMS := if timeoutMS <? 100 then 100 else timeoutMS in
let timeoutMS := if 5000 <? timeoutMS then 5000 else timeoutMS in
let '(s, nodes) := Nodes (H := sub_world ["nodes"]) s in
let '(_, workers, endpoints) := runtimeRPCPoolReport nodes in
let report := smokeRuntimeRPCEndpoints
                (usableRPCEndpoints endpoints (RPCHealth (H := sub_world ["health"]) s) true) timeoutMS in
(recordRPCHealthReport s workers report, report <| rep_TimeoutMS := timeoutMS |>).
End smoke.

(** ** Scheduling endpoints *)

Definition activeJobsByWorker (jobs : list Job) : gmap string Z :=
  foldl (λ (out : gmap string Z) job,
      if str_eqb (job_AssignedTo job) "" then out
      else if is_active job then <[job_AssignedTo job := default 0 (out !! job_AssignedTo job) + 1]> out
      else out) ∅ jobs.

Inductive endpoint_verdict := OnCoordinator | OnBusyWorker | Schedulable.

Definition endpoint_verdict_of (endpointWorkers : gmap string RuntimeRPCPoolWorker) (activeJobs : gmap string Z)
    (coordinatorNodeID endpoint : string) : endpoint_verdict :=
  let nodeID := default "" (pw_NodeID <$> endpointWorkers !! endpoint) in
  if negb (str_eqb coordinatorNodeID "") && str_eqb nodeID coordinatorNodeID then OnCoordinator
  else if negb (str_eqb nodeID "") && (0 <? default 0 (activeJobs !! nodeID)) then OnBusyWorker
  else Schedulable.

(** The loop: the endpoints kept and the two counters. *)
Definition schedule_endpoint (verdict : string → endpoint_verdict) (acc : list string * Z * Z) (endpoint : string)
    : list string * Z * Z :=
  let '(out, excludedCoordinator, excludedBusy) := acc in
  match verdict endpoint with
  | OnCoordinator => (out, excludedCoordinator + 1, excludedBusy)
  | OnBusyWorker => (out, excludedCoordinator, excludedBusy + 1)
  | Schedulable => (out ++ [endpoint], excludedCoordinator, excludedBusy)
  end.

Definition scheduleDistributedRPCEndpoints (endpoints : list string) (workers : list RuntimeRPCPoolWorker)
    (activeJobs : gmap string Z) (coordinatorNodeID : string) (maxEndpoints : Z) : list string * list string :=
  let verdict := endpoint_verdict_of (rpcWorkersByEndpoint workers) activeJobs coordinatorNodeID in
  let '(out, excludedCoordinator, excludedBusy) :=
    foldl (schedule_endpoint verdict) ([], 0, 0) (cleanEndpointList endpoints) in
  let '(out, warnings) :=
    if (0 <? maxEndpoints) && (maxEndpoints <? Z.of_nat (length out)) then
      (take (Z.to_nat maxEndpoints) out,
       [("distributed rpc fanout capped at " +:+ Itoa maxEndpoints +:+ " endpoint(s)")%string])
    else (out, []) in
  (out, warnings ++
     (if 0 <? excludedCoordinator
      then [(Itoa excludedCoordinator +:+ " rpc endpoint(s) on the coordinator worker were excluded")%string] else []) ++
     (if 0 <? excludedBusy
      then [(Itoa excludedBusy +:+ " rpc endpoint(s) on busy workers were excluded")%string] else [])).

(** ** The plan of a distributed RPC job *)

Section plan.
Context `{World} `{Codecs} `{!Json ModelIDPayload} `{Dialer}.

(** The health check of a plan: the state with the results recorded, the results
  by endpoint, the endpoints that answered (ranked), blockers and warnings. *)
Record health_check := mkHealthCheck {
hc_results : gmap string RuntimeRPCSmokeResult;
hc_endpoints : list string;
hc_blockers : list string;
hc_warnings : list string;
}.
Definition check_endpoints (s : State) (workers : list RuntimeRPCPoolWorker) (endpoints : list string)
  (health : list RPCHealthRecord) (healthTimeout : Z) : State * health_check :=
let healthTimeout := if healthTimeout <=? 0 then 1000 else healthTimeout in
let report := smokeRuntimeRPCEndpoints (usableRPCEndpoints endpoints health true) healthTimeout in
let s := recordRPCHealthReport s workers report in
let healthByEndpoint :=
  foldl (λ (out : gmap string RuntimeRPCSmokeResult) result, <[smoke_Endpoint result := result]> out) ∅ (rep_Results report) in
let readyEndpoints := smoke_Endpoint <$> filter (λ result, smoke_Ready result = true) (rep_Results report) in
(s, mkHealthCheck healthByEndpoint
      (usableRPCEndpoints readyEndpoints (RPCHealth (H := sub_world ["checked"]) s) false)
      (if rep_Ready report =? 0 then ["no reachable llama.cpp rpc endpoints passed health check"%string] else [])
      (if 0 <? rep_Failed report
       then [(Itoa (rep_Failed report) +:+ " llama.cpp rpc endpoint(s) failed health check and will be excluded")%string]
       else [])).

(** The backend entry of a worker; [results] is present after a health check. *)
Definition rpc_backend (results : option (gmap string RuntimeRPCSmokeResult))
  (recordByEndpoint : gmap string RPCHealthRecord) (worker : RuntimeRPCPoolWorker)
  : option ModelDistributedRPCBackend :=
let endpoint := TrimSpace (rpc_Endpoint (pw_RPC worker)) in
if negb (pw_RuntimeReady worker) || negb (rpc_Ready (pw_RPC worker)) || str_eqb endpoint "" then None else
let backend := mkRPCBackend (pw_NodeID worker) (pw_NodeName worker) (pw_Runtime worker) endpoint in
Some (match results with
      | None =>
          match recordByEndpoint !! endpoint with
          | Some record =>
              if rpcEndpointQuarantined record
              then backend "quarantined"%string 0
                     ("endpoint has " +:+ Itoa (rh_ConsecutiveFailures record) +:+ " consecutive health failures")%string
              else backend "unchecked"%string 0 ""%string
          | None => backend "unchecked"%string 0 ""%string
          end
      | Some results =>
          match results !! endpoint with
          | Some result => backend (if smoke_Ready result then "ready"%string else "failed"%string)
                             (smoke_LatencyMS result) (smoke_Error result)
          | None => backend "failed"%string 0 "endpoint was not checked"%string
          end
      end).

(** The worker that will run the job: the requested one, else the first
  installed one that is ready to generate. *)
Definition plan_coordinator (modelSummary : ModelSummary) (nodeID : string) : string :=
let nodeID := TrimSpace nodeID in
if str_eqb nodeID "" then
  default "" (inst_NodeID <$> head (filter (λ install, inst_GenerateReady install = true) (sum_Installed modelSummary)))
else nodeID.

Definition node_named (nodes : list Node) (nodeID : string) : string :=
default "" (nodeDisplayName <$> head (filter (λ node, node_ID node = nodeID) nodes)).

Definition coordinator_blockers (modelSummary : ModelSummary) (nodeID : string) : list string :=
if str_eqb nodeID "" then ["select a worker with this model installed"%string]
else if negb (modelInstalledOn modelSummary nodeID) then ["model is not installed on the selected worker"%string]
else if negb (modelGeneratableOn modelSummary nodeID) then
  let reason := modelGenerateBlockedReason modelSummary nodeID in
  if negb (str_eqb reason "") then [reason] else ["selected worker cannot generate this model"%string]
else [].

Definition modelDistributedRPCPlan (s : State) (model : Model) (nodeID : string) (checkHealth : bool)
  (healthTimeout : Z) : State * ModelDistributedRPCPlan :=
let '(s, nodes) := Nodes (H := sub_world ["nodes"]) s in
let '(summary, workers, endpoints) := runtimeRPCPoolReport nodes in
let health := RPCHealth (H := sub_world ["health"]) s in
let quarantined := quarantinedRPCEndpoints endpoints health in
let warnings :=
  if (0 <? length quarantined)%nat && negb checkHealth
  then [(Itoa (Z.of_nat (length quarantined))
           +:+ " llama.cpp rpc endpoint(s) are quarantined after repeated health failures")%string]
  else [] in
let healthChecked := checkHealth && (0 <? length endpoints)%nat in
let '(s, checked) :=
  if healthChecked
  then let '(s, checked) := check_endpoints s workers endpoints health healthTimeout in (s, Some checked)
  else (s, None) in
let rpcEndpoints := match checked with
                    | Some checked => hc_endpoints checked
                    | None => usableRPCEndpoints endpoints health false
                    end in
let backends := omap (rpc_backend (hc_results <$> checked) (rpcHealthByEndpoint health)) workers in
let blockers := (match checked with Some checked => hc_blockers checked | None => [] end) ++
  (if (length rpcEndpoints =? 0)%nat && negb healthChecked
   then ["no active llama.cpp rpc endpoints are available"%string] else []) in
let warnings := warnings ++ (match checked with Some checked => hc_warnings checked | None => [] end) in
let jobs := Jobs (H := sub_world ["jobs"]) s in
let '(s, nodes') := Nodes (H := sub_world ["nodes"; "again"]) s in
match modelSummaries [model] jobs nodes' with
| [] =>
    (s, mkRPCPlan (model_ID model) "llama.cpp-rpc" "" "" false (blockers ++ ["model is not available"%string])
          warnings rpcEndpoints backends summary healthChecked)
| modelSummary :: _ =>
    let coordinator := plan_coordinator modelSummary nodeID in
    let coordinatorName := if str_eqb coordinator "" then ""%string else node_named nodes coordinator in
    let '(scheduled, schedulingWarnings) :=
      scheduleDistributedRPCEndpoints rpcEndpoints workers (activeJobsByWorker (Jobs (H := sub_world ["busy"]) s))
        coordinator distributedRPCMaxScheduledEndpoints in
    let blockers := blockers ++ coordinator_blockers modelSummary coordinator ++
      (if (length scheduled =? 0)%nat then ["no schedulable llama.cpp rpc endpoints are available"%string] else []) in
    (s, mkRPCPlan (model_ID model) "llama.cpp-rpc" coordinator coordinatorName (length blockers =? 0)%nat blockers
          (warnings ++ schedulingWarnings) scheduled backends summary healthChecked)
end.

Definition modelDistributedRPCReadiness (s : State) (model : Model) (nodeID : string)
  : State * ModelDistributedRPCReadiness :=
let '(s, plan) := modelDistributedRPCPlan s model nodeID false 0 in
(s, mkRPCReadiness (rp_ExecutableNow plan) (rp_ModelID plan) (rp_CoordinatorNodeID plan) (rp_Blockers plan)
      (rp_RPCEndpoints plan) (rp_RPCPool plan) plan).

Definition rpcPlanContainsEndpoint (endpoints : list string) (endpoint : string) : bool :=
existsb (λ candidate, str_eqb candidate endpoint) endpoints.

Definition execution_backend (backend : ModelDistributedRPCBackend) : DistributedRPCBackend :=
mkDistributedRPCBackend (mb_NodeID backend) (mb_NodeName backend) (mb_Runtime backend) (mb_Endpoint backend)
  (mb_HealthStatus backend) (mb_LatencyMS backend) (mb_Error backend).

Definition distributedRPCExecutionPlanForJob (plan : ModelDistributedRPCPlan) : DistributedRPCExecutionPlan :=
mkDistributedRPCExecutionPlan (newID "job" (w_rand ["plan"])) DistributedRPCProtocol DistributedRPCProtocolVersion
  DistributedRPCPlanSchemaVersion (rp_Mode plan) (rp_ModelID plan) (rp_CoordinatorNodeID plan)
  (rp_CoordinatorNodeName plan) (rp_RPCEndpoints plan)
  (execution_backend <$>
     filter (λ backend, rpcPlanContainsEndpoint (rp_RPCEndpoints plan) (mb_Endpoint backend) = true) (rp_Backends plan))
  (rp_HealthChecked plan) (FormatRFC3339 (w_clock ["planned"])).
End plan.

(** ** Lemmas: rank *)

Lemma if_neq_chain (x y : Z) (b1 b2 : bool) :
  (if negb (x =? y) then b1 else b2) = (if bool_decide (x = y) then b2 else b1).
Proof. by destruct (Z.eqb_spec x y); case_bool_decide. Qed.
Lemma latency_chain (x y : Z) (rest : bool) (k := λ z, if z =? 0 then 1 else 0) :
  (if negb (x =? y) then if x =? 0 then false else if y =? 0 then true else x <? y else rest) =
  (if bool_decide (k x = k y) then if bool_decide (x = y) then rest else x <? y else k x <? k y).
Proof.
  unfold k. destruct (Z.eqb_spec x y), (Z.eqb_spec x 0), (Z.eqb_spec y 0); subst;
    repeat case_bool_decide; done || lia.
Qed.

(** The order as a chain of keys; a latency of zero (never measured) is last. *)
Lemma endpoint_less_chain health a b :
  endpoint_less health a b =
  asc_Z (λ e, rpcHealthRank (health !! e))
    (asc_Z (λ e, default 0 (rh_ConsecutiveFailures <$> health !! e))
      (asc_Z (λ e, default 0 (rh_Failures <$> health !! e))
        (asc_Z (λ e, if default 0 (rh_LastLatencyMS <$> health !! e) =? 0 then 1 else 0)
          (asc_Z (λ e, default 0 (rh_LastLatencyMS <$> health !! e)) (asc_str_last id))))) a b.
Proof.
  assert (string_lt a b = asc_str_last id a b) as Hs.
  { unfold asc_str, no_less, id. case_bool_decide; [subst; apply string_lt_irrefl|done]. }
  unfold endpoint_less, asc_Z. rewrite Hs. generalize (asc_str_last id a b). intros rest.
  destruct (health !! a) as [l|], (health !! b) as [r|]; simpl.
  - unfold rpcHealthRank. rewrite <- latency_chain, <- !if_neq_chain.
    by destruct (rh_Ready l), (rh_Ready r).
  - by destruct (rh_Ready l).
  - by destruct (rh_Ready r).
  - done.
Qed.

#[export] Instance endpoint_less_swo health : StrictWeakOrder (endpoint_less health).
Proof.
  eapply (swo_ext _ (asc_Z _ _)); [intros a b; symmetry; apply endpoint_less_chain|apply _].
Qed.

#[local] Arguments usableRPCEndpoints : simpl never.

(** ** Lemmas: usable endpoints *)

Lemma cleanEndpointList_elem l e :
  e ∈ cleanEndpointList l ↔ e ≠ ""%string ∧ ∃ x, x ∈ l ∧ e = TrimSpace x.
Proof. apply (cleaned_elem _ _ (clean_loop_cleaned l)). Qed.

Lemma rank_perm endpoints health : rankRPCEndpoints endpoints health ≡ₚ cleanEndpointList endpoints.
Proof. unfold rankRPCEndpoints. case_match; [done|]. apply sort_by_perm. Qed.

Lemma rank_sorted endpoints health :
  StronglySorted (not_after (endpoint_less (rpcHealthByEndpoint health))) (rankRPCEndpoints endpoints health).
Proof.
  unfold rankRPCEndpoints. destruct (Nat.leb_spec (length (cleanEndpointList endpoints)) 1) as [Hl|_].
  - destruct (cleanEndpointList endpoints) as [|e [|e' l]]; simpl in Hl; [constructor| |lia].
    by repeat constructor.
  - apply sort_by_sorted, _.
Qed.

Lemma usable_elem endpoints health all e :
  e ∈ usableRPCEndpoints endpoints health all ↔
  e ∈ cleanEndpointList endpoints ∧ (all = true ∨ quarantined_in (rpcHealthByEndpoint health) e = false).
Proof.
  unfold usableRPCEndpoints. destruct all.
  - rewrite rank_perm. naive_solver.
  - rewrite list_elem_of_filter, rank_perm. naive_solver.
Qed.

Lemma usable_NoDup endpoints health all : NoDup (usableRPCEndpoints endpoints health all).
Proof.
  assert (NoDup (rankRPCEndpoints endpoints health)) as Hr by (rewrite rank_perm; apply clean_loop_NoDup).
  unfold usableRPCEndpoints. destruct all; [done|by apply NoDup_filter].
Qed.

(** ** Lemmas: records by endpoint *)

(** The records are kept under their own trimmed endpoint. *)
Definition pool_wf (s : State) : Prop :=
  map_Forall (λ e r, rh_Endpoint r = e ∧ e ≠ ""%string ∧ TrimSpace e = e) (st_rpcHealth s).

Lemma PutRPCHealth_pool_wf `{World} s u : pool_wf s → pool_wf (PutRPCHealth s u).1.
Proof.
  intros Hwf. destruct (decide (TrimSpace (rhu_Endpoint u) = ""%string)) as [Hb|Hb].
  - unfold PutRPCHealth. by rewrite bool_decide_eq_true_2.
  - destruct (PutRPCHealth_record s u Hb) as [He _]. revert He.
    unfold PutRPCHealth. rewrite bool_decide_eq_false_2 by done. simpl. intros He.
    apply map_Forall_insert_2; [|done]. split_and!; [done|done|apply TrimSpace_idemp].
Qed.

Lemma rpcHealthByEndpoint_spec (l : list RPCHealthRecord) (st : gmap string RPCHealthRecord) :
  (∀ r, r ∈ l → st !! rh_Endpoint r = Some r ∧ rh_Endpoint r ≠ ""%string ∧ TrimSpace (rh_Endpoint r) = rh_Endpoint r) →
  ∀ e, rpcHealthByEndpoint l !! e = (if decide (e ∈ rh_Endpoint <$> l) then st !! e else None).
Proof.
  unfold rpcHealthByEndpoint. induction l as [|r l IH] using rev_ind; intros Hl e; [done|].
  rewrite foldl_app, fmap_app. cbn [foldl].
  destruct (Hl r) as (Hs & Hne & Ht); [set_solver|].
  rewrite Ht, bool_decide_eq_false_2 by done.
  destruct (decide (rh_Endpoint r = e)) as [<-|Hn].
  - rewrite lookup_insert_eq, decide_True; [done|]. set_solver.
  - rewrite lookup_insert_ne by done. rewrite IH by set_solver.
    do 2 case_decide; set_solver.
Qed.

Lemma health_by_endpoint `{World} s : pool_wf s → rpcHealthByEndpoint (RPCHealth s) = st_rpcHealth s.
Proof.
  intros Hwf. apply map_eq. intros e. rewrite (rpcHealthByEndpoint_spec _ (st_rpcHealth s)).
  - case_decide as Hb; [done|]. destruct (st_rpcHealth s !! e) as [r|] eqn:E; [|done].
    exfalso. apply Hb. destruct (Hwf _ _ E) as (<- & _ & _). apply list_elem_of_fmap. exists r. split; [done|].
    unfold RPCHealth. rewrite elem_of_sort_slice, range_values_elem. eauto.
  - intros r Hr. unfold RPCHealth in Hr. rewrite elem_of_sort_slice, range_values_elem in Hr.
    destruct Hr as [k Hk]. destruct (Hwf _ _ Hk) as (<- & ? & ?). by split_and!.
Qed.

(** ** Lemmas: the pool report *)

(** The entries of the report: one per RPC server of a ready runtime of an
    online worker. *)
Definition pool_entry (node : Node) (rt : RuntimeResource) (rpc : RPCRuntimeResource) : RuntimeRPCPoolWorker :=
  mkPoolWorker (node_ID node) (nodeDisplayName node) (node_Status node) (rt_Name rt) (rt_Ready rt) rpc
    (rt_Capabilities rt).
Definition runtime_entries (node : Node) (rt : RuntimeResource) : list RuntimeRPCPoolWorker :=
  if rt_Ready rt then pool_entry node rt <$> rt_RPCRuntimes rt else [].
Definition node_entries (node : Node) : list RuntimeRPCPoolWorker :=
  if is_online_worker node then res_Runtimes (node_Resources node) ≫= runtime_entries node else [].
Definition pool_entries (nodes : list Node) : list RuntimeRPCPoolWorker := nodes ≫= node_entries.

(** The endpoint of an entry that can be used. *)
Definition ready_endpoint (w : RuntimeRPCPoolWorker) : option string :=
  let endpoint := TrimSpace (rpc_Endpoint (pw_RPC w)) in
  if rpc_Ready (pw_RPC w) && negb (str_eqb endpoint "") then Some endpoint else None.

Definition add_new (endpoints : list string) (e : string) : list string :=
  if bool_decide (e ∈ endpoints) then endpoints else endpoints ++ [e].

(** What a loop of the report adds: entries, their endpoints and the counter. *)
Definition extends (entries : list RuntimeRPCPoolWorker) (acc acc' : pool_acc) : Prop :=
  acc'.1.2 = acc.1.2 ++ entries ∧
  acc'.2 = foldl add_new acc.2 (omap ready_endpoint entries) ∧
  pool_RPCReadyWorkers acc'.1.1 = pool_RPCReadyWorkers acc.1.1 + Z.of_nat (length (omap ready_endpoint entries)).

Lemma extends_refl acc : extends [] acc acc.
Proof. split_and!; [by rewrite app_nil_r|done|simpl; lia]. Qed.
Lemma extends_trans e1 e2 a b c : extends e1 a b → extends e2 b c → extends (e1 ++ e2) a c.
Proof.
  intros (W1 & E1 & N1) (W2 & E2 & N2). unfold extends.
  rewrite W2, W1, E2, E1, N2, N1, omap_app, foldl_app, length_app, app_assoc. split_and!; [done..|lia].
Qed.
Lemma extends_foldl {B} (f : pool_acc → B → pool_acc) (entries : B → list RuntimeRPCPoolWorker) l acc :
  (∀ acc x, extends (entries x) acc (f acc x)) → extends (l ≫= entries) acc (foldl f acc l).
Proof.
  intros Hf. revert acc. induction l as [|x l IH]; intros acc; [apply extends_refl|].
  by apply (extends_trans _ _ _ (f acc x)).
Qed.

Lemma bind_singleton {A B} (f : A → B) l : (l ≫= λ x, [f x]) = f <$> l.
Proof. induction l as [|x l IH]; [done|]. csimpl. by rewrite IH. Qed.

Lemma pool_rpc_extends node rt acc rpc : extends [pool_entry node rt rpc] acc (pool_rpc node rt acc rpc).
Proof.
  destruct acc as [[s ws] eps]. unfold pool_rpc, extends, add_new, pool_entry. cbn [omap list_omap].
  unfold ready_endpoint. simpl. destruct (rpc_Ready rpc && _); simpl; split_and!; done || lia.
Qed.

Lemma pool_runtime_extends node acc rt : extends (runtime_entries node rt) acc (pool_runtime node acc rt).
Proof.
  destruct acc as [[s ws] eps]. unfold pool_runtime, runtime_entries.
  destruct (rt_Ready rt) eqn:Hr; simpl; [|apply extends_refl]. rewrite <- bind_singleton.
  destruct (extends_foldl (pool_rpc node rt) _ (rt_RPCRuntimes rt)
    (s <| pool_RuntimeReadyWorkers := pool_RuntimeReadyWorkers s + 1 |>, ws, eps) (pool_rpc_extends node rt))
    as (E1 & E2 & E3).
  split_and!; [exact E1|exact E2|exact E3].
Qed.

Lemma pool_node_extends acc node : extends (node_entries node) acc (pool_node acc node).
Proof.
  destruct acc as [[s ws] eps]. unfold pool_node, node_entries, is_online_worker.
  repeat case_bool_decide; try congruence; simpl; try apply extends_refl.
  destruct (extends_foldl (pool_runtime node) _ (res_Runtimes (node_Resources node))
    (s <| pool_Workers := pool_Workers s + 1 |>, ws, eps) (pool_runtime_extends node)) as (E1 & E2 & E3).
  split_and!; [exact E1|exact E2|exact E3].
Qed.

Lemma add_new_elem l eps e : e ∈ foldl add_new eps l ↔ e ∈ eps ∨ e ∈ l.
Proof.
  revert eps. induction l as [|x l IH]; intros eps; simpl; [set_solver|].
  rewrite IH. unfold add_new. case_bool_decide; set_solver.
Qed.
Lemma add_new_NoDup l eps : NoDup eps → NoDup (foldl add_new eps l).
Proof.
  intros Hnd. apply (foldl_invariant NoDup); [done|]. intros a x Ha. unfold add_new.
  case_bool_decide; [done|]. apply NoDup_app. split_and!; [done|set_solver|by repeat constructor; set_solver].
Qed.

Section report.
Context `{World}.

(** What the report says. *)
Lemma pool_report_spec nodes summary workers endpoints :
runtimeRPCPoolReport nodes = (summary, workers, endpoints) →
workers ≡ₚ pool_entries nodes ∧ NoDup endpoints ∧
(∀ e, e ∈ endpoints ↔ ∃ w, w ∈ workers ∧ ready_endpoint w = Some e) ∧
pool_Endpoints summary = Z.of_nat (length endpoints) ∧
pool_RPCReadyWorkers summary = Z.of_nat (length (omap ready_endpoint workers)).
Proof.
unfold runtimeRPCPoolReport.
pose proof (extends_foldl pool_node node_entries nodes (mkPoolSummary 0 0 0 0, [], []) pool_node_extends)
  as (HW & HE & HN).
destruct (foldl pool_node _ nodes) as [[s0 w0] e0] eqn:E. intros [= <- <- <-]. cbn [fst snd] in *.
rewrite sort_slice_perm. cbn in HW. subst w0 e0.
assert (NoDup (foldl add_new [] (omap ready_endpoint (nodes ≫= node_entries)))) as Hnd
  by (apply add_new_NoDup; constructor).
split_and!; [done|by rewrite sort_by_perm| | |].
- intros e. rewrite elem_of_sort_by, add_new_elem, list_elem_of_omap. setoid_rewrite elem_of_sort_slice.
  split; [by intros [?%not_elem_of_nil|?]|by right].
- simpl. by rewrite sort_by_perm.
- simpl. by rewrite HN.
Qed.

(** The node is an online worker with a ready runtime whose RPC server at [e] is
  ready. *)
Definition serves (node : Node) (e : string) : Prop :=
is_online_worker node = true ∧
∃ rt rpc, rt ∈ res_Runtimes (node_Resources node) ∧ rt_Ready rt = true ∧
  rpc ∈ rt_RPCRuntimes rt ∧ rpc_Ready rpc = true ∧ TrimSpace (rpc_Endpoint rpc) = e.

Lemma entry_node nodes w :
w ∈ pool_entries nodes →
∃ node, node ∈ nodes ∧ pw_NodeID w = node_ID node ∧ pw_RuntimeReady w = true ∧
  (∀ e, ready_endpoint w = Some e → serves node e).
Proof.
unfold pool_entries. rewrite list_elem_of_bind. intros (node & Hw & Hn). exists node.
unfold node_entries in Hw. unfold serves. destruct (is_online_worker node); [|by apply elem_of_nil in Hw].
apply list_elem_of_bind in Hw as (rt & Hw & Hrt). unfold runtime_entries in Hw.
destruct (rt_Ready rt) eqn:Hr; [|by apply elem_of_nil in Hw].
apply list_elem_of_fmap in Hw as (rpc & -> & Hrpc). split_and!; [done..|].
intros e. unfold ready_endpoint. simpl. destruct (rpc_Ready rpc) eqn:Hrr; [|done]. simpl.
case_bool_decide; [done|]. intros [= <-]. split; [done|]. by exists rt, rpc.
Qed.
End report.

(** ** Lemmas: checks and records *)

Lemma insert_all_lookup {A} (key : A → string) (l : list A) (m : gmap string A) :
  NoDup (key <$> l) →
  (∀ x, x ∈ l → foldl (λ (out : gmap string A) x, <[key x := x]> out) m l !! key x = Some x) ∧
  (∀ k, k ∉ key <$> l → foldl (λ (out : gmap string A) x, <[key x := x]> out) m l !! k = m !! k).
Proof.
  revert m. induction l as [|y l IH]; intros m Hnd; csimpl in *; [by split; [intros x ?%not_elem_of_nil|]|].
  apply NoDup_cons in Hnd as [Hy Hnd]. destruct (IH (<[key y := y]> m) Hnd) as [H1 H2]. split.
  - intros x [->|Hx]%elem_of_cons; [|by apply H1]. rewrite H2 by done. apply lookup_insert_eq.
  - intros k [Hne Hk]%not_elem_of_cons. rewrite H2 by done. by rewrite lookup_insert_ne.
Qed.

Section checks.
Context `{World} `{Dialer}.

Lemma smoke_Endpoint_of e t : smoke_Endpoint (smokeRuntimeRPCEndpoint e t) = TrimSpace e.
Proof. unfold smokeRuntimeRPCEndpoint. case_match; [done|]. by repeat case_match. Qed.

Lemma smoke_results endpoints t :
let report := smokeRuntimeRPCEndpoints endpoints t in
rep_Results report = (λ e, smokeRuntimeRPCEndpoint e t) <$> endpoints ∧
rep_Checked report = Z.of_nat (length endpoints) ∧
rep_Ready report = Z.of_nat (length (filter (λ r, smoke_Ready r = true) (rep_Results report))) ∧
rep_Checked report = rep_Ready report + rep_Failed report ∧
(rep_RunnableNow report = true ↔ endpoints ≠ [] ∧ Forall (λ r, smoke_Ready r = true) (rep_Results report)).
Proof.
unfold smokeRuntimeRPCEndpoints. set (r0 := mkSmokeReport _ _ _ _ _ _ _).
assert (∀ l (r : RuntimeRPCSmokeReport),
  let r' := foldl (smoke_step t) r l in
  rep_Results r' = rep_Results r ++ ((λ e, smokeRuntimeRPCEndpoint e t) <$> l) ∧
  rep_Checked r' = rep_Checked r ∧
  rep_Ready r' = rep_Ready r + Z.of_nat (length (filter (λ r, smoke_Ready r = true) ((λ e, smokeRuntimeRPCEndpoint e t) <$> l))) ∧
  rep_Ready r' + rep_Failed r' = rep_Ready r + rep_Failed r + Z.of_nat (length l)) as Hf.
{ induction l as [|e l IH]; intros r; csimpl.
  - rewrite app_nil_r. split_and!; done || lia.
  - destruct (IH (smoke_step t r e)) as (H1 & H2 & H3 & H4). rewrite H4, H1, H2, H3. unfold smoke_step.
    rewrite filter_cons. destruct (smoke_Ready (smokeRuntimeRPCEndpoint e t)) eqn:E; simpl;
      rewrite <- ?app_assoc; split_and!; done || lia. }
destruct (Hf endpoints r0) as (H1 & H2 & H3 & H4).
destruct (foldl _ r0 endpoints) as [ck rd fl tm du rs rn]. cbn in *. subst rs.
split_and!; [done|lia|lia|lia|].
rewrite andb_true_iff, Z.ltb_lt, Z.eqb_eq. subst ck rd. rewrite <- (filter_all (λ r, smoke_Ready r = true)), length_fmap.
assert (endpoints ≠ [] ↔ 0 < Z.of_nat (length endpoints)) as -> by (destruct endpoints; simpl; split; done || lia).
lia.
Qed.
End checks.

(** ** Lemmas: recording *)

(** What a check leaves in the record of its endpoint. *)
Record recorded (r0 : option RPCHealthRecord) (result : RuntimeRPCSmokeResult) (r : RPCHealthRecord) : Prop := {
  rec_ready : rh_Ready r = smoke_Ready result;
  rec_consecutive : rh_ConsecutiveFailures r =
    if smoke_Ready result then 0 else i64 (default 0 (rh_ConsecutiveFailures <$> r0) + 1);
  rec_successes : rh_Successes r =
    let n := default 0 (rh_Successes <$> r0) in if smoke_Ready result then i64 (n + 1) else n;
  rec_failures : rh_Failures r =
    let n := default 0 (rh_Failures <$> r0) in if smoke_Ready result then n else i64 (n + 1);
}.

Section recording.
Context `{World} `{Dialer}.

Lemma record_step s workers now result :
smoke_Endpoint result ≠ ""%string → TrimSpace (smoke_Endpoint result) = smoke_Endpoint result →
let s' := (PutRPCHealth s (health_update workers now result)).1 in
(∃ r, st_rpcHealth s' !! smoke_Endpoint result = Some r ∧
      recorded (st_rpcHealth s !! smoke_Endpoint result) result r) ∧
(∀ e, e ≠ ""%string → e ≠ smoke_Endpoint result → st_rpcHealth s' !! e = st_rpcHealth s !! e).
Proof.
intros Hne Ht. set (u := health_update workers now result).
assert (TrimSpace (rhu_Endpoint u) = smoke_Endpoint result) as Hu by done.
assert (TrimSpace (rhu_Endpoint u) ≠ ""%string) as Hb by congruence.
split.
- exists (PutRPCHealth s u).2. rewrite PutRPCHealth_lookup, decide_True by done. split; [done|].
  destruct (PutRPCHealth_record s u Hb) as (_ & Hr & Hs & Hf & Hc). rewrite Hu in Hs, Hf, Hc.
  split; [done|rewrite Hc|rewrite Hs|rewrite Hf]; simpl;
    destruct (st_rpcHealth s !! smoke_Endpoint result); done.
- intros e He Hn. rewrite PutRPCHealth_lookup, decide_False by congruence. done.
Qed.

Lemma record_results workers now (l : list RuntimeRPCSmokeResult) s :
NoDup (smoke_Endpoint <$> l) →
(∀ r, r ∈ l → smoke_Endpoint r ≠ ""%string ∧ TrimSpace (smoke_Endpoint r) = smoke_Endpoint r) →
let s' := foldl (λ s result, (PutRPCHealth s (health_update workers now result)).1) s l in
(∀ result, result ∈ l → ∃ r, st_rpcHealth s' !! smoke_Endpoint result = Some r ∧
   recorded (st_rpcHealth s !! smoke_Endpoint result) result r) ∧
(∀ e, e ≠ ""%string → e ∉ smoke_Endpoint <$> l → st_rpcHealth s' !! e = st_rpcHealth s !! e).
Proof.
revert s. induction l as [|x l IH]; intros s Hnd Hl; csimpl in *.
{ split; [by intros ? ?%not_elem_of_nil|done]. }
apply NoDup_cons in Hnd as [Hx Hnd].
destruct (Hl x) as [Hne Ht]; [by left|].
destruct (record_step s workers now x Hne Ht) as [(r & Hr & Hrec) Hother].
set (s1 := (PutRPCHealth s (health_update workers now x)).1) in *.
destruct (IH s1 Hnd) as [H1 H2]; [by intros; apply Hl; right|]. split.
- intros result [->|Hin]%elem_of_cons.
  + exists r. rewrite H2 by done. done.
  + destruct (H1 result Hin) as (r' & Hr' & Hrec'). exists r'. split; [done|].
    rewrite Hother in Hrec'; [done|by apply Hl; right|].
    intros Heq. apply Hx. rewrite <- Heq. apply list_elem_of_fmap. by exists result.
- intros e He [Hne' Hn]%not_elem_of_cons. rewrite H2 by done. by apply Hother.
Qed.
End recording.

(** ** Lemmas: refreshing *)

Lemma record_pool_wf `{World} s workers report :
  pool_wf s → pool_wf (recordRPCHealthReport s workers report).
Proof. intros Hs. apply (foldl_invariant pool_wf); [done|]. intros. by apply PutRPCHealth_pool_wf. Qed.

Lemma Nodes_rpcHealth `{World} s : st_rpcHealth (Nodes s).1 = st_rpcHealth s.
Proof.
  apply (foldl_keeps (λ a, st_rpcHealth a.1)). intros [s0 l] id. unfold nodes_step.
  destruct (st_nodes s0 !! id) as [node|]; [|done]. case_match; [|done]. simpl.
  etrans; [apply (foldl_keeps st_rpcHealth)|done]. intros a x. unfold fail_step. by repeat (case_match; try done).
Qed.

(** The results of one check of the pool: distinct trimmed endpoints. *)
Lemma checked_results `{World} `{Dialer} endpoints health all t :
  let results := rep_Results (smokeRuntimeRPCEndpoints (usableRPCEndpoints endpoints health all) t) in
  NoDup (smoke_Endpoint <$> results) ∧
  (∀ r, r ∈ results → smoke_Endpoint r ≠ ""%string ∧ TrimSpace (smoke_Endpoint r) = smoke_Endpoint r) ∧
  smoke_Endpoint <$> results = usableRPCEndpoints endpoints health all.
Proof.
  destruct (smoke_results (usableRPCEndpoints endpoints health all) t) as (-> & _).
  assert (smoke_Endpoint <$> ((λ e, smokeRuntimeRPCEndpoint e t) <$> usableRPCEndpoints endpoints health all)
          = usableRPCEndpoints endpoints health all) as He.
  { rewrite <- list_fmap_compose. rewrite <- (list_fmap_id (usableRPCEndpoints _ _ _)) at 2.
    apply list_fmap_ext. intros i e Hi. simpl. rewrite smoke_Endpoint_of.
    apply list_elem_of_lookup_2, usable_elem in Hi as [Hi _].
    apply cleanEndpointList_elem in Hi as (_ & x & _ & ->). apply TrimSpace_idemp. }
  split_and!; [rewrite He; apply usable_NoDup| |done].
  intros r Hr. assert (smoke_Endpoint r ∈ usableRPCEndpoints endpoints health all) as Hin.
  { rewrite <- He. apply list_elem_of_fmap. by exists r. }
  apply usable_elem in Hin as [Hin _]. apply cleanEndpointList_elem in Hin as (Hne & x & _ & Hx).
  split; [done|]. rewrite Hx. apply TrimSpace_idemp.
Qed.

Section refresh.
Context `{World} `{Dialer}.

Lemma refresh_spec s t s' report :
refreshRuntimeRPCHealth s t = (s', report) →
(pool_wf s → pool_wf s') ∧
(∀ result, result ∈ rep_Results report → ∃ r, st_rpcHealth s' !! smoke_Endpoint result = Some r ∧
   recorded (st_rpcHealth s !! smoke_Endpoint result) result r) ∧
(∀ e, e ≠ ""%string → e ∉ smoke_Endpoint <$> rep_Results report → st_rpcHealth s' !! e = st_rpcHealth s !! e) ∧
100 ≤ rep_TimeoutMS report ≤ 5000.
Proof.
unfold refreshRuntimeRPCHealth. set (t' := if 5000 <? _ then _ else _).
destruct (Nodes s) as [s0 nodes] eqn:EN.
destruct (runtimeRPCPoolReport nodes) as [[summary workers] endpoints].
intros [= <- <-].
assert (st_rpcHealth s0 = st_rpcHealth s) as Hh.
{ pose proof (@Nodes_rpcHealth (sub_world ["nodes"]) s) as HN. by rewrite EN in HN. }
set (report := smokeRuntimeRPCEndpoints _ _).
destruct (checked_results endpoints (RPCHealth (H := sub_world ["health"]) s0) true t') as (Hnd & Hne & _).
destruct (@record_results (sub_world ["record"]) (rpcWorkersByEndpoint workers) (w_clock ["record"]) (rep_Results report) s0 Hnd Hne)
  as [H1 H2].
rewrite Hh in H1. split_and!.
- intros Hwf. apply (foldl_invariant pool_wf); [by unfold pool_wf; rewrite Hh|]. intros. by apply PutRPCHealth_pool_wf.
- exact H1.
- intros e He Hn. simpl in Hn. rewrite <- Hh. by apply H2.
- simpl. unfold t'. case_match; destruct (Z.ltb_spec t 100); lia.
- simpl. unfold t'. destruct (Z.ltb_spec t 100); case_match; lia.
Qed.
End refresh.

(** ** Lemmas: scheduling endpoints *)

#[export] Instance endpoint_verdict_eq_dec : EqDecision endpoint_verdict.
Proof. solve_decision. Defined.

Lemma schedule_fold verdict l out c b :
  foldl (schedule_endpoint verdict) (out, c, b) l =
  (out ++ filter (λ e, verdict e = Schedulable) l,
   c + Z.of_nat (length (filter (λ e, verdict e = OnCoordinator) l)),
   b + Z.of_nat (length (filter (λ e, verdict e = OnBusyWorker) l))).
Proof.
  revert out c b. induction l as [|e l IH]; intros out c b.
  { simpl. rewrite app_nil_r. f_equal; [f_equal|]; lia. }
  cbn [foldl]. unfold schedule_endpoint at 2. rewrite !filter_cons.
  destruct (verdict e) eqn:E; rewrite IH; repeat case_decide; try congruence; cbn [length];
    (apply f_equal2; [apply f_equal2|]); rewrite <- ?app_assoc; done || lia.
Qed.

(** The active jobs of a worker among a list of jobs. *)
Lemma activeJobsByWorker_spec jobs n :
  n ≠ ""%string → default 0 (activeJobsByWorker jobs !! n) = Z.of_nat (length (filter (occupies n) jobs)).
Proof.
  intros Hn. unfold activeJobsByWorker.
  assert (∀ l (m : gmap string Z), default 0 (foldl (λ (out : gmap string Z) job,
      if str_eqb (job_AssignedTo job) "" then out
      else if is_active job then <[job_AssignedTo job := default 0 (out !! job_AssignedTo job) + 1]> out
      else out) m l !! n) = default 0 (m !! n) + Z.of_nat (length (filter (occupies n) l))) as Hl.
  { induction l as [|job l IH]; intros m; cbn [foldl]; [simpl; lia|].
    rewrite IH, filter_cons. destruct (decide (occupies n job)) as [[Ha Ho]|Ho].
    - rewrite Ho, Ha, bool_decide_eq_false_2 by done. rewrite lookup_insert_eq. simpl. lia.
    - case_bool_decide; [done|]. destruct (is_active job) eqn:Ha; [|done].
      rewrite lookup_insert_ne; [done|]. intros <-. by apply Ho. }
  by rewrite Hl.
Qed.

Lemma schedulable_iff workers active coord e (n := default "" (pw_NodeID <$> rpcWorkersByEndpoint workers !! e)) :
  endpoint_verdict_of (rpcWorkersByEndpoint workers) active coord e = Schedulable ↔
  (coord = "" ∨ n ≠ coord) ∧ (n = "" ∨ default 0 (active !! n) ≤ 0).
Proof.
  unfold endpoint_verdict_of. fold n. destruct (Z.ltb_spec 0 (default 0 (active !! n))); simpl;
    repeat case_bool_decide; simpl; split; try done; intros; destruct_and?; naive_solver lia.
Qed.

Lemma scheduled_parts endpoints workers active coord (out := (scheduleDistributedRPCEndpoints endpoints workers active coord
    distributedRPCMaxScheduledEndpoints).1) :
  NoDup out ∧ (∀ e, e ∈ out → e ∈ cleanEndpointList endpoints) ∧ (length out ≤ 8)%nat.
Proof.
  unfold out, scheduleDistributedRPCEndpoints. rewrite schedule_fold, app_nil_l.
  set (all := filter _ _). assert (NoDup all) as Hnd by apply NoDup_filter, clean_loop_NoDup.
  assert (∀ e, e ∈ all → e ∈ cleanEndpointList endpoints) as Hin by (by intros e [_ He]%list_elem_of_filter).
  unfold distributedRPCMaxScheduledEndpoints. destruct (Z.ltb_spec 8 (Z.of_nat (length all))); simpl.
  - split_and!; [|by intros e He%subseteq_take; auto|rewrite length_take; lia].
    rewrite <- (take_drop 8 all) in Hnd. by apply NoDup_app in Hnd as [? _].
  - split_and!; [done..|lia].
Qed.

(** ** Lemmas: the plan *)

Definition ids_ok (s : State) : Prop := map_Forall (λ _ node, blank (node_ID node) = false) (st_nodes s).

Lemma nodes_ids `{World} s :
  ids_ok s → ids_ok (Nodes s).1 ∧ Forall (λ node, blank (node_ID node) = false) (Nodes s).2.
Proof.
  intros Hs. unfold Nodes. apply (foldl_invariant (λ a : State * list Node,
    ids_ok a.1 ∧ Forall (λ node, blank (node_ID node) = false) a.2)); [by split|].
  intros [s0 l] id [H1 H2]. unfold nodes_step. cbn [fst snd] in *.
  destruct (st_nodes s0 !! id) as [node|] eqn:E; [|done].
  pose proof (H1 _ _ E) as Hid. cbn in Hid.
  assert (node_ID (deriveNodeStatus s0 node (w_clock ["now"])) = node_ID node) as HID by apply deriveNodeStatus_ID.
  case_match; simpl; (split; [|apply Forall_app; split; [done|repeat constructor; simpl; by rewrite HID]]); [|done].
  assert (∀ s1 n now r, st_nodes (failActiveJobsForWorkerLocked s1 n now r) = st_nodes s1) as HF.
  { intros. apply (foldl_keeps st_nodes). intros a x. unfold fail_step. by repeat (case_match; try done). }
  unfold ids_ok. rewrite HF. apply map_Forall_insert_2; [simpl; by rewrite HID|done].
Qed.

Section plan_lemmas.
Context `{World} `{Codecs} `{!Json ModelIDPayload} `{Dialer}.

Lemma rpc_backend_endpoint results records w b :
rpc_backend results records w = Some b →
mb_Endpoint b = TrimSpace (rpc_Endpoint (pw_RPC w)) ∧ mb_Endpoint b ≠ ""%string ∧ mb_NodeID b = pw_NodeID w.
Proof.
unfold rpc_backend. destruct (negb _ || negb _); [done|]. simpl. case_bool_decide as Hb; [done|].
intros [= <-]. by repeat case_match.
Qed.

Lemma rpc_backend_ready results records w e :
pw_RuntimeReady w = true → ready_endpoint w = Some e →
∃ b, rpc_backend results records w = Some b ∧ mb_Endpoint b = e ∧
  (∀ rs r, results = Some rs → rs !! e = Some r → smoke_Ready r = true → mb_HealthStatus b = "ready"%string).
Proof.
intros Hr. unfold ready_endpoint, rpc_backend. rewrite Hr. simpl.
destruct (rpc_Ready (pw_RPC w)); [|done]. simpl. case_bool_decide as Hb; [done|]. intros [= <-].
eexists. split; [done|]. split; [by repeat case_match|].
intros rs r -> -> Hs. by rewrite Hs.
Qed.

Lemma installed_coordinator nodes jobs model n :
modelInstalledOn (model_summary nodes jobs model) n = true → ∃ node, node ∈ nodes ∧ node_ID node = n.
Proof.
unfold modelInstalledOn. rewrite existsb_exists. intros (n' & Hin & Hn). apply bool_decide_eq_true in Hn as ->.
apply list_elem_of_In in Hin. revert Hin. unfold model_summary. destruct (foldl (summary_job model) _ jobs) as [sm u].
simpl. rewrite elem_of_sort_slice, elem_of_elements, installed_on_spec. naive_solver.
Qed.

(** An endpoint the plan may use: some entry of the pool offers it, and after a
  health check it answered. *)
Definition offered (workers : list RuntimeRPCPoolWorker) (results : option (gmap string RuntimeRPCSmokeResult))
  (e : string) : Prop :=
(∃ w, w ∈ workers ∧ ready_endpoint w = Some e) ∧
(∀ rs, results = Some rs → ∃ r, rs !! e = Some r ∧ smoke_Ready r = true).

Lemma ready_endpoint_clean w e : ready_endpoint w = Some e → TrimSpace e = e ∧ e ≠ ""%string.
Proof.
unfold ready_endpoint. destruct (rpc_Ready (pw_RPC w)); [|done]. simpl. case_bool_decide; [done|].
intros [= <-]. split; [apply TrimSpace_idemp|done].
Qed.

(** Cleaning keeps only trimmed members of the list. *)
Lemma clean_member endpoints e (P : string → Prop) :
(∀ x, x ∈ endpoints → TrimSpace x = x ∧ P x) → e ∈ cleanEndpointList endpoints → P e.
Proof. intros HP (_ & x & Hx & ->)%cleanEndpointList_elem. destruct (HP x Hx) as [-> ?]. done. Qed.

Lemma unchecked_offered nodes summary workers endpoints health e :
runtimeRPCPoolReport nodes = (summary, workers, endpoints) →
e ∈ usableRPCEndpoints endpoints health false → offered workers None e.
Proof.
intros HP He. destruct (pool_report_spec _ _ _ _ HP) as (_ & _ & HE & _).
apply usable_elem in He as [He _]. split; [|done].
apply (clean_member endpoints _ (λ e, ∃ w, w ∈ workers ∧ ready_endpoint w = Some e)); [|done]. intros x (w & Hw & Hx)%HE.
split; [by eapply ready_endpoint_clean|by exists w].
Qed.

Lemma checked_offered s nodes summary workers endpoints health t s' hc e :
runtimeRPCPoolReport nodes = (summary, workers, endpoints) →
check_endpoints s workers endpoints health t = (s', hc) →
e ∈ hc_endpoints hc → offered workers (Some (hc_results hc)) e.
Proof.
intros HP. unfold check_endpoints. set (t' := if t <=? 0 then 1000 else t). intros [= <- <-]. cbn [hc_endpoints hc_results].
destruct (pool_report_spec _ _ _ _ HP) as (_ & _ & HE & _).
destruct (checked_results endpoints health true t') as (Hnd & Hne & Heq).
set (results := rep_Results _) in *.
intros [He _]%usable_elem. revert He. apply (clean_member _ _ (offered workers (Some _))). intros x Hx.
apply list_elem_of_fmap in Hx as (r & -> & [Hr Hin]%list_elem_of_filter).
destruct (Hne r Hin) as [_ Ht]. split; [done|]. split.
- assert (smoke_Endpoint r ∈ usableRPCEndpoints endpoints health true) as Hu
    by (rewrite <- Heq; apply list_elem_of_fmap; by exists r).
  apply usable_elem in Hu as [Hu _]. revert Hu. apply (clean_member _ _ (λ e, ∃ w, w ∈ workers ∧ ready_endpoint w = Some e)). intros y (w & Hw & Hy)%HE.
  split; [by eapply ready_endpoint_clean|by exists w].
- intros rs [= <-]. exists r. split; [|done]. by apply (insert_all_lookup smoke_Endpoint results ∅ Hnd).
Qed.

(** The validation accepts the execution plan of a plan with trimmed distinct
  endpoints that each have a backend. *)
Lemma execution_plan_ok plan :
blank (rp_ModelID plan) = false → blank (rp_CoordinatorNodeID plan) = false → blank (rp_Mode plan) = false →
rp_RPCEndpoints plan ≠ [] → NoDup (rp_RPCEndpoints plan) →
(∀ e, e ∈ rp_RPCEndpoints plan → TrimSpace e = e ∧ e ≠ ""%string) →
(∀ e, e ∈ rp_RPCEndpoints plan → ∃ b, b ∈ rp_Backends plan ∧ mb_Endpoint b = e) →
(∀ b, b ∈ rp_Backends plan → blank (mb_NodeID b) = false) →
ValidateDistributedRPCExecutionPlan (distributedRPCExecutionPlanForJob plan) (rp_ModelID plan)
  (rp_CoordinatorNodeID plan) = None.
Proof.
intros Hm Hc Hmode Hne Hnd Hoff Hback Hids.
apply plan_valid_spec. destruct (rp_RPCEndpoints plan) as [|e0 es] eqn:EE; [done|].
assert (cleanRPCEndpoints (e0 :: es) = e0 :: es) as Hclean.
{ apply clean_loop_id; [done|]. intros x Hx. destruct (Hoff x Hx). split_and!; [done..|set_solver]. }
constructor; cbn [distributedRPCExecutionPlanForJob ep_Protocol ep_ProtocolVersion ep_PlanSchemaVersion ep_Mode
  ep_ModelID ep_CoordinatorNodeID ep_RPCEndpoints ep_Backends]; rewrite ?EE, ?Hclean; try done; [by right|by right| |].
- destruct (Hback e0) as (b & Hb1 & Hb2); [by left|]. intros Hnil%fmap_nil_inv.
  eapply (filter_nil_not_elem_of _ _ b); [exact Hnil| |done].
  apply existsb_exists. exists e0. split; [by left|]. by apply bool_decide_eq_true.
- apply Forall_fmap, Forall_forall. intros b [Hin Hb']%list_elem_of_filter. simpl.
  apply existsb_exists in Hin as (e & Hin & Heq). apply bool_decide_eq_true in Heq as <-.
  apply list_elem_of_In in Hin. destruct (Hoff _ Hin) as (-> & Hen). split_and!; [done..|by apply Hids].
Qed.

(** The parts an executable plan is made of. *)
Lemma executable_plan_parts s model nodeID check t s' plan :
ids_ok s → modelDistributedRPCPlan s model nodeID check t = (s', plan) → rp_ExecutableNow plan = true →
let nodes := (Nodes (H := sub_world ["nodes"]) s).2 in
∃ workers results records candidates active,
  Forall (λ node, blank (node_ID node) = false) nodes ∧ workers ≡ₚ pool_entries nodes ∧
  rp_Backends plan = omap (rpc_backend results records) workers ∧
  Forall (offered workers results) candidates ∧
  rp_RPCEndpoints plan = (scheduleDistributedRPCEndpoints candidates workers active (rp_CoordinatorNodeID plan)
                            distributedRPCMaxScheduledEndpoints).1 ∧
  rp_RPCEndpoints plan ≠ [] ∧ (rp_HealthChecked plan = true ↔ is_Some results) ∧
  blank (rp_CoordinatorNodeID plan) = false ∧ rp_ModelID plan = model_ID model ∧
  rp_Mode plan = "llama.cpp-rpc"%string.
Proof.
intros Hids. cbv zeta. unfold modelDistributedRPCPlan.
destruct (@nodes_ids (sub_world ["nodes"]) s Hids) as [Hids1 Hn1].
destruct (Nodes s) as [s1 nodes] eqn:EN. cbn [fst snd] in *.
destruct (runtimeRPCPoolReport nodes) as [[summary workers] endpoints] eqn:EP.
set (health := RPCHealth _). set (hchk := check && _).
destruct (if hchk then _ else _) as [s2 checked] eqn:EC.
set (candidates := match checked with Some c => hc_endpoints c | None => _ end).
assert (Forall (offered workers (hc_results <$> checked)) candidates ∧ ids_ok s2 ∧
        (hchk = true ↔ is_Some (hc_results <$> checked))) as (Hcand & Hids2 & Hchk).
{ destruct hchk; [|injection EC as <- <-].
  - destruct (check_endpoints s1 workers endpoints health t) as [s3 hc] eqn:EH. injection EC as <- <-.
    split_and!; [|by revert EH; unfold check_endpoints; intros [= <- _];
      apply (foldl_invariant ids_ok); [|intros ? ? ?; unfold PutRPCHealth; by case_match]|by split].
    apply Forall_forall. intros e. by apply (checked_offered s1 nodes summary workers endpoints health t s3).
  - split_and!; [|done|split; [done|by intros []]]. apply Forall_forall. intros e.
    by apply (unchecked_offered nodes summary). }
clearbody candidates. clear EC.
destruct (@nodes_ids (sub_world ["nodes"; "again"]) s2 Hids2) as [_ Hn2].
destruct (Nodes s2) as [s3 nodes2] eqn:EN2. cbn [fst snd] in *. cbn [modelSummaries list_fmap fmap].
unfold modelSummaries. csimpl. set (jobs := sort_slice _ _ _). set (ms := model_summary nodes2 jobs model).
set (coord := plan_coordinator ms nodeID).
destruct (scheduleDistributedRPCEndpoints candidates workers _ coord _) as [scheduled warns] eqn:ES.
intros [= <- <-]. cbn [rp_ExecutableNow rp_Backends rp_RPCEndpoints rp_HealthChecked rp_CoordinatorNodeID rp_ModelID rp_Mode].
intros Hlen. apply Nat.eqb_eq, nil_length_inv in Hlen.
apply app_nil in Hlen as [_ Hlen]. apply app_nil in Hlen as [Hcb Hsched].
eexists workers, _, _, candidates, (activeJobsByWorker (Jobs (H := sub_world ["busy"]) s3)).
split_and!; try done; [by apply pool_report_spec in EP as [? _]|exact (eq_sym (f_equal fst ES))| |].
- by destruct scheduled.
- unfold coordinator_blockers in Hcb. case_bool_decide; [done|].
  destruct (modelInstalledOn ms coord) eqn:EI; [|done].
  destruct (installed_coordinator _ _ _ _ EI) as (node & Hn & <-).
  rewrite Forall_forall in Hn2. by apply Hn2.
Qed.
End plan_lemmas.

(** ** Properties *)

Section properties.
Context `{World} `{Codecs} `{!Json ModelIDPayload} `{Dialer}.

(** (functional). The usable endpoints are the distinct non-blank endpoints
  that are not quarantined, ready ones before unknown before failing ones and
  each group by failures, then latency. *)
Theorem usable_endpoints_ranked (s : State) (endpoints : list string) :
pool_wf s →
let out := usableRPCEndpoints endpoints (RPCHealth s) false in
NoDup out ∧
(∀ e, e ∈ out ↔ e ≠ ""%string ∧ (∃ x, x ∈ endpoints ∧ e = TrimSpace x) ∧
                ∀ r, st_rpcHealth s !! e = Some r → rh_Ready r = true ∨ rh_ConsecutiveFailures r < 3) ∧
StronglySorted (not_after (endpoint_less (st_rpcHealth s))) out.
Proof.
intros Hwf. split_and!; [apply usable_NoDup| |].
- intros e. rewrite usable_elem, cleanEndpointList_elem, health_by_endpoint by done.
  unfold quarantined_in, rpcEndpointQuarantined, rpcEndpointQuarantineConsecutiveFailures.
  destruct (st_rpcHealth s !! e) as [r|]; [|naive_solver].
  rewrite andb_false_iff, negb_false_iff, Z.leb_gt. naive_solver.
- unfold usableRPCEndpoints. rewrite <- (health_by_endpoint s Hwf).
  pose proof (rank_sorted endpoints (RPCHealth s)) as Hs. induction Hs as [|x l Hl IH Hx]; [constructor|].
  rewrite filter_cons. case_decide; [|done]. constructor; [done|].
  rewrite Forall_forall in Hx |- *. intros y [_ Hy]%list_elem_of_filter. by apply Hx.
Qed.

(** (functional). Endpoints are scheduled in their order: those on the
  coordinator or on workers with active jobs are left out and counted in the
  warnings, and at most [maxEndpoints] are taken. *)
Theorem schedule_endpoints_outcome (endpoints : list string) (workers : list RuntimeRPCPoolWorker)
  (jobs : list Job) (coordinator : string) (maxEndpoints : Z) :
let worker e := default "" (pw_NodeID <$> rpcWorkersByEndpoint workers !! e) in
let out := (scheduleDistributedRPCEndpoints endpoints workers (activeJobsByWorker jobs) coordinator maxEndpoints).1 in
let free e := (coordinator = "" ∨ worker e ≠ coordinator) ∧
              (worker e = "" ∨ Forall (λ job, ¬ occupies (worker e) job) jobs) in
(∀ e, e ∈ out → e ∈ cleanEndpointList endpoints ∧ free e) ∧
(0 < maxEndpoints → Z.of_nat (length out) ≤ maxEndpoints) ∧
((∃ e, e ∈ cleanEndpointList endpoints ∧ free e ∧ e ∉ out) → 0 < maxEndpoints ∧ Z.of_nat (length out) = maxEndpoints).
Proof.
intros worker out free. set (verdict := endpoint_verdict_of (rpcWorkersByEndpoint workers) (activeJobsByWorker jobs) coordinator).
set (all := filter (λ e, verdict e = Schedulable) (cleanEndpointList endpoints)).
assert (∀ e, verdict e = Schedulable ↔ free e) as Hfree.
{ intros e. unfold verdict. rewrite schedulable_iff. fold (worker e). unfold free.
  destruct (decide (worker e = "")) as [->|Hne]; [naive_solver|]. rewrite activeJobsByWorker_spec by done.
  assert (Z.of_nat (length (filter (occupies (worker e)) jobs)) ≤ 0 ↔ Forall (λ job, ¬ occupies (worker e) job) jobs)
    as ->; [|done]. rewrite Forall_forall. split.
  - intros Hz job Hin Ho. assert (filter (occupies (worker e)) jobs = []) as E by (apply nil_length_inv; lia).
    by apply (filter_nil_not_elem_of (occupies (worker e)) jobs job).
  - intros Hno. destruct (filter (occupies (worker e)) jobs) as [|job l] eqn:E; [done|].
    assert (job ∈ filter (occupies (worker e)) jobs) as [Ho Hin]%list_elem_of_filter by (rewrite E; left).
    by destruct (Hno job Hin). }
assert (out = if (0 <? maxEndpoints) && (maxEndpoints <? Z.of_nat (length all))
              then take (Z.to_nat maxEndpoints) all else all) as ->.
{ unfold out, scheduleDistributedRPCEndpoints. rewrite schedule_fold. fold verdict. rewrite app_nil_l. fold all. by destruct (_ && _). }
assert (∀ e, e ∈ all ↔ e ∈ cleanEndpointList endpoints ∧ free e) as Hall.
{ intros e. unfold all. rewrite list_elem_of_filter, Hfree. naive_solver. }
destruct (Z.ltb_spec 0 maxEndpoints), (Z.ltb_spec maxEndpoints (Z.of_nat (length all))); simpl;
  (split_and!; [intros e He; apply Hall; try done; by apply subseteq_take in He|try lia|]).
all: rewrite ?length_take; try lia.
all: intros (e & Hc & Hf & Hout); exfalso; by apply Hout, Hall.
Qed.

(** C31 (safety). A plan declared executable can be executed, when the model and the
    nodes of the state have identifiers: the execution plan built from it passes the
    validation the worker runs, and it names between one and eight distinct
    endpoints. Each is the address of a ready RPC server of a ready runtime of a
    worker that the node list of this moment shows as online, with a backend entry
    that carries this worker's id; after a health check that entry says [ready]. *)
Theorem executable_rpc_plan_valid (s s' : State) (model : Model) (nodeID : string) (check : bool) (t : Z)
  (plan : ModelDistributedRPCPlan) :
ids_ok s → blank (model_ID model) = false →
modelDistributedRPCPlan s model nodeID check t = (s', plan) → rp_ExecutableNow plan = true →
(∀ W : World, ValidateDistributedRPCExecutionPlan (@distributedRPCExecutionPlanForJob W plan) (model_ID model)
  (rp_CoordinatorNodeID plan) = None) ∧
NoDup (rp_RPCEndpoints plan) ∧ (0 < length (rp_RPCEndpoints plan) ≤ 8)%nat ∧
Forall (λ e, ∃ node b, node ∈ (Nodes (H := sub_world ["nodes"]) s).2 ∧ serves node e ∧
                  b ∈ rp_Backends plan ∧ mb_Endpoint b = e ∧ mb_NodeID b = node_ID node ∧
                  (rp_HealthChecked plan = true → mb_HealthStatus b = "ready"%string)) (rp_RPCEndpoints plan).
Proof.
intros Hids Hm HP Hex.
destruct (executable_plan_parts _ _ _ _ _ _ _ Hids HP Hex)
  as (workers & results & records & cands & active & Hn & Hw & Hb & Hc & He & Hne & Hck & Hco & Hid & Hmode).
destruct (scheduled_parts cands workers active (rp_CoordinatorNodeID plan)) as (Hnd & Hsub & Hlen).
rewrite <- He in Hnd, Hsub, Hlen.
assert (∀ e, e ∈ rp_RPCEndpoints plan → TrimSpace e = e ∧ e ≠ ""%string ∧ offered workers results e) as Hoff.
{ intros e Hin. apply Hsub in Hin. revert Hin.
  apply (clean_member _ _ (λ e, TrimSpace e = e ∧ e ≠ ""%string ∧ offered workers results e)). intros x Hx.
  rewrite Forall_forall in Hc. destruct (Hc x Hx) as [(w & Hw1 & Hw2) Hr].
  destruct (ready_endpoint_clean w x Hw2) as [Ht Hxne]. split_and!; [done..|]. by split; [exists w|]. }
set (nodes := (Nodes (H := sub_world ["nodes"]) s).2) in *.
assert (∀ e, e ∈ rp_RPCEndpoints plan → ∃ node b, node ∈ nodes ∧ serves node e ∧
          b ∈ rp_Backends plan ∧ mb_Endpoint b = e ∧ mb_NodeID b = node_ID node ∧
          (rp_HealthChecked plan = true → mb_HealthStatus b = "ready"%string)) as Hback.
{ intros e Hin. destruct (Hoff e Hin) as (_ & _ & (w & Hw1 & Hw2) & Hr).
  destruct (entry_node nodes w) as (node & Hnode & Hnid & Hrr & Hsv); [by rewrite <- Hw|].
  destruct (rpc_backend_ready results records w e Hrr Hw2) as (b & Hb1 & Hb2 & Hb3).
  destruct (rpc_backend_endpoint _ _ _ _ Hb1) as (_ & _ & Hbid).
  exists node, b. split_and!; [done|by apply Hsv|rewrite Hb; apply list_elem_of_omap; by exists w|done|by rewrite Hbid|].
  intros [rs Hrs]%Hck. destruct (Hr rs Hrs) as (r & Hr1 & Hr2). by eapply Hb3. }
split_and!; [|done|by destruct (rp_RPCEndpoints plan); [|apply Nat.lt_0_succ]|done|by apply Forall_forall].
intros W. rewrite <- Hid in Hm |- *. apply execution_plan_ok; [done|done|by rewrite Hmode|done|done| | |].
- intros e Hin. by destruct (Hoff e Hin) as (? & ? & _).
- intros e Hin. destruct (Hback e Hin) as (node & b & _ & _ & ? & ? & _). by exists b.
- intros b Hin. rewrite Hb in Hin. apply list_elem_of_omap in Hin as (w & Hw1 & Hw2).
  destruct (rpc_backend_endpoint _ _ _ _ Hw2) as (_ & _ & ->).
  destruct (entry_node nodes w) as (node & Hnode & -> & _); [by rewrite <- Hw|].
  rewrite Forall_forall in Hn. by apply Hn.
Qed.
End properties.

(** ** Refreshing the health of the pool over time *)

(** A refresh: its world, the network it finds and its timeout. *)
Abbreviation refresh_call := (World * Dialer * Z)%type (only parsing).
Definition refresh_in (s : State) (o : refresh_call) : State * RuntimeRPCSmokeReport :=
  @refreshRuntimeRPCHealth o.1.1 o.1.2 s o.2.
Definition refreshes (s : State) (l : list refresh_call) : State := foldl (λ s o, (refresh_in s o).1) s l.

(** The refresh checks the endpoint and finds it [ready]. *)
Definition finds (e : string) (ready : bool) (s : State) (o : refresh_call) : Prop :=
  ∃ r, r ∈ rep_Results (refresh_in s o).2 ∧ smoke_Endpoint r = e ∧ smoke_Ready r = ready.
Fixpoint all_find (e : string) (ready : bool) (s : State) (l : list refresh_call) : Prop :=
  match l with [] => True | o :: l => finds e ready s o ∧ all_find e ready (refresh_in s o).1 l end.

Lemma finds_check e ready s o :
  existsb (λ r, str_eqb (smoke_Endpoint r) e && Bool.eqb (smoke_Ready r) ready) (rep_Results (refresh_in s o).2) = true →
  finds e ready s o.
Proof.
  intros (r & Hin%list_elem_of_In & Hr)%existsb_exists. apply andb_true_iff in Hr as [He Hb].
  apply bool_decide_eq_true in He. apply Bool.eqb_prop in Hb. by exists r.
Qed.

Definition failures_in_a_row (s : State) (e : string) : Z :=
  default 0 (rh_ConsecutiveFailures <$> st_rpcHealth s !! e).

Lemma finds_record e ready s o :
  finds e ready s o → pool_wf s →
  pool_wf (refresh_in s o).1 ∧
  ∃ r, st_rpcHealth (refresh_in s o).1 !! e = Some r ∧ rh_Ready r = ready ∧
       rh_ConsecutiveFailures r = if ready then 0 else i64 (failures_in_a_row s e + 1).
Proof.
  intros (res & Hin & <- & <-) Hwf. destruct (refresh_in s o) as [s' report] eqn:E.
  destruct (@refresh_spec o.1.1 o.1.2 s o.2 s' report E) as (Hwf' & Hrec & _). split; [by apply Hwf'|].
  destruct (Hrec res Hin) as (r & Hr & []). by exists r.
Qed.

Lemma failing_run e l s :
  pool_wf s → all_find e false s l → l ≠ [] →
  0 ≤ failures_in_a_row s e → failures_in_a_row s e + Z.of_nat (length l) < 2^63 →
  pool_wf (refreshes s l) ∧
  ∃ r, st_rpcHealth (refreshes s l) !! e = Some r ∧ rh_Ready r = false ∧
       rh_ConsecutiveFailures r = failures_in_a_row s e + Z.of_nat (length l).
Proof.
  revert s. induction l as [|o l IH]; intros s Hwf Hall Hne H0 Hlt; [done|].
  destruct Hall as [Hf Hall]. destruct (finds_record _ _ _ _ Hf Hwf) as (Hwf1 & r & Hr & Hready & Hc).
  rewrite i64_small in Hc by (simpl in Hlt; lia).
  assert (failures_in_a_row (refresh_in s o).1 e = failures_in_a_row s e + 1) as H1.
  { unfold failures_in_a_row at 1. by rewrite Hr. }
  destruct l as [|o' l]; [split; [done|]; exists r; split_and!; [done..|simpl; lia]|].
  destruct (IH (refresh_in s o).1) as (Hwf2 & r2 & Hr2 & Hready2 & Hc2); [done|done|done|lia|cbn [length] in *; lia|].
  split; [done|]. exists r2. split_and!; [done..|]. rewrite Hc2, H1. cbn [length]. lia.
Qed.

(** (safety, over time). An endpoint that fails three checks in a row is left
    out of every plan until a check reaches it again, and is back right then. *)
Theorem three_failures_quarantine (W : World) (e : string) (s : State) (l : list refresh_call) (endpoints : list string) :
  pool_wf s → 0 ≤ failures_in_a_row s e → failures_in_a_row s e + Z.of_nat (length l) < 2^63 →
  all_find e false s l → (3 ≤ length l)%nat →
  e ∉ usableRPCEndpoints endpoints (RPCHealth (refreshes s l)) false ∧
  (∀ o, finds e true (refreshes s l) o → e ∈ cleanEndpointList endpoints →
        e ∈ usableRPCEndpoints endpoints (RPCHealth (refresh_in (refreshes s l) o).1) false).
Proof.
  intros Hwf H0 Hlt Hall Hlen.
  destruct (failing_run e l s Hwf Hall) as (Hwf1 & r & Hr & Hready & Hc); [by destruct l; simpl in *; [lia|]|done|done|].
  split.
  - rewrite usable_elem, health_by_endpoint by done. unfold quarantined_in, rpcEndpointQuarantined.
    rewrite Hr, Hready, Hc. unfold rpcEndpointQuarantineConsecutiveFailures.
    rewrite (proj2 (Z.leb_le 3 _)) by lia. naive_solver.
  - intros o Hf Hin. destruct (finds_record _ _ _ _ Hf Hwf1) as (Hwf2 & r2 & Hr2 & Hready2 & _).
    rewrite usable_elem, health_by_endpoint by done. unfold quarantined_in, rpcEndpointQuarantined.
    rewrite Hr2, Hready2. naive_solver.
Qed.

(** (functional). A refresh records each endpoint it checked, ready exactly
    when it answered, leaves all other records alone, and reports the totals. *)
Theorem refresh_updates_health `{World} `{Dialer} (s s' : State) (t : Z) (report : RuntimeRPCSmokeReport) :
  refreshRuntimeRPCHealth s t = (s', report) →
  100 ≤ rep_TimeoutMS report ≤ 5000 ∧
  rep_Checked report = Z.of_nat (length (rep_Results report)) ∧
  rep_Checked report = rep_Ready report + rep_Failed report ∧
  (rep_RunnableNow report = true ↔ rep_Results report ≠ [] ∧ Forall (λ r, smoke_Ready r = true) (rep_Results report)) ∧
  (∀ result, result ∈ rep_Results report → ∃ r, st_rpcHealth s' !! smoke_Endpoint result = Some r ∧
     recorded (st_rpcHealth s !! smoke_Endpoint result) result r) ∧
  (∀ e, e ≠ ""%string → e ∉ smoke_Endpoint <$> rep_Results report → st_rpcHealth s' !! e = st_rpcHealth s !! e).
Proof.
  intros HR. destruct (refresh_spec s t s' report HR) as (_ & Hrec & Hother & Ht).
  revert HR. unfold refreshRuntimeRPCHealth. destruct (Nodes s) as [s0 nodes].
  destruct (runtimeRPCPoolReport nodes) as [[summary workers] endpoints].
  intros [= _ HR]. revert HR. set (eps := usableRPCEndpoints _ _ _). set (t' := if 5000 <? _ then _ else _).
  intros HR. destruct (smoke_results eps t') as (Hres & Hck & _ & Hsum & Hrun).
  split; [done|]. rewrite <- HR.
  rewrite <- HR in Hrec, Hother.
  split_and!; [|done| |exact Hrec|exact Hother].
  - transitivity (rep_Checked (smokeRuntimeRPCEndpoints eps t')); [done|]. rewrite Hck. f_equal.
    transitivity (length (rep_Results (smokeRuntimeRPCEndpoints eps t'))); [by rewrite Hres, length_fmap|done].
  - etrans; [exact Hrun|]. apply and_iff_compat_r.
    transitivity (rep_Results (smokeRuntimeRPCEndpoints eps t') ≠ []); [|done]. rewrite Hres. by destruct eps.
Qed.

(** ** Examples *)

Section demo.
#[local] Existing Instance demo_codecs.
#[local] Instance demo_payload : Json ModelIDPayload := fixed_codec (mkModelIDPayload "m").

(** Every endpoint answers, or none does. *)
Definition reachable_network : Dialer := {| dial _ _ := (3, None) |}.
Definition dead_network : Dialer := {| dial _ t := (t, Some "refused"%string) |}.

Definition rpc_server (endpoint : string) : RPCRuntimeResource :=
mkRPCRuntimeResource "rpc-server" true "" endpoint "" [].
Definition llama_runtime (rpc : list RPCRuntimeResource) : RuntimeResource :=
mkRuntimeResource "llama.cpp" true "" "" "" "" [] rpc [] "".
Definition rpc_node (id : string) (models : list ModelResource) (rpc : list RPCRuntimeResource) : Node :=
mkNode id "" NodeRoleWorker NodeStatusOnline "" (mkResourceSnapshot (mkCPUResources 8 8) (mkMemoryResources 64 64) []
  zero_storage 1 models [llama_runtime rpc]) 0 10.
Definition rpc_model : Model := mkModel "m" "M" "f" "" "" "" "" "" "llama.cpp" 0 1 1 0 "" "".
Definition rpc_state : State :=
(NewState 1) <| st_nodes := <["a" := rpc_node "a" [mkModelResource "m" "" "" "" "" 1 true "" 0] []]>
                            {[ "b" := rpc_node "b" [] [rpc_server " 10.0.0.2:50052"] ]} |>.

Definition demo_rpc_plan : State * ModelDistributedRPCPlan :=
@modelDistributedRPCPlan (world_at 20) _ reachable_network rpc_state rpc_model "a" true 1000.

Example demo_plan_runs : rp_ExecutableNow demo_rpc_plan.2 = true ∧ rp_RPCEndpoints demo_rpc_plan.2 = ["10.0.0.2:50052"%string].
Proof. vm_compute. done. Qed.

Lemma demo_ids : ids_ok rpc_state.
Proof. apply (bool_decide_unpack _). vm_compute. exact I. Qed.

Lemma executable_rpc_plan_valid_witness :
(∀ W : World, ValidateDistributedRPCExecutionPlan (@distributedRPCExecutionPlanForJob W demo_rpc_plan.2) "m" "a" = None) ∧
NoDup (rp_RPCEndpoints demo_rpc_plan.2) ∧ (0 < length (rp_RPCEndpoints demo_rpc_plan.2) ≤ 8)%nat ∧
Forall (λ e, ∃ node b, node ∈ (Nodes (H := sub_world (W := world_at 20) ["nodes"]) rpc_state).2 ∧ serves node e ∧
                  b ∈ rp_Backends demo_rpc_plan.2 ∧ mb_Endpoint b = e ∧ mb_NodeID b = node_ID node ∧
                  (rp_HealthChecked demo_rpc_plan.2 = true → mb_HealthStatus b = "ready"%string))
  (rp_RPCEndpoints demo_rpc_plan.2).
Proof.
apply (@executable_rpc_plan_valid (world_at 20) _ reachable_network rpc_state demo_rpc_plan.1 rpc_model "a" true 1000).
- exact demo_ids.
- reflexivity.
- apply surjective_pairing.
- vm_compute. reflexivity.
Defined.

Lemma usable_endpoints_ranked_witness :
"10.0.0.1:50052"%string ∈ @usableRPCEndpoints [" 10.0.0.1:50052"; ""]%string (@RPCHealth (world_at 9) demo_rpc_state) false.
Proof.
refine (proj2 (proj1 (proj2 (@usable_endpoints_ranked (world_at 9) demo_rpc_state [" 10.0.0.1:50052"; ""]%string _)) _) _).
- apply (bool_decide_unpack _). vm_compute. exact I.
- split; [discriminate|]. split; [exists " 10.0.0.1:50052"%string; split; [left|reflexivity]|].
  vm_compute. intros r [= <-]. by left.
Defined.

Definition dead_refresh (now : Time) : World * Dialer * Z := (world_at now, dead_network, 1000).

Lemma three_failures_quarantine_witness :
"10.0.0.2:50052"%string ∉ usableRPCEndpoints ["10.0.0.2:50052"%string]
  (@RPCHealth (world_at 9) (refreshes rpc_state [dead_refresh 20; dead_refresh 30; dead_refresh 40])) false.
Proof.
refine (proj1 (three_failures_quarantine (world_at 9) "10.0.0.2:50052" rpc_state
  [dead_refresh 20; dead_refresh 30; dead_refresh 40] ["10.0.0.2:50052"%string] _ _ _ _ _)).
- apply map_Forall_empty.
- vm_compute. discriminate.
- vm_compute. reflexivity.
- refine (conj (finds_check _ _ _ _ _) (conj (finds_check _ _ _ _ _) (conj (finds_check _ _ _ _ _) I)));
    vm_compute; reflexivity.
- simpl. lia.
Defined.

Lemma refresh_updates_health_witness :
let r := @refreshRuntimeRPCHealth (world_at 20) dead_network rpc_state 50 in
100 ≤ rep_TimeoutMS r.2 ≤ 5000 ∧ rep_Failed r.2 = 1.
Proof.
split; [|vm_compute; reflexivity].
apply (proj1 (@refresh_updates_health (world_at 20) dead_network rpc_state
  (@refreshRuntimeRPCHealth (world_at 20) dead_network rpc_state 50).1 50 _ (surjective_pairing _))).
Defined.
End demo.
