(* ===== verification/DistributedPlan.v ===== *)
(** * Planning distributed inference

    The planning half of [internal/manager/distributed.go] and
    [internal/manager/cdip.go]: which workers take part, how the layers of a
    model are divided among them, the CDIP proposal and shard manifest of a plan,
    and the stage jobs of a distributed job. *)

From S2P Require Import Prelude GoString GoSort GoFloat World Json Cdip Types Protocol Models Codec State ModelView.

Definition distributedStageOverheadBytes : Z := 512 * 1024 * 1024.

Definition ActivationStreamV1 : string := "activation-stream-v1".
Definition CapabilityPipelineStagePrepare : string := "pipeline-stage-prepare".
Definition CapabilityPipelinePrefill : string := "pipeline-prefill".
Definition CapabilityPipelineDecode : string := "pipeline-decode".
Definition CapabilityLogicalStageRuntime : string := "logical-stage-runtime".
Definition CapabilityLlamaCPPStageRuntime : string := "llama.cpp-stage-runtime".

Record DistributedRuntimeMissing := mkDistributedRuntimeMissing {
  miss_NodeID : string; miss_NodeName : string; miss_Reason : string }.

Record DistributedRuntimeDiag := mkDistributedRuntimeDiag {
  diag_CandidateWorkers : Z;
  diag_RuntimeReadyWorkers : Z;
  diag_StageReadyWorkers : Z;
  diag_LogicalStageWorkers : Z;
  diag_LlamaCPPStageWorkers : Z;
  diag_MissingStageCapability : list DistributedRuntimeMissing;
}.

(* field setters *)
#[export] Instance set_diag_CandidateWorkers : Setter diag_CandidateWorkers := λ f r, mkDistributedRuntimeDiag (f (diag_CandidateWorkers r)) (diag_RuntimeReadyWorkers r) (diag_StageReadyWorkers r) (diag_LogicalStageWorkers r) (diag_LlamaCPPStageWorkers r) (diag_MissingStageCapability r).
#[export] Instance set_diag_RuntimeReadyWorkers : Setter diag_RuntimeReadyWorkers := λ f r, mkDistributedRuntimeDiag (diag_CandidateWorkers r) (f (diag_RuntimeReadyWorkers r)) (diag_StageReadyWorkers r) (diag_LogicalStageWorkers r) (diag_LlamaCPPStageWorkers r) (diag_MissingStageCapability r).
#[export] Instance set_diag_StageReadyWorkers : Setter diag_StageReadyWorkers := λ f r, mkDistributedRuntimeDiag (diag_CandidateWorkers r) (diag_RuntimeReadyWorkers r) (f (diag_StageReadyWorkers r)) (diag_LogicalStageWorkers r) (diag_LlamaCPPStageWorkers r) (diag_MissingStageCapability r).
#[export] Instance set_diag_LogicalStageWorkers : Setter diag_LogicalStageWorkers := λ f r, mkDistributedRuntimeDiag (diag_CandidateWorkers r) (diag_RuntimeReadyWorkers r) (diag_StageReadyWorkers r) (f (diag_LogicalStageWorkers r)) (diag_LlamaCPPStageWorkers r) (diag_MissingStageCapability r).
#[export] Instance set_diag_LlamaCPPStageWorkers : Setter diag_LlamaCPPStageWorkers := λ f r, mkDistributedRuntimeDiag (diag_CandidateWorkers r) (diag_RuntimeReadyWorkers r) (diag_StageReadyWorkers r) (diag_LogicalStageWorkers r) (f (diag_LlamaCPPStageWorkers r)) (diag_MissingStageCapability r).
#[export] Instance set_diag_MissingStageCapability : Setter diag_MissingStageCapability := λ f r, mkDistributedRuntimeDiag (diag_CandidateWorkers r) (diag_RuntimeReadyWorkers r) (diag_StageReadyWorkers r) (diag_LogicalStageWorkers r) (diag_LlamaCPPStageWorkers r) (f (diag_MissingStageCapability r)).

Record DistributedPlanStage := mkDistributedPlanStage {
  dps_Index : Z;
  dps_NodeID : string;
  dps_NodeName : string;
  dps_LayerStart : Z;
  dps_LayerEnd : Z;
  dps_Layers : Z;
  dps_MemoryBytes : Z;
  dps_DiskBytes : Z;
  dps_AllowedMemoryBytes : Z;
  dps_AllowedStorageBytes : Z;
  dps_RuntimeReady : bool;
  dps_RuntimeCapabilities : list string;
  dps_StageRuntime : string;
  dps_StageRuntimeReady : bool;
  dps_StageRuntimeReason : string;
  dps_Installed : bool;
}.

Record DistributedNetworkPlan := mkDistributedNetworkPlan {
  dnp_InterStageHops : Z;
  dnp_AssumedInterStageLatencyMS : Z;
}.

(* field setters *)
#[export] Instance set_dnp_InterStageHops : Setter dnp_InterStageHops := λ f r, mkDistributedNetworkPlan (f (dnp_InterStageHops r)) (dnp_AssumedInterStageLatencyMS r).
#[export] Instance set_dnp_AssumedInterStageLatencyMS : Setter dnp_AssumedInterStageLatencyMS := λ f r, mkDistributedNetworkPlan (dnp_InterStageHops r) (f (dnp_AssumedInterStageLatencyMS r)).

Record DistributedLatencyModel := mkDistributedLatencyModel {
  dlm_FirstTokenMS : Z;
  dlm_PerOutputTokenMS : Z;
  dlm_Confidence : string;
  dlm_Assumption : string;
  dlm_PipelinePenaltyPct : Z;
}.

Record DistributedModelPlan := mkDistributedModelPlan {
  dmp_ModelID : string;
  dmp_Mode : string;
  dmp_Runtime : string;
  dmp_Feasible : bool;
  dmp_ExecutableNow : bool;
  dmp_TotalLayers : Z;
  dmp_RequiredMemoryBytes : Z;
  dmp_RequiredDiskBytes : Z;
  dmp_AggregateMemoryBytes : Z;
  dmp_AggregateDiskBytes : Z;
  dmp_StageOverheadBytes : Z;
  dmp_Stages : list DistributedPlanStage;
  dmp_Network : DistributedNetworkPlan;
  dmp_EstimatedLatency : DistributedLatencyModel;
  dmp_StageRuntimeDiagnostics : DistributedRuntimeDiag;
  dmp_Blockers : list string;
  dmp_Warnings : list string;
  dmp_NextImplementationTargets : list string;
}.

(* field setters *)
#[export] Instance set_dmp_ModelID : Setter dmp_ModelID := λ f r, mkDistributedModelPlan (f (dmp_ModelID r)) (dmp_Mode r) (dmp_Runtime r) (dmp_Feasible r) (dmp_ExecutableNow r) (dmp_TotalLayers r) (dmp_RequiredMemoryBytes r) (dmp_RequiredDiskBytes r) (dmp_AggregateMemoryBytes r) (dmp_AggregateDiskBytes r) (dmp_StageOverheadBytes r) (dmp_Stages r) (dmp_Network r) (dmp_EstimatedLatency r) (dmp_StageRuntimeDiagnostics r) (dmp_Blockers r) (dmp_Warnings r) (dmp_NextImplementationTargets r).
#[export] Instance set_dmp_Mode : Setter dmp_Mode := λ f r, mkDistributedModelPlan (dmp_ModelID r) (f (dmp_Mode r)) (dmp_Runtime r) (dmp_Feasible r) (dmp_ExecutableNow r) (dmp_TotalLayers r) (dmp_RequiredMemoryBytes r) (dmp_RequiredDiskBytes r) (dmp_AggregateMemoryBytes r) (dmp_AggregateDiskBytes r) (dmp_StageOverheadBytes r) (dmp_Stages r) (dmp_Network r) (dmp_EstimatedLatency r) (dmp_StageRuntimeDiagnostics r) (dmp_Blockers r) (dmp_Warnings r) (dmp_NextImplementationTargets r).
#[export] Instance set_dmp_Runtime : Setter dmp_Runtime := λ f r, mkDistributedModelPlan (dmp_ModelID r) (dmp_Mode r) (f (dmp_Runtime r)) (dmp_Feasible r) (dmp_ExecutableNow r) (dmp_TotalLayers r) (dmp_RequiredMemoryBytes r) (dmp_RequiredDiskBytes r) (dmp_AggregateMemoryBytes r) (dmp_AggregateDiskBytes r) (dmp_StageOverheadBytes r) (dmp_Stages r) (dmp_Network r) (dmp_EstimatedLatency r) (dmp_StageRuntimeDiagnostics r) (dmp_Blockers r) (dmp_Warnings r) (dmp_NextImplementationTargets r).
#[export] Instance set_dmp_Feasible : Setter dmp_Feasible := λ f r, mkDistributedModelPlan (dmp_ModelID r) (dmp_Mode r) (dmp_Runtime r) (f (dmp_Feasible r)) (dmp_ExecutableNow r) (dmp_TotalLayers r) (dmp_RequiredMemoryBytes r) (dmp_RequiredDiskBytes r) (dmp_AggregateMemoryBytes r) (dmp_AggregateDiskBytes r) (dmp_StageOverheadBytes r) (dmp_Stages r) (dmp_Network r) (dmp_EstimatedLatency r) (dmp_StageRuntimeDiagnostics r) (dmp_Blockers r) (dmp_Warnings r) (dmp_NextImplementationTargets r).
#[export] Instance set_dmp_ExecutableNow : Setter dmp_ExecutableNow := λ f r, mkDistributedModelPlan (dmp_ModelID r) (dmp_Mode r) (dmp_Runtime r) (dmp_Feasible r) (f (dmp_ExecutableNow r)) (dmp_TotalLayers r) (dmp_RequiredMemoryBytes r) (dmp_RequiredDiskBytes r) (dmp_AggregateMemoryBytes r) (dmp_AggregateDiskBytes r) (dmp_StageOverheadBytes r) (dmp_Stages r) (dmp_Network r) (dmp_EstimatedLatency r) (dmp_StageRuntimeDiagnostics r) (dmp_Blockers r) (dmp_Warnings r) (dmp_NextImplementationTargets r).
#[export] Instance set_dmp_TotalLayers : Setter dmp_TotalLayers := λ f r, mkDistributedModelPlan (dmp_ModelID r) (dmp_Mode r) (dmp_Runtime r) (dmp_Feasible r) (dmp_ExecutableNow r) (f (dmp_TotalLayers r)) (dmp_RequiredMemoryBytes r) (dmp_RequiredDiskBytes r) (dmp_AggregateMemoryBytes r) (dmp_AggregateDiskBytes r) (dmp_StageOverheadBytes r) (dmp_Stages r) (dmp_Network r) (dmp_EstimatedLatency r) (dmp_StageRuntimeDiagnostics r) (dmp_Blockers r) (dmp_Warnings r) (dmp_NextImplementationTargets r).
#[export] Instance set_dmp_RequiredMemoryBytes : Setter dmp_RequiredMemoryBytes := λ f r, mkDistributedModelPlan (dmp_ModelID r) (dmp_Mode r) (dmp_Runtime r) (dmp_Feasible r) (dmp_ExecutableNow r) (dmp_TotalLayers r) (f (dmp_RequiredMemoryBytes r)) (dmp_RequiredDiskBytes r) (dmp_AggregateMemoryBytes r) (dmp_AggregateDiskBytes r) (dmp_StageOverheadBytes r) (dmp_Stages r) (dmp_Network r) (dmp_EstimatedLatency r) (dmp_StageRuntimeDiagnostics r) (dmp_Blockers r) (dmp_Warnings r) (dmp_NextImplementationTargets r).
#[export] Instance set_dmp_RequiredDiskBytes : Setter dmp_RequiredDiskBytes := λ f r, mkDistributedModelPlan (dmp_ModelID r) (dmp_Mode r) (dmp_Runtime r) (dmp_Feasible r) (dmp_ExecutableNow r) (dmp_TotalLayers r) (dmp_RequiredMemoryBytes r) (f (dmp_RequiredDiskBytes r)) (dmp_AggregateMemoryBytes r) (dmp_AggregateDiskBytes r) (dmp_StageOverheadBytes r) (dmp_Stages r) (dmp_Network r) (dmp_EstimatedLatency r) (dmp_StageRuntimeDiagnostics r) (dmp_Blockers r) (dmp_Warnings r) (dmp_NextImplementationTargets r).
#[export] Instance set_dmp_AggregateMemoryBytes : Setter dmp_AggregateMemoryBytes := λ f r, mkDistributedModelPlan (dmp_ModelID r) (dmp_Mode r) (dmp_Runtime r) (dmp_Feasible r) (dmp_ExecutableNow r) (dmp_TotalLayers r) (dmp_RequiredMemoryBytes r) (dmp_RequiredDiskBytes r) (f (dmp_AggregateMemoryBytes r)) (dmp_AggregateDiskBytes r) (dmp_StageOverheadBytes r) (dmp_Stages r) (dmp_Network r) (dmp_EstimatedLatency r) (dmp_StageRuntimeDiagnostics r) (dmp_Blockers r) (dmp_Warnings r) (dmp_NextImplementationTargets r).
#[export] Instance set_dmp_AggregateDiskBytes : Setter dmp_AggregateDiskBytes := λ f r, mkDistributedModelPlan (dmp_ModelID r) (dmp_Mode r) (dmp_Runtime r) (dmp_Feasible r) (dmp_ExecutableNow r) (dmp_TotalLayers r) (dmp_RequiredMemoryBytes r) (dmp_RequiredDiskBytes r) (dmp_AggregateMemoryBytes r) (f (dmp_AggregateDiskBytes r)) (dmp_StageOverheadBytes r) (dmp_Stages r) (dmp_Network r) (dmp_EstimatedLatency r) (dmp_StageRuntimeDiagnostics r) (dmp_Blockers r) (dmp_Warnings r) (dmp_NextImplementationTargets r).
#[export] Instance set_dmp_StageOverheadBytes : Setter dmp_StageOverheadBytes := λ f r, mkDistributedModelPlan (dmp_ModelID r) (dmp_Mode r) (dmp_Runtime r) (dmp_Feasible r) (dmp_ExecutableNow r) (dmp_TotalLayers r) (dmp_RequiredMemoryBytes r) (dmp_RequiredDiskBytes r) (dmp_AggregateMemoryBytes r) (dmp_AggregateDiskBytes r) (f (dmp_StageOverheadBytes r)) (dmp_Stages r) (dmp_Network r) (dmp_EstimatedLatency r) (dmp_StageRuntimeDiagnostics r) (dmp_Blockers r) (dmp_Warnings r) (dmp_NextImplementationTargets r).
#[export] Instance set_dmp_Stages : Setter dmp_Stages := λ f r, mkDistributedModelPlan (dmp_ModelID r) (dmp_Mode r) (dmp_Runtime r) (dmp_Feasible r) (dmp_ExecutableNow r) (dmp_TotalLayers r) (dmp_RequiredMemoryBytes r) (dmp_RequiredDiskBytes r) (dmp_AggregateMemoryBytes r) (dmp_AggregateDiskBytes r) (dmp_StageOverheadBytes r) (f (dmp_Stages r)) (dmp_Network r) (dmp_EstimatedLatency r) (dmp_StageRuntimeDiagnostics r) (dmp_Blockers r) (dmp_Warnings r) (dmp_NextImplementationTargets r).
#[export] Instance set_dmp_Network : Setter dmp_Network := λ f r, mkDistributedModelPlan (dmp_ModelID r) (dmp_Mode r) (dmp_Runtime r) (dmp_Feasible r) (dmp_ExecutableNow r) (dmp_TotalLayers r) (dmp_RequiredMemoryBytes r) (dmp_RequiredDiskBytes r) (dmp_AggregateMemoryBytes r) (dmp_AggregateDiskBytes r) (dmp_StageOverheadBytes r) (dmp_Stages r) (f (dmp_Network r)) (dmp_EstimatedLatency r) (dmp_StageRuntimeDiagnostics r) (dmp_Blockers r) (dmp_Warnings r) (dmp_NextImplementationTargets r).
#[export] Instance set_dmp_EstimatedLatency : Setter dmp_EstimatedLatency := λ f r, mkDistributedModelPlan (dmp_ModelID r) (dmp_Mode r) (dmp_Runtime r) (dmp_Feasible r) (dmp_ExecutableNow r) (dmp_TotalLayers r) (dmp_RequiredMemoryBytes r) (dmp_RequiredDiskBytes r) (dmp_AggregateMemoryBytes r) (dmp_AggregateDiskBytes r) (dmp_StageOverheadBytes r) (dmp_Stages r) (dmp_Network r) (f (dmp_EstimatedLatency r)) (dmp_StageRuntimeDiagnostics r) (dmp_Blockers r) (dmp_Warnings r) (dmp_NextImplementationTargets r).
#[export] Instance set_dmp_StageRuntimeDiagnostics : Setter dmp_StageRuntimeDiagnostics := λ f r, mkDistributedModelPlan (dmp_ModelID r) (dmp_Mode r) (dmp_Runtime r) (dmp_Feasible r) (dmp_ExecutableNow r) (dmp_TotalLayers r) (dmp_RequiredMemoryBytes r) (dmp_RequiredDiskBytes r) (dmp_AggregateMemoryBytes r) (dmp_AggregateDiskBytes r) (dmp_StageOverheadBytes r) (dmp_Stages r) (dmp_Network r) (dmp_EstimatedLatency r) (f (dmp_StageRuntimeDiagnostics r)) (dmp_Blockers r) (dmp_Warnings r) (dmp_NextImplementationTargets r).
#[export] Instance set_dmp_Blockers : Setter dmp_Blockers := λ f r, mkDistributedModelPlan (dmp_ModelID r) (dmp_Mode r) (dmp_Runtime r) (dmp_Feasible r) (dmp_ExecutableNow r) (dmp_TotalLayers r) (dmp_RequiredMemoryBytes r) (dmp_RequiredDiskBytes r) (dmp_AggregateMemoryBytes r) (dmp_AggregateDiskBytes r) (dmp_StageOverheadBytes r) (dmp_Stages r) (dmp_Network r) (dmp_EstimatedLatency r) (dmp_StageRuntimeDiagnostics r) (f (dmp_Blockers r)) (dmp_Warnings r) (dmp_NextImplementationTargets r).
#[export] Instance set_dmp_Warnings : Setter dmp_Warnings := λ f r, mkDistributedModelPlan (dmp_ModelID r) (dmp_Mode r) (dmp_Runtime r) (dmp_Feasible r) (dmp_ExecutableNow r) (dmp_TotalLayers r) (dmp_RequiredMemoryBytes r) (dmp_RequiredDiskBytes r) (dmp_AggregateMemoryBytes r) (dmp_AggregateDiskBytes r) (dmp_StageOverheadBytes r) (dmp_Stages r) (dmp_Network r) (dmp_EstimatedLatency r) (dmp_StageRuntimeDiagnostics r) (dmp_Blockers r) (f (dmp_Warnings r)) (dmp_NextImplementationTargets r).
#[export] Instance set_dmp_NextImplementationTargets : Setter dmp_NextImplementationTargets := λ f r, mkDistributedModelPlan (dmp_ModelID r) (dmp_Mode r) (dmp_Runtime r) (dmp_Feasible r) (dmp_ExecutableNow r) (dmp_TotalLayers r) (dmp_RequiredMemoryBytes r) (dmp_RequiredDiskBytes r) (dmp_AggregateMemoryBytes r) (dmp_AggregateDiskBytes r) (dmp_StageOverheadBytes r) (dmp_Stages r) (dmp_Network r) (dmp_EstimatedLatency r) (dmp_StageRuntimeDiagnostics r) (dmp_Blockers r) (dmp_Warnings r) (f (dmp_NextImplementationTargets r)).

(** ** Workers *)

Definition maxInt (left right : Z) : Z := if right <? left then left else right.

Definition effectiveNodeStorage (node : Node) : Z :=
  let sto := res_Storage (node_Resources node) in
  if (0 <? sto_FreeBytes sto) && (sto_FreeBytes sto <? sto_AllowedBytes sto)
  then sto_FreeBytes sto else sto_AllowedBytes sto.

Definition node_memory (node : Node) : Z := mem_AllowedBytes (res_Memory (node_Resources node)).
(** What is left of a worker's memory for the weights of its stage. *)
Definition usable_memory (node : Node) : Z := u64 (node_memory node - distributedStageOverheadBytes).

Definition nodeHasModel (node : Node) (modelID : string) : bool :=
  existsb (λ installed, str_eqb (mr_ID installed) modelID && mr_Ready installed) (res_Models (node_Resources node)).

Definition runtimeHasCapability (runtimeStatus : RuntimeResource) (capability : string) : bool :=
  existsb (λ item, str_eqb item capability) (rt_Capabilities runtimeStatus).

(** The stage runtime of a worker, whether it is ready, and otherwise why not. *)
Definition nodeDistributedStageRuntime (runtimeStatus : RuntimeResource) (runtimeReady : bool)
    : string * bool * string :=
  if negb runtimeReady then
    let reason := TrimSpace (rt_Error runtimeStatus) in
    (""%string, false, if str_eqb reason "" then "runtime is not ready"%string else reason)
  else if runtimeHasCapability runtimeStatus CapabilityLlamaCPPStageRuntime
  then ("llama.cpp-stage-experimental"%string, true, ""%string)
  else if runtimeHasCapability runtimeStatus CapabilityLogicalStageRuntime
  then ("logical-stage"%string, true, ""%string)
  else (""%string, false, "distributed stage runtime capability not reported"%string).

(** The three tests of the candidate loop. *)
Definition is_candidate (node : Node) : bool :=
  is_online_worker node && negb (node_memory node <=? distributedStageOverheadBytes)
  && negb (effectiveNodeStorage node =? 0).

Definition worker_less : Node → Node → bool := desc_Z node_memory (asc_str_last nodeDisplayName).

Definition diagnose (model : Model) (out : DistributedRuntimeDiag) (node : Node) : DistributedRuntimeDiag :=
  let '(runtimeStatus, runtimeReady) := nodeRuntimeStatus node (model_Runtime model) in
  let out := if runtimeReady
             then out <| diag_RuntimeReadyWorkers := diag_RuntimeReadyWorkers out + 1 |> else out in
  let '(stageRuntime, stageReady, reason) := nodeDistributedStageRuntime runtimeStatus runtimeReady in
  if stageReady then
    let out := out <| diag_StageReadyWorkers := diag_StageReadyWorkers out + 1 |> in
    if str_eqb stageRuntime "logical-stage"
    then out <| diag_LogicalStageWorkers := diag_LogicalStageWorkers out + 1 |>
    else if str_eqb stageRuntime "llama.cpp-stage-experimental"
    then out <| diag_LlamaCPPStageWorkers := diag_LlamaCPPStageWorkers out + 1 |>
    else out
  else out <| diag_MissingStageCapability := diag_MissingStageCapability out ++
                [mkDistributedRuntimeMissing (node_ID node) (nodeDisplayName node) reason] |>.

Definition distributedRuntimeDiagnostics (model : Model) (candidates : list Node) : DistributedRuntimeDiag :=
  foldl (diagnose model) (mkDistributedRuntimeDiag (Z.of_nat (length candidates)) 0 0 0 0 []) candidates.

(** The shortest initial segment of at least two workers that can hold the
    model; [nil] when there is none. *)
Fixpoint select_workers_loop (model : Model) (selected : list Node) (memory disk : Z) (candidates : list Node)
    : list Node :=
  match candidates with
  | [] => []
  | candidate :: candidates =>
      let selected := selected ++ [candidate] in
      let memory := u64 (memory + usable_memory candidate) in
      let disk := u64 (disk + effectiveNodeStorage candidate) in
      if (2 <=? length selected)%nat && (model_MemoryBytes model <=? memory) && (model_DiskBytes model <=? disk)
      then selected else select_workers_loop model selected memory disk candidates
  end.
Definition selectDistributedWorkers (model : Model) (candidates : list Node) : list Node :=
  select_workers_loop model [] 0 0 candidates.

Definition allStagesRuntimeReady (stages : list DistributedPlanStage) : bool :=
  forallb dps_RuntimeReady stages && (0 <? length stages)%nat.
Definition allStagesStageRuntimeReady (stages : list DistributedPlanStage) : bool :=
  forallb dps_StageRuntimeReady stages.
Definition allStagesInstalled (stages : list DistributedPlanStage) : bool :=
  forallb dps_Installed stages && (0 <? length stages)%nat.

Section plan.
Context `{World} `{UpperCase} `{FloatSyntax}.

Definition distributedCandidates (model : Model) (nodes : list Node) : list Node :=
  sort_slice ["candidates"; model_ID model] worker_less (filter (λ n, is_candidate n = true) nodes).

(** ** Layers *)

Definition estimatedModelLayers (model : Model) : Z :=
  let params := TrimSuffix (ToUpper (TrimSpace (model_Parameters model))) "B" in
  match ParseFloat params with
  | None => 32
  | Some value =>
      if f_le value f_zero then 32
      else if f_le value (f_div (f_of_Z 3) (f_of_Z 2)) then 24
      else if f_le value (f_of_Z 4) then 32
      else if f_le value (f_of_Z 8) then 32
      else if f_le value (f_of_Z 15) then 48
      else if f_le value (f_of_Z 28) then 56
      else 64
  end.

Definition proportionalBytes (total part whole : Z) : Z :=
  if (whole <=? 0) || (part <=? 0) || (total =? 0) then 0
  else f_ceil_to_u64 w_fconv (f_div (f_mul (f_of_Z total) (f_of_Z part)) (f_of_Z whole)).

(** The layers of the node at [index] of [count]: the last takes what is left,
    the others their share of the weight, at least one and never so many that
    a later node gets none. *)
Definition stage_layers (totalLayers totalWeight nextLayer : Z) (index count : nat) (weight : Z) : Z :=
  if (index =? count - 1)%nat then totalLayers - nextLayer
  else if 0 <? totalWeight then
    let layers := f_round_to_int (- 2^63) (2^63) w_fconv
                    (f_div (f_mul (f_of_Z totalLayers) (f_of_Z weight)) (f_of_Z totalWeight)) in
    let layers := if layers <? 1 then 1 else layers in
    let maxAllowed := totalLayers - nextLayer - (Z.of_nat count - Z.of_nat index - 1) in
    if maxAllowed <? layers then maxAllowed else layers
  else 1.

Definition plan_stage (model : Model) (totalLayers nextLayer layers : Z) (index : nat) (node : Node)
    : DistributedPlanStage :=
  let '(runtimeStatus, runtimeReady) := nodeRuntimeStatus node (model_Runtime model) in
  let '(stageRuntime, stageRuntimeReady, stageRuntimeReason) :=
    nodeDistributedStageRuntime runtimeStatus runtimeReady in
  mkDistributedPlanStage (Z.of_nat index) (node_ID node) (nodeDisplayName node) nextLayer
    (nextLayer + layers - 1) layers
    (u64 (proportionalBytes (model_MemoryBytes model) layers totalLayers + distributedStageOverheadBytes))
    (proportionalBytes (model_DiskBytes model) layers totalLayers)
    (node_memory node) (effectiveNodeStorage node) runtimeReady (rt_Capabilities runtimeStatus)
    stageRuntime stageRuntimeReady stageRuntimeReason (nodeHasModel node (model_ID model)).

Fixpoint build_stages_loop (model : Model) (totalLayers totalWeight nextLayer : Z) (index count : nat)
    (nodes : list Node) : list DistributedPlanStage :=
  match nodes with
  | [] => []
  | node :: nodes =>
      let layers := stage_layers totalLayers totalWeight nextLayer index count (usable_memory node) in
      plan_stage model totalLayers nextLayer layers index node
      :: build_stages_loop model totalLayers totalWeight (nextLayer + layers) (S index) count nodes
  end.

Definition buildDistributedStages (model : Model) (nodes : list Node) (totalLayers : Z)
    : list DistributedPlanStage :=
  let totalLayers := if totalLayers <=? 0 then 1 else totalLayers in
  let totalWeight := foldl (λ w node, u64 (w + usable_memory node)) 0 nodes in
  build_stages_loop model totalLayers totalWeight 0 0 (length nodes) nodes.

Definition estimateDistributedLatency (model : Model) (stages interStageLatencyMS : Z)
    : DistributedLatencyModel :=
  let stages := if stages <? 1 then 1 else stages in
  let params := ToUpper (TrimSuffix (TrimSpace (model_Parameters model)) "B") in
  let basePerToken :=
    match ParseFloat params with
    | Some value => i64 (80 + f_trunc_to_int (- 2^63) (2^63) w_fconv (f_mul value (f_of_Z 18)))
    | None => 120
    end in
  let networkPenalty := i64 (maxInt 0 (stages - 1) * interStageLatencyMS) in
  let pipelinePenalty := maxInt 15 (i64 ((stages - 1) * 18)) in
  let perToken := i64 (basePerToken + networkPenalty + Z.quot (i64 (basePerToken * pipelinePenalty)) 100) in
  mkDistributedLatencyModel (i64 (perToken * 3 + networkPenalty)) perToken "low"
    "single prompt stream over pipeline-parallel workers with one activation hop per stage"
    pipelinePenalty.

(** ** The plan *)

Definition empty_plan (model : Model) : DistributedModelPlan :=
  mkDistributedModelPlan (model_ID model) "pipeline_layers" (model_Runtime model) false false
    (estimatedModelLayers model) (model_MemoryBytes model) (model_DiskBytes model) 0 0
    distributedStageOverheadBytes [] (mkDistributedNetworkPlan 0 80)
    (mkDistributedLatencyModel 0 0 "low"
       "planning estimate before the distributed tensor runtime adapter exists" 0)
    (mkDistributedRuntimeDiag 0 0 0 0 0 []) [] []
    ["manager-relayed activation frame transport";
     "runtime adapter with prepare, prefill, decode, and complete hooks";
     "llama.cpp layer-stage feasibility prototype";
     "logical-to-physical model shard materialization";
     "streaming partial-token protocol with cancellation"]%string.

Definition plan_blockers (model : Model) (candidates : nat) (memory disk : Z) : list string :=
  (if (candidates <? 2)%nat then ["distributed layer split needs at least 2 online workers"%string] else []) ++
  (if memory <? model_MemoryBytes model then [short_by "aggregate RAM" (model_MemoryBytes model) memory] else []) ++
  (if disk <? model_DiskBytes model then [short_by "aggregate disk" (model_DiskBytes model) disk] else []).

Definition plan_warnings (stages : list DistributedPlanStage) : list string :=
  (if allStagesRuntimeReady stages then []
   else ["one or more selected workers do not report a ready runtime"%string]) ++
  (if allStagesStageRuntimeReady stages then []
   else ["one or more selected workers do not report distributed stage runtime capability"%string]) ++
  (if allStagesInstalled stages then []
   else ["model shards are not installed on all selected workers"%string]).

Definition distributedModelPlan (model : Model) (nodes : list Node) : DistributedModelPlan :=
  let plan := empty_plan model in
  let candidates := distributedCandidates model nodes in
  let memory := foldl (λ m c, u64 (m + node_memory c)) 0 candidates in
  let disk := foldl (λ d c, u64 (d + effectiveNodeStorage c)) 0 candidates in
  let plan := plan <| dmp_StageRuntimeDiagnostics := distributedRuntimeDiagnostics model candidates |>
                   <| dmp_AggregateMemoryBytes := memory |> <| dmp_AggregateDiskBytes := disk |> in
  match candidates with
  | [] => plan <| dmp_Blockers := ["no online workers are reporting resources"%string] |>
  | _ =>
  match plan_blockers model (length candidates) memory disk with
  | _ :: _ => plan <| dmp_Blockers := plan_blockers model (length candidates) memory disk |>
  | [] =>
      let selected := selectDistributedWorkers model candidates in
      if (length selected <? 2)%nat
      then plan <| dmp_Blockers := ["no multi-worker stage set can hold the model"%string] |>
      else
        let stages := buildDistributedStages model selected (dmp_TotalLayers plan) in
        let count := Z.of_nat (length stages) in
        plan <| dmp_Stages := stages |> <| dmp_Feasible := 2 <=? count |>
             <| dmp_Network := (dmp_Network plan) <| dnp_InterStageHops := maxInt 0 (count - 1) |> |>
             <| dmp_EstimatedLatency := estimateDistributedLatency model count
                                          (dnp_AssumedInterStageLatencyMS (dmp_Network plan)) |>
             <| dmp_Warnings := plan_warnings stages |>
             <| dmp_Blockers := ["distributed tensor runtime adapter is not implemented yet"%string] |>
             <| dmp_ExecutableNow := false |>
  end
  end.
End plan.

(** ** CDIP messages of a plan *)

Definition plan_stage_of (stage : DistributedPlanStage) : Stage :=
  mkStage (dps_Index stage) (dps_NodeID stage) (dps_NodeName stage) (dps_LayerStart stage) (dps_LayerEnd stage).

Definition cdipPlanProposal (plan : DistributedModelPlan) : PlanProposal :=
  mkPlanProposal (NewEnvelope MessagePlanProposal) (dmp_ModelID plan) (dmp_Mode plan) (dmp_Runtime plan)
    (dmp_ExecutableNow plan) (plan_stage_of <$> dmp_Stages plan) (dmp_Blockers plan).

Definition plan_shard (model : Model) (plan : DistributedModelPlan) (stage : DistributedPlanStage) : ModelShard :=
  mkModelShard (plan_stage_of stage) (dmp_Runtime plan) (dps_MemoryBytes stage) (dps_DiskBytes stage)
    (model_URL model)
    (model_ID model +:+ ".stage-" +:+ Itoa (dps_Index stage) +:+ ".layers-" +:+ Itoa (dps_LayerStart stage)
       +:+ "-" +:+ Itoa (dps_LayerEnd stage))
    ShardLogicalLayers
    ["pipeline-stage-prepare"; "pipeline-prefill"; "pipeline-decode"; "activation-stream-v1"]%string.

Definition cdipShardManifest (model : Model) (plan : DistributedModelPlan) : ShardManifest :=
  mkShardManifest (NewEnvelope MessageShardManifest)
    (mkModelArtifact (model_ID model) (model_Runtime model) (model_Repo model) (model_File model) (model_URL model)
       (model_Quant model) (model_Parameters model) "" (model_DiskBytes model))
    (dmp_Mode plan) (dmp_TotalLayers plan) ShardLogicalLayers (plan_shard model plan <$> dmp_Stages plan)
    ["logical layer split only; physical GGUF shard materialization is not implemented yet"%string].

(** ** Stage jobs *)

Inductive stage_request_error :=
  | ParentIDRequired
  | StageModelRequired
  | TooFewStages
  | OneShardPerStage
  | StageNodeRequired (index : nat)
  | StageIndexAt (got : Z) (index : nat)
  | ShardMismatch (index : nat) (stage : Z).

Definition shard_matches (stage : DistributedStageInput) (shard : ModelShard) : bool :=
  bool_decide (stage_Index (shard_Stage shard) = dsi_Index stage)
  && bool_decide (stage_NodeID (shard_Stage shard) = dsi_NodeID stage)
  && bool_decide (stage_LayerStart (shard_Stage shard) = dsi_LayerStart stage)
  && bool_decide (stage_LayerEnd (shard_Stage shard) = dsi_LayerEnd stage).

Section stage_jobs.
Context `{!Json DistributedStageJobInput}.

Definition neighbour (stages : list DistributedStageInput) (index : nat) : string :=
  match stages !! index with Some s => dsi_NodeID s | None => "" end.

Definition stage_job_input (parent : Job) (input : DistributedGenerateInput) (index : nat)
    (stage : DistributedStageInput) (shard : ModelShard) : DistributedStageJobInput :=
  mkDistributedStageJobInput (job_ID parent) (dgi_ModelID input) (dgi_ConversationID input) stage shard
    (if (0 <? index)%nat then neighbour (dgi_Stages input) (index - 1) else "")
    (if (S index <? length (dgi_Stages input))%nat then neighbour (dgi_Stages input) (S index) else "")
    (dgi_Prompt input) (dgi_Messages input) (dgi_SystemPrompt input) (dgi_MaxTokens input)
    (dgi_Temperature input).

Fixpoint stage_requests_loop (parent : Job) (input : DistributedGenerateInput) (index : nat)
    (stages : list DistributedStageInput) (shards : list ModelShard)
    : result stage_request_error (list CreateRequest) :=
  match stages, shards with
  | stage :: stages, shard :: shards =>
      check (first_error [
        (blank (dsi_NodeID stage), StageNodeRequired index);
        (negb (dsi_Index stage =? Z.of_nat index), StageIndexAt (dsi_Index stage) index);
        (negb (shard_matches stage shard), ShardMismatch index (dsi_Index stage))])
      (let request :=
         mkCreateRequest JobGenerateStage (Marshal (stage_job_input parent input index stage shard))
           ("distributed-coordinator:" +:+ job_ID parent) (dsi_NodeID stage)
           (mkRequirements 1 0 0 false 0) 1 true StagePlanned (job_ID parent) (dsi_Index stage) in
       out ← stage_requests_loop parent input (S index) stages shards; Ok (request :: out))
  | _, _ => Ok []
  end.

Definition distributedStageJobRequests (parent : Job) (input : DistributedGenerateInput)
    : result stage_request_error (list CreateRequest) :=
  check (first_error [
    (str_eqb (job_ID parent) "", ParentIDRequired);
    (blank (dgi_ModelID input), StageModelRequired);
    ((length (dgi_Stages input) <? 2)%nat, TooFewStages);
    (negb (length (dgi_Shards input) =? length (dgi_Stages input))%nat, OneShardPerStage)])
  (stage_requests_loop parent input 0 (dgi_Stages input) (dgi_Shards input)).
End stage_jobs.

(** ** The division of the layers *)

Lemma plan_stage_view `{World} m total next layers i node :
  plan_stage_of (plan_stage m total next layers i node) =
    mkStage (Z.of_nat i) (node_ID node) (nodeDisplayName node) next (next + layers - 1) ∧
  dps_Layers (plan_stage m total next layers i node) = layers.
Proof. unfold plan_stage. destruct (nodeRuntimeStatus _ _). by destruct (nodeDistributedStageRuntime _ _) as [[? ?] ?]. Qed.

Lemma estimatedModelLayers_range `{UpperCase} `{FloatSyntax} m : 24 ≤ estimatedModelLayers m ≤ 64.
Proof. unfold estimatedModelLayers. repeat case_match; lia. Qed.

Section layers.
Context `{World}.

(** Every share is at least one layer and leaves one for each later node. *)
Lemma stage_layers_bounds total weight next i count w :
  (i < count)%nat → next + Z.of_nat (count - i) ≤ total →
  let layers := stage_layers total weight next i count w in
  1 ≤ layers ∧ next + layers + Z.of_nat (count - i - 1) ≤ total ∧
  ((i = count - 1)%nat → next + layers = total).
Proof.
  intros Hi Hnext. unfold stage_layers. destruct (Nat.eqb_spec i (count - 1)) as [->|Hne]; [lia|].
  destruct (0 <? weight); [|lia].
  set (maxAllowed := total - next - _).
  set (layers := if _ <? 1 then 1 else _).
  assert (1 ≤ layers) by (unfold layers; case_match; [lia|by apply Z.ltb_ge]).
  destruct (Z.ltb_spec maxAllowed layers); subst maxAllowed; lia.
Qed.

Lemma build_stages_loop_covers m total weight nodes : ∀ next i count,
  count = (i + length nodes)%nat → nodes ≠ [] → next + Z.of_nat (length nodes) ≤ total →
  covers next total (plan_stage_of <$> build_stages_loop m total weight next i count nodes).
Proof.
  induction nodes as [|node nodes IH]; [done|]. intros next i count Hc _ Hnext.
  cbn [build_stages_loop fmap list_fmap]. simpl in Hc, Hnext.
  destruct (stage_layers_bounds total weight next i count (usable_memory node)) as (Hpos & Hrest & Hlast); [lia..|].
  set (layers := stage_layers _ _ _ _ _ _) in *.
  destruct (plan_stage_view m total next layers i node) as [Hv _].
  constructor; rewrite Hv; simpl; [done|lia|].
  replace (next + layers - 1 + 1) with (next + layers) by lia.
  destruct nodes as [|node' nodes].
  - simpl in *. rewrite Hlast by lia. constructor.
  - apply IH; [simpl in *; lia|done|simpl in *; lia].
Qed.

Lemma build_stages_loop_lookup m total weight nodes : ∀ next i count k s,
  build_stages_loop m total weight next i count nodes !! k = Some s →
  ∃ node, nodes !! k = Some node ∧ dps_Index s = Z.of_nat (i + k) ∧ dps_NodeID s = node_ID node ∧
    ∃ next' layers, s = plan_stage m total next' layers (i + k) node.
Proof.
  induction nodes as [|node nodes IH]; [done|]. intros next i count k s Hk.
  cbn [build_stages_loop] in Hk. destruct k as [|k].
  - injection Hk as <-. exists node. split; [done|]. rewrite Nat.add_0_r.
    set (layers := stage_layers _ _ _ _ _ _).
    destruct (plan_stage_view m total next layers i node) as [Hv _]. injection Hv as ? ? ? ? ?.
    split_and!; try done. by exists next, layers.
  - apply IH in Hk. by rewrite Nat.add_succ_r.
Qed.
Lemma build_stages_loop_length m total weight nodes : ∀ next i count,
  length (build_stages_loop m total weight next i count nodes) = length nodes.
Proof. induction nodes; intros; simpl; auto. Qed.

(** C25 (functional). The layers of a model are divided among the workers
    chosen for it: as long as there are no more workers than layers, the
    stages, in order, tile the layers 0 .. total-1 without gap or overlap, each
    has at least one layer, and stage [i] belongs to worker [i]; this holds
    whatever the rounding of the shares gives. *)
Theorem stages_partition_layers (m : Model) (nodes : list Node) (totalLayers : Z) :
  nodes ≠ [] → Z.of_nat (length nodes) ≤ totalLayers →
  let stages := buildDistributedStages m nodes totalLayers in
  covers 0 totalLayers (plan_stage_of <$> stages) ∧ length stages = length nodes ∧
  (∀ k s, stages !! k = Some s → dps_Index s = Z.of_nat k ∧ node_ID <$> nodes !! k = Some (dps_NodeID s)).
Proof.
  intros Hne Hlen. unfold buildDistributedStages. destruct nodes as [|node nodes]; [done|].
  destruct (Z.leb_spec totalLayers 0); [simpl in Hlen; lia|]. cbv zeta.
  split_and!; [by apply build_stages_loop_covers|apply build_stages_loop_length|].
  intros k s Hk. apply build_stages_loop_lookup in Hk as (node' & Hn & Hi & Hid & _).
  rewrite Hn, Hi, Hid. by split.
Qed.
End layers.

(** ** The choice of the workers *)

(** Two or more workers whose usable memory and storage can hold the model. *)
Definition enough (m : Model) (l : list Node) : Prop :=
  (2 ≤ length l)%nat ∧ model_MemoryBytes m ≤ u64 (sumZ (usable_memory <$> l)) ∧
  model_DiskBytes m ≤ u64 (sumZ (effectiveNodeStorage <$> l)).

Lemma select_workers_loop_spec m cs : ∀ sel,
  (∃ k, (0 < k ≤ length cs)%nat ∧ enough m (sel ++ take k cs) ∧
        (∀ j, (0 < j < k)%nat → ¬ enough m (sel ++ take j cs)) ∧
        select_workers_loop m sel (u64 (sumZ (usable_memory <$> sel))) (u64 (sumZ (effectiveNodeStorage <$> sel))) cs
        = sel ++ take k cs) ∨
  ((∀ k, (0 < k ≤ length cs)%nat → ¬ enough m (sel ++ take k cs)) ∧
   select_workers_loop m sel (u64 (sumZ (usable_memory <$> sel))) (u64 (sumZ (effectiveNodeStorage <$> sel))) cs = []).
Proof.
  induction cs as [|c cs IH]; intros sel; cbn [select_workers_loop].
  { right. split; [simpl; lia|done]. }
  assert (∀ f : Node → Z, u64 (u64 (sumZ (f <$> sel)) + f c) = u64 (sumZ (f <$> sel ++ [c]))) as Hsum.
  { intros f. rewrite u64_add_l, fmap_app, sumZ_app. simpl. by rewrite Z.add_0_r. }
  rewrite !Hsum.
  assert (sel ++ [c] = sel ++ take 1 (c :: cs)) as H1 by done.
  assert (∀ k, sel ++ take (S k) (c :: cs) = (sel ++ [c]) ++ take k cs) as HS
    by (intros k; by rewrite <- app_assoc).
  destruct (_ && _ && _) eqn:E.
  - left. exists 1%nat. apply andb_prop in E as [[E1%Nat.leb_le E2%Z.leb_le]%andb_prop E3%Z.leb_le].
    split_and!; simpl; try lia; try done.
  - assert (¬ enough m (sel ++ [c])) as Hno.
    { intros (H2 & H3 & H4). apply andb_false_iff in E as [[E%Nat.leb_gt|E%Z.leb_gt]%andb_false_iff|E%Z.leb_gt]; lia. }
    destruct (IH (sel ++ [c])) as [(k & Hk & Hen & Hmin & ->)|[Hnone ->]].
    + left. exists (S k). rewrite HS. split_and!; [simpl; lia..|done| |done].
      intros [|[|j]] Hj; [lia|done|]. rewrite HS. apply Hmin. lia.
    + right. split; [|done]. intros [|[|k]] Hk; [lia|done|]. rewrite HS. apply Hnone. simpl in Hk; lia.
Qed.

(** (functional). The workers of a plan are the shortest initial segment of
    the candidates that has at least two workers and enough memory, after each
    worker's runtime overhead, and storage; no worker is chosen exactly when no
    initial segment suffices. *)
Theorem selection_is_shortest_prefix (m : Model) (candidates : list Node) :
  let selected := selectDistributedWorkers m candidates in
  (selected = [] ∧ ∀ k, ¬ enough m (take k candidates)) ∨
  (∃ k, selected = take k candidates ∧ enough m selected ∧ ∀ j, (j < k)%nat → ¬ enough m (take j candidates)).
Proof.
  cbv zeta. assert (¬ enough m []) as Hnil by (intros [? _]; simpl in *; lia).
  destruct (select_workers_loop_spec m candidates []) as [(k & Hk & Hen & Hmin & Hsel)|[Hnone Hsel]];
    (match type of Hsel with _ = ?r => change (selectDistributedWorkers m candidates = r) in Hsel end); rewrite Hsel.
  - right. exists k. split_and!; [done|done|]. intros [|j] Hj; [done|]. apply (Hmin (S j)). lia.
  - left. split; [done|]. intros k. destruct (decide (0 < k)%nat); [|by replace k with O by lia].
    destruct (decide (k ≤ length candidates)%nat); [apply (Hnone k); lia|].
    rewrite take_ge by lia. destruct candidates as [|c cs]; [done|].
    specialize (Hnone (length (c :: cs))). rewrite take_ge in Hnone by done. apply Hnone. simpl; lia.
Qed.

(** ** The plan *)

Lemma selected_cases m cs :
  selectDistributedWorkers m cs = [] ∧ (∀ k, ¬ enough m (take k cs)) ∨
  ∃ k, selectDistributedWorkers m cs = take k cs ∧ enough m (take k cs).
Proof.
  destruct (select_workers_loop_spec m cs []) as [(k & Hk & Hen & _ & Hsel)|[Hnone Hsel]].
  - right. exists k. by split.
  - left. split; [done|]. intros k [Hlen Hen].
    destruct (decide (k ≤ length cs)%nat) as [Hk|Hk].
    + apply (Hnone k); [|by split]. rewrite length_take in Hlen. lia.
    + rewrite take_ge in Hlen, Hen by lia. apply (Hnone (length cs)); [lia|]. simpl. rewrite take_ge by done. by split.
Qed.

Section plans.
Context `{World} `{UpperCase} `{FloatSyntax}.

Definition aggregate (f : Node → Z) (l : list Node) : Z := u64 (sumZ (f <$> l)).
(** The plan of a model that can be divided. *)
Definition divided (m : Model) (nodes : list Node) : Prop :=
  let cs := distributedCandidates m nodes in
  model_MemoryBytes m ≤ aggregate node_memory cs ∧ model_DiskBytes m ≤ aggregate effectiveNodeStorage cs ∧
  ∃ k, enough m (take k cs).

Lemma candidates_elem m nodes n :
  n ∈ distributedCandidates m nodes ↔ n ∈ nodes ∧ is_candidate n = true.
Proof. unfold distributedCandidates. rewrite elem_of_sort_slice, list_elem_of_filter. tauto. Qed.

Lemma selected_candidates m nodes n :
  n ∈ selectDistributedWorkers m (distributedCandidates m nodes) → n ∈ nodes ∧ is_candidate n = true.
Proof.
  rewrite <- (candidates_elem m). destruct (selected_cases m (distributedCandidates m nodes)) as [[-> _]|(k & -> & _)].
  - by intros ?%elem_of_nil.
  - intros Hn. rewrite <- (take_drop k (distributedCandidates m nodes)). apply elem_of_app. by left.
Qed.

Lemma plan_blockers_nil m n mem disk :
  plan_blockers m n mem disk = [] ↔ (2 ≤ n)%nat ∧ model_MemoryBytes m ≤ mem ∧ model_DiskBytes m ≤ disk.
Proof.
  unfold plan_blockers. rewrite !guard_nil by done.
  rewrite <- (app_nil_r (if disk <? _ then _ else _)), guard_nil by done.
  rewrite Nat.ltb_ge, !Z.ltb_ge. tauto.
Qed.

Lemma distributedModelPlan_cases m nodes :
  let plan := distributedModelPlan m nodes in
  let selected := selectDistributedWorkers m (distributedCandidates m nodes) in
  dmp_ModelID plan = model_ID m ∧ dmp_Mode plan = "pipeline_layers" ∧ dmp_Runtime plan = model_Runtime m ∧
  dmp_TotalLayers plan = estimatedModelLayers m ∧
  dmp_ExecutableNow plan = false ∧ dmp_Blockers plan ≠ [] ∧
  (divided m nodes ∧ dmp_Feasible plan = true ∧ (2 ≤ length selected)%nat ∧
     dmp_Stages plan = buildDistributedStages m selected (estimatedModelLayers m) ∧
     dnp_InterStageHops (dmp_Network plan) = Z.of_nat (length selected) - 1
   ∨ ¬ divided m nodes ∧ dmp_Feasible plan = false ∧ dmp_Stages plan = []).
Proof.
  cbv zeta. unfold distributedModelPlan. cbv zeta.
  rewrite (foldl_u64_sum node_memory _ 0), (foldl_u64_sum effectiveNodeStorage _ 0), !Z.add_0_l.
  fold (aggregate node_memory (distributedCandidates m nodes)).
  fold (aggregate effectiveNodeStorage (distributedCandidates m nodes)).
  unfold divided. cbv zeta. destruct (distributedCandidates m nodes) as [|c cs] eqn:Ecs.
  { simpl. split_and!; try done. right. split_and!; try done. intros (_ & _ & k & Hen).
    destruct Hen as [Hen _]. rewrite take_nil in Hen. simpl in Hen. lia. }
  rewrite <- Ecs. clear c cs Ecs. set (cs := distributedCandidates m nodes).
  destruct (plan_blockers _ _ _ _) as [|b bs] eqn:Eb.
  2:{ simpl. split_and!; try done. right. split_and!; try done. intros (Hm & Hd & k & Hen & _).
      assert (b :: bs = []); [|done]. rewrite <- Eb. apply plan_blockers_nil.
      rewrite length_take in Hen. split; [lia|done]. }
  apply plan_blockers_nil in Eb as (Hlen & Hm & Hd).
  destruct (selected_cases m cs) as [[Hsel Hno]|(k & Hsel & Hen)]; rewrite Hsel.
  { simpl. split_and!; try done. right. split_and!; try done. intros (_ & _ & k & Hen). by apply (Hno k). }
  destruct (Nat.ltb_spec (length (take k cs)) 2) as [Hlt|Hge]; [by destruct Hen; lia|].
  simpl. split_and!; try done. left.
  assert (length (buildDistributedStages m (take k cs) (estimatedModelLayers m)) = length (take k cs)) as ->
    by apply build_stages_loop_length.
  split_and!; try done; [by exists k|by apply Z.leb_le; lia|].
  unfold maxInt. destruct (Z.ltb_spec (Z.of_nat (length (take k cs)) - 1) 0); lia.
Qed.

(** (functional). A distributed plan is feasible exactly when the candidate
    workers together have the memory and storage of the model and some initial
    segment of at least two has them after overheads; then there is one stage
    per selected worker, each an online worker with usable memory and storage,
    and one hop fewer; otherwise there is no stage.  No plan is executable, and
    every plan says why. *)
Theorem distributed_plan_outcome (m : Model) (nodes : list Node) :
  let plan := distributedModelPlan m nodes in
  dmp_ExecutableNow plan = false ∧ dmp_Blockers plan ≠ [] ∧
  (dmp_Feasible plan = true ↔ divided m nodes) ∧
  if dmp_Feasible plan then
    (2 ≤ length (dmp_Stages plan))%nat ∧
    dnp_InterStageHops (dmp_Network plan) = Z.of_nat (length (dmp_Stages plan)) - 1 ∧
    Forall (λ s, ∃ node, node ∈ nodes ∧ is_candidate node = true ∧ dps_NodeID s = node_ID node) (dmp_Stages plan)
  else dmp_Stages plan = [].
Proof.
  destruct (distributedModelPlan_cases m nodes) as (_ & _ & _ & _ & Hx & Hb & Hcase). cbv zeta.
  split_and!; [done|done| |]; destruct Hcase as [(Hd & Hf & Hlen & Hs & Hh)|(Hd & Hf & Hs)]; rewrite Hf.
  - tauto.
  - split; [done|tauto].
  - rewrite Hs, Hh.
    assert (∀ l t, length (buildDistributedStages m l t) = length l) as Hl by (intros; apply build_stages_loop_length).
    rewrite Hl. split_and!; [done|done|]. apply Forall_lookup. intros k s Hk.
    apply build_stages_loop_lookup in Hk as (node & Hn & _ & Hid & _). exists node.
    apply list_elem_of_lookup_2 in Hn. apply selected_candidates in Hn as []. done.
  - done.
Qed.

(** C26 (functional). The two CDIP messages made of a feasible plan are valid:
    the proposal and the shard manifest pass their protocol checks and carry
    the same stages, provided the model, its runtime and the workers have
    identifiers and there are no more stages than layers. *)
Theorem plan_messages_valid (m : Model) (nodes : list Node) :
  let plan := distributedModelPlan m nodes in
  blank (model_ID m) = false → blank (model_Runtime m) = false →
  Forall (λ n, blank (node_ID n) = false) nodes →
  dmp_Feasible plan = true → Z.of_nat (length (dmp_Stages plan)) ≤ dmp_TotalLayers plan →
  PlanProposal_Validate (cdipPlanProposal plan) = None ∧
  ShardManifest_Validate (cdipShardManifest m plan) = None ∧
  (shard_Stage <$> man_Shards (cdipShardManifest m plan)) = plan_Stages (cdipPlanProposal plan).
Proof.
  intros plan Hm Hr Hids Hf Hlen.
  destruct (distributedModelPlan_cases m nodes) as (Eid & Emode & Ert & Etot & _ & _ & Hcase).
  fold plan in Eid, Emode, Ert, Etot, Hcase.
  destruct Hcase as [(_ & _ & Hlen2 & Hs & _)|(_ & Hf' & _)]; [|congruence].
  pose proof (estimatedModelLayers_range m) as Htot.
  set (selected := selectDistributedWorkers m (distributedCandidates m nodes)) in *.
  assert (length (dmp_Stages plan) = length selected) as Hl by (rewrite Hs; apply build_stages_loop_length).
  assert (selected ≠ []) as Hne by (by destruct selected; simpl in Hlen2; [lia|]).
  assert (covers 0 (dmp_TotalLayers plan) (plan_stage_of <$> dmp_Stages plan)) as Hcov.
  { rewrite Hs, Etot. unfold buildDistributedStages.
    destruct (Z.leb_spec (estimatedModelLayers m) 0); [lia|].
    apply build_stages_loop_covers; [done|done|lia]. }
  assert (numbered (plan_stage_of <$> dmp_Stages plan)) as Hnum.
  { intros k s Hk. rewrite list_lookup_fmap in Hk.
    destruct (dmp_Stages plan !! k) as [ds|] eqn:Eds; [|done]. injection Hk as <-.
    rewrite Hs in Eds. apply build_stages_loop_lookup in Eds as (node & Hn & Hi & Hid & _). simpl.
    rewrite Hi, Hid. split; [done|]. rewrite Forall_forall in Hids. apply Hids.
    apply list_elem_of_lookup_2 in Hn. by apply selected_candidates in Hn as []. }
  assert ((shard_Stage <$> man_Shards (cdipShardManifest m plan)) = plan_stage_of <$> dmp_Stages plan) as Hst.
  { simpl. rewrite <- list_fmap_compose. by apply list_fmap_ext. }
  split_and!; [| |exact Hst].
  - unfold PlanProposal_Validate. rewrite !andthen_None. split_and!.
    + by apply NewEnvelope_valid.
    + simpl. by rewrite Eid, Emode, Hm.
    + by eapply ValidateStageChain_covers; [exact Hcov|exact Hnum|lia|lia].
  - apply ShardManifest_Validate_complete; [simpl; lia|].
    split; try done; rewrite ?Hst; try done; simpl.
    + by rewrite Emode.
    + lia.
    + rewrite Forall_fmap. apply Forall_true. intros s. simpl. by rewrite Ert.
Qed.

(** What [n] workers change in the diagnostics. *)
Definition diag_change (n : Z) (d d' : DistributedRuntimeDiag) : Prop :=
  diag_CandidateWorkers d' = diag_CandidateWorkers d ∧
  diag_StageReadyWorkers d' - diag_LogicalStageWorkers d' - diag_LlamaCPPStageWorkers d'
    = diag_StageReadyWorkers d - diag_LogicalStageWorkers d - diag_LlamaCPPStageWorkers d ∧
  diag_StageReadyWorkers d' + Z.of_nat (length (diag_MissingStageCapability d'))
    = diag_StageReadyWorkers d + Z.of_nat (length (diag_MissingStageCapability d)) + n ∧
  diag_StageReadyWorkers d' - diag_RuntimeReadyWorkers d' ≤ diag_StageReadyWorkers d - diag_RuntimeReadyWorkers d ∧
  diag_RuntimeReadyWorkers d' ≤ diag_RuntimeReadyWorkers d + n ∧
  (Forall (λ x, miss_Reason x ≠ "") (diag_MissingStageCapability d) →
   Forall (λ x, miss_Reason x ≠ "") (diag_MissingStageCapability d')).

Lemma diagnose_change m d node : diag_change 1 d (diagnose m d node).
Proof.
  unfold diagnose, diag_change. destruct (nodeRuntimeStatus node (model_Runtime m)) as [st rdy].
  unfold nodeDistributedStageRuntime.
  destruct rdy; simpl; [destruct (runtimeHasCapability st CapabilityLlamaCPPStageRuntime); simpl;
    [|destruct (runtimeHasCapability st CapabilityLogicalStageRuntime); simpl]|];
    rewrite ?length_app; simpl; split_and!; try lia; try done;
    intros ?; apply Forall_app; (split; [done|]); constructor; try constructor; simpl; by try case_bool_decide.
Qed.
Lemma diagnose_all m l : ∀ d, diag_change (Z.of_nat (length l)) d (foldl (diagnose m) d l).
Proof.
  induction l as [|node l IH]; intros d; cbn [foldl]; [unfold diag_change; split_and!; done || (simpl; lia)|].
  pose proof (diagnose_change m d node) as S. specialize (IH (diagnose m d node)).
  unfold diag_change in *. cbn [length]. split_and!; try lia. tauto.
Qed.

(** (functional). The diagnostics of a plan account for every candidate
    exactly once: a stage-ready worker runs either the logical or the llama.cpp
    stage runtime, and every other one is listed with a reason. *)
Theorem diagnostics_account_for_all (m : Model) (candidates : list Node) :
  let d := distributedRuntimeDiagnostics m candidates in
  diag_CandidateWorkers d = Z.of_nat (length candidates) ∧
  diag_StageReadyWorkers d = diag_LogicalStageWorkers d + diag_LlamaCPPStageWorkers d ∧
  diag_StageReadyWorkers d + Z.of_nat (length (diag_MissingStageCapability d)) = diag_CandidateWorkers d ∧
  diag_StageReadyWorkers d ≤ diag_RuntimeReadyWorkers d ≤ diag_CandidateWorkers d ∧
  Forall (λ x, miss_Reason x ≠ "") (diag_MissingStageCapability d).
Proof.
  unfold distributedRuntimeDiagnostics.
  destruct (diagnose_all m candidates (mkDistributedRuntimeDiag (Z.of_nat (length candidates)) 0 0 0 0 []))
    as (H2 & H3 & H4 & H5 & H6 & H7). simpl in H2, H3, H4, H5, H6. cbv zeta.
  split_and!; try lia. by apply H7.
Qed.
End plans.

(** ** Stage jobs *)

Section stage_job_lemmas.
Context `{!Json DistributedStageJobInput}.

Definition stage_ok (k : nat) (stage : DistributedStageInput) (shard : ModelShard) : Prop :=
  blank (dsi_NodeID stage) = false ∧ dsi_Index stage = Z.of_nat k ∧
  dsi_NodeID stage = stage_NodeID (shard_Stage shard) ∧ dsi_Index stage = stage_Index (shard_Stage shard) ∧
  dsi_LayerStart stage = stage_LayerStart (shard_Stage shard) ∧ dsi_LayerEnd stage = stage_LayerEnd (shard_Stage shard).
(** The inputs that give a stage graph. *)
Definition graph_ok (parent : Job) (input : DistributedGenerateInput) : Prop :=
  job_ID parent ≠ "" ∧ blank (dgi_ModelID input) = false ∧ (2 ≤ length (dgi_Stages input))%nat ∧
  length (dgi_Shards input) = length (dgi_Stages input) ∧
  ∀ k stage shard, dgi_Stages input !! k = Some stage → dgi_Shards input !! k = Some shard → stage_ok k stage shard.

Definition stage_request (parent : Job) (input : DistributedGenerateInput) (k : nat)
    (stage : DistributedStageInput) (shard : ModelShard) : CreateRequest :=
  mkCreateRequest JobGenerateStage (Marshal (stage_job_input parent input k stage shard))
    ("distributed-coordinator:" +:+ job_ID parent) (dsi_NodeID stage)
    (mkRequirements 1 0 0 false 0) 1 true StagePlanned (job_ID parent) (dsi_Index stage).

Lemma stage_guards_None k stage shard :
  first_error [(blank (dsi_NodeID stage), StageNodeRequired k);
    (negb (dsi_Index stage =? Z.of_nat k), StageIndexAt (dsi_Index stage) k);
    (negb (shard_matches stage shard), ShardMismatch k (dsi_Index stage))] = None ↔ stage_ok k stage shard.
Proof.
  rewrite first_error_None, !Forall_cons, Forall_nil. cbn [fst]. unfold shard_matches, stage_ok.
  rewrite !negb_false_iff, Z.eqb_eq, !andb_true_iff, !bool_decide_eq_true. intuition congruence.
Qed.

Lemma stage_requests_loop_spec parent input : ∀ stages shards i,
  length shards = length stages →
  match stage_requests_loop parent input i stages shards with
  | Ok reqs => length reqs = length stages ∧
      ∀ k stage shard, stages !! k = Some stage → shards !! k = Some shard →
        stage_ok (i + k) stage shard ∧ reqs !! k = Some (stage_request parent input (i + k) stage shard)
  | Err _ => ∃ k stage shard, stages !! k = Some stage ∧ shards !! k = Some shard ∧ ¬ stage_ok (i + k) stage shard
  end.
Proof.
  induction stages as [|stage stages IH]; intros [|shard shards] i Hlen; try done.
  simpl in Hlen. injection Hlen as Hlen. cbn [stage_requests_loop].
  pose proof (stage_guards_None i stage shard) as Hg.
  destruct (first_error _) as [e|]; unfold check.
  - exists O, stage, shard. rewrite Nat.add_0_r. split_and!; [done..|]. by intros ?%Hg.
  - specialize (IH shards (S i) Hlen). destruct (stage_requests_loop _ _ _ _ _) as [reqs|e]; simpl.
    + destruct IH as [Hl IH]. split; [by f_equal|]. intros [|k] st sh; simpl.
      * intros [= <-] [= <-]. rewrite Nat.add_0_r. split; [by apply Hg|done].
      * intros Hst Hsh. rewrite Nat.add_succ_r. by apply IH.
    + destruct IH as (k & st & sh & ? & ? & Hno). exists (S k), st, sh. by rewrite Nat.add_succ_r.
Qed.

Lemma distributedStageJobRequests_spec parent input :
  match distributedStageJobRequests parent input with
  | Ok reqs => graph_ok parent input ∧ length reqs = length (dgi_Stages input) ∧
      ∀ k stage shard, dgi_Stages input !! k = Some stage → dgi_Shards input !! k = Some shard →
        reqs !! k = Some (stage_request parent input k stage shard)
  | Err _ => ¬ graph_ok parent input
  end.
Proof.
  unfold distributedStageJobRequests. destruct (first_error _) as [e|] eqn:E; unfold check.
  - intros (H1 & H2 & H3 & H4 & _). simpl in E.
    rewrite bool_decide_eq_false_2, H2, H4, Nat.eqb_refl in E by done. simpl in E.
    apply Nat.ltb_ge in H3. by rewrite H3 in E.
  - apply first_error_None in E. rewrite !Forall_cons in E. cbn [fst] in E.
    rewrite bool_decide_eq_false, negb_false_iff, Nat.ltb_ge, Nat.eqb_eq in E.
    destruct E as (H1 & H2 & H3 & H4 & _).
    pose proof (stage_requests_loop_spec parent input _ _ 0 H4) as Hl.
    destruct (stage_requests_loop _ _ _ _ _) as [reqs|e].
    + destruct Hl as [Hlen Hl]. split_and!; [|done|intros k st sh ? ?; by apply (Hl k st sh)].
      split_and!; [done..|]. intros k st sh ? ?. by apply (Hl k st sh).
    + destruct Hl as (k & st & sh & Hst & Hsh & Hno). intros (_ & _ & _ & _ & Hok). by apply Hno, Hok.
Qed.

(** (functional, error). The stage jobs of a distributed job: a well-formed
    input gives one request per stage, parked for its stage's worker with a
    single attempt, whose input decodes to the stage with its shard; the
    decoded inputs of neighbouring stages name each other's workers, and the
    ends have no neighbour.  Any other input is refused. *)
Theorem stage_job_requests_outcome (parent : Job) (input : DistributedGenerateInput) :
  (∀ k stage shard, json_ok (stage_job_input parent input k stage shard)) →
  match distributedStageJobRequests parent input with
  | Ok reqs => graph_ok parent input ∧ length reqs = length (dgi_Stages input) ∧
      (∀ k r, reqs !! k = Some r →
        cr_Type r = JobGenerateStage ∧ cr_NoAutoAssign r = true ∧ cr_MaxAttempts r = 1 ∧
        cr_CDIPState r = StagePlanned ∧ cr_CDIPParentJobID r = job_ID parent ∧ cr_CDIPStageIndex r = Z.of_nat k ∧
        ∃ d, Unmarshal (cr_Input r) = Some d ∧ sji_ParentJobID d = job_ID parent ∧
          dgi_Stages input !! k = Some (sji_Stage d) ∧ dgi_Shards input !! k = Some (sji_Shard d) ∧
          cr_AssignedTo r = dsi_NodeID (sji_Stage d) ∧
          sji_UpstreamNodeID d = (if (0 <? k)%nat then default "" (cr_AssignedTo <$> reqs !! (k - 1)%nat) else "") ∧
          sji_DownstreamNodeID d = default "" (cr_AssignedTo <$> reqs !! S k))
  | Err _ => ¬ graph_ok parent input
  end.
Proof.
  intros Hjson. pose proof (distributedStageJobRequests_spec parent input) as Hspec.
  destruct (distributedStageJobRequests parent input) as [reqs|e]; [|done].
  destruct Hspec as (Hok & Hlen & Hreq). split_and!; [done|done|].
  destruct Hok as (_ & _ & _ & Hshards & Hstages).
  assert (∀ k, cr_AssignedTo <$> reqs !! k = dsi_NodeID <$> dgi_Stages input !! k) as Hnode.
  { intros k. destruct (dgi_Stages input !! k) as [st|] eqn:Est.
    - destruct (lookup_lt_is_Some_2 (dgi_Shards input) k) as [sh Esh];
        [rewrite Hshards; by eapply lookup_lt_Some|]. by rewrite (Hreq k st sh Est Esh).
    - rewrite lookup_ge_None_2; [done|]. rewrite Hlen. by apply lookup_ge_None. }
  intros k r Hr.
  destruct (lookup_lt_is_Some_2 (dgi_Stages input) k) as [st Est]; [rewrite <- Hlen; by eapply lookup_lt_Some|].
  destruct (lookup_lt_is_Some_2 (dgi_Shards input) k) as [sh Esh]; [rewrite Hshards; by eapply lookup_lt_Some|].
  rewrite (Hreq k st sh Est Esh) in Hr. injection Hr as <-.
  destruct (Hstages k st sh Est Esh) as (_ & Hi & _). split_and!; try done.
  exists (stage_job_input parent input k st sh). split_and!; try done.
  - by apply json_roundtrip.
  - rewrite Hnode. simpl. unfold neighbour. destruct (Nat.ltb_spec 0 k); [|done].
    by destruct (dgi_Stages input !! (k - 1)%nat).
  - rewrite Hnode. simpl. unfold neighbour. destruct (Nat.ltb_spec (S k) (length (dgi_Stages input))).
    + by destruct (dgi_Stages input !! S k).
    + by rewrite lookup_ge_None_2.
Qed.
End stage_job_lemmas.

(** ** Worked examples *)

Section demo.
#[local] Existing Instance ascii_upper_case.
#[local] Existing Instance decimal_syntax.
#[local] Instance plan_world : World := world_at 50.
#[local] Instance stage_json : Json DistributedStageJobInput := codec _.

Definition GB : Z := 1024 * 1024 * 1024.
Definition plan_model (params : string) (mem disk : Z) : Model :=
  mkModel "m" "M" "f" "llama.cpp" "" "" "" params "" 0 disk mem 0 "" "".
Definition plan_worker (id : string) (mem disk : Z) : Node :=
  mkNode id "" NodeRoleWorker NodeStatusOnline ""
    (mkResourceSnapshot (mkCPUResources 8 8) (mkMemoryResources mem mem) []
       (mkStorageResources disk disk disk 0 0 0 0 0 0 0) 1 [] []) 0 0.

Definition two_workers : list Node := [plan_worker "a" (6 * GB) (20 * GB); plan_worker "b" (5 * GB) (20 * GB)].
Definition demo_plan : DistributedModelPlan := distributedModelPlan (plan_model "7B" (9 * GB) (9 * GB)) two_workers.

Example demo_plan_layers :
  (λ s, (dps_NodeID s, dps_LayerStart s, dps_LayerEnd s)) <$> dmp_Stages demo_plan =
  [("a"%string, 0, 17); ("b"%string, 18, 31)].
Proof. vm_compute. reflexivity. Qed.

(** More workers than layers: with the 24 layers of a small model and 25
    workers, all of them needed for storage, the first stage gets no layer and
    an empty range, and the proposal made of the plan is invalid. *)
Definition many_workers : list Node :=
  (λ i, plan_worker ("w" +:+ Itoa (100 + Z.of_nat i)) (2 * GB) GB) <$> seq 0 25.
Example more_workers_than_layers :
  let plan := distributedModelPlan (plan_model "1B" GB (25 * GB)) many_workers in
  dmp_Feasible plan = true ∧ dps_Layers <$> head (dmp_Stages plan) = Some 0 ∧
  PlanProposal_Validate (cdipPlanProposal plan) = Some (ChainRangeInvalid 0).
Proof. vm_compute. done. Qed.

(** The layers are rounded per worker, so a feasible plan may ask a worker for
    more memory than it allows. *)
Example stage_exceeds_allowance :
  let plan := distributedModelPlan (plan_model "1B" (9 * GB) GB) two_workers in
  dmp_Feasible plan = true ∧
  existsb (λ s, dps_AllowedMemoryBytes s <? dps_MemoryBytes s) (dmp_Stages plan) = false ∧
  let plan := distributedModelPlan (plan_model "1B" (10 * GB) GB) two_workers in
  dmp_Feasible plan = true ∧
  existsb (λ s, dps_AllowedMemoryBytes s <? dps_MemoryBytes s) (dmp_Stages plan) = true.
Proof. vm_compute. done. Qed.

(** The layer estimate reads the parameter count [70b] like [70B]; the latency
    estimate trims the suffix before it changes the case, does not recognise it
    and falls back to its default. *)
Example lower_case_parameters :
  estimatedModelLayers (plan_model "70b" 0 0) = estimatedModelLayers (plan_model "70B" 0 0) ∧
  dlm_PerOutputTokenMS (estimateDistributedLatency (plan_model "70b" 0 0) 2 80) = 221 ∧
  dlm_PerOutputTokenMS (estimateDistributedLatency (plan_model "70B" 0 0) 2 80) = 1661.
Proof. vm_compute. done. Qed.

Lemma stages_partition_layers_witness :
  covers 0 32 (plan_stage_of <$> buildDistributedStages (plan_model "7B" GB GB) two_workers 32).
Proof. apply (stages_partition_layers (plan_model "7B" GB GB) two_workers 32); [done|vm_compute; discriminate]. Defined.

Lemma plan_messages_valid_witness :
  PlanProposal_Validate (cdipPlanProposal demo_plan) = None ∧
  length (man_Shards (cdipShardManifest (plan_model "7B" (9 * GB) (9 * GB)) demo_plan)) = 2%nat.
Proof.
  split; [|vm_compute; reflexivity].
  refine (proj1 (plan_messages_valid (plan_model "7B" (9 * GB) (9 * GB)) two_workers _ _ _ _ _)).
  - vm_compute; reflexivity.
  - vm_compute; reflexivity.
  - repeat (apply Forall_cons; split; [vm_compute; reflexivity|]). by apply Forall_nil.
  - vm_compute; reflexivity.
  - vm_compute; discriminate.
Defined.

Definition demo_stage_input (i : Z) (node : string) (a b : Z) : DistributedStageInput :=
  mkDistributedStageInput i node "" a b (b - a + 1).
Definition demo_shard (i : Z) (node : string) (a b : Z) : ModelShard :=
  mkModelShard (mkStage i node "" a b) "llama.cpp" 0 0 "" "" ShardLogicalLayers [].
Definition demo_generate : DistributedGenerateInput :=
  mkDistributedGenerateInput "m" "hello" [] "" "" 16 "" "pipeline_layers"
    [demo_stage_input 0 "a" 0 17; demo_stage_input 1 "b" 18 31] [demo_shard 0 "a" 0 17; demo_shard 1 "b" 18 31].
Definition demo_parent : Job :=
  mkJob "job-1" JobGenerateDistributed StatusRunning "" "" "" (mkRequirements 0 0 0 false 0) "" "" 1 1 ""
    StageNone "" 0 0 0 0 0.

Lemma stage_job_requests_outcome_witness :
  ∃ reqs, distributedStageJobRequests demo_parent demo_generate = Ok reqs ∧ graph_ok demo_parent demo_generate ∧
    length reqs = 2%nat.
Proof.
  pose proof (stage_job_requests_outcome demo_parent demo_generate (λ _ _ _, I)) as Hout.
  assert (match distributedStageJobRequests demo_parent demo_generate with Ok _ => true | Err _ => false end = true)
    as E by (vm_compute; reflexivity).
  destruct (distributedStageJobRequests demo_parent demo_generate) as [reqs|e]; [|discriminate E].
  exists reqs. destruct Hout as (Hok & Hlen & _). split_and!; [done|exact Hok|exact Hlen].
Defined.
End demo.
