(* ===== verification/Views.v ===== *)
(** * The manager's views of jobs and workers

    [internal/manager/server.go], the queries behind the dashboard and the
    handlers: online workers, recent jobs, the history of distributed runs, the
    active generation of a conversation, and cluster benchmark runs, whose jobs
    carry the run in their [RequestedBy]. *)

From S2P Require Import Prelude GoString GoSort GoFloat World Json Cdip Types Protocol Models State.
From S2P Require Import Conversations Scheduling JobStore ModelView DistributedPlan.

(** The anonymous structs decoded from job inputs and results. *)
Record MatrixPayload := mkMatrixPayload { mx_Size : Z; mx_Iterations : Z }.
Record FlopsPayload := mkFlopsPayload { fl_GFLOPS : float64 }.
Record ExecutionPayload := mkExecutionPayload { exp_ExecutionResult : DistributedRPCExecutionResult }.

Class ViewCodecs := {
  v_codecs :: Codecs;
  v_generate_distributed :: Json DistributedGenerateInput;
  v_stage :: Json DistributedStageJobInput;
  v_model :: Json ModelIDPayload;
  v_matrix :: Json MatrixPayload;
  v_flops :: Json FlopsPayload;
  v_execution :: Json ExecutionPayload;
}.

Record DistributedRunSummary := mkRunSummary {
  drs_JobID : string;
  drs_Status : Status;
  drs_ModelID : string;
  drs_PlanID : string;
  drs_Mode : string;
  drs_CoordinatorNodeID : string;
  drs_CoordinatorNodeName : string;
  drs_Protocol : string;
  drs_ProtocolVersion : Z;
  drs_SchemaVersion : Z;
  drs_Runtime : string;
  drs_RuntimeVersion : string;
  drs_WorkerRuntime : string;
  drs_Endpoints : list string;
  drs_EndpointCount : Z;
  drs_DurationMS : Z;
  drs_Output : string;
  drs_Error : string;
  drs_CreatedAt : Time;
  drs_FinishedAt : Time;
}.

(* field setters *)
#[export] Instance set_drs_JobID : Setter drs_JobID := λ f r, mkRunSummary (f (drs_JobID r)) (drs_Status r) (drs_ModelID r) (drs_PlanID r) (drs_Mode r) (drs_CoordinatorNodeID r) (drs_CoordinatorNodeName r) (drs_Protocol r) (drs_ProtocolVersion r) (drs_SchemaVersion r) (drs_Runtime r) (drs_RuntimeVersion r) (drs_WorkerRuntime r) (drs_Endpoints r) (drs_EndpointCount r) (drs_DurationMS r) (drs_Output r) (drs_Error r) (drs_CreatedAt r) (drs_FinishedAt r).
#[export] Instance set_drs_Status : Setter drs_Status := λ f r, mkRunSummary (drs_JobID r) (f (drs_Status r)) (drs_ModelID r) (drs_PlanID r) (drs_Mode r) (drs_CoordinatorNodeID r) (drs_CoordinatorNodeName r) (drs_Protocol r) (drs_ProtocolVersion r) (drs_SchemaVersion r) (drs_Runtime r) (drs_RuntimeVersion r) (drs_WorkerRuntime r) (drs_Endpoints r) (drs_EndpointCount r) (drs_DurationMS r) (drs_Output r) (drs_Error r) (drs_CreatedAt r) (drs_FinishedAt r).
#[export] Instance set_drs_ModelID : Setter drs_ModelID := λ f r, mkRunSummary (drs_JobID r) (drs_Status r) (f (drs_ModelID r)) (drs_PlanID r) (drs_Mode r) (drs_CoordinatorNodeID r) (drs_CoordinatorNodeName r) (drs_Protocol r) (drs_ProtocolVersion r) (drs_SchemaVersion r) (drs_Runtime r) (drs_RuntimeVersion r) (drs_WorkerRuntime r) (drs_Endpoints r) (drs_EndpointCount r) (drs_DurationMS r) (drs_Output r) (drs_Error r) (drs_CreatedAt r) (drs_FinishedAt r).
#[export] Instance set_drs_PlanID : Setter drs_PlanID := λ f r, mkRunSummary (drs_JobID r) (drs_Status r) (drs_ModelID r) (f (drs_PlanID r)) (drs_Mode r) (drs_CoordinatorNodeID r) (drs_CoordinatorNodeName r) (drs_Protocol r) (drs_ProtocolVersion r) (drs_SchemaVersion r) (drs_Runtime r) (drs_RuntimeVersion r) (drs_WorkerRuntime r) (drs_Endpoints r) (drs_EndpointCount r) (drs_DurationMS r) (drs_Output r) (drs_Error r) (drs_CreatedAt r) (drs_FinishedAt r).
#[export] Instance set_drs_Mode : Setter drs_Mode := λ f r, mkRunSummary (drs_JobID r) (drs_Status r) (drs_ModelID r) (drs_PlanID r) (f (drs_Mode r)) (drs_CoordinatorNodeID r) (drs_CoordinatorNodeName r) (drs_Protocol r) (drs_ProtocolVersion r) (drs_SchemaVersion r) (drs_Runtime r) (drs_RuntimeVersion r) (drs_WorkerRuntime r) (drs_Endpoints r) (drs_EndpointCount r) (drs_DurationMS r) (drs_Output r) (drs_Error r) (drs_CreatedAt r) (drs_FinishedAt r).
#[export] Instance set_drs_CoordinatorNodeID : Setter drs_CoordinatorNodeID := λ f r, mkRunSummary (drs_JobID r) (drs_Status r) (drs_ModelID r) (drs_PlanID r) (drs_Mode r) (f (drs_CoordinatorNodeID r)) (drs_CoordinatorNodeName r) (drs_Protocol r) (drs_ProtocolVersion r) (drs_SchemaVersion r) (drs_Runtime r) (drs_RuntimeVersion r) (drs_WorkerRuntime r) (drs_Endpoints r) (drs_EndpointCount r) (drs_DurationMS r) (drs_Output r) (drs_Error r) (drs_CreatedAt r) (drs_FinishedAt r).
#[export] Instance set_drs_CoordinatorNodeName : Setter drs_CoordinatorNodeName := λ f r, mkRunSummary (drs_JobID r) (drs_Status r) (drs_ModelID r) (drs_PlanID r) (drs_Mode r) (drs_CoordinatorNodeID r) (f (drs_CoordinatorNodeName r)) (drs_Protocol r) (drs_ProtocolVersion r) (drs_SchemaVersion r) (drs_Runtime r) (drs_RuntimeVersion r) (drs_WorkerRuntime r) (drs_Endpoints r) (drs_EndpointCount r) (drs_DurationMS r) (drs_Output r) (drs_Error r) (drs_CreatedAt r) (drs_FinishedAt r).
#[export] Instance set_drs_Protocol : Setter drs_Protocol := λ f r, mkRunSummary (drs_JobID r) (drs_Status r) (drs_ModelID r) (drs_PlanID r) (drs_Mode r) (drs_CoordinatorNodeID r) (drs_CoordinatorNodeName r) (f (drs_Protocol r)) (drs_ProtocolVersion r) (drs_SchemaVersion r) (drs_Runtime r) (drs_RuntimeVersion r) (drs_WorkerRuntime r) (drs_Endpoints r) (drs_EndpointCount r) (drs_DurationMS r) (drs_Output r) (drs_Error r) (drs_CreatedAt r) (drs_FinishedAt r).
#[export] Instance set_drs_ProtocolVersion : Setter drs_ProtocolVersion := λ f r, mkRunSummary (drs_JobID r) (drs_Status r) (drs_ModelID r) (drs_PlanID r) (drs_Mode r) (drs_CoordinatorNodeID r) (drs_CoordinatorNodeName r) (drs_Protocol r) (f (drs_ProtocolVersion r)) (drs_SchemaVersion r) (drs_Runtime r) (drs_RuntimeVersion r) (drs_WorkerRuntime r) (drs_Endpoints r) (drs_EndpointCount r) (drs_DurationMS r) (drs_Output r) (drs_Error r) (drs_CreatedAt r) (drs_FinishedAt r).
#[export] Instance set_drs_SchemaVersion : Setter drs_SchemaVersion := λ f r, mkRunSummary (drs_JobID r) (drs_Status r) (drs_ModelID r) (drs_PlanID r) (drs_Mode r) (drs_CoordinatorNodeID r) (drs_CoordinatorNodeName r) (drs_Protocol r) (drs_ProtocolVersion r) (f (drs_SchemaVersion r)) (drs_Runtime r) (drs_RuntimeVersion r) (drs_WorkerRuntime r) (drs_Endpoints r) (drs_EndpointCount r) (drs_DurationMS r) (drs_Output r) (drs_Error r) (drs_CreatedAt r) (drs_FinishedAt r).
#[export] Instance set_drs_Runtime : Setter drs_Runtime := λ f r, mkRunSummary (drs_JobID r) (drs_Status r) (drs_ModelID r) (drs_PlanID r) (drs_Mode r) (drs_CoordinatorNodeID r) (drs_CoordinatorNodeName r) (drs_Protocol r) (drs_ProtocolVersion r) (drs_SchemaVersion r) (f (drs_Runtime r)) (drs_RuntimeVersion r) (drs_WorkerRuntime r) (drs_Endpoints r) (drs_EndpointCount r) (drs_DurationMS r) (drs_Output r) (drs_Error r) (drs_CreatedAt r) (drs_FinishedAt r).
#[export] Instance set_drs_RuntimeVersion : Setter drs_RuntimeVersion := λ f r, mkRunSummary (drs_JobID r) (drs_Status r) (drs_ModelID r) (drs_PlanID r) (drs_Mode r) (drs_CoordinatorNodeID r) (drs_CoordinatorNodeName r) (drs_Protocol r) (drs_ProtocolVersion r) (drs_SchemaVersion r) (drs_Runtime r) (f (drs_RuntimeVersion r)) (drs_WorkerRuntime r) (drs_Endpoints r) (drs_EndpointCount r) (drs_DurationMS r) (drs_Output r) (drs_Error r) (drs_CreatedAt r) (drs_FinishedAt r).
#[export] Instance set_drs_WorkerRuntime : Setter drs_WorkerRuntime := λ f r, mkRunSummary (drs_JobID r) (drs_Status r) (drs_ModelID r) (drs_PlanID r) (drs_Mode r) (drs_CoordinatorNodeID r) (drs_CoordinatorNodeName r) (drs_Protocol r) (drs_ProtocolVersion r) (drs_SchemaVersion r) (drs_Runtime r) (drs_RuntimeVersion r) (f (drs_WorkerRuntime r)) (drs_Endpoints r) (drs_EndpointCount r) (drs_DurationMS r) (drs_Output r) (drs_Error r) (drs_CreatedAt r) (drs_FinishedAt r).
#[export] Instance set_drs_Endpoints : Setter drs_Endpoints := λ f r, mkRunSummary (drs_JobID r) (drs_Status r) (drs_ModelID r) (drs_PlanID r) (drs_Mode r) (drs_CoordinatorNodeID r) (drs_CoordinatorNodeName r) (drs_Protocol r) (drs_ProtocolVersion r) (drs_SchemaVersion r) (drs_Runtime r) (drs_RuntimeVersion r) (drs_WorkerRuntime r) (f (drs_Endpoints r)) (drs_EndpointCount r) (drs_DurationMS r) (drs_Output r) (drs_Error r) (drs_CreatedAt r) (drs_FinishedAt r).
#[export] Instance set_drs_EndpointCount : Setter drs_EndpointCount := λ f r, mkRunSummary (drs_JobID r) (drs_Status r) (drs_ModelID r) (drs_PlanID r) (drs_Mode r) (drs_CoordinatorNodeID r) (drs_CoordinatorNodeName r) (drs_Protocol r) (drs_ProtocolVersion r) (drs_SchemaVersion r) (drs_Runtime r) (drs_RuntimeVersion r) (drs_WorkerRuntime r) (drs_Endpoints r) (f (drs_EndpointCount r)) (drs_DurationMS r) (drs_Output r) (drs_Error r) (drs_CreatedAt r) (drs_FinishedAt r).
#[export] Instance set_drs_DurationMS : Setter drs_DurationMS := λ f r, mkRunSummary (drs_JobID r) (drs_Status r) (drs_ModelID r) (drs_PlanID r) (drs_Mode r) (drs_CoordinatorNodeID r) (drs_CoordinatorNodeName r) (drs_Protocol r) (drs_ProtocolVersion r) (drs_SchemaVersion r) (drs_Runtime r) (drs_RuntimeVersion r) (drs_WorkerRuntime r) (drs_Endpoints r) (drs_EndpointCount r) (f (drs_DurationMS r)) (drs_Output r) (drs_Error r) (drs_CreatedAt r) (drs_FinishedAt r).
#[export] Instance set_drs_Output : Setter drs_Output := λ f r, mkRunSummary (drs_JobID r) (drs_Status r) (drs_ModelID r) (drs_PlanID r) (drs_Mode r) (drs_CoordinatorNodeID r) (drs_CoordinatorNodeName r) (drs_Protocol r) (drs_ProtocolVersion r) (drs_SchemaVersion r) (drs_Runtime r) (drs_RuntimeVersion r) (drs_WorkerRuntime r) (drs_Endpoints r) (drs_EndpointCount r) (drs_DurationMS r) (f (drs_Output r)) (drs_Error r) (drs_CreatedAt r) (drs_FinishedAt r).
#[export] Instance set_drs_Error : Setter drs_Error := λ f r, mkRunSummary (drs_JobID r) (drs_Status r) (drs_ModelID r) (drs_PlanID r) (drs_Mode r) (drs_CoordinatorNodeID r) (drs_CoordinatorNodeName r) (drs_Protocol r) (drs_ProtocolVersion r) (drs_SchemaVersion r) (drs_Runtime r) (drs_RuntimeVersion r) (drs_WorkerRuntime r) (drs_Endpoints r) (drs_EndpointCount r) (drs_DurationMS r) (drs_Output r) (f (drs_Error r)) (drs_CreatedAt r) (drs_FinishedAt r).
#[export] Instance set_drs_CreatedAt : Setter drs_CreatedAt := λ f r, mkRunSummary (drs_JobID r) (drs_Status r) (drs_ModelID r) (drs_PlanID r) (drs_Mode r) (drs_CoordinatorNodeID r) (drs_CoordinatorNodeName r) (drs_Protocol r) (drs_ProtocolVersion r) (drs_SchemaVersion r) (drs_Runtime r) (drs_RuntimeVersion r) (drs_WorkerRuntime r) (drs_Endpoints r) (drs_EndpointCount r) (drs_DurationMS r) (drs_Output r) (drs_Error r) (f (drs_CreatedAt r)) (drs_FinishedAt r).
#[export] Instance set_drs_FinishedAt : Setter drs_FinishedAt := λ f r, mkRunSummary (drs_JobID r) (drs_Status r) (drs_ModelID r) (drs_PlanID r) (drs_Mode r) (drs_CoordinatorNodeID r) (drs_CoordinatorNodeName r) (drs_Protocol r) (drs_ProtocolVersion r) (drs_SchemaVersion r) (drs_Runtime r) (drs_RuntimeVersion r) (drs_WorkerRuntime r) (drs_Endpoints r) (drs_EndpointCount r) (drs_DurationMS r) (drs_Output r) (drs_Error r) (drs_CreatedAt r) (f (drs_FinishedAt r)).

Record ClusterBenchmarkSummary := mkBenchmarkRun {
  cb_ID : string;
  cb_RequestedBy : string;
  cb_Size : Z;
  cb_Iterations : Z;
  cb_Status : string;
  cb_Workers : Z;
  cb_Completed : Z;
  cb_Failed : Z;
  cb_Active : Z;
  cb_TotalGFLOPS : float64;
  cb_Jobs : list Job;
  cb_CreatedAt : Time;
  cb_UpdatedAt : Time;
}.

(* field setters *)
#[export] Instance set_cb_ID : Setter cb_ID := λ f r, mkBenchmarkRun (f (cb_ID r)) (cb_RequestedBy r) (cb_Size r) (cb_Iterations r) (cb_Status r) (cb_Workers r) (cb_Completed r) (cb_Failed r) (cb_Active r) (cb_TotalGFLOPS r) (cb_Jobs r) (cb_CreatedAt r) (cb_UpdatedAt r).
#[export] Instance set_cb_RequestedBy : Setter cb_RequestedBy := λ f r, mkBenchmarkRun (cb_ID r) (f (cb_RequestedBy r)) (cb_Size r) (cb_Iterations r) (cb_Status r) (cb_Workers r) (cb_Completed r) (cb_Failed r) (cb_Active r) (cb_TotalGFLOPS r) (cb_Jobs r) (cb_CreatedAt r) (cb_UpdatedAt r).
#[export] Instance set_cb_Size : Setter cb_Size := λ f r, mkBenchmarkRun (cb_ID r) (cb_RequestedBy r) (f (cb_Size r)) (cb_Iterations r) (cb_Status r) (cb_Workers r) (cb_Completed r) (cb_Failed r) (cb_Active r) (cb_TotalGFLOPS r) (cb_Jobs r) (cb_CreatedAt r) (cb_UpdatedAt r).
#[export] Instance set_cb_Iterations : Setter cb_Iterations := λ f r, mkBenchmarkRun (cb_ID r) (cb_RequestedBy r) (cb_Size r) (f (cb_Iterations r)) (cb_Status r) (cb_Workers r) (cb_Completed r) (cb_Failed r) (cb_Active r) (cb_TotalGFLOPS r) (cb_Jobs r) (cb_CreatedAt r) (cb_UpdatedAt r).
#[export] Instance set_cb_Status : Setter cb_Status := λ f r, mkBenchmarkRun (cb_ID r) (cb_RequestedBy r) (cb_Size r) (cb_Iterations r) (f (cb_Status r)) (cb_Workers r) (cb_Completed r) (cb_Failed r) (cb_Active r) (cb_TotalGFLOPS r) (cb_Jobs r) (cb_CreatedAt r) (cb_UpdatedAt r).
#[export] Instance set_cb_Workers : Setter cb_Workers := λ f r, mkBenchmarkRun (cb_ID r) (cb_RequestedBy r) (cb_Size r) (cb_Iterations r) (cb_Status r) (f (cb_Workers r)) (cb_Completed r) (cb_Failed r) (cb_Active r) (cb_TotalGFLOPS r) (cb_Jobs r) (cb_CreatedAt r) (cb_UpdatedAt r).
#[export] Instance set_cb_Completed : Setter cb_Completed := λ f r, mkBenchmarkRun (cb_ID r) (cb_RequestedBy r) (cb_Size r) (cb_Iterations r) (cb_Status r) (cb_Workers r) (f (cb_Completed r)) (cb_Failed r) (cb_Active r) (cb_TotalGFLOPS r) (cb_Jobs r) (cb_CreatedAt r) (cb_UpdatedAt r).
#[export] Instance set_cb_Failed : Setter cb_Failed := λ f r, mkBenchmarkRun (cb_ID r) (cb_RequestedBy r) (cb_Size r) (cb_Iterations r) (cb_Status r) (cb_Workers r) (cb_Completed r) (f (cb_Failed r)) (cb_Active r) (cb_TotalGFLOPS r) (cb_Jobs r) (cb_CreatedAt r) (cb_UpdatedAt r).
#[export] Instance set_cb_Active : Setter cb_Active := λ f r, mkBenchmarkRun (cb_ID r) (cb_RequestedBy r) (cb_Size r) (cb_Iterations r) (cb_Status r) (cb_Workers r) (cb_Completed r) (cb_Failed r) (f (cb_Active r)) (cb_TotalGFLOPS r) (cb_Jobs r) (cb_CreatedAt r) (cb_UpdatedAt r).
#[export] Instance set_cb_TotalGFLOPS : Setter cb_TotalGFLOPS := λ f r, mkBenchmarkRun (cb_ID r) (cb_RequestedBy r) (cb_Size r) (cb_Iterations r) (cb_Status r) (cb_Workers r) (cb_Completed r) (cb_Failed r) (cb_Active r) (f (cb_TotalGFLOPS r)) (cb_Jobs r) (cb_CreatedAt r) (cb_UpdatedAt r).
#[export] Instance set_cb_Jobs : Setter cb_Jobs := λ f r, mkBenchmarkRun (cb_ID r) (cb_RequestedBy r) (cb_Size r) (cb_Iterations r) (cb_Status r) (cb_Workers r) (cb_Completed r) (cb_Failed r) (cb_Active r) (cb_TotalGFLOPS r) (f (cb_Jobs r)) (cb_CreatedAt r) (cb_UpdatedAt r).
#[export] Instance set_cb_CreatedAt : Setter cb_CreatedAt := λ f r, mkBenchmarkRun (cb_ID r) (cb_RequestedBy r) (cb_Size r) (cb_Iterations r) (cb_Status r) (cb_Workers r) (cb_Completed r) (cb_Failed r) (cb_Active r) (cb_TotalGFLOPS r) (cb_Jobs r) (f (cb_CreatedAt r)) (cb_UpdatedAt r).
#[export] Instance set_cb_UpdatedAt : Setter cb_UpdatedAt := λ f r, mkBenchmarkRun (cb_ID r) (cb_RequestedBy r) (cb_Size r) (cb_Iterations r) (cb_Status r) (cb_Workers r) (cb_Completed r) (cb_Failed r) (cb_Active r) (cb_TotalGFLOPS r) (cb_Jobs r) (cb_CreatedAt r) (f (cb_UpdatedAt r)).

(** [if limit > 0 && len(out) > limit { out = out[:limit] }] *)
Definition limited {A} (limit : Z) (out : list A) : list A :=
  if (0 <? limit) && (limit <? Z.of_nat (length out)) then take (Z.to_nat limit) out else out.

(** [out[i].UpdatedAt.After(out[j].UpdatedAt)] *)
Definition newer {A} (at_time : A → Time) (a b : A) : bool := at_time b <? at_time a.

Definition colon : Ascii.ascii := Ascii.ascii_of_nat 58.
Definition cluster_prefix : string := "cluster-benchmark".

Section views.
Context `{World} `{ViewCodecs}.

(** ** Workers *)

Definition onlineWorkerNodes (nodes : list Node) : list Node :=
sort_slice ["online"] (newer node_UpdatedAt)
  (filter (λ n, node_Role n = NodeRoleWorker ∧ node_Status n = NodeStatusOnline) nodes).

Definition offlineWorkerCount (nodes : list Node) : Z :=
Z.of_nat (length (filter (λ n, node_Role n = NodeRoleWorker ∧ node_Status n ≠ NodeStatusOnline) nodes)).

Definition nodesByID (nodes : list Node) : gmap string Node :=
foldl (λ out n, <[node_ID n := n]> out) ∅ nodes.

(** ** Jobs *)

Definition recentJobs (t : Tag) (l : list Job) (limit : Z) : list Job :=
limited limit (sort_slice t (newer job_UpdatedAt) l).

Definition chat_job (job : Job) : bool :=
(str_eqb (job_Type job) JobGenerate || str_eqb (job_Type job) JobGenerateDistributedRPC) &&
(str_eqb (job_RequestedBy job) "dashboard-chat" || str_eqb (job_RequestedBy job) "dashboard-chat-rpc") &&
negb (negb (bool_decide (job_Status job = StatusSucceeded)) || blank (job_Result job)).
Definition recentChatJobs (l : list Job) (limit : Z) : list Job :=
recentJobs ["chat"] (filter (λ j, chat_job j = true) l) limit.

Definition hasActiveJobs (l : list Job) : bool := existsb is_open l.

Definition activeJobCount (l : list Job) : Z := Z.of_nat (length (filter (λ j, is_open j = true) l)).

Definition schedulerJobs (l : list Job) : list Job :=
sort_slice ["scheduler"] (newer job_UpdatedAt) (filter (λ j, is_open j = true) l).

Definition isModelJob (job : Job) : bool :=
str_eqb (job_Type job) JobInstall || str_eqb (job_Type job) JobDelete || str_eqb (job_Type job) JobGenerate
|| str_eqb (job_Type job) JobGenerateDistributedRPC || str_eqb (job_Type job) JobGenerateDistributed
|| str_eqb (job_Type job) JobGenerateStage || str_eqb (job_Type job) JobRepair
|| str_eqb (job_Type job) JobCleanup.
Definition modelJobCount (l : list Job) : Z := Z.of_nat (length (filter (λ j, isModelJob j = true) l)).

(** The execution result of a finished distributed RPC job. *)
Definition distributedRPCExecutionResult (job : Job) : option DistributedRPCExecutionResult :=
if negb (str_eqb (job_Type job) JobGenerateDistributedRPC) || blank (job_Result job) then None else
match Unmarshal (A := ExecutionPayload) (job_Result job) with
| None => None
| Some payload =>
    if blank (er_Protocol (exp_ExecutionResult payload)) then None
    else Some (exp_ExecutionResult payload)
end.

Definition run_input (job : Job) (summary : DistributedRunSummary) : DistributedRunSummary :=
match Unmarshal (A := DistributedRPCGenerateInput) (job_Input job) with
| None => summary
| Some input =>
    let plan := drg_ExecutionPlan input in
    summary <| drs_ModelID := drg_ModelID input |> <| drs_PlanID := ep_ID plan |>
      <| drs_Mode := ep_Mode plan |> <| drs_CoordinatorNodeID := ep_CoordinatorNodeID plan |>
      <| drs_CoordinatorNodeName := ep_CoordinatorNodeName plan |>
      <| drs_Protocol := ep_Protocol plan |> <| drs_ProtocolVersion := ep_ProtocolVersion plan |>
      <| drs_SchemaVersion := ep_PlanSchemaVersion plan |> <| drs_Endpoints := ep_RPCEndpoints plan |>
      <| drs_EndpointCount := Z.of_nat (length (ep_RPCEndpoints plan)) |>
end.

Definition run_result (job : Job) (summary : DistributedRunSummary) : DistributedRunSummary :=
match distributedRPCExecutionResult job with
| None => summary
| Some res =>
    summary
      <| drs_PlanID := firstNonEmptyString [er_PlanID res; drs_PlanID summary] |>
      <| drs_Protocol := firstNonEmptyString [er_Protocol res; drs_Protocol summary] |>
      <| drs_ProtocolVersion := if er_ProtocolVersion res =? 0 then drs_ProtocolVersion summary
                                else er_ProtocolVersion res |>
      <| drs_SchemaVersion := if er_PlanSchemaVersion res =? 0 then drs_SchemaVersion summary
                              else er_PlanSchemaVersion res |>
      <| drs_Runtime := er_Runtime res |> <| drs_RuntimeVersion := er_RuntimeVersion res |>
      <| drs_WorkerRuntime := er_WorkerRuntime res |> <| drs_Endpoints := er_RPCEndpoints res |>
      <| drs_EndpointCount := if er_RPCEndpointCount res =? 0 then Z.of_nat (length (er_RPCEndpoints res))
                              else er_RPCEndpointCount res |>
      <| drs_DurationMS := er_DurationMS res |> <| drs_Output := er_Output res |>
end.

Definition run_summary (job : Job) : DistributedRunSummary :=
run_result job (run_input job
  (mkRunSummary (job_ID job) (job_Status job) "" "" "" "" "" "" 0 0 "" "" "" [] 0 0 ""
     (firstNonEmptyString [job_Error job; job_LastFailure job]) (job_CreatedAt job) (job_FinishedAt job))).

Definition distributedRunSummaries (l : list Job) (limit : Z) : list DistributedRunSummary :=
limited limit (sort_slice ["runs"] (newer drs_CreatedAt)
  (run_summary <$> filter (λ j, job_Type j = JobGenerateDistributedRPC) l)).

(** ** The generation in progress of a conversation *)

Definition jobConversationID (job : Job) : string :=
if str_eqb (job_Type job) JobGenerate then
  from_option gen_ConversationID ""%string (Unmarshal (A := GenerateInput) (job_Input job))
else if str_eqb (job_Type job) JobGenerateDistributedRPC then
  from_option drg_ConversationID ""%string (Unmarshal (A := DistributedRPCGenerateInput) (job_Input job))
else if str_eqb (job_Type job) JobGenerateDistributed then
  from_option dgi_ConversationID ""%string (Unmarshal (A := DistributedGenerateInput) (job_Input job))
else "".

Definition is_generate (job : Job) : bool :=
str_eqb (job_Type job) JobGenerate || str_eqb (job_Type job) JobGenerateDistributedRPC
|| str_eqb (job_Type job) JobGenerateDistributed.

Fixpoint active_generate_loop (l : list Job) (conversationID : string) : string :=
match l with
| [] => ""
| job :: l =>
    if negb (is_generate job) then active_generate_loop l conversationID
    else if negb (is_open job) then active_generate_loop l conversationID
    else if str_eqb (jobConversationID job) conversationID then job_ID job
    else active_generate_loop l conversationID
end.
Definition activeGenerateJobForConversation (l : list Job) (conversationID : string) : string :=
let conversationID := TrimSpace conversationID in
if str_eqb conversationID "" then "" else active_generate_loop l conversationID.

(** ** Cluster benchmark runs *)

(** strings.ReplaceAll(s, ":", "-") *)
Fixpoint dash_colons (s : string) : string :=
match s with
| "" => ""
| String a s => String (if Ascii.eqb a colon then Ascii.ascii_of_nat 45 else a) (dash_colons s)
end%string.

Definition clusterBenchmarkRequestedBy (runID label : string) : string :=
let label := TrimSpace label in
if str_eqb label "" then cluster_prefix +:+ ":" +:+ runID
else cluster_prefix +:+ ":" +:+ runID +:+ ":" +:+ dash_colons label.

Definition clusterBenchmarkRunID (requestedBy : string) : option string :=
match Split requestedBy colon with
| p :: id :: _ =>
    if negb (str_eqb p cluster_prefix) || str_eqb id "" then None else Some id
| _ => None
end.

Definition computeJobInput (input : string) : Z * Z :=
match Unmarshal (A := MatrixPayload) input with
| None => (0, 0)
| Some payload => (mx_Size payload, mx_Iterations payload)
end.

Definition computeJobGFLOPS (job : Job) : float64 :=
if str_eqb (job_Result job) "" then f_zero else
match Unmarshal (A := FlopsPayload) (job_Result job) with
| None => f_zero
| Some payload => fl_GFLOPS payload
end.

(** One job of a run, with its position. *)
Definition run_job (summary : ClusterBenchmarkSummary) (x : nat * Job) : ClusterBenchmarkSummary :=
let '(i, job) := x in
let summary := if (i =? 0)%nat || (job_CreatedAt job <? cb_CreatedAt summary)
  then summary <| cb_CreatedAt := job_CreatedAt job |> else summary in
let summary := if cb_UpdatedAt summary <? job_UpdatedAt job
  then summary <| cb_UpdatedAt := job_UpdatedAt job |> else summary in
let summary := if (cb_Size summary =? 0) || (cb_Iterations summary =? 0)
  then let '(size, iterations) := computeJobInput (job_Input job) in
       summary <| cb_Size := size |> <| cb_Iterations := iterations |>
  else summary in
match job_Status job with
| StatusSucceeded =>
    summary <| cb_Completed := cb_Completed summary + 1 |>
            <| cb_TotalGFLOPS := f_add (cb_TotalGFLOPS summary) (computeJobGFLOPS job) |>
| StatusFailed | StatusCanceled => summary <| cb_Failed := cb_Failed summary + 1 |>
| StatusQueued | StatusScheduled | StatusRunning => summary <| cb_Active := cb_Active summary + 1 |>
| StatusOther _ => summary
end.

Definition run_status (summary : ClusterBenchmarkSummary) : string :=
if 0 <? cb_Active summary then "running"
else if (0 <? cb_Failed summary) && (0 <? cb_Completed summary) then "partial_failed"
else if 0 <? cb_Failed summary then "failed"
else if (cb_Completed summary =? cb_Workers summary) && (0 <? cb_Workers summary) then "succeeded"
else "queued".

Definition buildClusterBenchmarkSummary (runID requestedBy : string) (l : list Job) : ClusterBenchmarkSummary :=
let summary := mkBenchmarkRun runID requestedBy 0 0 "" (Z.of_nat (length l)) 0 0 0 f_zero
                 (recentJobs ["run"; runID] l 0) 0 0 in
let summary := foldl run_job summary (imap pair l) in
summary <| cb_Status := run_status summary |>.

Definition group_job (grouped : gmap string (list Job)) (job : Job) : gmap string (list Job) :=
match clusterBenchmarkRunID (job_RequestedBy job) with
| None => grouped
| Some runID => <[runID := default [] (grouped !! runID) ++ [job]]> grouped
end.

(** A group is never empty, so [groupedJobs[0]] is defined. *)
Definition clusterBenchmarkSummaries (l : list Job) (limit : Z) : list ClusterBenchmarkSummary :=
let grouped := foldl group_job ∅ l in
let out := (λ '(runID, groupedJobs),
    buildClusterBenchmarkSummary runID (from_option job_RequestedBy ""%string (head groupedJobs)) groupedJobs)
  <$> w_perm ["grouped"] (map_to_list grouped) in
limited limit (sort_slice ["runs"] (newer cb_UpdatedAt) out).

Definition maxClusterBenchmarkGFLOPS (l : list ClusterBenchmarkSummary) : float64 :=
foldl (λ maxValue s, if f_lt maxValue (cb_TotalGFLOPS s) then cb_TotalGFLOPS s else maxValue) f_zero l.

Definition matrixJobRequirements (size : Z) : Requirements :=
if size <=? 0 then mkRequirements 1 0 0 false 0
else let matrixBytes := u64 (size * size * 8) in
     mkRequirements 1 (u64 (matrixBytes * 3)) 0 false 0.

Definition jobWorkload (job : Job) : string :=
let '(modelID, ok) := jobModelID job in
let type := job_Type job in
let rest :=
  if str_eqb type JobCleanup then "cleanup model cache" else
  let '(size, iterations) := computeJobInput (job_Input job) in
  if (0 <? size) && (0 <? iterations)
  then Itoa size +:+ "x" +:+ Itoa size +:+ " x " +:+ Itoa iterations
  else if blank (job_Input job) then "-" else job_Input job in
let prompted (what prompt : string) :=
  if blank prompt then what else what +:+ ": " +:+ prompt in
if ok then
  if str_eqb type JobInstall then "install " +:+ modelID
  else if str_eqb type JobDelete then "delete " +:+ modelID
  else if str_eqb type JobRepair then "repair " +:+ modelID
  else if str_eqb type JobGenerate then
    prompted ("generate " +:+ modelID)
      (from_option gen_Prompt ""%string (Unmarshal (A := GenerateInput) (job_Input job)))
  else if str_eqb type JobGenerateDistributedRPC then
    prompted ("distributed rpc generate " +:+ modelID)
      (from_option drg_Prompt ""%string (Unmarshal (A := DistributedRPCGenerateInput) (job_Input job)))
  else if str_eqb type JobGenerateDistributed then "distributed generate " +:+ modelID
  else if str_eqb type JobGenerateStage then
    match Unmarshal (A := DistributedStageJobInput) (job_Input job) with
    | Some input =>
        "stage " +:+ Itoa (dsi_Index (sji_Stage input)) +:+ " " +:+ modelID +:+ " layers "
          +:+ Itoa (dsi_LayerStart (sji_Stage input)) +:+ "-" +:+ Itoa (dsi_LayerEnd (sji_Stage input))
    | None => "distributed stage " +:+ modelID
    end
  else rest
else rest.

(** ** Distributed jobs, conversations and memories *)

Definition distributedStageInputs (stages : list DistributedPlanStage) : list DistributedStageInput :=
(λ st, mkDistributedStageInput (dps_Index st) (dps_NodeID st) (dps_NodeName st)
         (dps_LayerStart st) (dps_LayerEnd st) (dps_Layers st)) <$> stages.

Definition memoriesForModel (s : State) (modelID : string) : list Memory :=
sort_slice ["memories"] (newer memo_UpdatedAt) (Memories s modelID).
Definition recentMemories (s : State) (limit : Z) : list Memory := limited limit (memoriesForModel s "").

Definition recentConversations (s : State) (limit : Z) : list Conversation :=
limited limit (sort_slice ["conversations"] (newer conv_UpdatedAt) (Conversations s)).

Definition systemPromptWithMemory (systemPrompt modelID : string) (s : State) : string :=
let context := memoryContext modelID (memoriesForModel s modelID) in
if str_eqb context "" then systemPrompt else
let base := TrimSpace systemPrompt in
if str_eqb base "" then context else base +:+ "

" +:+ context.

Definition modelDefaultSystemPrompt (model : Model) : string :=
qp_SystemPrompt (QualityPresetFor model).

Definition workerModelBytes (l : list ModelResource) : Z :=
foldl (λ total m, u64 (total + mr_Bytes m)) 0 l.

Definition conversation_title_of (content : string) : string :=
let title := TrimSpace content in
if (56 <? length (runes title))%nat
then string_of_runes (take 56 (runes title)) +:+ "..." else title.
Fixpoint title_loop (messages : list ChatMessage) : string :=
match messages with
| [] => "New conversation"
| m :: messages =>
    if str_eqb (msg_Role m) "user" && negb (blank (msg_Content m)) then conversation_title_of (msg_Content m)
    else title_loop messages
end.
Definition conversationTitle (conversation : Conversation) : string := title_loop (conv_Messages conversation).
End views.

(** ** Lemmas *)

#[export] Instance newer_swo {A} (at_time : A → Time) : StrictWeakOrder (newer at_time).
Proof. split; unfold newer; intros *; lia. Qed.

Lemma limited_zero {A} (out : list A) : limited 0 out = out.
Proof. done. Qed.
Lemma limited_prefix {A} limit (out : list A) : ∃ rest, out = limited limit out ++ rest.
Proof.
  unfold limited. case_match; [|exists []; by rewrite app_nil_r].
  exists (drop (Z.to_nat limit) out). by rewrite take_drop.
Qed.

(** *** Hexadecimal digits hold no colon *)

Lemma no_colon_digit n : (n < 16)%nat → no_sep colon (hex_digit n).
Proof.
  intros Hn. unfold hex_digit. cbn [no_sep]. split; [|done]. unfold colon. intros H.
  apply (f_equal Ascii.nat_of_ascii) in H.
  destruct (Nat.ltb_spec n 10); rewrite !Ascii.nat_ascii_embedding in H by lia; lia.
Qed.
Lemma no_colon_hex s : no_sep colon (hex_encode s).
Proof.
  induction s as [|a s IH]; cbn [hex_encode]; [done|]. pose proof (Ascii.nat_ascii_bounded a).
  apply no_sep_app; [|apply no_sep_app; [|done]]; apply no_colon_digit.
  - apply Nat.Div0.div_lt_upper_bound. lia.
  - apply Nat.mod_upper_bound. lia.
Qed.

(** (roundtrip). The run of a cluster benchmark job can be read back from the
    [RequestedBy] it was created with, for every label and every non-empty run
    identifier without a colon (the generated ones are such), and reading never
    returns an empty identifier or one with a colon. *)
Theorem benchmark_run_roundtrip (id label requestedBy : string) :
  id ≠ "" → no_sep colon id →
  clusterBenchmarkRunID (clusterBenchmarkRequestedBy id label) = Some id ∧
  (∀ buf, no_sep colon (newID "cb" (Some buf))) ∧
  (∀ id', clusterBenchmarkRunID requestedBy = Some id' → id' ≠ "" ∧ no_sep colon id').
Proof.
  intros Hne Hid. split; [|split].
  - assert ((if negb (str_eqb cluster_prefix cluster_prefix) || str_eqb id "" then None else Some id) = Some id)
      as Hread by by rewrite (bool_decide_eq_true_2 (cluster_prefix = _)), bool_decide_eq_false_2.
    assert (no_sep colon cluster_prefix) as Hp by (vm_compute; by repeat split).
    assert (∀ s, clusterBenchmarkRunID (cluster_prefix +:+ String colon s) =
      match cluster_prefix :: Split s colon with
      | p :: id :: _ => if negb (str_eqb p cluster_prefix) || str_eqb id "" then None else Some id
      | _ => None end) as Hs.
    { intros s. unfold clusterBenchmarkRunID. by rewrite Split_head. }
    unfold clusterBenchmarkRequestedBy. cbv zeta. destruct (str_eqb (TrimSpace label) "").
    + change (":" +:+ id) with (String colon id). rewrite Hs, Split_whole by done. exact Hread.
    + change (":" +:+ id +:+ ":" +:+ dash_colons (TrimSpace label))
        with (String colon (id +:+ String colon (dash_colons (TrimSpace label)))).
      rewrite Hs, Split_head by done. exact Hread.
  - intros buf. unfold newID. do 2 (apply no_sep_app; [by vm_compute; repeat split|]). apply no_colon_hex.
  - intros id'. unfold clusterBenchmarkRunID. pose proof (Split_parts colon requestedBy) as Hs.
    destruct Hs as [|p ? _ [|id'' ? Hid' _]]; [done..|].
    case_bool_decide; simpl; [|done]. case_bool_decide; [done|]. by intros [= <-].
Qed.
Lemma benchmark_run_roundtrip_witness :
  clusterBenchmarkRunID (clusterBenchmarkRequestedBy "r1" "a:b") = Some "r1"%string ∧
  clusterBenchmarkRequestedBy "r1" "a:b" = "cluster-benchmark:r1:a-b"%string.
Proof.
  split; [|by vm_compute].
  apply (benchmark_run_roundtrip "r1" "a:b" ""); [done|by vm_compute; repeat split].
Defined.

(** *** Counting the jobs of a run *)

Definition run_of (id : string) (job : Job) : Prop := clusterBenchmarkRunID (job_RequestedBy job) = Some id.
#[export] Instance run_of_dec id job : Decision (run_of id job) := decide_rel (=) _ _.

Abbreviation has_status sts := (λ job : Job, job_Status job ∈ sts) (only parsing).
Definition count_status (sts : list Status) (l : list Job) : Z := Z.of_nat (length (filter (has_status sts) l)).
Definition succeeded_st := [StatusSucceeded].
Definition failed_st := [StatusFailed; StatusCanceled].
Definition open_st := [StatusQueued; StatusScheduled; StatusRunning].

Lemma count_status_cons sts j l :
  count_status sts (j :: l) = (if bool_decide (job_Status j ∈ sts) then 1 else 0) + count_status sts l.
Proof.
  unfold count_status. rewrite filter_cons.
  case_bool_decide; case_decide; simpl; done || lia.
Qed.
Lemma count_status_nonneg sts l : 0 ≤ count_status sts l.
Proof. unfold count_status. lia. Qed.
Lemma count_status_pos sts l : 0 < count_status sts l ↔ Exists (has_status sts) l.
Proof.
  induction l as [|j l IH]; [by rewrite Exists_nil|]. rewrite count_status_cons, Exists_cons, <- IH.
  pose proof (count_status_nonneg sts l). case_bool_decide; [split; [by left|lia]|].
  split; [right; lia|intros [?|?]; [done|lia]].
Qed.
Lemma count_status_all sts l : count_status sts l = Z.of_nat (length l) ↔ Forall (has_status sts) l.
Proof. unfold count_status. rewrite Nat2Z.inj_iff. apply filter_all. Qed.

Section runs.
Context `{World} `{ViewCodecs}.

Lemma group_job_lookup l (grouped : gmap string (list Job)) id :
foldl group_job grouped l !! id =
  if decide (filter (run_of id) l = []) then grouped !! id
  else Some (default [] (grouped !! id) ++ filter (run_of id) l).
Proof.
revert grouped. induction l as [|j l IH]; intros grouped; cbn [foldl]; [done|].
rewrite IH, filter_cons. unfold group_job. destruct (decide (run_of id j)) as [Hj|Hj].
- rewrite Hj, lookup_insert_eq. rewrite (decide_False (P := j :: _ = [])) by done.
  case_decide as Hf; simpl; [by rewrite Hf|by rewrite <- app_assoc].
- unfold run_of in Hj. destruct (clusterBenchmarkRunID _) as [id'|]; [|done].
  by rewrite lookup_insert_ne by congruence.
Qed.

Lemma run_job_counts (xs : list (nat * Job)) s :
let r := foldl run_job s xs in
cb_ID r = cb_ID s ∧ cb_Workers r = cb_Workers s ∧ cb_Jobs r = cb_Jobs s ∧
cb_Completed r = cb_Completed s + count_status succeeded_st xs.*2 ∧
cb_Failed r = cb_Failed s + count_status failed_st xs.*2 ∧
cb_Active r = cb_Active s + count_status open_st xs.*2.
Proof.
cbv zeta. revert s. induction xs as [|[i j] xs IH]; intros s.
- unfold count_status. simpl. by rewrite !Z.add_0_r.
- change (((i, j) :: xs).*2) with (j :: xs.*2). cbn [foldl]. specialize (IH (run_job s (i, j))). destruct IH as (-> & -> & -> & -> & -> & ->).
  rewrite !count_status_cons. unfold run_job.
  set (s1 := if _ || (job_CreatedAt j <? _) then _ else s).
  set (s2 := if _ <? job_UpdatedAt j then _ else s1).
  set (s3 := if (_ =? 0) || _ then _ else s2).
  assert (cb_ID s3 = cb_ID s ∧ cb_Workers s3 = cb_Workers s ∧ cb_Jobs s3 = cb_Jobs s ∧
    cb_Completed s3 = cb_Completed s ∧ cb_Failed s3 = cb_Failed s ∧ cb_Active s3 = cb_Active s)
    as (H1 & H2 & H3 & H4 & H5 & H6).
  { subst s3 s2 s1. destruct (computeJobInput _). by repeat (case_match; cbn). }
  destruct (job_Status j) eqn:E; cbn;
    rewrite ?H1, ?H2, ?H3, ?H4, ?H5, ?H6;
    repeat (first [rewrite bool_decide_eq_true_2 by (unfold succeeded_st, failed_st, open_st; set_solver)
                  |rewrite bool_decide_eq_false_2 by (unfold succeeded_st, failed_st, open_st; set_solver)]);
    split_and!; done || lia.
Qed.

Lemma imap_pair_snd {A} (l : list A) : (imap pair l).*2 = l.
Proof.
rewrite fmap_imap. apply list_eq. intros i. rewrite list_lookup_imap. by destruct (l !! i).
Qed.

(** What a summary says about the jobs of its run. *)
Record run_accounted (l : list Job) (r : ClusterBenchmarkSummary) : Prop := {
ra_jobs : cb_Jobs r ≡ₚ filter (run_of (cb_ID r)) l;
ra_workers : cb_Workers r = Z.of_nat (length (cb_Jobs r));
ra_completed : cb_Completed r = count_status succeeded_st (cb_Jobs r);
ra_failed : cb_Failed r = count_status failed_st (cb_Jobs r);
ra_active : cb_Active r = count_status open_st (cb_Jobs r);
ra_running : cb_Status r = "running" ↔ Exists (has_status open_st) (cb_Jobs r);
ra_succeeded : cb_Status r = "succeeded" ↔ Forall (has_status succeeded_st) (cb_Jobs r);
}.

#[export] Instance count_status_perm sts : Proper ((≡ₚ) ==> (=)) (count_status sts).
Proof. intros l l' Hl. unfold count_status. by rewrite Hl. Qed.

Lemma disjoint_status (sts sts' : list Status) (j : Job) : sts ## sts' → job_Status j ∈ sts → job_Status j ∉ sts'.
Proof. intros Hd H1 H2. by apply (Hd (job_Status j)). Qed.

Lemma build_run_accounted l id by_ :
filter (run_of id) l ≠ [] →
let r := buildClusterBenchmarkSummary id by_ (filter (run_of id) l) in
cb_ID r = id ∧ run_accounted l r.
Proof.
intros Hne r. subst r. unfold buildClusterBenchmarkSummary. cbv zeta.
set (js := filter (run_of id) l) in *. set (s0 := mkBenchmarkRun _ _ _ _ _ _ _ _ _ _ _ _ _).
destruct (run_job_counts (imap pair js) s0) as (H1 & H2 & H3 & H4 & H5 & H6).
set (s := foldl run_job s0 (imap pair js)) in *. rewrite imap_pair_snd in H4, H5, H6. cbn in H1, H2, H3, H4, H5, H6.
assert (cb_Jobs s ≡ₚ js) as Hj by (rewrite H3; apply sort_slice_perm).
split; [done|]. split; cbn; rewrite ?Hj, ?H1; try done || lia.
all: unfold run_status; rewrite ?H2, ?H4, ?H5, ?H6, ?Z.add_0_l.
- rewrite <- count_status_pos. destruct (Z.ltb_spec 0 (count_status open_st js)); [done|].
  split; [|lia]. by repeat case_match.
- rewrite <- count_status_all.
  destruct (Z.ltb_spec 0 (count_status open_st js)) as [Hp|Hp]; cbn.
  { split; [done|]. rewrite count_status_all. apply count_status_pos in Hp. intros Ha.
    exfalso. apply Exists_exists in Hp as (j & Hj' & Hs). rewrite Forall_forall in Ha.
    by apply (disjoint_status open_st succeeded_st j); [unfold open_st, succeeded_st; set_solver|..|apply Ha]. }
  destruct (Z.ltb_spec 0 (count_status failed_st js)) as [Hf|Hf]; cbn.
  { split; [by case_match|]. rewrite count_status_all. apply count_status_pos in Hf. intros Ha.
    exfalso. apply Exists_exists in Hf as (j & Hj' & Hs). rewrite Forall_forall in Ha.
    by apply (disjoint_status failed_st succeeded_st j); [unfold failed_st, succeeded_st; set_solver|..|apply Ha]. }
  destruct (Z.eqb_spec (count_status succeeded_st js) (Z.of_nat (length js))); cbn; [|done].
  destruct js; [done|]. split; [done|]. by destruct (Z.ltb_spec 0 (Z.of_nat (length (j :: js)))); [|simpl in *; lia].
Qed.

(** (functional). The cluster benchmark runs partition the jobs that were
  requested by a run: one summary per run, newest first, whose counters are
  the numbers of its succeeded, failed or canceled, and active jobs; it is
  [running] exactly when a job is active and [succeeded] exactly when all
  are, whatever order the map of groups is walked in. *)
Theorem cluster_runs_account (l : list Job) :
let runs := clusterBenchmarkSummaries l 0 in
NoDup (cb_ID <$> runs) ∧ StronglySorted (not_after (newer cb_UpdatedAt)) runs ∧
(∀ id, id ∈ cb_ID <$> runs ↔ Exists (run_of id) l) ∧ Forall (run_accounted l) runs.
Proof.
unfold clusterBenchmarkSummaries. cbv zeta. rewrite limited_zero.
set (grouped := foldl group_job ∅ l). set (build := λ '(runID, groupedJobs), _).
assert (∀ id js, grouped !! id = Some js → js = filter (run_of id) l ∧ js ≠ []) as Hg.
{ intros id js. subst grouped. rewrite group_job_lookup, lookup_empty. case_decide; [done|]. by intros [= <-]. }
assert (Forall (λ x, cb_ID (build x) = x.1 ∧ run_accounted l (build x)) (map_to_list grouped)) as Hb.
{ apply Forall_forall. intros [id js] Hin%elem_of_map_to_list. destruct (Hg _ _ Hin) as [-> Hne].
  by apply build_run_accounted. }
assert (cb_ID <$> (build <$> map_to_list grouped) = (map_to_list grouped).*1) as Hids.
{ rewrite <- list_fmap_compose. apply Forall_fmap_ext_1.
  eapply Forall_impl; [exact Hb|]. intros x [Hx _]. exact Hx. }
assert (sort_slice ["runs"] (newer cb_UpdatedAt) (build <$> w_perm ["grouped"] (map_to_list grouped))
  ≡ₚ build <$> map_to_list grouped) as Hp.
{ rewrite sort_slice_perm. by rewrite w_perm_ok. }
split; [|split; [apply sort_slice_sorted, _|split]].
- rewrite Hp, Hids. apply NoDup_fst_map_to_list.
- intros id. rewrite Hp, Hids.
  change (map_to_list grouped).*1 with (fst <$> map_to_list grouped).
  rewrite list_elem_of_fmap, Exists_exists. split.
  + intros ([? js] & -> & Hin%elem_of_map_to_list). destruct (Hg _ _ Hin) as [-> Hne]. simpl.
    destruct (filter _ l) as [|j ?] eqn:E; [done|]. exists j.
    assert (j ∈ filter (run_of s) l) as Hj by (rewrite E; left). apply list_elem_of_filter in Hj. naive_solver.
  + intros (j & Hj & Hrun). assert (j ∈ filter (run_of id) l) as Hin by by apply list_elem_of_filter.
    exists (id, filter (run_of id) l). split; [done|]. apply elem_of_map_to_list.
    subst grouped. rewrite group_job_lookup, lookup_empty. rewrite decide_False; [done|].
    intros E. rewrite E in Hin. by apply not_elem_of_nil in Hin.
- rewrite Hp. apply Forall_fmap. eapply Forall_impl; [exact Hb|]. by intros x [_ ?].
Qed.

(** *** The active generation of a conversation *)

(** A job that generates for the conversation and is not finished. *)
Definition busy (conversationID : string) (job : Job) : Prop :=
is_generate job = true ∧ is_open job = true ∧ jobConversationID job = conversationID.
#[export] Instance busy_dec cid job : Decision (busy cid job).
Proof. unfold busy. apply _. Defined.

Lemma active_generate_find l cid :
active_generate_loop l cid = from_option (job_ID ∘ snd) ""%string (list_find (busy cid) l).
Proof.
induction l as [|j l IH]; simpl; [done|].
assert (∀ o : option (nat * Job), from_option (job_ID ∘ snd) ""%string (prod_map S id <$> o)
   = from_option (job_ID ∘ snd) ""%string o) as Hs by by intros [[]|].
destruct (decide (busy cid j)) as [(-> & -> & Hc)|Hb]; simpl.
- by rewrite bool_decide_eq_true_2.
- rewrite Hs, <- IH. unfold busy in Hb. destruct (is_generate j), (is_open j); simpl; try done.
  rewrite bool_decide_eq_false_2; [done|naive_solver].
Qed.

(** With non-empty identifiers the answer is empty exactly when no generation
  of the conversation is open. *)
Lemma active_generate_none l cid :
blank cid = false → Forall (λ j, job_ID j ≠ "") l →
activeGenerateJobForConversation l cid = "" ↔ Forall (λ j, ¬ busy (TrimSpace cid) j) l.
Proof.
unfold blank, activeGenerateJobForConversation. cbv zeta. intros -> Hids. rewrite active_generate_find.
destruct (list_find _ l) as [[i j]|] eqn:E; simpl.
- apply list_find_Some in E as (Hi & Hb & _). rewrite Forall_forall in Hids.
  split; [intros Hj|intros Hf; exfalso].
  + destruct (Hids j); [by eapply list_elem_of_lookup_2|done].
  + rewrite Forall_forall in Hf. by apply (Hf j); [eapply list_elem_of_lookup_2|].
- split; [|done]. intros _. by apply list_find_None in E.
Qed.
End runs.
