(* ===== verification/Capacity.v ===== *)
(** * Readiness and capacity of the cluster

    [internal/manager/server.go]: the readiness checks of the dashboard, the
    report of what the cluster could run and what is missing for the rest, and
    the comparison of two capacity snapshots. *)

From S2P Require Import Prelude GoString GoSort GoFloat World Json Cdip Types Protocol Models State.
From S2P Require Import Conversations Scheduling JobStore ModelView DistributedPlan Views.

Record ReadinessCheck := mkCheck {
  chk_Name : string;
  chk_Status : string;
  chk_Detail : string;
  chk_Action : string;
  chk_Tab : string;
}.

Record ReadinessSummary := mkReadiness {
  rdy_Status : string;
  rdy_WorkersOnline : Z;
  rdy_RuntimeReadyWorkers : Z;
  rdy_InstalledModels : Z;
  rdy_GeneratableModels : Z;
  rdy_ActiveJobs : Z;
  rdy_RecentFailures : Z;
  rdy_Checks : list ReadinessCheck;
}.

(* field setters *)
#[export] Instance set_rdy_Status : Setter rdy_Status := λ f r, mkReadiness (f (rdy_Status r)) (rdy_WorkersOnline r) (rdy_RuntimeReadyWorkers r) (rdy_InstalledModels r) (rdy_GeneratableModels r) (rdy_ActiveJobs r) (rdy_RecentFailures r) (rdy_Checks r).
#[export] Instance set_rdy_WorkersOnline : Setter rdy_WorkersOnline := λ f r, mkReadiness (rdy_Status r) (f (rdy_WorkersOnline r)) (rdy_RuntimeReadyWorkers r) (rdy_InstalledModels r) (rdy_GeneratableModels r) (rdy_ActiveJobs r) (rdy_RecentFailures r) (rdy_Checks r).
#[export] Instance set_rdy_RuntimeReadyWorkers : Setter rdy_RuntimeReadyWorkers := λ f r, mkReadiness (rdy_Status r) (rdy_WorkersOnline r) (f (rdy_RuntimeReadyWorkers r)) (rdy_InstalledModels r) (rdy_GeneratableModels r) (rdy_ActiveJobs r) (rdy_RecentFailures r) (rdy_Checks r).
#[export] Instance set_rdy_InstalledModels : Setter rdy_InstalledModels := λ f r, mkReadiness (rdy_Status r) (rdy_WorkersOnline r) (rdy_RuntimeReadyWorkers r) (f (rdy_InstalledModels r)) (rdy_GeneratableModels r) (rdy_ActiveJobs r) (rdy_RecentFailures r) (rdy_Checks r).
#[export] Instance set_rdy_GeneratableModels : Setter rdy_GeneratableModels := λ f r, mkReadiness (rdy_Status r) (rdy_WorkersOnline r) (rdy_RuntimeReadyWorkers r) (rdy_InstalledModels r) (f (rdy_GeneratableModels r)) (rdy_ActiveJobs r) (rdy_RecentFailures r) (rdy_Checks r).
#[export] Instance set_rdy_ActiveJobs : Setter rdy_ActiveJobs := λ f r, mkReadiness (rdy_Status r) (rdy_WorkersOnline r) (rdy_RuntimeReadyWorkers r) (rdy_InstalledModels r) (rdy_GeneratableModels r) (f (rdy_ActiveJobs r)) (rdy_RecentFailures r) (rdy_Checks r).
#[export] Instance set_rdy_RecentFailures : Setter rdy_RecentFailures := λ f r, mkReadiness (rdy_Status r) (rdy_WorkersOnline r) (rdy_RuntimeReadyWorkers r) (rdy_InstalledModels r) (rdy_GeneratableModels r) (rdy_ActiveJobs r) (f (rdy_RecentFailures r)) (rdy_Checks r).
#[export] Instance set_rdy_Checks : Setter rdy_Checks := λ f r, mkReadiness (rdy_Status r) (rdy_WorkersOnline r) (rdy_RuntimeReadyWorkers r) (rdy_InstalledModels r) (rdy_GeneratableModels r) (rdy_ActiveJobs r) (rdy_RecentFailures r) (f (rdy_Checks r)).

Record CapacityModel := mkCapacityModel {
  cm_ID : string;
  cm_Name : string;
  cm_Parameters : string;
  cm_Quant : string;
  cm_RequiredMemory : Z;
  cm_RequiredDisk : Z;
  cm_PlacementMode : string;
  cm_PlacementHint : string;
  cm_CandidateWorkers : Z;
  cm_ShardWorkers : Z;
}.
Definition zero_CapacityModel : CapacityModel := mkCapacityModel "" "" "" "" 0 0 "" "" 0 0.

Record CapacityWorker := mkCapacityWorker {
  cw_NodeID : string;
  cw_Name : string;
  cw_AllowedCPUCores : Z;
  cw_AllowedMemoryBytes : Z;
  cw_AllowedStorageBytes : Z;
  cw_FreeStorageBytes : Z;
  cw_AllowedVRAMBytes : Z;
  cw_JobSlots : Z;
  cw_RuntimeReady : bool;
  cw_InstalledModels : Z;
  cw_RunnableModels : Z;
  cw_LargestRunnableModel : CapacityModel;
  cw_MemorySharePercent : float64;
  cw_StorageSharePercent : float64;
  cw_FreeStorageSharePct : float64;
  cw_VRAMSharePercent : float64;
}.

(* field setters *)
#[export] Instance set_cw_NodeID : Setter cw_NodeID := λ f r, mkCapacityWorker (f (cw_NodeID r)) (cw_Name r) (cw_AllowedCPUCores r) (cw_AllowedMemoryBytes r) (cw_AllowedStorageBytes r) (cw_FreeStorageBytes r) (cw_AllowedVRAMBytes r) (cw_JobSlots r) (cw_RuntimeReady r) (cw_InstalledModels r) (cw_RunnableModels r) (cw_LargestRunnableModel r) (cw_MemorySharePercent r) (cw_StorageSharePercent r) (cw_FreeStorageSharePct r) (cw_VRAMSharePercent r).
#[export] Instance set_cw_Name : Setter cw_Name := λ f r, mkCapacityWorker (cw_NodeID r) (f (cw_Name r)) (cw_AllowedCPUCores r) (cw_AllowedMemoryBytes r) (cw_AllowedStorageBytes r) (cw_FreeStorageBytes r) (cw_AllowedVRAMBytes r) (cw_JobSlots r) (cw_RuntimeReady r) (cw_InstalledModels r) (cw_RunnableModels r) (cw_LargestRunnableModel r) (cw_MemorySharePercent r) (cw_StorageSharePercent r) (cw_FreeStorageSharePct r) (cw_VRAMSharePercent r).
#[export] Instance set_cw_AllowedCPUCores : Setter cw_AllowedCPUCores := λ f r, mkCapacityWorker (cw_NodeID r) (cw_Name r) (f (cw_AllowedCPUCores r)) (cw_AllowedMemoryBytes r) (cw_AllowedStorageBytes r) (cw_FreeStorageBytes r) (cw_AllowedVRAMBytes r) (cw_JobSlots r) (cw_RuntimeReady r) (cw_InstalledModels r) (cw_RunnableModels r) (cw_LargestRunnableModel r) (cw_MemorySharePercent r) (cw_StorageSharePercent r) (cw_FreeStorageSharePct r) (cw_VRAMSharePercent r).
#[export] Instance set_cw_AllowedMemoryBytes : Setter cw_AllowedMemoryBytes := λ f r, mkCapacityWorker (cw_NodeID r) (cw_Name r) (cw_AllowedCPUCores r) (f (cw_AllowedMemoryBytes r)) (cw_AllowedStorageBytes r) (cw_FreeStorageBytes r) (cw_AllowedVRAMBytes r) (cw_JobSlots r) (cw_RuntimeReady r) (cw_InstalledModels r) (cw_RunnableModels r) (cw_LargestRunnableModel r) (cw_MemorySharePercent r) (cw_StorageSharePercent r) (cw_FreeStorageSharePct r) (cw_VRAMSharePercent r).
#[export] Instance set_cw_AllowedStorageBytes : Setter cw_AllowedStorageBytes := λ f r, mkCapacityWorker (cw_NodeID r) (cw_Name r) (cw_AllowedCPUCores r) (cw_AllowedMemoryBytes r) (f (cw_AllowedStorageBytes r)) (cw_FreeStorageBytes r) (cw_AllowedVRAMBytes r) (cw_JobSlots r) (cw_RuntimeReady r) (cw_InstalledModels r) (cw_RunnableModels r) (cw_LargestRunnableModel r) (cw_MemorySharePercent r) (cw_StorageSharePercent r) (cw_FreeStorageSharePct r) (cw_VRAMSharePercent r).
#[export] Instance set_cw_FreeStorageBytes : Setter cw_FreeStorageBytes := λ f r, mkCapacityWorker (cw_NodeID r) (cw_Name r) (cw_AllowedCPUCores r) (cw_AllowedMemoryBytes r) (cw_AllowedStorageBytes r) (f (cw_FreeStorageBytes r)) (cw_AllowedVRAMBytes r) (cw_JobSlots r) (cw_RuntimeReady r) (cw_InstalledModels r) (cw_RunnableModels r) (cw_LargestRunnableModel r) (cw_MemorySharePercent r) (cw_StorageSharePercent r) (cw_FreeStorageSharePct r) (cw_VRAMSharePercent r).
#[export] Instance set_cw_AllowedVRAMBytes : Setter cw_AllowedVRAMBytes := λ f r, mkCapacityWorker (cw_NodeID r) (cw_Name r) (cw_AllowedCPUCores r) (cw_AllowedMemoryBytes r) (cw_AllowedStorageBytes r) (cw_FreeStorageBytes r) (f (cw_AllowedVRAMBytes r)) (cw_JobSlots r) (cw_RuntimeReady r) (cw_InstalledModels r) (cw_RunnableModels r) (cw_LargestRunnableModel r) (cw_MemorySharePercent r) (cw_StorageSharePercent r) (cw_FreeStorageSharePct r) (cw_VRAMSharePercent r).
#[export] Instance set_cw_JobSlots : Setter cw_JobSlots := λ f r, mkCapacityWorker (cw_NodeID r) (cw_Name r) (cw_AllowedCPUCores r) (cw_AllowedMemoryBytes r) (cw_AllowedStorageBytes r) (cw_FreeStorageBytes r) (cw_AllowedVRAMBytes r) (f (cw_JobSlots r)) (cw_RuntimeReady r) (cw_InstalledModels r) (cw_RunnableModels r) (cw_LargestRunnableModel r) (cw_MemorySharePercent r) (cw_StorageSharePercent r) (cw_FreeStorageSharePct r) (cw_VRAMSharePercent r).
#[export] Instance set_cw_RuntimeReady : Setter cw_RuntimeReady := λ f r, mkCapacityWorker (cw_NodeID r) (cw_Name r) (cw_AllowedCPUCores r) (cw_AllowedMemoryBytes r) (cw_AllowedStorageBytes r) (cw_FreeStorageBytes r) (cw_AllowedVRAMBytes r) (cw_JobSlots r) (f (cw_RuntimeReady r)) (cw_InstalledModels r) (cw_RunnableModels r) (cw_LargestRunnableModel r) (cw_MemorySharePercent r) (cw_StorageSharePercent r) (cw_FreeStorageSharePct r) (cw_VRAMSharePercent r).
#[export] Instance set_cw_InstalledModels : Setter cw_InstalledModels := λ f r, mkCapacityWorker (cw_NodeID r) (cw_Name r) (cw_AllowedCPUCores r) (cw_AllowedMemoryBytes r) (cw_AllowedStorageBytes r) (cw_FreeStorageBytes r) (cw_AllowedVRAMBytes r) (cw_JobSlots r) (cw_RuntimeReady r) (f (cw_InstalledModels r)) (cw_RunnableModels r) (cw_LargestRunnableModel r) (cw_MemorySharePercent r) (cw_StorageSharePercent r) (cw_FreeStorageSharePct r) (cw_VRAMSharePercent r).
#[export] Instance set_cw_RunnableModels : Setter cw_RunnableModels := λ f r, mkCapacityWorker (cw_NodeID r) (cw_Name r) (cw_AllowedCPUCores r) (cw_AllowedMemoryBytes r) (cw_AllowedStorageBytes r) (cw_FreeStorageBytes r) (cw_AllowedVRAMBytes r) (cw_JobSlots r) (cw_RuntimeReady r) (cw_InstalledModels r) (f (cw_RunnableModels r)) (cw_LargestRunnableModel r) (cw_MemorySharePercent r) (cw_StorageSharePercent r) (cw_FreeStorageSharePct r) (cw_VRAMSharePercent r).
#[export] Instance set_cw_LargestRunnableModel : Setter cw_LargestRunnableModel := λ f r, mkCapacityWorker (cw_NodeID r) (cw_Name r) (cw_AllowedCPUCores r) (cw_AllowedMemoryBytes r) (cw_AllowedStorageBytes r) (cw_FreeStorageBytes r) (cw_AllowedVRAMBytes r) (cw_JobSlots r) (cw_RuntimeReady r) (cw_InstalledModels r) (cw_RunnableModels r) (f (cw_LargestRunnableModel r)) (cw_MemorySharePercent r) (cw_StorageSharePercent r) (cw_FreeStorageSharePct r) (cw_VRAMSharePercent r).
#[export] Instance set_cw_MemorySharePercent : Setter cw_MemorySharePercent := λ f r, mkCapacityWorker (cw_NodeID r) (cw_Name r) (cw_AllowedCPUCores r) (cw_AllowedMemoryBytes r) (cw_AllowedStorageBytes r) (cw_FreeStorageBytes r) (cw_AllowedVRAMBytes r) (cw_JobSlots r) (cw_RuntimeReady r) (cw_InstalledModels r) (cw_RunnableModels r) (cw_LargestRunnableModel r) (f (cw_MemorySharePercent r)) (cw_StorageSharePercent r) (cw_FreeStorageSharePct r) (cw_VRAMSharePercent r).
#[export] Instance set_cw_StorageSharePercent : Setter cw_StorageSharePercent := λ f r, mkCapacityWorker (cw_NodeID r) (cw_Name r) (cw_AllowedCPUCores r) (cw_AllowedMemoryBytes r) (cw_AllowedStorageBytes r) (cw_FreeStorageBytes r) (cw_AllowedVRAMBytes r) (cw_JobSlots r) (cw_RuntimeReady r) (cw_InstalledModels r) (cw_RunnableModels r) (cw_LargestRunnableModel r) (cw_MemorySharePercent r) (f (cw_StorageSharePercent r)) (cw_FreeStorageSharePct r) (cw_VRAMSharePercent r).
#[export] Instance set_cw_FreeStorageSharePct : Setter cw_FreeStorageSharePct := λ f r, mkCapacityWorker (cw_NodeID r) (cw_Name r) (cw_AllowedCPUCores r) (cw_AllowedMemoryBytes r) (cw_AllowedStorageBytes r) (cw_FreeStorageBytes r) (cw_AllowedVRAMBytes r) (cw_JobSlots r) (cw_RuntimeReady r) (cw_InstalledModels r) (cw_RunnableModels r) (cw_LargestRunnableModel r) (cw_MemorySharePercent r) (cw_StorageSharePercent r) (f (cw_FreeStorageSharePct r)) (cw_VRAMSharePercent r).
#[export] Instance set_cw_VRAMSharePercent : Setter cw_VRAMSharePercent := λ f r, mkCapacityWorker (cw_NodeID r) (cw_Name r) (cw_AllowedCPUCores r) (cw_AllowedMemoryBytes r) (cw_AllowedStorageBytes r) (cw_FreeStorageBytes r) (cw_AllowedVRAMBytes r) (cw_JobSlots r) (cw_RuntimeReady r) (cw_InstalledModels r) (cw_RunnableModels r) (cw_LargestRunnableModel r) (cw_MemorySharePercent r) (cw_StorageSharePercent r) (cw_FreeStorageSharePct r) (f (cw_VRAMSharePercent r)).

Record CapacityTarget := mkCapacityTarget {
  ct_Model : CapacityModel;
  ct_MemoryShortBytes : Z;
  ct_DiskShortBytes : Z;
  ct_AggregateMemoryBytes : Z;
  ct_AggregateDiskBytes : Z;
  ct_Blockers : list string;
}.

Record CapacitySummary := mkCapacity {
  cap_WorkersOnline : Z;
  cap_AllowedCPUCores : Z;
  cap_AllMemoryBytes : Z;
  cap_AllStorageBytes : Z;
  cap_AllFreeStorageBytes : Z;
  cap_AllVRAMBytes : Z;
  cap_CatalogModels : Z;
  cap_SingleWorkerRunnableModels : Z;
  cap_ShardedEstimateModels : Z;
  cap_BlockedModels : Z;
  cap_LargestSingleWorkerModel : CapacityModel;
  cap_LargestShardedModel : CapacityModel;
  cap_Workers : list CapacityWorker;
  cap_SingleWorkerRunnable : list CapacityModel;
  cap_ShardedEstimate : list CapacityModel;
  cap_Blocked : list CapacityModel;
  cap_UnlockTargets : list CapacityTarget;
}.

(* field setters *)
#[export] Instance set_cap_WorkersOnline : Setter cap_WorkersOnline := λ f r, mkCapacity (f (cap_WorkersOnline r)) (cap_AllowedCPUCores r) (cap_AllMemoryBytes r) (cap_AllStorageBytes r) (cap_AllFreeStorageBytes r) (cap_AllVRAMBytes r) (cap_CatalogModels r) (cap_SingleWorkerRunnableModels r) (cap_ShardedEstimateModels r) (cap_BlockedModels r) (cap_LargestSingleWorkerModel r) (cap_LargestShardedModel r) (cap_Workers r) (cap_SingleWorkerRunnable r) (cap_ShardedEstimate r) (cap_Blocked r) (cap_UnlockTargets r).
#[export] Instance set_cap_AllowedCPUCores : Setter cap_AllowedCPUCores := λ f r, mkCapacity (cap_WorkersOnline r) (f (cap_AllowedCPUCores r)) (cap_AllMemoryBytes r) (cap_AllStorageBytes r) (cap_AllFreeStorageBytes r) (cap_AllVRAMBytes r) (cap_CatalogModels r) (cap_SingleWorkerRunnableModels r) (cap_ShardedEstimateModels r) (cap_BlockedModels r) (cap_LargestSingleWorkerModel r) (cap_LargestShardedModel r) (cap_Workers r) (cap_SingleWorkerRunnable r) (cap_ShardedEstimate r) (cap_Blocked r) (cap_UnlockTargets r).
#[export] Instance set_cap_AllMemoryBytes : Setter cap_AllMemoryBytes := λ f r, mkCapacity (cap_WorkersOnline r) (cap_AllowedCPUCores r) (f (cap_AllMemoryBytes r)) (cap_AllStorageBytes r) (cap_AllFreeStorageBytes r) (cap_AllVRAMBytes r) (cap_CatalogModels r) (cap_SingleWorkerRunnableModels r) (cap_ShardedEstimateModels r) (cap_BlockedModels r) (cap_LargestSingleWorkerModel r) (cap_LargestShardedModel r) (cap_Workers r) (cap_SingleWorkerRunnable r) (cap_ShardedEstimate r) (cap_Blocked r) (cap_UnlockTargets r).
#[export] Instance set_cap_AllStorageBytes : Setter cap_AllStorageBytes := λ f r, mkCapacity (cap_WorkersOnline r) (cap_AllowedCPUCores r) (cap_AllMemoryBytes r) (f (cap_AllStorageBytes r)) (cap_AllFreeStorageBytes r) (cap_AllVRAMBytes r) (cap_CatalogModels r) (cap_SingleWorkerRunnableModels r) (cap_ShardedEstimateModels r) (cap_BlockedModels r) (cap_LargestSingleWorkerModel r) (cap_LargestShardedModel r) (cap_Workers r) (cap_SingleWorkerRunnable r) (cap_ShardedEstimate r) (cap_Blocked r) (cap_UnlockTargets r).
#[export] Instance set_cap_AllFreeStorageBytes : Setter cap_AllFreeStorageBytes := λ f r, mkCapacity (cap_WorkersOnline r) (cap_AllowedCPUCores r) (cap_AllMemoryBytes r) (cap_AllStorageBytes r) (f (cap_AllFreeStorageBytes r)) (cap_AllVRAMBytes r) (cap_CatalogModels r) (cap_SingleWorkerRunnableModels r) (cap_ShardedEstimateModels r) (cap_BlockedModels r) (cap_LargestSingleWorkerModel r) (cap_LargestShardedModel r) (cap_Workers r) (cap_SingleWorkerRunnable r) (cap_ShardedEstimate r) (cap_Blocked r) (cap_UnlockTargets r).
#[export] Instance set_cap_AllVRAMBytes : Setter cap_AllVRAMBytes := λ f r, mkCapacity (cap_WorkersOnline r) (cap_AllowedCPUCores r) (cap_AllMemoryBytes r) (cap_AllStorageBytes r) (cap_AllFreeStorageBytes r) (f (cap_AllVRAMBytes r)) (cap_CatalogModels r) (cap_SingleWorkerRunnableModels r) (cap_ShardedEstimateModels r) (cap_BlockedModels r) (cap_LargestSingleWorkerModel r) (cap_LargestShardedModel r) (cap_Workers r) (cap_SingleWorkerRunnable r) (cap_ShardedEstimate r) (cap_Blocked r) (cap_UnlockTargets r).
#[export] Instance set_cap_CatalogModels : Setter cap_CatalogModels := λ f r, mkCapacity (cap_WorkersOnline r) (cap_AllowedCPUCores r) (cap_AllMemoryBytes r) (cap_AllStorageBytes r) (cap_AllFreeStorageBytes r) (cap_AllVRAMBytes r) (f (cap_CatalogModels r)) (cap_SingleWorkerRunnableModels r) (cap_ShardedEstimateModels r) (cap_BlockedModels r) (cap_LargestSingleWorkerModel r) (cap_LargestShardedModel r) (cap_Workers r) (cap_SingleWorkerRunnable r) (cap_ShardedEstimate r) (cap_Blocked r) (cap_UnlockTargets r).
#[export] Instance set_cap_SingleWorkerRunnableModels : Setter cap_SingleWorkerRunnableModels := λ f r, mkCapacity (cap_WorkersOnline r) (cap_AllowedCPUCores r) (cap_AllMemoryBytes r) (cap_AllStorageBytes r) (cap_AllFreeStorageBytes r) (cap_AllVRAMBytes r) (cap_CatalogModels r) (f (cap_SingleWorkerRunnableModels r)) (cap_ShardedEstimateModels r) (cap_BlockedModels r) (cap_LargestSingleWorkerModel r) (cap_LargestShardedModel r) (cap_Workers r) (cap_SingleWorkerRunnable r) (cap_ShardedEstimate r) (cap_Blocked r) (cap_UnlockTargets r).
#[export] Instance set_cap_ShardedEstimateModels : Setter cap_ShardedEstimateModels := λ f r, mkCapacity (cap_WorkersOnline r) (cap_AllowedCPUCores r) (cap_AllMemoryBytes r) (cap_AllStorageBytes r) (cap_AllFreeStorageBytes r) (cap_AllVRAMBytes r) (cap_CatalogModels r) (cap_SingleWorkerRunnableModels r) (f (cap_ShardedEstimateModels r)) (cap_BlockedModels r) (cap_LargestSingleWorkerModel r) (cap_LargestShardedModel r) (cap_Workers r) (cap_SingleWorkerRunnable r) (cap_ShardedEstimate r) (cap_Blocked r) (cap_UnlockTargets r).
#[export] Instance set_cap_BlockedModels : Setter cap_BlockedModels := λ f r, mkCapacity (cap_WorkersOnline r) (cap_AllowedCPUCores r) (cap_AllMemoryBytes r) (cap_AllStorageBytes r) (cap_AllFreeStorageBytes r) (cap_AllVRAMBytes r) (cap_CatalogModels r) (cap_SingleWorkerRunnableModels r) (cap_ShardedEstimateModels r) (f (cap_BlockedModels r)) (cap_LargestSingleWorkerModel r) (cap_LargestShardedModel r) (cap_Workers r) (cap_SingleWorkerRunnable r) (cap_ShardedEstimate r) (cap_Blocked r) (cap_UnlockTargets r).
#[export] Instance set_cap_LargestSingleWorkerModel : Setter cap_LargestSingleWorkerModel := λ f r, mkCapacity (cap_WorkersOnline r) (cap_AllowedCPUCores r) (cap_AllMemoryBytes r) (cap_AllStorageBytes r) (cap_AllFreeStorageBytes r) (cap_AllVRAMBytes r) (cap_CatalogModels r) (cap_SingleWorkerRunnableModels r) (cap_ShardedEstimateModels r) (cap_BlockedModels r) (f (cap_LargestSingleWorkerModel r)) (cap_LargestShardedModel r) (cap_Workers r) (cap_SingleWorkerRunnable r) (cap_ShardedEstimate r) (cap_Blocked r) (cap_UnlockTargets r).
#[export] Instance set_cap_LargestShardedModel : Setter cap_LargestShardedModel := λ f r, mkCapacity (cap_WorkersOnline r) (cap_AllowedCPUCores r) (cap_AllMemoryBytes r) (cap_AllStorageBytes r) (cap_AllFreeStorageBytes r) (cap_AllVRAMBytes r) (cap_CatalogModels r) (cap_SingleWorkerRunnableModels r) (cap_ShardedEstimateModels r) (cap_BlockedModels r) (cap_LargestSingleWorkerModel r) (f (cap_LargestShardedModel r)) (cap_Workers r) (cap_SingleWorkerRunnable r) (cap_ShardedEstimate r) (cap_Blocked r) (cap_UnlockTargets r).
#[export] Instance set_cap_Workers : Setter cap_Workers := λ f r, mkCapacity (cap_WorkersOnline r) (cap_AllowedCPUCores r) (cap_AllMemoryBytes r) (cap_AllStorageBytes r) (cap_AllFreeStorageBytes r) (cap_AllVRAMBytes r) (cap_CatalogModels r) (cap_SingleWorkerRunnableModels r) (cap_ShardedEstimateModels r) (cap_BlockedModels r) (cap_LargestSingleWorkerModel r) (cap_LargestShardedModel r) (f (cap_Workers r)) (cap_SingleWorkerRunnable r) (cap_ShardedEstimate r) (cap_Blocked r) (cap_UnlockTargets r).
#[export] Instance set_cap_SingleWorkerRunnable : Setter cap_SingleWorkerRunnable := λ f r, mkCapacity (cap_WorkersOnline r) (cap_AllowedCPUCores r) (cap_AllMemoryBytes r) (cap_AllStorageBytes r) (cap_AllFreeStorageBytes r) (cap_AllVRAMBytes r) (cap_CatalogModels r) (cap_SingleWorkerRunnableModels r) (cap_ShardedEstimateModels r) (cap_BlockedModels r) (cap_LargestSingleWorkerModel r) (cap_LargestShardedModel r) (cap_Workers r) (f (cap_SingleWorkerRunnable r)) (cap_ShardedEstimate r) (cap_Blocked r) (cap_UnlockTargets r).
#[export] Instance set_cap_ShardedEstimate : Setter cap_ShardedEstimate := λ f r, mkCapacity (cap_WorkersOnline r) (cap_AllowedCPUCores r) (cap_AllMemoryBytes r) (cap_AllStorageBytes r) (cap_AllFreeStorageBytes r) (cap_AllVRAMBytes r) (cap_CatalogModels r) (cap_SingleWorkerRunnableModels r) (cap_ShardedEstimateModels r) (cap_BlockedModels r) (cap_LargestSingleWorkerModel r) (cap_LargestShardedModel r) (cap_Workers r) (cap_SingleWorkerRunnable r) (f (cap_ShardedEstimate r)) (cap_Blocked r) (cap_UnlockTargets r).
#[export] Instance set_cap_Blocked : Setter cap_Blocked := λ f r, mkCapacity (cap_WorkersOnline r) (cap_AllowedCPUCores r) (cap_AllMemoryBytes r) (cap_AllStorageBytes r) (cap_AllFreeStorageBytes r) (cap_AllVRAMBytes r) (cap_CatalogModels r) (cap_SingleWorkerRunnableModels r) (cap_ShardedEstimateModels r) (cap_BlockedModels r) (cap_LargestSingleWorkerModel r) (cap_LargestShardedModel r) (cap_Workers r) (cap_SingleWorkerRunnable r) (cap_ShardedEstimate r) (f (cap_Blocked r)) (cap_UnlockTargets r).
#[export] Instance set_cap_UnlockTargets : Setter cap_UnlockTargets := λ f r, mkCapacity (cap_WorkersOnline r) (cap_AllowedCPUCores r) (cap_AllMemoryBytes r) (cap_AllStorageBytes r) (cap_AllFreeStorageBytes r) (cap_AllVRAMBytes r) (cap_CatalogModels r) (cap_SingleWorkerRunnableModels r) (cap_ShardedEstimateModels r) (cap_BlockedModels r) (cap_LargestSingleWorkerModel r) (cap_LargestShardedModel r) (cap_Workers r) (cap_SingleWorkerRunnable r) (cap_ShardedEstimate r) (cap_Blocked r) (f (cap_UnlockTargets r)).

Record CapacitySnapshot := mkSnapshot {
  snap_ID : string;
  snap_Label : string;
  snap_CreatedAt : Time;
  snap_Summary : ClusterSummary;
  snap_Capacity : CapacitySummary;
}.

Record CapacityDelta := mkDelta {
  cd_BaselineID : string;
  cd_CurrentID : string;
  cd_WorkersOnlineDelta : Z;
  cd_AllowedCPUCoresDelta : Z;
  cd_AllowedMemoryBytesDelta : Z;
  cd_AllowedStorageBytesDelta : Z;
  cd_FreeStorageBytesDelta : Z;
  cd_AllowedVRAMBytesDelta : Z;
  cd_SingleWorkerRunnableDelta : Z;
  cd_ShardedEstimateDelta : Z;
  cd_BlockedModelsDelta : Z;
  cd_NewSingleWorkerRunnableModels : list CapacityModel;
  cd_NewShardedEstimateModels : list CapacityModel;
}.

(** ** Readiness *)

Definition nodeAnyRuntimeReady (node : Node) : bool := existsb rt_Ready (res_Runtimes (node_Resources node)).

Definition runtimeReadyWorkerCount (nodes : list Node) : Z :=
  Z.of_nat (length (filter (λ n, nodeAnyRuntimeReady n = true) nodes)).

Definition installedModelCount (l : list ModelSummary) : Z :=
  Z.of_nat (length (filter (λ s, sum_InstalledOn s ≠ []) l)).

Definition installedModelInstanceCount (l : list ModelSummary) : Z :=
  foldl (λ count s, count + Z.of_nat (length (sum_Installed s))) 0 l.

Definition generatableModelCount (l : list ModelSummary) : Z :=
  Z.of_nat (length (filter (λ s, sum_GeneratableOn s ≠ [] ∧ sum_Status s ≠ "deleting"%string) l)).

Definition recently_failed (cutoff : Time) (job : Job) : bool :=
  negb (job_UpdatedAt job <? cutoff) &&
  (bool_decide (job_Status job = StatusFailed) || bool_decide (job_Status job = StatusCanceled)).
Definition recentFailureCount `{World} (l : list Job) : Z :=
  let cutoff := w_clock ["failures"] - 24 * 3600 * Second in
  Z.of_nat (length (filter (λ j, recently_failed cutoff j = true) l)).

Definition readinessWorkersCheck (workersOnline : Z) : ReadinessCheck :=
  if workersOnline =? 0
  then mkCheck "Workers" "blocked" "No workers are online." "Invite and start at least one worker." "workers"
  else mkCheck "Workers" "ready" (Itoa workersOnline +:+ " online worker(s).") "Worker plane is available." "workers".

Definition readinessRuntimeCheck (workersOnline runtimeReadyWorkers : Z) : ReadinessCheck :=
  if workersOnline =? 0 then
    mkCheck "Runtime" "blocked" "No worker runtime can be checked." "Connect a worker first." "workers"
  else if runtimeReadyWorkers =? 0 then
    mkCheck "Runtime" "blocked" "No online worker reports a ready AI runtime."
      "Open worker app and repair llama.cpp runtime." "workers"
  else if runtimeReadyWorkers <? workersOnline then
    mkCheck "Runtime" "warn"
      (Itoa runtimeReadyWorkers +:+ " of " +:+ Itoa workersOnline +:+ " worker(s) have ready runtime.")
      "Repair runtime on workers that report missing llama.cpp." "workers"
  else mkCheck "Runtime" "ready" (Itoa runtimeReadyWorkers +:+ " worker(s) runtime-ready.")
         "Runtime plane is available." "workers".

Definition readinessModelsCheck (installedModels generatableModels : Z) : ReadinessCheck :=
  if installedModels =? 0 then
    mkCheck "Models" "blocked" "No model is installed." "Install a small catalog model first." "models"
  else if generatableModels =? 0 then
    mkCheck "Models" "blocked" (Itoa installedModels +:+ " model(s) installed but none are runtime-ready.")
      "Repair runtime or reinstall the model on a ready worker." "models"
  else if generatableModels <? installedModels then
    mkCheck "Models" "warn"
      (Itoa installedModels +:+ " installed, " +:+ Itoa generatableModels +:+ " ready for chat.")
      "Some installed models are not generatable yet." "models"
  else mkCheck "Models" "ready" (Itoa generatableModels +:+ " model(s) ready for chat.")
         "Model chat can run locally." "chat".

Definition readinessJobsCheck (activeJobs : Z) : ReadinessCheck :=
  if activeJobs =? 0 then mkCheck "Jobs" "ready" "No active jobs." "Scheduler is idle." "jobs"
  else mkCheck "Jobs" "warn" (Itoa activeJobs +:+ " queued/scheduled/running job(s).")
         "Wait for active jobs before release smoke testing." "scheduler".

Definition readinessFailuresCheck (recentFailures : Z) : ReadinessCheck :=
  if recentFailures =? 0
  then mkCheck "Failures" "ready" "No recent terminal failures." "Recent job history is clean." "model-activity"
  else mkCheck "Failures" "warn" (Itoa recentFailures +:+ " recent failed/canceled job(s).")
         "Review Model Activity and Jobs before release." "model-activity".

(** The loop over the checks: returns at the first blocked one. *)
Fixpoint checks_status (status : string) (checks : list ReadinessCheck) : string :=
  match checks with
  | [] => status
  | c :: checks =>
      if str_eqb (chk_Status c) "blocked" then "blocked"
      else if str_eqb (chk_Status c) "warn" && str_eqb status "ready" then checks_status "warn" checks
      else checks_status status checks
  end.

Definition clusterReadiness `{World} (onlineNodes : list Node) (modelsView : list ModelSummary)
    (jobsList : list Job) : ReadinessSummary :=
  let r := mkReadiness "ready" (Z.of_nat (length onlineNodes)) (runtimeReadyWorkerCount onlineNodes)
             (installedModelCount modelsView) (generatableModelCount modelsView)
             (activeJobCount jobsList) (recentFailureCount jobsList) [] in
  let checks := [readinessWorkersCheck (rdy_WorkersOnline r);
                 readinessRuntimeCheck (rdy_WorkersOnline r) (rdy_RuntimeReadyWorkers r);
                 readinessModelsCheck (rdy_InstalledModels r) (rdy_GeneratableModels r);
                 readinessJobsCheck (rdy_ActiveJobs r);
                 readinessFailuresCheck (rdy_RecentFailures r)] in
  r <| rdy_Checks := checks |> <| rdy_Status := checks_status (rdy_Status r) checks |>.

(** ** Labels of a model and its placement *)

Fixpoint failure_reasons (n : nat) (capabilities : list ModelCapability) : list string :=
  match n, capabilities with
  | 0%nat, _ | _, [] => []
  | S n', c :: capabilities =>
      if cap_Capable c || bool_decide (cap_Reasons c = []) then failure_reasons n capabilities
      else (cap_Name c +:+ ": " +:+ Join (cap_Reasons c) "; ") :: failure_reasons n' capabilities
  end.
Definition modelFailureHint (summary : ModelSummary) : string :=
  if negb (blank (sum_LastError summary)) && negb (Contains (sum_LastError summary) "unsupported job type")
  then "Last model job failed: " +:+ sum_LastError summary
  else if (0 <? sum_CapableNodes summary) || bool_decide (sum_Capabilities summary = []) then ""
  else match failure_reasons 2 (sum_Capabilities summary) with
  | [] => ""
  | reasons => "No capable worker yet. " +:+ Join reasons " | "
  end.

Definition modelPlacementClass (plan : ModelPlacementPlan) : string :=
  if mpp_RunnableNow plan then "model-placement-card is-ready"
  else if mpp_Feasible plan then "model-placement-card is-estimate"
  else "model-placement-card is-blocked".

Definition modelPlacementLabel (plan : ModelPlacementPlan) : string :=
  if str_eqb (mpp_Mode plan) "single_worker" then "Single-worker ready"
  else if str_eqb (mpp_Mode plan) "sharded_estimate" then "Sharded estimate"
  else "Blocked".

Definition modelPlacementHint (plan : ModelPlacementPlan) : string :=
  let candidates := length (mpp_SingleNodeCandidates plan) in
  if mpp_RunnableNow plan then
    if (candidates =? 1)%nat then "Can run on 1 online worker."
    else "Can run on " +:+ Itoa (Z.of_nat candidates) +:+ " online workers."
  else if mpp_Feasible plan then
    "Aggregate resources fit across " +:+ Itoa (Z.of_nat (length (mpp_Shards plan)))
      +:+ " workers, but distributed model execution is not implemented yet."
  else match mpp_Blockers plan with
  | [] => "No viable placement found."
  | blockers => Join blockers " | "
  end.

(** ** Capacity *)

Definition shortfall (required available : Z) : Z :=
  if required <=? available then 0 else required - available.

Definition capacityTargetFromPlacement (model : CapacityModel) (plan : ModelPlacementPlan) : CapacityTarget :=
  mkCapacityTarget model
    (shortfall (mpp_RequiredMemoryBytes plan) (mpp_AggregateMemoryBytes plan))
    (shortfall (mpp_RequiredDiskBytes plan) (mpp_AggregateDiskBytes plan))
    (mpp_AggregateMemoryBytes plan) (mpp_AggregateDiskBytes plan) (mpp_Blockers plan).

Definition capacityModelFromPlacement (summary : ModelSummary) (plan : ModelPlacementPlan) : CapacityModel :=
  let m := sum_Model summary in
  mkCapacityModel (model_ID m) (model_Name m) (model_Parameters m) (model_Quant m)
    (model_MemoryBytes m) (model_DiskBytes m) (mpp_Mode plan) (modelPlacementHint plan)
    (Z.of_nat (length (mpp_SingleNodeCandidates plan))) (Z.of_nat (length (mpp_Shards plan))).

Fixpoint modelCapabilityForNode (nodeID : string) (capabilities : list ModelCapability) : option ModelCapability :=
  match capabilities with
  | [] => None
  | c :: capabilities => if str_eqb (cap_NodeID c) nodeID then Some c else modelCapabilityForNode nodeID capabilities
  end.

Definition percentOf (value total : Z) : float64 :=
  if total =? 0 then f_zero else f_div (f_mul (f_of_Z value) (f_of_Z 100)) (f_of_Z total).

Definition larger_model (best m : CapacityModel) : CapacityModel :=
  if cm_RequiredMemory best <? cm_RequiredMemory m then m else best.

(** The order of the unlock targets: total shortfall, then required memory. *)
Definition target_total (t : CapacityTarget) : Z := u64 (ct_MemoryShortBytes t + ct_DiskShortBytes t).
Definition target_less : CapacityTarget → CapacityTarget → bool :=
  asc_Z target_total (asc_Z_last (λ t, cm_RequiredMemory (ct_Model t))).
Definition capacity_worker_less : CapacityWorker → CapacityWorker → bool :=
  desc_Z cw_AllowedMemoryBytes (asc_str_last cw_Name).

Section capacity.
Context `{W : World}.

(** The placement plan is computed anew in each loop; each call has its world. *)
Definition plan_in (t : Tag) (summary : ModelSummary) : ModelPlacementPlan :=
@modelPlacementPlan (sub_world (t ++ [model_ID (sum_Model summary)])) summary.

Definition worker_model (nodeID : string) (worker : CapacityWorker) (summary : ModelSummary) : CapacityWorker :=
match modelCapabilityForNode nodeID (sum_Capabilities summary) with
| None => worker
| Some capability =>
    if negb (cap_Capable capability) then worker else
    worker <| cw_RunnableModels := cw_RunnableModels worker + 1 |>
           <| cw_LargestRunnableModel := larger_model (cw_LargestRunnableModel worker)
                (capacityModelFromPlacement summary (plan_in ["worker"; nodeID] summary)) |>
end.

Definition capacity_worker (summary : ClusterSummary) (modelsView : list ModelSummary) (node : Node)
  : CapacityWorker :=
let res := node_Resources node in
let memory := mem_AllowedBytes (res_Memory res) in
let storage := sto_AllowedBytes (res_Storage res) in
let free := sto_FreeBytes (res_Storage res) in
let vram := foldl (λ a g, u64 (a + gpu_AllowedVRAMBytes g)) 0 (res_GPU res) in
let total := cs_Resources summary in
foldl (worker_model (node_ID node))
  (mkCapacityWorker (node_ID node) (nodeDisplayName node) (cpu_CoresAllowed (res_CPU res)) memory storage free
     vram (res_JobSlots res) (nodeAnyRuntimeReady node) (Z.of_nat (length (res_Models res))) 0 zero_CapacityModel
     (percentOf memory (mem_AllowedBytes (res_Memory total)))
     (percentOf storage (sto_AllowedBytes (res_Storage total)))
     (percentOf free (sto_FreeBytes (res_Storage total)))
     (percentOf vram (cs_VRAMAllowedBytes summary)))
  modelsView.

Definition capacityWorkers (summary : ClusterSummary) (modelsView : list ModelSummary) (onlineNodes : list Node)
  : list CapacityWorker :=
sort_slice ["workers"] capacity_worker_less (capacity_worker summary modelsView <$> onlineNodes).

(** One model of the catalog. *)
Definition capacity_model (cap : CapacitySummary) (summary : ModelSummary) : CapacitySummary :=
let plan := plan_in ["capacity"] summary in
let m := capacityModelFromPlacement summary plan in
if mpp_RunnableNow plan then
  cap <| cap_SingleWorkerRunnableModels := cap_SingleWorkerRunnableModels cap + 1 |>
      <| cap_SingleWorkerRunnable := cap_SingleWorkerRunnable cap ++ [m] |>
      <| cap_LargestSingleWorkerModel := larger_model (cap_LargestSingleWorkerModel cap) m |>
else if mpp_Feasible plan then
  cap <| cap_ShardedEstimateModels := cap_ShardedEstimateModels cap + 1 |>
      <| cap_ShardedEstimate := cap_ShardedEstimate cap ++ [m] |>
      <| cap_LargestShardedModel := larger_model (cap_LargestShardedModel cap) m |>
else
  cap <| cap_BlockedModels := cap_BlockedModels cap + 1 |>
      <| cap_Blocked := cap_Blocked cap ++ [m] |>
      <| cap_UnlockTargets := cap_UnlockTargets cap ++ [capacityTargetFromPlacement m plan] |>.

Definition clusterCapacity (summary : ClusterSummary) (modelsView : list ModelSummary) (onlineNodes : list Node)
  : CapacitySummary :=
let res := cs_Resources summary in
let cap := foldl capacity_model
  (mkCapacity (cs_WorkersOnline summary) (cpu_CoresAllowed (res_CPU res)) (mem_AllowedBytes (res_Memory res))
     (sto_AllowedBytes (res_Storage res)) (sto_FreeBytes (res_Storage res)) (cs_VRAMAllowedBytes summary)
     (Z.of_nat (length modelsView)) 0 0 0 zero_CapacityModel zero_CapacityModel [] [] [] [] []) modelsView in
let targets := sort_slice ["targets"] target_less (cap_UnlockTargets cap) in
cap <| cap_UnlockTargets := limited 5 targets |>
    <| cap_Workers := capacityWorkers summary modelsView onlineNodes |>.
End capacity.

(** ** Comparing snapshots *)

Definition uint64Delta (current baseline : Z) : Z :=
  if baseline <=? current then i64 (current - baseline) else i64 (- i64 (baseline - current)).

Definition newCapacityModels (baseline current : list CapacityModel) : list CapacityModel :=
  let seen : gset string := list_to_set (cm_ID <$> baseline) in
  filter (λ m, ¬ (cm_ID m = ""%string ∨ cm_ID m ∈ seen)) current.

Definition capacityDelta (baseline current : CapacitySnapshot) : CapacityDelta :=
  let b := snap_Capacity baseline in
  let c := snap_Capacity current in
  mkDelta (snap_ID baseline) (snap_ID current)
    (i64 (cap_WorkersOnline c - cap_WorkersOnline b))
    (i64 (cap_AllowedCPUCores c - cap_AllowedCPUCores b))
    (uint64Delta (cap_AllMemoryBytes c) (cap_AllMemoryBytes b))
    (uint64Delta (cap_AllStorageBytes c) (cap_AllStorageBytes b))
    (uint64Delta (cap_AllFreeStorageBytes c) (cap_AllFreeStorageBytes b))
    (uint64Delta (cap_AllVRAMBytes c) (cap_AllVRAMBytes b))
    (i64 (cap_SingleWorkerRunnableModels c - cap_SingleWorkerRunnableModels b))
    (i64 (cap_ShardedEstimateModels c - cap_ShardedEstimateModels b))
    (i64 (cap_BlockedModels c - cap_BlockedModels b))
    (newCapacityModels (cap_SingleWorkerRunnable b) (cap_SingleWorkerRunnable c))
    (newCapacityModels (cap_ShardedEstimate b) (cap_ShardedEstimate c)).

(** ** Lemmas *)

(** *** Readiness *)

Lemma count_zero {A} (P : A → Prop) `{∀ x, Decision (P x)} (l : list A) :
  Z.of_nat (length (filter P l)) = 0 ↔ ¬ Exists P l.
Proof.
  induction l as [|x l IH]; [by split; [intros _ []%Exists_nil|]|]. rewrite filter_cons, Exists_cons. case_decide; simpl.
  - split; [lia|naive_solver].
  - rewrite IH. naive_solver.
Qed.
Lemma count_full {A} (P : A → Prop) `{∀ x, Decision (P x)} (l : list A) :
  (Z.of_nat (length (filter P l)) <? Z.of_nat (length l)) = false ↔ Forall P l.
Proof.
  rewrite <- filter_all, Z.ltb_ge. pose proof (length_filter P l) as Hl. split; intros Hx; [|by rewrite Hx].
  apply Nat.le_antisymm; [exact Hl|lia].
Qed.

Definition check_levels : list string := ["ready"; "warn"; "blocked"]%string.

Section readiness.
Context `{World}.

Definition installed_model (s : ModelSummary) : Prop := sum_InstalledOn s ≠ [].
Definition generatable_model (s : ModelSummary) : Prop :=
sum_GeneratableOn s ≠ [] ∧ sum_Status s ≠ "deleting".

(** (functional). The readiness of the cluster: blocked exactly when no
  worker is ready to run a model, no model is installed or none can generate;
  ready exactly when moreover every online worker has a ready runtime, not
  fewer models can generate than are installed, no job is open, and no job
  failed or was canceled in the last day; and a warning otherwise. *)
Theorem readiness_status (nodes : list Node) (models : list ModelSummary) (jobs : list Job) :
let r := clusterReadiness nodes models jobs in
let cutoff := w_clock ["failures"] - 24 * 3600 * Second in
let blocked := ¬ Exists (λ n, nodeAnyRuntimeReady n = true) nodes ∨
  ¬ Exists installed_model models ∨ ¬ Exists generatable_model models in
(rdy_Status r = "blocked" ↔ blocked) ∧
(rdy_Status r = "ready" ↔ ¬ blocked ∧ Forall (λ n, nodeAnyRuntimeReady n = true) nodes ∧
   installedModelCount models ≤ generatableModelCount models ∧
   ¬ Exists (λ j, is_open j = true) jobs ∧ ¬ Exists (λ j, recently_failed cutoff j = true) jobs) ∧
rdy_Status r ∈ check_levels.
Proof.
cbv zeta. unfold clusterReadiness. cbv zeta. cbn -[checks_status recentFailureCount].
set (online := Z.of_nat (length nodes)).
match goal with |- context [checks_status "ready" ?cs] => set (checks := cs) end.
pose proof (count_zero (λ n, nodeAnyRuntimeReady n = true) nodes) as Hrt.
pose proof (count_full (λ n, nodeAnyRuntimeReady n = true) nodes) as Hall.
pose proof (count_zero installed_model models) as Hi.
pose proof (count_zero generatable_model models) as Hg.
pose proof (count_zero (λ j, is_open j = true) jobs) as Ho.
pose proof (count_zero (λ j, recently_failed (w_clock ["failures"] - 24 * 3600 * Second) j = true) jobs) as Hf.
fold (runtimeReadyWorkerCount nodes) in Hrt, Hall. fold online in Hall.
change (Z.of_nat (length (filter installed_model models))) with (installedModelCount models) in Hi.
change (Z.of_nat (length (filter generatable_model models))) with (generatableModelCount models) in Hg.
fold (activeJobCount jobs) in Ho. change (Z.of_nat (length (filter _ jobs))) with (recentFailureCount jobs) in Hf.
assert (0 ≤ runtimeReadyWorkerCount nodes ≤ online) as Hle.
{ unfold runtimeReadyWorkerCount, online. pose proof (length_filter (λ n, nodeAnyRuntimeReady n = true) nodes). lia. }
assert (checks_status "ready" checks =
  if (online =? 0) || (runtimeReadyWorkerCount nodes =? 0) || (installedModelCount models =? 0)
     || (generatableModelCount models =? 0) then "blocked"%string
  else if negb (runtimeReadyWorkerCount nodes <? online)
     && negb (generatableModelCount models <? installedModelCount models)
     && (activeJobCount jobs =? 0) && (recentFailureCount jobs =? 0) then "ready"%string else "warn"%string) as ->.
{ subst checks. unfold readinessWorkersCheck, readinessRuntimeCheck, readinessModelsCheck,
    readinessJobsCheck, readinessFailuresCheck. by repeat (case_match; try done). }
rewrite <- Hrt, <- Hi, <- Hg, <- Ho, <- Hf, <- Hall.
clear Hrt Hi Hg Ho Hf Hall. unfold check_levels.
destruct (_ || _) eqn:E1; [|destruct (_ && _) eqn:E2]; split_and!;
  try (split; [try done|try done]); try (intros; lia); set_solver.
Qed.
End readiness.

(** *** Capacity *)

Lemma runnable_now_iff `{World} (s : ModelSummary) :
  mpp_RunnableNow (modelPlacementPlan s) = true ↔ Exists (λ c, cap_Capable c = true) (sum_Capabilities s).
Proof.
  rewrite Exists_exists. unfold modelPlacementPlan. cbv zeta.
  destruct (filter _ (sum_Capabilities s)) as [|c l] eqn:E.
  - assert (∀ c, c ∈ sum_Capabilities s → cap_Capable c ≠ true) as Hn.
    { intros c Hc Hcap. assert (c ∈ filter (λ c, cap_Capable c = true) (sum_Capabilities s)) as Hin
        by by apply list_elem_of_filter. rewrite E in Hin. by apply not_elem_of_nil in Hin. }
    split; [|intros (c & Hc & ?); by destruct (Hn c)].
    destruct (sum_Capabilities s); [done|]. destruct (select_loop _ _ _ _ _) as [[??]?]. by case_match.
  - split; [|done]. intros _. exists c.
    assert (c ∈ filter (λ c, cap_Capable c = true) (sum_Capabilities s)) as Hin by (rewrite E; left).
    apply list_elem_of_filter in Hin. naive_solver.
Qed.

Section capacity_lemmas.
Context `{W : World}.

Definition plan_of (s : ModelSummary) : ModelPlacementPlan := plan_in ["capacity"] s.
Definition entry (s : ModelSummary) : CapacityModel := capacityModelFromPlacement s (plan_of s).
Definition target (s : ModelSummary) : CapacityTarget := capacityTargetFromPlacement (entry s) (plan_of s).

(** A model some worker can take; one only several workers together can take. *)
Definition single (s : ModelSummary) : Prop := mpp_RunnableNow (plan_of s) = true.
Definition sharded (s : ModelSummary) : Prop := ¬ single s ∧ mpp_Feasible (plan_of s) = true.
Definition no_placement (s : ModelSummary) : Prop := ¬ single s ∧ ¬ mpp_Feasible (plan_of s) = true.
#[local] Instance single_dec s : Decision (single s) := decide_rel (=) _ _.
#[local] Instance sharded_dec s : Decision (sharded s).
Proof. unfold sharded. apply _. Defined.
#[local] Instance no_placement_dec s : Decision (no_placement s).
Proof. unfold no_placement. apply _. Defined.

Lemma kind_cases s :
(single s ∧ ¬ sharded s ∧ ¬ no_placement s) ∨ (¬ single s ∧ sharded s ∧ ¬ no_placement s) ∨
(¬ single s ∧ ¬ sharded s ∧ no_placement s).
Proof. unfold no_placement, sharded. destruct (decide (single s)), (mpp_Feasible (plan_of s)); naive_solver. Qed.

Record capacity_of (cap cap' : CapacitySummary) (l : list ModelSummary) : Prop := {
co_catalog : cap_CatalogModels cap' = cap_CatalogModels cap;
co_single : cap_SingleWorkerRunnable cap' = cap_SingleWorkerRunnable cap ++ (entry <$> filter single l);
co_sharded : cap_ShardedEstimate cap' = cap_ShardedEstimate cap ++ (entry <$> filter sharded l);
co_blocked : cap_Blocked cap' = cap_Blocked cap ++ (entry <$> filter no_placement l);
co_targets : cap_UnlockTargets cap' = cap_UnlockTargets cap ++ (target <$> filter no_placement l);
co_nsingle : cap_SingleWorkerRunnableModels cap' = cap_SingleWorkerRunnableModels cap + Z.of_nat (length (filter single l));
co_nsharded : cap_ShardedEstimateModels cap' = cap_ShardedEstimateModels cap + Z.of_nat (length (filter sharded l));
co_nblocked : cap_BlockedModels cap' = cap_BlockedModels cap + Z.of_nat (length (filter no_placement l));
co_largest : cap_LargestSingleWorkerModel cap' =
  foldl larger_model (cap_LargestSingleWorkerModel cap) (entry <$> filter single l);
co_largest_sharded : cap_LargestShardedModel cap' =
  foldl larger_model (cap_LargestShardedModel cap) (entry <$> filter sharded l);
}.

Lemma capacity_loop (l : list ModelSummary) cap : capacity_of cap (foldl capacity_model cap l) l.
Proof.
revert cap. induction l as [|s l IH]; intros cap; cbn [foldl].
{ split; by rewrite ?app_nil_r, ?Z.add_0_r. }
destruct (IH (capacity_model cap s)) as [H1 H2 H3 H4 H5 H6 H7 H8 H9 H10].
assert (capacity_model cap s =
  let m := entry s in
  if decide (single s) then
    cap <| cap_SingleWorkerRunnableModels := cap_SingleWorkerRunnableModels cap + 1 |>
        <| cap_SingleWorkerRunnable := cap_SingleWorkerRunnable cap ++ [m] |>
        <| cap_LargestSingleWorkerModel := larger_model (cap_LargestSingleWorkerModel cap) m |>
  else if decide (sharded s) then
    cap <| cap_ShardedEstimateModels := cap_ShardedEstimateModels cap + 1 |>
        <| cap_ShardedEstimate := cap_ShardedEstimate cap ++ [m] |>
        <| cap_LargestShardedModel := larger_model (cap_LargestShardedModel cap) m |>
  else cap <| cap_BlockedModels := cap_BlockedModels cap + 1 |>
        <| cap_Blocked := cap_Blocked cap ++ [m] |>
        <| cap_UnlockTargets := cap_UnlockTargets cap ++ [target s] |>) as Hstep.
{ unfold capacity_model. cbv zeta. fold (plan_of s) (entry s) (target s).
  destruct (mpp_RunnableNow (plan_of s)) eqn:E1; [by rewrite decide_True|].
  rewrite (decide_False (P := single s)) by (unfold single; congruence).
  destruct (mpp_Feasible (plan_of s)) eqn:E2.
  - rewrite decide_True; [done|]. unfold sharded, single. by rewrite E1.
  - rewrite decide_False; [done|]. unfold sharded. by rewrite E2; intros []. }
rewrite Hstep in *. cbv zeta in *. clear Hstep IH.
destruct (kind_cases s) as [(Hs & Hh & Hp)|[(Hs & Hh & Hp)|(Hs & Hh & Hp)]];
  repeat first [rewrite decide_True in * by done|rewrite decide_False in * by done];
  split; rewrite ?H1, ?H2, ?H3, ?H4, ?H5, ?H6, ?H7, ?H8, ?H9, ?H10;
  repeat first [rewrite (filter_cons_True single) by done|rewrite (filter_cons_False single) by done];
  repeat first [rewrite (filter_cons_True sharded) by done|rewrite (filter_cons_False sharded) by done];
  repeat first [rewrite (filter_cons_True no_placement) by done|rewrite (filter_cons_False no_placement) by done];
  cbn; rewrite <- ?app_assoc; done || lia.
Qed.

Lemma larger_model_max l m0 :
let m := foldl larger_model m0 l in
Forall (λ x, cm_RequiredMemory x ≤ cm_RequiredMemory m) (m0 :: l) ∧ (m = m0 ∨ m ∈ l).
Proof.
cbv zeta. revert m0. induction l as [|x l IH]; intros m0; simpl; [by repeat constructor; try lia; left|].
destruct (IH (larger_model m0 x)) as [[H1 H2]%Forall_cons H3].
unfold larger_model in *. destruct (Z.ltb_spec (cm_RequiredMemory m0) (cm_RequiredMemory x)).
- split; [repeat constructor; [lia|lia|done]|]. right. set_solver.
- split; [repeat constructor; [lia|lia|done]|]. set_solver.
Qed.

(** (functional). The capacity report sorts every model of the catalog into
  exactly one of three lists, in catalog order, and counts them: the models
  some worker can take, those that only fit several workers together, and the
  blocked ones.  The largest runnable model is one of the first list with the
  most memory; the unlock targets are the blocked models with the smallest
  shortfalls, at most five, smallest first. *)
Theorem capacity_partitions_catalog (summary : ClusterSummary) (models : list ModelSummary) (nodes : list Node) :
let cap := clusterCapacity summary models nodes in
cap_SingleWorkerRunnable cap = entry <$> filter single models ∧
cap_ShardedEstimate cap = entry <$> filter sharded models ∧
cap_Blocked cap = entry <$> filter no_placement models ∧
(∀ s, single s ↔ Exists (λ c, cap_Capable c = true) (sum_Capabilities s)) ∧
cap_SingleWorkerRunnableModels cap = Z.of_nat (length (cap_SingleWorkerRunnable cap)) ∧
cap_ShardedEstimateModels cap = Z.of_nat (length (cap_ShardedEstimate cap)) ∧
cap_BlockedModels cap = Z.of_nat (length (cap_Blocked cap)) ∧
cap_SingleWorkerRunnableModels cap + cap_ShardedEstimateModels cap + cap_BlockedModels cap
  = cap_CatalogModels cap ∧
Forall (λ m, cm_RequiredMemory m ≤ cm_RequiredMemory (cap_LargestSingleWorkerModel cap))
  (cap_SingleWorkerRunnable cap) ∧
(cap_LargestSingleWorkerModel cap = zero_CapacityModel ∨
 cap_LargestSingleWorkerModel cap ∈ cap_SingleWorkerRunnable cap) ∧
(length (cap_UnlockTargets cap) = length (cap_Blocked cap) `min` 5)%nat ∧
∃ rest, cap_UnlockTargets cap ++ rest ≡ₚ target <$> filter no_placement models ∧
  StronglySorted (not_after target_less) (cap_UnlockTargets cap ++ rest).
Proof.
cbv zeta. unfold clusterCapacity. cbv zeta.
match goal with |- context [foldl capacity_model ?c0 models] =>
  pose proof (capacity_loop models c0) as [H1 H2 H3 H4 H5 H6 H7 H8 H9 H10] end.
cbn in *. rewrite H1, H2, H3, H4, H5, H6, H7, H8, H9. rewrite !length_fmap.
destruct (larger_model_max (entry <$> filter single models) zero_CapacityModel) as [[_ Hmax]%Forall_cons Hin].
set (ts := sort_slice ["targets"] target_less (target <$> filter no_placement models)).
assert (ts ≡ₚ target <$> filter no_placement models) as Hts by apply sort_slice_perm.
split_and!; try done.
- intros s. apply runnable_now_iff.
- assert (length (filter single models) + length (filter sharded models) + length (filter no_placement models)
    = length models)%nat; [|lia].
  clear. induction models as [|s l IH]; [done|].
  destruct (kind_cases s) as [(? & ? & ?)|[(? & ? & ?)|(? & ? & ?)]];
    repeat first [rewrite filter_cons_True by done|rewrite filter_cons_False by done]; simpl; lia.
- assert (length ts = length (filter no_placement models)) as Hl by by rewrite Hts, length_fmap.
  rewrite <- Hl. unfold limited. change (0 <? 5) with true. cbn [andb].
  destruct (Z.ltb_spec 5 (Z.of_nat (length ts))); [|lia].
  rewrite length_take. lia.
- destruct (limited_prefix 5 ts) as [rest Hrest]. exists rest. rewrite <- Hrest.
  split; [done|]. apply sort_slice_sorted. unfold target_less. apply _.
Qed.
End capacity_lemmas.

(** *** Deltas *)

Lemma uint64Delta_i64 current baseline : uint64Delta current baseline = i64 (current - baseline).
Proof.
  unfold uint64Delta. destruct (Z.leb_spec baseline current); [done|].
  unfold i64. set (d := baseline - current). replace (current - baseline) with (- d) by lia.
  f_equal. rewrite (Z.mod_eq (d + 2^63) (2^64)) by lia.
  replace (- (d + 2 ^ 63 - 2 ^ 64 * ((d + 2 ^ 63) / 2 ^ 64) - 2 ^ 63) + 2 ^ 63)
    with (- d + 2^63 + (d + 2^63) / 2^64 * 2^64) by lia.
  apply Z.mod_add. lia.
Qed.

(** (bounds). The difference of two byte counts in a capacity comparison is
    exact whenever it fits a signed 64-bit integer; otherwise it wraps, but
    adding it to the baseline (modulo 2^64) always gives the current value. *)
Theorem capacity_delta_restores (baseline current : CapacitySnapshot) :
  let b := snap_Capacity baseline in
  let c := snap_Capacity current in
  let d := capacityDelta baseline current in
  Forall u64_ok [cap_AllMemoryBytes b; cap_AllStorageBytes b; cap_AllFreeStorageBytes b; cap_AllVRAMBytes b;
                 cap_AllMemoryBytes c; cap_AllStorageBytes c; cap_AllFreeStorageBytes c; cap_AllVRAMBytes c] →
  Forall (λ '(delta, before, after),
      u64 (before + delta) = after ∧ - 2^63 ≤ delta < 2^63 ∧
      (- 2^63 ≤ after - before < 2^63 → delta = after - before))
    [(cd_AllowedMemoryBytesDelta d, cap_AllMemoryBytes b, cap_AllMemoryBytes c);
     (cd_AllowedStorageBytesDelta d, cap_AllStorageBytes b, cap_AllStorageBytes c);
     (cd_FreeStorageBytesDelta d, cap_AllFreeStorageBytes b, cap_AllFreeStorageBytes c);
     (cd_AllowedVRAMBytesDelta d, cap_AllVRAMBytes b, cap_AllVRAMBytes c)].
Proof.
  cbv zeta. rewrite !Forall_cons. intros (? & ? & ? & ? & ? & ? & ? & ? & _).
  assert (∀ b c, u64_ok c → u64 (b + uint64Delta c b) = c ∧ - 2^63 ≤ uint64Delta c b < 2^63 ∧
    (- 2^63 ≤ c - b < 2^63 → uint64Delta c b = c - b)) as Hd.
  { intros b c Hc. rewrite uint64Delta_i64. split_and!; [|apply i64_range..|apply i64_small].
    rewrite <- (u64_small c) at 2 by done. unfold u64, i64.
    replace (b + ((c - b + 2 ^ 63) mod 2 ^ 64 - 2 ^ 63)) with ((c - b + 2^63) mod 2^64 + (b - 2^63)) by lia.
    rewrite Zplus_mod_idemp_l. f_equal. lia. }
  split_and!; [by apply Hd..|done].
Qed.

Definition demo_snapshot (memory : Z) : CapacitySnapshot :=
  mkSnapshot "s" "" 0 (mkClusterSummary 0 0 0 0 0 0 f_zero zero_snapshot)
    (mkCapacity 0 0 memory 0 0 0 0 0 0 0 zero_CapacityModel zero_CapacityModel [] [] [] [] []).
Lemma capacity_delta_restores_witness :
  u64 (10 + cd_AllowedMemoryBytesDelta (capacityDelta (demo_snapshot 10) (demo_snapshot 4))) = 4.
Proof.
  assert (Forall u64_ok [10; 0; 0; 0; 4; 0; 0; 0]) as Hok
    by (repeat constructor; unfold u64_ok; lia).
  pose proof (Forall_inv (capacity_delta_restores (demo_snapshot 10) (demo_snapshot 4) Hok)) as [H _]. exact H.
Defined.

(** A drop of more than 2^63 bytes is reported as an increase. *)
Example delta_wraps :
  cd_AllowedMemoryBytesDelta (capacityDelta (demo_snapshot (2^63 + 1)) (demo_snapshot 0)) = 2^63 - 1.
Proof. by vm_compute. Qed.
