(* ===== verification/Transport.v ===== *)
(** * Activation streams and the logical stage runtime

    [internal/transport/transport.go]: frames, the transport interface and the
    in-memory transport, a bounded channel per stream;
    [internal/runtimes/distributed_stage.go]: the logical stage runtime, which
    checks stage requests and sends the activation of a decode step downstream. *)

From S2P Require Import Prelude GoString World Cdip Types Models DistributedPlan.

(** ** Frames *)

Record ActivationFrame := mkActivationFrame {
  frame_Header : ActivationChunk;
  frame_Payload : string;
}.

Inductive transport_error :=
  | InvalidFrame (e : Cdip.error)
  | PayloadSizeMismatch (header actual : Z)
  | ParentRequired
  | StageRequired
  | ContextDone
  | EndOfStream
  (* of the HTTP transport *)
  | ManagerURLRequired
  | StreamMismatch
  | CallFailed
  | RelayFailed (status : Z)
  | UndecodableFrame.

Definition payload_len (payload : string) : Z := Z.of_nat (String.length payload).

Definition ActivationFrame_Validate (f : ActivationFrame) : option transport_error :=
  match ActivationChunk_Validate (frame_Header f) with
  | Some e => Some (InvalidFrame e)
  | None =>
      first_error [(negb (payload_len (frame_Payload f) =? chunk_PayloadBytes (frame_Header f)),
                    PayloadSizeMismatch (chunk_PayloadBytes (frame_Header f)) (payload_len (frame_Payload f)))]
  end.

Record StreamID := mkStreamID { str_ParentJobID : string; str_StageJobID : string }.
#[export] Instance StreamID_eq_dec : EqDecision StreamID.
Proof. solve_decision. Defined.
#[export] Instance StreamID_countable : Countable StreamID.
Proof.
  refine (inj_countable' (λ s, (str_ParentJobID s, str_StageJobID s)) (λ '(p, s), mkStreamID p s) _).
  by intros [].
Defined.

Definition validateStreamID (stream : StreamID) : option transport_error :=
  first_error [(str_eqb (str_ParentJobID stream) "", ParentRequired);
               (str_eqb (str_StageJobID stream) "", StageRequired)].

(** ** Contexts and outcomes

    A call that waits on a channel returns, waits forever, or panics.  A context
    says whether it is done when the call begins, whether it will be done while
    the call waits (a deadline), and, since [select] picks any ready case,
    whether it is picked when the channel is ready too. *)

Record Context := mkContext { ctx_done : bool; ctx_deadline : bool; ctx_pick : bool }.
(** [context.Background()] *)
Definition Background : Context := mkContext false false false.

Inductive outcome (A : Type) : Type :=
  | Returned (a : A)
  | Blocked
  | Panicked.
Arguments Returned {A} a.
Arguments Blocked {A}.
Arguments Panicked {A}.

(** ** The transport interface *)

Class ActivationTransport (T : Type) := {
  Writer : Type;
  Reader : Type;
  OpenWriter : Context → T → StreamID → string → T * result transport_error Writer;
  OpenReader : Context → T → StreamID → T * result transport_error Reader;
  Send : Context → T → Writer → ActivationFrame → T * outcome (option transport_error);
  Receive : Context → T → Reader → T * outcome (result transport_error ActivationFrame);
}.

(** ** The in-memory transport *)

(** A Go channel: capacity, the frames in it, oldest first, and whether it is
    closed. *)
Record Channel := mkChannel {
  ch_cap : nat;
  ch_queue : list ActivationFrame;
  ch_closed : bool;
}.

(* field setters *)
#[export] Instance set_ch_cap : Setter ch_cap := λ f r, mkChannel (f (ch_cap r)) (ch_queue r) (ch_closed r).
#[export] Instance set_ch_queue : Setter ch_queue := λ f r, mkChannel (ch_cap r) (f (ch_queue r)) (ch_closed r).
#[export] Instance set_ch_closed : Setter ch_closed := λ f r, mkChannel (ch_cap r) (ch_queue r) (f (ch_closed r)).

Record MemoryActivationTransport := mkMemoryActivationTransport {
  mem_buffer : nat;
  mem_streams : gmap StreamID Channel;
}.

(* field setters *)
#[export] Instance set_mem_buffer : Setter mem_buffer := λ f r, mkMemoryActivationTransport (f (mem_buffer r)) (mem_streams r).
#[export] Instance set_mem_streams : Setter mem_streams := λ f r, mkMemoryActivationTransport (mem_buffer r) (f (mem_streams r)).

Definition NewMemoryActivationTransport (buffer : Z) : MemoryActivationTransport :=
  mkMemoryActivationTransport (Z.to_nat (if buffer <? 1 then 1 else buffer)) ∅.

(** A writer and a reader hold the channel of their stream, which the transport
    never drops; a writer also remembers whether it closed the channel. *)
Record memoryActivationWriter := mkWriter { wr_stream : StreamID; wr_once : bool }.
Record memoryActivationReader := mkReader { rd_stream : StreamID }.

(** The channel of a stream, made on first use. *)
Definition mem_stream (ctx : Context) (t : MemoryActivationTransport) (stream : StreamID)
    : MemoryActivationTransport * result transport_error StreamID :=
  match validateStreamID stream with
  | Some e => (t, Err e)
  | None =>
      if ctx_done ctx then (t, Err ContextDone) else
      match mem_streams t !! stream with
      | Some _ => (t, Ok stream)
      | None => (t <| mem_streams := <[stream := mkChannel (mem_buffer t) [] false]> (mem_streams t) |>, Ok stream)
      end
  end.

Definition mem_OpenWriter (ctx : Context) (t : MemoryActivationTransport) (stream : StreamID) (_ : string)
    : MemoryActivationTransport * result transport_error memoryActivationWriter :=
  let '(t, ch) := mem_stream ctx t stream in (t, ch ← ch; Ok (mkWriter ch false)).
Definition mem_OpenReader (ctx : Context) (t : MemoryActivationTransport) (stream : StreamID)
    : MemoryActivationTransport * result transport_error memoryActivationReader :=
  let '(t, ch) := mem_stream ctx t stream in (t, ch ← ch; Ok (mkReader ch)).

(** [select { case <-ctx.Done(): ...; case <channel operation>: ... }] *)
Definition select_done (ctx : Context) (ready : bool) : option bool :=
  if ctx_done ctx && ready then Some (ctx_pick ctx)
  else if ready then Some false
  else if ctx_done ctx || ctx_deadline ctx then Some true
  else None.

Definition mem_Send (ctx : Context) (t : MemoryActivationTransport) (w : memoryActivationWriter)
    (frame : ActivationFrame) : MemoryActivationTransport * outcome (option transport_error) :=
  match ActivationFrame_Validate frame with
  | Some e => (t, Returned (Some e))
  | None =>
      match mem_streams t !! wr_stream w with
      | None => (t, Blocked) (* a writer's channel exists *)
      | Some ch =>
          let ready := ch_closed ch || (length (ch_queue ch) <? ch_cap ch)%nat in
          match select_done ctx ready with
          | None => (t, Blocked)
          | Some true => (t, Returned (Some ContextDone))
          | Some false =>
              if ch_closed ch then (t, Panicked)
              else (t <| mem_streams := <[wr_stream w := ch <| ch_queue := ch_queue ch ++ [frame] |> ]> (mem_streams t) |>,
                    Returned None)
          end
      end
  end.

(** [Close]: once per writer; closing a closed channel panics. *)
Definition mem_Close (t : MemoryActivationTransport) (w : memoryActivationWriter)
    : MemoryActivationTransport * memoryActivationWriter * outcome (option transport_error) :=
  if wr_once w then (t, w, Returned None) else
  let w := mkWriter (wr_stream w) true in
  match mem_streams t !! wr_stream w with
  | None => (t, w, Panicked)
  | Some ch =>
      if ch_closed ch then (t, w, Panicked)
      else (t <| mem_streams := <[wr_stream w := ch <| ch_closed := true |> ]> (mem_streams t) |>, w, Returned None)
  end.

Definition mem_Receive (ctx : Context) (t : MemoryActivationTransport) (r : memoryActivationReader)
    : MemoryActivationTransport * outcome (result transport_error ActivationFrame) :=
  match mem_streams t !! rd_stream r with
  | None => (t, Blocked) (* a reader's channel exists *)
  | Some ch =>
      let ready := ch_closed ch || (0 <? length (ch_queue ch))%nat in
      match select_done ctx ready with
      | None => (t, Blocked)
      | Some true => (t, Returned (Err ContextDone))
      | Some false =>
          match ch_queue ch with
          | [] => (t, Returned (Err EndOfStream))
          | frame :: rest =>
              (t <| mem_streams := <[rd_stream r := ch <| ch_queue := rest |> ]> (mem_streams t) |>, Returned (Ok frame))
          end
      end
  end.

#[export] Instance memory_transport : ActivationTransport MemoryActivationTransport := {|
  OpenWriter := mem_OpenWriter; OpenReader := mem_OpenReader; Send := mem_Send; Receive := mem_Receive |}.

(** ** The logical stage runtime *)

Record StagePrepareRequest := mkStagePrepareRequest {
  spr_ParentJobID : string;
  spr_StageJobID : string;
  spr_ModelID : string;
  spr_Stage : DistributedStageInput;
  spr_Shard : ModelShard;
  spr_UpstreamNodeID : string;
  spr_DownstreamNodeID : string;
}.

Record StagePrepareResult := mkStagePrepareResult {
  sprr_Kind : string;
  sprr_ParentJobID : string;
  sprr_StageIndex : Z;
  sprr_ModelID : string;
  sprr_Runtime : string;
  sprr_LayerStart : Z;
  sprr_LayerEnd : Z;
  sprr_UpstreamNodeID : string;
  sprr_DownstreamNodeID : string;
  sprr_Materialization : ShardMaterialization;
  sprr_SourceArtifact : string;
  sprr_TargetArtifact : string;
  sprr_ActivationProtocol : string;
}.

(** [scr_Transport] is the transport when one is set; the state of the transport
    itself is threaded through the calls. *)
Record StageCommandRequest := mkStageCommandRequest {
  scr_ParentJobID : string;
  scr_StageJobID : string;
  scr_StageIndex : Z;
  scr_Step : Z;
  scr_HasTransport : bool;
  scr_DownstreamNodeID : string;
  scr_Payload : string;
  scr_Encoding : string;
  scr_Shape : list Z;
  scr_DType : string;
  scr_Checksum : string;
}.

Record StageCommandResult := mkStageCommandResult {
  scrr_Kind : string;
  scrr_ParentJobID : string;
  scrr_StageJobID : string;
  scrr_StageIndex : Z;
  scrr_Step : Z;
  scrr_Frame : option ActivationChunk;
  scrr_Bytes : Z;
}.

(* field setters *)
#[export] Instance set_scrr_Kind : Setter scrr_Kind := λ f r, mkStageCommandResult (f (scrr_Kind r)) (scrr_ParentJobID r) (scrr_StageJobID r) (scrr_StageIndex r) (scrr_Step r) (scrr_Frame r) (scrr_Bytes r).
#[export] Instance set_scrr_ParentJobID : Setter scrr_ParentJobID := λ f r, mkStageCommandResult (scrr_Kind r) (f (scrr_ParentJobID r)) (scrr_StageJobID r) (scrr_StageIndex r) (scrr_Step r) (scrr_Frame r) (scrr_Bytes r).
#[export] Instance set_scrr_StageJobID : Setter scrr_StageJobID := λ f r, mkStageCommandResult (scrr_Kind r) (scrr_ParentJobID r) (f (scrr_StageJobID r)) (scrr_StageIndex r) (scrr_Step r) (scrr_Frame r) (scrr_Bytes r).
#[export] Instance set_scrr_StageIndex : Setter scrr_StageIndex := λ f r, mkStageCommandResult (scrr_Kind r) (scrr_ParentJobID r) (scrr_StageJobID r) (f (scrr_StageIndex r)) (scrr_Step r) (scrr_Frame r) (scrr_Bytes r).
#[export] Instance set_scrr_Step : Setter scrr_Step := λ f r, mkStageCommandResult (scrr_Kind r) (scrr_ParentJobID r) (scrr_StageJobID r) (scrr_StageIndex r) (f (scrr_Step r)) (scrr_Frame r) (scrr_Bytes r).
#[export] Instance set_scrr_Frame : Setter scrr_Frame := λ f r, mkStageCommandResult (scrr_Kind r) (scrr_ParentJobID r) (scrr_StageJobID r) (scrr_StageIndex r) (scrr_Step r) (f (scrr_Frame r)) (scrr_Bytes r).
#[export] Instance set_scrr_Bytes : Setter scrr_Bytes := λ f r, mkStageCommandResult (scrr_Kind r) (scrr_ParentJobID r) (scrr_StageJobID r) (scrr_StageIndex r) (scrr_Step r) (scrr_Frame r) (f (scrr_Bytes r)).

Inductive stage_error :=
  | StageContextDone
  | StageParentRequired
  | PrepareModelRequired
  | StageJobRequired
  | StageRuntimeRequired
  | StageShardMismatch
  | UnsupportedMaterialization (m : ShardMaterialization)
  | InvalidPrepareContract (e : Cdip.error)
  | PayloadRequired
  | StageTransport (e : transport_error).

Record LogicalStageRuntime := mkLogicalStageRuntime { lsr_Runtime : string }.
Definition NewLogicalStageRuntime (runtimeName : string) : LogicalStageRuntime :=
  mkLogicalStageRuntime (TrimSpace runtimeName).

Definition LogicalStageCapabilities : list string :=
  [CapabilityPipelineStagePrepare; CapabilityPipelinePrefill; CapabilityPipelineDecode;
   ActivationStreamV1; CapabilityLogicalStageRuntime].

Definition PrepareStage (r : LogicalStageRuntime) (ctx : Context) (req : StagePrepareRequest)
    : result stage_error StagePrepareResult :=
  let shard := spr_Shard req in
  check (first_error [
    (ctx_done ctx, StageContextDone);
    (blank (spr_ParentJobID req), StageParentRequired);
    (blank (spr_ModelID req), PrepareModelRequired);
    (blank (lsr_Runtime r), StageRuntimeRequired);
    (negb (shard_matches (spr_Stage req) shard), StageShardMismatch);
    (negb (bool_decide (shard_Materialization shard = ShardLogicalLayers)),
       UnsupportedMaterialization (shard_Materialization shard))])
  (let msg := mkStagePrepare (NewEnvelope MessageStagePrepare) (spr_ParentJobID req)
                (if blank (spr_StageJobID req) then "worker-local-stage-prepare" else spr_StageJobID req)
                (spr_ModelID req) (shard_Stage shard) (spr_UpstreamNodeID req) (spr_DownstreamNodeID req) in
   match StagePrepare_Validate msg with
   | Some e => Err (InvalidPrepareContract e)
   | None =>
       Ok (mkStagePrepareResult "cdip.stage_ready" (spr_ParentJobID req) (dsi_Index (spr_Stage req))
             (spr_ModelID req) (lsr_Runtime r) (stage_LayerStart (shard_Stage shard))
             (stage_LayerEnd (shard_Stage shard)) (spr_UpstreamNodeID req) (spr_DownstreamNodeID req)
             (shard_Materialization shard) (shard_SourceArtifact shard) (shard_TargetArtifact shard)
             ActivationStreamV1)
   end).

Definition stageCommandResult (ctx : Context) (kind : string) (req : StageCommandRequest)
    : result stage_error StageCommandResult :=
  check (first_error [
    (ctx_done ctx, StageContextDone);
    (blank (scr_ParentJobID req), StageParentRequired);
    (blank (scr_StageJobID req), StageJobRequired)])
  (Ok (mkStageCommandResult kind (scr_ParentJobID req) (scr_StageJobID req) (scr_StageIndex req) (scr_Step req) None 0)).

Definition PrefillStage (ctx : Context) (req : StageCommandRequest) : result stage_error StageCommandResult :=
  stageCommandResult ctx "cdip.stage_prefill" req.
Definition CompleteStage (ctx : Context) (req : StageCommandRequest) : result stage_error StageCommandResult :=
  stageCommandResult ctx "cdip.stage_complete" req.
Definition AbortStage (ctx : Context) (req : StageCommandRequest) : result stage_error StageCommandResult :=
  stageCommandResult ctx "cdip.stage_abort" req.

(** The frame of a decode step. *)
Definition decode_frame (req : StageCommandRequest) : ActivationFrame :=
  let encoding := TrimSpace (scr_Encoding req) in
  let dtype := TrimSpace (scr_DType req) in
  mkActivationFrame
    (mkActivationChunk (NewEnvelope MessageActivationChunk) (scr_ParentJobID req) (scr_StageJobID req)
       (scr_Step req) "application/vnd.cmesh.activation+binary"
       (if str_eqb encoding "" then "mock" else encoding)
       (match scr_Shape req with [] => [1; 1; payload_len (scr_Payload req)] | shape => shape end)
       (if str_eqb dtype "" then "u8" else dtype)
       (payload_len (scr_Payload req)) (scr_Checksum req))
    (scr_Payload req).

Section decode.
Context {T} `{!ActivationTransport T}.

Definition DecodeStage (ctx : Context) (t : T) (req : StageCommandRequest)
    : T * outcome (result stage_error StageCommandResult) :=
  match stageCommandResult ctx "cdip.stage_decode" req with
  | Err e => (t, Returned (Err e))
  | Ok res =>
      if negb (scr_HasTransport req) || blank (scr_DownstreamNodeID req) then (t, Returned (Ok res))
      else if str_eqb (scr_Payload req) "" then (t, Returned (Err PayloadRequired))
      else
        let frame := decode_frame req in
        let stream := mkStreamID (scr_ParentJobID req) (scr_StageJobID req) in
        match OpenWriter ctx t stream (scr_DownstreamNodeID req) with
        | (t, Err e) => (t, Returned (Err (StageTransport e)))
        | (t, Ok writer) =>
            match Send ctx t writer frame with
            | (t, Blocked) => (t, Blocked)
            | (t, Panicked) => (t, Panicked)
            | (t, Returned (Some e)) => (t, Returned (Err (StageTransport e)))
            | (t, Returned None) =>
                (t, Returned (Ok (res <| scrr_Frame := Some (frame_Header frame) |>
                                      <| scrr_Bytes := payload_len (frame_Payload frame) |>)))
            end
        end
  end.
End decode.

(** ** Streams are bounded first-in-first-out queues *)

(** The operations of the clients of a transport. *)
Inductive mem_op :=
  | OpOpenWriter (ctx : Context) (stream : StreamID) (dest : string)
  | OpOpenReader (ctx : Context) (stream : StreamID)
  | OpSend (ctx : Context) (w : memoryActivationWriter) (frame : ActivationFrame)
  | OpReceive (ctx : Context) (r : memoryActivationReader)
  | OpClose (w : memoryActivationWriter).

Inductive mem_event :=
  | Accepted (stream : StreamID) (frame : ActivationFrame)
  | Delivered (stream : StreamID) (frame : ActivationFrame)
  | Quiet.

Definition mem_exec (t : MemoryActivationTransport) (op : mem_op) : MemoryActivationTransport * mem_event :=
  match op with
  | OpOpenWriter ctx stream dest => ((mem_OpenWriter ctx t stream dest).1, Quiet)
  | OpOpenReader ctx stream => ((mem_OpenReader ctx t stream).1, Quiet)
  | OpSend ctx w frame =>
      let '(t, res) := mem_Send ctx t w frame in
      (t, match res with Returned None => Accepted (wr_stream w) frame | _ => Quiet end)
  | OpReceive ctx r =>
      let '(t, res) := mem_Receive ctx t r in
      (t, match res with Returned (Ok frame) => Delivered (rd_stream r) frame | _ => Quiet end)
  | OpClose w => ((mem_Close t w).1.1, Quiet)
  end.

Fixpoint mem_run (t : MemoryActivationTransport) (ops : list mem_op) : MemoryActivationTransport * list mem_event :=
  match ops with
  | [] => (t, [])
  | op :: ops =>
      let '(t, ev) := mem_exec t op in
      let '(t, evs) := mem_run t ops in (t, ev :: evs)
  end.

Definition accepted (stream : StreamID) (ev : mem_event) : option ActivationFrame :=
  match ev with Accepted s f => if bool_decide (s = stream) then Some f else None | _ => None end.
Definition delivered (stream : StreamID) (ev : mem_event) : option ActivationFrame :=
  match ev with Delivered s f => if bool_decide (s = stream) then Some f else None | _ => None end.
Definition queued (t : MemoryActivationTransport) (stream : StreamID) : list ActivationFrame :=
  match mem_streams t !! stream with Some ch => ch_queue ch | None => [] end.

(** Every channel has the transport's capacity, is within it, and holds valid
    frames. *)
Definition mem_wf (t : MemoryActivationTransport) : Prop :=
  (1 ≤ mem_buffer t)%nat ∧
  map_Forall (λ _ ch, ch_cap ch = mem_buffer t ∧ (length (ch_queue ch) ≤ ch_cap ch)%nat ∧
                Forall (λ f, ActivationFrame_Validate f = None) (ch_queue ch)) (mem_streams t).

Lemma queued_insert t stream ch s :
  queued (t <| mem_streams := <[stream := ch]> (mem_streams t) |>) s =
  if bool_decide (s = stream) then ch_queue ch else queued t s.
Proof.
  unfold queued. simpl. case_bool_decide as Hs; [by subst; rewrite lookup_insert_eq|by rewrite lookup_insert_ne].
Qed.

Lemma mem_wf_insert t stream ch :
  mem_wf t → ch_cap ch = mem_buffer t → (length (ch_queue ch) ≤ ch_cap ch)%nat →
  Forall (λ f, ActivationFrame_Validate f = None) (ch_queue ch) →
  mem_wf (t <| mem_streams := <[stream := ch]> (mem_streams t) |>).
Proof. intros [Hb Hwf] ???. split; [done|]. simpl. by apply map_Forall_insert_2. Qed.

Lemma mem_stream_step ctx t stream :
  mem_wf t → mem_wf (mem_stream ctx t stream).1 ∧ ∀ s, queued (mem_stream ctx t stream).1 s = queued t s.
Proof.
  intros Hwf. unfold mem_stream. destruct (validateStreamID _); [done|]. destruct (ctx_done ctx); [done|].
  destruct (mem_streams t !! stream) eqn:E; [done|]. cbn [fst]. split.
  - apply mem_wf_insert; simpl; [done|done|lia|constructor].
  - intros s. rewrite queued_insert. case_bool_decide as Hs; [|done]. subst. unfold queued. by rewrite E.
Qed.

(** One operation: what it does to the queue of a stream. *)
Lemma mem_exec_step t op :
  mem_wf t →
  let '(t', ev) := mem_exec t op in
  mem_wf t' ∧ mem_buffer t' = mem_buffer t ∧
  ∀ s, queued t s ++ option_list (accepted s ev) = option_list (delivered s ev) ++ queued t' s.
Proof.
  intros Hwf. assert (∀ ctx stream, mem_buffer (mem_stream ctx t stream).1 = mem_buffer t) as Hbuf.
  { intros. unfold mem_stream. by repeat case_match. }
  destruct op as [ctx stream dest|ctx stream|ctx w frame|ctx r|w]; cbn [mem_exec].
  1,2: unfold mem_OpenWriter, mem_OpenReader; destruct (mem_stream_step ctx t stream Hwf) as [Hw Hq];
    specialize (Hbuf ctx stream); destruct (mem_stream ctx t stream) as [t' ch]; simpl in *;
    (split_and!; [done..|]); intros s; by rewrite Hq, app_nil_r.
  - unfold mem_Send. destruct (ActivationFrame_Validate frame) eqn:Ev; [split_and!; [done..|]; intros; by rewrite app_nil_r|].
    destruct (mem_streams t !! wr_stream w) as [ch|] eqn:Ech; [|split_and!; [done..|]; intros; by rewrite app_nil_r].
    destruct (proj2 Hwf _ _ Ech) as (Hc & Hl & Hv).
    destruct (select_done _ _) as [[]|] eqn:Es; try (split_and!; [done..|]; intros; by rewrite app_nil_r).
    destruct (ch_closed ch) eqn:Ecl; [split_and!; [done..|]; intros; by rewrite app_nil_r|].
    assert ((length (ch_queue ch) <? ch_cap ch)%nat = true) as Hroom%Nat.ltb_lt.
    { simpl in Es. destruct (_ <? _)%nat; [done|]. unfold select_done in Es. rewrite andb_false_r in Es.
      by destruct (_ || _). }
    split_and!; [apply mem_wf_insert; simpl; try done|done|].
    + rewrite length_app. simpl. lia.
    + apply Forall_app. by repeat constructor.
    + intros s. rewrite queued_insert. simpl. case_bool_decide as Hs; case_bool_decide as Hs'; try congruence; [|by rewrite app_nil_r].
      subst. unfold queued. by rewrite Ech.
  - unfold mem_Receive.
    destruct (mem_streams t !! rd_stream r) as [ch|] eqn:Ech; [|split_and!; [done..|]; intros; by rewrite app_nil_r].
    destruct (proj2 Hwf _ _ Ech) as (Hc & Hl & Hv).
    destruct (select_done _ _) as [[]|]; try (split_and!; [done..|]; intros; by rewrite app_nil_r).
    destruct (ch_queue ch) as [|f rest] eqn:Eq; [split_and!; [done..|]; intros; by rewrite app_nil_r|].
    inversion Hv; subst. split_and!; [apply mem_wf_insert; simpl in *; try done; lia|done|].
    intros s. rewrite queued_insert. simpl. rewrite app_nil_r.
    case_bool_decide as Hs; case_bool_decide as Hs'; try congruence; [|done]. subst. unfold queued. by rewrite Ech, Eq.
  - unfold mem_Close. destruct (wr_once w); [simpl; split_and!; [done..|]; intros; by rewrite app_nil_r|].
    cbv zeta. cbn [wr_stream]. destruct (mem_streams t !! wr_stream w) as [ch|] eqn:Ech; [|simpl; split_and!; [done..|]; intros; by rewrite app_nil_r].
    destruct (proj2 Hwf _ _ Ech) as (Hc & Hl & Hv).
    destruct (ch_closed ch); [simpl; split_and!; [done..|]; intros; by rewrite app_nil_r|].
    simpl. split_and!; [by apply mem_wf_insert|done|]. intros s. rewrite queued_insert, app_nil_r.
    case_bool_decide as Hs; [|done]. subst. unfold queued. simpl. by rewrite Ech.
Qed.

Lemma mem_exec_accepted t op s f :
  accepted s (mem_exec t op).2 = Some f → ActivationFrame_Validate f = None.
Proof.
  destruct op as [ctx stream dest|ctx stream|ctx w frame|ctx r|w]; try done; cbn [mem_exec].
  - unfold mem_Send. destruct (ActivationFrame_Validate frame) eqn:Ev; [done|].
    repeat case_match; simpl; try done; case_bool_decide; congruence.
  - destruct (mem_Receive ctx t r) as [t' res]. simpl. by repeat case_match.
Qed.

Lemma mem_run_fifo t ops :
  mem_wf t →
  let '(t', evs) := mem_run t ops in
  mem_wf t' ∧ mem_buffer t' = mem_buffer t ∧
  ∀ s, queued t s ++ omap (accepted s) evs = omap (delivered s) evs ++ queued t' s.
Proof.
  revert t. induction ops as [|op ops IH]; intros t Hwf; cbn [mem_run].
  { split_and!; [done..|]. intros s. by rewrite app_nil_r. }
  pose proof (mem_exec_step t op Hwf) as Hstep. destruct (mem_exec t op) as [t1 ev].
  destruct Hstep as (Hwf1 & Hb1 & Hq1). specialize (IH t1 Hwf1).
  destruct (mem_run t1 ops) as [t' evs]. destruct IH as (Hwf' & Hb' & Hq').
  split_and!; [done|congruence|]. intros s. specialize (Hq1 s). specialize (Hq' s). csimpl.
  assert (∀ (o : option ActivationFrame) l, match o with Some y => y :: l | None => l end = option_list o ++ l) as Hol
    by (by intros []).
  rewrite !Hol, app_assoc, Hq1, <- !app_assoc. by rewrite Hq'.
Qed.

(** C28 (safety, ordering). Whatever writers and readers do, in any interleaving,
    each stream of the in-memory transport is a first-in-first-out queue of its
    own: the frames accepted on it are exactly those delivered, in order,
    followed by those still queued, all of them valid; and it never holds more
    than the buffer size. *)
Theorem streams_are_fifo (buffer : Z) (ops : list mem_op) (stream : StreamID) :
  let '(t, evs) := mem_run (NewMemoryActivationTransport buffer) ops in
  omap (accepted stream) evs = omap (delivered stream) evs ++ queued t stream ∧
  Z.of_nat (length (queued t stream)) ≤ Z.max 1 buffer ∧
  Forall (λ f, ActivationFrame_Validate f = None) (omap (accepted stream) evs).
Proof.
  set (t0 := NewMemoryActivationTransport buffer).
  assert (mem_wf t0) as Hwf0.
  { split; [simpl; destruct (Z.ltb_spec buffer 1); lia|apply map_Forall_empty]. }
  pose proof (mem_run_fifo t0 ops Hwf0) as Hrun.
  assert (Forall (λ ev, ∀ s f, accepted s ev = Some f → ActivationFrame_Validate f = None) (mem_run t0 ops).2) as Hval.
  { clear Hrun Hwf0. generalize t0. clear t0. induction ops as [|op ops IH]; intros t; cbn [mem_run]; [constructor|].
    pose proof (mem_exec_accepted t op) as Hop. destruct (mem_exec t op) as [t1 ev]. specialize (IH t1).
    destruct (mem_run t1 ops). by constructor. }
  destruct (mem_run t0 ops) as [t evs]. destruct Hrun as (Hwf & Hb & Hq). specialize (Hq stream).
  split_and!.
  - exact Hq.
  - unfold queued. destruct (mem_streams t !! stream) as [ch|] eqn:E; [|simpl; lia].
    destruct (proj2 Hwf _ _ E) as (Hc & Hl & _). rewrite Hc, Hb in Hl. simpl in Hl.
    destruct (Z.ltb_spec buffer 1); lia.
  - apply Forall_forall. intros f (ev & Hev & Hf)%list_elem_of_omap.
    rewrite Forall_forall in Hval. by apply (Hval ev Hev stream).
Qed.

(** Two writers of one stream that both close it: the second close panics, since
    only each writer's own close is guarded. *)
Example second_close_panics :
  let ctx := Background in
  let stream := mkStreamID "p" "s" in
  let t := NewMemoryActivationTransport 1 in
  let '(t, w1) := mem_OpenWriter ctx t stream "" in
  let '(t, w2) := mem_OpenWriter ctx t stream "" in
  match w1, w2 with
  | Ok w1, Ok w2 => (mem_Close (mem_Close t w1).1.1 w2).2 = Panicked
  | _, _ => False
  end.
Proof. vm_compute. reflexivity. Qed.

(** ** A stage runtime *)

(** The requests a stage runtime prepares. *)
Definition preparable (r : LogicalStageRuntime) (ctx : Context) (req : StagePrepareRequest) : Prop :=
  ctx_done ctx = false ∧ blank (spr_ParentJobID req) = false ∧ blank (spr_ModelID req) = false ∧
  blank (lsr_Runtime r) = false ∧ shard_matches (spr_Stage req) (spr_Shard req) = true ∧
  shard_Materialization (spr_Shard req) = ShardLogicalLayers ∧
  blank (dsi_NodeID (spr_Stage req)) = false ∧ 0 < Stage_Layers (shard_Stage (spr_Shard req)).

Lemma shard_matches_node stage shard :
  shard_matches stage shard = true →
  stage_NodeID (shard_Stage shard) = dsi_NodeID stage ∧ stage_LayerStart (shard_Stage shard) = dsi_LayerStart stage ∧
  stage_LayerEnd (shard_Stage shard) = dsi_LayerEnd stage.
Proof.
  unfold shard_matches. rewrite !andb_true_iff, !bool_decide_eq_true. naive_solver.
Qed.

(** (functional, error). A stage runtime accepts a prepare request exactly
    when the parent, the model and the runtime are named, the shard is a logical
    one that matches the stage, and the stage has a node and at least one layer;
    the answer then repeats the assigned layers and neighbours and announces the
    activation protocol. *)
Theorem prepare_stage_contract (r : LogicalStageRuntime) (ctx : Context) (req : StagePrepareRequest) :
  match PrepareStage r ctx req with
  | Ok res => preparable r ctx req ∧
      sprr_Kind res = "cdip.stage_ready" ∧ sprr_ParentJobID res = spr_ParentJobID req ∧
      sprr_ModelID res = spr_ModelID req ∧ sprr_StageIndex res = dsi_Index (spr_Stage req) ∧
      sprr_LayerStart res = dsi_LayerStart (spr_Stage req) ∧ sprr_LayerEnd res = dsi_LayerEnd (spr_Stage req) ∧
      sprr_UpstreamNodeID res = spr_UpstreamNodeID req ∧ sprr_DownstreamNodeID res = spr_DownstreamNodeID req ∧
      sprr_ActivationProtocol res ∈ LogicalStageCapabilities
  | Err _ => ¬ preparable r ctx req
  end.
Proof.
  unfold PrepareStage, preparable. cbv zeta. destruct (first_error _) as [e|] eqn:E; unfold check.
  - intros (H1 & H2 & H3 & H4 & H5 & H6 & _). simpl in E. rewrite H1, H2, H3, H4, H5, H6 in E. done.
  - apply first_error_None in E. rewrite !Forall_cons in E. cbn [fst] in E.
    rewrite !negb_false_iff, bool_decide_eq_true in E. destruct E as (H1 & H2 & H3 & H4 & H5 & H6 & _).
    destruct (shard_matches_node _ _ H5) as (Hn & Ha & Hb).
    unfold StagePrepare_Validate. cbn [prep_Envelope]. rewrite NewEnvelope_valid by done. cbn [andthen].
    destruct (first_error _) as [e|] eqn:E.
    + intros (_ & _ & _ & _ & _ & _ & H7 & H8). simpl in E. rewrite H2, H3, Hn, H7 in E.
      assert (blank (if blank (spr_StageJobID req) then "worker-local-stage-prepare" else spr_StageJobID req) = false) as Hs
        by (destruct (blank (spr_StageJobID req)) eqn:Hb'; [by vm_compute|done]).
      rewrite Hs in E. destruct (Z.leb_spec (Stage_Layers (shard_Stage (spr_Shard req))) 0); [lia|done].
    + apply first_error_None in E. rewrite !Forall_cons in E. cbn [fst prep_Stage] in E.
      rewrite Z.leb_gt, Hn in E. destruct E as (_ & _ & _ & H7 & H8 & _). cbn.
      split_and!; try done. unfold LogicalStageCapabilities. set_solver.
Qed.

(** ** Relaying one activation *)

(** The stream of a frame is open, with room, and nothing queued: what was sent
    is what is received, and the stream is as before. *)
Definition idle (t : MemoryActivationTransport) (stream : StreamID) : Prop :=
  match mem_streams t !! stream with
  | Some ch => ch_closed ch = false ∧ ch_queue ch = [] ∧ (1 ≤ ch_cap ch)%nat
  | None => (1 ≤ mem_buffer t)%nat
  end.

Lemma idle_insert t stream ch s :
  ch_closed ch = false → ch_queue ch = [] → (1 ≤ ch_cap ch)%nat →
  idle t s → idle (t <| mem_streams := <[stream := ch]> (mem_streams t) |>) s.
Proof.
  intros H1 H2 H3. unfold idle. simpl. destruct (decide (stream = s)) as [->|Hne].
  - by rewrite lookup_insert_eq.
  - by rewrite lookup_insert_ne.
Qed.

Lemma mem_stream_idle t stream :
  idle t stream → validateStreamID stream = None →
  ∃ t' cap, mem_stream Background t stream = (t', Ok stream) ∧ (1 ≤ cap)%nat ∧
    mem_streams t' !! stream = Some (mkChannel cap [] false) ∧ ∀ s, idle t s → idle t' s.
Proof.
  intros Hi Hv. unfold mem_stream. rewrite Hv. simpl. unfold idle in Hi.
  destruct (mem_streams t !! stream) as [[cap q cl]|] eqn:E.
  - simpl in Hi. destruct Hi as (-> & -> & Hc). by exists t, cap.
  - exists (t <| mem_streams := <[stream := mkChannel (mem_buffer t) [] false]> (mem_streams t) |>), (mem_buffer t).
    split_and!; [done|done|apply lookup_insert_eq|]. intros s. by apply idle_insert.
Qed.

Lemma relay_idle t stream cap frame :
  mem_streams t !! stream = Some (mkChannel cap [] false) → (1 ≤ cap)%nat →
  ActivationFrame_Validate frame = None →
  ∃ t1 t2, mem_Send Background t (mkWriter stream false) frame = (t1, Returned None) ∧
    mem_Receive Background t1 (mkReader stream) = (t2, Returned (Ok frame)) ∧ ∀ s, idle t s → idle t2 s.
Proof.
  intros Hch Hcap Hv.
  unfold mem_Send. rewrite Hv. cbn [wr_stream]. rewrite Hch. simpl.
  destruct (Nat.ltb_spec 0 cap); [|lia]. simpl.
  eexists _, _. split; [reflexivity|]. unfold mem_Receive. simpl. rewrite lookup_insert_eq. simpl.
  split; [reflexivity|]. intros s Hs. unfold idle. simpl.
  destruct (decide (stream = s)) as [->|Hne].
  - rewrite lookup_insert_eq. simpl. by split_and!.
  - rewrite !lookup_insert_ne by done. exact Hs.
Qed.
