(* ===== verification/Coordinator.v ===== *)
(** * The CDIP coordinator

    The running half of [internal/manager/distributed.go]: the coordinator moves
    all stages of a distributed job together, from preparing to completion, and
    relays one activation between neighbouring stages in a decode step.

    The code takes a [Store]; the part of that interface the coordinator uses is
    the class [StageStore], with the promises it relies on in [StageStoreLaws].
    [JobStore] discharges them at the end of the file. *)

From S2P Require Import Prelude GoString GoSort World Json Cdip Types Protocol Models Codec State.
From S2P Require Import Conversations Scheduling JobStore DistributedPlan Transport.

(** ** The store, as the coordinator sees it *)

Class StageStore (S : Type) := {
  store_Job : S → string → option Job;
  store_Jobs : World → S → list Job;
  store_UpdateCDIPStageState : World → S → string → StageState → string → S * option Job;
  store_CompleteCoordinatorJob : World → S → string → string → string → S * option Job;
}.

Inductive coord_error :=
  | ParentNotFound
  | ParentTerminal
  | NoStageGraph
  | InvalidStageInput (id : string)
  | StageOfOtherParent (id got expected : string)
  | InvalidStagePrepare (id : string) (e : Cdip.error)
  | StageUpdateFailed (what id : string)
  | StageNotIn (id : string) (got expected : StageState)
  | InvalidStageCommand (kind : MessageType) (id : string) (e : Cdip.error)
  | OpenReaderFailed (e : transport_error)
  | DecodeFailed (e : stage_error)
  | ReceiveFailed (e : transport_error)
  | ReceivedInvalid (e : transport_error)
  | RelayMismatch (id : string)
  | MarshalFailed
  | ParentUpdateFailed.

Record CDIPMockRunResult := mkCDIPMockRunResult {
  mock_ParentJob : Job; mock_StageJobs : list Job; mock_Output : string }.
Record CDIPPrepareResult := mkCDIPPrepareResult {
  prepres_ParentJob : Job; prepres_StageJobs : list Job; prepres_Messages : list StagePrepare }.
Record CDIPCommandResult := mkCDIPCommandResult {
  cmdres_ParentJob : Job; cmdres_StageJobs : list Job; cmdres_Messages : list StageCommand;
  cmdres_ActivationFrames : list ActivationChunk }.
Record CDIPAdvanceResult := mkCDIPAdvanceResult {
  adv_ParentJob : Job;
  adv_StageJobs : list Job;
  adv_Action : string;
  adv_Waiting : bool;
  adv_Reason : string;
  adv_PrepareMessages : list StagePrepare;
  adv_Messages : list StageCommand;
  adv_ActivationFrames : list ActivationChunk;
}.

Definition is_terminal (job : Job) : bool :=
  bool_decide (job_Status job = StatusSucceeded) || bool_decide (job_Status job = StatusFailed)
  || bool_decide (job_Status job = StatusCanceled).

Definition is_stage_of (parentJobID : string) (job : Job) : bool :=
  bool_decide (job_Type job = JobGenerateStage) && bool_decide (job_CDIPParentJobID job = parentJobID).

Definition stage_less : Job → Job → bool := asc_Z job_CDIPStageIndex (asc_Z_last job_CreatedAt).

Definition cdipStageJobsForParent `{World} (jobs : list Job) (parentJobID : string) : list Job :=
  sort_slice ["stages"] stage_less (filter (λ j, is_stage_of parentJobID j = true) jobs).

(** A stage without a state counts as planned. *)
Definition allCDIPStagesIn (stages : list Job) (state : StageState) : bool :=
  (0 <? length stages)%nat && forallb (λ stage, bool_decide (stage_current stage = state)) stages.

Definition stage_command (kind : MessageType) (parent stage : Job) (step : Z) : StageCommand :=
  mkStageCommand (NewEnvelope kind) (job_ID parent) (job_ID stage) (job_CDIPStageIndex stage) step.

(** The loop that builds and checks the commands of a phase. *)
Definition stage_commands (kind : MessageType) (parent : Job) (step : Z) (stages : list Job)
    : result coord_error (list StageCommand) :=
  try_map (λ stage,
    let msg := stage_command kind parent stage step in
    match StageCommand_Validate msg kind with
    | Some e => Err (InvalidStageCommand kind (job_ID stage) e)
    | None => Ok msg
    end) stages.

(** The loop that checks that all stages are at the same boundary. *)
Fixpoint stages_in (expected : StageState) (stages : list Job) : option coord_error :=
  match stages with
  | [] => None
  | stage :: stages =>
      if bool_decide (job_CDIPState stage = expected) then stages_in expected stages
      else Some (StageNotIn (job_ID stage) (job_CDIPState stage) expected)
  end.

Section coordinator.
Context `{World} {S} `{!StageStore S} {T} `{!ActivationTransport T}.
Context `{!Json DistributedStageJobInput} `{!JsonMap}.

(** The reads and checks every operation starts with. *)
Definition open_job (s : S) (parentJobID : string) : result coord_error (Job * list Job) :=
  match store_Job s parentJobID with
  | None => Err ParentNotFound
  | Some parent =>
      if bool_decide (job_Type parent ≠ JobGenerateDistributed) then Err ParentNotFound
      else if is_terminal parent then Err ParentTerminal
      else
        let stages := cdipStageJobsForParent (store_Jobs (sub_world ["jobs"]) s) (job_ID parent) in
        if (length stages <? 2)%nat then Err NoStageGraph else Ok (parent, stages)
  end.

(** The loop that moves the stages; it stops at the first refusal. *)
Fixpoint update_stages (t : Tag) (s : S) (stages : list Job) (next : StageState) (detail : string)
    : S * option string :=
  match stages with
  | [] => (s, None)
  | stage :: stages =>
      match store_UpdateCDIPStageState (sub_world (t ++ [job_ID stage])) s (job_ID stage) next detail with
      | (s, None) => (s, Some (job_ID stage))
      | (s, Some _) => update_stages t s stages next detail
      end
  end.

Definition stages_after (s : S) (parent : Job) : list Job :=
  cdipStageJobsForParent (H := sub_world ["after"]) (store_Jobs (sub_world ["after"; "jobs"]) s) (job_ID parent).

(** ** Prepare *)

Definition prepare_message (parent stageJob : Job) : result coord_error StagePrepare :=
  match Unmarshal (A := DistributedStageJobInput) (job_Input stageJob) with
  | None => Err (InvalidStageInput (job_ID stageJob))
  | Some input =>
      if bool_decide (sji_ParentJobID input ≠ job_ID parent)
      then Err (StageOfOtherParent (job_ID stageJob) (sji_ParentJobID input) (job_ID parent))
      else
        let msg := mkStagePrepare (NewEnvelope MessageStagePrepare) (job_ID parent) (job_ID stageJob)
                     (sji_ModelID input) (shard_Stage (sji_Shard input)) (sji_UpstreamNodeID input)
                     (sji_DownstreamNodeID input) in
        match StagePrepare_Validate msg with
        | Some e => Err (InvalidStagePrepare (job_ID stageJob) e)
        | None => Ok msg
        end
  end.

Definition prepareCDIPDistributedJob (s : S) (parentJobID : string) : S * result coord_error CDIPPrepareResult :=
  match ('(parent, stages) ← open_job s parentJobID;
         messages ← try_map (prepare_message parent) stages; Ok (parent, stages, messages)) with
  | Err e => (s, Err e)
  | Ok (parent, stages, messages) =>
      match update_stages ["prepare"] s stages StagePreparing "coordinator sent stage.prepare" with
      | (s, Some id) => (s, Err (StageUpdateFailed "prepare" id))
      | (s, None) => (s, Ok (mkCDIPPrepareResult parent (stages_after s parent) messages))
      end
  end.

(** ** Prefill *)

(** The checks of prefill, decode and complete up to the messages. *)
Definition phase_messages (s : S) (parentJobID : string) (from : StageState) (kind : MessageType) (step : Z)
    : result coord_error (Job * list Job * list StageCommand) :=
  '(parent, stages) ← open_job s parentJobID;
  check (stages_in from stages)
    (messages ← stage_commands kind parent step stages; Ok (parent, stages, messages)).

Definition startCDIPPrefill (s : S) (parentJobID : string) : S * result coord_error CDIPCommandResult :=
  match phase_messages s parentJobID StageReady MessageStagePrefill 0 with
  | Err e => (s, Err e)
  | Ok (parent, stages, messages) =>
      match update_stages ["prefill"] s stages StagePrefill "coordinator sent stage.prefill" with
      | (s, Some id) => (s, Err (StageUpdateFailed "prefill" id))
      | (s, None) => (s, Ok (mkCDIPCommandResult parent (stages_after s parent) messages []))
      end
  end.

(** ** Decode *)

(** The request for the stage at position [i]: the payload is [[]byte{byte(i),
    byte(step)}]. *)
Definition decode_request (parent : Job) (step : Z) (i : nat) (upstream downstream : Job) : StageCommandRequest :=
  let payload := bytes [i; Z.to_nat (step mod 256)] in
  mkStageCommandRequest (job_ID parent) (job_ID upstream) (job_CDIPStageIndex upstream) step true
    (job_AssignedTo downstream) payload "mock" [1; 1; payload_len payload] "u8"
    ("mock:" +:+ Itoa step +:+ ":" +:+ Itoa (Z.of_nat i) +:+ ":" +:+ job_ID upstream +:+ ":" +:+ job_ID downstream).

(** One round of the relay loop: the frame of [upstream], sent and received. *)
Definition relay (t : T) (parent : Job) (step : Z) (i : nat) (upstream downstream : Job)
    : T * outcome (result coord_error ActivationChunk) :=
  match OpenReader Background t (mkStreamID (job_ID parent) (job_ID upstream)) with
  | (t, Err e) => (t, Returned (Err (OpenReaderFailed e)))
  | (t, Ok reader) =>
      match DecodeStage Background t (decode_request parent step i upstream downstream) with
      | (t, Blocked) => (t, Blocked)
      | (t, Panicked) => (t, Panicked)
      | (t, Returned (Err e)) => (t, Returned (Err (DecodeFailed e)))
      | (t, Returned (Ok res)) =>
          match Receive Background t reader with
          | (t, Blocked) => (t, Blocked)
          | (t, Panicked) => (t, Panicked)
          | (t, Returned (Err e)) => (t, Returned (Err (ReceiveFailed e)))
          | (t, Returned (Ok received)) =>
              match ActivationFrame_Validate received with
              | Some e => (t, Returned (Err (ReceivedInvalid e)))
              | None =>
                  if match scrr_Frame res with
                     | Some frame => str_eqb (chunk_Checksum (frame_Header received)) (chunk_Checksum frame)
                     | None => false
                     end
                  then (t, Returned (Ok (frame_Header received)))
                  else (t, Returned (Err (RelayMismatch (job_ID upstream))))
              end
          end
      end
  end.

Fixpoint relay_loop (t : T) (parent : Job) (step : Z) (i : nat) (stages : list Job)
    : T * outcome (result coord_error (list ActivationChunk)) :=
  match stages with
  | upstream :: (downstream :: _) as rest =>
      match relay t parent step i upstream downstream with
      | (t, Blocked) => (t, Blocked)
      | (t, Panicked) => (t, Panicked)
      | (t, Returned (Err e)) => (t, Returned (Err e))
      | (t, Returned (Ok frame)) =>
          match relay_loop t parent step (i + 1) rest with
          | (t, Returned (Ok frames)) => (t, Returned (Ok (frame :: frames)))
          | (t, out) => (t, out)
          end
      end
  | _ => (t, Returned (Ok []))
  end.

Definition startCDIPDecode (s : S) (bus : T) (parentJobID : string) (step : Z)
    : S * T * outcome (result coord_error CDIPCommandResult) :=
  let step := if step =? 0 then 1 else step in
  match phase_messages s parentJobID StagePrefill MessageStageDecode step with
  | Err e => (s, bus, Returned (Err e))
  | Ok (parent, stages, messages) =>
      match relay_loop bus parent step 0 stages with
      | (bus, Blocked) => (s, bus, Blocked)
      | (bus, Panicked) => (s, bus, Panicked)
      | (bus, Returned (Err e)) => (s, bus, Returned (Err e))
      | (bus, Returned (Ok frames)) =>
          match update_stages ["decode"] s stages StageDecode "coordinator sent stage.decode" with
          | (s, Some id) => (s, bus, Returned (Err (StageUpdateFailed "decode" id)))
          | (s, None) => (s, bus, Returned (Ok (mkCDIPCommandResult parent (stages_after s parent) messages frames)))
          end
      end
  end.

(** ** Complete *)

Definition result_body (parent : Job) (stage_count : nat) (output : string) : gmap string any :=
  <["kind" := any_string "cdip.distributed_result"]> $ <["protocol" := any_string Protocol]> $
  <["version" := any_string Version]> $ <["parent_job" := any_string (job_ID parent)]> $
  <["stage_count" := any_int (Z.of_nat stage_count)]> $ <["output" := any_string output]> ∅.

Definition completeCDIPDistributedJob (s : S) (parentJobID output : string)
    : S * result coord_error CDIPCommandResult :=
  match phase_messages s parentJobID StageDecode MessageStageComplete 0 with
  | Err e => (s, Err e)
  | Ok (parent, stages, messages) =>
      match update_stages ["complete"] s stages StageCompleted "coordinator sent stage.complete" with
      | (s, Some id) => (s, Err (StageUpdateFailed "complete" id))
      | (s, None) =>
          let output := if blank output then "CDIP distributed inference completed"%string else output in
          match Marshal_map (result_body parent (length stages) output) with
          | None => (s, Err MarshalFailed)
          | Some body =>
              match store_CompleteCoordinatorJob (sub_world ["parent"]) s (job_ID parent) body "" with
              | (s, None) => (s, Err ParentUpdateFailed)
              | (s, Some parent) => (s, Ok (mkCDIPCommandResult parent (stages_after s parent) messages []))
              end
          end
      end
  end.

(** ** The mock run *)

(** The first loop: each stage is prepared and at once marked ready. *)
Fixpoint mock_prepare (s : S) (stages : list Job) : S * option coord_error :=
  match stages with
  | [] => (s, None)
  | stage :: stages =>
      match store_UpdateCDIPStageState (sub_world ["mock-prepare"; job_ID stage]) s (job_ID stage) StagePreparing
              "mock coordinator preparing stage" with
      | (s, None) => (s, Some (StageUpdateFailed "prepare" (job_ID stage)))
      | (s, Some _) =>
          match store_UpdateCDIPStageState (sub_world ["mock-ready"; job_ID stage]) s (job_ID stage) StageReady
                  "mock coordinator stage ready" with
          | (s, None) => (s, Some (StageUpdateFailed "mark stage ready" (job_ID stage)))
          | (s, Some _) => mock_prepare s stages
          end
      end
  end.

(** The three loops that follow: state, detail and name. *)
Fixpoint mock_phases (s : S) (stages : list Job) (phases : list (StageState * string * string))
    : S * option coord_error :=
  match phases with
  | [] => (s, None)
  | (next, detail, what) :: phases =>
      match update_stages ["mock"; what] s stages next detail with
      | (s, Some id) => (s, Some (StageUpdateFailed what id))
      | (s, None) => mock_phases s stages phases
      end
  end.

Definition runCDIPMockCoordinator (s : S) (parentJobID : string) : S * result coord_error CDIPMockRunResult :=
  match open_job s parentJobID with
  | Err e => (s, Err e)
  | Ok (parent, stages) =>
      match mock_prepare s stages with
      | (s, Some e) => (s, Err e)
      | (s, None) =>
          match mock_phases s stages
                  [(StagePrefill, "mock activation prefill", "prefill");
                   (StageDecode, "mock activation decode", "decode");
                   (StageCompleted, "mock stage completed", "complete")]%string with
          | (s, Some e) => (s, Err e)
          | (s, None) =>
              let output := "CDIP mock distributed inference completed"%string in
              match store_CompleteCoordinatorJob (sub_world ["parent"]) s (job_ID parent) output "" with
              | (s, None) => (s, Err ParentUpdateFailed)
              | (s, Some parent) => (s, Ok (mkCDIPMockRunResult parent (stages_after s parent) output))
              end
          end
      end
  end.

End coordinator.

(** ** Advance *)

Section advance.
Context `{World} {S} `{!StageStore S} {T} `{!ActivationTransport T}.
Context `{!Json DistributedStageJobInput} `{!JsonMap}.

Definition command_advance (action : string) (out : result coord_error CDIPCommandResult)
    : result coord_error CDIPAdvanceResult :=
  r ← out;
  Ok (mkCDIPAdvanceResult (cmdres_ParentJob r) (cmdres_StageJobs r) action false "" [] (cmdres_Messages r)
        (cmdres_ActivationFrames r)).

(** One step of a distributed job, chosen by the state all its stages share. *)
Definition advanceCDIPDistributedJob (s : S) (bus : T) (parentJobID : string) (step : Z) (output : string)
    : S * T * outcome (result coord_error CDIPAdvanceResult) :=
  match open_job s parentJobID with
  | Err e => (s, bus, Returned (Err e))
  | Ok (parent, stages) =>
      if allCDIPStagesIn stages StagePlanned then
        let '(s, out) := prepareCDIPDistributedJob (H := sub_world ["step"]) s (job_ID parent) in
        (s, bus, Returned (r ← out;
           Ok (mkCDIPAdvanceResult (prepres_ParentJob r) (prepres_StageJobs r) "prepare" false ""
                 (prepres_Messages r) [] [])))
      else if allCDIPStagesIn stages StageReady then
        let '(s, out) := startCDIPPrefill (H := sub_world ["step"]) s (job_ID parent) in
        (s, bus, Returned (command_advance "prefill" out))
      else if allCDIPStagesIn stages StagePrefill then
        match startCDIPDecode (H := sub_world ["step"]) s bus (job_ID parent) step with
        | (s, bus, Returned out) => (s, bus, Returned (command_advance "decode" out))
        | (s, bus, Blocked) => (s, bus, Blocked)
        | (s, bus, Panicked) => (s, bus, Panicked)
        end
      else if allCDIPStagesIn stages StageDecode then
        let '(s, out) := completeCDIPDistributedJob (H := sub_world ["step"]) s (job_ID parent) output in
        (s, bus, Returned (command_advance "complete" out))
      else
        (s, bus, Returned (Ok (mkCDIPAdvanceResult parent stages "wait" true
           "waiting for stages to reach the same coordinator boundary" [] [] [])))
  end.
End advance.

(** The periodic loop of the server ([advanceActiveCDIPJobs]): every open
    distributed job takes a step; errors are dropped, a blocked step blocks the
    loop. *)
Section loop.
Context `{World} {S} `{!StageStore S} {T} `{!ActivationTransport T}.
Context `{!Json DistributedStageJobInput} `{!JsonMap}.

Fixpoint advance_loop (s : S) (bus : T) (jobs : list Job) : S * T * outcome unit :=
  match jobs with
  | [] => (s, bus, Returned tt)
  | job :: jobs =>
      if bool_decide (job_Type job ≠ JobGenerateDistributed) then advance_loop s bus jobs
      else if is_terminal job then advance_loop s bus jobs
      else
        match advanceCDIPDistributedJob (H := sub_world ["advance"; job_ID job]) s bus (job_ID job) 0 "" with
        | (s, bus, Returned _) => advance_loop s bus jobs
        | (s, bus, Blocked) => (s, bus, Blocked)
        | (s, bus, Panicked) => (s, bus, Panicked)
        end
  end.
Definition advanceActiveCDIPJobs (s : S) (bus : T) : S * T * outcome unit :=
  advance_loop s bus (store_Jobs (sub_world ["active"]) s).
End loop.

(** ** What the coordinator relies on *)

(** A stage job after a stage report: the same job in the new state, with its
    worker; a completed stage has succeeded. *)
Record stage_moved (next : StageState) (j j' : Job) : Prop := {
  sm_core : core j' = core j;
  sm_worker : job_AssignedTo j' = job_AssignedTo j;
  sm_state : job_CDIPState j' = next;
  sm_status : next = StageCompleted → job_Status j' = StatusSucceeded;
}.
(** A coordinator job finished with a result. *)
Record parent_finished (text : string) (j j' : Job) : Prop := {
  pf_core : core j' = core j;
  pf_status : job_Status j' = StatusSucceeded;
  pf_result : job_Result j' = TrimSpace text;
}.

Class StageStoreLaws (S : Type) `{!StageStore S} := {
  store_wf : S → Prop;
  law_Job_ID s id j : store_wf s → store_Job s id = Some j → job_ID j = id;
  law_Jobs W s j : store_wf s → j ∈ store_Jobs W s ↔ store_Job s (job_ID j) = Some j;
  law_Jobs_NoDup W s : store_wf s → NoDup (job_ID <$> store_Jobs W s);
  law_Update W s id next detail : store_wf s →
    let '(s', r) := store_UpdateCDIPStageState W s id next detail in
    store_wf s' ∧
    match store_Job s id with
    | Some j =>
        if bool_decide (stage_kind j) && CanTransition (stage_current j) next then
          ∃ j', r = Some j' ∧ stage_moved next j j' ∧
            ∀ k, store_Job s' k = if bool_decide (k = id) then Some j' else store_Job s k
        else r = None ∧ s' = s
    | None => r = None ∧ s' = s
    end;
  law_Complete W s id text j : store_wf s → store_Job s id = Some j → coordinator_kind j →
    let '(s', r) := store_CompleteCoordinatorJob W s id text "" in
    store_wf s' ∧ ∃ j', r = Some j' ∧ parent_finished text j j' ∧
      ∀ k, store_Job s' k = if bool_decide (k = id) then Some j' else store_Job s k;
}.

(** ** Moving the stages together *)

Section laws.
Context {S} `{!StageStore S} `{!StageStoreLaws S}.

(** The stages [ids] moved to [next]; every other job is as it was. *)
Record moved (next : StageState) (ids : list string) (s s' : S) : Prop := {
  mv_wf : store_wf s';
  mv_in k : k ∈ ids → ∃ j j', store_Job s k = Some j ∧ store_Job s' k = Some j' ∧ stage_moved next j j';
  mv_out k : k ∉ ids → store_Job s' k = store_Job s k;
}.

(** [ids] are the stage jobs of a parent. *)
Definition stages_of (s : S) (parentID : string) (ids : list string) : Prop :=
  NoDup ids ∧ ∀ k, k ∈ ids ↔ ∃ j, store_Job s k = Some j ∧ is_stage_of parentID j = true.

Definition at_state (s : S) (st : StageState) (k : string) : Prop :=
  ∃ j, store_Job s k = Some j ∧ stage_current j = st.

Lemma is_stage_of_kind p j : is_stage_of p j = true → stage_kind j ∧ job_CDIPParentJobID j = p.
Proof. unfold is_stage_of. by rewrite andb_true_iff, !bool_decide_eq_true. Qed.
Lemma is_stage_of_core p j j' : core j' = core j → is_stage_of p j' = is_stage_of p j.
Proof.
  intros Hc. unfold is_stage_of. by rewrite (f_equal core_Type Hc : job_Type j' = job_Type j),
    (f_equal core_Parent Hc : job_CDIPParentJobID j' = job_CDIPParentJobID j).
Qed.

Lemma stage_current_moved next j j' : next ≠ StageNone → stage_moved next j j' → stage_current j' = next.
Proof. intros Hn [_ _ Hs _]. unfold stage_current. rewrite Hs. by rewrite bool_decide_eq_false_2. Qed.

(** The listed stages are the stage jobs of the parent. *)
Lemma listed_stages (W W' : World) s p :
  store_wf s →
  let stages := cdipStageJobsForParent (H := W) (store_Jobs W' s) p in
  stages_of s p (job_ID <$> stages) ∧
  (∀ j, j ∈ stages ↔ store_Job s (job_ID j) = Some j ∧ is_stage_of p j = true) ∧
  StronglySorted (not_after stage_less) stages.
Proof.
  intros Hwf. cbv zeta. unfold cdipStageJobsForParent.
  assert (∀ j, j ∈ sort_slice (H := W) ["stages"] stage_less (filter (λ j, is_stage_of p j = true) (store_Jobs W' s)) ↔
               store_Job s (job_ID j) = Some j ∧ is_stage_of p j = true) as Hin.
  { intros j. rewrite elem_of_sort_slice, list_elem_of_filter, law_Jobs by done. tauto. }
  split_and!; [split|exact Hin|apply sort_slice_sorted; unfold stage_less; apply _].
  - rewrite sort_slice_perm. eapply sublist_NoDup; [apply (law_Jobs_NoDup W' s Hwf)|].
    apply fmap_sublist, sublist_filter.
  - intros k. rewrite list_elem_of_fmap. setoid_rewrite Hin. split.
    + intros (j & -> & ? & ?). by exists j.
    + intros (j & Hj & Hs). pose proof (law_Job_ID _ _ _ Hwf Hj) as HID. exists j. by rewrite HID.
Qed.

Lemma update_stages_spec (W : World) t s stages next detail :
  store_wf s → NoDup (job_ID <$> stages) →
  (∀ j, j ∈ stages → store_Job s (job_ID j) = Some j ∧ stage_kind j ∧ CanTransition (stage_current j) next = true) →
  ∃ s', update_stages t s stages next detail = (s', None) ∧ moved next (job_ID <$> stages) s s'.
Proof.
  intros Hwf Hnd Hall. revert s Hwf Hall. induction stages as [|j stages IH]; intros s Hwf Hall.
  { exists s. split; [done|]. split; [done|by intros k ?%elem_of_nil|done]. }
  apply NoDup_cons in Hnd as [Hj Hnd]. cbn [update_stages].
  destruct (Hall j) as (Hlk & Hk & Hcan); [left|].
  pose proof (law_Update (sub_world (t ++ [job_ID j])) s (job_ID j) next detail Hwf) as Hlaw.
  destruct (store_UpdateCDIPStageState _ _ _ _ _) as [s1 r]. destruct Hlaw as [Hwf1 Hlaw].
  rewrite Hlk, Hcan, bool_decide_eq_true_2 in Hlaw by done. simpl in Hlaw.
  destruct Hlaw as (j' & -> & Hmv & Hst).
  destruct (IH Hnd s1 Hwf1) as (s' & Hs' & [Hwf' Hin Hout]).
  { intros j2 Hj2. rewrite Hst, bool_decide_eq_false_2; [apply Hall; by right|].
    intros Heq. apply Hj. rewrite <- Heq. by apply list_elem_of_fmap_2. }
  exists s'. split; [exact Hs'|]. split; [done|..].
  - intros k Hk'. rewrite fmap_cons in Hk'. apply elem_of_cons in Hk' as [->|Hk'].
    + exists j, j'. split_and!; [done| |done]. rewrite Hout by done. by rewrite Hst, bool_decide_eq_true_2.
    + destruct (Hin k Hk') as (j1 & j1' & Hj1 & Hj1' & Hm). exists j1, j1'. split_and!; [|done..].
      rewrite Hst, bool_decide_eq_false_2 in Hj1; [done|]. intros ->. done.
  - intros k Hk'. rewrite fmap_cons, not_elem_of_cons in Hk'. destruct Hk' as [Hk1 Hk2].
    rewrite Hout by done. by rewrite Hst, bool_decide_eq_false_2.
Qed.

Lemma open_job_spec (W : World) s parentID parent stages :
  store_wf s → open_job s parentID = Ok (parent, stages) →
  store_Job s parentID = Some parent ∧ job_ID parent = parentID ∧ coordinator_kind parent ∧
  is_terminal parent = false ∧ (2 ≤ length stages)%nat ∧
  stages_of s parentID (job_ID <$> stages) ∧
  (∀ j, j ∈ stages ↔ store_Job s (job_ID j) = Some j ∧ is_stage_of parentID j = true) ∧
  StronglySorted (not_after stage_less) stages.
Proof.
  intros Hwf. unfold open_job. destruct (store_Job s parentID) as [p|] eqn:Hp; [|done].
  pose proof (law_Job_ID _ _ _ Hwf Hp) as HID.
  case_bool_decide as Ht; [done|]. destruct (is_terminal p) eqn:Hterm; [done|].
  destruct (Nat.ltb_spec (length (cdipStageJobsForParent (store_Jobs (sub_world ["jobs"]) s) (job_ID p))) 2) as [|Hlen];
    [done|]. intros [= <- <-].
  destruct (listed_stages W (sub_world ["jobs"]) s (job_ID p) Hwf) as (H1 & H2 & H3). rewrite HID in *.
  split_and!; done.
Qed.

Lemma stages_in_None expected stages :
  stages_in expected stages = None ↔ ∀ j, j ∈ stages → job_CDIPState j = expected.
Proof.
  induction stages as [|j stages IH]; simpl; [split; [by intros _ j ?%elem_of_nil|done]|].
  setoid_rewrite elem_of_cons. case_bool_decide; [rewrite IH; naive_solver|naive_solver].
Qed.

Lemma allCDIPStagesIn_true stages st :
  allCDIPStagesIn stages st = true ↔ stages ≠ [] ∧ ∀ j, j ∈ stages → stage_current j = st.
Proof.
  unfold allCDIPStagesIn. rewrite andb_true_iff, Nat.ltb_lt, forallb_forall.
  setoid_rewrite <- list_elem_of_In. setoid_rewrite bool_decide_eq_true.
  destruct stages; simpl; [split; [lia|naive_solver]|split; intros []; split; done || lia].
Qed.

(** All the stages of [p] went from [from] to [to], and no other job changed. *)
Definition step_to (s s' : S) (p : string) (from to : StageState) : Prop :=
  ∃ ids, stages_of s p ids ∧ (2 ≤ length ids)%nat ∧ (∀ k, k ∈ ids → at_state s from k) ∧ moved to ids s s'.

Lemma update_from (W : World) t s p stages from to detail :
  store_wf s → stages_of s p (job_ID <$> stages) → (2 ≤ length stages)%nat →
  (∀ j, j ∈ stages ↔ store_Job s (job_ID j) = Some j ∧ is_stage_of p j = true) →
  (∀ j, j ∈ stages → stage_current j = from) → CanTransition from to = true →
  ∃ s', update_stages t s stages to detail = (s', None) ∧ step_to s s' p from to.
Proof.
  intros Hwf Hof Hlen Hin Hcur Hcan.
  destruct (update_stages_spec W t s stages to detail Hwf) as (s' & Hs' & Hmv); [by destruct Hof|..].
  { intros j Hj. rewrite (Hcur j Hj). apply Hin in Hj as [? ?%is_stage_of_kind]. naive_solver. }
  exists s'. split; [done|]. exists (job_ID <$> stages). split_and!; [done|by rewrite length_fmap| |done].
  intros k (j & -> & Hj)%list_elem_of_fmap. exists j. split; [by apply Hin|auto].
Qed.

Lemma phase_messages_spec (W : World) s p from kind step parent stages messages :
  phase_messages s p from kind step = Ok (parent, stages, messages) →
  open_job s p = Ok (parent, stages) ∧ (∀ j, j ∈ stages → job_CDIPState j = from) ∧
  messages = (λ st, stage_command kind parent st step) <$> stages.
Proof.
  unfold phase_messages. destruct (open_job s p) as [[parent' stages']|]; [|done]. simpl. intros H.
  apply check_Ok in H as [Hin H]. apply bind_Ok in H as (msgs & Hm & [= <- <- <-]).
  split_and!; [done|by apply stages_in_None|].
  unfold stage_commands in Hm. apply try_map_Ok in Hm.
  clear Hin. induction Hm as [|st msg sts msgs Hst _ IH]; [done|]. rewrite fmap_cons, <- IH. f_equal.
  cbv beta zeta in Hst |- *. destruct (StageCommand_Validate _ _); [done|]. by injection Hst as <-.
Qed.

Lemma phase_step (W : World) t s p from to kind step detail parent stages messages :
  store_wf s → phase_messages s p from kind step = Ok (parent, stages, messages) → from ≠ StageNone →
  CanTransition from to = true →
  ∃ s', update_stages t s stages to detail = (s', None) ∧ step_to s s' p from to ∧
    store_Job s p = Some parent ∧ job_ID parent = p ∧ coordinator_kind parent.
Proof.
  intros Hwf Hph Hne Hcan. apply phase_messages_spec in Hph as (Hop & Hst & _).
  destruct (open_job_spec _ _ _ _ _ Hwf Hop) as (Hp & HID & Hk & _ & Hlen & Hof & Hin & _).
  destruct (update_from W t s p stages from to detail) as (s' & Hs' & Hstep); try done.
  { intros j Hj. unfold stage_current. rewrite (Hst j Hj). by rewrite bool_decide_eq_false_2. }
  exists s'. by split_and!.
Qed.

Lemma step_to_wf s s' p from to : step_to s s' p from to → store_wf s'.
Proof. intros (ids & _ & _ & _ & []). done. Qed.

Lemma not_stage p j : coordinator_kind j → is_stage_of p j = true → False.
Proof.
  intros Hk [Hs _]%is_stage_of_kind. unfold stage_kind, coordinator_kind in *.
  assert (JobGenerateStage ≠ JobGenerateDistributed) by done. congruence.
Qed.
(** The parent is not a stage, so it is as it was. *)
Lemma step_to_parent s s' p from to j :
  step_to s s' p from to → store_Job s p = Some j → coordinator_kind j → store_Job s' p = Some j.
Proof.
  intros (ids & [_ Hids] & _ & _ & Hmv) Hj Hk. rewrite (mv_out _ _ _ _ Hmv); [done|].
  intros (j' & Hj' & Hs)%Hids. apply (not_stage p j); [done|congruence].
Qed.

Lemma step_to_at s s' p from to :
  to ≠ StageNone → step_to s s' p from to →
  ∀ k, (∃ j, store_Job s k = Some j ∧ is_stage_of p j = true) → at_state s from k ∧ at_state s' to k.
Proof.
  intros Hne (ids & [_ Hids] & _ & Hat & Hmv) k Hk%Hids. split; [auto|].
  destruct (mv_in _ _ _ _ Hmv k Hk) as (j & j' & _ & Hj' & Hm). exists j'. split; [done|].
  by eapply stage_current_moved.
Qed.

(** ** The phases *)

Definition finished (s s' : S) (p text : string) : Prop :=
  store_wf s' ∧ ∃ j j', store_Job s p = Some j ∧ parent_finished text j j' ∧
    ∀ k, store_Job s' k = if bool_decide (k = p) then Some j' else store_Job s k.

Lemma finished_view s s' p text :
  finished s s' p text →
  (∃ j, store_Job s' p = Some j ∧ job_Status j = StatusSucceeded) ∧ ∀ k, k ≠ p → store_Job s' k = store_Job s k.
Proof.
  intros (_ & j & j' & Hj & [_ Hst _] & Hk). split.
  - exists j'. by rewrite Hk, bool_decide_eq_true_2.
  - intros k Hne. by rewrite Hk, bool_decide_eq_false_2.
Qed.
Lemma step_to_other s s' p from to k j :
  step_to s s' p from to → store_Job s k = Some j → is_stage_of p j = false → store_Job s' k = Some j.
Proof.
  intros (ids & [_ Hids] & _ & _ & Hmv) Hj Hs. rewrite (mv_out _ _ _ _ Hmv); [done|].
  intros (j' & Hj' & Hs')%Hids. congruence.
Qed.

Lemma complete_parent (W : World) s p j text :
  store_wf s → store_Job s p = Some j → coordinator_kind j →
  ∃ s' j', store_CompleteCoordinatorJob W s p text "" = (s', Some j') ∧ store_Job s' p = Some j' ∧
    finished s s' p text.
Proof.
  intros Hwf Hj Hk. pose proof (law_Complete W s p text j Hwf Hj Hk) as Hlaw.
  destruct (store_CompleteCoordinatorJob _ _ _ _ _) as [s' r]. destruct Hlaw as (Hwf' & j' & -> & Hf & Hst).
  exists s', j'. split_and!; [done|by rewrite Hst, bool_decide_eq_true_2|]. split; [done|]. by exists j, j'.
Qed.

Context {T} `{!ActivationTransport T} `{!Json DistributedStageJobInput} `{!JsonMap}.

Lemma prepare_step (W : World) s p :
  store_wf s → (∀ k j, store_Job s k = Some j → is_stage_of p j = true → stage_current j = StagePlanned) →
  match prepareCDIPDistributedJob s p with
  | (s', Ok _) => step_to s s' p StagePlanned StagePreparing
  | (s', Err _) => s' = s
  end.
Proof.
  intros Hwf Hpl. unfold prepareCDIPDistributedJob.
  destruct (open_job s p) as [[parent stages]|] eqn:Hop; [|done]. cbn [mbind result_bind].
  destruct (try_map _ _) as [msgs|]; [|done]. cbn [mbind result_bind].
  destruct (open_job_spec _ _ _ _ _ Hwf Hop) as (_ & _ & _ & _ & Hlen & Hof & Hin & _).
  destruct (update_from W ["prepare"] s p stages StagePlanned StagePreparing "coordinator sent stage.prepare")
    as (s' & -> & Hstep); try done.
  intros j [Hj Hs]%Hin. by eapply Hpl.
Qed.

Lemma prefill_step (W : World) s p :
  store_wf s →
  match startCDIPPrefill s p with
  | (s', Ok _) => step_to s s' p StageReady StagePrefill
  | (s', Err _) => s' = s
  end.
Proof.
  intros Hwf. unfold startCDIPPrefill.
  destruct (phase_messages _ _ _ _ _) as [[[parent stages] msgs]|] eqn:Hph; [|done].
  by destruct (phase_step W ["prefill"] s p _ StagePrefill _ _ "coordinator sent stage.prefill" _ _ _ Hwf Hph)
    as (s' & -> & Hstep & _).
Qed.

Lemma decode_step (W : World) s (bus : T) p step :
  store_wf s →
  match startCDIPDecode s bus p step with
  | (s', _, Returned (Ok _)) => step_to s s' p StagePrefill StageDecode
  | (s', _, _) => s' = s
  end.
Proof.
  intros Hwf. unfold startCDIPDecode.
  destruct (phase_messages _ _ _ _ _) as [[[parent stages] msgs]|] eqn:Hph; [|done].
  destruct (relay_loop _ _ _ _ _) as [bus' [[frames|]| |]]; try done.
  by destruct (phase_step W ["decode"] s p _ StageDecode _ _ "coordinator sent stage.decode" _ _ _ Hwf Hph)
    as (s' & -> & Hstep & _).
Qed.

Lemma result_body_plain parent n output : map_Forall (λ _ v, plain_any v) (result_body parent n output).
Proof. unfold result_body. repeat apply map_Forall_insert_2; try done. Qed.

Lemma complete_step (W : World) s p output :
  store_wf s →
  match completeCDIPDistributedJob s p output with
  | (s', Ok r) => ∃ s1 text, step_to s s1 p StageDecode StageCompleted ∧ finished s1 s' p text ∧
      store_Job s' p = Some (cmdres_ParentJob r)
  | (s', Err _) => s' = s
  end.
Proof.
  intros Hwf. unfold completeCDIPDistributedJob.
  destruct (phase_messages _ _ _ _ _) as [[[parent stages] msgs]|] eqn:Hph; [|done].
  destruct (phase_step W ["complete"] s p _ StageCompleted _ _ "coordinator sent stage.complete" _ _ _ Hwf Hph)
    as (s1 & -> & Hstep & Hp & HID & Hk); [done..|]. cbv zeta.
  destruct (Marshal_map_ok _ (result_body_plain parent (length stages)
    (if blank output then "CDIP distributed inference completed"%string else output))) as [body ->].
  destruct (complete_parent (sub_world ["parent"]) s1 p parent body) as (s' & j' & Hc & Hj' & Hf);
    [by eapply step_to_wf|by eapply step_to_parent|done|].
  rewrite HID, Hc. by exists s1, body.
Qed.
End laws.

(** The action of [advance] for the state all stages share. *)
Inductive action : string → StageState → StageState → Prop :=
  | a_prepare : action "prepare" StagePlanned StagePreparing
  | a_prefill : action "prefill" StageReady StagePrefill
  | a_decode : action "decode" StagePrefill StageDecode
  | a_complete : action "complete" StageDecode StageCompleted.
#[export] Hint Constructors action : cmesh.

Section advancing.
Context {S} `{!StageStore S} `{!StageStoreLaws S}.
Context {T} `{!ActivationTransport T} `{!Json DistributedStageJobInput} `{!JsonMap}.

(** What a step with an action did: the stages moved from the state they
    shared to the next; when that completes them the parent has succeeded, and
    every other job is as it was. *)
Definition advanced (s s' : S) (p : string) (name : string) : Prop :=
  ∃ from to, action name from to ∧
  if bool_decide (to = StageCompleted)
  then ∃ s1 text, step_to s s1 p from to ∧ finished s1 s' p text
  else step_to s s' p from to.

Lemma advance_spec (W : World) (s : S) (bus : T) (p : string) (step : Z) (output : string) :
  store_wf s →
  let '(s', _, out) := advanceCDIPDistributedJob s bus p step output in
  match out with
  | Returned (Ok r) => if adv_Waiting r then s' = s else advanced s s' p (adv_Action r)
  | _ => s' = s
  end.
Proof.
  intros Hwf. unfold advanceCDIPDistributedJob. destruct (open_job s p) as [[parent stages]|] eqn:Hop; [|done].
  destruct (open_job_spec _ _ _ _ _ Hwf Hop) as (_ & HID & _ & _ & _ & _ & Hin & _). rewrite HID.
  destruct (allCDIPStagesIn stages StagePlanned) eqn:H1.
  { apply allCDIPStagesIn_true in H1 as [_ H1].
    pose proof (prepare_step (sub_world ["step"]) s p Hwf) as Hs.
    destruct (prepareCDIPDistributedJob _ _) as [s' [r|]]; simpl; [|apply Hs].
    - exists StagePlanned, StagePreparing. split; [by constructor|]. apply Hs.
      intros k j Hj Hst. apply H1, Hin. pose proof (law_Job_ID _ _ _ Hwf Hj) as ->. by split.
    - intros k j Hj Hst. apply H1, Hin. pose proof (law_Job_ID _ _ _ Hwf Hj) as ->. by split. }
  destruct (allCDIPStagesIn stages StageReady).
  { pose proof (prefill_step (sub_world ["step"]) s p Hwf) as Hs.
    destruct (startCDIPPrefill _ _) as [s' [r|]]; simpl; [|done].
    exists StageReady, StagePrefill. by split; [constructor|]. }
  destruct (allCDIPStagesIn stages StagePrefill).
  { pose proof (decode_step (sub_world ["step"]) s bus p step Hwf) as Hs.
    destruct (startCDIPDecode _ _ _ _) as [[s' b] [[r|]| |]]; simpl; try done.
    exists StagePrefill, StageDecode. by split; [constructor|]. }
  destruct (allCDIPStagesIn stages StageDecode); [|done].
  pose proof (complete_step (sub_world ["step"]) s p output Hwf) as Hs.
  destruct (completeCDIPDistributedJob _ _ _) as [s' [r|]]; simpl; [|done].
  destruct Hs as (s1 & text & Hst & Hf & _).
  exists StageDecode, StageCompleted. split; [by constructor|]. by exists s1, text.
Qed.

(** C3 (safety, state machine). A step of the coordinator moves all the stages
    of a job together or none: when it acts, every stage of the job was in the
    same state and is now in the next one, no other job changed (but the
    parent, which a completion makes succeeded), and when it waits, fails, blocks
    or panics the store is as before. *)
Theorem advance_moves_stages_together (W : World) (s : S) (bus : T) (p : string) (step : Z) (output : string) :
  store_wf s →
  let '(s', _, out) := advanceCDIPDistributedJob s bus p step output in
  match out with
  | Returned (Ok r) =>
      if adv_Waiting r then s' = s else
      ∃ from to, action (adv_Action r) from to ∧
        (∀ k j, store_Job s k = Some j → is_stage_of p j = true → at_state s from k ∧ at_state s' to k) ∧
        (∀ k j, store_Job s k = Some j → is_stage_of p j = false → k ≠ p → store_Job s' k = Some j) ∧
        (to = StageCompleted → ∃ j, store_Job s' p = Some j ∧ job_Status j = StatusSucceeded) ∧
        (to ≠ StageCompleted → store_Job s' p = store_Job s p)
  | _ => s' = s
  end.
Proof.
  intros Hwf. pose proof (advance_spec W s bus p step output Hwf) as Hspec.
  destruct (advanceCDIPDistributedJob s bus p step output) as [[s' b] [[r|]| |]] eqn:Hadv; try done.
  destruct (adv_Waiting r); [done|]. destruct Hspec as (from & to & Ha & Hst).
  assert (∃ parent, store_Job s p = Some parent ∧ coordinator_kind parent) as (parent & Hp & Hk).
  { unfold advanceCDIPDistributedJob in Hadv. destruct (open_job s p) as [[parent stages]|] eqn:Hop; [|done].
    destruct (open_job_spec _ _ _ _ _ Hwf Hop) as (Hp & _ & Hk & _). by exists parent. }
  exists from, to. split; [done|]. case_bool_decide as Hto.
  - destruct Hst as (s1 & text & Hst & Hf). apply (finished_view s1 s' p) in Hf as (Hp' & Hother).
    split_and!; [|..|by intros].
    + intros k j Hj Hs. destruct (step_to_at s s1 p from to) with (k := k) as [? (j' & Hj' & Hc)];
        [by subst|done|by exists j|]. split; [done|]. exists j'. split; [|done]. rewrite Hother; [done|].
      intros ->. rewrite Hp in Hj. injection Hj as <-. by eapply not_stage.
    + intros k j Hj Hs Hne. rewrite Hother by done. by eapply step_to_other.
    + intros _. destruct Hp' as (j & ? & Hf'). by exists j.
  - split_and!.
    + intros k j Hj Hs. apply (step_to_at s s' p); [destruct Ha; done|done|by exists j].
    + intros k j Hj Hs _. by eapply step_to_other.
    + done.
    + intros _. rewrite Hp. by eapply step_to_parent.
Qed.
End advancing.

(** ** Progress *)

Lemma blank_empty_false (x : string) : blank x = false → bool_decide (x = "") = false.
Proof. intros Hx. apply bool_decide_eq_false. by intros ->. Qed.

Definition stream_of (p : string) (k : string) : StreamID := mkStreamID p k.

(** The frame that stage [i] sends downstream. *)
Definition relayed_frame (parent : Job) (step : Z) (i : nat) (upstream downstream : Job) : ActivationFrame :=
  decode_frame (decode_request parent step i upstream downstream).

Lemma relayed_frame_valid parent step i up down :
  blank (job_ID parent) = false → blank (job_ID up) = false →
  ActivationFrame_Validate (relayed_frame parent step i up down) = None.
Proof.
  intros Hp Hu. unfold ActivationFrame_Validate, ActivationChunk_Validate.
  assert (envelope_of_type (NewEnvelope MessageActivationChunk) MessageActivationChunk = None) as He
    by (by apply NewEnvelope_valid).
  unfold relayed_frame, decode_frame. cbn [frame_Header chunk_Envelope frame_Payload chunk_ParentJobID
    chunk_StageJobID chunk_ContentType chunk_PayloadBytes decode_request scr_ParentJobID scr_StageJobID scr_Payload].
  rewrite He. cbn [andthen]. simpl. rewrite Hp, Hu. reflexivity.
Qed.

Lemma relay_ok t parent step i up down :
  blank (job_ID parent) = false → blank (job_ID up) = false → blank (job_AssignedTo down) = false →
  idle t (stream_of (job_ID parent) (job_ID up)) →
  ∃ t', relay t parent step i up down = (t', Returned (Ok (frame_Header (relayed_frame parent step i up down)))) ∧
    ∀ s, idle t s → idle t' s.
Proof.
  intros Hp Hu Hd Hi. set (stream := stream_of (job_ID parent) (job_ID up)) in *.
  assert (validateStreamID stream = None) as Hv.
  { unfold validateStreamID, stream. simpl. by rewrite !blank_empty_false. }
  destruct (mem_stream_idle t stream Hi Hv) as (t1 & cap1 & Ho1 & Hc1 & Hl1 & Hid1).
  destruct (mem_stream_idle t1 stream (Hid1 _ Hi) Hv) as (t2 & cap2 & Ho2 & Hc2 & Hl2 & Hid2).
  destruct (relay_idle t2 stream cap2 (relayed_frame parent step i up down) Hl2 Hc2)
    as (t3 & t4 & Hsend & Hrecv & Hid4); [by apply relayed_frame_valid|].
  exists t4. split; [|auto]. unfold relay. cbn [OpenReader memory_transport]. unfold mem_OpenReader.
  change (mkStreamID (job_ID parent) (job_ID up)) with stream. rewrite Ho1. cbn [mbind result_bind].
  unfold DecodeStage, stageCommandResult. simpl first_error. rewrite Hp, Hu. cbn [check].
  change (negb (scr_HasTransport _) || blank (scr_DownstreamNodeID _)) with (blank (job_AssignedTo down)). rewrite Hd.
  change (bool_decide (scr_Payload _ = "")) with false. cbv iota zeta.
  cbn [OpenWriter memory_transport]. unfold mem_OpenWriter.
  change (mkStreamID (scr_ParentJobID _) (scr_StageJobID _)) with stream. rewrite Ho2. cbn [mbind result_bind Send memory_transport].
  change (decode_frame _) with (relayed_frame parent step i up down). rewrite Hsend.
  cbn [Receive memory_transport]. rewrite Hrecv, relayed_frame_valid by done.
  simpl. by rewrite bool_decide_eq_true_2.
Qed.

Lemma relay_loop_ok parent step stages : ∀ i t,
  blank (job_ID parent) = false →
  (∀ j, j ∈ stages → blank (job_ID j) = false ∧ blank (job_AssignedTo j) = false ∧
    idle t (stream_of (job_ID parent) (job_ID j))) →
  ∃ t' frames, relay_loop t parent step i stages = (t', Returned (Ok frames)) ∧
    (∀ s, idle t s → idle t' s) ∧ length frames = pred (length stages) ∧
    ∀ n f, frames !! n = Some f → ∃ up, stages !! n = Some up ∧ chunk_ParentJobID f = job_ID parent ∧
      chunk_StageJobID f = job_ID up ∧ chunk_Sequence f = step.
Proof.
  induction stages as [|up stages IH]; intros i t Hp Hall; [by exists t, []|].
  destruct stages as [|down rest]; [by exists t, []|].
  destruct (Hall up) as (Hu & _ & Hi); [left|]. destruct (Hall down) as (_ & Hd & _); [right; left|].
  destruct (relay_ok t parent step i up down Hp Hu Hd Hi) as (t1 & Hr & Hid1).
  destruct (IH (i + 1)%nat t1 Hp) as (t2 & frames & Hl & Hid2 & Hlen & Hfr).
  { intros j Hj. destruct (Hall j) as (? & ? & ?); [by right|]. auto. }
  exists t2, (frame_Header (relayed_frame parent step i up down) :: frames).
  split_and!; [|auto|simpl; by rewrite Hlen|].
  - cbn [relay_loop]. rewrite Hr. cbn [relay_loop] in Hl. by rewrite Hl.
  - intros [|n] f Hf; [|by apply (Hfr n)]. injection Hf as <-. by exists up.
Qed.

Section progress.
Context {S} `{!StageStore S} `{!StageStoreLaws S}.

(** A distributed job whose stages are all in [st]: at least two, numbered, on
    named workers. *)
Record distributed_at (s : S) (p : string) (st : StageState) : Prop := {
  da_parent : ∃ parent, store_Job s p = Some parent ∧ coordinator_kind parent ∧ is_terminal parent = false;
  da_name : blank p = false;
  da_many : ∃ ids, stages_of s p ids ∧ (2 ≤ length ids)%nat;
  da_stage k j : store_Job s k = Some j → is_stage_of p j = true →
    job_CDIPState j = st ∧ blank k = false ∧ 0 ≤ job_CDIPStageIndex j ∧ blank (job_AssignedTo j) = false;
}.

Lemma stages_of_length s p ids ids' : stages_of s p ids → stages_of s p ids' → length ids = length ids'.
Proof.
  intros [Hnd Hids] [Hnd' Hids']. apply Permutation_length, NoDup_Permutation; [done..|].
  intros k. by rewrite Hids, Hids'.
Qed.

Lemma open_job_ok (W : World) s p st :
  store_wf s → distributed_at s p st → ∃ parent stages, open_job s p = Ok (parent, stages).
Proof.
  intros Hwf [(parent & Hp & Hk & Ht) _ (ids & Hof & Hlen) _]. unfold open_job.
  rewrite Hp, bool_decide_eq_false_2, Ht by naive_solver.
  rewrite (law_Job_ID _ _ _ Hwf Hp).
  destruct (listed_stages W (sub_world ["jobs"]) s p Hwf) as (Hof' & _).
  pose proof (stages_of_length _ _ _ _ Hof Hof') as Hl. rewrite length_fmap in Hl.
  destruct (Nat.ltb_spec (length (cdipStageJobsForParent (H := W) (store_Jobs (sub_world ["jobs"]) s) p)) 2); [lia|].
  by eexists _, _.
Qed.

Lemma stages_at (W : World) s p st parent stages :
  store_wf s → distributed_at s p st → open_job s p = Ok (parent, stages) →
  job_ID parent = p ∧ (2 ≤ length stages)%nat ∧
  ∀ j, j ∈ stages → job_CDIPState j = st ∧ blank (job_ID j) = false ∧ 0 ≤ job_CDIPStageIndex j ∧
    blank (job_AssignedTo j) = false.
Proof.
  intros Hwf Hd Hop. destruct (open_job_spec _ _ _ _ _ Hwf Hop) as (_ & HID & _ & _ & Hlen & _ & Hin & _).
  split_and!; [done|done|]. intros j [Hj Hs]%Hin. by apply (da_stage _ _ _ Hd).
Qed.

Lemma phase_messages_ok (W : World) s p from kind step :
  store_wf s → distributed_at s p from → isStageCommand kind = true →
  ∃ parent stages messages, phase_messages s p from kind step = Ok (parent, stages, messages).
Proof.
  intros Hwf Hd Hkind. destruct (open_job_ok W s p from Hwf Hd) as (parent & stages & Hop).
  destruct (stages_at W s p from _ _ Hwf Hd Hop) as (HID & _ & Hst).
  unfold phase_messages. rewrite Hop. cbn [mbind result_bind].
  assert (stages_in from stages = None) as -> by (apply stages_in_None; intros j Hj; by apply Hst).
  cbn [check].
  assert (stage_commands kind parent step stages = Ok ((λ st, stage_command kind parent st step) <$> stages)) as ->.
  { apply try_map_Ok. apply Forall2_fmap_r, Forall_Forall2_diag, Forall_forall. intros j Hj.
    destruct (Hst j Hj) as (_ & Hn & Hi & _). cbv zeta.
    assert (StageCommand_Validate (stage_command kind parent j step) kind = None) as ->; [|done].
    unfold StageCommand_Validate. cbn [cmd_Envelope stage_command].
    rewrite NewEnvelope_valid by (by destruct kind). cbn [andthen]. simpl.
    rewrite Hkind, HID, (da_name _ _ _ Hd), Hn. simpl. by destruct (Z.ltb_spec (job_CDIPStageIndex j) 0); [lia|]. }
  by eexists _, _, _.
Qed.

(** The job is still well placed after a step that does not finish the parent. *)
Lemma step_distributed s s' p from to :
  to ≠ StageNone → distributed_at s p from → step_to s s' p from to → distributed_at s' p to.
Proof.
  intros Hne [(parent & Hp & Hk & Ht) Hname (ids & [Hnd Hids] & Hlen) Hst] Hstep.
  pose proof Hstep as (ids' & [Hnd' Hids'] & _ & _ & Hmv).
  assert (∀ k, k ∈ ids ↔ k ∈ ids') as Heq by (intros k; by rewrite Hids, Hids').
  assert (∀ k j', store_Job s' k = Some j' → is_stage_of p j' = true →
    ∃ j, store_Job s k = Some j ∧ is_stage_of p j = true ∧ stage_moved to j j') as Hback.
  { intros k j' Hj' Hs'. destruct (decide (k ∈ ids')) as [Hin|Hout].
    - destruct (mv_in _ _ _ _ Hmv k Hin) as (j & j2 & Hj & Hj2 & Hm). rewrite Hj' in Hj2. injection Hj2 as <-.
      exists j. split_and!; [done| |done]. by rewrite <- (is_stage_of_core p j j') by apply Hm.
    - rewrite (mv_out _ _ _ _ Hmv k Hout) in Hj'. exfalso. apply Hout, Hids'. by exists j'. }
  split.
  - exists parent. split_and!; [by eapply step_to_parent|done|done].
  - done.
  - exists ids. split; [split; [done|]|done]. intros k. rewrite Heq. split.
    + intros Hin. destruct (mv_in _ _ _ _ Hmv k Hin) as (j & j' & Hj & Hj' & Hm). exists j'. split; [done|].
      rewrite (is_stage_of_core p j j') by apply Hm. apply Hids' in Hin as (j2 & Hj2 & ?). congruence.
    + intros (j' & Hj' & Hs'). destruct (Hback k j' Hj' Hs') as (j & Hj & Hs & _). apply Hids'. by exists j.
  - intros k j' Hj' Hs'. destruct (Hback k j' Hj' Hs') as (j & Hj & Hs & Hm).
    destruct (Hst k j Hj Hs) as (_ & ? & Hi & Ha). destruct Hm as [Hc Hw Hn _].
    rewrite Hw. pose proof (f_equal core_StageIndex Hc) as Hix. simpl in Hix. rewrite Hix. by split_and!.
Qed.
End progress.

Section runs.
Context {S} `{!StageStore S} `{!StageStoreLaws S}.
Context `{!Json DistributedStageJobInput} `{!JsonMap}.

(** The streams between the stages are idle. *)
Definition streams_idle (s : S) (bus : MemoryActivationTransport) (p : string) : Prop :=
  ∀ k j, store_Job s k = Some j → is_stage_of p j = true → idle bus (stream_of p k).

Lemma step_stages_back s s' p from to k j' :
  step_to s s' p from to → store_Job s' k = Some j' → is_stage_of p j' = true →
  ∃ j, store_Job s k = Some j ∧ is_stage_of p j = true.
Proof.
  intros (ids & [_ Hids] & _ & _ & Hmv) Hj' Hs'. destruct (decide (k ∈ ids)) as [Hin|Hout]; [by apply Hids|].
  rewrite (mv_out _ _ _ _ Hmv k Hout) in Hj'. by exists j'.
Qed.
Lemma step_stages_fwd s s' p from to k j :
  step_to s s' p from to → store_Job s k = Some j → is_stage_of p j = true →
  ∃ j', store_Job s' k = Some j' ∧ is_stage_of p j' = true.
Proof.
  intros (ids & [_ Hids] & _ & _ & Hmv) Hj Hs. assert (k ∈ ids) as Hin by (apply Hids; by exists j).
  destruct (mv_in _ _ _ _ Hmv k Hin) as (j0 & j' & Hj0 & Hj' & Hm). exists j'. split; [done|].
  rewrite (is_stage_of_core p j0 j') by apply Hm. congruence.
Qed.
Lemma step_streams_idle s s' bus p from to :
  step_to s s' p from to → streams_idle s bus p → streams_idle s' bus p.
Proof. intros Hst Hi k j' Hj' Hs'. destruct (step_stages_back _ _ _ _ _ _ _ Hst Hj' Hs') as (j & ? & ?). by eapply Hi. Qed.

(** A stage that completed is completed and succeeded after the parent finished. *)
Lemma completed_stage s s1 s2 s3 p text k j :
  step_to s s1 p StageDecode StageCompleted → finished s1 s2 p text → s3 = s2 →
  store_Job s k = Some j → is_stage_of p j = true → (∃ parent, store_Job s p = Some parent ∧ coordinator_kind parent) →
  ∃ j3, store_Job s3 k = Some j3 ∧ job_CDIPState j3 = StageCompleted ∧ job_Status j3 = StatusSucceeded.
Proof.
  intros (ids & [_ Hids] & _ & _ & Hmv) Hf -> Hj Hs (parent & Hp & Hk).
  assert (k ∈ ids) as Hin by (apply Hids; by exists j).
  destruct (mv_in _ _ _ _ Hmv k Hin) as (j0 & j1 & _ & Hj1 & [_ _ Hst Hok]).
  exists j1. split_and!; [|done|by apply Hok].
  destruct (finished_view _ _ _ _ Hf) as [_ Hother]. rewrite Hother; [done|].
  intros ->. rewrite Hp in Hj. injection Hj as <-. by eapply not_stage.
Qed.

Lemma prefill_ok (W : World) s p :
  store_wf s → distributed_at s p StageReady →
  ∃ s' r, startCDIPPrefill s p = (s', Ok r) ∧ step_to s s' p StageReady StagePrefill ∧
    distributed_at s' p StagePrefill.
Proof.
  intros Hwf Hd. unfold startCDIPPrefill.
  destruct (phase_messages_ok W s p StageReady MessageStagePrefill 0) as (parent & stages & msgs & Hph); [done..|].
  destruct (phase_step W ["prefill"] s p _ StagePrefill _ _ "coordinator sent stage.prefill" _ _ _ Hwf Hph)
    as (s' & Hu & Hstep & _); [done..|].
  rewrite Hph, Hu. eexists s', _. split_and!; [done|done|by eapply step_distributed].
Qed.

Lemma decode_ok (W : World) s bus p step :
  store_wf s → distributed_at s p StagePrefill → streams_idle s bus p →
  ∃ s' bus' r stages, startCDIPDecode s bus p step = (s', bus', Returned (Ok r)) ∧
    step_to s s' p StagePrefill StageDecode ∧ distributed_at s' p StageDecode ∧ (∀ x, idle bus x → idle bus' x) ∧
    StronglySorted (not_after stage_less) stages ∧
    (∀ j, j ∈ stages ↔ store_Job s (job_ID j) = Some j ∧ is_stage_of p j = true) ∧
    (length (cmdres_ActivationFrames r) + 1 = length stages)%nat ∧
    ∀ n f, cmdres_ActivationFrames r !! n = Some f → ∃ up, stages !! n = Some up ∧
      chunk_ParentJobID f = p ∧ chunk_StageJobID f = job_ID up ∧ chunk_Sequence f = if step =? 0 then 1 else step.
Proof.
  intros Hwf Hd Hidle. unfold startCDIPDecode. set (step' := if step =? 0 then 1 else step).
  destruct (phase_messages_ok W s p StagePrefill MessageStageDecode step') as (parent & stages & msgs & Hph); [done..|].
  destruct (phase_step W ["decode"] s p _ StageDecode _ _ "coordinator sent stage.decode" _ _ _ Hwf Hph)
    as (s' & Hu & Hstep & _ & HID & _); [done..|].
  pose proof (phase_messages_spec _ _ _ _ _ _ _ _ _ Hph) as (Hop & _ & _).
  destruct (open_job_spec _ _ _ _ _ Hwf Hop) as (_ & _ & _ & _ & Hlen & _ & Hin & Hsorted).
  destruct (stages_at W s p _ _ _ Hwf Hd Hop) as (_ & _ & Hst).
  destruct (relay_loop_ok parent step' stages 0 bus) as (bus' & frames & Hr & Hid & Hfl & Hfr).
  { rewrite HID. by apply (da_name _ _ _ Hd). }
  { intros j Hj. destruct (Hst j Hj) as (_ & ? & _ & ?). apply Hin in Hj as [? ?].
    rewrite HID. split_and!; [done..|]. by eapply Hidle. }
  rewrite Hph, Hr, Hu. exists s', bus', (mkCDIPCommandResult parent (stages_after s' parent) msgs frames), stages.
  cbn [cmdres_ActivationFrames].
  split_and!; [done|done|by eapply step_distributed|done|done|done|lia|].
  intros n f Hf. destruct (Hfr n f Hf) as (up & ? & ? & ? & ?). exists up. rewrite <- HID at 1. by split_and!.
Qed.

Lemma complete_ok (W : World) s p output :
  store_wf s → distributed_at s p StageDecode →
  ∃ s' r, completeCDIPDistributedJob s p output = (s', Ok r).
Proof.
  intros Hwf Hd. unfold completeCDIPDistributedJob.
  destruct (phase_messages_ok W s p StageDecode MessageStageComplete 0) as (parent & stages & msgs & Hph); [done..|].
  destruct (phase_step W ["complete"] s p _ StageCompleted _ _ "coordinator sent stage.complete" _ _ _ Hwf Hph)
    as (s1 & Hu & Hstep & Hp & HID & Hk); [done..|].
  rewrite Hph, Hu. cbv zeta.
  destruct (Marshal_map_ok _ (result_body_plain parent (length stages)
    (if blank output then "CDIP distributed inference completed"%string else output))) as [body ->].
  destruct (complete_parent (sub_world ["parent"]) s1 p parent body) as (s' & j' & Hc & _);
    [by eapply step_to_wf|by eapply step_to_parent|done|].
  rewrite HID, Hc. by eexists _, _.
Qed.

(** [advance] takes the phase of the state all stages share. *)
Lemma advance_phase (W : World) s p st :
  store_wf s → distributed_at s p st → st ≠ StageNone →
  ∃ parent stages, open_job s p = Ok (parent, stages) ∧ job_ID parent = p ∧
    ∀ st', allCDIPStagesIn stages st' = bool_decide (st' = st).
Proof.
  intros Hwf Hd Hne. destruct (open_job_ok W s p st Hwf Hd) as (parent & stages & Hop).
  destruct (stages_at W s p st _ _ Hwf Hd Hop) as (HID & Hlen & Hst). exists parent, stages.
  split_and!; [done|done|]. intros st'. apply eq_true_iff_eq. rewrite allCDIPStagesIn_true, bool_decide_eq_true.
  assert (∀ j, j ∈ stages → stage_current j = st) as Hcur.
  { intros j Hj. unfold stage_current. destruct (Hst j Hj) as [-> _]. by rewrite bool_decide_eq_false_2. }
  destruct stages as [|j0 stages]; [simpl in Hlen; lia|]. split.
  - intros [_ H']. rewrite <- (Hcur j0), <- (H' j0) by left. done.
  - intros ->. by split.
Qed.

(** C24 (functional, ordering). A decode step of an open distributed job of at least two
    stages that are all in prefill, each assigned to a named worker, over idle
    streams: it never blocks; every stage but the last, in the order of the
    pipeline, sends exactly one frame, numbered with the step (one for zero),
    and the coordinator receives these frames and moves all stages to decode,
    leaving the streams idle.  (With a stage that has no worker it can block,
    [decode_blocks_without_worker].) *)
Theorem decode_relays_activations (W : World) (s : S) (bus : MemoryActivationTransport) (p : string) (step : Z) :
  store_wf s → distributed_at s p StagePrefill → streams_idle s bus p →
  ∃ s' bus' r stages, startCDIPDecode s bus p step = (s', bus', Returned (Ok r)) ∧
    StronglySorted (not_after stage_less) stages ∧
    (∀ j, j ∈ stages ↔ store_Job s (job_ID j) = Some j ∧ is_stage_of p j = true) ∧
    chunk_StageJobID <$> cmdres_ActivationFrames r = job_ID <$> take (length stages - 1) stages ∧
    Forall (λ f, chunk_Sequence f = if step =? 0 then 1 else step) (cmdres_ActivationFrames r) ∧
    (∀ k j, store_Job s k = Some j → is_stage_of p j = true → at_state s' StageDecode k) ∧
    streams_idle s bus' p.
Proof.
  intros Hwf Hd Hidle.
  destruct (decode_ok W s bus p step Hwf Hd Hidle)
    as (s' & bus' & r & stages & Hdec & Hstep & _ & Hid & Hsorted & Hin & Hlen & Hfr).
  exists s', bus', r, stages. split_and!; [done|done|done| | |..].
  - apply list_eq. intros n. rewrite !list_lookup_fmap.
    destruct (cmdres_ActivationFrames r !! n) as [f|] eqn:Ef.
    + destruct (Hfr n f Ef) as (up & Hup & _ & Hs & _). apply lookup_lt_Some in Ef.
      rewrite lookup_take_lt, Hup by lia. simpl. by rewrite Hs.
    + apply lookup_ge_None in Ef. by rewrite lookup_take_ge by lia.
  - apply Forall_lookup. intros n f Hf. by destruct (Hfr n f Hf) as (_ & _ & _ & _ & ?).
  - intros k j Hj Hs. apply (step_to_at s s' p StagePrefill StageDecode); [done|done|by exists j].
  - intros k j Hj Hs. apply Hid. by eapply Hidle.
Qed.

End runs.

(** ** The mock run *)

Section mock.
Context {S} `{!StageStore S} `{!StageStoreLaws S}.
Context `{!Json DistributedStageJobInput} `{!JsonMap}.

Lemma stage_moved_trans n1 n2 j1 j2 j3 : stage_moved n1 j1 j2 → stage_moved n2 j2 j3 → stage_moved n2 j1 j3.
Proof. intros [] []. split; congruence || done. Qed.

Lemma moved_trans n1 n2 ids (s1 s2 s3 : S) : moved n1 ids s1 s2 → moved n2 ids s2 s3 → moved n2 ids s1 s3.
Proof.
  intros [_ Hin1 Hout1] [Hwf Hin2 Hout2]. split; [done|..].
  - intros k Hk. destruct (Hin1 k Hk) as (j1 & j2 & H1 & H2 & Hm1), (Hin2 k Hk) as (j2' & j3 & H2' & H3 & Hm2).
    rewrite H2 in H2'. injection H2' as <-. exists j1, j3. split_and!; [done|done|by eapply stage_moved_trans].
  - intros k Hk. by rewrite Hout2, Hout1.
Qed.
Lemma moved_app next ids1 ids2 (s1 s2 s3 : S) :
  (∀ k, k ∈ ids1 → k ∉ ids2) → moved next ids1 s1 s2 → moved next ids2 s2 s3 → moved next (ids1 ++ ids2) s1 s3.
Proof.
  intros Hdisj [_ Hin1 Hout1] [Hwf Hin2 Hout2]. split; [done|..].
  - intros k [Hk|Hk]%elem_of_app.
    + destruct (Hin1 k Hk) as (j1 & j2 & H1 & H2 & Hm1). exists j1, j2. rewrite Hout2 by auto. by split_and!.
    + destruct (Hin2 k Hk) as (j2 & j3 & H2 & H3 & Hm2). exists j2, j3. split_and!; [|done|done].
      rewrite <- Hout1; [done|]. intros Hk1. by apply (Hdisj k).
  - intros k [Hk1 Hk2]%not_elem_of_app. by rewrite Hout2, Hout1.
Qed.

Lemma update_one (W : World) s k j next detail :
  store_wf s → store_Job s k = Some j → stage_kind j → CanTransition (stage_current j) next = true →
  ∃ s' j', store_UpdateCDIPStageState W s k next detail = (s', Some j') ∧ moved next [k] s s' ∧
    store_Job s' k = Some j'.
Proof.
  intros Hwf Hj Hk Hcan. pose proof (law_Update W s k next detail Hwf) as Hlaw.
  destruct (store_UpdateCDIPStageState _ _ _ _ _) as [s' r]. destruct Hlaw as [Hwf' Hlaw].
  rewrite Hj, Hcan, bool_decide_eq_true_2 in Hlaw by done. simpl in Hlaw. destruct Hlaw as (j' & -> & Hm & Hst).
  exists s', j'. assert (store_Job s' k = Some j') as Hj' by (by rewrite Hst, bool_decide_eq_true_2).
  split_and!; [done| |done]. split; [done|..].
  - intros k' ->%list_elem_of_singleton. by exists j, j'.
  - intros k' Hk'. rewrite list_elem_of_singleton in Hk'. by rewrite Hst, bool_decide_eq_false_2.
Qed.

Lemma mock_prepare_spec (W : World) stages : ∀ s,
  store_wf s → NoDup (job_ID <$> stages) →
  (∀ j, j ∈ stages → store_Job s (job_ID j) = Some j ∧ stage_kind j ∧ stage_current j = StagePlanned) →
  ∃ s', mock_prepare s stages = (s', None) ∧ moved StageReady (job_ID <$> stages) s s'.
Proof.
  induction stages as [|j stages IH]; intros s Hwf Hnd Hall.
  { exists s. split; [done|]. split; [done|by intros k ?%elem_of_nil|done]. }
  apply NoDup_cons in Hnd as [Hnj Hnd]. destruct (Hall j) as (Hj & Hk & Hcur); [left|].
  destruct (update_one (sub_world ["mock-prepare"; job_ID j]) s (job_ID j) j StagePreparing
    "mock coordinator preparing stage") as (s1 & j1 & Hu1 & Hm1 & Hj1); [done..|by rewrite Hcur|].
  pose proof Hm1 as [Hwf1 Hin1 Hout1].
  destruct (Hin1 (job_ID j)) as (j0 & j1' & Hj0 & Hj1' & [Hc1 _ Hs1 _]); [left|].
  rewrite Hj in Hj0. injection Hj0 as <-. rewrite Hj1 in Hj1'. injection Hj1' as <-.
  destruct (update_one (sub_world ["mock-ready"; job_ID j]) s1 (job_ID j) j1 StageReady
    "mock coordinator stage ready") as (s2 & j2 & Hu2 & Hm2 & Hj2); [done|done| |by unfold stage_current; rewrite Hs1|].
  { unfold stage_kind in *. rewrite <- Hk. by apply (f_equal core_Type) in Hc1. }
  pose proof (moved_trans _ _ _ _ _ _ Hm1 Hm2) as Hm. pose proof Hm as [Hwf2 _ Hout2].
  destruct (IH s2 Hwf2 Hnd) as (s' & Hs' & Hm').
  { intros x Hx. rewrite Hout2; [apply Hall; by right|]. rewrite list_elem_of_singleton. intros Heq.
    apply Hnj. rewrite <- Heq. by apply list_elem_of_fmap_2. }
  exists s'. cbn [mock_prepare]. rewrite Hu1, Hu2. split; [done|].
  change (job_ID <$> j :: stages) with ([job_ID j] ++ (job_ID <$> stages)).
  eapply moved_app; [|exact Hm|exact Hm']. intros k ->%list_elem_of_singleton. done.
Qed.

(** The stage jobs of a list, as they are in a store. *)
Definition tracked (s : S) (st : StageState) (stages : list Job) : Prop :=
  store_wf s ∧ NoDup (job_ID <$> stages) ∧
  ∀ j, j ∈ stages → ∃ j', store_Job s (job_ID j) = Some j' ∧ stage_kind j' ∧ stage_current j' = st.

Lemma update_tracked (W : World) t s stages from next detail :
  tracked s from stages → CanTransition from next = true → next ≠ StageNone →
  ∃ s', update_stages t s stages next detail = (s', None) ∧ moved next (job_ID <$> stages) s s' ∧ tracked s' next stages.
Proof.
  intros (Hwf & Hnd & Hall) Hcan Hne. revert s Hwf Hall. induction stages as [|j stages IH]; intros s Hwf Hall.
  { exists s. split_and!; [done|split; [done|by intros k ?%elem_of_nil|done]|].
    split_and!; [done|done|by intros j ?%elem_of_nil]. }
  apply NoDup_cons in Hnd as [Hnj Hnd]. destruct (Hall j) as (j0 & Hj & Hk & Hcur); [left|].
  destruct (update_one (sub_world (t ++ [job_ID j])) s (job_ID j) j0 next detail)
    as (s1 & j1 & Hu1 & Hm1 & Hj1); [done..|by rewrite Hcur|].
  pose proof Hm1 as [Hwf1 Hin1 Hout1].
  destruct (IH Hnd s1 Hwf1) as (s' & Hs' & Hm' & Htr).
  { intros x Hx. destruct (Hall x) as (x' & ? & ? & ?); [by right|]. exists x'. split_and!; [|done..].
    rewrite Hout1; [done|]. rewrite list_elem_of_singleton. intros Heq.
    apply Hnj. rewrite <- Heq. by apply list_elem_of_fmap_2. }
  exists s'. cbn [update_stages]. rewrite Hu1. split; [done|].
  assert (moved next (job_ID <$> j :: stages) s s') as Hm.
  { change (job_ID <$> j :: stages) with ([job_ID j] ++ (job_ID <$> stages)).
    eapply moved_app; [|exact Hm1|exact Hm']. intros k ->%list_elem_of_singleton. done. }
  split; [done|]. split_and!; [by destruct Hm|by apply NoDup_cons|].
  intros x Hx. destruct (mv_in _ _ _ _ Hm (job_ID x)) as (x0 & x1 & Hx0 & Hx1 & Hmv); [by apply list_elem_of_fmap_2|].
  exists x1. split_and!; [done| |by eapply stage_current_moved].
  destruct (Hall x Hx) as (x0' & Hx0' & Hkx & _). rewrite Hx0 in Hx0'. injection Hx0' as <-.
  unfold stage_kind in *. rewrite <- Hkx. apply (f_equal core_Type (sm_core _ _ _ Hmv)).
Qed.

(** (liveness). The mock run of a planned job with at least two stages
    always completes it: every stage goes through preparing, ready, prefill and
    decode to completed and has succeeded, the parent has succeeded with the
    mock's output, and no other job changed. *)
Theorem mock_run_completes (W : World) (s : S) (p : string) (parent : Job) (stages : list Job) :
  store_wf s → open_job s p = Ok (parent, stages) →
  (∀ j, j ∈ stages → stage_current j = StagePlanned) →
  ∃ s' r, runCDIPMockCoordinator s p = (s', Ok r) ∧ store_wf s' ∧
    (∀ j, j ∈ stages → ∃ j', store_Job s' (job_ID j) = Some j' ∧ core j' = core j ∧
      job_CDIPState j' = StageCompleted ∧ job_Status j' = StatusSucceeded) ∧
    (∃ parent', store_Job s' p = Some parent' ∧ mock_ParentJob r = parent' ∧
      job_Status parent' = StatusSucceeded ∧ job_Result parent' = mock_Output r) ∧
    (∀ k, k ≠ p → k ∉ job_ID <$> stages → store_Job s' k = store_Job s k).
Proof.
  intros Hwf Hop Hpl. destruct (open_job_spec _ _ _ _ _ Hwf Hop) as (Hp & HID & Hk & _ & _ & [Hnd Hids] & Hin & _).
  unfold runCDIPMockCoordinator. rewrite Hop.
  destruct (mock_prepare_spec W stages s Hwf Hnd) as (s1 & -> & Hm1).
  { intros j Hj. pose proof (Hpl j Hj). apply Hin in Hj as [? [? _]%is_stage_of_kind]. by split_and!. }
  assert (tracked s1 StageReady stages) as Ht1.
  { split_and!; [by destruct Hm1|done|]. intros j Hj.
    destruct (mv_in _ _ _ _ Hm1 (job_ID j)) as (j0 & j1 & Hj0 & Hj1 & Hmv); [by apply list_elem_of_fmap_2|].
    exists j1. split_and!; [done| |by eapply stage_current_moved].
    apply Hin in Hj as [Hj [Hsk _]%is_stage_of_kind]. rewrite Hj in Hj0. injection Hj0 as <-.
    unfold stage_kind in *. rewrite <- Hsk. apply (f_equal core_Type (sm_core _ _ _ Hmv)). }
  cbn [mock_phases].
  destruct (update_tracked W ["mock"; "prefill"] s1 stages StageReady StagePrefill "mock activation prefill" Ht1)
    as (s2 & -> & Hm2 & Ht2); [done..|].
  destruct (update_tracked W ["mock"; "decode"] s2 stages StagePrefill StageDecode "mock activation decode" Ht2)
    as (s3 & -> & Hm3 & Ht3); [done..|].
  destruct (update_tracked W ["mock"; "complete"] s3 stages StageDecode StageCompleted "mock stage completed" Ht3)
    as (s4 & -> & Hm4 & Ht4); [done..|].
  pose proof (moved_trans _ _ _ _ _ _ Hm1 (moved_trans _ _ _ _ _ _ Hm2 (moved_trans _ _ _ _ _ _ Hm3 Hm4))) as Hm.
  assert (p ∉ job_ID <$> stages) as Hpn.
  { intros (j & Hj & Hs)%Hids. rewrite Hp in Hj. injection Hj as <-. by eapply not_stage. }
  assert (store_Job s4 p = Some parent) as Hp4 by (by rewrite (mv_out _ _ _ _ Hm)).
  destruct (complete_parent (sub_world ["parent"]) s4 p parent "CDIP mock distributed inference completed")
    as (s' & parent' & Hc & Hp' & Hf); [by destruct Hm|done|done|].
  cbv zeta. rewrite HID, Hc.
  pose proof (finished_view _ _ _ _ Hf) as [_ Hother]. destruct Hf as (Hwf' & j0 & j0' & Hj0 & [_ Hst Hres] & Hlk).
  assert (j0' = parent') as -> by (rewrite Hlk, bool_decide_eq_true_2 in Hp' by done; by injection Hp').
  eexists s', _. split_and!; [reflexivity|done| |exists parent'; by split_and!|].
  - intros j Hj. destruct (mv_in _ _ _ _ Hm (job_ID j)) as (j1 & j2 & Hj1 & Hj2 & [Hcore _ Hs Hok]);
      [by apply list_elem_of_fmap_2|].
    exists j2. apply Hin in Hj as Hj'. destruct Hj' as [Hj' _]. rewrite Hj' in Hj1. injection Hj1 as <-.
    split_and!; [|done|done|by apply Hok]. rewrite Hother; [done|]. intros Heq. apply Hpn. rewrite <- Heq.
    by apply list_elem_of_fmap_2.
  - intros k Hk1 Hk2. rewrite Hother by done. by apply (mv_out _ _ _ _ Hm).
Qed.
End mock.

(** ** The job store keeps the promises *)

Section state_store.
Context `{Codecs}.

#[export] Instance State_store : StageStore State := {|
  store_Job := FindJob;
  store_Jobs W s := Jobs (H := W) s;
  store_UpdateCDIPStageState W s id next detail := UpdateCDIPStageState (H := W) s id next detail;
  store_CompleteCoordinatorJob W s id text err := CompleteCoordinatorJob (H := W) s id text err;
|}.

Lemma Jobs_NoDup (W : World) (s : State) : state_wf s → NoDup (job_ID <$> Jobs s).
Proof.
  intros Hwf. unfold Jobs. rewrite range_values_perm.
  assert (job_ID <$> (map_to_list (st_jobs s)).*2 = (map_to_list (st_jobs s)).*1) as ->; [|apply NoDup_fst_map_to_list].
  rewrite <- list_fmap_compose. apply list_fmap_ext. intros i [k j] Hk. simpl.
  apply list_elem_of_lookup_2, elem_of_map_to_list in Hk. by destruct (wf_jobs s Hwf _ _ Hk).
Qed.

Lemma stage_job_completed job detail now : job_Status (stage_job job StageCompleted detail now) = StatusSucceeded.
Proof. reflexivity. Qed.

Lemma Update_law (W : World) (s : State) id next detail :
  state_wf s →
  let '(s', r) := UpdateCDIPStageState s id next detail in
  state_wf s' ∧
  match st_jobs s !! id with
  | Some j =>
      if bool_decide (stage_kind j) && CanTransition (stage_current j) next then
        ∃ j', r = Some j' ∧ stage_moved next j j' ∧
          ∀ k, st_jobs s' !! k = if bool_decide (k = id) then Some j' else st_jobs s !! k
      else r = None ∧ s' = s
  | None => r = None ∧ s' = s
  end.
Proof.
  intros Hwf. pose proof (ss_wf _ _ _ _ (UpdateCDIPStageState_step s id next detail Hwf)) as Hwf'.
  destruct (UpdateCDIPStageState s id next detail) as [s' r] eqn:E. split; [done|].
  unfold UpdateCDIPStageState in E. destruct (st_jobs s !! id) as [j|] eqn:Hid; [|by injection E as <- <-].
  unfold stage_kind. case_bool_decide as Hk; [rewrite bool_decide_eq_false_2 by done; by injection E as <- <-|].
  rewrite bool_decide_eq_true_2 by done. destruct (CanTransition _ _); simpl in *; [|by injection E as <- <-].
  injection E as <- <-. eexists. split; [done|].
  destruct (stage_job_spec j next detail (w_clock ["now"])) as (Hc & Hn & Hto & _).
  assert (job_ID (stage_job j next detail (w_clock ["now"])) = id) as HID.
  { apply (f_equal core_ID) in Hc. simpl in Hc. rewrite Hc. by destruct (wf_jobs s Hwf _ _ Hid). }
  split; [split; [done..|by intros ->]|]. intros k. simpl. rewrite HID.
  case_bool_decide as Hki; [by subst; rewrite lookup_insert_eq|by rewrite lookup_insert_ne].
Qed.

Lemma Complete_law (W : World) (s : State) id text j :
  state_wf s → st_jobs s !! id = Some j → coordinator_kind j →
  let '(s', r) := CompleteCoordinatorJob s id text "" in
  state_wf s' ∧ ∃ j', r = Some j' ∧ parent_finished text j j' ∧
    ∀ k, st_jobs s' !! k = if bool_decide (k = id) then Some j' else st_jobs s !! k.
Proof.
  intros Hwf Hid Hk. pose proof (ss_wf _ _ _ _ (CompleteCoordinatorJob_step s id text "" Hwf)) as Hwf'.
  destruct (CompleteCoordinatorJob s id text "") as [s' r] eqn:E. split; [done|].
  unfold CompleteCoordinatorJob in E. rewrite Hid, bool_decide_eq_false_2 in E by (intros ?; done).
  injection E as <- <-. eexists. split; [done|]. split; [by split|].
  intros k. simpl. destruct (wf_jobs s Hwf _ _ Hid) as [-> _].
  case_bool_decide as Hki; [by subst; rewrite lookup_insert_eq|by rewrite lookup_insert_ne].
Qed.

Lemma Job_ID_law (s : State) id j : state_wf s → st_jobs s !! id = Some j → job_ID j = id.
Proof. intros Hwf Hj. by destruct (wf_jobs s Hwf _ _ Hj). Qed.
Lemma Jobs_law (W : World) (s : State) j : state_wf s → j ∈ Jobs s ↔ st_jobs s !! job_ID j = Some j.
Proof.
  intros Hwf. unfold Jobs. rewrite range_values_elem. split; [|intros Hj; by exists (job_ID j)].
  intros [k Hk]. by destruct (wf_jobs s Hwf _ _ Hk) as [-> _].
Qed.

#[export] Instance State_laws : StageStoreLaws State := {|
  store_wf := state_wf;
  law_Job_ID := Job_ID_law;
  law_Jobs := Jobs_law;
  law_Jobs_NoDup := Jobs_NoDup;
  law_Update := Update_law;
  law_Complete := Complete_law;
|}.
End state_store.

(** ** Worked examples *)

Lemma fresh_idle buffer stream : idle (NewMemoryActivationTransport buffer) stream.
Proof. unfold idle. simpl. rewrite lookup_empty. destruct (Z.ltb_spec buffer 1); lia. Qed.

Section demo.
#[local] Existing Instance demo_codecs.
Definition demo_payload : DistributedStageJobInput :=
  mkDistributedStageJobInput "p" "m" "" (demo_stage_input 0 "node-a" 0 9) (demo_shard 0 "node-a" 0 9)
    "" "" "" [] "" 0 "".
#[local] Instance demo_stage_json : Json DistributedStageJobInput := fixed_codec demo_payload.
#[local] Existing Instance opaque_map_codec.
#[local] Instance demo_coord_world : World := world_at 70.

Definition coord_parent : Job :=
  mkJob "p" JobGenerateDistributed StatusQueued "" "" "" (demo_req 1) "" "" 0 1 "" StageNone "" 0 10 10 0 0.
Definition coord_stage (id node : string) (i : Z) (st : StageState) : Job :=
  mkJob id JobGenerateStage StatusScheduled "" node "" (demo_req 1) "" "" 1 1 "" st "p" i 10 10 0 0.
Definition coord_state (st : StageState) : State :=
  (NewState 0) <| st_jobs := <["p" := coord_parent]> $ <["a" := coord_stage "a" "node-a" 0 st]> $
                             <["b" := coord_stage "b" "node-b" 1 st]> ∅ |>.

Lemma coord_lookup st k j :
  st_jobs (coord_state st) !! k = Some j →
  k = "p"%string ∧ j = coord_parent ∨ k = "a"%string ∧ j = coord_stage "a" "node-a" 0 st ∨
  k = "b"%string ∧ j = coord_stage "b" "node-b" 1 st.
Proof.
  unfold coord_state. simpl. rewrite !lookup_insert_Some, lookup_empty. naive_solver.
Qed.

Lemma coord_wf st : store_wf (coord_state st).
Proof.
  change (state_wf (coord_state st)).
  split.
  - apply map_Forall_empty.
  - intros k j [[-> ->]|[[-> ->]|[-> ->]]]%coord_lookup; (split; [done|]); split; simpl; done || lia.
Qed.

Lemma coord_at st : distributed_at (coord_state st) "p" st.
Proof.
  split.
  - by exists coord_parent.
  - done.
  - exists ["a"; "b"]%string. split; [|simpl; lia]. split; [apply (bool_decide_unpack _); by vm_compute|].
    intros k. rewrite !elem_of_cons, elem_of_nil. split.
    + intros [->|[->|[]]]; by eexists.
    + intros (j & Hj & Hs). apply coord_lookup in Hj as [[-> ->]|[[-> ->]|[-> ->]]]; [by vm_compute in Hs|tauto..].
  - intros k j [[-> ->]|[[-> ->]|[-> ->]]]%coord_lookup Hs; [by vm_compute in Hs|by split_and!..].
Qed.

Definition fresh_bus : MemoryActivationTransport := NewMemoryActivationTransport 8.
Lemma coord_streams st : streams_idle (coord_state st) fresh_bus "p".
Proof. intros k j _ _. apply fresh_idle. Qed.

Lemma advance_moves_stages_together_witness :
  match advanceCDIPDistributedJob (coord_state StageReady) fresh_bus "p" 0 "" with
  | (s', _, Returned (Ok r)) => adv_Waiting r = false ∧ at_state s' StagePrefill "a" ∧ at_state s' StagePrefill "b"
  | _ => False
  end.
Proof.
  pose proof (advance_moves_stages_together _ (coord_state StageReady) fresh_bus "p" 0 "" (coord_wf _)) as H.
  assert (match advanceCDIPDistributedJob (coord_state StageReady) fresh_bus "p" 0 "" with
          | (_, _, Returned (Ok r)) => (adv_Waiting r, adv_Action r) | _ => (true, ""%string) end
          = (false, "prefill"%string)) as E by (vm_compute; reflexivity).
  destruct (advanceCDIPDistributedJob _ _ _ _ _) as [[s' b] [[r|]| |]]; try discriminate E.
  injection E as Ew Ea. rewrite Ew, Ea in H. destruct H as (from & to & Hact & Hst & _).
  inversion Hact; subst. split_and!; [done| |].
  - by apply (Hst "a"%string (coord_stage "a" "node-a" 0 StageReady)).
  - by apply (Hst "b"%string (coord_stage "b" "node-b" 1 StageReady)).
Defined.

Lemma decode_relays_activations_witness :
  ∃ s' bus' r, startCDIPDecode (coord_state StagePrefill) fresh_bus "p" 7 = (s', bus', Returned (Ok r)) ∧
    Forall (λ f, chunk_Sequence f = 7) (cmdres_ActivationFrames r).
Proof.
  destruct (decode_relays_activations _ (coord_state StagePrefill) fresh_bus "p" 7
    (coord_wf _) (coord_at _) (coord_streams _)) as (s' & bus' & r & stages & Hd & _ & _ & _ & Hf & _).
  exists s', bus', r. split; [exact Hd|exact Hf].
Defined.


Lemma mock_run_completes_witness :
  ∃ s' r, runCDIPMockCoordinator (coord_state StageNone) "p" = (s', Ok r) ∧
    job_Status (mock_ParentJob r) = StatusSucceeded.
Proof.
  destruct (open_job_ok _ (coord_state StageNone) "p" StageNone (coord_wf _) (coord_at _)) as (parent & stages & Hop).
  destruct (stages_at _ _ _ _ _ _ (coord_wf _) (coord_at StageNone) Hop) as (_ & _ & Hst).
  destruct (mock_run_completes _ (coord_state StageNone) "p" parent stages (coord_wf _) Hop) as (s' & r & Hr & _ & _ & Hp & _).
  { intros j Hj. unfold stage_current. by rewrite (proj1 (Hst j Hj)). }
  destruct Hp as (parent' & _ & Hpar & Hs & _). exists s', r. rewrite Hpar. split; [exact Hr|exact Hs].
Defined.

(** A frame that a worker posted to a stream before the decode step is received
    in place of the relayed one, and the step fails. *)
Example stale_frame_fails_decode :
  let stale := relayed_frame coord_parent 99 0 (coord_stage "a" "node-a" 0 StagePrefill)
                 (coord_stage "b" "node-b" 1 StagePrefill) in
  let bus := (mem_OpenWriter Background fresh_bus (mkStreamID "p" "a") "node-b").1 in
  let bus := (mem_Send Background bus (mkWriter (mkStreamID "p" "a") false) stale).1 in
  (startCDIPDecode (coord_state StagePrefill) bus "p" 1).2 = Returned (Err (RelayMismatch "a")).
Proof. vm_compute. reflexivity. Qed.

(** A downstream stage without a worker: no frame is sent, and the coordinator,
    which receives with no deadline, waits forever. *)
Example decode_blocks_without_worker :
  let s := (coord_state StagePrefill) <| st_jobs := <["b" := coord_stage "b" "" 1 StagePrefill]>
                                                     (st_jobs (coord_state StagePrefill)) |> in
  (startCDIPDecode s fresh_bus "p" 1).2 = Blocked.
Proof. vm_compute. reflexivity. Qed.

(** [prepare], called for a job whose stages are at different boundaries, moves
    the first stage before the second refuses. *)
Example prepare_moves_some_stages :
  let stage id i st := (coord_stage id "node-a" i st) <| job_Input := Marshal demo_payload |> in
  let s := (NewState 0) <| st_jobs := <["p" := coord_parent]> $ <["a" := stage "a"%string 0 StagePlanned]> $
                                      <["b" := stage "b"%string 1 StageReady]> ∅ |> in
  let '(s', out) := prepareCDIPDistributedJob s "p" in
  out = Err (StageUpdateFailed "prepare" "b") ∧
  job_CDIPState <$> st_jobs s' !! "a"%string = Some StagePreparing ∧
  job_CDIPState <$> st_jobs s' !! "b"%string = Some StageReady.
Proof. vm_compute. done. Qed.
End demo.
