(* ===== verification/Http.v ===== *)
(** * Requests, responses and the programs of handlers

    What [internal/manager/server.go] uses of [net/http]: the parts of a request
    the handlers read, the status, body and cookie they write, the operator
    check, and query parameters.

    A handler runs concurrently with the others: each call on the store is
    atomic (the store has a lock), but other requests may run between two calls.
    A handler is therefore a program ([prog]), a sequence of atomic actions on
    the server with early returns; [run_prog] runs it alone, [pool_step]
    interleaves several. *)

From S2P Require Import Prelude GoString GoSort GoFloat World Json Cdip Types Protocol Models State.
From S2P Require Import Conversations Scheduling JobStore ModelView RpcPool DistributedPlan Views Capacity.
From S2P Require Import Transport Coordinator.

(** ** Requests *)

Record Request := mkRequest {
  rq_Method : string;
  rq_Path : string;
  rq_Host : string;
  rq_TLS : bool;
  rq_Query : gmap string string;      (** the first value of each parameter *)
  rq_Header : gmap string string;     (** by canonical name *)
  rq_Cookies : gmap string string;
  rq_Body : string;                   (** on a server the body is never nil *)
  rq_Context : Context;
}.

(** [r.URL.Query().Get] and [r.Header.Get]: the empty string when absent. *)
Definition query (r : Request) (key : string) : string := default ""%string (rq_Query r !! key).
Definition header (r : Request) (key : string) : string := default ""%string (rq_Header r !! key).

(** [json.NewDecoder(r.Body).Decode(&req)]: what [req] holds afterwards (an
    error may leave it partly filled) and whether it succeeded. *)
Class JsonBody (A : Type) := { Decode : string → A * bool }.

(** ** Bodies of responses: the values given to [writeJSON] and [http.Error] *)

Record InvitePageData := mkInvitePage {
  inv_ManagerURL : string;
  inv_JoinToken : string;
  inv_DesktopInviteURL : string;
  inv_DesktopInviteHref : string;
  inv_DownloadURL : string;
  inv_ReleaseDownloadBase : string;
}.

Record DashboardData := mkDashboard {
  dash_Summary : ClusterSummary;
  dash_OnlineNodes : list Node;
  dash_OfflineWorkerCount : Z;
  dash_Benchmarks : gmap string NodeBenchmarkSummary;
  dash_ClusterBenchmarks : list ClusterBenchmarkSummary;
  dash_Models : list ModelSummary;
  dash_RPCPool : RuntimeRPCPoolSummary;
  dash_RPCWorkers : list RuntimeRPCPoolWorker;
  dash_RPCEndpoints : list string;
  dash_RPCHealth : list RPCHealthRecord;
  dash_Readiness : ReadinessSummary;
  dash_Capacity : CapacitySummary;
  dash_NodesByID : gmap string Node;
  dash_WorkerActiveJobs : gmap string Z;
  dash_MaxClusterGFLOPS : float64;
  dash_Jobs : list Job;
  dash_DistributedRuns : list DistributedRunSummary;
  dash_ChatJobs : list Job;
  dash_Conversations : list Conversation;
  dash_Memories : list Memory;
}.

Record DashboardStatus := mkDashboardStatus {
  ds_readiness_status : string;
  ds_workers_online : Z;
  ds_workers_total : Z;
  ds_ready_models : Z;
  ds_active_jobs : Z;
  ds_recent_failures : Z;
  ds_jobs_total : Z;
  ds_runtime_ready : Z;
  ds_installed_models : Z;
  ds_benchmark_score : float64;
  ds_updated_at_unix_ms : Z;
}.

Record RuntimeStageProbeSummary := mkProbeSummary {
  probe_Workers : Z;
  probe_RuntimeReadyWorkers : Z;
  probe_StageProbeWorkers : Z;
  probe_ReadyStageRuntimeWorkers : Z;
  probe_BlockedStageRuntimeWorkers : Z;
}.

(* field setters *)
#[export] Instance set_probe_Workers : Setter probe_Workers := λ f r, mkProbeSummary (f (probe_Workers r)) (probe_RuntimeReadyWorkers r) (probe_StageProbeWorkers r) (probe_ReadyStageRuntimeWorkers r) (probe_BlockedStageRuntimeWorkers r).
#[export] Instance set_probe_RuntimeReadyWorkers : Setter probe_RuntimeReadyWorkers := λ f r, mkProbeSummary (probe_Workers r) (f (probe_RuntimeReadyWorkers r)) (probe_StageProbeWorkers r) (probe_ReadyStageRuntimeWorkers r) (probe_BlockedStageRuntimeWorkers r).
#[export] Instance set_probe_StageProbeWorkers : Setter probe_StageProbeWorkers := λ f r, mkProbeSummary (probe_Workers r) (probe_RuntimeReadyWorkers r) (f (probe_StageProbeWorkers r)) (probe_ReadyStageRuntimeWorkers r) (probe_BlockedStageRuntimeWorkers r).
#[export] Instance set_probe_ReadyStageRuntimeWorkers : Setter probe_ReadyStageRuntimeWorkers := λ f r, mkProbeSummary (probe_Workers r) (probe_RuntimeReadyWorkers r) (probe_StageProbeWorkers r) (f (probe_ReadyStageRuntimeWorkers r)) (probe_BlockedStageRuntimeWorkers r).
#[export] Instance set_probe_BlockedStageRuntimeWorkers : Setter probe_BlockedStageRuntimeWorkers := λ f r, mkProbeSummary (probe_Workers r) (probe_RuntimeReadyWorkers r) (probe_StageProbeWorkers r) (probe_ReadyStageRuntimeWorkers r) (f (probe_BlockedStageRuntimeWorkers r)).
Record RuntimeStageProbeWorker := mkProbeWorker {
  pbw_NodeID : string;
  pbw_NodeName : string;
  pbw_Status : NodeStatus;
  pbw_Runtime : string;
  pbw_RuntimeReady : bool;
  pbw_Probes : list StageRuntimeResource;
}.

Record RuntimeRPCPoolRefreshReport := mkRefreshReport {
  rfr_Report : RuntimeRPCSmokeReport;
  rfr_Summary : RuntimeRPCPoolSummary;
  rfr_Workers : list RuntimeRPCPoolWorker;
  rfr_Endpoints : list string;
  rfr_Health : list RPCHealthRecord;
  rfr_LlamaCLIRPCArg : string;
}.

Record distributedGenerateResponse := mkGenerated {
  dgr_Job : Job;
  dgr_StageJobs : list Job;
  dgr_Plan : DistributedModelPlan;
  dgr_ExecutableNow : bool;
}.

Inductive Body :=
  | BodyEmpty
  | BodyText (message : string)
  | BodyLogin (path : string)
  | BodyInvite (data : InvitePageData)
  | BodyDashboard (data : DashboardData)
  | BodyHealth
  | BodyStatusText (status : string)
  | BodyCluster (summary : ClusterSummary)
  | BodyCapacity (summary : ClusterSummary) (capacity : CapacitySummary)
      (baseline : option (CapacitySnapshot * CapacityDelta))
  | BodySnapshots (snapshots : list CapacitySnapshot)
  | BodySnapshot (snapshot : CapacitySnapshot) (baseline : option (CapacitySnapshot * CapacityDelta))
  | BodyDashboardStatus (status : DashboardStatus)
  | BodyProbes (summary : RuntimeStageProbeSummary) (workers : list RuntimeStageProbeWorker)
  | BodyPool (summary : RuntimeRPCPoolSummary) (workers : list RuntimeRPCPoolWorker)
      (endpoints : list string) (health : list RPCHealthRecord) (arg : string)
  | BodyRefresh (report : RuntimeRPCPoolRefreshReport)
  | BodySmoke (report : RuntimeRPCSmokeReport)
  | BodyNodes (nodes : list Node)
  | BodyBenchmarks (results : list BenchmarkResult) (by_node : gmap string NodeBenchmarkSummary)
  | BodyBenchmark (res : BenchmarkResult)
  | BodyClusterBenchmarks (runs : list ClusterBenchmarkSummary)
  | BodyClusterBenchmark (run : ClusterBenchmarkSummary)
  | BodyRuns (runs : list DistributedRunSummary) (limit : Z)
  | BodyJobs (jobs : list Job)
  | BodyJob (job : Job)
  | BodyNextJob (job : option Job)
  | BodyModels (models : list ModelSummary) (total : Z) (filters : ModelCatalogFilters)
  | BodyModel (summary : ModelSummary)
  | BodyPlacement (plan : ModelPlacementPlan)
  | BodyDistributedPlan (plan : DistributedModelPlan) (proposal : PlanProposal) (manifest : ShardManifest)
  | BodyInstallConflict (reason : string) (placement : ModelPlacementPlan)
  | BodyGenerateConflict (reason : string) (plan : DistributedModelPlan)
  | BodyGenerated (response : distributedGenerateResponse)
  | BodyRPCPlan (plan : ModelDistributedRPCPlan)
  | BodyRPCReadiness (readiness : ModelDistributedRPCReadiness)
  | BodyRPCConflict (reason : string) (plan : ModelDistributedRPCPlan)
  | BodyConversations (l : list Conversation)
  | BodyConversation (c : Conversation)
  | BodyDeletedConversation (id : string)
  | BodyMemories (l : list Memory)
  | BodyMemory (m : Memory)
  | BodyDeletedMemories (count : Z)
  | BodyDeleted
  | BodyPreview (modelID : string) (memories : list Memory) (context effective : string)
      (preview : PromptContextPreview)
  | BodyStage (job : Job)
  | BodyAdvance (res : CDIPAdvanceResult)
  | BodyPrepare (res : CDIPPrepareResult)
  | BodyCommand (res : CDIPCommandResult)
  | BodyMockRun (res : CDIPMockRunResult)
  | BodyFrameAccepted (stream : StreamID) (sequence bytes : Z)
  | BodyFrame (frame : ActivationFrame)
  | BodyJoined (resp : JoinResponse).

(** A cookie set on the response: its value and the [Secure] flag. *)
Record Response := mkResponse {
  rs_Status : Z;
  rs_Body : Body;
  rs_Cookie : option (string * bool);
}.

(** [writeJSON] and [http.Error] *)
Definition reply (status : Z) (body : Body) : Response := mkResponse status body None.
Definition http_error (message : string) (status : Z) : Response := reply status (BodyText message).
Definition method_not_allowed : Response := http_error "method not allowed" 405.
(** [http.NotFound] *)
Definition not_found : Response := http_error "404 page not found" 404.
Definition invalid_body : Response := http_error "invalid request body" 400.

(** ** The server *)

(** The mutable parts and the options the handlers read; the activation
    transport is the in-memory one the constructor makes. *)
Record Server := mkServer {
  srv_state : State;
  srv_bus : MemoryActivationTransport;
  srv_snapshots : gmap string CapacitySnapshot;
  srv_joinToken : string;
  srv_operatorToken : string;
  srv_publicURL : string;
}.

(* field setters *)
#[export] Instance set_srv_state : Setter srv_state := λ f r, mkServer (f (srv_state r)) (srv_bus r) (srv_snapshots r) (srv_joinToken r) (srv_operatorToken r) (srv_publicURL r).
#[export] Instance set_srv_bus : Setter srv_bus := λ f r, mkServer (srv_state r) (f (srv_bus r)) (srv_snapshots r) (srv_joinToken r) (srv_operatorToken r) (srv_publicURL r).
#[export] Instance set_srv_snapshots : Setter srv_snapshots := λ f r, mkServer (srv_state r) (srv_bus r) (f (srv_snapshots r)) (srv_joinToken r) (srv_operatorToken r) (srv_publicURL r).
#[export] Instance set_srv_joinToken : Setter srv_joinToken := λ f r, mkServer (srv_state r) (srv_bus r) (srv_snapshots r) (f (srv_joinToken r)) (srv_operatorToken r) (srv_publicURL r).
#[export] Instance set_srv_operatorToken : Setter srv_operatorToken := λ f r, mkServer (srv_state r) (srv_bus r) (srv_snapshots r) (srv_joinToken r) (f (srv_operatorToken r)) (srv_publicURL r).
#[export] Instance set_srv_publicURL : Setter srv_publicURL := λ f r, mkServer (srv_state r) (srv_bus r) (srv_snapshots r) (srv_joinToken r) (srv_operatorToken r) (f (srv_publicURL r)).

Record ServerOptions := mkServerOptions {
  opt_JoinToken : string;
  opt_OperatorToken : string;
  opt_PublicURL : string;
}.

Definition slash : Ascii.ascii := Ascii.ascii_of_nat 47.
(** strings.TrimRight(s, "/") and strings.Trim(s, "/") *)
Definition trim_right_slash (s : string) : string :=
  rev_string (trim_left ["/"%string] (String.length s) (rev_string s)).
Definition trim_slash (s : string) : string := TrimSet ["/"%string] s.

Definition NewServerWithOptions (options : ServerOptions) (state : State) : Server :=
  mkServer state (NewMemoryActivationTransport 8) ∅ (opt_JoinToken options) (opt_OperatorToken options)
    (trim_right_slash (opt_PublicURL options)).

(** ** Programs *)

(** One atomic action may return, block or panic; a program may return early
    with a response. *)
Inductive prog (A : Type) : Type :=
  | Ret (a : A)
  | Stop (resp : Response)
  | Act {B : Type} (f : Server → Server * outcome B) (k : B → prog A).
Arguments Ret {A} a.
Arguments Stop {A} resp.
Arguments Act {A B} f k.

Fixpoint prog_bind {A B} (p : prog A) (h : A → prog B) : prog B :=
  match p with
  | Ret a => h a
  | Stop resp => Stop resp
  | Act f k => Act f (λ b, prog_bind (k b) h)
  end.

Declare Scope prog_scope.
Delimit Scope prog_scope with prog.
Notation "x ⇐ p ; q" := (prog_bind p (λ x, q))
  (at level 20, p at level 100, q at level 200, right associativity) : prog_scope.
Notation "' pat ⇐ p ; q" := (prog_bind p (λ y, match y with pat => q end))
  (at level 20, pat pattern, p at level 100, q at level 200, right associativity) : prog_scope.
#[global] Open Scope prog_scope.

(** [if b { respond; return }] *)
Definition guard {A} (b : bool) (resp : Response) (k : prog A) : prog A := if b then Stop resp else k.

(** A call on the store, each in a world of its own; a read of the server. *)
Definition store `{W : World} {A} (t : Tag) (f : World → State → State * A) : prog A :=
  Act (λ srv, let '(s, a) := f (sub_world t) (srv_state srv) in (srv <| srv_state := s |>, Returned a)) Ret.
Definition look {A} (f : Server → A) : prog A := Act (λ srv, (srv, Returned (f srv))) Ret.

(** The program alone: no other request runs meanwhile. *)
Fixpoint run_prog (p : prog Response) (srv : Server) : Server * outcome Response :=
  match p with
  | Ret resp | Stop resp => (srv, Returned resp)
  | Act f k =>
      match f srv with
      | (srv, Returned b) => run_prog (k b) srv
      | (srv, Blocked) => (srv, Blocked)
      | (srv, Panicked) => (srv, Panicked)
      end
  end.

(** Several requests in progress: any of them takes the next action, and new
    ones arrive.  A blocked action may be tried again; a panic ends its request
    ([net/http] recovers it). *)
Inductive pool_step (arriving : prog Response → Prop)
    : Server * list (prog Response) → Server * list (prog Response) → Prop :=
  | ps_act srv pool1 pool2 B (f : Server → Server * outcome B) k srv' b :
      f srv = (srv', Returned b) →
      pool_step arriving (srv, pool1 ++ Act f k :: pool2) (srv', pool1 ++ k b :: pool2)
  | ps_block srv pool1 pool2 B (f : Server → Server * outcome B) k srv' :
      f srv = (srv', Blocked) →
      pool_step arriving (srv, pool1 ++ Act f k :: pool2) (srv', pool1 ++ Act f k :: pool2)
  | ps_panic srv pool1 pool2 B (f : Server → Server * outcome B) k srv' :
      f srv = (srv', Panicked) →
      pool_step arriving (srv, pool1 ++ Act f k :: pool2) (srv', pool1 ++ pool2)
  | ps_arrive srv pool p : arriving p → pool_step arriving (srv, pool) (srv, pool ++ [p]).

(** A schedule, for examples: at each round the program at a position acts. *)
Fixpoint run_schedule (schedule : list nat) (srv : Server) (pool : list (prog Response))
    : Server * list (prog Response) :=
  match schedule with
  | [] => (srv, pool)
  | i :: schedule =>
      match pool !! i with
      | Some (Act f k) =>
          match f srv with
          | (srv, Returned b) => run_schedule schedule srv (<[i := k b]> pool)
          | (srv, Blocked) => run_schedule schedule srv pool
          | (srv, Panicked) => run_schedule schedule srv (delete i pool)
          end
      | _ => run_schedule schedule srv pool
      end
  end.

(** ** Operator authentication *)

Definition hasOperatorAuth (srv : Server) (r : Request) : bool :=
  str_eqb (srv_operatorToken srv) ""
  || str_eqb (query r "token") (srv_operatorToken srv)
  || str_eqb (header r "X-Cmesh-Operator-Token") (srv_operatorToken srv)
  || str_eqb (TrimPrefix (header r "Authorization") "Bearer ") (srv_operatorToken srv)
  || match rq_Cookies r !! "cmesh_operator_token"%string with
     | Some value => str_eqb value (srv_operatorToken srv)
     | None => false
     end.

(** The response, or the cookie to set on the response of the handler. *)
Definition requireOperatorAuth (srv : Server) (r : Request) (html : bool)
    : result Response (option (string * bool)) :=
  if str_eqb (srv_operatorToken srv) "" then Ok None
  else if hasOperatorAuth srv r then
    let token := query r "token" in
    Ok (if str_eqb token (srv_operatorToken srv)
        then Some (token, str_eqb (header r "X-Forwarded-Proto") "https" || rq_TLS r) else None)
  else if html then Err (reply 401 (BodyLogin (rq_Path r)))
  else Err (http_error "operator token required" 401).

Definition with_cookie (cookie : option (string * bool)) (resp : Response) : Response :=
  mkResponse (rs_Status resp) (rs_Body resp) cookie.
Fixpoint map_response {A} (g : Response → Response) (p : prog A) : prog A :=
  match p with
  | Ret a => Ret a
  | Stop resp => Stop (g resp)
  | Act f k => Act f (λ b, map_response g (k b))
  end.

(** [if !s.requireOperatorAuth(w, r, html) { return }]: the tokens are options
    and do not change, so reading them is an action without effect. *)
Definition operator (r : Request) (html : bool) (k : prog Response) : prog Response :=
  auth ⇐ look (λ srv, requireOperatorAuth srv r html);
  match auth with
  | Err resp => Stop resp
  | Ok cookie => resp ⇐ map_response (with_cookie cookie) k; Ret (with_cookie cookie resp)
  end.

(** ** Query parameters *)

(** strconv.Atoi *)
Definition Atoi (s : string) : option Z :=
  let unsigned (sign : Z) (s : string) :=
    if str_eqb s "" then None else
    n ← digits 0 s;
    let v := sign * n in
    if (- 2^63 <=? v) && (v <? 2^63) then Some v else None in
  match s with
  | String a rest =>
      if Ascii.eqb a (Ascii.ascii_of_nat 45) then unsigned (-1) rest
      else if Ascii.eqb a (Ascii.ascii_of_nat 43) then unsigned 1 rest
      else unsigned 1 s
  | "" => None
  end%string.

Definition intQuery (r : Request) (key : string) (fallback : Z) : Z :=
  let raw := TrimSpace (query r key) in
  if str_eqb raw "" then fallback else default fallback (Atoi raw).

Definition boolQuery `{LowerCase} (raw : string) : bool :=
  let raw := TrimSpace (ToLower raw) in
  str_eqb raw "1" || str_eqb raw "true" || str_eqb raw "yes".

(** ** Invitations *)

Definition localManagerURL (r : Request) : string :=
  let proto := header r "X-Forwarded-Proto" in
  let proto := if str_eqb proto "" then "http"%string else proto in
  let host := if str_eqb (rq_Host r) "" then "127.0.0.1"%string else rq_Host r in
  proto +:+ "://" +:+ host.

Definition hex_upper (n : nat) : string :=
  String (Ascii.ascii_of_nat (if (n <? 10)%nat then 48 + n else 55 + n)) "".
(** url.QueryEscape: letters, digits and [-_.~] stand for themselves. *)
Definition unreserved (a : Ascii.ascii) : bool :=
  in_range 48 57 a || in_range 65 90 a || in_range 97 122 a
  || existsb (λ z, byte_of a =? z) [45; 95; 46; 126].
Fixpoint QueryEscape (s : string) : string :=
  match s with
  | "" => ""
  | String a s =>
      (if unreserved a then String a ""
       else if (byte_of a =? 32)%Z then "+"
       else let n := Ascii.nat_of_ascii a in "%" +:+ hex_upper (n / 16)%nat +:+ hex_upper (n mod 16)%nat)
      +:+ QueryEscape s
  end%string.

(** [url.Values.Encode] sorts by key. *)
Definition desktopInviteURL (managerURL joinToken : string) : string :=
  "cmesh://join?manager=" +:+ QueryEscape managerURL +:+ "&token=" +:+ QueryEscape joinToken.

(** [version.Version] of a build without a release tag *)
Definition app_version : string := "0.0.0-dev".

Definition releaseDownloadBase (appVersion : string) : string :=
  if HasPrefix appVersion "v"
  then "https://github.com/NythralHome/cmesh/releases/download/" +:+ appVersion +:+ "/"
  else "https://github.com/NythralHome/cmesh/releases/latest/download/".

Definition handleInvite (r : Request) : prog Response :=
  guard (negb (str_eqb (rq_Method r) "GET") && negb (str_eqb (rq_Method r) "DELETE")) method_not_allowed $
  operator r true (
    joinToken ⇐ look srv_joinToken;
    guard (str_eqb joinToken "") (http_error "worker join token is not configured" 409) (
    publicURL ⇐ look srv_publicURL;
    let managerURL := if str_eqb publicURL "" then localManagerURL r else publicURL in
    Ret (reply 200 (BodyInvite (mkInvitePage managerURL joinToken (desktopInviteURL managerURL joinToken)
           (desktopInviteURL managerURL joinToken)
           (releaseDownloadBase app_version +:+ "CMesh-Worker-Apple-Silicon.dmg") (releaseDownloadBase app_version)))))).

(** ** Reasoning about programs *)

(** [wp p srv Q S X]: run alone from [srv], [p] returns a value for which [Q]
    holds, stops with a response for which [S] holds, or blocks or panics in a
    server for which [X] holds. *)
Fixpoint wp {A} (p : prog A) (srv : Server) (Q : A → Server → Prop) (S : Response → Server → Prop)
    (X : Server → Prop) : Prop :=
  match p with
  | Ret a => Q a srv
  | Stop resp => S resp srv
  | Act f k =>
      match f srv with
      | (srv, Returned b) => wp (k b) srv Q S X
      | (srv, _) => X srv
      end
  end.

Lemma wp_bind {A B} (p : prog A) (h : A → prog B) srv Q S X :
  wp (prog_bind p h) srv Q S X ↔ wp p srv (λ a srv, wp (h a) srv Q S X) S X.
Proof.
  revert srv. induction p as [a|resp|C f k IH]; intros srv; simpl; [done..|].
  destruct (f srv) as [srv' [b| |]]; [apply IH|done..].
Qed.

Lemma wp_mono {A} (p : prog A) srv (Q Q' : A → Server → Prop) (S S' : Response → Server → Prop) (X X' : Server → Prop) :
  (∀ a srv, Q a srv → Q' a srv) → (∀ r srv, S r srv → S' r srv) → (∀ srv, X srv → X' srv) →
  wp p srv Q S X → wp p srv Q' S' X'.
Proof.
  intros HQ HS HX. revert srv. induction p as [a|resp|C f k IH]; intros srv; simpl; [auto..|].
  destruct (f srv) as [srv' [b| |]]; [apply IH|auto..].
Qed.

Lemma wp_run (p : prog Response) srv (Q : Response → Server → Prop) (X : Server → Prop) :
  wp p srv Q Q X ↔
  match run_prog p srv with (srv', Returned r) => Q r srv' | (srv', _) => X srv' end.
Proof.
  revert srv. induction p as [a|resp|C f k IH]; intros srv; simpl; [done..|].
  destruct (f srv) as [srv' [b| |]]; [apply IH|done..].
Qed.

Lemma wp_map {A} (g : Response → Response) (p : prog A) srv Q S X :
  wp (map_response g p) srv Q S X ↔ wp p srv Q (λ r srv, S (g r) srv) X.
Proof.
  revert srv. induction p as [a|resp|C f k IH]; intros srv; simpl; [done..|].
  destruct (f srv) as [srv' [b| |]]; [apply IH|done..].
Qed.

Lemma wp_guard {A} (b : bool) resp (k : prog A) srv Q S X :
  wp (guard b resp k) srv Q S X ↔ if b then S resp srv else wp k srv Q S X.
Proof. by destruct b. Qed.

Lemma require_cases srv r html :
  if hasOperatorAuth srv r then ∃ c, requireOperatorAuth srv r html = Ok c
  else ∃ resp, requireOperatorAuth srv r html = Err resp ∧ rs_Status resp = 401.
Proof.
  unfold requireOperatorAuth. destruct (hasOperatorAuth srv r) eqn:E; case_bool_decide as Ht.
  - by eexists.
  - by eexists.
  - unfold hasOperatorAuth in E. by rewrite (bool_decide_eq_true_2 _ Ht) in E.
  - destruct html; by eexists.
Qed.

(** A handler behind the operator check runs only for operators. *)
Lemma wp_operator r html k srv (Q : Response → Server → Prop) X :
  (∀ resp c srv', Q (with_cookie c resp) srv' ↔ Q resp srv') →
  wp (operator r html k) srv Q Q X ↔
  if hasOperatorAuth srv r then wp k srv Q Q X
  else ∃ resp, requireOperatorAuth srv r html = Err resp ∧ rs_Status resp = 401 ∧ Q resp srv.
Proof.
  intros HQ. unfold operator. rewrite wp_bind. simpl.
  pose proof (require_cases srv r html) as Hc. destruct (hasOperatorAuth srv r).
  - destruct Hc as [c ->]. rewrite wp_bind, wp_map. simpl.
    split; apply wp_mono; intros *; try done; by rewrite HQ.
  - destruct Hc as (resp & -> & Hs). simpl. split; [by eauto|]. by intros (? & [= <-] & _ & ?).
Qed.

(** *** What a program may do to the store *)

(** A run of store operations that satisfy [P], each in some world. *)
Section ops.
Context `{Codecs}.

Definition store_move (P : store_op → Prop) (s s' : State) : Prop :=
∃ (W : World) op, P op ∧ s' = exec s op.
Definition store_run (P : store_op → Prop) : State → State → Prop := rtc (store_move P).

(** Every action of the program is a run of such operations on the store and
  keeps the options of the server. *)
Definition kept (srv srv' : Server) : Prop :=
srv_joinToken srv' = srv_joinToken srv ∧ srv_operatorToken srv' = srv_operatorToken srv.
Fixpoint does {A} (P : store_op → Prop) (p : prog A) : Prop :=
match p with
| Ret _ | Stop _ => True
| Act f k =>
    (∀ srv, store_run P (srv_state srv) (srv_state (f srv).1) ∧ kept srv (f srv).1) ∧
    ∀ b, does P (k b)
end.

Lemma store_run_once (P : store_op → Prop) (W : World) s op : P op → store_run P s (exec s op).
Proof. intros. apply rtc_once. by exists W, op. Qed.
Lemma store_run_mono (P P' : store_op → Prop) s s' :
(∀ op, P op → P' op) → store_run P s s' → store_run P' s s'.
Proof. intros HP. apply rtc_subrel. intros ? ? (W & op & ? & ->). exists W, op. auto. Qed.

Lemma kept_refl srv : kept srv srv.
Proof. done. Qed.
Lemma kept_trans a b c : kept a b → kept b c → kept a c.
Proof. unfold kept. intuition congruence. Qed.

Lemma does_mono {A} (P P' : store_op → Prop) (p : prog A) :
(∀ op, P op → P' op) → does P p → does P' p.
Proof.
intros HP. induction p as [a|resp|C f k IH]; simpl; [done..|]. intros [Hf Hk]. split; [|auto].
intros srv. destruct (Hf srv). split; [by eapply store_run_mono|done].
Qed.
Lemma does_bind {A B} P (p : prog A) (h : A → prog B) : does P p → (∀ a, does P (h a)) → does P (prog_bind p h).
Proof. intros Hp Hh. induction p as [a|resp|C f k IH]; simpl in *; [done..|]. split; [apply Hp|]. intros b. by apply IH, Hp. Qed.
Lemma does_guard {A} P b resp (k : prog A) : does P k → does P (guard b resp k).
Proof. by destruct b. Qed.
Lemma does_map {A} P g (p : prog A) : does P p → does P (map_response g p).
Proof. induction p as [a|resp|C f k IH]; simpl; [done..|]. intros [? Hk]. split; [done|]. intros b. by apply IH. Qed.
Lemma does_look {A} P (f : Server → A) : does P (look f).
Proof. simpl. split; [|done]. intros srv. by split; [apply rtc_refl|]. Qed.
Lemma does_store `{W : World} {A} (P : store_op → Prop) t (f : World → State → State * A) :
(∀ s, store_run P s (f (sub_world t) s).1) → does P (store t f).
Proof.
intros Hf. simpl. split; [|done]. intros srv. specialize (Hf (srv_state srv)).
by destruct (f _ (srv_state srv)) as [s a].
Qed.
Lemma does_operator P r html k : does P k → does P (operator r html k).
Proof.
intros Hk. apply does_bind; [apply does_look|]. intros [c|resp]; [|done].
apply does_bind; [by apply does_map|done].
Qed.

Lemma does_run P (p : prog Response) srv :
does P p → store_run P (srv_state srv) (srv_state (run_prog p srv).1) ∧ kept srv (run_prog p srv).1.
Proof.
intros Hp. revert srv. induction p as [a|resp|C f k IH]; intros srv; simpl;
  [by split; [apply rtc_refl|]..|].
destruct Hp as [Hf Hk]. specialize (Hf srv). destruct (f srv) as [srv' [b| |]]; simpl in *; [|done..].
destruct Hf as [H1 H2]. destruct (IH b (Hk b) srv') as [H3 H4].
split; [by etrans|by eapply kept_trans].
Qed.

(** An invariant of the operations holds wherever the program ends. *)
Lemma does_wp {A} P (J : State → Prop) (p : prog A) srv :
(∀ (W : World) s op, P op → J s → J (exec s op)) → does P p → J (srv_state srv) →
wp p srv (λ _ srv, J (srv_state srv)) (λ _ srv, J (srv_state srv)) (λ srv, J (srv_state srv)).
Proof.
intros HJ. revert srv. induction p as [a|resp|C f k IH]; intros srv Hp Hs; simpl in *; [done..|].
destruct Hp as [Hf Hk]. destruct (Hf srv) as [Hrun _].
assert (J (srv_state (f srv).1)) as Hs'.
{ clear - HJ Hs Hrun. induction Hrun as [|s1 s2 s3 (W & op & Hop & ->) _ IHr]; auto. }
destruct (f srv) as [srv' [b| |]]; [by apply IH|done..].
Qed.

(** The same for the servers of an invariant that only depends on the options:
  what the program does may then depend on what its actions return. *)
Fixpoint acts {A} (I : Server → Prop) (P : store_op → Prop) (p : prog A) : Prop :=
match p with
| Ret _ | Stop _ => True
| Act f k =>
    ∀ srv, I srv → store_run P (srv_state srv) (srv_state (f srv).1) ∧ kept srv (f srv).1 ∧
      ∀ b, (f srv).2 = Returned b → acts I P (k b)
end.

Lemma does_acts {A} I P (p : prog A) : does P p → acts I P p.
Proof.
induction p as [a|resp|C f k IH]; simpl; [done..|]. intros [Hf Hk] srv _. destruct (Hf srv) as [? ?].
split_and!; [done..|]. intros b _. by apply IH.
Qed.
(** Behind the operator check nothing happens for the others. *)
Lemma acts_operator (I : Server → Prop) P r html k :
(∀ srv, I srv → hasOperatorAuth srv r = false) → acts I P (operator r html k).
Proof.
intros Hno srv Hi. split_and!; [apply rtc_refl|done|]. intros b [= <-].
pose proof (require_cases srv r html) as Hc. rewrite (Hno _ Hi) in Hc. by destruct Hc as (resp & -> & _).
Qed.
Lemma acts_guard {A} I P b resp (k : prog A) : acts I P k → acts I P (guard b resp k).
Proof. by destruct b. Qed.

(** Whatever way the requests of a pool interleave, the store only runs
  operations their programs do. *)
Lemma pool_store_run (I : Server → Prop) P arriving srv pool srv' pool' :
(∀ srv srv', kept srv srv' → I srv → I srv') →
(∀ p, arriving p → acts I P p) → Forall (acts I P) pool → I srv →
rtc (pool_step arriving) (srv, pool) (srv', pool') →
store_run P (srv_state srv) (srv_state srv') ∧ kept srv srv'.
Proof.
intros Hclosed Hadm Hp Hi Hr. remember (srv, pool) as x eqn:Ex. remember (srv', pool') as y eqn:Ey.
revert srv pool Ex Hp Hi. induction Hr as [x|x y' z Hst _ IH]; intros srv pool -> Hp Hi.
{ injection Ey as -> ->. by split; [apply rtc_refl|]. }
inversion Hst; subst; simplify_eq.
4: { destruct (IH eq_refl _ _ eq_refl) as (? & ?); [|done..].
     apply Forall_app. split; [done|]. by constructor; [apply Hadm|]. }
all: pose proof Hp as Hp0; apply Forall_app in Hp as [H1 [Hf H2]%Forall_cons];
  pose proof (Hf _ Hi) as (Hrun & Hk & Hb);
  match type of Hi with _ ?x => match goal with E : _ x = _ |- _ => rewrite E in Hrun, Hk, Hb end end; simpl in *;
  destruct (IH eq_refl _ _ eq_refl) as (? & ?);
  [|by eapply Hclosed|split; [by etrans|by eapply kept_trans]].
- apply Forall_app. split; [done|]. constructor; [by apply Hb|done].
- done.
- by apply Forall_app.
Qed.
End ops.
#[export] Hint Resolve does_look does_operator does_map : cmesh.

(** A schedule is one of the interleavings. *)
Lemma run_schedule_steps arriving schedule srv pool :
  rtc (pool_step arriving) (srv, pool) (run_schedule schedule srv pool).
Proof.
  revert srv pool. induction schedule as [|i schedule IH]; intros srv pool; cbn [run_schedule]; [done|].
  destruct (pool !! i) as [[a|resp|B f k]|] eqn:E; try apply IH.
  apply list_elem_of_split_length in E as (p1 & p2 & -> & Hi).
  destruct (f srv) as [srv' [b| |]] eqn:Ef.
  - rewrite Hi, insert_app_r_alt, Nat.sub_diag by lia. simpl.
    eapply rtc_l; [by eapply ps_act|]. apply IH.
  - eapply rtc_l; [by eapply ps_block|]. apply IH.
  - rewrite Hi, delete_middle. eapply rtc_l; [by eapply ps_panic|]. apply IH.
Qed.
