(* ===== verification/Handlers.v ===== *)
(** * Handlers: cluster, capacity, jobs and workers

    [internal/manager/server.go], the handlers that are not about models: each
    is a program over the server, action by action in the order of the code. *)

From S2P Require Import Prelude GoString GoSort GoFloat World Json Cdip Types Protocol Models State.
From S2P Require Import Conversations Scheduling JobStore ModelView RpcPool DistributedPlan Views Capacity.
From S2P Require Import Transport Coordinator Http.

(** ** What the handlers decode *)

Record clusterBenchmarkRequest := mkClusterBenchmarkRequest {
  cbr_Size : Z; cbr_Iterations : Z; cbr_RequestedBy : string }.
Record SnapshotRequest := mkSnapshotRequest { snr_Label : string; snr_CompareTo : string }.
Record LeaveRequest := mkLeaveRequest { leave_NodeID : string; leave_At : Time }.
Record CleanupInput := mkCleanupInput { cln_Scope : string }.
Record cdipStageWorkerResult := mkStageWorkerResult { swr_Kind : string }.
Record NodeRequest := mkNodeRequest { nr_NodeID : string }.
Record GenerateRequest := mkGenerateRequest {
  gr_NodeID : string; gr_Prompt : string; gr_ConversationID : string; gr_SystemPrompt : string;
  gr_MaxTokens : Z; gr_Temperature : string }.
Record DistributedGenerateRequest := mkDistributedGenerateRequest {
  dg_Prompt : string; dg_ConversationID : string; dg_SystemPrompt : string;
  dg_MaxTokens : Z; dg_Temperature : string }.
Record MemoryRequest := mkMemoryRequest {
  mq_ModelID : string; mq_Key : string; mq_Value : string; mq_Source : string; mq_ConversationID : string }.
Record DetailRequest := mkDetailRequest { dt_Detail : string }.
Record AdvanceRequest := mkAdvanceRequest { ar_Step : Z; ar_Output : string }.
Record StepRequest := mkStepRequest { stp_Step : Z }.
Record OutputRequest := mkOutputRequest { out_Output : string }.

(** The codecs of bodies and job inputs; an [int] field of a decoded request is
    a 64-bit integer. *)
Class ServerCodecs := {
  s_views :: ViewCodecs;
  s_upper :: UpperCase;
  s_floats :: FloatSyntax;
  s_cleanup :: Json CleanupInput;
  s_stage_result :: Json cdipStageWorkerResult;
  b_join :: JsonBody JoinRequest;
  b_heartbeat :: JsonBody Heartbeat;
  b_leave :: JsonBody LeaveRequest;
  b_benchmark :: JsonBody BenchmarkResult;
  b_cluster_benchmark :: JsonBody clusterBenchmarkRequest;
  b_snapshot :: JsonBody SnapshotRequest;
  b_create :: JsonBody CreateRequest;
  b_complete :: JsonBody CompleteRequest;
  b_progress :: JsonBody ProgressRequest;
  b_node :: JsonBody NodeRequest;
  b_generate :: JsonBody GenerateRequest;
  b_distributed :: JsonBody DistributedGenerateRequest;
  b_memory :: JsonBody MemoryRequest;
  b_detail :: JsonBody DetailRequest;
  b_advance :: JsonBody AdvanceRequest;
  b_step :: JsonBody StepRequest;
  b_output :: JsonBody OutputRequest;
  b_frame :: JsonBody ActivationFrame;
  Decode_int body req ok : Decode (A := CreateRequest) body = (req, ok) → cr_MaxAttempts req < 2^63;
}.

(** [if err := json.NewDecoder(r.Body).Decode(&req); err != nil { 400 }] *)
Definition decoded {A B} `{!JsonBody A} (r : Request) (k : A → prog B) : prog B :=
  let '(req, ok) := Decode (rq_Body r) in guard (negb ok) invalid_body (k req).
(** [_ = json.NewDecoder(r.Body).Decode(&req)] *)
Definition decode_any {A} `{!JsonBody A} (r : Request) : A := (Decode (rq_Body r)).1.

Definition is_get (r : Request) : bool := str_eqb (rq_Method r) "GET".
Definition is_post (r : Request) : bool := str_eqb (rq_Method r) "POST".
Definition is_delete (r : Request) : bool := str_eqb (rq_Method r) "DELETE".

(** [time.UnixMilli]: the Unix epoch is 62135596800 seconds after the zero time. *)
Definition UnixMilli (t : Time) : Z := (t - 62135596800 * Second) / 1000000.

(** ** Stage probes *)

Definition probe_runtime (node : Node) (acc : RuntimeStageProbeSummary * list RuntimeStageProbeWorker)
    (runtimeStatus : RuntimeResource) : RuntimeStageProbeSummary * list RuntimeStageProbeWorker :=
  let '(summary, workers) := acc in
  let summary := if rt_Ready runtimeStatus
    then summary <| probe_RuntimeReadyWorkers := probe_RuntimeReadyWorkers summary + 1 |> else summary in
  if bool_decide (rt_StageRuntimes runtimeStatus = []) then (summary, workers) else
  let stageReady := existsb srt_Ready (rt_StageRuntimes runtimeStatus) in
  let summary := summary <| probe_StageProbeWorkers := probe_StageProbeWorkers summary + 1 |> in
  let summary := if stageReady
    then summary <| probe_ReadyStageRuntimeWorkers := probe_ReadyStageRuntimeWorkers summary + 1 |>
    else summary <| probe_BlockedStageRuntimeWorkers := probe_BlockedStageRuntimeWorkers summary + 1 |> in
  (summary, workers ++ [mkProbeWorker (node_ID node) (nodeDisplayName node) (node_Status node)
     (rt_Name runtimeStatus) (rt_Ready runtimeStatus) (rt_StageRuntimes runtimeStatus)]).

Definition probe_node (acc : RuntimeStageProbeSummary * list RuntimeStageProbeWorker) (node : Node)
    : RuntimeStageProbeSummary * list RuntimeStageProbeWorker :=
  let '(summary, workers) := acc in
  if bool_decide (node_Role node ≠ NodeRoleWorker) then acc else
  foldl (probe_runtime node) (summary <| probe_Workers := probe_Workers summary + 1 |>, workers)
    (res_Runtimes (node_Resources node)).

Definition probe_worker_less : RuntimeStageProbeWorker → RuntimeStageProbeWorker → bool :=
  asc_str pbw_NodeName (asc_str_last pbw_Runtime).

Definition runtimeStageProbeReport `{World} (nodes : list Node)
    : RuntimeStageProbeSummary * list RuntimeStageProbeWorker :=
  let '(summary, workers) := foldl probe_node (mkProbeSummary 0 0 0 0 0, []) nodes in
  (summary, sort_slice ["probes"] probe_worker_less workers).

(** ** Activation streams: who may use them *)

Definition cdipStageAction (action : string) : option StageState :=
  if str_eqb action "prepare" then Some StagePreparing
  else if str_eqb action "ready" then Some StageReady
  else if str_eqb action "prefill" then Some StagePrefill
  else if str_eqb action "decode" then Some StageDecode
  else if str_eqb action "complete" then Some StageCompleted
  else if str_eqb action "abort" then Some StageAborted
  else if str_eqb action "fail" then Some StageFailed
  else None.

Definition findNodeByID (nodes : list Node) (nodeID : string) : option Node :=
  find (λ n, str_eqb (node_ID n) nodeID) nodes.

(** [err.Error()] of the errors that are answered to a client; no decision
    depends on the texts. *)
Class ErrorTexts := {
  coord_text : coord_error → string;
  transport_text : transport_error → string;
  plan_error_text : plan_error → string;
  stage_request_text : stage_request_error → string;
  memory_error_text : memory_error → string;
}.

Section handlers.
Context `{W : World} `{ServerCodecs} `{Dialer} `{ErrorTexts}.

Definition cdipActivationAllowedNodes (stageJob : Job) : list string :=
(if blank (job_AssignedTo stageJob) then [] else [job_AssignedTo stageJob]) ++
match Unmarshal (A := DistributedStageJobInput) (job_Input stageJob) with
| None => []
| Some input =>
    (if blank (sji_DownstreamNodeID input) then [] else [sji_DownstreamNodeID input]) ++
    (if blank (sji_UpstreamNodeID input) then [] else [sji_UpstreamNodeID input])
end.

(** ** Calls on the store *)

Definition call_Nodes (t : Tag) : prog (list Node) := store t (λ W s, Nodes (H := W) s).
Definition call_Jobs (t : Tag) : prog (list Job) := store t (λ W s, (s, Jobs (H := W) s)).
Definition call_Job (jobID : string) : prog (option Job) := look (λ srv, FindJob (srv_state srv) jobID).
Definition call_ClusterSummary (t : Tag) : prog ClusterSummary := store t (λ W s, ClusterSummaryOp (H := W) s).
Definition call_RPCHealth (t : Tag) : prog (list RPCHealthRecord) := store t (λ W s, (s, RPCHealth (H := W) s)).
Definition call_CreateJob (t : Tag) (req : CreateRequest) : prog Job := store t (λ W s, CreateJob (H := W) s req).
Definition call_UpdateCDIPStageState (t : Tag) (jobID : string) (next : StageState) (detail : string)
  : prog (option Job) := store t (λ W s, UpdateCDIPStageState (H := W) s jobID next detail).

(** ** Dashboard and cluster *)

Definition handleDashboard (r : Request) : prog Response :=
guard (negb (str_eqb (rq_Path r) "/")) not_found $
operator r true (
  nodes ⇐ call_Nodes ["dashboard"; "nodes"];
  allJobs ⇐ call_Jobs ["dashboard"; "jobs"];
  let clusterBenchmarks := clusterBenchmarkSummaries (H := sub_world ["dashboard"; "benchmarks"]) allJobs 5 in
  let modelsView := modelSummaries (H := sub_world ["dashboard"; "models"]) Catalog allJobs nodes in
  let '(pool, poolWorkers, poolEndpoints) := runtimeRPCPoolReport (H := sub_world ["dashboard"; "pool"]) nodes in
  rpcHealth ⇐ call_RPCHealth ["dashboard"; "health"];
  summary ⇐ call_ClusterSummary ["dashboard"; "summary"];
  benchmarks ⇐ store ["dashboard"; "by-node"] (λ W s, (s, BenchmarkSummaryByNode (H := W) s));
  summary2 ⇐ call_ClusterSummary ["dashboard"; "summary2"];
  conversations ⇐ look (λ srv, recentConversations (H := sub_world ["dashboard"]) (srv_state srv) 12);
  memories ⇐ look (λ srv, recentMemories (H := sub_world ["dashboard"]) (srv_state srv) 12);
  let online t := onlineWorkerNodes (H := sub_world ["dashboard"; t]) nodes in
  Ret (reply 200 (BodyDashboard (mkDashboard summary (online "1"%string) (offlineWorkerCount nodes) benchmarks
    clusterBenchmarks modelsView pool poolWorkers (rankRPCEndpoints poolEndpoints rpcHealth) rpcHealth
    (clusterReadiness (H := sub_world ["dashboard"; "readiness"]) (online "2"%string) modelsView allJobs)
    (clusterCapacity (W := sub_world ["dashboard"; "capacity"]) summary2 modelsView (online "3"%string))
    (nodesByID nodes) (activeJobsByWorker allJobs) (maxClusterBenchmarkGFLOPS clusterBenchmarks)
    (recentJobs (H := sub_world ["dashboard"]) ["recent"] allJobs 12)
    (distributedRunSummaries (H := sub_world ["dashboard"; "runs"]) allJobs 20)
    (recentChatJobs (H := sub_world ["dashboard"]) allJobs 6) conversations memories)))).

Definition handleHealth (r : Request) : prog Response := Ret (reply 200 BodyHealth).

Definition handleCluster (r : Request) : prog Response :=
operator r false (
  summary ⇐ call_ClusterSummary ["cluster"];
  Ret (reply 200 (BodyCluster summary))).

(** ** Capacity *)

Definition capacitySnapshot (label : string) : prog CapacitySnapshot :=
nodes ⇐ call_Nodes ["capacity"; "nodes"];
jobsList ⇐ call_Jobs ["capacity"; "jobs"];
summary ⇐ call_ClusterSummary ["capacity"; "summary"];
let modelsView := modelSummaries (H := sub_world ["capacity"; "models"]) Catalog jobsList nodes in
Ret (mkSnapshot (newID "cap" (w_rand ["capacity"])) (TrimSpace label) (w_clock ["capacity"]) summary
       (clusterCapacity (W := sub_world ["capacity"]) summary modelsView
          (onlineWorkerNodes (H := sub_world ["capacity"]) nodes))).

Definition saveCapacitySnapshot (label : string) : prog CapacitySnapshot :=
snapshot ⇐ capacitySnapshot label;
Act (λ srv, (srv <| srv_snapshots := <[snap_ID snapshot := snapshot]> (srv_snapshots srv) |>, Returned tt))
  (λ _, Ret snapshot).

Definition capacitySnapshots : prog (list CapacitySnapshot) :=
look (λ srv, sort_slice ["snapshots"; "sort"] (newer snap_CreatedAt)
               (range_values ["snapshots"] (srv_snapshots srv))).

Definition capacitySnapshotByID (id : string) : prog (option CapacitySnapshot) :=
look (λ srv, srv_snapshots srv !! id).

(** The comparison with a baseline named by the request, if any. *)
Definition with_baseline (baselineID missing : string) (current : CapacitySnapshot)
  : prog (option (CapacitySnapshot * CapacityDelta)) :=
if str_eqb baselineID "" then Ret None else
found ⇐ capacitySnapshotByID baselineID;
match found with
| Some baseline => Ret (Some (baseline, capacityDelta baseline current))
| None => Stop (http_error missing 404)
end.

Definition handleCapacity (r : Request) : prog Response :=
operator r false (guard (negb (is_get r)) method_not_allowed (
  current ⇐ capacitySnapshot "";
  baseline ⇐ with_baseline (TrimSpace (query r "baseline")) "baseline snapshot not found" current;
  Ret (reply 200 (BodyCapacity (snap_Summary current) (snap_Capacity current) baseline)))).

Definition handleCapacitySnapshots (r : Request) : prog Response :=
operator r false (
  if is_get r then
    snapshots ⇐ capacitySnapshots;
    Ret (reply 200 (BodySnapshots snapshots))
  else if is_post r then
    let req := decode_any (A := SnapshotRequest) r in
    snapshot ⇐ saveCapacitySnapshot (snr_Label req);
    baseline ⇐ with_baseline (TrimSpace (snr_CompareTo req)) "compare_to snapshot not found" snapshot;
    Ret (reply 201 (BodySnapshot snapshot baseline))
  else Stop method_not_allowed).

Definition handleDashboardStatus (r : Request) : prog Response :=
operator r false (guard (negb (is_get r)) method_not_allowed (
  nodes ⇐ call_Nodes ["status"; "nodes"];
  jobsList ⇐ call_Jobs ["status"; "jobs"];
  summary ⇐ call_ClusterSummary ["status"; "summary"];
  let modelsView := modelSummaries (H := sub_world ["status"; "models"]) Catalog jobsList nodes in
  let readiness := clusterReadiness (H := sub_world ["status"])
                     (onlineWorkerNodes (H := sub_world ["status"]) nodes) modelsView jobsList in
  Ret (reply 200 (BodyDashboardStatus (mkDashboardStatus (rdy_Status readiness) (cs_WorkersOnline summary)
    (cs_WorkersTotal summary) (rdy_GeneratableModels readiness) (rdy_ActiveJobs readiness)
    (rdy_RecentFailures readiness) (Z.of_nat (length jobsList)) (rdy_RuntimeReadyWorkers readiness)
    (rdy_InstalledModels readiness) (cs_BenchmarkScore summary)
    (UnixMilli (w_clock ["status"]))))))).

(** ** Runtimes *)

Definition handleRuntimeStageProbes (r : Request) : prog Response :=
operator r false (guard (negb (is_get r)) method_not_allowed (
  nodes ⇐ call_Nodes ["probes"];
  let '(summary, workers) := runtimeStageProbeReport nodes in
  Ret (reply 200 (BodyProbes summary workers)))).

Definition handleRuntimeRPCPool (r : Request) : prog Response :=
operator r false (guard (negb (is_get r)) method_not_allowed (
  nodes ⇐ call_Nodes ["pool"; "nodes"];
  let '(summary, workers, endpoints) := runtimeRPCPoolReport nodes in
  health ⇐ call_RPCHealth ["pool"; "health"];
  let ranked := usableRPCEndpoints endpoints health false in
  Ret (reply 200 (BodyPool summary workers ranked health (Join ranked ","))))).

(** The health check is taken as one action: its store calls only add records. *)
Definition call_refresh (t : Tag) (timeoutMS : Z) : prog RuntimeRPCSmokeReport :=
store t (λ W s, refreshRuntimeRPCHealth (H := W) s timeoutMS).

Definition smoke_status (report : RuntimeRPCSmokeReport) : Z := if rep_Checked report =? 0 then 409 else 200.

Definition handleRuntimeRPCPoolRefresh (r : Request) : prog Response :=
operator r false (guard (negb (is_post r)) method_not_allowed (
  report ⇐ call_refresh ["refresh"; "smoke"] (intQuery r "timeout_ms" 1000);
  nodes ⇐ call_Nodes ["refresh"; "nodes"];
  let '(summary, workers, endpoints) := runtimeRPCPoolReport nodes in
  health ⇐ call_RPCHealth ["refresh"; "health"];
  let ranked := usableRPCEndpoints endpoints health false in
  Ret (reply (smoke_status report)
         (BodyRefresh (mkRefreshReport report summary workers ranked health (Join ranked ",")))))).

Definition handleRuntimeRPCPoolSmoke (r : Request) : prog Response :=
operator r false (guard (negb (is_post r)) method_not_allowed (
  report ⇐ call_refresh ["smoke"] (intQuery r "timeout_ms" 1000);
  Ret (reply (smoke_status report) (BodySmoke report)))).

Definition handleNodes (r : Request) : prog Response :=
operator r false (nodes ⇐ call_Nodes ["nodes"]; Ret (reply 200 (BodyNodes nodes))).

(** ** Benchmarks *)

Definition handleBenchmarks (r : Request) : prog Response :=
if is_get r then
  operator r false (
    results ⇐ store ["benchmarks"] (λ W s, (s, Benchmarks (H := W) s));
    by_node ⇐ store ["benchmarks"; "by-node"] (λ W s, (s, BenchmarkSummaryByNode (H := W) s));
    Ret (reply 200 (BodyBenchmarks results by_node)))
else if is_post r then
  decoded r (λ res : BenchmarkResult,
    guard (str_eqb (bench_NodeID res) "") (http_error "node_id is required" 400) (
    guard (str_eqb (bench_Kind res) "") (http_error "kind is required" 400) (
    known ⇐ store ["benchmark"] (λ W s, PutBenchmark (H := W) s res);
    guard (negb known) (http_error "unknown node" 404) (
    Ret (reply 201 (BodyBenchmark res))))))
else Stop method_not_allowed.

(** One matrix job per online worker. *)
Fixpoint create_matrix_jobs (requestedBy input : string) (size : Z) (nodes : list Node) : prog (list Job) :=
match nodes with
| [] => Ret []
| node :: nodes =>
    job ⇐ call_CreateJob ["matrix"; node_ID node]
      (mkCreateRequest "compute.matrix_multiply" input requestedBy (node_ID node) (matrixJobRequirements size)
         0 false StageNone "" 0);
    created ⇐ create_matrix_jobs requestedBy input size nodes;
    Ret (job :: created)
end.

(** The limits of a benchmark request, after its defaults. *)
Definition benchmark_size (req : clusterBenchmarkRequest) : Z := if cbr_Size req =? 0 then 512 else cbr_Size req.
Definition benchmark_iterations (req : clusterBenchmarkRequest) : Z :=
if cbr_Iterations req =? 0 then 6 else cbr_Iterations req.

Definition handleClusterBenchmarks (r : Request) : prog Response :=
operator r false (
  if is_get r then
    jobsList ⇐ call_Jobs ["runs"];
    Ret (reply 200 (BodyClusterBenchmarks (clusterBenchmarkSummaries jobsList 12)))
  else if is_post r then
    decoded r (λ req : clusterBenchmarkRequest,
      let size := benchmark_size req in
      let iterations := benchmark_iterations req in
      guard ((size <? 16) || (2048 <? size)) (http_error "size must be between 16 and 2048" 400) (
      guard ((iterations <? 1) || (100 <? iterations)) (http_error "iterations must be between 1 and 100" 400) (
      nodes ⇐ call_Nodes ["run"; "nodes"];
      let nodes := onlineWorkerNodes (H := sub_world ["run"]) nodes in
      guard (bool_decide (nodes = [])) (http_error "no online workers available" 409) (
      let runID := newID "cb" (w_rand ["run"]) in
      let requestedBy := clusterBenchmarkRequestedBy runID (cbr_RequestedBy req) in
      created ⇐ create_matrix_jobs requestedBy (Marshal (mkMatrixPayload size iterations)) size nodes;
      Ret (reply 201 (BodyClusterBenchmark
        (buildClusterBenchmarkSummary (H := sub_world ["run"]) runID requestedBy created)))))))
  else Stop method_not_allowed).

(** ** Jobs *)

Definition handleJobs (r : Request) : prog Response :=
operator r false (
  if is_get r then
    jobsList ⇐ call_Jobs ["jobs"];
    Ret (reply 200 (BodyJobs jobsList))
  else if is_post r then
    decoded r (λ req : CreateRequest,
      guard (str_eqb (cr_Type req) "") (http_error "type is required" 400) (
      job ⇐ call_CreateJob ["jobs"] req;
      Ret (reply 201 (BodyJob job))))
  else Stop method_not_allowed).

Definition handleDistributedRuns (r : Request) : prog Response :=
operator r false (guard (negb (is_get r)) method_not_allowed (
  let limit := intQuery r "limit" 50 in
  let limit := if limit <? 1 then 1 else limit in
  let limit := if 200 <? limit then 200 else limit in
  jobsList ⇐ call_Jobs ["runs"];
  Ret (reply 200 (BodyRuns (distributedRunSummaries jobsList limit) limit)))).

Definition handleJobCancel (r : Request) (jobID : string) : prog Response :=
guard (negb (is_post r)) method_not_allowed $
operator r false (
  job ⇐ store ["cancel"] (λ W s, CancelJob (H := W) s jobID);
  match job with
  | None => Stop not_found
  | Some job => Ret (reply 200 (BodyJob job))
  end).

(** [None]: not handled; [Some None]: handled, the transition is invalid. *)
Definition handleCDIPStageComplete (req : CompleteRequest) (jobID : string) : prog (option (option Job)) :=
found ⇐ call_Job jobID;
match found with
| None => Ret None
| Some job =>
    if negb (str_eqb (job_Type job) JobGenerateStage) || negb (str_eqb (job_AssignedTo job) (comp_NodeID req))
    then Ret None
    else if negb (blank (comp_Error req)) then
      updated ⇐ call_UpdateCDIPStageState ["stage"; "failed"] jobID StageFailed (comp_Error req);
      Ret (Some updated)
    else
      match Unmarshal (A := cdipStageWorkerResult) (comp_Result req) with
      | None => Ret None
      | Some res =>
          if negb (str_eqb (swr_Kind res) "cdip.stage_ready") then Ret None else
          updated ⇐ call_UpdateCDIPStageState ["stage"; "ready"] jobID StageReady "worker reported cdip.stage_ready";
          Ret (Some updated)
      end
end.

(** A nil map in the result makes [CompleteJob] panic. *)
Definition call_CompleteJob (jobID : string) (req : CompleteRequest) : prog (option Job) :=
Act (λ srv,
  match CompleteJob (H := sub_world ["complete"]) (srv_state srv) jobID req with
  | (s, Ok job) => (srv <| srv_state := s |>, Returned job)
  | (s, Err _) => (srv <| srv_state := s |>, Panicked)
  end) Ret.

Definition handleJobComplete (r : Request) (jobID : string) : prog Response :=
guard (negb (is_post r)) method_not_allowed $
decoded r (λ req : CompleteRequest,
  guard (str_eqb (comp_NodeID req) "") (http_error "node_id is required" 400) (
  handled ⇐ handleCDIPStageComplete req jobID;
  match handled with
  | Some (Some job) => Ret (reply 200 (BodyJob job))
  | Some None => Stop (http_error "invalid CDIP stage transition" 409)
  | None =>
      job ⇐ call_CompleteJob jobID req;
      match job with
      | None => Stop not_found
      | Some job => Ret (reply 200 (BodyJob job))
      end
  end)).

Definition handleJobProgress (r : Request) (jobID : string) : prog Response :=
guard (negb (is_post r)) method_not_allowed $
decoded r (λ req : ProgressRequest,
  guard (str_eqb (prog_NodeID req) "") (http_error "node_id is required" 400) (
  job ⇐ store ["progress"] (λ W s, UpdateJobProgress (H := W) s jobID req);
  match job with
  | None => Stop not_found
  | Some job => Ret (reply 200 (BodyJob job))
  end)).

Definition handleJob (r : Request) : prog Response :=
let path := TrimPrefix (rq_Path r) "/v1/jobs/" in
guard (str_eqb path "") not_found $
match Split path slash with
| [jobID; "complete"] => handleJobComplete r jobID
| [jobID; "progress"] => handleJobProgress r jobID
| [jobID; "cancel"] => handleJobCancel r jobID
| [jobID] =>
    guard (negb (is_get r)) not_found $
    operator r false (
      found ⇐ call_Job jobID;
      match found with
      | None => Stop not_found
      | Some job => Ret (reply 200 (BodyJob job))
      end)
| _ => Stop not_found
end%string.

(** ** CDIP stages and jobs *)

Definition handleCDIPStage (r : Request) : prog Response :=
operator r false (guard (negb (is_post r)) method_not_allowed (
  match Split (trim_slash (TrimPrefix (rq_Path r) "/v1/cdip/stages/")) slash with
  | [jobID; action] =>
      guard (str_eqb jobID "" || str_eqb action "") not_found (
      match cdipStageAction action with
      | None => Stop not_found
      | Some next =>
          let req := decode_any (A := DetailRequest) r in
          job ⇐ call_UpdateCDIPStageState ["cdip"; "stage"] jobID next (dt_Detail req);
          match job with
          | None => Stop (http_error "invalid CDIP stage transition" 409)
          | Some job => Ret (reply 200 (BodyStage job))
          end
      end)
  | _ => Stop not_found
  end)).

(** A coordinator call is taken as one action on store and transport; an error
  is answered with its text. *)
Definition coordinate {A} (t : Tag) (f : World → State → MemoryActivationTransport →
  State * MemoryActivationTransport * outcome (result coord_error A)) : prog (result coord_error A) :=
Act (λ srv, let '(s, bus, out) := f (sub_world t) (srv_state srv) (srv_bus srv) in
            (srv <| srv_state := s |> <| srv_bus := bus |>, out)) Ret.
Definition no_bus {A} (f : World → State → State * result coord_error A) : World → State →
  MemoryActivationTransport → State * MemoryActivationTransport * outcome (result coord_error A) :=
λ W s bus, let '(s, out) := f W s in (s, bus, Returned out).

Definition coordinated {A} (body : A → Body)
  (p : prog (result coord_error A)) : prog Response :=
out ⇐ p;
match out with
| Err e => Stop (http_error (coord_text e) 409)
| Ok res => Ret (reply 202 (body res))
end.

Definition handleCDIPJob (r : Request) : prog Response :=
operator r false (guard (negb (is_post r)) method_not_allowed (
  match Split (trim_slash (TrimPrefix (rq_Path r) "/v1/cdip/jobs/")) slash with
  | [jobID; action] =>
      guard (str_eqb jobID "") not_found (
      if str_eqb action "advance" then
        let req := decode_any (A := AdvanceRequest) r in
        coordinated BodyAdvance (coordinate ["cdip"; "job"] (λ W s bus,
          advanceCDIPDistributedJob (H := W) s bus jobID (ar_Step req) (ar_Output req)))
      else if str_eqb action "prepare" then
        coordinated BodyPrepare (coordinate ["cdip"; "job"] (no_bus (λ W s,
          prepareCDIPDistributedJob (H := W) s jobID)))
      else if str_eqb action "prefill" then
        coordinated BodyCommand (coordinate ["cdip"; "job"] (no_bus (λ W s,
          startCDIPPrefill (H := W) s jobID)))
      else if str_eqb action "decode" then
        let req := decode_any (A := StepRequest) r in
        coordinated BodyCommand (coordinate ["cdip"; "job"] (λ W s bus,
          startCDIPDecode (H := W) s bus jobID (stp_Step req)))
      else if str_eqb action "complete" then
        let req := decode_any (A := OutputRequest) r in
        coordinated BodyCommand (coordinate ["cdip"; "job"] (no_bus (λ W s,
          completeCDIPDistributedJob (H := W) s jobID (out_Output req))))
      else if str_eqb action "mock-run" then
        coordinated BodyMockRun (coordinate ["cdip"; "job"] (no_bus (λ W s,
          runCDIPMockCoordinator (H := W) s jobID)))
      else Stop not_found)
  | _ => Stop not_found
  end)).

(** ** Activation streams *)

Definition validateCDIPActivationStream (parentJobID stageJobID : string) : prog (option Job) :=
parent ⇐ call_Job parentJobID;
match parent with
| None => Ret None
| Some parent =>
    if negb (str_eqb (job_Type parent) JobGenerateDistributed) then Ret None else
    stage ⇐ call_Job stageJobID;
    match stage with
    | None => Ret None
    | Some stageJob =>
        if negb (str_eqb (job_Type stageJob) JobGenerateStage)
           || negb (str_eqb (job_CDIPParentJobID stageJob) parentJobID)
        then Ret None else Ret (Some stageJob)
    end
end.

(** The node that asks: a header, else a query parameter. *)
Definition activation_node (r : Request) : string :=
let nodeID := TrimSpace (header r "X-Cmesh-Node-Id") in
if str_eqb nodeID "" then TrimSpace (query r "node_id") else nodeID.

Definition requireCDIPActivationAuth (srv : Server) (r : Request) (stageJob : Job) : option Response :=
if hasOperatorAuth srv r then None else
let nodeID := activation_node r in
if str_eqb nodeID "" then Some (http_error "operator token or worker node id required" 401)
else if existsb (λ allowed, str_eqb nodeID allowed) (cdipActivationAllowedNodes stageJob) then None
else Some (http_error "worker is not allowed to access this activation stream" 403).

Definition on_bus {A} (f : MemoryActivationTransport → MemoryActivationTransport * outcome A) : prog A :=
Act (λ srv, let '(bus, out) := f (srv_bus srv) in (srv <| srv_bus := bus |>, out)) Ret.

Definition post_frame (r : Request) (stream : StreamID) (stageJob : Job) : prog Response :=
let '(frame, ok) := Decode (A := ActivationFrame) (rq_Body r) in
guard (negb ok) (http_error "invalid activation frame" 400) (
guard (bool_decide (chunk_ParentJobID (frame_Header frame) ≠ str_ParentJobID stream)
       || bool_decide (chunk_StageJobID (frame_Header frame) ≠ str_StageJobID stream))
  (http_error "activation frame stream does not match URL" 400) (
match ActivationFrame_Validate frame with
| Some e => Stop (http_error (transport_text e) 400)
| None =>
    writer ⇐ on_bus (λ bus, let '(bus, w) := mem_OpenWriter (rq_Context r) bus stream (job_AssignedTo stageJob) in
                             (bus, Returned w));
    match writer with
    | Err e => Stop (http_error (transport_text e) 409)
    | Ok writer =>
        sent ⇐ on_bus (λ bus, mem_Send (rq_Context r) bus writer frame);
        match sent with
        | Some e => Stop (http_error (transport_text e) 409)
        | None => Ret (reply 202 (BodyFrameAccepted stream (chunk_Sequence (frame_Header frame))
                                    (payload_len (frame_Payload frame))))
        end
    end
end)).

(** The context of a read has a deadline. *)
Definition get_frame (r : Request) (stream : StreamID) : prog Response :=
let ctx := mkContext (ctx_done (rq_Context r)) true (ctx_pick (rq_Context r)) in
reader ⇐ on_bus (λ bus, let '(bus, rd) := mem_OpenReader ctx bus stream in (bus, Returned rd));
match reader with
| Err e => Stop (http_error (transport_text e) 409)
| Ok reader =>
    received ⇐ on_bus (λ bus, mem_Receive ctx bus reader);
    match received with
    | Err ContextDone | Err EndOfStream => Stop (reply 204 BodyEmpty)
    | Err e => Stop (http_error (transport_text e) 409)
    | Ok frame => Ret (reply 200 (BodyFrame frame))
    end
end.

Definition handleCDIPActivation (r : Request) : prog Response :=
match Split (trim_slash (TrimPrefix (rq_Path r) "/v1/cdip/activations/")) slash with
| [parentJobID; stageJobID; "frames"] =>
    guard (str_eqb parentJobID "" || str_eqb stageJobID "") not_found (
    stage ⇐ validateCDIPActivationStream parentJobID stageJobID;
    match stage with
    | None => Stop (http_error "CDIP activation stream not found" 404)
    | Some stageJob =>
        refused ⇐ look (λ srv, requireCDIPActivationAuth srv r stageJob);
        match refused with
        | Some resp => Stop resp
        | None =>
            let stream := mkStreamID parentJobID stageJobID in
            if is_post r then post_frame r stream stageJob
            else if is_get r then get_frame r stream
            else Stop method_not_allowed
        end
    end)
| _ => Stop not_found
end%string.

(** ** Workers *)

Definition handleWorkerModelCleanup (r : Request) (nodeID : string) : prog Response :=
operator r false (guard (negb (is_post r)) method_not_allowed (
  let nodeID := TrimSpace nodeID in
  guard (str_eqb nodeID "") (http_error "node_id is required" 400) (
  nodes ⇐ call_Nodes ["cleanup"; "nodes"];
  match findNodeByID nodes nodeID with
  | None => Stop (http_error "worker not found" 404)
  | Some node =>
      guard (bool_decide (node_Role node ≠ NodeRoleWorker)) (http_error "worker not found" 404) (
      guard (bool_decide (node_Status node ≠ NodeStatusOnline)) (http_error "worker is not online" 409) (
      job ⇐ call_CreateJob ["cleanup"] (mkCreateRequest JobCleanup (Marshal (mkCleanupInput "cache"))
              "dashboard-workers" nodeID (mkRequirements 1 0 0 false 0) 1 false StageNone "" 0);
      Ret (reply 201 (BodyJob job))))
  end))).

Definition handleWorkerNextJob (r : Request) (nodeID : string) : prog Response :=
guard (negb (is_get r)) method_not_allowed (
job ⇐ store ["next"] (λ W s, NextJobForWorker (H := W) s nodeID);
Ret (reply 200 (BodyNextJob job))).

Definition handleWorkerRoutes (r : Request) : prog Response :=
match Split (TrimPrefix (rq_Path r) "/v1/workers/") slash with
| [nodeID; "jobs"; "next"] => handleWorkerNextJob r nodeID
| [nodeID; "model-cleanup"] => handleWorkerModelCleanup r nodeID
| _ => Stop not_found
end%string.

Definition handleWorkerJoin (r : Request) : prog Response :=
guard (negb (is_post r)) method_not_allowed $
decoded r (λ req : JoinRequest,
  guard (str_eqb (join_NodeName req) "") (http_error "node_name is required" 400) (
  joinToken ⇐ look srv_joinToken;
  guard (negb (str_eqb joinToken "") && negb (str_eqb (join_JoinToken req) joinToken))
    (http_error "invalid join token" 401) (
  resp ⇐ store ["join"] (λ W s, RegisterWorker (H := W) s req);
  Ret (reply 201 (BodyJoined resp))))).

Definition handleWorkerHeartbeat (r : Request) : prog Response :=
guard (negb (is_post r)) method_not_allowed $
decoded r (λ hb : Heartbeat,
  guard (str_eqb (hb_NodeID hb) "") (http_error "node_id is required" 400) (
  known ⇐ store ["heartbeat"] (λ W s, HeartbeatOp (H := W) s hb);
  guard (negb known) (http_error "unknown node" 404) (Ret (reply 200 (BodyStatusText "ok"))))).

Definition handleWorkerLeave (r : Request) : prog Response :=
guard (negb (is_post r)) method_not_allowed $
decoded r (λ req : LeaveRequest,
  guard (str_eqb (leave_NodeID req) "") (http_error "node_id is required" 400) (
  known ⇐ store ["leave"] (λ W s, MarkWorkerOffline (H := W) s (leave_NodeID req));
  guard (negb known) (http_error "unknown node" 404) (Ret (reply 200 (BodyStatusText "offline"))))).
End handlers.
