(* ===== verification/Demo.v ===== *)
(** * Instances for worked examples

    Codecs, bodies and a network simple enough to evaluate.  Only examples and
    witnesses use them; no definition of the program does. *)

From S2P Require Import Prelude GoString GoSort GoFloat World Json Cdip Types Protocol Models State.
From S2P Require Import Conversations Scheduling JobStore ModelView RpcPool DistributedPlan Views Capacity.
From S2P Require Import Transport Coordinator Http Handlers.

(** Texts no example reads. *)
Definition opaque_codec (A : Type) : Json A := {|
  Marshal _ := "";
  Unmarshal _ := None;
  json_ok _ := False;
  json_roundtrip := λ _ H, False_ind _ H;
|}.

(** A codec that keeps only the conversation of an input. *)
Definition keep_generate : Json GenerateInput :=
  let wrap s := mkGenerateInput "" "" [] "" s 0 "" "" in {|
  Marshal := gen_ConversationID;
  Unmarshal s := Some (wrap s);
  json_ok x := x = wrap (gen_ConversationID x);
  json_roundtrip := λ x H, f_equal Some (eq_sym H);
|}.
Definition keep_rpc : Json DistributedRPCGenerateInput :=
  let wrap s := mkDistributedRPCGenerateInput "" "" [] "" s 0 "" []
                (mkDistributedRPCExecutionPlan "" "" 0 0 "" "" "" "" [] [] false "") in {|
  Marshal := drg_ConversationID;
  Unmarshal s := Some (wrap s);
  json_ok x := x = wrap (drg_ConversationID x);
  json_roundtrip := λ x H, f_equal Some (eq_sym H);
|}.
Definition keep_distributed : Json DistributedGenerateInput :=
  let wrap s := mkDistributedGenerateInput "" "" [] "" s 0 "" "" [] [] in {|
  Marshal := dgi_ConversationID;
  Unmarshal s := Some (wrap s);
  json_ok x := x = wrap (dgi_ConversationID x);
  json_roundtrip := λ x H, f_equal Some (eq_sym H);
|}.

Definition demo_store_codecs : Codecs := {|
  c_lower := ascii_case; c_map := opaque_map_codec;
  c_delete := opaque_codec _; c_generate := keep_generate;
  c_generate_rpc := keep_rpc; c_output := opaque_codec _;
|}.
(** Stage jobs decode to [stage]. *)
Definition demo_view_codecs (stage : DistributedStageJobInput) : ViewCodecs := {|
  v_codecs := demo_store_codecs; v_generate_distributed := keep_distributed;
  v_stage := fixed_codec stage; v_model := opaque_codec _; v_matrix := opaque_codec _;
  v_flops := opaque_codec _; v_execution := opaque_codec _;
|}.

(** A body that decodes to [x], or to nothing useful when the text is empty. *)
Definition body_of {A} (x : A) : JsonBody A := {| Decode s := (x, negb (str_eqb s "")) |}.

Definition demo_create : CreateRequest :=
  mkCreateRequest JobGenerate "c" "" "" (mkRequirements 0 0 0 false 0) 1 false StageNone "" 0.
Lemma demo_create_int body req ok :
  Decode (JsonBody := body_of demo_create) body = (req, ok) → cr_MaxAttempts req < 2^63.
Proof. intros [= <- _]. reflexivity. Qed.

Definition demo_server_codecs (join : JoinRequest) (generate : GenerateRequest) (stage : DistributedStageJobInput)
    (frame : ActivationFrame) (complete : CompleteRequest) : ServerCodecs := {|
  s_views := demo_view_codecs stage; s_upper := ascii_upper_case; s_floats := decimal_syntax;
  s_cleanup := opaque_codec _; s_stage_result := fixed_codec (mkStageWorkerResult "cdip.stage_ready");
  b_join := body_of join;
  b_heartbeat := body_of (mkHeartbeat "" 0 zero_snapshot);
  b_leave := body_of (mkLeaveRequest "" 0);
  b_benchmark := body_of (mkBenchmarkResult "" "" f_zero "" 0 0 ∅);
  b_cluster_benchmark := body_of (mkClusterBenchmarkRequest 0 0 "");
  b_snapshot := body_of (mkSnapshotRequest "" "");
  b_create := body_of demo_create;
  b_complete := body_of complete;
  b_progress := body_of (mkProgressRequest "" 0 0 f_zero "");
  b_node := body_of (mkNodeRequest "");
  b_generate := body_of generate;
  b_distributed := body_of (mkDistributedGenerateRequest "" "" "" 0 "");
  b_memory := body_of (mkMemoryRequest "" "" "" "" "");
  b_detail := body_of (mkDetailRequest "");
  b_advance := body_of (mkAdvanceRequest 0 "");
  b_step := body_of (mkStepRequest 0);
  b_output := body_of (mkOutputRequest "");
  b_frame := body_of frame;
  Decode_int := demo_create_int;
|}.

Definition no_texts : ErrorTexts := {|
  coord_text _ := ""; transport_text _ := ""; plan_error_text _ := ""; stage_request_text _ := "";
  memory_error_text _ := "" |}.
Definition silent_network : Dialer := {| dial _ t := (t, Some "refused"%string) |}.

(** A request with no token, and one with the operator's. *)
Definition demo_request_to (method path : string) : Request :=
  mkRequest method path "manager" false ∅ ∅ ∅ "{}" (mkContext false false false).
Definition with_token (token : string) (r : Request) : Request :=
  mkRequest (rq_Method r) (rq_Path r) (rq_Host r) (rq_TLS r) (rq_Query r)
    (<["X-Cmesh-Operator-Token"%string := token]> (rq_Header r)) (rq_Cookies r) (rq_Body r) (rq_Context r).

(** A stage between two nodes, and a frame of its stream. *)
Definition demo_stage (upstream downstream : string) : DistributedStageJobInput :=
  mkDistributedStageJobInput "p" "m" "c" (mkDistributedStageInput 0 "" "" 0 0 0)
    (mkModelShard (mkStage 0 "" "" 0 0) "" 0 0 "" "" ShardLogicalLayers []) upstream downstream "" [] "" 0 "".
Definition demo_frame (parent stage payload : string) : ActivationFrame :=
  mkActivationFrame
    (mkActivationChunk (NewEnvelope MessageActivationChunk) parent stage 0 "application/octet-stream" "raw" [1] "f32"
       (payload_len payload) "")
    payload.
Definition demo_join (token : string) : JoinRequest := mkJoinRequest "n" NodeRoleWorker "" token zero_snapshot.
(** The bodies of most examples. *)
Definition plain_codecs (generate : GenerateRequest) : ServerCodecs :=
  demo_server_codecs (demo_join "") generate (demo_stage "" "") (demo_frame "p" "s" "x") (mkCompleteRequest "" "" "").
