(* ===== verification/ModelHandlers.v ===== *)
(** * Handlers: models, generation, conversations and memories

    [internal/manager/server.go], the handlers below [/v1/models/],
    [/v1/conversations/] and [/v1/memories/].  A generate request checks that
    its conversation has no generation in progress, appends the user's message,
    and creates a job with the budgeted history. *)

From S2P Require Import Prelude GoString GoSort GoFloat World Json Cdip Types Protocol Models State.
From S2P Require Import Conversations Scheduling JobStore ModelView RpcPool DistributedPlan Views Capacity.
From S2P Require Import Transport Coordinator Http Handlers.

Section handlers.
Context `{W : World} `{ServerCodecs} `{Dialer} `{ErrorTexts}.

Definition modelCatalogFiltersFromRequest (r : Request) : ModelCatalogFilters :=
mkModelCatalogFilters (firstNonEmptyString [query r "q"; query r "query"]) (query r "status")
  (query r "family") (boolQuery (query r "capable")) (query r "sort").

Definition handleModels (r : Request) : prog Response :=
operator r false (
  guard (negb (is_get r) && negb (is_delete r)) method_not_allowed (
  let filters := modelCatalogFiltersFromRequest r in
  jobsList ⇐ call_Jobs ["models"; "jobs"];
  nodes ⇐ call_Nodes ["models"; "nodes"];
  let summaries := modelSummaries (H := sub_world ["models"]) Catalog jobsList nodes in
  let filtered := filterAndSortModelSummaries summaries filters in
  Ret (reply 200 (BodyModels filtered (Z.of_nat (length summaries)) filters)))).

(** [modelSummaries([]models.Model{model}, s.state.Jobs(), s.state.Nodes())]: one
  summary. *)
Definition summary_of (t : Tag) (model : Model) : prog (list ModelSummary) :=
jobsList ⇐ call_Jobs (t ++ ["jobs"]);
nodes ⇐ call_Nodes (t ++ ["nodes"]);
Ret (modelSummaries (H := sub_world t) [model] jobsList nodes).

Definition handleModelDetail (r : Request) (model : Model) : prog Response :=
guard (negb (is_get r)) method_not_allowed (
summaries ⇐ summary_of ["detail"] model;
match summaries with
| [] => Stop not_found
| summary :: _ => Ret (reply 200 (BodyModel summary))
end).

Definition handleModelPlacement (r : Request) (model : Model) : prog Response :=
guard (negb (is_get r)) method_not_allowed (
summaries ⇐ summary_of ["placement"] model;
match summaries with
| [] => Stop not_found
| summary :: _ => Ret (reply 200 (BodyPlacement (modelPlacementPlan summary)))
end).

Definition handleModelDistributedPlan (r : Request) (model : Model) : prog Response :=
guard (negb (is_get r)) method_not_allowed (
nodes ⇐ call_Nodes ["plan"];
let plan := distributedModelPlan model nodes in
Ret (reply 200 (BodyDistributedPlan plan (cdipPlanProposal plan) (cdipShardManifest model plan)))).

(** The plan of a distributed RPC job reads the store and may record health; it
  is taken as one action. *)
Definition call_RPCPlan (t : Tag) (model : Model) (nodeID : string) (checkHealth : bool) (timeout : Z)
  : prog ModelDistributedRPCPlan :=
store t (λ W s, modelDistributedRPCPlan (H := W) s model nodeID checkHealth timeout).

Definition handleModelDistributedRPCPlan (r : Request) (model : Model) : prog Response :=
guard (negb (is_get r)) method_not_allowed (
let nodeID := TrimSpace (query r "node_id") in
let checkHealth := boolQuery (firstNonEmptyString [query r "check"; query r "health"]) in
plan ⇐ call_RPCPlan ["rpc-plan"] model nodeID checkHealth 1000;
Ret (reply 200 (BodyRPCPlan plan))).

Definition handleModelDistributedRPCReadiness (r : Request) (model : Model) : prog Response :=
guard (negb (is_get r)) method_not_allowed (
readiness ⇐ store ["rpc-readiness"] (λ W s, modelDistributedRPCReadiness (H := W) s model
                                               (TrimSpace (query r "node_id")));
Ret (reply 200 (BodyRPCReadiness readiness))).

(** ** Install, delete, repair *)

Definition model_input (model : Model) : string := Marshal (mkDeleteInput (model_ID model) "").
Definition model_request (type requestedBy assignedTo input : string) (req : Requirements) : CreateRequest :=
mkCreateRequest type input requestedBy assignedTo req 1 false StageNone "" 0.
(** One core and what the model needs. *)
Definition model_requirements (model : Model) : Requirements :=
mkRequirements 1 (model_MemoryBytes model) (model_DiskBytes model) false (model_VRAMBytes model).

Definition handleModelInstall (r : Request) (model : Model) : prog Response :=
guard (negb (is_post r)) method_not_allowed (
let req := decode_any (A := NodeRequest) r in
summaries ⇐ summary_of ["install"] model;
match summaries with
| [] => Stop (http_error "model is not available" 404)
| summary :: _ =>
    let '(ok, reason) := modelInstallEligibility (H := sub_world ["install"]) summary (nr_NodeID req) in
    guard (negb ok) (reply 409 (BodyInstallConflict reason
                                  (modelPlacementPlan (H := sub_world ["install"]) summary))) (
    job ⇐ call_CreateJob ["install"; "job"]
      (model_request JobInstall "dashboard-models" (nr_NodeID req) (model_input model) (model_requirements model));
    Ret (reply 201 (BodyJob job)))
end).

Definition not_installed : Response := http_error "model is not installed on the selected worker" 409.

(** The checks delete and repair share; [k] runs when the model is installed on
  the worker and no job of it is open there. *)
Definition on_installed (t : Tag) (r : Request) (model : Model) (k : string → prog Response) : prog Response :=
guard (negb (is_post r)) method_not_allowed $
decoded r (λ req : NodeRequest,
  guard (str_eqb (nr_NodeID req) "") (http_error "node_id is required" 400) (
  summaries ⇐ summary_of t model;
  guard (match summaries with [] => true | s :: _ => negb (modelInstalledOn s (nr_NodeID req)) end) not_installed (
  jobsList ⇐ call_Jobs (t ++ ["active"]);
  let activeJobID := activeModelJobForNode jobsList (model_ID model) (nr_NodeID req) in
  guard (negb (str_eqb activeJobID ""))
    (http_error ("model has an active job on the selected worker: " +:+ activeJobID) 409)
    (k (nr_NodeID req))))).

Definition handleModelDelete (r : Request) (model : Model) : prog Response :=
on_installed ["delete"] r model (λ nodeID,
  job ⇐ call_CreateJob ["delete"; "job"]
    (model_request JobDelete "dashboard-models" nodeID (model_input model) (mkRequirements 0 0 0 false 0));
  Ret (reply 201 (BodyJob job))).

Definition handleModelRepair (r : Request) (model : Model) : prog Response :=
on_installed ["repair"] r model (λ nodeID,
  job ⇐ call_CreateJob ["repair"; "job"]
    (model_request JobRepair "dashboard-models" nodeID (model_input model)
       (mkRequirements 1 (model_MemoryBytes model) 0 false (model_VRAMBytes model)));
  Ret (reply 201 (BodyJob job))).

(** ** Generation *)

(** The conversation a request names, or a new one. *)
Definition conversation_for (requested : string) : string :=
let conversationID := TrimSpace requested in
if str_eqb conversationID "" then newID "conv" (w_rand ["conversation"]) else conversationID.

Definition idle_conversation {A} (t : Tag) (conversationID : string) (k : prog A) : prog A :=
jobsList ⇐ call_Jobs t;
let activeJobID := activeGenerateJobForConversation jobsList conversationID in
guard (negb (str_eqb activeJobID ""))
  (http_error ("conversation already has an active generate job: " +:+ activeJobID) 409) k.

(** The prompt, token limit and temperature of a request, defaulted by the
  model's preset. *)
Definition prompt_for (model : Model) (systemPrompt : string) : string :=
let systemPrompt := TrimSpace systemPrompt in
if str_eqb systemPrompt "" then modelDefaultSystemPrompt model else systemPrompt.
Definition tokens_for (model : Model) (maxTokens : Z) : Z :=
if maxTokens <=? 0 then qp_MaxTokens (QualityPresetFor model) else maxTokens.
Definition temperature_for (model : Model) (temperature : string) : string :=
let temperature := TrimSpace temperature in
if str_eqb temperature "" then qp_Temperature (QualityPresetFor model) else temperature.

(** Appends the user's message and reads the memories: the conversation, the
  effective system prompt and the messages that fit the budget. *)
Definition open_turn (t : Tag) (model : Model) (conversationID nodeID systemPrompt prompt : string) (maxTokens : Z)
  : prog (Conversation * string * list ChatMessage) :=
conversation ⇐ store (t ++ ["append"]) (λ W s,
  AppendConversationMessage (H := W) s conversationID (model_ID model) nodeID systemPrompt
    (mkChatMessage "user" prompt));
effective ⇐ look (λ srv, systemPromptWithMemory (H := sub_world (t ++ ["memory"]))
                           systemPrompt (model_ID model) (srv_state srv));
Ret (conversation, effective, budgetConversationMessages model effective (conv_Messages conversation) maxTokens).

Definition handleModelGenerate (r : Request) (model : Model) : prog Response :=
guard (negb (is_post r)) method_not_allowed $
decoded r (λ req : GenerateRequest,
  guard (blank (gr_Prompt req)) (http_error "prompt is required" 400) (
  guard (str_eqb (gr_NodeID req) "") (http_error "node_id is required" 400) (
  summaries ⇐ summary_of ["generate"] model;
  match summaries with
  | [] => Stop not_installed
  | summary :: _ =>
      guard (negb (modelInstalledOn summary (gr_NodeID req))) not_installed (
      let conversationID := conversation_for (gr_ConversationID req) in
      idle_conversation ["generate"; "active"] conversationID (
      guard (negb (modelGeneratableOn summary (gr_NodeID req)))
        (http_error (modelGenerateBlockedReason summary (gr_NodeID req)) 409) (
      let systemPrompt := prompt_for model (gr_SystemPrompt req) in
      let maxTokens := tokens_for model (gr_MaxTokens req) in
      let temperature := temperature_for model (gr_Temperature req) in
      '(conversation, effective, messages) ⇐
        open_turn ["generate"] model conversationID (gr_NodeID req) systemPrompt (gr_Prompt req) maxTokens;
      let input := Marshal (mkGenerateInput (model_ID model) (gr_Prompt req) messages effective
                     (conv_ID conversation) maxTokens temperature "") in
      job ⇐ call_CreateJob ["generate"; "job"]
        (model_request JobGenerate "dashboard-chat" (gr_NodeID req) input (model_requirements model));
      Ret (reply 201 (BodyJob job)))))
  end))).

Definition handleModelDistributedRPCGenerate (r : Request) (model : Model) : prog Response :=
guard (negb (is_post r)) method_not_allowed $
decoded r (λ req : GenerateRequest,
  guard (blank (gr_Prompt req)) (http_error "prompt is required" 400) (
  plan ⇐ call_RPCPlan ["rpc"; "plan"] model (gr_NodeID req) true 1000;
  guard (negb (rp_ExecutableNow plan))
    (reply 409 (BodyRPCConflict
       (match rp_Blockers plan with
        | [] => "distributed RPC model generate is not executable"
        | blockers => Join blockers " | "
        end) plan)) (
  let conversationID := conversation_for (gr_ConversationID req) in
  idle_conversation ["rpc"; "active"] conversationID (
  let systemPrompt := prompt_for model (gr_SystemPrompt req) in
  let maxTokens := tokens_for model (gr_MaxTokens req) in
  let temperature := temperature_for model (gr_Temperature req) in
  '(conversation, effective, messages) ⇐
    open_turn ["rpc"] model conversationID (rp_CoordinatorNodeID plan) systemPrompt (gr_Prompt req) maxTokens;
  let executionPlan := distributedRPCExecutionPlanForJob (H := sub_world ["rpc"]) plan in
  match ValidateDistributedRPCExecutionPlan executionPlan (model_ID model) (rp_CoordinatorNodeID plan) with
  | Some e => Stop (http_error ("invalid distributed rpc execution plan: " +:+ plan_error_text e) 500)
  | None =>
      let input := Marshal (mkDistributedRPCGenerateInput (model_ID model) (gr_Prompt req) messages effective
                     (conv_ID conversation) maxTokens temperature (rp_RPCEndpoints plan) executionPlan) in
      job ⇐ call_CreateJob ["rpc"; "job"]
        (model_request JobGenerateDistributedRPC "dashboard-chat-rpc" (rp_CoordinatorNodeID plan) input
           (model_requirements model));
      Ret (reply 201 (BodyJob job))
  end)))).

(** The input of the parent job carries the stages; the stage jobs get the
  shards as well. *)
Definition distributed_input (model : Model) (req : DistributedGenerateRequest) (messages : list ChatMessage)
  (effective conversationID : string) (plan : DistributedModelPlan) (shards : list ModelShard)
  : DistributedGenerateInput :=
mkDistributedGenerateInput (model_ID model) (dg_Prompt req) messages effective conversationID
  (tokens_for model (dg_MaxTokens req)) (temperature_for model (dg_Temperature req)) (dmp_Mode plan)
  (distributedStageInputs (dmp_Stages plan)) shards.

Definition handleModelDistributedGenerate (r : Request) (model : Model) : prog Response :=
guard (negb (is_post r)) method_not_allowed $
decoded r (λ req : DistributedGenerateRequest,
  guard (blank (dg_Prompt req)) (http_error "prompt is required" 400) (
  nodes ⇐ call_Nodes ["distributed"; "nodes"];
  let plan := distributedModelPlan (H := sub_world ["distributed"]) model nodes in
  guard (negb (dmp_Feasible plan))
    (reply 409 (BodyGenerateConflict
       (match dmp_Blockers plan with
        | [] => "distributed model execution is not ready"
        | blockers => Join blockers " | "
        end) plan)) (
  let conversationID := conversation_for (dg_ConversationID req) in
  idle_conversation ["distributed"; "active"] conversationID (
  let systemPrompt := prompt_for model (dg_SystemPrompt req) in
  '(conversation, effective, messages) ⇐
    open_turn ["distributed"] model conversationID "distributed" systemPrompt (dg_Prompt req)
      (tokens_for model (dg_MaxTokens req));
  let parent_input := distributed_input model req messages effective (conv_ID conversation) plan [] in
  parent ⇐ call_CreateJob ["distributed"; "parent"]
    (mkCreateRequest JobGenerateDistributed (Marshal parent_input) "dashboard-chat" ""
       (mkRequirements (Z.of_nat (length (dmp_Stages plan))) (model_MemoryBytes model) (model_DiskBytes model)
          false (model_VRAMBytes model)) 1 true StageNone "" 0);
  match distributedStageJobRequests parent
          (distributed_input model req messages effective (conv_ID conversation) plan
             (man_Shards (cdipShardManifest model plan))) with
  | Err e => Stop (http_error (stage_request_text e) 500)
  | Ok stageRequests =>
      stageJobs ⇐ store ["distributed"; "stages"] (λ W s, CreateJobsBatch (H := W) s stageRequests);
      Ret (reply 202 (BodyGenerated (mkGenerated parent stageJobs plan (dmp_ExecutableNow plan))))
  end)))).

(** ** The routes of a model *)

Definition handleModel (r : Request) : prog Response :=
operator r false (
  match Split (trim_slash (TrimPrefix (rq_Path r) "/v1/models/")) slash with
  | id :: rest =>
      guard (str_eqb id "" || (1 <? length rest)%nat) not_found (
      match Find id with
      | None => Stop not_found
      | Some model =>
          match rest with
          | [] => handleModelDetail r model
          | action :: _ =>
              if str_eqb action "distributed-plan" then handleModelDistributedPlan r model
              else if str_eqb action "distributed-rpc-plan" then handleModelDistributedRPCPlan r model
              else if str_eqb action "distributed-rpc-readiness" then handleModelDistributedRPCReadiness r model
              else if str_eqb action "distributed-rpc-generate" then handleModelDistributedRPCGenerate r model
              else if str_eqb action "distributed-generate" then handleModelDistributedGenerate r model
              else if str_eqb action "placement" then handleModelPlacement r model
              else if str_eqb action "install" then handleModelInstall r model
              else if str_eqb action "delete" then handleModelDelete r model
              else if str_eqb action "repair" then handleModelRepair r model
              else if str_eqb action "generate" then handleModelGenerate r model
              else Stop not_found
          end
      end)
  | [] => Stop not_found
  end).

(** ** Conversations and memories *)

Definition handleConversations (r : Request) : prog Response :=
operator r false (guard (negb (is_get r)) method_not_allowed (
  l ⇐ look (λ srv, recentConversations (srv_state srv) 100);
  Ret (reply 200 (BodyConversations l)))).

Definition handleConversation (r : Request) : prog Response :=
operator r false (
  guard (negb (is_get r) && negb (is_delete r)) method_not_allowed (
  let id := trim_slash (TrimPrefix (rq_Path r) "/v1/conversations/") in
  guard (str_eqb id "") not_found (
  if is_delete r then
    deleted ⇐ store ["delete"] (λ _ s, DeleteConversation s id);
    guard (negb deleted) not_found (Ret (reply 200 (BodyDeletedConversation id)))
  else
    found ⇐ look (λ srv, FindConversation (srv_state srv) id);
    match found with
    | None => Stop not_found
    | Some conversation => Ret (reply 200 (BodyConversation conversation))
    end))).

(** [decodeMemoryRequest]; a decoding error is answered with its own text, which
  the model leaves empty. *)
Definition decodeMemoryRequest (r : Request) (id : string) : option Memory :=
let '(req, ok) := Decode (A := MemoryRequest) (rq_Body r) in
if ok then Some (mkMemory (TrimSpace id) (mq_ModelID req) (mq_Key req) (mq_Value req) (mq_Source req)
                   (mq_ConversationID req) 0 0)
else None.

Definition saveMemory (memory : Memory) : prog (result memory_error Memory) :=
store ["save"] (λ W s, UpsertMemory (H := W) s memory).

Definition save_decoded (r : Request) (id : string) (status : Z) : prog Response :=
match decodeMemoryRequest r id with
| None => Stop (http_error "" 400)
| Some memory =>
    saved ⇐ saveMemory memory;
    match saved with
    | Err e => Stop (http_error (memory_error_text e) 400)
    | Ok saved => Ret (reply status (BodyMemory saved))
    end
end.

Definition handleMemories (r : Request) : prog Response :=
operator r false (
  guard (negb (is_get r) && negb (is_post r) && negb (is_delete r)) method_not_allowed (
  let modelID := TrimSpace (query r "model_id") in
  if is_post r then save_decoded r "" 201
  else if is_delete r then
    guard (str_eqb modelID "") (http_error "model_id is required" 400) (
    deleted ⇐ store ["delete"] (λ W s, DeleteMemoriesByModel (H := W) s modelID);
    Ret (reply 200 (BodyDeletedMemories deleted)))
  else
    l ⇐ look (λ srv, memoriesForModel (srv_state srv) modelID);
    Ret (reply 200 (BodyMemories l)))).

(** The messages a preview starts from: the conversation's, then the draft. *)
Definition preview_messages (conversation : option Conversation) (draftPrompt : string) : list ChatMessage :=
from_option conv_Messages [] conversation ++
(if str_eqb draftPrompt "" then [] else [mkChatMessage "user" draftPrompt]).

(** The system prompt is defaulted before the conversation's own is considered. *)
Definition preview_prompt (model : Model) (requested : string) (conversation : option Conversation) : string :=
let systemPrompt := prompt_for model requested in
match conversation with
| Some c => if str_eqb systemPrompt "" && negb (str_eqb (conv_SystemPrompt c) "")
            then conv_SystemPrompt c else systemPrompt
| None => systemPrompt
end.

Definition handleMemoryPreview (r : Request) : prog Response :=
guard (negb (is_get r)) method_not_allowed (
match Find (TrimSpace (query r "model_id")) with
| None => Stop (http_error "unknown model" 404)
| Some model =>
    let conversationID := TrimSpace (query r "conversation_id") in
    let maxTokens := intQuery r "max_tokens" (qp_MaxTokens (QualityPresetFor model)) in
    found ⇐ look (λ srv, if str_eqb conversationID "" then None
                          else FindConversation (srv_state srv) conversationID);
    let systemPrompt := preview_prompt model (query r "system_prompt") found in
    let messages := preview_messages found (TrimSpace (query r "prompt")) in
    memories ⇐ look (λ srv, memoriesForModel (H := sub_world ["preview"; "1"]) (srv_state srv) (model_ID model));
    effective ⇐ look (λ srv, systemPromptWithMemory (H := sub_world ["preview"; "2"])
                               systemPrompt (model_ID model) (srv_state srv));
    Ret (reply 200 (BodyPreview (model_ID model) memories (memoryContext (model_ID model) memories) effective
           (promptContextPreview model effective messages maxTokens)))
end).

Definition handleMemory (r : Request) : prog Response :=
operator r false (
  let id := trim_slash (TrimPrefix (rq_Path r) "/v1/memories/") in
  if str_eqb id "preview" then handleMemoryPreview r else
  guard (str_eqb id "") not_found (
  guard (negb (is_delete r) && negb (is_post r)) method_not_allowed (
  if is_post r then save_decoded r id 200
  else
    deleted ⇐ store ["delete"] (λ _ s, DeleteMemory s id);
    guard (negb deleted) not_found (Ret (reply 200 BodyDeleted))))).
End handlers.
