(* ===== verification/Server.v ===== *)
(** * The manager server

    [internal/manager/server.go], the routes and the background loops, and what
    the server guarantees: who may change what, that every request, alone or
    interleaved with others, only runs operations of the store, and how a
    conversation is protected from a second generation.

    [http.ServeMux]: an exact pattern wins; otherwise the longest pattern that
    ends in a slash and starts the path; a path that lacks only the final slash
    of a pattern is redirected.  Paths are clean ([ServeMux] redirects others). *)

From S2P Require Import Prelude GoString GoSort GoFloat World Json Cdip Types Protocol Models State.
From S2P Require Import Conversations Scheduling JobStore ModelView RpcPool DistributedPlan Views Capacity.
From S2P Require Import Transport Coordinator Http Handlers Demo ModelHandlers.

Section server.
Context `{W : World} `{ServerCodecs} `{Dialer} `{ErrorTexts}.

Definition routes : list (string * (Request → prog Response)) := [
("/", handleDashboard);
("/invite", handleInvite);
("/health", handleHealth);
("/v1/cluster", handleCluster);
("/v1/capacity/snapshots", handleCapacitySnapshots);
("/v1/capacity", handleCapacity);
("/v1/dashboard/status", handleDashboardStatus);
("/v1/distributed-runs", handleDistributedRuns);
("/v1/runtime/stage-probes", handleRuntimeStageProbes);
("/v1/runtime/rpc-pool", handleRuntimeRPCPool);
("/v1/runtime/rpc-pool/refresh", handleRuntimeRPCPoolRefresh);
("/v1/runtime/rpc-pool/smoke", handleRuntimeRPCPoolSmoke);
("/v1/nodes", handleNodes);
("/v1/benchmarks", handleBenchmarks);
("/v1/cluster-benchmarks", handleClusterBenchmarks);
("/v1/models", handleModels);
("/v1/models/", handleModel);
("/v1/conversations", handleConversations);
("/v1/conversations/", handleConversation);
("/v1/memories", handleMemories);
("/v1/memories/", handleMemory);
("/v1/jobs", handleJobs);
("/v1/jobs/", handleJob);
("/v1/cdip/activations/", handleCDIPActivation);
("/v1/cdip/jobs/", handleCDIPJob);
("/v1/cdip/stages/", handleCDIPStage);
("/v1/workers/", handleWorkerRoutes);
("/v1/workers/join", handleWorkerJoin);
("/v1/workers/heartbeat", handleWorkerHeartbeat);
("/v1/workers/leave", handleWorkerLeave)]%string.

Definition is_subtree (pattern : string) : bool :=
str_eqb (rev_string (String.substring 0 1 (rev_string pattern))) "/".
Definition exact_route (path : string) : option (string * (Request → prog Response)) :=
find (λ x, str_eqb x.1 path) routes.
(** The longest subtree pattern that starts the path. *)
Definition longer_route (best x : string * (Request → prog Response)) : string * (Request → prog Response) :=
if (String.length best.1 <? String.length x.1)%nat then x else best.
Definition subtree_route (path : string) : string * (Request → prog Response) :=
foldl longer_route ("/"%string, handleDashboard)
  (filter (λ x, is_subtree x.1 && HasPrefix path x.1 = true) routes).

Definition ServeHTTP (r : Request) : prog Response :=
match exact_route (rq_Path r) with
| Some (_, handler) => handler r
| None =>
    match exact_route (rq_Path r +:+ "/") with
    | Some _ => Stop (reply 301 BodyEmpty)
    | None => (subtree_route (rq_Path r)).2 r
    end
end.

(** ** The background loops, tick by tick *)

Definition cdip_tick : prog Response :=
Act (λ srv,
  let '(s, bus, out) := advanceActiveCDIPJobs (H := sub_world ["tick"]) (srv_state srv) (srv_bus srv) in
  (srv <| srv_state := s |> <| srv_bus := bus |>, out)) (λ _, Ret (reply 0 BodyEmpty)).
Definition rpc_tick (rpcHealthTimeout : Z) : prog Response :=
report ⇐ call_refresh ["tick"] rpcHealthTimeout;
Ret (reply 0 BodyEmpty).
End server.

(** ** Every program only runs store operations *)

(** Operations that create no generate job and can run in a reachable state. *)
Definition generates (type : string) : bool :=
  str_eqb type JobGenerate || str_eqb type JobGenerateDistributedRPC || str_eqb type JobGenerateDistributed.
Definition quiet_request (req : CreateRequest) : Prop :=
  cr_MaxAttempts req < 2^63 ∧ generates (cr_Type req) = false.
Definition quiet_op (op : store_op) : Prop :=
  match op with
  | OpCreateJob req => quiet_request req
  | OpCreateJobsBatch reqs => Forall quiet_request reqs
  | _ => True
  end.
Lemma quiet_op_ok op : quiet_op op → op_ok op.
Proof.
  destruct op; try done; simpl; [by intros [??]|]. intros HF. eapply Forall_impl; [exact HF|]. by intros ? [??].
Qed.
(** The operations open to workers. *)
Definition worker_op (op : store_op) : Prop :=
  match op with
  | OpRegisterWorker _ | OpHeartbeat _ | OpMarkWorkerOffline _ | OpPutBenchmark _ | OpNextJobForWorker _
  | OpUpdateJobProgress _ _ | OpCompleteJob _ _ => True
  | OpUpdateCDIPStageState _ next _ => next = StageReady ∨ next = StageFailed
  | _ => False
  end.
(** The operations of the coordinator. *)
Definition coordinator_op (op : store_op) : Prop :=
  match op with OpUpdateCDIPStageState _ _ _ | OpCompleteCoordinatorJob _ _ _ => True | _ => False end.
Definition health_op (op : store_op) : Prop :=
  match op with OpNodes | OpPutRPCHealth _ => True | _ => False end.

Section runs.
Context `{Codecs}.

Lemma run_op (P : store_op → Prop) (W : World) s op s' : s' = exec s op → P op → store_run P s s'.
Proof. intros ->. by apply store_run_once. Qed.

Lemma run_op_in (P : store_op → Prop) s op s' :
(∃ W : World, s' = exec s op) → P op → store_run P s s'.
Proof. intros [W ->]. by apply store_run_once. Qed.

(** *** The coordinator *)

Section coordinator.
Context {T} `{!ActivationTransport T} `{!Json DistributedStageJobInput}.
Implicit Types s : State.

Lemma update_stages_run (W : World) t s stages next detail :
  store_run coordinator_op s (update_stages t s stages next detail).1.
Proof.
  revert s. induction stages as [|j stages IH]; intros s; cbn [update_stages]; [apply rtc_refl|].
  pose proof (run_op coordinator_op (sub_world (t ++ [job_ID j])) s
(OpUpdateCDIPStageState (job_ID j) next detail) _ eq_refl I) as Hop.
  cbn in Hop. cbn [store_UpdateCDIPStageState State_store].
  destruct (UpdateCDIPStageState _ _ _ _) as [s' [j'|]]; simpl in *; [|done].
  etrans; [exact Hop|apply IH].
Qed.

Ltac by_update := match goal with |- context [update_stages ?t ?s ?l ?n ?d] =>
  pose proof (update_stages_run _ t s l n d) as Hup;
  destruct (update_stages t s l n d) as [? [?|]]; simpl in Hup |- * end.

Lemma prepare_run (W : World) s p : store_run coordinator_op s (prepareCDIPDistributedJob s p).1.
Proof.
  unfold prepareCDIPDistributedJob. destruct (_ ≫= _) as [[[parent stages] messages]|e]; [|apply rtc_refl].
  by by_update.
Qed.
Lemma prefill_run (W : World) s p : store_run coordinator_op s (startCDIPPrefill s p).1.
Proof.
  unfold startCDIPPrefill. destruct (phase_messages _ _ _ _ _) as [[[parent stages] messages]|e]; [|apply rtc_refl].
  by by_update.
Qed.
Lemma decode_run (W : World) s (bus : T) p step : store_run coordinator_op s (startCDIPDecode s bus p step).1.1.
Proof.
  unfold startCDIPDecode. cbv zeta.
  destruct (phase_messages _ _ _ _ _) as [[[parent stages] messages]|e]; [|apply rtc_refl].
  destruct (relay_loop _ _ _ _ _) as [bus' [[frames|e]| |]]; try apply rtc_refl. by by_update.
Qed.
Lemma complete_run (W : World) s p output :
  store_run coordinator_op s (completeCDIPDistributedJob s p output).1.
Proof.
  unfold completeCDIPDistributedJob.
  destruct (phase_messages _ _ _ _ _) as [[[parent stages] messages]|e]; [|apply rtc_refl].
  by_update; [done|]. destruct (Marshal_map _) as [body|]; [|done].
  pose proof (run_op coordinator_op (sub_world ["parent"]) s0
(OpCompleteCoordinatorJob (job_ID parent) body "") _ eq_refl I) as Hop. cbn in Hop.
  cbn [store_CompleteCoordinatorJob State_store].
  destruct (CompleteCoordinatorJob _ _ _ _) as [s' [j'|]]; simpl in *; by etrans.
Qed.

Lemma mock_prepare_run (W : World) s stages : store_run coordinator_op s (mock_prepare s stages).1.
Proof.
  revert s. induction stages as [|j stages IH]; intros s; cbn [mock_prepare]; [apply rtc_refl|].
  cbn [store_UpdateCDIPStageState State_store].
  pose proof (run_op coordinator_op (sub_world ["mock-prepare"; job_ID j]) s
(OpUpdateCDIPStageState (job_ID j) StagePreparing "mock coordinator preparing stage") _ eq_refl I) as H1.
  cbn in H1. destruct (UpdateCDIPStageState _ _ _ _) as [s1 [j1|]]; simpl in *; [|done].
  pose proof (run_op coordinator_op (sub_world ["mock-ready"; job_ID j]) s1
(OpUpdateCDIPStageState (job_ID j) StageReady "mock coordinator stage ready") _ eq_refl I) as H2.
  cbn in H2. destruct (UpdateCDIPStageState _ _ _ _) as [s2 [j2|]]; simpl in *; [|by etrans].
  etrans; [exact H1|]. etrans; [exact H2|apply IH].
Qed.
Lemma mock_phases_run (W : World) s stages phases : store_run coordinator_op s (mock_phases s stages phases).1.
Proof.
  revert s. induction phases as [|[[next detail] what] phases IH]; intros s; cbn [mock_phases]; [apply rtc_refl|].
  by_update; [done|]. etrans; [done|apply IH].
Qed.
Lemma mock_run (W : World) s p : store_run coordinator_op s (runCDIPMockCoordinator s p).1.
Proof.
  unfold runCDIPMockCoordinator. destruct (open_job s p) as [[parent stages]|e]; [|apply rtc_refl].
  pose proof (mock_prepare_run W s stages) as H1.
  destruct (mock_prepare s stages) as [s1 [e|]]; cbn [fst] in *; [done|].
  match goal with |- context [mock_phases s1 stages ?l] => pose proof (mock_phases_run W s1 stages l) as H2;
destruct (mock_phases s1 stages l) as [s2 [e|]]; cbn [fst] in * end; [etrans; [exact H1|exact H2]|].
  pose proof (run_op coordinator_op (sub_world ["parent"]) s2
(OpCompleteCoordinatorJob (job_ID parent) "CDIP mock distributed inference completed" "") _ eq_refl I) as H3.
  cbn in H3. cbn [store_CompleteCoordinatorJob State_store].
  destruct (CompleteCoordinatorJob _ _ _ _) as [s' [j'|]]; cbn [fst] in *;
(etrans; [exact H1|]); (etrans; [exact H2|exact H3]).
Qed.

Lemma advance_run (W : World) s (bus : T) p step output :
  store_run coordinator_op s (advanceCDIPDistributedJob s bus p step output).1.1.
Proof.
  unfold advanceCDIPDistributedJob. destruct (open_job s p) as [[parent stages]|e]; [|apply rtc_refl].
  repeat case_match; simplify_eq/=; try apply rtc_refl;
match goal with
| E : prepareCDIPDistributedJob _ _ = (?s', _) |- _ =>
    replace s' with (prepareCDIPDistributedJob (H := sub_world ["step"]) s (job_ID parent)).1 by (by rewrite E);
    apply prepare_run
| E : startCDIPPrefill _ _ = (?s', _) |- _ =>
    replace s' with (startCDIPPrefill (H := sub_world ["step"]) s (job_ID parent)).1 by (by rewrite E);
    apply prefill_run
| E : startCDIPDecode _ _ _ _ = (?s', _, _) |- _ =>
    replace s' with (startCDIPDecode (H := sub_world ["step"]) s bus (job_ID parent) step).1.1 by (by rewrite E);
    apply decode_run
| E : completeCDIPDistributedJob _ _ _ = (?s', _) |- _ =>
    replace s' with (completeCDIPDistributedJob (H := sub_world ["step"]) s (job_ID parent) output).1
      by (by rewrite E);
    apply complete_run
end.
Qed.
Lemma advance_loop_run (W : World) jobs s (bus : T) : store_run coordinator_op s (advance_loop s bus jobs).1.1.
Proof.
  revert s bus. induction jobs as [|j jobs IH]; intros s bus; cbn [advance_loop]; [apply rtc_refl|].
  case_match; [apply IH|]. case_match; [apply IH|].
  pose proof (advance_run (sub_world ["advance"; job_ID j]) s bus (job_ID j) 0 "") as Hr.
  destruct (advanceCDIPDistributedJob _ _ _ _ _) as [[s' bus'] [out| |]]; simpl in *; [|done..].
  etrans; [exact Hr|apply IH].
Qed.
End coordinator.

(** *** Health checks and plans *)

Lemma Nodes_run (W : World) s : store_run health_op s (Nodes s).1.
Proof. by apply (run_op health_op W s OpNodes). Qed.
Lemma put_health_run (W : World) s (us : list RPCHealthUpdate) :
store_run health_op s (foldl (λ s u, (PutRPCHealth s u).1) s us).
Proof.
revert s. induction us as [|u us IH]; intros s; simpl; [apply rtc_refl|].
etrans; [by apply (run_op health_op W s (OpPutRPCHealth u))|apply IH].
Qed.
Lemma record_run (W : World) s workers report : store_run health_op s (recordRPCHealthReport s workers report).
Proof.
unfold recordRPCHealthReport. cbv zeta.
pose proof (put_health_run (sub_world ["record"]) s
  (health_update (rpcWorkersByEndpoint workers) (w_clock ["record"]) <$> rep_Results report)) as Hr.
by rewrite foldl_fmap in Hr.
Qed.
Lemma refresh_run (W : World) `{Dialer} s timeout : store_run health_op s (refreshRuntimeRPCHealth s timeout).1.
Proof.
unfold refreshRuntimeRPCHealth. cbv zeta. pose proof (Nodes_run (sub_world ["nodes"]) s) as Hn.
destruct (Nodes _) as [s1 nodes]. destruct (runtimeRPCPoolReport _) as [[? workers] endpoints]. simpl in *.
etrans; [exact Hn|apply record_run].
Qed.

Lemma plan_run (W : World) `{!Json ModelIDPayload} `{Dialer} s model nodeID check timeout :
store_run health_op s (modelDistributedRPCPlan s model nodeID check timeout).1.
Proof.
unfold modelDistributedRPCPlan. pose proof (Nodes_run (sub_world ["nodes"]) s) as H1.
destruct (Nodes s) as [s1 nodes]. destruct (runtimeRPCPoolReport nodes) as [[summary workers] endpoints].
cbv zeta. cbn [fst] in H1.
match goal with |- context [if ?b then _ else (s1, None)] => set (checked := b) end.
assert (store_run health_op s
  (if checked then let '(s, c) := check_endpoints s1 workers endpoints (RPCHealth (H := sub_world ["health"]) s1) timeout
                   in (s, Some c) else (s1, None)).1) as H2.
{ destruct checked; [|exact H1]. etrans; [exact H1|]. apply record_run. }
destruct (if checked then _ else _) as [s2 c]. cbn [fst] in H2.
pose proof (Nodes_run (sub_world ["nodes"; "again"]) s2) as H3.
destruct (Nodes s2) as [s3 nodes']. cbn [fst] in H3.
assert (store_run health_op s s3) as H4 by (etrans; [exact H2|exact H3]).
destruct (modelSummaries _ _ _) as [|m ?]; [exact H4|].
by destruct (scheduleDistributedRPCEndpoints _ _ _ _ _).
Qed.
End runs.

(** *** The actions of handlers *)

(** One store call as one operation. *)
Ltac as_op op := apply (run_op_in _ _ op); [notypeclasses refine (ex_intro _ _ eq_refl)|try exact I].
Ltac run_one :=
  cbn beta;
  lazymatch goal with
  | |- store_run _ ?s ?s => apply rtc_refl
  | |- store_run _ ?s (?s, _).1 => apply rtc_refl
  | |- store_run _ _ (Nodes _).1 => as_op OpNodes
  | |- store_run _ _ (RegisterWorker _ ?x).1 => as_op (OpRegisterWorker x)
  | |- store_run _ _ (HeartbeatOp _ ?x).1 => as_op (OpHeartbeat x)
  | |- store_run _ _ (MarkWorkerOffline _ ?x).1 => as_op (OpMarkWorkerOffline x)
  | |- store_run _ _ (PutBenchmark _ ?x).1 => as_op (OpPutBenchmark x)
  | |- store_run _ _ (CreateJob _ ?x).1 => as_op (OpCreateJob x)
  | |- store_run _ _ (CreateJobsBatch _ ?x).1 => as_op (OpCreateJobsBatch x)
  | |- store_run _ _ (NextJobForWorker _ ?x).1 => as_op (OpNextJobForWorker x)
  | |- store_run _ _ (UpdateJobProgress _ ?x ?y).1 => as_op (OpUpdateJobProgress x y)
  | |- store_run _ _ (UpdateCDIPStageState _ ?x ?y ?z).1 => as_op (OpUpdateCDIPStageState x y z)
  | |- store_run _ _ (CancelJob _ ?x).1 => as_op (OpCancelJob x)
  | |- store_run _ _ (AppendConversationMessage _ ?a ?b ?c ?d ?e).1 => as_op (OpAppendConversationMessage a b c d e)
  | |- store_run _ _ (DeleteConversation _ ?x).1 => as_op (OpDeleteConversation x)
  | |- store_run _ _ (DeleteMemory _ ?x).1 => as_op (OpDeleteMemory x)
  | |- store_run _ _ (UpsertMemory _ ?x).1 => as_op (OpUpsertMemory x)
  | |- store_run _ _ (DeleteMemoriesByModel _ ?x).1 => as_op (OpDeleteMemoriesByModel x)
  end.

Section actions.
Context `{W : World} `{ServerCodecs} `{Dialer} `{ErrorTexts}.
Implicit Types P : store_op → Prop.

Lemma does_decoded {A B} `{!JsonBody A} P r (k : A → prog B) :
(∀ req ok, Decode (rq_Body r) = (req, ok) → does P (k req)) → does P (decoded r k).
Proof. intros Hk. unfold decoded. destruct (Decode _) as [req ok] eqn:E. apply does_guard. by eapply Hk. Qed.

Lemma ClusterSummary_run (W' : World) s : store_run health_op s (ClusterSummaryOp s).1.
Proof.
unfold ClusterSummaryOp. pose proof (Nodes_run W' s) as Hn. by destruct (Nodes s).
Qed.

(** Listing nodes, checking health and planning. *)
Lemma does_health {A} P t (f : World → State → State * A) :
(∀ op, health_op op → P op) → (∀ W s, store_run health_op s (f W s).1) → does P (store t f).
Proof. intros HP Hf. apply does_store. intros s. eapply store_run_mono; [exact HP|apply Hf]. Qed.

Lemma does_complete P jobID req : P (OpCompleteJob jobID req) → does P (call_CompleteJob jobID req).
Proof.
intros HP. unfold call_CompleteJob. cbn [does]. split; [|done]. intros srv.
pose proof (run_op P (sub_world ["complete"]) (srv_state srv) (OpCompleteJob jobID req) _ eq_refl HP) as Hr.
cbn in Hr. by destruct (CompleteJob _ _ _) as [s [job|e]].
Qed.

Lemma does_bus {A} P (f : MemoryActivationTransport → MemoryActivationTransport * outcome A) : does P (on_bus f).
Proof. cbn [does on_bus]. split; [|done]. intros srv. destruct (f _) as [bus out]. by split; [apply rtc_refl|]. Qed.

Lemma does_coordinate {A} P t (f : World → State → MemoryActivationTransport →
  State * MemoryActivationTransport * outcome (result coord_error A)) :
(∀ op, coordinator_op op → P op) → (∀ W s bus, store_run coordinator_op s (f W s bus).1.1) →
does P (coordinate t f).
Proof.
intros HP Hf. cbn [does coordinate]. split; [|done]. intros srv. specialize (Hf (sub_world t) (srv_state srv) (srv_bus srv)).
destruct (f _ _ _) as [[s bus] out]. split; [|done]. by eapply store_run_mono.
Qed.

Lemma does_no_bus {A} (f : World → State → State * result coord_error A) W' s bus :
store_run coordinator_op s (f W' s).1 → store_run coordinator_op s (no_bus f W' s bus).1.1.
Proof. unfold no_bus. by destruct (f W' s). Qed.
End actions.

Ltac does_step :=
  cbv zeta;
  lazymatch goal with
  | |- does _ (Ret _) => exact I
  | |- does _ (Stop _) => exact I
  | |- does _ (operator _ _ _) => apply does_operator
  | |- does _ (guard _ _ _) => apply does_guard
  | |- does _ (decoded _ _) => apply does_decoded; intros
  | |- does _ (prog_bind _ _) => apply does_bind; [|intros ?]
  | |- does _ (look _) => apply does_look
  | |- does _ (on_bus _) => apply does_bus
  | |- does _ (call_Job _) => apply does_look
  | |- does _ (capacitySnapshotByID _) => apply does_look
  | |- does _ capacitySnapshots => apply does_look
  | |- does _ (call_Nodes _) => unfold call_Nodes; apply does_store; intros; run_one
  | |- does _ (call_Jobs _) => unfold call_Jobs; apply does_store; intros; run_one
  | |- does _ (call_RPCHealth _) => unfold call_RPCHealth; apply does_store; intros; run_one
  | |- does _ (call_CreateJob _ _) => unfold call_CreateJob; apply does_store; intros; run_one
  | |- does _ (call_UpdateCDIPStageState _ _ _ _) => unfold call_UpdateCDIPStageState; apply does_store; intros; run_one
  | |- does _ (call_ClusterSummary _) => unfold call_ClusterSummary; apply does_health; [by intros []|intros; apply ClusterSummary_run]
  | |- does _ (call_refresh _ _) => unfold call_refresh; apply does_health; [by intros []|intros; apply refresh_run]
  | |- does _ (call_RPCPlan _ _ _ _ _) => unfold call_RPCPlan; apply does_health; [by intros []|intros; apply plan_run]
  | |- does _ (call_CompleteJob _ _) => apply does_complete
  | |- does _ (coordinate _ _) => apply does_coordinate; [by intros []|intros; try apply does_no_bus]
  | |- does _ (store _ _) => apply does_store; intros; run_one
  | |- does _ (match distributedStageJobRequests ?a ?b with _ => _ end) =>
      destruct (distributedStageJobRequests a b) eqn:?
  | |- does _ (match ?x with _ => _ end) => destruct x
  end.
Ltac solve_does := repeat does_step; try done.

Section handlers_do.
Context `{W : World} `{ServerCodecs} `{Dialer} `{ErrorTexts}.

(** *** What each handler does *)

Lemma handleDashboard_does r : does quiet_op (handleDashboard r).
Proof. unfold handleDashboard. solve_does. Qed.
Lemma handleInvite_does r : does quiet_op (handleInvite r).
Proof. unfold handleInvite. solve_does. Qed.
Lemma handleCluster_does r : does quiet_op (handleCluster r).
Proof. unfold handleCluster. solve_does. Qed.
Lemma capacitySnapshot_does label : does quiet_op (capacitySnapshot label).
Proof. unfold capacitySnapshot. solve_does. Qed.
Lemma with_baseline_does a b c : does quiet_op (with_baseline a b c).
Proof. unfold with_baseline. solve_does. Qed.
Lemma handleCapacity_does r : does quiet_op (handleCapacity r).
Proof.
unfold handleCapacity. solve_does; [apply capacitySnapshot_does|apply with_baseline_does].
Qed.
Lemma saveCapacitySnapshot_does label : does quiet_op (saveCapacitySnapshot label).
Proof.
unfold saveCapacitySnapshot. apply does_bind; [apply capacitySnapshot_does|]. intros s. cbn [does].
split; [|done]. intros srv. by split; [apply rtc_refl|].
Qed.
Lemma handleCapacitySnapshots_does r : does quiet_op (handleCapacitySnapshots r).
Proof.
unfold handleCapacitySnapshots. solve_does; [apply saveCapacitySnapshot_does|apply with_baseline_does].
Qed.
Lemma handleDashboardStatus_does r : does quiet_op (handleDashboardStatus r).
Proof. unfold handleDashboardStatus. solve_does. Qed.
Lemma handleRuntimeStageProbes_does r : does quiet_op (handleRuntimeStageProbes r).
Proof. unfold handleRuntimeStageProbes. solve_does. Qed.
Lemma handleRuntimeRPCPool_does r : does quiet_op (handleRuntimeRPCPool r).
Proof. unfold handleRuntimeRPCPool. solve_does. Qed.
Lemma handleRuntimeRPCPoolRefresh_does r : does quiet_op (handleRuntimeRPCPoolRefresh r).
Proof. unfold handleRuntimeRPCPoolRefresh. solve_does. Qed.
Lemma handleRuntimeRPCPoolSmoke_does r : does quiet_op (handleRuntimeRPCPoolSmoke r).
Proof. unfold handleRuntimeRPCPoolSmoke. solve_does. Qed.
Lemma handleNodes_does r : does quiet_op (handleNodes r).
Proof. unfold handleNodes. solve_does. Qed.
Lemma handleBenchmarks_does r : does quiet_op (handleBenchmarks r).
Proof. unfold handleBenchmarks. solve_does. Qed.
Lemma create_matrix_jobs_does a b c l : does quiet_op (create_matrix_jobs a b c l).
Proof. induction l as [|n l IH]; cbn [create_matrix_jobs]; solve_does. Qed.
Lemma handleClusterBenchmarks_does r : does quiet_op (handleClusterBenchmarks r).
Proof. unfold handleClusterBenchmarks. solve_does. apply create_matrix_jobs_does. Qed.
Lemma handleJobs_does r : does op_ok (handleJobs r).
Proof. unfold handleJobs. solve_does. by eapply Decode_int. Qed.
Lemma handleDistributedRuns_does r : does quiet_op (handleDistributedRuns r).
Proof. unfold handleDistributedRuns. solve_does. Qed.
(** *** Requests open to workers *)

Lemma stage_complete_does req id : does worker_op (handleCDIPStageComplete req id).
Proof. unfold handleCDIPStageComplete. solve_does; simpl; auto. Qed.
Lemma handleJobComplete_does r id : does worker_op (handleJobComplete r id).
Proof. unfold handleJobComplete. solve_does. apply stage_complete_does. Qed.
Lemma handleJobProgress_does r id : does worker_op (handleJobProgress r id).
Proof. unfold handleJobProgress. solve_does. Qed.
Lemma validate_stream_does P a b : does P (validateCDIPActivationStream a b).
Proof. unfold validateCDIPActivationStream. solve_does. Qed.
Lemma post_frame_does P r a b : does P (post_frame r a b).
Proof. unfold post_frame. destruct (Decode _). solve_does. Qed.
Lemma get_frame_does P r a : does P (get_frame r a).
Proof. unfold get_frame. solve_does. Qed.
Lemma handleCDIPActivation_does P r : does P (handleCDIPActivation r).
Proof.
unfold handleCDIPActivation. solve_does;
  [apply validate_stream_does|apply post_frame_does|apply get_frame_does].
Qed.
Lemma handleWorkerNextJob_does r id : does worker_op (handleWorkerNextJob r id).
Proof. unfold handleWorkerNextJob. solve_does. Qed.
Lemma handleWorkerJoin_does r : does worker_op (handleWorkerJoin r).
Proof. unfold handleWorkerJoin. solve_does. Qed.
Lemma handleWorkerHeartbeat_does r : does worker_op (handleWorkerHeartbeat r).
Proof. unfold handleWorkerHeartbeat. solve_does. Qed.
Lemma handleWorkerLeave_does r : does worker_op (handleWorkerLeave r).
Proof. unfold handleWorkerLeave. solve_does. Qed.

(** *** Jobs, stages, workers *)

Lemma worker_op_quiet op : worker_op op → quiet_op op.
Proof. by destruct op. Qed.
Lemma worker_does {A} (p : prog A) : does worker_op p → does quiet_op p.
Proof. apply does_mono, worker_op_quiet. Qed.
Lemma quiet_does {A} (p : prog A) : does quiet_op p → does op_ok p.
Proof. apply does_mono, quiet_op_ok. Qed.

Lemma handleJobCancel_does r id : does quiet_op (handleJobCancel r id).
Proof. unfold handleJobCancel. solve_does. Qed.
Lemma handleJob_does r : does quiet_op (handleJob r).
Proof.
unfold handleJob. solve_does;
  first [apply worker_does; first [apply handleJobComplete_does|apply handleJobProgress_does]
        |apply handleJobCancel_does].
Qed.
Lemma handleCDIPStage_does r : does quiet_op (handleCDIPStage r).
Proof. unfold handleCDIPStage. solve_does. Qed.
Lemma coordinated_does {A} P (body : A → Body) p : does P p → does P (coordinated body p).
Proof. intros. unfold coordinated. solve_does. Qed.
Lemma handleCDIPJob_does r : does quiet_op (handleCDIPJob r).
Proof.
unfold handleCDIPJob. solve_does; apply coordinated_does; solve_does;
  first [apply advance_run|apply prepare_run|apply prefill_run|apply decode_run|apply complete_run|apply mock_run].
Qed.
Lemma handleWorkerModelCleanup_does r id : does quiet_op (handleWorkerModelCleanup r id).
Proof. unfold handleWorkerModelCleanup. solve_does. Qed.
Lemma handleWorkerRoutes_does r : does quiet_op (handleWorkerRoutes r).
Proof.
unfold handleWorkerRoutes. solve_does;
  first [apply worker_does, handleWorkerNextJob_does|apply handleWorkerModelCleanup_does].
Qed.

(** *** Models, conversations, memories *)

Lemma summary_of_does P t m : (∀ op, health_op op → P op) → does P (summary_of t m).
Proof. intros HP. unfold summary_of. solve_does. by apply HP. Qed.
Lemma idle_does {A} P t id (k : prog A) : does P k → does P (idle_conversation t id k).
Proof. intros. unfold idle_conversation. solve_does. Qed.
Lemma open_turn_does P t m a b c d n :
(∀ op, quiet_op op → P op) → does P (open_turn t m a b c d n).
Proof. intros HP. unfold open_turn. solve_does. by apply HP. Qed.
Lemma readiness_run (W' : World) s model nodeID :
store_run health_op s (modelDistributedRPCReadiness (H := W') s model nodeID).1.
Proof.
unfold modelDistributedRPCReadiness. pose proof (plan_run W' s model nodeID false 0) as Hp.
by destruct (modelDistributedRPCPlan _ _ _ _ _).
Qed.

Ltac model_step :=
lazymatch goal with
| |- does _ (summary_of _ _) => apply summary_of_does; by intros []
| |- does _ (open_turn _ _ _ _ _ _ _) => apply open_turn_does; first [done|apply quiet_op_ok]
| |- does _ (idle_conversation _ _ _) => apply idle_does
| _ => does_step
end.
Ltac model_does := repeat model_step; try done.

Lemma handleModels_does r : does quiet_op (handleModels r).
Proof. unfold handleModels. solve_does. Qed.
Lemma handleModelDetail_does r m : does quiet_op (handleModelDetail r m).
Proof. unfold handleModelDetail. model_does. Qed.
Lemma handleModelPlacement_does r m : does quiet_op (handleModelPlacement r m).
Proof. unfold handleModelPlacement. model_does. Qed.
Lemma handleModelDistributedPlan_does r m : does quiet_op (handleModelDistributedPlan r m).
Proof. unfold handleModelDistributedPlan. model_does. Qed.
Lemma handleModelDistributedRPCPlan_does r m : does quiet_op (handleModelDistributedRPCPlan r m).
Proof. unfold handleModelDistributedRPCPlan. model_does. Qed.
Lemma handleModelDistributedRPCReadiness_does r m : does quiet_op (handleModelDistributedRPCReadiness r m).
Proof.
unfold handleModelDistributedRPCReadiness. apply does_guard, does_bind; [|by intros].
apply does_health; [by intros []|]. intros. apply readiness_run.
Qed.
Lemma handleModelInstall_does r m : does quiet_op (handleModelInstall r m).
Proof. unfold handleModelInstall. model_does. Qed.
Lemma on_installed_does t r m k : (∀ id, does quiet_op (k id)) → does quiet_op (on_installed t r m k).
Proof. intros. unfold on_installed. model_does. Qed.
Lemma handleModelDelete_does r m : does quiet_op (handleModelDelete r m).
Proof. apply on_installed_does. intros. model_does. Qed.
Lemma handleModelRepair_does r m : does quiet_op (handleModelRepair r m).
Proof. apply on_installed_does. intros. model_does. Qed.

Lemma handleModelGenerate_does r m : does op_ok (handleModelGenerate r m).
Proof. unfold handleModelGenerate. model_does. Qed.
Lemma handleModelDistributedRPCGenerate_does r m : does op_ok (handleModelDistributedRPCGenerate r m).
Proof. unfold handleModelDistributedRPCGenerate. model_does. Qed.
Lemma stage_requests_ok parent input reqs :
distributedStageJobRequests parent input = Ok reqs → Forall quiet_request reqs.
Proof.
intros E. pose proof (distributedStageJobRequests_spec parent input) as Hs. rewrite E in Hs.
destruct Hs as ((_ & _ & _ & Hsh & _) & Hlen & Hr). apply Forall_lookup. intros k req Hk.
destruct (lookup_lt_is_Some_2 (dgi_Stages input) k) as [st Hst]; [rewrite <- Hlen; by eapply lookup_lt_Some|].
destruct (lookup_lt_is_Some_2 (dgi_Shards input) k) as [sh Hsd]; [rewrite Hsh; by eapply lookup_lt_Some|].
rewrite (Hr k st sh Hst Hsd) in Hk. by injection Hk as <-.
Qed.
Lemma handleModelDistributedGenerate_does r m : does op_ok (handleModelDistributedGenerate r m).
Proof.
unfold handleModelDistributedGenerate. model_does.
apply (quiet_op_ok (OpCreateJobsBatch _)). by eapply stage_requests_ok.
Qed.
Lemma handleModel_does r : does op_ok (handleModel r).
Proof.
unfold handleModel. model_does;
  lazymatch goal with
  | |- does _ (handleModelDistributedPlan _ _) => apply quiet_does, handleModelDistributedPlan_does
  | |- does _ (handleModelDistributedRPCPlan _ _) => apply quiet_does, handleModelDistributedRPCPlan_does
  | |- does _ (handleModelDistributedRPCReadiness _ _) => apply quiet_does, handleModelDistributedRPCReadiness_does
  | |- does _ (handleModelDistributedRPCGenerate _ _) => apply handleModelDistributedRPCGenerate_does
  | |- does _ (handleModelDistributedGenerate _ _) => apply handleModelDistributedGenerate_does
  | |- does _ (handleModelDetail _ _) => apply quiet_does, handleModelDetail_does
  | |- does _ (handleModelPlacement _ _) => apply quiet_does, handleModelPlacement_does
  | |- does _ (handleModelInstall _ _) => apply quiet_does, handleModelInstall_does
  | |- does _ (handleModelDelete _ _) => apply quiet_does, handleModelDelete_does
  | |- does _ (handleModelRepair _ _) => apply quiet_does, handleModelRepair_does
  | |- does _ (handleModelGenerate _ _) => apply handleModelGenerate_does
  end.
Qed.

Lemma handleConversations_does r : does quiet_op (handleConversations r).
Proof. unfold handleConversations. solve_does. Qed.
Lemma handleConversation_does r : does quiet_op (handleConversation r).
Proof. unfold handleConversation. solve_does. Qed.
Lemma save_decoded_does r id n : does quiet_op (save_decoded r id n).
Proof. unfold save_decoded, saveMemory. solve_does. Qed.
Lemma handleMemories_does r : does quiet_op (handleMemories r).
Proof. unfold handleMemories. solve_does; apply save_decoded_does. Qed.
Lemma handleMemoryPreview_does r : does quiet_op (handleMemoryPreview r).
Proof. unfold handleMemoryPreview. solve_does. Qed.
Lemma handleMemory_does r : does quiet_op (handleMemory r).
Proof. unfold handleMemory. solve_does; [apply handleMemoryPreview_does|apply save_decoded_does]. Qed.

(** *** The server *)

Lemma routes_do :
Forall (λ x, (∀ r, does quiet_op (x.2 r)) ∨ x = ("/v1/models/"%string, handleModel)
           ∨ x = ("/v1/jobs"%string, handleJobs)) routes.
Proof.
unfold routes. repeat apply Forall_cons_2; [..|by apply Forall_nil_2];
  [left; exact handleDashboard_does|left; exact handleInvite_does|left; intros; exact I|left; exact handleCluster_does
   |left; exact handleCapacitySnapshots_does|left; exact handleCapacity_does|left; exact handleDashboardStatus_does
   |left; exact handleDistributedRuns_does|left; exact handleRuntimeStageProbes_does|left; exact handleRuntimeRPCPool_does
   |left; exact handleRuntimeRPCPoolRefresh_does|left; exact handleRuntimeRPCPoolSmoke_does|left; exact handleNodes_does
   |left; exact handleBenchmarks_does|left; exact handleClusterBenchmarks_does|left; exact handleModels_does
   |right; by left|left; exact handleConversations_does|left; exact handleConversation_does
   |left; exact handleMemories_does|left; exact handleMemory_does|right; by right|left; exact handleJob_does
   |left; exact (handleCDIPActivation_does _)|left; exact handleCDIPJob_does|left; exact handleCDIPStage_does
   |left; exact handleWorkerRoutes_does|left; intros r; apply worker_does, handleWorkerJoin_does
   |left; intros r; apply worker_does, handleWorkerHeartbeat_does|left; intros r; apply worker_does, handleWorkerLeave_does].
Qed.

Lemma exact_route_elem path x : exact_route path = Some x → x ∈ routes ∧ x.1 = path.
Proof.
intros [Hin Hx]%find_some. split; [by apply list_elem_of_In|by case_bool_decide].
Qed.
Lemma longest_elem (R : list (string * (Request → prog Response))) best l :
best ∈ R → l ⊆ R → foldl longer_route best l ∈ R.
Proof.
revert best. induction l as [|x l IH]; intros best Hb Hl; [done|]. simpl. apply IH; [|by intros y ?; apply Hl; right].
unfold longer_route. destruct (_ <? _)%nat; [apply Hl; left|done].
Qed.
Lemma subtree_route_elem path : subtree_route path ∈ routes.
Proof.
apply longest_elem; [by left|]. intros x Hx. by apply list_elem_of_filter in Hx as [_ ?].
Qed.
(** A request is redirected or served by a handler of the table. *)
Lemma ServeHTTP_cases r :
ServeHTTP r = Stop (reply 301 BodyEmpty) ∨ ∃ x, x ∈ routes ∧ ServeHTTP r = x.2 r.
Proof.
unfold ServeHTTP. destruct (exact_route (rq_Path r)) as [[p h]|] eqn:E.
- right. exists (p, h). split; [by apply exact_route_elem in E as [? _]|done].
- destruct (exact_route (rq_Path r +:+ "/")); [by left|]. right. eexists. split; [apply subtree_route_elem|done].
Qed.
Lemma ServeHTTP_does r : does op_ok (ServeHTTP r).
Proof.
destruct (ServeHTTP_cases r) as [->|(x & Hx & ->)]; [done|].
pose proof routes_do as Hr. rewrite Forall_forall in Hr.
destruct (Hr x Hx) as [Hq|[->| ->]]; [apply quiet_does, Hq|apply handleModel_does|apply handleJobs_does].
Qed.
Lemma cdip_tick_does : does quiet_op cdip_tick.
Proof.
cbn [does cdip_tick]. split; [|done]. intros srv. unfold advanceActiveCDIPJobs.
match goal with |- context [advance_loop ?s ?b ?l] => pose proof (advance_loop_run (sub_world ["tick"]) l s b) as Hr;
  destruct (advance_loop s b l) as [[s' bus] out] end.
split; [|done]. eapply store_run_mono; [|exact Hr]. by intros [].
Qed.
Lemma rpc_tick_does timeout : does quiet_op (rpc_tick timeout).
Proof. unfold rpc_tick. solve_does. Qed.

(** *** What is left to those without the operator token *)

Section outsiders.
Context (I : Server → Prop) (r : Request).
Hypothesis outside : ∀ srv, I srv → hasOperatorAuth srv r = false.

Ltac solve_acts :=
  repeat (cbv zeta; lazymatch goal with
| |- acts _ _ (operator _ _ _) => by apply acts_operator
| |- acts _ _ (guard _ _ _) => apply acts_guard
| |- acts _ _ (Stop _) => exact Logic.I
| |- acts _ _ (match ?x with _ => _ end) => destruct x
end).

Lemma handleBenchmarks_acts : acts I worker_op (handleBenchmarks r).
Proof. unfold handleBenchmarks. solve_acts. apply does_acts. solve_does. Qed.
Lemma handleJob_acts : acts I worker_op (handleJob r).
Proof.
  unfold handleJob, handleJobCancel. solve_acts;
apply does_acts; [apply handleJobComplete_does|apply handleJobProgress_does].
Qed.
Lemma handleWorkerRoutes_acts : acts I worker_op (handleWorkerRoutes r).
Proof.
  unfold handleWorkerRoutes, handleWorkerModelCleanup. solve_acts. apply does_acts, handleWorkerNextJob_does.
Qed.

Lemma routes_act : Forall (λ x, acts I worker_op (x.2 r)) routes.
Proof.
  unfold routes. repeat apply Forall_cons_2; [..|by apply Forall_nil_2]; cbn [snd];
lazymatch goal with
| |- acts _ _ (handleBenchmarks _) => apply handleBenchmarks_acts
| |- acts _ _ (handleJob _) => apply handleJob_acts
| |- acts _ _ (handleWorkerRoutes _) => apply handleWorkerRoutes_acts
| |- acts _ _ (handleCDIPActivation _) => apply does_acts, handleCDIPActivation_does
| |- acts _ _ (handleWorkerJoin _) => apply does_acts, handleWorkerJoin_does
| |- acts _ _ (handleWorkerHeartbeat _) => apply does_acts, handleWorkerHeartbeat_does
| |- acts _ _ (handleWorkerLeave _) => apply does_acts, handleWorkerLeave_does
| |- acts _ _ (handleHealth _) => exact Logic.I
| _ => cbv delta [handleDashboard handleInvite handleCluster handleCapacitySnapshots handleCapacity
    handleDashboardStatus handleDistributedRuns handleRuntimeStageProbes handleRuntimeRPCPool
    handleRuntimeRPCPoolRefresh handleRuntimeRPCPoolSmoke handleNodes handleClusterBenchmarks handleModels
    handleModel handleConversations handleConversation handleMemories handleMemory handleJobs
    handleCDIPJob handleCDIPStage] beta; solve_acts
end.
Qed.
Lemma ServeHTTP_acts : acts I worker_op (ServeHTTP r).
Proof.
  destruct (ServeHTTP_cases r) as [->|(x & Hx & ->)]; [exact Logic.I|].
  pose proof routes_act as Hr. rewrite Forall_forall in Hr. by apply Hr.
Qed.
End outsiders.
End handlers_do.

(** ** Properties *)

Section properties.
Context `{ServerCodecs} `{Dialer} `{ErrorTexts}.

(** Requests that present no operator credential to a server like [srv0]. *)
Definition outside_requests (srv0 : Server) (p : prog Response) : Prop :=
∃ (W : World) r, hasOperatorAuth srv0 r = false ∧ p = ServeHTTP r.

Lemma worker_run_jobs s s' :
store_run worker_op s s' → state_wf s →
state_wf s' ∧ (∀ id j, st_jobs s !! id = Some j → ∃ j', st_jobs s' !! id = Some j' ∧ rtc lifecycle j j') ∧
∀ id, is_Some (st_jobs s' !! id) → is_Some (st_jobs s !! id).
Proof.
induction 1 as [s|s1 s2 s3 (W & op & Hop & ->) _ IH]; intros Hwf; [by split_and!; eauto using rtc_refl|].
destruct (exec_step s1 op Hwf) as [Hwf2 Hj Hn _]; [by destruct op|].
assert (created_ids op = []) as Hc by (by destruct op). rewrite Hc in *.
destruct (IH Hwf2) as (? & Hj3 & Hn3). split_and!; [done|..].
- intros id j Hid. destruct (Hj id j Hid) as (j2 & Hid2 & Hr); [by apply not_elem_of_nil|].
  destruct (Hj3 id j2 Hid2) as (j3 & Hid3 & Hr3). exists j3. split; [done|by etrans].
- intros id Hs. destruct (Hn id (Hn3 id Hs)) as [|Hin]; [done|by apply not_elem_of_nil in Hin].
Qed.

(** C16 (safety). Requests without an operator credential, however many and
  however interleaved, only run the operations meant for workers (joining,
  heartbeats, leaving, benchmarks, taking, reporting on and finishing jobs, and
  a stage's own ready or failed report): they create and remove no job, and
  every job only moves along its life cycle. *)
Theorem outside_requests_act_as_workers (srv0 srv : Server) (pool : list (prog Response)) :
reachable (srv_state srv0) → rtc (pool_step (outside_requests srv0)) (srv0, []) (srv, pool) →
store_run worker_op (srv_state srv0) (srv_state srv) ∧
(∀ id j, st_jobs (srv_state srv0) !! id = Some j →
   ∃ j', st_jobs (srv_state srv) !! id = Some j' ∧ rtc lifecycle j j') ∧
(∀ id, is_Some (st_jobs (srv_state srv) !! id) → is_Some (st_jobs (srv_state srv0) !! id)).
Proof.
intros Hr Hpool.
destruct (pool_store_run (λ srv, srv_operatorToken srv = srv_operatorToken srv0) worker_op
  (outside_requests srv0) srv0 [] srv pool) as [Hrun _]; [by intros ? ? [_ ->] ?| |done..|].
- intros p (W & r & Hno & ->). apply ServeHTTP_acts. intros srv' Htok.
  unfold hasOperatorAuth in *. by rewrite Htok.
- split; [done|]. by apply worker_run_jobs; [|apply reachable_state_wf].
Qed.
End properties.

(** ** Worked examples *)

Section demo.
#[local] Instance server_codecs : ServerCodecs := plain_codecs (mkGenerateRequest "" "" "" "" 0 "").
#[local] Existing Instance silent_network.
#[local] Existing Instance no_texts.

(** A worker joins a server that has an operator token. *)
Definition guarded_server : Server := NewServerWithOptions (mkServerOptions "" "secret" "") (NewState 1).
Definition request_program (method path : string) : prog Response :=
@ServeHTTP (world_at 20) _ _ _ (demo_request_to method path).
Definition join_run : Server * list (prog Response) :=
run_schedule [0; 0]%nat guarded_server [request_program "POST" "/v1/workers/join"].
Example join_run_joins : size (st_nodes (srv_state join_run.1)) = 1%nat.
Proof. vm_compute. reflexivity. Qed.

Lemma join_run_steps arriving :
arriving (request_program "POST" "/v1/workers/join") → rtc (pool_step arriving) (guarded_server, []) join_run.
Proof. intros Ha. eapply rtc_l; [by apply (ps_arrive _ _ [])|]. apply run_schedule_steps. Qed.

Lemma outside_requests_act_as_workers_witness :
size (st_nodes (srv_state join_run.1)) = 1%nat ∧
store_run worker_op (srv_state guarded_server) (srv_state join_run.1).
Proof.
split; [vm_compute; reflexivity|].
apply (outside_requests_act_as_workers guarded_server join_run.1 join_run.2); [apply reachable_init|].
rewrite <- surjective_pairing. apply join_run_steps. exists (world_at 20). eexists. split; [|reflexivity].
vm_compute. reflexivity.
Defined.
End demo.

