(* ===== verification/Access.v ===== *)
(** * Who may do what

    [internal/manager/server.go]: what a request without the operator token can
    reach, who joins the cluster, and who reads and writes an activation
    stream. *)

From S2P Require Import Prelude GoString GoSort GoFloat World Json Cdip Types Protocol Models State.
From S2P Require Import Conversations Scheduling JobStore ModelView RpcPool DistributedPlan Views Capacity.
From S2P Require Import Transport Coordinator Http Handlers Demo ModelHandlers Server.

(** ** Requests without the operator token *)

Lemma HasPrefix_app s p : HasPrefix s p = true ↔ ∃ t, s = (p +:+ t).
Proof.
  unfold HasPrefix. split.
  - destruct (drop_prefix p s) as [t|] eqn:E; [|done]. intros _. exists t. by apply drop_prefix_Some.
  - intros [t Ht]. by apply drop_prefix_Some in Ht as ->.
Qed.
Lemma schedule_keeps_nodes `{World} s now : st_nodes (scheduleQueuedJobsLocked s now) = st_nodes s.
Proof.
  unfold scheduleQueuedJobsLocked. generalize (range_keys ["schedule"] (st_jobs s)) as ks. intros ks. revert s.
  induction ks as [|k ks IH]; intros s; simpl; [done|]. rewrite IH. unfold schedule_step. by repeat case_match.
Qed.

Section access.
Context `{W : World} `{ServerCodecs} `{Dialer} `{ErrorTexts}.

(** The handler of a request: its pattern starts the path. *)
Lemma ServeHTTP_prefix r :
ServeHTTP r = Stop (reply 301 BodyEmpty) ∨ ServeHTTP r = handleDashboard r ∨
∃ x, x ∈ routes ∧ HasPrefix (rq_Path r) x.1 = true ∧ (is_subtree x.1 = false → rq_Path r = x.1) ∧ ServeHTTP r = x.2 r.
Proof.
unfold ServeHTTP. destruct (exact_route (rq_Path r)) as [[p h]|] eqn:E.
{ apply exact_route_elem in E as [Hin Hp]. simpl in Hp. right; right. exists (p, h). split_and!; [done| |done..].
  apply HasPrefix_app. exists ""%string. by rewrite string_app_nil_r. }
destruct (exact_route (rq_Path r +:+ "/")); [by left|right].
set (R := ("/"%string, handleDashboard) :: filter (λ x, is_subtree x.1 && HasPrefix (rq_Path r) x.1 = true) routes).
assert (subtree_route (rq_Path r) ∈ R) as [Hx|Hx]%elem_of_cons.
{ apply longest_elem; [by left|]. intros x Hx. by right. }
- left. by rewrite Hx.
- apply list_elem_of_filter in Hx as [[Hs Hp]%andb_prop Hin]. right. eexists. split_and!; [exact Hin|done| |done].
  by rewrite Hs.
Qed.

(** The request is answered with a refusal and changes nothing. *)
Definition refused_statuses : list Z := [301; 401; 403; 404; 405].
Definition refuses (p : prog Response) (srv : Server) : Prop :=
∃ resp, run_prog p srv = (srv, Returned resp) ∧ rs_Status resp ∈ refused_statuses.

Lemma refuses_operator r html k srv : hasOperatorAuth srv r = false → refuses (operator r html k) srv.
Proof.
intros Hno. pose proof (require_cases srv r html) as Hc. rewrite Hno in Hc. destruct Hc as (resp & E & Hs).
exists resp. unfold operator. simpl. rewrite E. split; [by destruct srv|]. rewrite Hs. by apply (bool_decide_unpack _).
Qed.
Lemma refuses_stop resp srv : rs_Status resp ∈ refused_statuses → refuses (Stop resp) srv.
Proof. by exists resp. Qed.
Lemma refuses_guard b resp k srv :
rs_Status resp ∈ refused_statuses → refuses k srv → refuses (guard b resp k) srv.
Proof. destruct b; [intros; by apply refuses_stop|done]. Qed.

Ltac solve_refuses :=
repeat (cbv zeta; lazymatch goal with
  | |- refuses (operator _ _ _) _ => by apply refuses_operator
  | |- refuses (guard _ _ _) _ => apply refuses_guard; [by apply (bool_decide_unpack _)|]
  | |- refuses (Stop _) _ => apply refuses_stop; by apply (bool_decide_unpack _)
  | |- refuses (match ?x with _ => _ end) _ => destruct x
  end).

(** ** Joining *)

Lemma join_route r : rq_Path r = "/v1/workers/join"%string → ServeHTTP r = handleWorkerJoin r.
Proof. intros E. unfold ServeHTTP. by rewrite E. Qed.

(** The registration [req] was let in, and ran. *)
Record let_in (srv : Server) (req : JoinRequest) (srv' : Server) (resp : Response) : Prop := {
li_name : join_NodeName req ≠ ""%string;
li_token : srv_joinToken srv = ""%string ∨ join_JoinToken req = srv_joinToken srv;
li_ran : srv' = srv <| srv_state := exec (H := sub_world ["join"]) (srv_state srv) (OpRegisterWorker req) |>;
li_node : ∃ joined node, rs_Body resp = BodyJoined joined ∧
  st_nodes (srv_state srv') !! joined_NodeID joined = Some node ∧ node_Name node = join_NodeName req ∧
  node_Status node = NodeStatusOnline ∧ node_Role node = NodeRoleWorker;
}.

(** C5 (safety). With a join token set, the join route registers nobody without it:
    whatever is sent, as any method, to [/v1/workers/join] either changes nothing
    and is refused (400, 401 or 405), or was a decodable POST that carried the token
    (or none is configured) and a name, exactly the registration of that request
    ran, and it is answered 201 with an identifier under which the worker is now
    recorded, by its name and online. *)
Theorem join_requires_token (r : Request) (srv : Server) :
rq_Path r = "/v1/workers/join"%string →
∃ srv' resp, run_prog (ServeHTTP r) srv = (srv', Returned resp) ∧
  ((rs_Status resp = 201 ∧ is_post r = true ∧
    ∃ req, Decode (A := JoinRequest) (rq_Body r) = (req, true) ∧ let_in srv req srv' resp) ∨
   (rs_Status resp ∈ [400; 401; 405] ∧ srv' = srv)).
Proof.
intros E. rewrite (join_route r E).
assert (∀ resp, rs_Status resp ∈ [400; 401; 405] → ∃ srv' resp', (srv, Returned resp) = (srv', Returned resp') ∧
  ((rs_Status resp' = 201 ∧ is_post r = true ∧
    ∃ req, Decode (A := JoinRequest) (rq_Body r) = (req, true) ∧ let_in srv req srv' resp') ∨
   (rs_Status resp' ∈ [400; 401; 405] ∧ srv' = srv))) as Hno.
{ intros resp Hs. exists srv, resp. split; [done|by right]. }
unfold handleWorkerJoin, decoded.
destruct (is_post r) eqn:Hpost; cbn [negb guard]; [|apply Hno; by apply (bool_decide_unpack _)].
destruct (Decode (rq_Body r)) as [req [|]] eqn:Hdec; cbn [negb guard]; [|apply Hno; by apply (bool_decide_unpack _)].
case_bool_decide as Hname; cbn [guard]; [apply Hno; by apply (bool_decide_unpack _)|].
unfold look. cbn [prog_bind run_prog].
destruct (negb (str_eqb (srv_joinToken srv) "") && _) eqn:Htok; cbn [guard run_prog];
  [apply Hno; by apply (bool_decide_unpack _)|].
eexists _, _. split; [reflexivity|left]. split_and!; [done..|]. exists req. split; [done|]. split; [done| |done|].
- rewrite andb_false_iff, !negb_false_iff, !bool_decide_eq_true in Htok. tauto.
- eexists _, _. split; [reflexivity|]. unfold store, exec, RegisterWorker. cbn [fst]. simpl. rewrite (schedule_keeps_nodes (H := sub_world ["join"])).
  simpl. by rewrite lookup_insert_eq.
Qed.

(** ** Activation streams *)

(** The stage job of a stream, and whether the request may use it. *)
Definition stream_job (srv : Server) (parentID stageID : string) (stageJob : Job) : Prop :=
(∃ parent, FindJob (srv_state srv) parentID = Some parent ∧ job_Type parent = JobGenerateDistributed) ∧
FindJob (srv_state srv) stageID = Some stageJob ∧ job_Type stageJob = JobGenerateStage ∧
job_CDIPParentJobID stageJob = parentID.
Definition may_stream (srv : Server) (r : Request) (stageJob : Job) : Prop :=
hasOperatorAuth srv r = true ∨
(activation_node r ≠ ""%string ∧ activation_node r ∈ cdipActivationAllowedNodes stageJob).

(** Only the stream [sid] of the transport differs. *)
Definition only_stream (sid : StreamID) (srv srv' : Server) : Prop :=
srv' = srv <| srv_bus := srv_bus srv' |> ∧
∀ sid', sid' ≠ sid → mem_streams (srv_bus srv') !! sid' = mem_streams (srv_bus srv) !! sid'.

Lemma validate_run srv parentID stageID (h : option Job → prog Response) :
run_prog (prog_bind (validateCDIPActivationStream parentID stageID) h) srv =
run_prog (h (match FindJob (srv_state srv) parentID, FindJob (srv_state srv) stageID with
             | Some parent, Some stageJob =>
                 if negb (str_eqb (job_Type parent) JobGenerateDistributed)
                    || (negb (str_eqb (job_Type stageJob) JobGenerateStage)
                        || negb (str_eqb (job_CDIPParentJobID stageJob) parentID))
                 then None else Some stageJob
             | _, _ => None
             end)) srv.
Proof.
unfold validateCDIPActivationStream, call_Job, look. simpl.
destruct (FindJob (srv_state srv) parentID) as [parent|]; [|done].
destruct (negb (str_eqb (job_Type parent) JobGenerateDistributed)); simpl; [by destruct (FindJob _ stageID)|].
destruct (FindJob (srv_state srv) stageID) as [stageJob|]; [|done]. by destruct (_ || _).
Qed.

Lemma may_stream_iff srv r stageJob : requireCDIPActivationAuth srv r stageJob = None ↔ may_stream srv r stageJob.
Proof.
unfold requireCDIPActivationAuth, may_stream. destruct (hasOperatorAuth srv r); [split; [by left|done]|].
case_bool_decide as Hn; simpl; [split; [done|intros [?|[? _]]; done]|].
destruct (existsb _ _) eqn:Ex.
- split; [|done]. intros _. right. split; [done|]. apply existsb_exists in Ex as (x & Hx & Hxe).
  apply bool_decide_eq_true in Hxe as ->. by apply list_elem_of_In.
- split; [done|]. intros [?|[_ Hin]]; [done|]. exfalso.
  assert (existsb (λ allowed, str_eqb (activation_node r) allowed) (cdipActivationAllowedNodes stageJob) = true); [|congruence].
  apply existsb_exists. eexists. split; [by apply list_elem_of_In|by apply bool_decide_eq_true].
Qed.

Definition bus_only (sid : StreamID) (bus bus' : MemoryActivationTransport) : Prop :=
∀ sid', sid' ≠ sid → mem_streams bus' !! sid' = mem_streams bus !! sid'.
Lemma mem_stream_only ctx bus sid :
bus_only sid bus (mem_stream ctx bus sid).1 ∧ ∀ sid', (mem_stream ctx bus sid).2 = Ok sid' → sid' = sid.
Proof.
unfold mem_stream, bus_only. repeat case_match; simpl; (split; [|by intros ? [=]]); intros sid' Hne; [done..|].
by rewrite lookup_insert_ne.
Qed.
Lemma mem_Send_only ctx bus w frame : bus_only (wr_stream w) bus (mem_Send ctx bus w frame).1.
Proof. intros sid' Hne. unfold mem_Send. repeat case_match; simpl; rewrite ?lookup_insert_ne; done. Qed.
Lemma mem_Receive_only ctx bus rd : bus_only (rd_stream rd) bus (mem_Receive ctx bus rd).1.
Proof. intros sid' Hne. unfold mem_Receive. repeat case_match; simpl; rewrite ?lookup_insert_ne; done. Qed.

Lemma only_stream_refl sid srv : only_stream sid srv srv.
Proof. split; [by destruct srv|done]. Qed.
Lemma only_stream_bus sid srv bus : bus_only sid (srv_bus srv) bus → only_stream sid srv (srv <| srv_bus := bus |>).
Proof. done. Qed.
Lemma only_stream_trans sid a b c : only_stream sid a b → only_stream sid b c → only_stream sid a c.
Proof.
intros [E1 Ha] [E2 Hb]. split; [rewrite E2, E1; by destruct a|]. intros sid' Hne. by rewrite Hb, Ha.
Qed.

(** A bus action keeps to its stream. *)
Lemma on_bus_only {A} sid (f : MemoryActivationTransport → MemoryActivationTransport * outcome A) (k : A → prog Response) srv :
bus_only sid (srv_bus srv) (f (srv_bus srv)).1 →
(∀ a srv', (f (srv_bus srv)).2 = Returned a → only_stream sid srv' (run_prog (k a) srv').1) →
only_stream sid srv (run_prog (prog_bind (on_bus f) k) srv).1.
Proof.
intros Hf Hk. unfold on_bus. cbn [prog_bind run_prog]. destruct (f (srv_bus srv)) as [bus [a| |]]; simpl in *;
  [|by apply only_stream_bus..].
eapply only_stream_trans; [by apply only_stream_bus|by apply Hk].
Qed.

Lemma post_frame_only r sid stageJob srv : only_stream sid srv (run_prog (post_frame r sid stageJob) srv).1.
Proof.
unfold post_frame. destruct (Decode (rq_Body r)) as [frame ok].
destruct ok; cbn [negb guard]; [|apply only_stream_refl].
destruct (_ || _); cbn [guard]; [apply only_stream_refl|]. destruct (ActivationFrame_Validate frame); [apply only_stream_refl|].
pose proof (mem_stream_only (rq_Context r) (srv_bus srv) sid) as [Ho Hs].
apply on_bus_only; unfold mem_OpenWriter; destruct (mem_stream _ _ _) as [bus out]; simpl in *; [exact Ho|].
intros w srv1 [= <-]. destruct out as [sid'|e]; simpl; [|apply only_stream_refl]. rewrite (Hs _ eq_refl).
apply (on_bus_only sid (λ bus, mem_Send (rq_Context r) bus (mkWriter sid false) frame)); [exact (mem_Send_only _ _ (mkWriter sid false) frame)|].
intros [e|] srv2 _; apply only_stream_refl.
Qed.
Lemma get_frame_only r sid srv : only_stream sid srv (run_prog (get_frame r sid) srv).1.
Proof.
unfold get_frame. set (ctx := mkContext _ _ _).
pose proof (mem_stream_only ctx (srv_bus srv) sid) as [Ho Hs].
apply on_bus_only; unfold mem_OpenReader; destruct (mem_stream _ _ _) as [bus out]; simpl in *; [exact Ho|].
intros w srv1 [= <-]. destruct out as [sid'|e]; simpl; [|apply only_stream_refl]. rewrite (Hs _ eq_refl).
apply (on_bus_only sid (λ bus, mem_Receive ctx bus (mkReader sid))); [exact (mem_Receive_only _ _ (mkReader sid))|].
intros [frame|[]] srv2 _; apply only_stream_refl.
Qed.

(** The parts of the path below [/v1/cdip/activations/]. *)
Definition activation_path (r : Request) : list string :=
Split (trim_slash (TrimPrefix (rq_Path r) "/v1/cdip/activations/")) slash.
Definition activation_on (r : Request) (parentJobID stageJobID : string) : prog Response :=
guard (str_eqb parentJobID "" || str_eqb stageJobID "") not_found (
stage ⇐ validateCDIPActivationStream parentJobID stageJobID;
match stage with
| None => Stop (http_error "CDIP activation stream not found" 404)
| Some stageJob =>
    refused ⇐ look (λ srv, requireCDIPActivationAuth srv r stageJob);
    match refused with
    | Some resp => Stop resp
    | None =>
        let stream := mkStreamID parentJobID stageJobID in
        if is_post r then post_frame r stream stageJob
        else if is_get r then get_frame r stream
        else Stop method_not_allowed
    end
end).
Lemma handleCDIPActivation_path r :
handleCDIPActivation r = Stop not_found ∨
∃ parentID stageID, activation_path r = [parentID; stageID; "frames"%string] ∧
  handleCDIPActivation r = activation_on r parentID stageID.
Proof.
unfold handleCDIPActivation, activation_path.
destruct (Split _ _) as [|parentID [|stageID [|last [|? ?]]]]; [by left..| |].
- destruct (decide (last = "frames"%string)) as [->|Hne]; [right; by eexists _, _|left].
  repeat (case_match; try done).
- left. repeat (case_match; try done).
Qed.

(** C30 (safety). An activation request changes nothing but one stream, and that
  only for a stage of a distributed job and for the operator or one of the
  stage's nodes: its worker, its upstream and its downstream. *)
Theorem activation_streams_guarded (r : Request) (srv : Server) :
let srv' := (run_prog (handleCDIPActivation r) srv).1 in
srv' = srv ∨
∃ parentID stageID stageJob, activation_path r = [parentID; stageID; "frames"%string] ∧
  stream_job srv parentID stageID stageJob ∧ may_stream srv r stageJob ∧
  only_stream (mkStreamID parentID stageID) srv srv'.
Proof.
cbv zeta. destruct (handleCDIPActivation_path r) as [->|(parentID & stageID & Hpath & ->)]; [by left|].
unfold activation_on. destruct (_ || _); cbn [guard]; [by left|]. rewrite validate_run.
destruct (FindJob (srv_state srv) parentID) as [parent|] eqn:Hp; [|by left].
destruct (FindJob (srv_state srv) stageID) as [stageJob|] eqn:Hs; [|by left].
destruct (_ || _) eqn:Hok; [by left|].
rewrite !orb_false_iff, !negb_false_iff, !bool_decide_eq_true in Hok. destruct Hok as (Ht & Hst & Hpar).
unfold look. cbn [prog_bind run_prog].
destruct (requireCDIPActivationAuth srv r stageJob) as [resp|] eqn:Hauth; [by left|].
apply may_stream_iff in Hauth. right. exists parentID, stageID, stageJob. split; [done|]. split; [|split; [done|]].
- split_and!; [by exists parent|done..].
- destruct (is_post r); [apply post_frame_only|]. destruct (is_get r); [apply get_frame_only|apply only_stream_refl].
Qed.

(** *** What needs no operator token *)

(** Under [/v1/jobs/] a worker reports progress and completion, nothing else. *)
Definition reports_on_job (r : Request) : bool :=
is_post r && match Split (TrimPrefix (rq_Path r) "/v1/jobs/") slash with
             | [_; action] => str_eqb action "complete" || str_eqb action "progress"
             | _ => false
             end.
(** Under [/v1/workers/] it asks for its next job. *)
Definition polls_for_job (r : Request) : bool :=
is_get r && match Split (TrimPrefix (rq_Path r) "/v1/workers/") slash with
            | [_; kind; next] => str_eqb kind "jobs" && str_eqb next "next"
            | _ => false
            end.
(** It reads or writes a stream of a stage that names it. *)
Definition streams_activations (srv : Server) (r : Request) : bool :=
(is_post r || is_get r) &&
match activation_path r with
| [_; stageID; _] =>
    match FindJob (srv_state srv) stageID with
    | Some stageJob => negb (str_eqb (activation_node r) "") &&
                       existsb (λ allowed, str_eqb (activation_node r) allowed) (cdipActivationAllowedNodes stageJob)
    | None => false
    end
| _ => false
end.
Definition worker_request (srv : Server) (r : Request) : bool :=
(is_post r && existsb (λ p, str_eqb (rq_Path r) p)
   ["/v1/benchmarks"; "/v1/workers/join"; "/v1/workers/heartbeat"; "/v1/workers/leave"]%string)
|| (HasPrefix (rq_Path r) "/v1/jobs/" && reports_on_job r)
|| (HasPrefix (rq_Path r) "/v1/workers/" && polls_for_job r)
|| (HasPrefix (rq_Path r) "/v1/cdip/activations/" && streams_activations srv r).

Lemma handleJob_refuses r srv :
hasOperatorAuth srv r = false → reports_on_job r = false → refuses (handleJob r) srv.
Proof.
unfold handleJob, reports_on_job. intros Hno Hw. cbv zeta. apply refuses_guard; [by apply (bool_decide_unpack _)|].
destruct (Split _ slash) as [|jobID [|action [|? ?]]]; [solve_refuses|solve_refuses| |].
- destruct (decide (action = "cancel"%string)) as [->|Hcancel]; [unfold handleJobCancel; solve_refuses|].
  destruct (decide (action = "complete"%string)) as [->|Hcomplete].
  { rewrite bool_decide_eq_true_2, andb_true_r in Hw by done. unfold handleJobComplete. rewrite Hw. cbn [negb guard]. solve_refuses. }
  destruct (decide (action = "progress"%string)) as [->|Hprogress].
  { rewrite orb_comm, bool_decide_eq_true_2, andb_true_r in Hw by done. unfold handleJobProgress. rewrite Hw. cbn [negb guard]. solve_refuses. }
  by repeat (case_match; try done); apply refuses_stop, (bool_decide_unpack _).
- by repeat (case_match; try done); apply refuses_stop, (bool_decide_unpack _).
Qed.
Lemma handleWorkerRoutes_refuses r srv :
hasOperatorAuth srv r = false → polls_for_job r = false → refuses (handleWorkerRoutes r) srv.
Proof.
unfold handleWorkerRoutes, polls_for_job. intros Hno Hw.
destruct (Split _ slash) as [|nodeID [|kind [|next [|? ?]]]]; [solve_refuses|solve_refuses| | |].
- destruct (decide (kind = "model-cleanup"%string)) as [->|Hk]; [unfold handleWorkerModelCleanup; solve_refuses|].
  by repeat (case_match; try done); apply refuses_stop, (bool_decide_unpack _).
- destruct (decide (kind = "jobs"%string)) as [->|Hk].
  + destruct (decide (next = "next"%string)) as [->|Hn].
    { rewrite !bool_decide_eq_true_2, andb_true_r in Hw by done. unfold handleWorkerNextJob. rewrite Hw. cbn [negb guard]. solve_refuses. }
    by repeat (case_match; try done); apply refuses_stop, (bool_decide_unpack _).
  + by repeat (case_match; try done); apply refuses_stop, (bool_decide_unpack _).
- by repeat (case_match; try done); apply refuses_stop, (bool_decide_unpack _).
Qed.
Ltac refused_here := eexists; split; [reflexivity|by apply (bool_decide_unpack _)].
Lemma handleCDIPActivation_refuses r srv :
hasOperatorAuth srv r = false → streams_activations srv r = false → refuses (handleCDIPActivation r) srv.
Proof.
unfold streams_activations. intros Hno Hw. destruct (handleCDIPActivation_path r) as [->|(parentID & stageID & Hpath & ->)];
  [solve_refuses|]. rewrite Hpath in Hw. unfold activation_on. apply refuses_guard; [by apply (bool_decide_unpack _)|].
unfold refuses. rewrite validate_run.
destruct (FindJob (srv_state srv) parentID); [|refused_here].
destruct (FindJob (srv_state srv) stageID) as [stageJob|];
  [|refused_here].
destruct (negb (str_eqb (job_Type _) _) || _); [refused_here|].
unfold look. cbn [prog_bind run_prog]. unfold requireCDIPActivationAuth. rewrite Hno.
destruct (str_eqb (activation_node r) ""); [refused_here|].
destruct (existsb _ _); [|refused_here].
rewrite andb_true_r, orb_false_iff in Hw. destruct Hw as [-> ->].
refused_here.
Qed.

Lemma routes_refuse r srv :
hasOperatorAuth srv r = false → worker_request srv r = false →
Forall (λ x, HasPrefix (rq_Path r) x.1 = true → (is_subtree x.1 = false → rq_Path r = x.1) →
             x.1 = "/health"%string ∨ refuses (x.2 r) srv) routes.
Proof.
intros Hno Hw. unfold worker_request in Hw. rewrite !orb_false_iff, !andb_false_iff in Hw.
destruct Hw as [[[Hb Hj] Hwk] Hact].
assert (∀ p, rq_Path r = p → p ∈ ["/v1/benchmarks"; "/v1/workers/join"; "/v1/workers/heartbeat"; "/v1/workers/leave"]%string →
        is_post r = false) as Hpost.
{ intros p <- Hin. destruct Hb as [|Hb]; [done|]. exfalso. apply list_elem_of_In in Hin.
  assert (existsb (λ p, str_eqb (rq_Path r) p) ["/v1/benchmarks"; "/v1/workers/join"; "/v1/workers/heartbeat"; "/v1/workers/leave"]%string = true);
    [|congruence]. apply existsb_exists. eexists. split; [exact Hin|by apply bool_decide_eq_true]. }
unfold routes. repeat apply Forall_cons_2; [..|by apply Forall_nil_2]; cbn [fst snd]; intros Hp Hx;
  lazymatch goal with
  | |- _ ∨ refuses (handleHealth _) _ => by left
  | |- _ ∨ refuses (handleCDIPActivation _) _ => right; apply handleCDIPActivation_refuses; [done|by destruct Hact; congruence]
  | |- _ ∨ refuses (handleWorkerRoutes _) _ => right; apply handleWorkerRoutes_refuses; [done|by destruct Hwk; congruence]
  | |- _ ∨ refuses (handleJob _) _ => right; apply handleJob_refuses; [done|by destruct Hj; congruence]
  | |- _ ∨ refuses (handleWorkerJoin _) _ => right; unfold handleWorkerJoin
  | |- _ ∨ refuses (handleWorkerHeartbeat _) _ => right; unfold handleWorkerHeartbeat
  | |- _ ∨ refuses (handleWorkerLeave _) _ => right; unfold handleWorkerLeave
  | |- _ ∨ refuses (handleBenchmarks _) _ => right; unfold handleBenchmarks
  | _ => right; cbv delta [handleDashboard handleInvite handleCluster handleCapacitySnapshots handleCapacity
      handleDashboardStatus handleDistributedRuns handleRuntimeStageProbes handleRuntimeRPCPool
      handleRuntimeRPCPoolRefresh handleRuntimeRPCPoolSmoke handleNodes handleClusterBenchmarks handleModels
      handleModel handleConversations handleConversation handleMemories handleMemory handleJobs
      handleCDIPJob handleCDIPStage] beta; solve_refuses
  end.
all: rewrite (Hpost _ (Hx eq_refl)) by (by apply (bool_decide_unpack _)); cbn [negb guard]; solve_refuses.
Qed.

(** C39 (safety). With an operator token configured, a request without it is
  refused (401, 403, 404, 405 or a redirect) and changes nothing, whatever its
  path, method and body, unless it is one of those a worker makes: the post of
  a benchmark, of a join, a heartbeat or a leave, of the progress or the
  completion of a job, the poll for a worker's next job, and the activation
  streams of a stage by a node the stage names. [/health] answers everyone. So
  canceling or reading a job or cleaning a worker is refused, though these
  paths lie beside the workers' own. *)
Theorem unauthorized_request_refused (r : Request) (srv : Server) :
hasOperatorAuth srv r = false → worker_request srv r = false →
rq_Path r = "/health"%string ∨
∃ resp, run_prog (ServeHTTP r) srv = (srv, Returned resp) ∧ rs_Status resp ∈ [301; 401; 403; 404; 405].
Proof.
intros Hno Hw. pose proof (routes_refuse r srv Hno Hw) as Hr. rewrite Forall_forall in Hr.
destruct (ServeHTTP_prefix r) as [->|[->|(x & Hin & Hp & Hx & E)]].
- right. by apply (refuses_stop (reply 301 BodyEmpty)), (bool_decide_unpack _).
- right. change (refuses (handleDashboard r) srv). unfold handleDashboard. solve_refuses.
- destruct (Hr x Hin Hp Hx) as [Hh|Hh]; [left|right; by rewrite E].
  rewrite <- Hh. apply Hx. by rewrite Hh.
Qed.

(** *** From one node to the next *)

Definition frames_in (srv : Server) (sid : StreamID) : list ActivationFrame :=
default [] (ch_queue <$> mem_streams (srv_bus srv) !! sid).

(** Past the checks the handler posts or reads. *)
Lemma activation_admitted r srv parentID stageID stageJob :
activation_path r = [parentID; stageID; "frames"%string] → parentID ≠ ""%string → stageID ≠ ""%string →
stream_job srv parentID stageID stageJob → may_stream srv r stageJob →
run_prog (handleCDIPActivation r) srv =
run_prog (if is_post r then post_frame r (mkStreamID parentID stageID) stageJob
          else if is_get r then get_frame r (mkStreamID parentID stageID) else Stop method_not_allowed) srv.
Proof.
intros Hpath Hp Hs ((parent & Hfp & Htp) & Hfs & Hts & Hpar) Hmay.
destruct (handleCDIPActivation_path r) as [E|(p & s & Hpath' & ->)].
{ unfold handleCDIPActivation in E. unfold activation_path in Hpath. rewrite Hpath in E.
  cbn in E. by rewrite !bool_decide_eq_false_2 in E. }
rewrite Hpath in Hpath'. injection Hpath' as <- <-. unfold activation_on.
rewrite !bool_decide_eq_false_2 by done. cbn [orb guard]. rewrite validate_run, Hfp, Hfs.
rewrite !bool_decide_eq_true_2 by done. cbn [negb orb]. unfold look. cbn [prog_bind run_prog].
by rewrite (proj2 (may_stream_iff srv r stageJob) Hmay).
Qed.

(** An accepted frame passed the checks. *)
Lemma activation_accepted r srv srv' resp parentID stageID :
activation_path r = [parentID; stageID; "frames"%string] →
run_prog (handleCDIPActivation r) srv = (srv', Returned resp) → rs_Status resp = 202 →
parentID ≠ ""%string ∧ stageID ≠ ""%string ∧ ∃ stageJob, may_stream srv r stageJob ∧
  stream_job srv parentID stageID stageJob.
Proof.
intros Hpath Hrun Hst. destruct (handleCDIPActivation_path r) as [E|(p & s & Hpath' & E)]; rewrite E in Hrun.
{ by injection Hrun as <- <-. }
rewrite Hpath in Hpath'. injection Hpath' as <- <-. unfold activation_on in Hrun.
destruct (_ || _) eqn:Hne; cbn [guard] in Hrun; [by injection Hrun as <- <-|].
rewrite orb_false_iff, !bool_decide_eq_false in Hne. rewrite validate_run in Hrun.
destruct (FindJob (srv_state srv) parentID) as [parent|] eqn:Hp; [|by injection Hrun as <- <-].
destruct (FindJob (srv_state srv) stageID) as [stageJob|] eqn:Hs; [|by injection Hrun as <- <-].
destruct (_ || _) eqn:Hok; [by injection Hrun as <- <-|].
rewrite !orb_false_iff, !negb_false_iff, !bool_decide_eq_true in Hok. destruct Hok as (Ht & Hs1 & Hpar).
unfold look in Hrun. cbn [prog_bind run_prog] in Hrun.
destruct (requireCDIPActivationAuth srv r stageJob) as [refusal|] eqn:Hauth.
{ injection Hrun as <- <-. unfold requireCDIPActivationAuth in Hauth.
  repeat case_match; simplify_eq; done. }
apply may_stream_iff in Hauth. destruct Hne. split_and!; [done..|]. exists stageJob. split; [done|].
split_and!; [by exists parent|done..].
Qed.

Lemma mem_stream_ok ctx bus sid bus' sid' :
mem_stream ctx bus sid = (bus', Ok sid') →
sid' = sid ∧ validateStreamID sid = None ∧
∃ ch, mem_streams bus' !! sid = Some ch ∧ ch_queue ch = default [] (ch_queue <$> mem_streams bus !! sid).
Proof.
unfold mem_stream. intros Hm. destruct (validateStreamID sid); [done|]. destruct (ctx_done ctx); [done|].
destruct (mem_streams bus !! sid) as [ch|] eqn:E; injection Hm as <- <-.
- rewrite E. split_and!; [done..|]. by exists ch.
- simpl. rewrite lookup_insert_eq. split_and!; [done..|]. by eexists.
Qed.

Lemma post_frame_appends r sid stageJob srv srv' resp :
run_prog (post_frame r sid stageJob) srv = (srv', Returned resp) → rs_Status resp = 202 →
validateStreamID sid = None ∧ srv_state srv' = srv_state srv ∧ srv_operatorToken srv' = srv_operatorToken srv ∧
frames_in srv' sid = frames_in srv sid ++ [(Decode (A := ActivationFrame) (rq_Body r)).1].
Proof.
unfold post_frame. destruct (Decode (rq_Body r)) as [frame ok]. intros Hrun Hst.
destruct ok; cbn [negb guard] in Hrun; [|by injection Hrun as <- <-].
destruct (_ || _); cbn [guard] in Hrun; [by injection Hrun as <- <-|].
destruct (ActivationFrame_Validate frame) eqn:Hv; [by injection Hrun as <- <-|].
unfold on_bus, mem_OpenWriter in Hrun. cbn [prog_bind run_prog] in Hrun.
destruct (mem_stream (rq_Context r) (srv_bus srv) sid) as [bus out] eqn:Em.
destruct out as [sid'|e]; cbn in Hrun; [|by injection Hrun as <- <-].
apply mem_stream_ok in Em as (-> & Hval & ch & Hch & Hq).
unfold mem_Send in Hrun. rewrite Hv in Hrun. cbn in Hrun. rewrite Hch in Hrun.
destruct (select_done _ _) as [[|]|]; [by injection Hrun as <- <-| |done].
destruct (ch_closed ch); [done|]. injection Hrun as <- <-. split_and!; [done..|].
unfold frames_in. cbn. rewrite lookup_insert_eq. cbn. by rewrite Hq.
Qed.

Lemma get_frame_takes r sid srv frame rest :
validateStreamID sid = None → ctx_done (rq_Context r) = false → frames_in srv sid = frame :: rest →
∃ srv', run_prog (get_frame r sid) srv = (srv', Returned (reply 200 (BodyFrame frame))) ∧ frames_in srv' sid = rest.
Proof.
intros Hval Hctx Hq. unfold frames_in in Hq. destruct (mem_streams (srv_bus srv) !! sid) as [ch|] eqn:E; [|done].
simpl in Hq. unfold get_frame, on_bus, mem_OpenReader, mem_stream. cbn [prog_bind run_prog ctx_done].
rewrite Hval, Hctx. cbn. rewrite E. cbn. unfold mem_Receive. cbn. rewrite E. unfold select_done. cbn. rewrite ?Hctx, Hq.
rewrite orb_true_r. cbn. eexists. split; [reflexivity|]. unfold frames_in. cbn. by rewrite lookup_insert_eq.
Qed.

(** (roundtrip). Activations cross the manager in order: after a frame is
  accepted for a stage, a read of the same stream by a node that may use it
  returns the oldest frame waiting (the new one when none was), and leaves the
  others, the new one last. *)
Theorem posted_frames_read_in_order (post get : Request) (srv srv' : Server) (resp : Response)
  (parentID stageID : string) (stageJob : Job) :
activation_path post = [parentID; stageID; "frames"%string] → activation_path get = activation_path post →
is_post post = true → is_get get = true → ctx_done (rq_Context get) = false →
stream_job srv parentID stageID stageJob → may_stream srv get stageJob →
run_prog (handleCDIPActivation post) srv = (srv', Returned resp) → rs_Status resp = 202 →
let waiting := frames_in srv (mkStreamID parentID stageID) ++ [(Decode (A := ActivationFrame) (rq_Body post)).1] in
∃ frame rest srv'', waiting = frame :: rest ∧
  run_prog (handleCDIPActivation get) srv' = (srv'', Returned (reply 200 (BodyFrame frame))) ∧
  frames_in srv'' (mkStreamID parentID stageID) = rest.
Proof.
intros Hpath Hget Hip Hig Hctx Hjob Hmay Hrun Hst. cbv zeta.
assert (is_post get = false) as Hng.
{ unfold is_post, is_get in *. rewrite bool_decide_eq_true in Hig. by rewrite Hig. }
destruct (activation_accepted _ _ _ _ _ _ Hpath Hrun Hst) as (Hp & Hs & j & Hpost & Hj).
rewrite (activation_admitted post srv parentID stageID j Hpath Hp Hs Hj Hpost), Hip in Hrun.
destruct (post_frame_appends _ _ _ _ _ _ Hrun Hst) as (Hval & Hstate & Htok & Hq).
rewrite <- Hq. destruct (frames_in srv' _) as [|frame rest] eqn:Eq; [by destruct (frames_in srv _)|].
assert (stream_job srv' parentID stageID stageJob) as Hjob' by (unfold stream_job; by rewrite Hstate).
assert (may_stream srv' get stageJob) as Hmay' by (unfold may_stream, hasOperatorAuth in *; by rewrite Htok).
rewrite (activation_admitted get srv' parentID stageID stageJob) by (try done; by rewrite Hget).
rewrite Hng, Hig. destruct (get_frame_takes get _ _ _ _ Hval Hctx Eq) as (srv'' & Hrun' & Hrest).
by exists frame, rest, srv''.
Qed.
End access.

(** ** Worked examples *)

Section demo.
#[local] Existing Instance silent_network.
#[local] Existing Instance no_texts.
#[local] Instance access_world : World := world_at 20.
(** The stage [s] of the job [p] runs on [b], between [a] and [c]. *)
#[local] Instance access_codecs : ServerCodecs :=
demo_server_codecs (demo_join "letmein") (mkGenerateRequest "" "" "" "" 0 "") (demo_stage "a" "c")
  (demo_frame "p" "s" "activations") (mkCompleteRequest "" "" "").

Definition access_job (id type assigned parent : string) : Job :=
mkJob id type StatusRunning "" assigned "" (mkRequirements 0 0 0 false 0) "" "" 1 1 "" StageDecode parent 0 0 0 0 0.
Definition access_server : Server :=
NewServerWithOptions (mkServerOptions "letmein" "secret" "")
  ((NewState 1) <| st_jobs := {[ "p" := access_job "p" JobGenerateDistributed "" "";
                                 "s" := access_job "s" JobGenerateStage "b" "p" ]} |>).
Definition from_node (node : string) (r : Request) : Request :=
mkRequest (rq_Method r) (rq_Path r) (rq_Host r) (rq_TLS r) (rq_Query r)
  (<["X-Cmesh-Node-Id"%string := node]> (rq_Header r)) (rq_Cookies r) (rq_Body r) (rq_Context r).
Definition frames_path : string := "/v1/cdip/activations/p/s/frames".
Definition post_from (node : string) : Request := from_node node (demo_request_to "POST" frames_path).
Definition get_from (node : string) : Request := from_node node (demo_request_to "GET" frames_path).
Definition answer (r : Request) (srv : Server) : option Z :=
match (run_prog (ServeHTTP r) srv).2 with Returned resp => Some (rs_Status resp) | _ => None end.

(** The neighbours of the stage may, other nodes and nameless requests may not. *)
Example who_may_stream :
(λ node, answer (post_from node) access_server) <$> ["b"; "a"; "c"; "d"; ""]%string =
[Some 202; Some 202; Some 202; Some 403; Some 401].
Proof. vm_compute. reflexivity. Qed.

Lemma access_stage : stream_job access_server "p" "s" (access_job "s" JobGenerateStage "b" "p").
Proof. split_and!; [eexists; split|..]; vm_compute; reflexivity. Qed.

Lemma posted_frames_read_in_order_witness :
∃ srv' srv'', run_prog (handleCDIPActivation (post_from "b")) access_server =
    (srv', Returned (reply 202 (BodyFrameAccepted (mkStreamID "p" "s") 0 11))) ∧
  run_prog (handleCDIPActivation (get_from "c")) srv' =
    (srv'', Returned (reply 200 (BodyFrame (demo_frame "p" "s" "activations")))).
Proof.
assert ((run_prog (handleCDIPActivation (post_from "b")) access_server).2 =
        Returned (reply 202 (BodyFrameAccepted (mkStreamID "p" "s") 0 11))) as E by (vm_compute; reflexivity).
destruct (run_prog (handleCDIPActivation (post_from "b")) access_server) as [srv' out] eqn:Hrun.
simpl in E. subst out.
destruct (posted_frames_read_in_order (post_from "b") (get_from "c") access_server srv' _ "p" "s" _
  ltac:(vm_compute; reflexivity) ltac:(vm_compute; reflexivity) ltac:(vm_compute; reflexivity)
  ltac:(vm_compute; reflexivity) ltac:(vm_compute; reflexivity) access_stage
  ltac:(apply may_stream_iff; vm_compute; reflexivity) Hrun eq_refl)
  as (frame & rest & srv'' & Hw & Hget & _).
exists srv', srv''. split; [reflexivity|]. rewrite Hget. do 4 f_equal.
vm_compute in Hw. by injection Hw.
Defined.

(** Only the workers' own requests get past the token. *)
Example who_needs_the_token :
(λ r, answer (demo_request_to r.1 r.2) access_server) <$>
  [("POST", "/v1/jobs/p/cancel"); ("GET", "/v1/jobs/p"); ("POST", "/v1/workers/b/model-cleanup");
   ("GET", "/v1/workers/join"); ("GET", "/v1/workers/b/jobs/next"); ("POST", "/v1/workers/join")]%string =
[Some 401; Some 401; Some 401; Some 405; Some 200; Some 201].
Proof. vm_compute. reflexivity. Qed.

Lemma unauthorized_request_refused_witness :
hasOperatorAuth access_server (demo_request_to "POST" "/v1/jobs/p/cancel") = false ∧
∃ resp, run_prog (ServeHTTP (demo_request_to "POST" "/v1/jobs/p/cancel")) access_server = (access_server, Returned resp) ∧
  rs_Status resp ∈ [301; 401; 403; 404; 405].
Proof.
split; [vm_compute; reflexivity|].
destruct (unauthorized_request_refused (demo_request_to "POST" "/v1/jobs/p/cancel") access_server) as [Hh|Hh];
  [vm_compute; reflexivity|vm_compute; reflexivity|discriminate Hh|exact Hh].
Defined.

Lemma join_requires_token_witness :
∃ srv', run_prog (ServeHTTP (demo_request_to "POST" "/v1/workers/join")) access_server =
    (srv', Returned (reply 201 (BodyJoined (mkJoinResponse (newID "node" (Some "/join/node"%string))
                                   ["http://127.0.0.1:8080"%string] (10 * Second))))) ∧
  let_in access_server (demo_join "letmein") srv'
    (reply 201 (BodyJoined (mkJoinResponse (newID "node" (Some "/join/node"%string)) ["http://127.0.0.1:8080"%string] (10 * Second)))).
Proof.
destruct (join_requires_token (demo_request_to "POST" "/v1/workers/join") access_server eq_refl)
  as (srv' & resp & Hrun & Hout).
assert ((run_prog (ServeHTTP (demo_request_to "POST" "/v1/workers/join")) access_server).2 =
  Returned (reply 201 (BodyJoined (mkJoinResponse (newID "node" (Some "/join/node"%string))
                                   ["http://127.0.0.1:8080"%string] (10 * Second))))) as E by (vm_compute; reflexivity).
rewrite Hrun in E. simpl in E. injection E as ->. exists srv'. split; [exact Hrun|].
destruct Hout as [(_ & _ & req & Hdec & Hin)|[Hbad _]].
- injection Hdec as <-. exact Hin.
- exfalso. simpl in Hbad. by repeat (apply elem_of_cons in Hbad as [Hbad|Hbad]; [discriminate Hbad|]);
    apply not_elem_of_nil in Hbad.
Defined.
End demo.
