(* ===== verification/Turns.v ===== *)
(** * One generation per conversation

    A generate request first checks that no generation of its conversation is
    open, then appends the user's message and creates the job
    ([internal/manager/server.go], the three generate handlers).  Served one
    after the other, requests keep at most one open generation per
    conversation; interleaved, the check and the creation are separate store
    calls, and two requests can both pass the check. *)

From S2P Require Import Prelude GoString GoSort GoFloat World Json Cdip Types Protocol Models State.
From S2P Require Import Conversations Scheduling JobStore ModelView RpcPool DistributedPlan Views Capacity.
From S2P Require Import Transport Coordinator Http Handlers Demo ModelHandlers Server.

(** ** Generated identifiers *)

(** Hexadecimal text ends in a digit, so trimming leaves a new identifier alone. *)
Lemma hex_digit_plain n s :
  (n < 16)%nat → drop_any (rev_string <$> space_runes) (hex_digit n +:+ s) = None.
Proof. intros Hn. do 16 (destruct n as [|n]; [reflexivity|]). lia. Qed.
Lemma hex_encode_end s : s ≠ ""%string → ∃ w n, (n < 16)%nat ∧ hex_encode s = (w +:+ hex_digit n).
Proof.
  induction s as [|a s IH]; [done|]. intros _. cbn [hex_encode]. set (c := Ascii.nat_of_ascii a).
  destruct s as [|b s].
  - exists (hex_digit (c / 16)), (c mod 16)%nat. split; [by apply Nat.mod_upper_bound|].
    cbn [hex_encode]. by rewrite string_app_nil_r.
  - destruct IH as (w & n & Hn & ->); [done|]. exists (hex_digit (c / 16) +:+ hex_digit (c mod 16) +:+ w), n.
    split; [done|]. by rewrite !string_app_assoc.
Qed.
Lemma TrimSpace_conv buf : TrimSpace (newID "conv" buf) = newID "conv" buf.
Proof.
  assert (∀ x, drop_any space_runes ("conv-" +:+ x) = None) as Hl by reflexivity.
  assert (TrimLeftSpace (newID "conv" buf) = newID "conv" buf) as Ht.
  { unfold TrimLeftSpace. apply trim_left_id. destruct buf as [b|]; [apply (Hl (hex_encode b))|reflexivity]. }
  unfold TrimSpace. rewrite Ht. unfold TrimRightSpace.
  rewrite trim_left_id; [by apply rev_string_involutive|].
  destruct buf as [b|]; [|reflexivity]. destruct (decide (b = ""%string)) as [->|Hb]; [reflexivity|].
  destruct (hex_encode_end b Hb) as (w & n & Hn & E). unfold newID.
  assert (rev_string (hex_digit n) = hex_digit n) as Hd by reflexivity.
  rewrite E, !rev_string_app, Hd, <- !string_app_assoc. by apply hex_digit_plain.
Qed.

(** ** What the operations do to jobs and conversations *)

(** The conversations are stored under their identifiers. *)
Definition convs_keyed (s : State) : Prop := map_Forall (λ id c, conv_ID c = id) (st_conversations s).

(** The requests an operation makes jobs from. *)
Definition requests_of (op : store_op) : list CreateRequest :=
  match op with OpCreateJob req => [req] | OpCreateJobsBatch reqs => reqs | _ => [] end.

Section store.
Context `{Codecs}.

Lemma newID_ne prefix buf : prefix ≠ ""%string → newID prefix buf ≠ ""%string.
Proof. destruct prefix; [done|]. by destruct buf. Qed.

Section world.
Context `{World}.

Lemma create_job_shape s t now req :
  ∃ job, create_job s t now req = (s <| st_jobs := <[job_ID job := job]> (st_jobs s) |>, job) ∧
job_ID job = newID "job" (w_rand ("job" :: t)) ∧ job_Type job = cr_Type req ∧ job_Input job = cr_Input req.
Proof.
  unfold create_job. eexists. split; [reflexivity|]. by repeat case_match.
Qed.

(** The jobs of [s'] are those of [s], or new ones made from [reqs]. *)
Definition jobs_from (reqs : list CreateRequest) (s s' : State) : Prop :=
  st_conversations s' = st_conversations s ∧
  ∀ id j, st_jobs s' !! id = Some j →
st_jobs s !! id = Some j ∨
∃ req, req ∈ reqs ∧ id ≠ ""%string ∧ job_Type j = cr_Type req ∧ job_Input j = cr_Input req.

Lemma create_job_from s t now req : jobs_from [req] s (create_job s t now req).1.
Proof.
  destruct (create_job_shape s t now req) as (job & -> & HID & HT & HI). split; [done|]. intros id j. simpl.
  destruct (decide (id = job_ID job)) as [->|Hne]; [|rewrite lookup_insert_ne by done; by left].
  rewrite lookup_insert_eq. intros [= <-]. right. exists req. split_and!; [by left| |done..].
  rewrite HID. by apply newID_ne.
Qed.
Lemma create_loop_from s i reqs : jobs_from reqs s (create_loop s i reqs).1.
Proof.
  revert s i. induction reqs as [|req reqs IH]; intros s i; cbn [create_loop]; [by split; [done|left]|].
  pose proof (create_job_from s ["create"; pretty i] (w_clock ["now"]) req) as [Hc1 H1].
  destruct (create_job _ _ _ _) as [s1 job]. specialize (IH s1 (S i)) as [Hc2 H2].
  destruct (create_loop _ _ _) as [s2 created]. simpl in *. split; [congruence|].
  intros id j Hj. destruct (H2 id j Hj) as [Hj1|(req' & Hin & ?)]; [|right; exists req'; by split; [right|]].
  destruct (H1 id j Hj1) as [?|(req' & ->%list_elem_of_singleton & ?)]; [by left|].
  right. exists req. by split; [left|].
Qed.

(** Every job after an operation has an origin. *)
Lemma exec_origin s op id j' :
  state_wf s → op_ok op → st_jobs (exec s op) !! id = Some j' →
  (∃ j, st_jobs s !! id = Some j ∧ rtc lifecycle j j') ∨
  (∃ req, req ∈ requests_of op ∧ id ≠ ""%string ∧ job_Type j' = cr_Type req ∧ job_Input j' = cr_Input req).
Proof.
  intros Hwf Hop Hj'.
  assert (∀ reqs, jobs_from reqs s (exec s op) → requests_of op = reqs →
(∃ j, st_jobs s !! id = Some j ∧ rtc lifecycle j j') ∨
(∃ req, req ∈ requests_of op ∧ id ≠ ""%string ∧ job_Type j' = cr_Type req ∧ job_Input j' = cr_Input req)) as Hnew.
  { intros reqs [_ Hf] ->. destruct (Hf id j' Hj') as [?|?]; [left; by exists j'|by right]. }
  destruct (exec_step s op Hwf Hop) as [_ HJ HN _].
  assert (created_ids op = [] → ∃ j, st_jobs s !! id = Some j ∧ rtc lifecycle j j') as Hold.
  { intros Hc. rewrite Hc in *. destruct (HN id (mk_is_Some _ _ Hj')) as [[j Hj]|Hin]; [|by apply not_elem_of_nil in Hin].
destruct (HJ id j Hj) as (j1 & Hj1 & Hr); [by apply not_elem_of_nil|]. exists j. split; [done|]. congruence. }
  destruct op; try (left; by apply Hold).
  - apply (Hnew [req]); [apply create_job_from|reflexivity].
  - apply (Hnew requests); [apply create_loop_from|reflexivity].
Qed.

(** *** Conversations *)

Lemma foldl_conversations {A} (f : State → A → State) l s :
  (∀ s a, st_conversations (f s a) = st_conversations s) → st_conversations (foldl f s l) = st_conversations s.
Proof. intros Hf. revert s. induction l as [|a l IH]; intros s; simpl; [done|]. by rewrite IH. Qed.
Lemma schedule_conversations s now :
  st_conversations (scheduleQueuedJobsLocked s now) = st_conversations s.
Proof. apply foldl_conversations. intros s' id. unfold schedule_step. by repeat case_match. Qed.
Lemma fail_conversations s nodeID now reason :
  st_conversations (failActiveJobsForWorkerLocked s nodeID now reason) = st_conversations s.
Proof. apply foldl_conversations. intros s' id. unfold fail_step. by repeat case_match. Qed.
Lemma Nodes_conversations s : st_conversations (Nodes s).1 = st_conversations s.
Proof.
  unfold Nodes. generalize (range_keys ["nodes"] (st_nodes s)) as ks. generalize (@nil Node) as l. intros l ks. revert s l.
  induction ks as [|k ks IH]; intros s l; cbn [foldl]; [done|].
  assert (st_conversations (nodes_step (w_clock ["now"]) (s, l) k).1 = st_conversations s) as Hst.
  { unfold nodes_step. repeat case_match; simpl; rewrite ?fail_conversations; done. }
  destruct (nodes_step _ _ _) as [s1 l1]. simpl in Hst. by rewrite IH.
Qed.

Lemma append_keyed s id c : conv_ID c = id → convs_keyed s →
  convs_keyed (s <| st_conversations := <[id := c]> (st_conversations s) |>).
Proof. intros Hc Hs. apply map_Forall_insert_2; done. Qed.
Lemma default_keyed s id c : convs_keyed s → conv_ID c = id →
  conv_ID (default c (st_conversations s !! id)) = id.
Proof. intros Hs Hc. destruct (st_conversations s !! id) as [c'|] eqn:E; [apply (Hs _ _ E)|done]. Qed.

Lemma AppendConversationMessage_keyed s id modelID nodeID systemPrompt message :
  convs_keyed s →
  let '(s', c) := AppendConversationMessage s id modelID nodeID systemPrompt message in
  conv_ID c = id ∧ st_jobs s' = st_jobs s ∧ convs_keyed s'.
Proof.
  intros Hs. unfold AppendConversationMessage. cbv zeta.
  pose proof (default_keyed s id (mkConversation id "" "" "" [] (w_clock ["now"]) 0) Hs eq_refl) as Hc.
  destruct (default _ _) as [cid cm cn cs cms c1 c2]. simpl in Hc. subst.
  repeat case_match; simplify_eq/=; (split_and!; [done|done|]); by apply map_Forall_insert_2.
Qed.

Lemma append_assistant_keyed s job now : convs_keyed s → convs_keyed (appendAssistantMessageForJobLocked s job now).
Proof.
  intros Hs. unfold appendAssistantMessageForJobLocked. cbv zeta.
  case_match; [done|]. destruct (generateJobConversationModelAndPrompt job) as [[cid modelID] systemPrompt].
  case_match; [done|]. destruct (Unmarshal _) as [res|]; [|done]. case_match; [done|].
  apply append_keyed; [|done].
  pose proof (default_keyed s cid (mkConversation cid modelID "" "" [] now 0) Hs eq_refl) as Hc.
  destruct (default _ _). by case_match.
Qed.

Lemma cleanup_keyed s job : convs_keyed s → convs_keyed (cleanupModelPersistenceForDeleteJobLocked s job).1.
Proof.
  intros Hs. unfold cleanupModelPersistenceForDeleteJobLocked. cbv zeta.
  case_match; [done|]. destruct (Unmarshal _) as [input|]; [|done]. case_match; [done|]. case_match; [done|].
  destruct (delete_loop ["memories"] _ _) as [memories n].
  pose proof (delete_loop_spec ["conversations"] (λ c, str_eqb (conv_ModelID c) (del_ModelID input)) (st_conversations s))
as [Hd _].
  destruct (delete_loop ["conversations"] _ _) as [conversations n']. simpl in *. rewrite Hd.
  apply map_Forall_lookup_2. intros id c [Hc _]%map_lookup_filter_Some. by apply Hs.
Qed.

Lemma CompleteJob_keyed s jobID req : convs_keyed s → convs_keyed (CompleteJob s jobID req).1.
Proof.
  intros Hs. unfold CompleteJob. destruct (st_jobs s !! jobID) as [job|]; [|done].
  repeat (case_bool_decide; [done|]). cbv zeta.
  match goal with |- context [if ?b then _ else _] => destruct b end.
  - unfold convs_keyed. simpl. by rewrite schedule_conversations.
  - set (job' := job <| job_Result := _ |> <| job_Error := _ |> <| job_UpdatedAt := _ |>
               <| job_Status := _ |> <| job_FinishedAt := _ |>).
pose proof (cleanup_keyed (appendAssistantMessageForJobLocked s job' (w_clock ["now"])) job') as Hc.
destruct (cleanupModelPersistenceForDeleteJobLocked _ _) as [s1 [job1|e]]; simpl in *;
  [unfold convs_keyed; rewrite schedule_conversations|]; apply Hc, append_assistant_keyed, Hs.
Qed.

Lemma exec_keyed s op : convs_keyed s → convs_keyed (exec s op).
Proof.
  intros Hs. unfold convs_keyed.
  destruct op; cbn [exec].
  - unfold RegisterWorker. simpl. by rewrite schedule_conversations.
  - unfold HeartbeatOp. case_match; [|done]. simpl. by rewrite schedule_conversations.
  - unfold MarkWorkerOffline, markWorkerOfflineLocked. case_match; [|done]. simpl. by rewrite fail_conversations.
  - unfold PutBenchmark. by case_match.
  - unfold PutRPCHealth. by case_match.
  - by rewrite (proj1 (create_job_from s ["create"] (w_clock ["now"]) req)).
  - unfold CreateJobsBatch. by rewrite (proj1 (create_loop_from s 0 requests)).
  - unfold NextJobForWorker. induction (range_values _ _) as [|j l IH]; [done|]. cbn [next_loop]. case_match; done.
  - unfold UpdateJobProgress. by repeat case_match.
  - unfold UpdateCDIPStageState. by repeat case_match.
  - unfold CompleteCoordinatorJob. by repeat case_match.
  - apply (CompleteJob_keyed s jobID req Hs).
  - unfold CancelJob. repeat case_match; simpl; rewrite ?schedule_conversations; done.
  - by rewrite Nodes_conversations.
  - pose proof (AppendConversationMessage_keyed s id modelID nodeID systemPrompt message Hs) as Ha.
destruct (AppendConversationMessage _ _ _ _ _ _) as [s' c]. apply Ha.
  - unfold DeleteConversation. case_match; [|done]. apply map_Forall_delete, Hs.
  - unfold DeleteMemory. by case_match.
  - unfold UpsertMemory. cbv zeta. by destruct (first_error _).
  - unfold DeleteMemoriesByModel. cbv zeta. case_match; [done|]. by destruct (delete_loop _ _ _).
Qed.
End world.
End store.

(** ** The invariant *)

Section turns.
Context `{ServerCodecs}.

Record turn_inv (s : State) : Prop := {
ti_wf : state_wf s;
ti_keyed : convs_keyed s;
ti_ids : st_jobs s !! ""%string = None;
ti_single cid id1 id2 j1 j2 : cid ≠ ""%string →
  st_jobs s !! id1 = Some j1 → st_jobs s !! id2 = Some j2 → busy cid j1 → busy cid j2 → id1 = id2;
}.
(** No generation of the conversation is open. *)
Definition idle (cid : string) (s : State) : Prop := ∀ id j, st_jobs s !! id = Some j → ¬ busy cid j.

Lemma turn_inv_init now : turn_inv (NewState now).
Proof. by split; [split; apply map_Forall_empty|apply map_Forall_empty| |]. Qed.

(** An open generation was open before. *)
Lemma lifecycle_busy cid j j' : lifecycle j j' → busy cid j' → busy cid j.
Proof.
intros Hl (Hg & Ho & Hc). pose proof (lifecycle_core _ _ Hl) as Hcore.
injection Hcore as _ HT _ HI _ _ _ _ _. unfold busy.
assert (is_generate j = is_generate j') as -> by (unfold is_generate; by rewrite HT).
assert (jobConversationID j = jobConversationID j') as -> by (unfold jobConversationID; by rewrite HT, HI).
split_and!; [done| |done]. unfold is_open in *. rewrite !orb_true_iff, !bool_decide_eq_true in *.
assert (is_active j = true → (job_Status j = StatusQueued ∨ job_Status j = StatusScheduled) ∨ job_Status j = StatusRunning)
  as Hact by (unfold is_active; rewrite orb_true_iff, !bool_decide_eq_true; tauto).
destruct Hl as [_ _ T|_ Hk _ _ _ _|_ _ _ _ _ Hst].
- destruct T as [[? _] _ _|[? _] _ _ _|? _ _ _|? _ _ _|? _ _ _|? _ _ _ _|? _ _ _|? _ _ _ _|_ Hst _ _]; auto.
  rewrite Hst in Ho. naive_solver.
- unfold stage_kind in Hk. unfold is_generate in Hg. rewrite HT, Hk in Hg. done.
- naive_solver congruence.
Qed.
Lemma rtc_busy cid j j' : rtc lifecycle j j' → busy cid j' → busy cid j.
Proof. induction 1 as [|j1 j2 j3 Hl _ IH]; [done|]. intros Hb. eapply lifecycle_busy; [exact Hl|auto]. Qed.

Section world.
Context `{W : World}.

Lemma quiet_origin s op id j' cid :
  state_wf s → quiet_op op → st_jobs (exec s op) !! id = Some j' → busy cid j' →
  ∃ j, st_jobs s !! id = Some j ∧ busy cid j.
Proof.
  intros Hwf Hq Hj' Hb. destruct (exec_origin s op id j' Hwf (quiet_op_ok _ Hq) Hj') as [(j & Hj & Hr)|Hnew].
  - exists j. split; [done|]. by eapply rtc_busy.
  - destruct Hnew as (req & Hreq & _ & HT & _). destruct Hb as [Hg _].
change (is_generate j') with (generates (job_Type j')) in Hg. rewrite HT in Hg.
assert (quiet_request req) as [_ Hno].
{ destruct op; try (by apply not_elem_of_nil in Hreq); simpl in *.
  - by apply list_elem_of_singleton in Hreq as ->.
  - rewrite Forall_forall in Hq. by apply Hq. }
congruence.
Qed.
Lemma quiet_ids s op :
  state_wf s → op_ok op → st_jobs s !! ""%string = None → st_jobs (exec s op) !! ""%string = None.
Proof.
  intros Hwf Hop Hno. destruct (st_jobs (exec s op) !! ""%string) as [j'|] eqn:E; [|done].
  destruct (exec_origin s op _ _ Hwf Hop E) as [(j & Hj & _)|(req & _ & ? & _)]; [congruence|done].
Qed.
Lemma quiet_idle s op cid : state_wf s → quiet_op op → idle cid s → idle cid (exec s op).
Proof.
  intros Hwf Hq Hi id j' Hj' Hb. destruct (quiet_origin _ _ _ _ _ Hwf Hq Hj' Hb) as (j & Hj & Hbj). by apply (Hi id j).
Qed.
Lemma quiet_inv s op : quiet_op op → turn_inv s → turn_inv (exec s op).
Proof.
  intros Hq [Hwf Hk Hi Hs]. split.
  - by apply (ss_wf _ _ _ _ (exec_step s op Hwf (quiet_op_ok _ Hq))).
  - by apply exec_keyed.
  - by apply quiet_ids; [|apply quiet_op_ok|].
  - intros cid id1 id2 j1 j2 Hne H1 H2 Hb1 Hb2.
destruct (quiet_origin _ _ _ _ _ Hwf Hq H1 Hb1) as (k1 & Hk1 & Hbk1).
destruct (quiet_origin _ _ _ _ _ Hwf Hq H2 Hb2) as (k2 & Hk2 & Hbk2). by eapply Hs.
Qed.

(** Creating a generation of an idle conversation keeps the invariant. *)
Lemma create_inv s req cid :
  turn_inv s → cr_MaxAttempts req < 2^63 → idle cid s →
  (∀ j, job_Type j = cr_Type req → job_Input j = cr_Input req → jobConversationID j = cid ∨ jobConversationID j = ""%string) →
  turn_inv (CreateJob s req).1.
Proof.
  intros [Hwf Hk Hi Hs] Hmax Hidle Hcid. split.
  - by apply (ss_wf _ _ _ _ (exec_step s (OpCreateJob req) Hwf Hmax)).
  - by apply (exec_keyed s (OpCreateJob req)).
  - by apply (quiet_ids s (OpCreateJob req)).
  - destruct (create_job_shape s ["create"] (w_clock ["now"]) req) as (job & E & _ & HT & HI).
unfold CreateJob. rewrite E. cbn [fst st_jobs]. specialize (Hcid job HT HI).
intros cid' id1 id2 j1 j2 Hne H1 H2 Hb1 Hb2. simpl in H1, H2.
apply lookup_insert_Some in H1 as [[<- <-]|[N1 H1]], H2 as [[<- <-]|[N2 H2]]; [done|..|by eapply Hs].
+ destruct Hb1 as (_ & _ & Hc). destruct Hcid as [Hcid|Hcid]; [|congruence].
  exfalso. apply (Hidle _ _ H2). by rewrite <- Hcid, Hc.
+ destruct Hb2 as (_ & _ & Hc). destruct Hcid as [Hcid|Hcid]; [|congruence].
  exfalso. apply (Hidle _ _ H1). by rewrite <- Hcid, Hc.
Qed.
End world.

(** ** Programs that keep it *)

Section programs.
Context `{W : World} `{Dialer} `{ErrorTexts}.

(** Wherever the program ends, the invariant holds. *)
Definition ends {A} (p : prog A) (srv : Server) : Prop :=
  wp p srv (λ _ srv, turn_inv (srv_state srv)) (λ _ srv, turn_inv (srv_state srv)) (λ srv, turn_inv (srv_state srv)).

Lemma ends_quiet {A} (p : prog A) srv : does quiet_op p → turn_inv (srv_state srv) → ends p srv.
Proof. intros Hp Hs. apply (does_wp quiet_op turn_inv); [|done..]. intros W' s op. apply quiet_inv. Qed.
Lemma ends_bind {A B} (p : prog A) (h : A → prog B) srv :
  does quiet_op p → turn_inv (srv_state srv) → (∀ a srv, turn_inv (srv_state srv) → ends (h a) srv) →
  ends (prog_bind p h) srv.
Proof.
  intros Hp Hs Hh. apply wp_bind. eapply wp_mono; [..|by apply (ends_quiet p)]; [|done..]. intros a srv' ?. by apply Hh.
Qed.
Lemma ends_guard {A} b resp (k : prog A) srv :
  turn_inv (srv_state srv) → (b = false → ends k srv) → ends (guard b resp k) srv.
Proof. intros Hs Hk. apply wp_guard. destruct b; [done|by apply Hk]. Qed.
Lemma ends_decoded {A B} `{!JsonBody A} r (k : A → prog B) srv :
  turn_inv (srv_state srv) → (∀ req, Decode (rq_Body r) = (req, true) → ends (k req) srv) → ends (decoded r k) srv.
Proof. intros Hs Hk. unfold decoded. destruct (Decode _) as [req [|]]; (apply ends_guard; [done|]); [auto|done]. Qed.

(** After the check the conversation is idle. *)
Lemma ends_idle {A} t cid (k : prog A) srv :
  TrimSpace cid = cid → cid ≠ ""%string → turn_inv (srv_state srv) →
  (idle cid (srv_state srv) → ends k srv) → ends (idle_conversation t cid k) srv.
Proof.
  intros Ht Hne Hs Hk. unfold idle_conversation, call_Jobs, store. unfold ends. simpl.
  assert (srv <| srv_state := srv_state srv |> = srv) as -> by (by destruct srv). apply ends_guard; [done|].
  intros [=Hb]. apply Hk. intros id j Hj Hbusy.
  rewrite negb_false_iff, bool_decide_eq_true in Hb.
  apply active_generate_none in Hb.
  - rewrite Forall_forall in Hb. apply (Hb j); [|by rewrite Ht]. apply range_values_elem. by exists id.
  - unfold blank. by rewrite Ht, bool_decide_eq_false_2.
  - apply Forall_forall. intros j' Hj'. apply range_values_elem in Hj' as [id' Hj']. destruct (wf_jobs _ (ti_wf _ Hs) _ _ Hj') as [-> _].
intros ->. by rewrite (ti_ids _ Hs) in Hj'.
Qed.

Lemma ends_open_turn {A} t m cid nodeID systemPrompt prompt n (h : _ → prog A) srv :
  turn_inv (srv_state srv) → idle cid (srv_state srv) →
  (∀ c e ms srv, turn_inv (srv_state srv) → idle cid (srv_state srv) → conv_ID c = cid → ends (h (c, e, ms)) srv) →
  ends (prog_bind (open_turn t m cid nodeID systemPrompt prompt n) h) srv.
Proof.
  intros Hs Hi Hh. unfold ends. rewrite wp_bind. unfold open_turn. simpl.
  pose proof (AppendConversationMessage_keyed (H0 := sub_world (t ++ ["append"])) (srv_state srv) cid (model_ID m) nodeID
systemPrompt (mkChatMessage "user" prompt) (ti_keyed _ Hs)) as Ha.
  pose proof (quiet_inv (W := sub_world (t ++ ["append"])) (srv_state srv)
(OpAppendConversationMessage cid (model_ID m) nodeID systemPrompt (mkChatMessage "user" prompt)) Logic.I Hs) as Hinv.
  cbn [exec] in Hinv. destruct (AppendConversationMessage _ _ _ _ _ _) as [s' c]. destruct Ha as (Hc & Hj & _).
  simpl in *. apply Hh; [done| |done]. intros id j. simpl. rewrite Hj. apply Hi.
Qed.

Lemma ends_create {A} t req cid (h : Job → prog A) srv :
  turn_inv (srv_state srv) → idle cid (srv_state srv) → cr_MaxAttempts req < 2^63 →
  (∀ j, job_Type j = cr_Type req → job_Input j = cr_Input req → jobConversationID j = cid ∨ jobConversationID j = ""%string) →
  (∀ j srv, turn_inv (srv_state srv) → ends (h j) srv) → ends (prog_bind (call_CreateJob t req) h) srv.
Proof.
  intros Hs Hi Hmax Hcid Hh. unfold ends, call_CreateJob, store. cbn [prog_bind wp].
  pose proof (create_inv (W := sub_world t) (srv_state srv) req cid Hs Hmax Hi Hcid) as Hinv.
  destruct (CreateJob _ _) as [s' j]. apply Hh. exact Hinv.
Qed.

(** ** The generate handlers *)

Lemma conversation_for_trimmed requested :
  TrimSpace (conversation_for requested) = conversation_for requested ∧ conversation_for requested ≠ ""%string.
Proof.
  unfold conversation_for. case_bool_decide as E; [|by rewrite TrimSpace_idemp].
  split; [apply TrimSpace_conv|by apply newID_ne].
Qed.

(** What [encoding/json] does to a conversation identifier: a decoded string is valid
    UTF-8 (what is not becomes U+FFFD), and a text that decodes to a value made of an
    encoded one has its valid strings as they were. *)
Class ConversationCodecs : Prop := {
  decodes_generate body req : Decode (A := GenerateRequest) body = (req, true) → valid_utf8 (gr_ConversationID req) = true;
  decodes_distributed body req :
    Decode (A := DistributedGenerateRequest) body = (req, true) → valid_utf8 (dg_ConversationID req) = true;
  keeps_generate (x y : GenerateInput) :
    valid_utf8 (gen_ConversationID x) = true → Unmarshal (Marshal x) = Some y → gen_ConversationID y = gen_ConversationID x;
  keeps_rpc (x y : DistributedRPCGenerateInput) :
    valid_utf8 (drg_ConversationID x) = true → Unmarshal (Marshal x) = Some y → drg_ConversationID y = drg_ConversationID x;
  keeps_distributed (x y : DistributedGenerateInput) :
    valid_utf8 (dgi_ConversationID x) = true → Unmarshal (Marshal x) = Some y → dgi_ConversationID y = dgi_ConversationID x;
}.
Context `{!ConversationCodecs}.

Lemma from_option_same {A B} (f : A → B) (d b : B) o : (∀ a, o = Some a → f a = b) → from_option f d o = b ∨ from_option f d o = d.
Proof. destruct o; naive_solver. Qed.
Lemma conversation_for_valid requested : valid_utf8 requested = true → valid_utf8 (conversation_for requested) = true.
Proof.
  intros Hv. unfold conversation_for. cbv zeta. case_bool_decide; [apply ascii_valid, newID_ascii; reflexivity|by apply TrimSpace_valid].
Qed.

Ltac ends_step :=
  cbv zeta;
  lazymatch goal with
  | |- ends (Ret _) _ => by unfold ends
  | |- ends (Stop _) _ => by unfold ends
  | |- ends (guard _ _ _) _ => apply ends_guard; [done|intros ?]
  | |- ends (decoded _ _) _ => apply ends_decoded; [done|intros ? ?]
  | |- ends (idle_conversation _ (conversation_for ?x) _) _ =>
  apply ends_idle; [apply (conversation_for_trimmed x)..|done|intros ?]
  | |- ends (prog_bind (open_turn _ _ _ _ _ _ _) _) _ =>
  apply ends_open_turn; [done..|]; intros ? ? ? ? ? ? ?
  | |- ends (prog_bind (summary_of _ _) _) _ =>
  apply ends_bind; [apply summary_of_does; by intros []|done|intros ? ? ?]
  | |- ends (match ?x with _ => _ end) _ => destruct x eqn:?
  end.
(** The job made from the input belongs to the conversation. *)
Ltac made_from keeps decodes :=
  intros j HT HI; unfold jobConversationID; rewrite HT; cbn -[Unmarshal Marshal];
  rewrite HI; apply from_option_same; intros ? Hdec; apply keeps in Hdec; simpl in *; [congruence|];
  lazymatch goal with
  | E : conv_ID ?c = _ |- valid_utf8 (conv_ID ?c) = true => rewrite E
  | _ => idtac
  end; eapply conversation_for_valid, decodes; eassumption.

Lemma generate_ends r m srv : turn_inv (srv_state srv) → ends (handleModelGenerate r m) srv.
Proof.
  intros Hs. unfold handleModelGenerate. repeat ends_step.
  eapply ends_create; [done..|made_from keeps_generate decodes_generate|]. intros. by unfold ends.
Qed.
Lemma rpc_generate_ends r m srv : turn_inv (srv_state srv) → ends (handleModelDistributedRPCGenerate r m) srv.
Proof.
  intros Hs. unfold handleModelDistributedRPCGenerate. repeat ends_step.
  apply ends_bind; [|done|intros ? ? ?].
  { unfold call_RPCPlan. apply does_health; [by intros []|intros; apply plan_run]. }
  repeat ends_step. eapply ends_create; [done..|made_from keeps_rpc decodes_generate|]. intros. by unfold ends.
Qed.
Lemma distributed_generate_ends r m srv : turn_inv (srv_state srv) → ends (handleModelDistributedGenerate r m) srv.
Proof.
  intros Hs. unfold handleModelDistributedGenerate. repeat ends_step.
  apply ends_bind; [|done|intros ? ? ?].
  { unfold call_Nodes. apply does_store. intros. apply (run_op_in _ _ OpNodes); [|done].
notypeclasses refine (ex_intro _ _ eq_refl). }
  repeat ends_step. eapply ends_create; [done..|made_from keeps_distributed decodes_distributed|]. intros parent srv9 Hs9.
  repeat ends_step. apply ends_bind; [|done|intros; by unfold ends].
  apply does_store. intros. eapply (run_op_in _ _ (OpCreateJobsBatch _));
[notypeclasses refine (ex_intro _ _ eq_refl)|]. by eapply stage_requests_ok.
Qed.

Lemma ends_operator r html k srv :
  turn_inv (srv_state srv) → ends k srv → ends (operator r html k) srv.
Proof.
  intros Hs Hk. apply wp_operator; [done|]. pose proof (require_cases srv r html) as Hc.
  destruct (hasOperatorAuth srv r); [exact Hk|]. destruct Hc as (resp & ? & ?). by exists resp.
Qed.
Lemma model_ends r srv : turn_inv (srv_state srv) → ends (handleModel r) srv.
Proof.
  intros Hs. unfold handleModel. apply ends_operator; [done|]. repeat ends_step;
lazymatch goal with
| |- ends (handleModelGenerate _ _) _ => by apply generate_ends
| |- ends (handleModelDistributedRPCGenerate _ _) _ => by apply rpc_generate_ends
| |- ends (handleModelDistributedGenerate _ _) _ => by apply distributed_generate_ends
| |- _ => apply ends_quiet; [|done];
    lazymatch goal with
    | |- does _ (handleModelDistributedPlan _ _) => apply handleModelDistributedPlan_does
    | |- does _ (handleModelDistributedRPCPlan _ _) => apply handleModelDistributedRPCPlan_does
    | |- does _ (handleModelDistributedRPCReadiness _ _) => apply handleModelDistributedRPCReadiness_does
    | |- does _ (handleModelDetail _ _) => apply handleModelDetail_does
    | |- does _ (handleModelPlacement _ _) => apply handleModelPlacement_does
    | |- does _ (handleModelInstall _ _) => apply handleModelInstall_does
    | |- does _ (handleModelDelete _ _) => apply handleModelDelete_does
    | |- does _ (handleModelRepair _ _) => apply handleModelRepair_does
    end
end.
Qed.
Lemma subtree_route_subtree path : is_subtree (subtree_route path).1 = true.
Proof.
  assert (subtree_route path ∈ filter (λ x, is_subtree x.1 = true) routes) as Hx.
  { apply longest_elem; [apply list_elem_of_filter; split; [reflexivity|by left]|].
intros x Hx. apply list_elem_of_filter in Hx as [[Hs _]%andb_prop Hin].
by apply list_elem_of_filter. }
  by apply list_elem_of_filter in Hx as [? _].
Qed.
Lemma ServeHTTP_ends r srv :
  rq_Path r ≠ "/v1/jobs"%string → turn_inv (srv_state srv) → ends (ServeHTTP r) srv.
Proof.
  intros Hpath Hs. pose proof routes_do as Hr. rewrite Forall_forall in Hr. unfold ServeHTTP.
  destruct (exact_route (rq_Path r)) as [[path h]|] eqn:E.
  - apply exact_route_elem in E as [Hin Hp]. simpl in Hp.
destruct (Hr _ Hin) as [Hq|[[= -> ->]|[= -> _]]]; [by apply ends_quiet; [apply Hq|]|by apply model_ends|done].
  - destruct (exact_route (rq_Path r +:+ "/")); [by unfold ends|].
destruct (Hr _ (subtree_route_elem (rq_Path r))) as [Hq|[Hx|Hx]]; rewrite ?Hx;
  [by apply ends_quiet; [apply Hq|]|by apply model_ends|].
pose proof (subtree_route_subtree (rq_Path r)) as Hsub. by rewrite Hx in Hsub.
Qed.

(** ** Properties *)

End programs.

Section properties.
Context `{Dialer} `{ErrorTexts} `{!ConversationCodecs}.

(** Served alone: a request that is not a raw job creation, or a tick. *)
Definition in_turn (p : prog Response) : Prop :=
  ∃ W : World, (∃ r, rq_Path r ≠ "/v1/jobs"%string ∧ p = ServeHTTP r) ∨ p = cdip_tick ∨ ∃ timeout, p = rpc_tick timeout.
Definition serve_all (srv : Server) (ps : list (prog Response)) : Server :=
  foldl (λ srv p, (run_prog p srv).1) srv ps.

Lemma in_turn_inv p srv : in_turn p → turn_inv (srv_state srv) → turn_inv (srv_state (run_prog p srv).1).
Proof.
  intros (W & Hp) Hs. assert (ends p srv) as He.
  { destruct Hp as [(r & Hr & ->)|[->|[t ->]]]; [by apply ServeHTTP_ends|apply ends_quiet; [|done]..].
- apply cdip_tick_does.
- apply rpc_tick_does. }
  apply wp_run in He. by destruct (run_prog p srv) as [srv' [resp| |]].
Qed.

(** C15 (invariant). From an empty store, after any requests and background ticks
served one after the other, other than raw job creations, no two open
generate jobs (plain, distributed or RPC) belong to the same conversation.
Of [encoding/json] it uses that decoded identifiers are valid UTF-8 and that
valid ones survive being encoded and decoded ([ConversationCodecs]). *)
Theorem one_generation_per_conversation (now : Time) (options : ServerOptions) (ps : list (prog Response))
(cid id1 id2 : string) (j1 j2 : Job) :
  Forall in_turn ps → cid ≠ ""%string →
  let s := srv_state (serve_all (NewServerWithOptions options (NewState now)) ps) in
  st_jobs s !! id1 = Some j1 → st_jobs s !! id2 = Some j2 → busy cid j1 → busy cid j2 → id1 = id2.
Proof.
  intros Hps Hne. cbv zeta.
  assert (turn_inv (srv_state (serve_all (NewServerWithOptions options (NewState now)) ps))) as Hinv.
  { assert (turn_inv (srv_state (NewServerWithOptions options (NewState now)))) as Hs0 by apply turn_inv_init.
revert Hs0. generalize (NewServerWithOptions options (NewState now)) as srv. clear id1 id2 j1 j2.
induction Hps as [|p ps Hp _ IH]; intros srv Hs; [done|]. cbn. apply IH. by apply in_turn_inv. }
  by apply (ti_single _ Hinv).
Qed.
End properties.
End turns.

(** ** Worked examples *)

Section demo.
#[local] Existing Instance silent_network.
#[local] Existing Instance no_texts.

(** A worker joins with a model, then two requests for one conversation arrive. *)
Definition turn_resources : ResourceSnapshot :=
mkResourceSnapshot (mkCPUResources 8 8) (mkMemoryResources 64 64) [] zero_storage 1
  [mkModelResource "qwen2.5-0.5b-instruct-q4-k-m" "" "" "" "" 1 true "" 0]
  [mkRuntimeResource "llama.cpp" true "" "" "" "" [] [] [] ""].
Definition turn_request : GenerateRequest :=
mkGenerateRequest (newID "node" (Some "w/join/node"%string)) "hi" "c" "" 0 "".
#[local] Instance turn_codecs : ServerCodecs :=
demo_server_codecs (mkJoinRequest "n" NodeRoleWorker "" "" turn_resources) turn_request (demo_stage "" "")
  (demo_frame "p" "s" "x") (mkCompleteRequest "" "" "").
#[local] Instance turn_conversations : ConversationCodecs.
Proof.
split; try done.
- intros body req [= <-]. vm_compute. reflexivity.
- intros body req [= <-]. vm_compute. reflexivity.
- intros x y _ [= <-]. done.
- intros x y _ [= <-]. done.
- intros x y _ [= <-]. done.
Qed.

Definition turn_program (salt method path : string) : prog Response :=
@ServeHTTP (salted_world salt 20) _ _ _ (demo_request_to method path).
Definition join_program : prog Response := turn_program "w" "POST" "/v1/workers/join".
Definition generate_program (salt : string) : prog Response :=
turn_program salt "POST" "/v1/models/qwen2.5-0.5b-instruct-q4-k-m/generate".
Definition empty_server : Server := NewServerWithOptions (mkServerOptions "" "" "") (NewState 1).
Definition joined_server : Server := (run_prog join_program empty_server).1.
Definition open_turns (srv : Server) : list string :=
(job_ID ∘ snd) <$> filter (λ kv, busy "c" kv.2) (map_to_list (st_jobs (srv_state srv))).
Definition status_of (p : prog Response) (srv : Server) : option Z :=
match (run_prog p srv).2 with Returned r => Some (rs_Status r) | _ => None end.

(** One after the other, the second request is refused. *)
Example second_turn_refused :
status_of (generate_program "1") joined_server = Some 201 ∧
status_of (generate_program "2") (run_prog (generate_program "1") joined_server).1 = Some 409.
Proof. vm_compute. done. Qed.

(** Interleaved, both pass the check before either creates its job: the
  conversation has two open generations. *)
Example race_two_generations :
∃ srv pool, rtc (pool_step (λ _, False)) (joined_server, [generate_program "1"; generate_program "2"]) (srv, pool) ∧
  length (open_turns srv) = 2%nat.
Proof.
pose proof (run_schedule_steps (λ _, False) [0; 0; 0; 0; 1; 1; 1; 1; 0; 0; 0; 1; 1; 1]%nat joined_server
  [generate_program "1"; generate_program "2"]) as Hr.
match type of Hr with rtc _ _ ?x => exists x.1, x.2; split; [by destruct x|] end. vm_compute. reflexivity.
Qed.

Definition turns_served : Server := serve_all empty_server [join_program; generate_program "1"; generate_program "2"].
Lemma one_generation_per_conversation_witness :
∃ id j, st_jobs (srv_state turns_served) !! id = Some j ∧ busy "c" j ∧
  ∀ id' j', st_jobs (srv_state turns_served) !! id' = Some j' → busy "c" j' → id' = id.
Proof.
set (id := newID "job" (Some "1/generate/job/job/create"%string)).
assert (∃ j, st_jobs (srv_state turns_served) !! id = Some j ∧ busy "c" j) as (j & Hj & Hb).
{ destruct (st_jobs (srv_state turns_served) !! id) as [j|] eqn:E; vm_compute in E; [|discriminate E].
  injection E as <-. eexists. split; [reflexivity|]. apply (bool_decide_unpack _). vm_compute. exact I. }
exists id, j. split; [exact Hj|]. split; [exact Hb|]. intros id' j' Hj' Hb'.
apply (one_generation_per_conversation 1 (mkServerOptions "" "" "")
  [join_program; generate_program "1"; generate_program "2"] "c" id' id j' j); try assumption; [|discriminate].
apply Forall_cons_2; [|apply Forall_cons_2; [|apply Forall_cons_2; [|by apply Forall_nil_2]]];
  (eexists; left; eexists; split; [|reflexivity]; discriminate).
Defined.
End demo.
