(* ===== verification/Paths.v ===== *)
(** * File paths

    [path/filepath] on Unix.  A path is split at slashes; [PathClean] removes
    empty and [.] components and resolves [..] lexically, and the other functions
    clean their results.  [locate] gives the components of the absolute path, the
    position of the path in the file tree of [Files]. *)

From S2P Require Import Prelude GoString.

Definition Separator : Ascii.ascii := Ascii.ascii_of_nat 47.

(** The components that name something. *)
Definition comps (path : string) : list string :=
  filter (λ c, c ≠ ""%string ∧ c ≠ "."%string) (Split path Separator).

(** One component against the components kept so far, last one first. *)
Definition clean_step (rooted : bool) (st : list string) (c : string) : list string :=
  if str_eqb c ".." then
    match st with
    | top :: rest => if str_eqb top ".." then c :: st else rest
    | [] => if rooted then [] else [c]
    end
  else c :: st.
Definition clean_comps (rooted : bool) (cs : list string) : list string := rev (foldl (clean_step rooted) [] cs).

Definition IsAbs (path : string) : bool := HasPrefix path "/".
Definition PathClean (path : string) : string :=
  let text := Join (clean_comps (IsAbs path) (comps path)) "/" in
  if IsAbs path then "/" +:+ text else if str_eqb text "" then "." else text.

(** filepath.Join: from the first element that is not empty. *)
Fixpoint PathJoin (elems : list string) : string :=
  match elems with
  | [] => ""
  | e :: rest => if str_eqb e "" then PathJoin rest else PathClean (Join elems "/")
  end.

(** filepath.Dir: all but what follows the last separator. *)
Definition PathDir (path : string) : string :=
  let parts := Split path Separator in
  PathClean (match parts with [] | [_] => "" | _ => Join (removelast parts) "/" +:+ "/" end).

(** filepath.Abs, in the working directory [wd]. *)
Definition PathAbs (wd path : string) : string := if IsAbs path then PathClean path else PathJoin [wd; path].
Definition locate (wd path : string) : list string := comps (PathAbs wd path).

(** ** Lemmas *)

(** A component that names something, and one that does not go up. *)
Definition name (c : string) : Prop := c ≠ ""%string ∧ c ≠ "."%string ∧ no_sep Separator c.
Definition proper (c : string) : Prop := name c ∧ c ≠ ".."%string.
#[export] Instance no_sep_dec sep s : Decision (no_sep sep s).
Proof. induction s as [|a s IH]; simpl; [by left|apply _]. Defined.
#[export] Instance proper_dec c : Decision (proper c).
Proof. unfold proper, name. apply _. Defined.

Lemma comps_names path : Forall name (comps path).
Proof.
  apply Forall_forall. intros c Hc. unfold comps in Hc. apply list_elem_of_filter in Hc as [[? ?] Hc].
  split_and!; [done..|]. pose proof (Split_parts Separator path) as Hp. rewrite Forall_forall in Hp. by apply Hp.
Qed.

Lemma comps_app a b : comps (a +:+ String Separator b) = comps a ++ comps b.
Proof. unfold comps. by rewrite Split_app, filter_app. Qed.
Lemma comps_slash path : comps ("/" +:+ path) = comps path.
Proof. change ("/" +:+ path) with ("" +:+ String Separator path). by rewrite comps_app. Qed.

Lemma comps_name c : name c → comps c = [c].
Proof. intros (? & ? & Hs). unfold comps. rewrite Split_whole by done. by rewrite filter_cons_True. Qed.

Lemma comps_Join cs : Forall name cs → comps (Join cs "/") = cs.
Proof.
  induction 1 as [|c cs Hc Hcs IH]; [done|]. destruct cs as [|d cs]; [by apply comps_name|].
  change (Join (c :: d :: cs) "/") with (c +:+ String Separator (Join (d :: cs) "/")).
  by rewrite comps_app, IH, comps_name.
Qed.

(** *** Cleaning *)

Lemma clean_step_name rooted st c : name c → Forall name st → Forall name (clean_step rooted st c).
Proof.
  intros Hc Hst. unfold clean_step. case_bool_decide; [|by constructor].
  destruct Hst as [|top st Ht Hst]; [destruct rooted; auto|]. case_bool_decide; auto.
Qed.
Lemma clean_fold_names rooted cs st : Forall name cs → Forall name st → Forall name (foldl (clean_step rooted) st cs).
Proof. intros Hcs. revert st. induction Hcs; intros st Hst; simpl; auto using clean_step_name. Qed.
Lemma clean_comps_names rooted cs : Forall name cs → Forall name (clean_comps rooted cs).
Proof. intros Hcs. unfold clean_comps. apply Forall_rev, clean_fold_names; [done|constructor]. Qed.

(** Proper components are kept. *)
Lemma clean_fold_proper rooted st cs :
  Forall (λ c, c ≠ ".."%string) cs → foldl (clean_step rooted) st cs = rev cs ++ st.
Proof.
  intros Hcs. revert st. induction Hcs as [|c cs Hc Hcs IH]; intros st; simpl; [done|].
  rewrite IH. unfold clean_step. rewrite bool_decide_eq_false_2 by done. by rewrite <- app_assoc.
Qed.
Lemma clean_comps_app rooted cs1 cs2 :
  Forall (λ c, c ≠ ".."%string) cs2 → clean_comps rooted (cs1 ++ cs2) = clean_comps rooted cs1 ++ cs2.
Proof.
  intros Hcs. unfold clean_comps. rewrite foldl_app, clean_fold_proper by done.
  by rewrite rev_app_distr, rev_involutive.
Qed.
Lemma clean_comps_proper rooted cs : Forall (λ c, c ≠ ".."%string) cs → clean_comps rooted cs = cs.
Proof. intros Hcs. by rewrite <- (app_nil_l cs), clean_comps_app. Qed.

(** Clean components: those that go up come first, and there are none when the
    path is rooted. *)
Definition clean (rooted : bool) (cs : list string) : Prop :=
  ∃ ups downs, cs = ups ++ downs ∧ Forall (λ c, c = ".."%string) ups ∧ Forall (λ c, c ≠ ".."%string) downs ∧
    (rooted = true → ups = []).

Lemma clean_step_clean rooted st c : clean rooted (rev st) → clean rooted (rev (clean_step rooted st c)).
Proof.
  intros (ups & downs & E & Hu & Hd & Hr). unfold clean_step. case_bool_decide as Hc.
  - destruct st as [|top st]; simpl in E.
    { destruct rooted; [exists [], []; by split_and!|]. exists [c], []. split_and!; try done; by constructor. }
    case_bool_decide as Ht.
    + subst. destruct downs as [|d downs _] using rev_ind.
      * rewrite app_nil_r in E. exists (ups ++ [".."%string]), []. simpl. rewrite E, app_nil_r. split_and!; [done| |done|].
        -- apply Forall_app_2; [done|by constructor].
        -- intros Hrt. rewrite (Hr Hrt) in E. by destruct (rev st).
      * rewrite app_assoc in E. apply app_inj_tail in E as [_ <-]. apply Forall_app in Hd as [_ Hd].
        by rewrite Forall_singleton in Hd.
    + destruct downs as [|d downs _] using rev_ind.
      * rewrite app_nil_r in E. subst ups. apply Forall_app in Hu as [_ Hu]. rewrite Forall_singleton in Hu. done.
      * rewrite app_assoc in E. apply app_inj_tail in E as [E _]. apply Forall_app in Hd as [Hd _].
        by exists ups, downs.
  - simpl. rewrite E. exists ups, (downs ++ [c]). rewrite app_assoc. split_and!; [done..| |done].
    apply Forall_app_2; [done|by constructor].
Qed.
Lemma clean_comps_clean rooted cs : clean rooted (clean_comps rooted cs).
Proof.
  unfold clean_comps. apply (foldl_invariant (λ st, clean rooted (rev st))).
  - exists [], []. by split_and!.
  - intros st c Hst. by apply clean_step_clean.
Qed.

Lemma clean_fold_up n st : Forall (λ c, c = ".."%string) st →
  foldl (clean_step false) st (replicate n ".."%string) = replicate n ".."%string ++ st.
Proof.
  revert st. induction n as [|n IH]; intros st Hst; [done|]. simpl.
  assert (clean_step false st ".." = ".."%string :: st) as ->.
  { unfold clean_step. simpl. destruct Hst as [|top st -> Hst]; done. }
  rewrite IH by by constructor. by rewrite app_comm_cons, replicate_cons_app, <- app_assoc.
Qed.

(** Clean components stay as they are. *)
Lemma clean_comps_id rooted cs : clean rooted cs → clean_comps rooted cs = cs.
Proof.
  intros (ups & downs & -> & Hu & Hd & Hr). rewrite clean_comps_app by done. f_equal. destruct rooted; [by rewrite Hr|].
  assert (ups = replicate (length ups) ".."%string) as ->.
  { clear Hr. induction Hu as [|c ups -> Hu IH]; [done|]. simpl. by rewrite <- IH. }
  unfold clean_comps. rewrite clean_fold_up by constructor. rewrite app_nil_r.
  generalize (length ups). intros n. induction n as [|n IH]; simpl; [done|]. by rewrite IH, <- replicate_cons_app.
Qed.

Lemma IsAbs_slash path : IsAbs ("/" +:+ path) = true.
Proof. done. Qed.
Lemma IsAbs_true path : IsAbs path = true ↔ ∃ rest, path = ("/" +:+ rest).
Proof.
  unfold IsAbs, HasPrefix. split.
  - intros H. destruct (drop_prefix "/" path) as [rest|] eqn:E; [|done]. exists rest. by apply drop_prefix_Some.
  - intros [rest ->]. done.
Qed.

Lemma Join_head c cs sep : ∃ rest, Join (c :: cs) sep = (c +:+ rest).
Proof. destruct cs as [|d cs]; [exists ""%string; by rewrite string_app_nil_r|by eexists]. Qed.
Lemma name_not_abs c rest : name c → IsAbs (c +:+ rest) = false.
Proof.
  intros (Hne & _ & Hs). destruct c as [|a c]; [done|]. destruct Hs as [Ha _].
  destruct (IsAbs _) eqn:E; [|done]. apply IsAbs_true in E as [r [= -> _]]. by destruct Ha.
Qed.

Lemma IsAbs_Clean path : IsAbs (PathClean path) = IsAbs path.
Proof.
  unfold PathClean. destruct (IsAbs path) eqn:E; [done|]. case_bool_decide; [done|].
  pose proof (clean_comps_names false _ (comps_names path)) as Hn. destruct Hn as [|c cs Hc Hn]; [done|].
  destruct (Join_head c cs "/") as [rest ->]. by apply name_not_abs.
Qed.

Lemma comps_Clean path : comps (PathClean path) = clean_comps (IsAbs path) (comps path).
Proof.
  assert (Hj : comps (Join (clean_comps (IsAbs path) (comps path)) "/") = clean_comps (IsAbs path) (comps path))
    by apply comps_Join, clean_comps_names, comps_names.
  unfold PathClean. destruct (IsAbs path) eqn:E; [by rewrite comps_slash|].
  case_bool_decide as Ht; [|done]. rewrite Ht in Hj. by rewrite <- Hj.
Qed.

Lemma Clean_idemp path : PathClean (PathClean path) = PathClean path.
Proof.
  assert (clean_comps (IsAbs path) (comps (PathClean path)) = clean_comps (IsAbs path) (comps path)) as E.
  { rewrite comps_Clean. apply clean_comps_id, clean_comps_clean. }
  unfold PathClean at 1. rewrite IsAbs_Clean, E. reflexivity.
Qed.

(** Cleaning a relative part first changes nothing. *)
Lemma clean_fold_clean rooted st cs :
  foldl (clean_step rooted) st (clean_comps false cs) = foldl (clean_step rooted) st cs.
Proof.
  unfold clean_comps. induction cs as [|c cs IH] using rev_ind; [done|]. rewrite !foldl_app, <- IH. simpl.
  generalize (foldl (clean_step false) [] cs). intros kept. unfold clean_step at 2.
  case_bool_decide as Hc; [|simpl; by rewrite foldl_app]. destruct kept as [|top kept]; [done|].
  case_bool_decide as Ht; simpl; rewrite ?foldl_app; [done|]. simpl. unfold clean_step at 3.
  rewrite bool_decide_eq_false_2 by done. unfold clean_step at 2.
  by rewrite bool_decide_eq_true_2, bool_decide_eq_false_2.
Qed.
Lemma clean_comps_clean_app rooted cs ds : clean_comps rooted (cs ++ clean_comps false ds) = clean_comps rooted (cs ++ ds).
Proof. unfold clean_comps at 1 3. by rewrite !foldl_app, clean_fold_clean. Qed.

(** *** Absolute paths *)

Lemma Abs_IsAbs wd path : IsAbs wd = true → IsAbs (PathAbs wd path) = true.
Proof.
  intros Hwd. unfold PathAbs. destruct (IsAbs path) eqn:E; [by rewrite IsAbs_Clean|].
  apply IsAbs_true in Hwd as [rest ->]. simpl. rewrite IsAbs_Clean. reflexivity.
Qed.

(** Where a path leads: its components after those of the working directory,
    cleaned. *)
Lemma locate_comps wd path :
  IsAbs wd = true →
  locate wd path = clean_comps true ((if IsAbs path then [] else comps wd) ++ comps path).
Proof.
  intros Hwd. unfold locate, PathAbs. destruct (IsAbs path) eqn:E; [by rewrite comps_Clean, E|].
  pose proof Hwd as [rest ->]%IsAbs_true. cbn [PathJoin]. rewrite bool_decide_eq_false_2 by done.
  change (Join ["/" +:+ rest; path] "/") with (("/" +:+ rest) +:+ String Separator path).
  rewrite comps_Clean, comps_app. done.
Qed.
Lemma locate_proper wd path : IsAbs wd = true → Forall proper (locate wd path).
Proof.
  intros Hwd. rewrite locate_comps by done. set (cs := _ ++ _).
  assert (Forall name cs) as Hn by (apply Forall_app_2; [destruct (IsAbs path); [constructor|]|]; apply comps_names).
  apply (clean_comps_names true) in Hn. destruct (clean_comps_clean true cs) as (ups & downs & E & _ & Hd & Hr).
  rewrite (Hr eq_refl) in E. simpl in E. rewrite E in *. rewrite Forall_forall in *. intros c Hc. split; auto.
Qed.

(** Joining proper components to a path goes down from where the path leads. *)
Lemma locate_below wd root cs path :
  IsAbs wd = true → Forall (λ c, c ≠ ".."%string) cs → IsAbs path = IsAbs root → comps path = comps root ++ cs →
  locate wd path = locate wd root ++ cs.
Proof.
  intros Hwd Hcs Ha Hc. rewrite !locate_comps, Ha, Hc by done. by rewrite app_assoc, clean_comps_app.
Qed.

(** The elements of a join that are not empty. *)
Lemma PathJoin_comps root rest :
  root ≠ ""%string → IsAbs (PathJoin (root :: rest)) = IsAbs root ∧
  comps (PathJoin (root :: rest)) = clean_comps (IsAbs root) (comps root ++ (rest ≫= comps)).
Proof.
  intros Hroot. cbn [PathJoin]. rewrite bool_decide_eq_false_2 by done.
  assert (Habs : IsAbs (Join (root :: rest) "/") = IsAbs root).
  { destruct (Join_head root rest "/") as [s ->]. destruct root as [|a root]; [done|].
    by destruct a as [[] [] [] [] [] [] [] []]. }
  assert (Hcs : comps (Join (root :: rest) "/") = comps root ++ (rest ≫= comps)).
  { clear Hroot Habs. revert root. induction rest as [|e rest IH]; intros root; [by rewrite app_nil_r|].
    change (Join (root :: e :: rest) "/") with (root +:+ String Separator (Join (e :: rest) "/")).
    by rewrite comps_app, IH. }
  by rewrite IsAbs_Clean, comps_Clean, Habs, Hcs.
Qed.
Lemma locate_Join wd root rest :
  IsAbs wd = true → root ≠ ""%string → Forall (λ c, c ≠ ".."%string) (rest ≫= comps) →
  locate wd (PathJoin (root :: rest)) = locate wd root ++ (rest ≫= comps).
Proof.
  intros Hwd Hroot Hrest. destruct (PathJoin_comps root rest Hroot) as [Ha Hc].
  rewrite !locate_comps, Ha, Hc by done. rewrite (clean_comps_app (IsAbs root)) by done.
  rewrite app_assoc, (clean_comps_app true) by done. f_equal.
  destruct (IsAbs root); [apply clean_comps_id, clean_comps_clean|by rewrite clean_comps_clean_app].
Qed.

(** *** The directory of a path *)

Lemma Split_Join cs : Forall (no_sep Separator) cs → cs ≠ [] → Split (Join cs "/") Separator = cs.
Proof.
  intros Hcs Hne. induction Hcs as [|c cs Hc Hcs IH]; [done|]. destruct cs as [|d cs]; [by apply Split_whole|].
  change (Join (c :: d :: cs) "/") with (c +:+ String Separator (Join (d :: cs) "/")).
  rewrite Split_head by done. by rewrite IH.
Qed.
Lemma names_no_sep cs : Forall name cs → Forall (no_sep Separator) cs.
Proof. intros Hcs. eapply Forall_impl; [exact Hcs|]. by intros c (_ & _ & ?). Qed.

(** A clean path is its components joined. *)
Lemma clean_text path c cs :
  PathClean path = path → comps path = c :: cs →
  path = (if IsAbs path then "/" +:+ Join (c :: cs) "/" else Join (c :: cs) "/") ∧
  clean_comps (IsAbs path) (c :: cs) = c :: cs.
Proof.
  intros Hp Hc. assert (Hid : clean_comps (IsAbs path) (c :: cs) = c :: cs) by (by rewrite <- Hc, <- comps_Clean, Hp).
  split; [|done]. rewrite <- Hp at 1. unfold PathClean. rewrite Hc, Hid. destruct (IsAbs path); [done|].
  rewrite bool_decide_eq_false_2; [done|]. pose proof (comps_names path) as Hn. rewrite Hc in Hn.
  apply Forall_cons in Hn as [(Hne & _) _]. destruct (Join_head c cs "/") as [rest ->]. by destruct c.
Qed.

Lemma PathDir_snoc path cs c :
  PathClean path = path → comps path = cs ++ [c] →
  IsAbs (PathDir path) = IsAbs path ∧ comps (PathDir path) = cs.
Proof.
  intros Hp Hc. pose proof (comps_names path) as Hn. rewrite Hc in Hn.
  assert (Hcl : clean_comps (IsAbs path) cs = cs).
  { assert (clean_comps (IsAbs path) (cs ++ [c]) = cs ++ [c]) as Hid by (by rewrite <- Hc, <- comps_Clean, Hp).
    pose proof (clean_comps_clean (IsAbs path) (cs ++ [c])) as (ups & downs & E & Hu & Hd & Hr). rewrite Hid in E.
    apply clean_comps_id. destruct downs as [|d downs _] using rev_ind.
    - rewrite app_nil_r in E. rewrite <- E in Hu. apply Forall_app in Hu as [Hu _].
      exists cs, []. rewrite app_nil_r. split_and!; [done..|]. intros Ha. specialize (Hr Ha). rewrite <- E in Hr. by destruct cs.
    - rewrite app_assoc in E. apply app_inj_tail in E as [-> ->]. apply Forall_app in Hd as [Hd _]. by exists ups, downs. }
  assert (Hsplit : Split path Separator = (if IsAbs path then [""%string] else []) ++ cs ++ [c]).
  { destruct (cs ++ [c]) as [|d ds] eqn:E; [by destruct cs|]. destruct (clean_text path d ds Hp Hc) as [Ht _].
    rewrite Ht at 1. apply names_no_sep in Hn. destruct (IsAbs path); [|by apply Split_Join].
    change ("/" +:+ Join (d :: ds) "/") with ("" +:+ String Separator (Join (d :: ds) "/")).
    rewrite Split_head by done. by rewrite Split_Join. }
  apply Forall_app in Hn as [Hn _]. pose proof (names_no_sep cs Hn) as Hs.
  unfold PathDir. rewrite Hsplit. destruct (IsAbs path) eqn:Ha; simpl app.
  - destruct cs as [|d cs]; [done|]. change (removelast ("" :: (d :: cs) ++ [c])) with ("" :: removelast ((d :: cs) ++ [c])).
    rewrite removelast_last. cbn [app]. change (Join ("" :: d :: cs) "/" +:+ "/") with ("/" +:+ (Join (d :: cs) "/" +:+ "/")).
    rewrite IsAbs_Clean, comps_Clean. split; [done|]. rewrite IsAbs_slash, comps_slash.
    change (Join (d :: cs) "/" +:+ "/") with (Join (d :: cs) "/" +:+ String Separator "").
    rewrite comps_app, comps_Join by done. by rewrite app_nil_r.
  - destruct cs as [|d cs]; [done|]. cbn [app]. destruct (cs ++ [c]) as [|e es] eqn:E; [by destruct cs|].
    rewrite <- E. change (removelast (d :: cs ++ [c])) with (removelast ((d :: cs) ++ [c])). rewrite removelast_last.
    assert (Habs : IsAbs (Join (d :: cs) "/" +:+ "/") = false).
    { destruct (Join_head d cs "/") as [rest ->]. rewrite <- string_app_assoc. apply name_not_abs.
      by apply Forall_cons in Hn as [? _]. }
    rewrite IsAbs_Clean, comps_Clean, Habs. split; [done|].
    change (Join (d :: cs) "/" +:+ "/") with (Join (d :: cs) "/" +:+ String Separator "").
    rewrite comps_app, comps_Join by done. by rewrite app_nil_r.
Qed.
(** The directory of a path that ends in a name is one level up. *)
Lemma locate_Dir wd path cs c :
  IsAbs wd = true → PathClean path = path → comps path = cs ++ [c] → c ≠ ".."%string →
  locate wd path = locate wd (PathDir path) ++ [c].
Proof.
  intros Hwd Hp Hc Hup. destruct (PathDir_snoc path cs c Hp Hc) as [Ha Hd].
  rewrite !locate_comps, Ha, Hd, Hc by done. by rewrite app_assoc, clean_comps_app by (by constructor).
Qed.

Lemma Join_cons c ds sep : ds ≠ [] → Join (c :: ds) sep = (c +:+ sep +:+ Join ds sep).
Proof. by destruct ds. Qed.
(** Text appended to the last name of a path. *)
Lemma path_append path cs c s :
  PathClean path = path → comps path = cs ++ [c] → name (c +:+ s) →
  IsAbs (path +:+ s) = IsAbs path ∧ comps (path +:+ s) = cs ++ [c +:+ s].
Proof.
  intros Hp Hc Hs. pose proof (comps_names path) as Hn. rewrite Hc in Hn. apply Forall_app in Hn as [Hn _].
  destruct (cs ++ [c]) as [|d ds] eqn:E; [by destruct cs|]. destruct (clean_text path d ds Hp Hc) as [Ht _]. rewrite <- E in Ht.
  assert (Hj : (Join (cs ++ [c]) "/" +:+ s) = Join (cs ++ [c +:+ s]) "/").
  { clear. induction cs as [|d cs IH]; [done|]. simpl app.
    rewrite !Join_cons by (by destruct cs). by rewrite <- !string_app_assoc, IH. }
  assert (Hcs : comps (Join (cs ++ [c +:+ s]) "/") = cs ++ [c +:+ s]) by (apply comps_Join, Forall_app_2; [done|by constructor]).
  destruct (IsAbs path) eqn:Ha; rewrite Ht.
  - rewrite <- string_app_assoc, Hj. by rewrite comps_slash.
  - rewrite Hj, Hcs. split; [|done]. destruct cs as [|d' cs]; simpl app.
    + rewrite <- (string_app_nil_r (Join _ _)). by apply name_not_abs.
    + destruct (Join_head d' (cs ++ [c +:+ s]) "/") as [rest Hr]. simpl app in Hr. rewrite Hr. apply name_not_abs.
      by apply Forall_cons in Hn as [? _].
Qed.
Lemma locate_append wd path cs c s :
  IsAbs wd = true → PathClean path = path → comps path = cs ++ [c] → c ≠ ".."%string → proper (c +:+ s) →
  ∃ dir, locate wd path = dir ++ [c] ∧ locate wd (path +:+ s) = dir ++ [c +:+ s].
Proof.
  intros Hwd Hp Hc Hup [Hn Hs]. destruct (path_append path cs c s Hp Hc Hn) as [Ha Hcs].
  rewrite !locate_comps, Ha, Hcs, Hc by done. rewrite !app_assoc, (clean_comps_app true _ [c]), (clean_comps_app true _ [c +:+ s]) by (by constructor). by eexists.
Qed.
