(* ===== verification/Files.v ===== *)
(** * The worker's file tree

    What the worker uses of [os] and [path/filepath.WalkDir], on Unix: a map from
    the components of absolute paths to files and directories.  Permissions,
    symbolic links and other processes are left out; each call may fail, by the
    choices of the environment ([Files]), and a call that fails half-way has done
    the part the environment says. *)

From S2P Require Import Prelude GoString GoSort World Paths.

Inductive entry :=
  | EDir
  | EFile (data : string) (modified : Time).
#[export] Instance entry_eq_dec : EqDecision entry.
Proof. solve_decision. Defined.
Abbreviation place := (list string) (only parsing).
Abbreviation tree := (gmap (list string) entry) (only parsing).

Inductive os_error := ENOENT | ENOTDIR | EISDIR | ENOTEMPTY | EIO (what : string).
Definition IsNotExist (e : os_error) : bool := match e with ENOENT => true | _ => false end.

Class Files := {
  wd : string;                        (** the working directory *)
  wd_abs : IsAbs wd = true;
  io_fault : Tag → option string;     (** the call at a place of the program fails *)
  io_part : Tag → nat;                (** how far a failing call got *)
  dir_size : Z;                       (** what [Size] says of a directory *)
}.

Definition is_dir (e : option entry) : bool := match e with Some EDir => true | _ => false end.
Definition is_file (e : option entry) : bool := match e with Some (EFile _ _) => true | _ => false end.

(** The places above a place, and what is below one. *)
Definition above (p : place) : list place := (λ n, take n p) <$> seq 0 (length p).
Definition parent (p : place) : place := removelast p.
Fixpoint strip (p k : place) : option place :=
  match p, k with
  | [], _ => Some k
  | c :: p, d :: k => if str_eqb c d then strip p k else None
  | _, _ => None
  end.
Definition below (p k : place) : bool := match strip p k with Some _ => true | None => false end.

(** The lexical order of a walk: a directory before its entries, these by name. *)
Fixpoint place_lt (a b : place) : bool :=
  match a, b with
  | [], [] => false
  | [], _ :: _ => true
  | _ :: _, [] => false
  | x :: a, y :: b => string_lt x y || (str_eqb x y && place_lt a b)
  end.

(** Everything at or below a place. *)
Definition subtree (fs : tree) (p : place) : list (place * entry) :=
  sort_by (λ x y, place_lt x.1 y.1) (filter (λ x, below p x.1) (map_to_list fs)).
Definition entries (fs : tree) (p : place) : list (string * entry) :=
  sort_by (λ x y, string_lt x.1 y.1)
    (omap (λ x, match strip p x.1 with Some [c] => Some (c, x.2) | _ => None end) (map_to_list fs)).

Section calls.
Context `{World} `{Files}.

Definition at_path (path : string) : place := locate wd path.
Definition Size (e : entry) : Z := match e with EFile data _ => Z.of_nat (String.length data) | EDir => dir_size end.

(** Why there is nothing at a place. *)
Definition missing (fs : tree) (p : place) : os_error :=
  if existsb (λ q, is_file (fs !! q)) (above p) then ENOTDIR else ENOENT.

Definition os_Stat (t : Tag) (fs : tree) (path : string) : result os_error entry :=
  match io_fault t with
  | Some e => Err (EIO e)
  | None => match fs !! at_path path with Some e => Ok e | None => Err (missing fs (at_path path)) end
  end.

Definition os_ReadDir (t : Tag) (fs : tree) (path : string) : result os_error (list (string * entry)) :=
  match io_fault t, fs !! at_path path with
  | Some e, _ => Err (EIO e)
  | None, Some EDir => Ok (entries fs (at_path path))
  | None, Some (EFile _ _) => Err ENOTDIR
  | None, None => Err (missing fs (at_path path))
  end.

Definition os_ReadFile (t : Tag) (fs : tree) (path : string) : result os_error string :=
  match io_fault t, fs !! at_path path with
  | Some e, _ => Err (EIO e)
  | None, Some EDir => Err EISDIR
  | None, Some (EFile data _) => Ok data
  | None, None => Err (missing fs (at_path path))
  end.

Definition make_dir (fs : tree) (p : place) : tree :=
  match fs !! p with Some _ => fs | None => <[p := EDir]> fs end.
Definition os_MkdirAll (t : Tag) (fs : tree) (path : string) : tree * option os_error :=
  let p := at_path path in
  let steps := above p ++ [p] in
  if existsb (λ q, is_file (fs !! q)) steps then (fs, Some ENOTDIR)
  else match io_fault t with
       | Some e => (foldl make_dir fs (take (io_part t) steps), Some (EIO e))
       | None => (foldl make_dir fs steps, None)
       end.

Definition os_Remove (t : Tag) (fs : tree) (path : string) : tree * option os_error :=
  let p := at_path path in
  match io_fault t, fs !! p with
  | Some e, _ => (fs, Some (EIO e))
  | None, Some (EFile _ _) => (delete p fs, None)
  | None, Some EDir => match p, entries fs p with _ :: _, [] => (delete p fs, None) | _, _ => (fs, Some ENOTEMPTY) end
  | None, None => (fs, Some (missing fs p))
  end.

(** Nothing to remove is no error; what is below goes first. *)
Definition os_RemoveAll (t : Tag) (fs : tree) (path : string) : tree * option os_error :=
  let p := at_path path in
  match io_fault t, fs !! p with
  | Some e, _ => (foldl (λ fs x, delete x.1 fs) fs (take (io_part t) (reverse (subtree fs p))), Some (EIO e))
  | None, Some _ => (foldl (λ fs x, delete x.1 fs) fs (reverse (subtree fs p)), None)
  | None, None => (fs, if IsNotExist (missing fs p) then None else Some (missing fs p))
  end.

(** [os.Create], and [os.OpenFile] to create or truncate. *)
Definition os_Create (t : Tag) (fs : tree) (path : string) : tree * option os_error :=
  let p := at_path path in
  match io_fault t, fs !! p with
  | Some e, _ => (fs, Some (EIO e))
  | None, Some EDir => (fs, Some EISDIR)
  | None, Some (EFile _ _) => (<[p := EFile "" (w_clock t)]> fs, None)
  | None, None => if is_dir (fs !! parent p) then (<[p := EFile "" (w_clock t)]> fs, None) else (fs, Some (missing fs p))
  end.
(** A write to the file that was opened; when its name has gone the bytes go to
    a file without a name. *)
Definition append_at (fs : tree) (p : place) (text : string) (now : Time) : tree :=
  match fs !! p with Some (EFile old _) => <[p := EFile (old +:+ text) now]> fs | _ => fs end.
Definition os_Append (t : Tag) (fs : tree) (path data : string) : tree * option os_error :=
  let p := at_path path in
  match io_fault t with
  | Some e => (append_at fs p (String.substring 0 (io_part t) data) (w_clock t), Some (EIO e))
  | None => (append_at fs p data (w_clock t), None)
  end.
Definition os_WriteFile (t : Tag) (fs : tree) (path data : string) : tree * option os_error :=
  match os_Create (t ++ ["open"%string]) fs path with
  | (fs, Some e) => (fs, Some e)
  | (fs, None) => os_Append (t ++ ["write"%string]) fs path data
  end.

(** [os.Rename] of a file (the program renames nothing else). *)
Definition os_Rename (t : Tag) (fs : tree) (from to : string) : tree * option os_error :=
  let p := at_path from in
  let q := at_path to in
  match io_fault t, fs !! p with
  | Some e, _ => (fs, Some (EIO e))
  | None, None => (fs, Some (missing fs p))
  | None, Some x =>
      match fs !! q with
      | Some EDir => (fs, Some EISDIR)
      | Some (EFile _ _) => (<[q := x]> (delete p fs), None)
      | None => if is_dir (fs !! parent q) then (<[q := x]> (delete p fs), None) else (fs, Some (missing fs q))
      end
  end.

(** ** filepath.WalkDir

    The calls of the function that walks, in order: an entry, or a directory
    that could not be read. *)
Inductive visit :=
  | Visit (p : place) (e : entry)
  | Unread (p : place) (err : os_error).

Definition readdir_fault (t : Tag) (p : place) : option string := io_fault (t ++ "readdir"%string :: p).
Definition walk_below (t : Tag) (root : place) (x : place * entry) : list visit :=
  if existsb (λ q, below root q && bool_decide (is_Some (readdir_fault t q))) (above x.1) then []
  else Visit x.1 x.2 ::
    match x.2, readdir_fault t x.1 with
    | EDir, Some e => [Unread x.1 (EIO e)]
    | _, _ => []
    end.
Definition walk (t : Tag) (fs : tree) (root : string) : list visit :=
  let p := at_path root in
  match io_fault t, fs !! p with
  | Some e, _ => [Unread p (EIO e)]
  | None, None => [Unread p (missing fs p)]
  | None, Some _ => subtree fs p ≫= walk_below t p
  end.
(** [entry.Name]. *)
Definition base (p : place) : string := default "" (last p).
End calls.

(** ** Lemmas *)

Lemma strip_Some p k r : strip p k = Some r ↔ k = p ++ r.
Proof.
  revert k. induction p as [|c p IH]; intros k; simpl; [naive_solver|]. destruct k as [|d k]; [naive_solver|].
  case_bool_decide as Hcd; [subst; rewrite IH; naive_solver|naive_solver].
Qed.
Lemma below_true p k : below p k = true ↔ ∃ r, k = p ++ r.
Proof.
  unfold below. split.
  - destruct (strip p k) as [r|] eqn:E; [|done]. intros _. exists r. by apply strip_Some.
  - intros [r Hk]. apply strip_Some in Hk. by rewrite Hk.
Qed.
Lemma below_refl p : below p p = true.
Proof. apply below_true. exists []. by rewrite app_nil_r. Qed.
Lemma below_trans p q k : below p q = true → below q k = true → below p k = true.
Proof. rewrite !below_true. intros [r ->] [s ->]. exists (r ++ s). by rewrite app_assoc. Qed.
Lemma below_app p r : below p (p ++ r) = true.
Proof. apply below_true. by exists r. Qed.

Lemma elem_of_above p q : q ∈ above p ↔ ∃ c r, p = q ++ c :: r.
Proof.
  unfold above. rewrite list_elem_of_fmap. setoid_rewrite elem_of_seq. split.
  - intros (n & -> & _ & Hn). destruct (drop n p) as [|c r] eqn:E; [|exists c, r; by rewrite <- E, take_drop].
    apply (f_equal length) in E. rewrite length_drop in E. simpl in *. lia.
  - intros (c & r & ->). exists (length q). rewrite take_app_length, length_app. simpl. split; [done|lia].
Qed.

#[export] Instance place_lt_swo : StrictWeakOrder place_lt.
Proof.
  assert (Hasym : ∀ a b, place_lt a b = true → place_lt b a = false).
  { induction a as [|x a IH]; intros [|y b]; simpl; try done. rewrite orb_true_iff, orb_false_iff, andb_true_iff, andb_false_iff.
    intros [Hlt|[->%bool_decide_eq_true Hlt]]; [|split; [apply string_lt_irrefl|eauto]].
    rewrite (string_lt_asym _ _ Hlt). split; [done|]. left. apply bool_decide_eq_false. intros ->.
    by rewrite string_lt_irrefl in Hlt. }
  assert (Htrans : ∀ a b c, place_lt a b = true → place_lt b c = true → place_lt a c = true).
  { induction a as [|x a IH]; intros [|y b] [|z c]; simpl; try done. rewrite !orb_true_iff, !andb_true_iff.
    intros [Hxy|[->%bool_decide_eq_true Hab]] [Hyz|[->%bool_decide_eq_true Hbc]];
      rewrite ?bool_decide_eq_true; eauto using string_lt_trans. }
  assert (Htot : ∀ a b, place_lt a b = false → place_lt b a = false → a = b).
  { induction a as [|x a IH]; intros [|y b]; simpl; try done. rewrite !orb_false_iff, !andb_false_iff.
    intros [Hxy Ha] [Hyx Hb]. pose proof (string_lt_total _ _ Hxy Hyx) as ->.
    rewrite !bool_decide_eq_true_2 in * by done. f_equal. naive_solver. }
  split; [done|]. intros a b c Hba Hcb. destruct (place_lt c a) eqn:E; [|done]. destruct (place_lt a b) eqn:E2.
  - by rewrite (Htrans _ _ _ E E2) in Hcb.
  - rewrite (Htot _ _ E2 Hba) in E. congruence.
Qed.

Lemma place_lt_above p c r : place_lt p (p ++ c :: r) = true.
Proof. induction p as [|x p IH]; simpl; [done|]. by rewrite bool_decide_eq_true_2, IH, orb_true_r. Qed.

Lemma elem_of_subtree fs p x : x ∈ subtree fs p ↔ fs !! x.1 = Some x.2 ∧ below p x.1 = true.
Proof.
  unfold subtree. rewrite elem_of_sort_by, list_elem_of_filter. destruct x as [k e].
  rewrite elem_of_map_to_list. simpl. rewrite Is_true_true. tauto.
Qed.
Lemma elem_of_entries fs p c e : (c, e) ∈ entries fs p ↔ fs !! (p ++ [c]) = Some e.
Proof.
  unfold entries. rewrite elem_of_sort_by, list_elem_of_omap. split.
  - intros ([k e'] & Hin & Heq). apply elem_of_map_to_list in Hin. simpl in Heq.
    destruct (strip p k) as [[|d [|]]|] eqn:E; try done. apply strip_Some in E as ->. by injection Heq as -> ->.
  - intros He. exists (p ++ [c], e). split; [by apply elem_of_map_to_list|]. simpl.
    by rewrite (proj2 (strip_Some p _ [c]) eq_refl).
Qed.
Lemma entries_nil fs p : entries fs p = [] ↔ ∀ c, fs !! (p ++ [c]) = None.
Proof.
  split.
  - intros E c. destruct (fs !! (p ++ [c])) as [e|] eqn:Hc; [|done].
    apply elem_of_entries in Hc. rewrite E in Hc. by apply not_elem_of_nil in Hc.
  - intros Hn. destruct (entries fs p) as [|[c e] l] eqn:E; [done|].
    assert (fs !! (p ++ [c]) = Some e) as Hc by (apply elem_of_entries; rewrite E; left). by rewrite Hn in Hc.
Qed.

(** *** What a call may change *)

(** Nothing but the places [P] differs. *)
Definition only (P : place → Prop) (fs fs' : tree) : Prop := ∀ k, ¬ P k → fs' !! k = fs !! k.

Lemma only_refl P fs : only P fs fs.
Proof. by intros k _. Qed.
Lemma only_trans P fs1 fs2 fs3 : only P fs1 fs2 → only P fs2 fs3 → only P fs1 fs3.
Proof. intros H1 H2 k Hk. by rewrite H2, H1. Qed.
Lemma only_weaken (P Q : place → Prop) fs fs' : (∀ k, P k → Q k) → only P fs fs' → only Q fs fs'.
Proof. intros HPQ H k Hk. apply H. auto. Qed.
Lemma only_insert (P : place → Prop) fs p e : P p → only P fs (<[p := e]> fs).
Proof. intros Hp k Hk. rewrite lookup_insert_ne; [done|]. by intros ->. Qed.
Lemma only_delete (P : place → Prop) fs p : P p → only P fs (delete p fs).
Proof. intros Hp k Hk. rewrite lookup_delete_ne; [done|]. by intros ->. Qed.
Lemma only_foldl {A} (P : place → Prop) (f : tree → A → tree) l fs :
  (∀ fs x, x ∈ l → only P fs (f fs x)) → only P fs (foldl f fs l).
Proof.
  revert fs. induction l as [|x l IH]; intros fs Hf; simpl; [apply only_refl|].
  eapply only_trans; [apply Hf; left|]. apply IH. intros. apply Hf. by right.
Qed.

(** *** Well-formed trees *)

(** The root is a directory, what has a name is in one, and names name. *)
Record tree_ok (fs : tree) : Prop := {
  tree_root : fs !! [] = Some EDir;
  tree_parent p c : is_Some (fs !! (p ++ [c])) → fs !! p = Some EDir;
  tree_names p : is_Some (fs !! p) → Forall proper p;
}.

Lemma tree_above fs p q : tree_ok fs → is_Some (fs !! p) → q ∈ above p → fs !! q = Some EDir.
Proof.
  intros Hok Hp (c & r & ->)%elem_of_above. revert Hp. induction r as [|d r IH] using rev_ind; intros Hp.
  - by apply (tree_parent fs Hok _ c).
  - rewrite app_comm_cons, app_assoc in Hp. apply IH. exists EDir. by apply (tree_parent fs Hok _ d).
Qed.
Lemma tree_leaf fs p c : tree_ok fs → fs !! p ≠ Some EDir → fs !! (p ++ [c]) = None.
Proof. intros Hok Hp. apply eq_None_not_Some. intros Hc. by apply Hp, (tree_parent fs Hok p c). Qed.

(** A check that evaluates. *)
Definition tree_check (fs : tree) : Prop :=
  fs !! [] = Some EDir ∧ map_Forall (λ p _, Forall proper p ∧ (p = [] ∨ fs !! parent p = Some EDir)) fs.
#[export] Instance tree_check_dec fs : Decision (tree_check fs).
Proof. unfold tree_check. apply _. Defined.
Lemma tree_check_ok fs : tree_check fs → tree_ok fs.
Proof.
  intros [Hr Hm]. split; [done| |].
  - intros p c [e He]. destruct (Hm _ _ He) as [_ [E|Hp]]; [by destruct p|]. unfold parent in Hp. by rewrite removelast_last in Hp.
  - intros p [e He]. by destruct (Hm _ _ He).
Qed.

Lemma parent_snoc p c : parent (p ++ [c]) = p.
Proof. apply removelast_last. Qed.

(** A file written over a file, or put in a directory. *)
Definition put_place (fs : tree) (p : place) : Prop :=
  is_file (fs !! p) = true ∨ (fs !! p = None ∧ is_dir (fs !! parent p) = true).
Lemma is_dir_true e : is_dir e = true ↔ e = Some EDir.
Proof. by destruct e as [[]|]. Qed.
Lemma is_file_true e : is_file e = true ↔ ∃ data m, e = Some (EFile data m).
Proof. destruct e as [[|d m]|]; naive_solver. Qed.

Lemma names_insert fs p e : tree_ok fs → Forall proper p → ∀ q, is_Some (<[p := e]> fs !! q) → Forall proper q.
Proof.
  intros Hok Hp q Hq. destruct (decide (p = q)) as [<-|Hne]; [done|].
  rewrite lookup_insert_ne in Hq by done. by apply (tree_names fs Hok).
Qed.
Lemma tree_ok_put fs p data m : tree_ok fs → Forall proper p → put_place fs p → tree_ok (<[p := EFile data m]> fs).
Proof.
  intros Hok Hpp Hp. assert (fs !! p ≠ Some EDir) as Hnd by (intros E; destruct Hp as [Hp|[Hp _]]; rewrite E in Hp; done).
  assert (p ≠ []) as Hne by (intros ->; by rewrite (tree_root fs Hok) in Hnd). split.
  - by rewrite lookup_insert_ne, (tree_root fs Hok).
  - intros q c Hc. destruct (decide (p = q)) as [<-|Hq].
    { rewrite lookup_insert_ne in Hc; [by rewrite tree_leaf in Hc; [destruct Hc|..]|].
      intros E. apply (f_equal length) in E. rewrite length_app in E. simpl in E. lia. }
    rewrite lookup_insert_ne by done. destruct (decide (p = q ++ [c])) as [->|Hqc].
    + destruct Hp as [Hf|[_ Hd]]; [|by rewrite parent_snoc in Hd; apply is_dir_true].
      apply is_file_true in Hf as (d & m' & E). eapply (tree_parent fs Hok). by eexists.
    + rewrite lookup_insert_ne in Hc by done. eauto using tree_parent.
  - by apply names_insert.
Qed.
Lemma tree_ok_mkdir fs p : tree_ok fs → Forall proper p → p ≠ [] → is_dir (fs !! parent p) = true → tree_ok (make_dir fs p).
Proof.
  intros Hok Hpp Hne Hd. unfold make_dir. destruct (fs !! p) eqn:E; [done|]. split.
  - by rewrite lookup_insert_ne, (tree_root fs Hok).
  - intros q c Hc. destruct (decide (p = q)) as [<-|Hq]; [by rewrite lookup_insert_eq|].
    rewrite lookup_insert_ne by done. destruct (decide (p = q ++ [c])) as [->|Hqc].
    + rewrite parent_snoc in Hd. by apply is_dir_true.
    + rewrite lookup_insert_ne in Hc by done. eauto using tree_parent.
  - by apply names_insert.
Qed.

(** Deleting places below others first. *)
Lemma foldl_delete_lookup {V} (l : list (place * V)) (fs : tree) k :
  foldl (λ fs x, delete x.1 fs) fs l !! k = if decide (k ∈ l.*1) then None else fs !! k.
Proof.
  revert fs. induction l as [|[p v] l IH]; intros fs; simpl; [done|]. rewrite IH.
  case_decide as Hl; case_decide as Hpl; try done.
  - destruct Hpl. by right.
  - apply elem_of_cons in Hpl as [->|?]; [|done]. apply lookup_delete_eq.
  - apply lookup_delete_ne. intros ->. apply Hpl. left.
Qed.
Lemma tree_ok_delete fs (l : list (place * entry)) :
  tree_ok fs → [] ∉ l.*1 → (∀ p c, p ∈ l.*1 → is_Some (fs !! (p ++ [c])) → p ++ [c] ∈ l.*1) →
  tree_ok (foldl (λ fs x, delete x.1 fs) fs l).
Proof.
  intros Hok Hroot Hl. split.
  - rewrite foldl_delete_lookup, decide_False by done. apply tree_root, Hok.
  - intros p c. rewrite !foldl_delete_lookup. case_decide as Hc; [by intros []|]. intros Hs.
    rewrite decide_False; [by apply (tree_parent fs Hok p c)|]. intros Hp. by apply Hc, Hl.
  - intros p. rewrite foldl_delete_lookup. case_decide; [by intros []|]. apply (tree_names fs Hok).
Qed.
Lemma tree_ok_delete_leaf fs p : tree_ok fs → p ≠ [] → (∀ c, fs !! (p ++ [c]) = None) → tree_ok (delete p fs).
Proof.
  intros Hok Hne Hleaf. apply (tree_ok_delete fs [(p, EDir)] Hok).
  - simpl. intros E%list_elem_of_singleton. congruence.
  - intros q c ->%list_elem_of_singleton [e He]. simpl in He. by rewrite Hleaf in He.
Qed.

(** The last entries of a walk are closed under going down. *)
Lemma take_reverse_sorted {A} (less : A → A → bool) (l : list A) n x y :
  StronglySorted (not_after less) l → x ∈ take n (reverse l) → y ∈ l → less x y = true → y ∈ take n (reverse l).
Proof.
  intros Hs Hx Hy Hlt. apply elem_of_reverse in Hy. rewrite <- (take_drop n (reverse l)) in Hy.
  apply elem_of_app in Hy as [?|Hy]; [done|]. exfalso.
  rewrite <- (reverse_involutive l), <- (take_drop n (reverse l)), reverse_app in Hs.
  assert (not_after less y x) as Hn by (eapply StronglySorted_app_1_elem_of; [exact Hs|by apply elem_of_reverse..]).
  unfold not_after in Hn. congruence.
Qed.
Lemma subtree_sorted fs p : StronglySorted (not_after (λ x y : place * entry, place_lt x.1 y.1)) (subtree fs p).
Proof.
  unfold subtree. assert (StrictWeakOrder (λ x y : place * entry, place_lt x.1 y.1)).
  { split; [intros x y; apply (swo_asym place_lt x.1 y.1)|intros x y z; apply (swo_negtrans place_lt x.1 y.1 z.1)]. }
  by apply sort_by_sorted.
Qed.
Lemma tree_ok_remove_all fs p n :
  tree_ok fs → p ≠ [] → tree_ok (foldl (λ fs x, delete x.1 fs) fs (take n (reverse (subtree fs p)))).
Proof.
  intros Hok Hp. set (l := take n (reverse (subtree fs p))).
  assert (Hin : ∀ x, x ∈ l → fs !! x.1 = Some x.2 ∧ below p x.1 = true).
  { intros x Hx. apply elem_of_subtree, elem_of_reverse. eapply elem_of_take in Hx as (i & Hx & _).
    by eapply list_elem_of_lookup_2. }
  apply tree_ok_delete; [done| |].
  - intros ([k e] & Hk & Hx)%list_elem_of_fmap. destruct (Hin _ Hx) as [_ Hb]. simpl in *. subst k.
    apply below_true in Hb as [r Hr]. by destruct p.
  - intros q c ([k e] & Hk & Hx)%list_elem_of_fmap [e' He']. destruct (Hin _ Hx) as [_ Hb]. simpl in *. subst k.
    apply list_elem_of_fmap. exists (q ++ [c], e'). split; [done|].
    apply (take_reverse_sorted (λ x y : place * entry, place_lt x.1 y.1) _ _ (q, e)).
    + apply subtree_sorted.
    + done.
    + apply elem_of_subtree. split; [done|]. simpl. by eapply below_trans; [|apply below_app].
    + apply place_lt_above.
Qed.

(** *** What each call does *)

(** A call keeps the tree well-formed and changes only [P]. *)
Definition changes (P : place → Prop) (fs fs' : tree) : Prop := only P fs fs' ∧ (tree_ok fs → tree_ok fs').

Lemma changes_refl P fs : changes P fs fs.
Proof. split; [apply only_refl|done]. Qed.
Lemma changes_trans P fs1 fs2 fs3 : changes P fs1 fs2 → changes P fs2 fs3 → changes P fs1 fs3.
Proof. intros [H1 H2] [H3 H4]. split; [by eapply only_trans|auto]. Qed.
Lemma changes_weaken (P Q : place → Prop) fs fs' : (∀ k, P k → Q k) → changes P fs fs' → changes Q fs fs'.
Proof. intros HPQ [H1 H2]. split; [by eapply only_weaken|done]. Qed.

Definition steps (p : place) (n : nat) : list place := (λ m, take m p) <$> seq 0 n.
Lemma above_steps p : above p ++ [p] = steps p (S (length p)).
Proof. unfold above, steps. rewrite seq_S, fmap_app. simpl. by rewrite firstn_all. Qed.
Lemma steps_take p n k : take k (steps p n) = steps p (k `min` n).
Proof.
  unfold steps. rewrite <- fmap_take. f_equal. revert k. generalize 0%nat. induction n as [|n IH]; intros i [|k]; simpl; [done..|].
  by rewrite IH.
Qed.
Lemma take_below n p : below (take n p) p = true.
Proof. apply below_true. exists (drop n p). by rewrite take_drop. Qed.

(** Directories made from the root down. *)
Record made (fs fs' : tree) (p : place) (n : nat) : Prop := {
  made_dirs m : (m < n)%nat → fs' !! take m p = Some EDir;
  made_kept k e : fs !! k = Some e → fs' !! k = Some e;
  made_changes : changes (λ k, below k p = true) fs fs';
  made_new k : fs' !! k = fs !! k ∨ (fs !! k = None ∧ fs' !! k = Some EDir);
}.
Lemma make_steps fs p n :
  Forall proper p → (n ≤ S (length p))%nat → (∀ m, is_file (fs !! take m p) = false) → made fs (foldl make_dir fs (steps p n)) p n.
Proof.
  intros Hpp Hn Hf. induction n as [|n IH]; [split; [lia|done|apply changes_refl|by left]|].
  destruct (IH ltac:(lia)) as [Hd Hk Hc Hnew]. unfold steps. rewrite seq_S, fmap_app, foldl_app. fold (steps p n).
  set (fs' := foldl make_dir fs (steps p n)) in *. simpl.
  assert (Hfile : is_file (fs' !! take n p) = false).
  { destruct (fs !! take n p) as [e|] eqn:E; [rewrite (Hk _ _ E), <- E; apply Hf|].
    destruct (Hnew (take n p)) as [->|[_ ->]]; [by rewrite E|done]. }
  assert (Hmk : ∀ k e, fs' !! k = Some e → make_dir fs' (take n p) !! k = Some e).
  { intros k e E. unfold make_dir. destruct (fs' !! take n p) eqn:En; [done|].
    rewrite lookup_insert_ne; [done|]. intros <-. congruence. }
  split.
  - intros m Hm. destruct (decide (m = n)) as [->|]; [|apply Hmk, Hd; lia].
    unfold make_dir. destruct (fs' !! take n p) as [[|d mt]|] eqn:En; [done..|apply lookup_insert_eq].
  - eauto.
  - eapply changes_trans; [exact Hc|]. split.
    + unfold make_dir. destruct (fs' !! take n p); [apply only_refl|]. apply only_insert, take_below.
    + intros Hok. destruct (decide (take n p = [])) as [E|Hne].
      { unfold make_dir. by rewrite E, (tree_root _ Hok). }
      apply tree_ok_mkdir; [done|by apply Forall_take|done|]. apply is_dir_true. destruct n as [|n]; [done|].
      assert (n < length p)%nat as Hlt by lia. destruct (lookup_lt_is_Some_2 p n Hlt) as [c Hpn].
      rewrite (take_S_r p n c) by done. rewrite parent_snoc. apply Hd. lia.
  - intros k. unfold make_dir. destruct (fs' !! take n p) eqn:En; [done|].
    destruct (decide (take n p = k)) as [<-|Hne]; [|by rewrite lookup_insert_ne].
    rewrite lookup_insert_eq. destruct (Hnew (take n p)) as [E|[E E']]; [rewrite En in E; auto|congruence].
Qed.

Section specs.
Context `{World} `{Files}.

Implicit Types fs : tree.

Lemma at_path_proper path : Forall proper (at_path path).
Proof. apply locate_proper, wd_abs. Qed.

Lemma not_file_above fs p m : existsb (λ q, is_file (fs !! q)) (above p ++ [p]) = false → is_file (fs !! take m p) = false.
Proof.
  intros E. rewrite above_steps in E. destruct (is_file (fs !! take m p)) eqn:Hf; [|done].
  rewrite <- E. symmetry. apply existsb_exists. exists (take m p). split; [|done].
  apply list_elem_of_In. unfold steps. apply list_elem_of_fmap. exists (m `min` length p)%nat. split.
  - destruct (Nat.le_ge_cases m (length p)); [by rewrite Nat.min_l|]. by rewrite Nat.min_r, !take_ge by lia.
  - apply elem_of_seq. lia.
Qed.

Lemma os_Stat_Ok t fs path e : os_Stat t fs path = Ok e → fs !! at_path path = Some e.
Proof. unfold os_Stat. destruct (io_fault t); [done|]. destruct (fs !! _); congruence. Qed.

(** [os.MkdirAll] only makes directories that were missing. *)
Lemma MkdirAll_spec t fs path :
  let '(fs', err) := os_MkdirAll t fs path in
  (∀ k e, fs !! k = Some e → fs' !! k = Some e) ∧ changes (λ k, below k (at_path path) = true) fs fs' ∧
  (err = None → ∀ q, below q (at_path path) = true → fs' !! q = Some EDir) ∧
  (∀ k, fs' !! k = fs !! k ∨ (fs !! k = None ∧ fs' !! k = Some EDir)).
Proof.
  unfold os_MkdirAll. set (p := at_path path). destruct (existsb _ _) eqn:Ef.
  { split_and!; [done|apply changes_refl|done|by left]. }
  assert (Hf := λ m, not_file_above fs p m Ef). rewrite above_steps. destruct (io_fault t).
  - rewrite steps_take. destruct (make_steps fs p (io_part t `min` S (length p)) (at_path_proper path) ltac:(lia) Hf) as [_ Hk Hc Hnew].
    by split_and!.
  - destruct (make_steps fs p (S (length p)) (at_path_proper path) ltac:(lia) Hf) as [Hd Hk Hc Hnew]. split_and!; [done..| |done].
    intros _ q [r Hr]%below_true. rewrite <- (take_app_length q r), <- Hr. apply Hd. rewrite Hr, length_app. lia.
Qed.

Lemma Remove_spec t fs path :
  let '(fs', err) := os_Remove t fs path in
  changes (λ k, k = at_path path) fs fs' ∧
  match err with
  | None => fs' = delete (at_path path) fs ∧ is_Some (fs !! at_path path)
  | Some e => fs' = fs ∧ (IsNotExist e = true → fs !! at_path path = None)
  end.
Proof.
  unfold os_Remove. set (p := at_path path).
  destruct (io_fault t); [by split; [apply changes_refl|]|]. destruct (fs !! p) as [[|data m]|] eqn:E.
  - destruct p as [|c p]; [by split; [apply changes_refl|]|].
    destruct (entries fs (c :: p)) as [|x l] eqn:En; [|by split; [apply changes_refl|]].
    split; [|by split]. split; [by apply only_delete|]. intros Hok. apply tree_ok_delete_leaf; [done..|]. by apply entries_nil.
  - split; [|by split]. split; [by apply only_delete|]. intros Hok. apply tree_ok_delete_leaf; [done| |].
    + intros Hp. by rewrite Hp, (tree_root fs Hok) in E.
    + intros c. apply tree_leaf; [done|]. by rewrite E.
  - split; [apply changes_refl|]. by split.
Qed.

Lemma RemoveAll_spec t fs path :
  at_path path ≠ [] →
  let '(fs', err) := os_RemoveAll t fs path in
  changes (λ k, below (at_path path) k = true) fs fs' ∧ (∀ k, fs' !! k = None ∨ fs' !! k = fs !! k) ∧
  (err = None → tree_ok fs → ∀ k, below (at_path path) k = true → fs' !! k = None).
Proof.
  intros Hp. unfold os_RemoveAll. set (p := at_path path) in *.
  assert (Hsub : ∀ n, let fs' := foldl (λ fs x, delete x.1 fs) fs (take n (reverse (subtree fs p))) in
    changes (λ k, below p k = true) fs fs' ∧ (∀ k, fs' !! k = None ∨ fs' !! k = fs !! k)).
  { intros n. simpl. split; [split|].
    - apply only_foldl. intros fs1 x Hx. apply only_delete. apply elem_of_take in Hx as (i & Hx & _).
      apply list_elem_of_lookup_2, elem_of_reverse, elem_of_subtree in Hx. tauto.
    - intros Hok. by apply tree_ok_remove_all.
    - intros k. rewrite foldl_delete_lookup. case_decide; auto. }
  destruct (io_fault t); [destruct (Hsub (io_part t)); by split_and!|]. destruct (fs !! p) as [e|] eqn:E.
  - specialize (Hsub (length (reverse (subtree fs p)))). rewrite firstn_all in Hsub. destruct Hsub. split_and!; [done..|].
    intros _ _ k Hk. rewrite foldl_delete_lookup. case_decide as Hin; [done|]. apply eq_None_not_Some. intros [e' He'].
    apply Hin, list_elem_of_fmap. exists (k, e'). split; [done|]. by apply elem_of_reverse, elem_of_subtree.
  - split_and!; [apply changes_refl|by right|]. intros _ Hok k [r ->]%below_true. apply eq_None_not_Some. intros Hs.
    destruct r as [|c r]; [rewrite app_nil_r in Hs; rewrite E in Hs; by destruct Hs|].
    assert (fs !! p = Some EDir) as Hd by (apply (tree_above fs (p ++ c :: r)); [done..|apply elem_of_above; eauto]). congruence.
Qed.

Lemma Create_spec t fs path :
  let '(fs', err) := os_Create t fs path in
  changes (λ k, k = at_path path) fs fs' ∧
  match err with
  | None => fs' !! at_path path = Some (EFile "" (w_clock t)) ∧ fs !! at_path path ≠ Some EDir
  | Some _ => fs' = fs
  end.
Proof.
  unfold os_Create. set (p := at_path path). destruct (io_fault t); [by split; [apply changes_refl|]|].
  destruct (fs !! p) as [[|data m]|] eqn:E.
  - by split; [apply changes_refl|].
  - split; [|by rewrite lookup_insert_eq]. split; [by apply only_insert|]. intros Hok. apply tree_ok_put; [done|apply at_path_proper|].
    left. by rewrite E.
  - destruct (is_dir (fs !! parent p)) eqn:Ed; [|by split; [apply changes_refl|]].
    split; [|by rewrite lookup_insert_eq]. split; [by apply only_insert|]. intros Hok. apply tree_ok_put; [done|apply at_path_proper|].
    right. by rewrite E.
Qed.

Lemma Append_spec t fs path data :
  let '(fs', err) := os_Append t fs path data in
  changes (λ k, k = at_path path) fs fs' ∧
  (∀ old m, fs !! at_path path = Some (EFile old m) →
    ∃ put m', fs' !! at_path path = Some (EFile (old +:+ put) m') ∧ (err = None → put = data)).
Proof.
  unfold os_Append. set (p := at_path path).
  assert (Hf : ∀ text now, changes (λ k, k = p) fs (append_at fs p text now)).
  { intros text now. unfold append_at. destruct (fs !! p) as [[|old m]|] eqn:E; [apply changes_refl| |apply changes_refl].
    split; [by apply only_insert|]. intros Hok. apply tree_ok_put; [done|apply at_path_proper|]. left. by rewrite E. }
  destruct (io_fault t); (split; [apply Hf|]); intros old m E; unfold append_at; rewrite E, lookup_insert_eq;
    by eexists _, _.
Qed.

Lemma WriteFile_spec t fs path data :
  let '(fs', err) := os_WriteFile t fs path data in
  changes (λ k, k = at_path path) fs fs' ∧
  (err = None → ∃ m, fs' !! at_path path = Some (EFile data m)).
Proof.
  unfold os_WriteFile. pose proof (Create_spec (t ++ ["open"%string]) fs path) as Hc.
  destruct (os_Create _ fs path) as [fs1 [e|]]; [by destruct Hc|]. destruct Hc as (Hc & E & _).
  pose proof (Append_spec (t ++ ["write"%string]) fs1 path data) as Ha. destruct (os_Append _ fs1 path data) as [fs2 err].
  destruct Ha as [Ha1 Ha2]. split; [by eapply changes_trans|]. intros ->.
  destruct (Ha2 _ _ E) as (put & m & E2 & Hput). rewrite Hput in E2 by done. by exists m.
Qed.

Lemma Rename_spec t fs from to :
  fs !! at_path from ≠ Some EDir →
  let '(fs', err) := os_Rename t fs from to in
  changes (λ k, k = at_path from ∨ k = at_path to) fs fs' ∧
  match err with
  | None => ∃ data m, fs !! at_path from = Some (EFile data m) ∧ fs' !! at_path to = Some (EFile data m) ∧
      (at_path from ≠ at_path to → fs' !! at_path from = None)
  | Some _ => fs' = fs
  end.
Proof.
  unfold os_Rename. set (p := at_path from). set (q := at_path to). intros Hnd.
  destruct (io_fault t); [by split; [apply changes_refl|]|].
  destruct (fs !! p) as [[|data m]|] eqn:E; [done| |by split; [apply changes_refl|]].
  assert (Hmv : (tree_ok fs → put_place (delete p fs) q) → changes (λ k, k = p ∨ k = q) fs (<[q := EFile data m]> (delete p fs)) ∧
    ∃ data0 m0, Some (EFile data m) = Some (EFile data0 m0) ∧ <[q := EFile data m]> (delete p fs) !! q = Some (EFile data0 m0) ∧
      (p ≠ q → <[q := EFile data m]> (delete p fs) !! p = None)).
  { intros Hput. split; [split|].
    - eapply only_trans; [apply only_delete|apply only_insert]; auto.
    - intros Hok. apply tree_ok_put; [|apply at_path_proper|by apply Hput]. apply tree_ok_delete_leaf; [done| |].
      + intros Hp. by rewrite Hp, (tree_root fs Hok) in E.
      + intros c. apply tree_leaf; [done|]. by rewrite E.
    - exists data, m. rewrite lookup_insert_eq. split_and!; [done..|]. intros Hpq.
      rewrite lookup_insert_ne by done. apply lookup_delete_eq. }
  unfold put_place in Hmv. destruct (fs !! q) as [[|data2 m2]|] eqn:Eq; [by split; [apply changes_refl|]| |].
  - apply Hmv. intros Hok. destruct (decide (p = q)) as [<-|Hpq]; [|left; by rewrite lookup_delete_ne, Eq].
    right. split; [apply lookup_delete_eq|]. apply is_dir_true. destruct p as [|c p _] using rev_ind.
    { by rewrite (tree_root fs Hok) in E. }
    rewrite parent_snoc, lookup_delete_ne; [apply (tree_parent fs Hok _ c); by eexists|].
    intros Hp. apply (f_equal length) in Hp. rewrite length_app in Hp. simpl in Hp. lia.
  - destruct (is_dir (fs !! parent q)) eqn:Ed; [|by split; [apply changes_refl|]].
    apply Hmv. intros _. right. destruct (decide (p = q)) as [<-|Hpq]; [congruence|]. rewrite lookup_delete_ne by done.
    split; [done|]. rewrite lookup_delete_ne; [done|]. intros Hp. by rewrite <- Hp, E in Ed.
Qed.
End specs.

(** *** Walks and directories that are there *)

Section walks.
Context `{World} `{Files}.
Implicit Types fs : tree.

Lemma elem_of_walk t fs root p e :
  Visit p e ∈ walk t fs root → fs !! p = Some e ∧ below (at_path root) p = true.
Proof.
  unfold walk. destruct (io_fault t); [by intros ?%list_elem_of_singleton|].
  destruct (fs !! at_path root); [|by intros ?%list_elem_of_singleton].
  intros ([k x] & Hin & Hk)%list_elem_of_bind. apply elem_of_subtree in Hk as [Hk Hb]. simpl in *.
  unfold walk_below in Hin. destruct (existsb _ _); [by apply not_elem_of_nil in Hin|].
  apply elem_of_cons in Hin as [[= -> ->]|Hin]; [done|]. exfalso. simpl in Hin.
  destruct x, (readdir_fault t k);
    (by apply not_elem_of_nil in Hin) || by apply list_elem_of_singleton in Hin.
Qed.

(** Two places, one above the other when both lead to a third. *)
Lemma below_linear p q k : below p k = true → below q k = true → below p q = true ∨ q ∈ above p.
Proof.
  rewrite !below_true. intros [r ->] [s E]. apply app_eq_inv in E as [(l & -> & _)|(l & -> & _)].
  - destruct l as [|c l]; [left; exists []; by rewrite !app_nil_r|right; apply elem_of_above; eauto].
  - left. eauto.
Qed.
Lemma below_above p q : below q p = true → q = p ∨ q ∈ above p.
Proof.
  intros [[|c r] ->]%below_true; [left; by rewrite app_nil_r|right; apply elem_of_above; eauto].
Qed.

(** Making directories around one that is there changes only what is below it. *)
Lemma MkdirAll_inside t fs path d :
  tree_ok fs → fs !! d = Some EDir → below d (at_path path) = true ∨ below (at_path path) d = true →
  let '(fs', err) := os_MkdirAll t fs path in
  changes (λ k, below d k = true) fs fs' ∧ fs' !! d = Some EDir ∧
  (err = None → fs' !! at_path path = Some EDir).
Proof.
  intros Hok Hd Hrel. pose proof (MkdirAll_spec t fs path) as Hs. destruct (os_MkdirAll t fs path) as [fs' err].
  destruct Hs as (Hk & [Ho Hw] & He & _). split_and!; [|by apply Hk|by intros; apply He, below_refl].
  split; [|done]. intros k Hnb. destruct (below k (at_path path)) eqn:Eb; [|apply Ho; by rewrite Eb].
  assert (k ∈ above d) as Hab.
  { destruct Hrel as [Hrel|Hrel].
    - destruct (below_linear d k (at_path path) Hrel Eb) as [?|?]; [by destruct Hnb|done].
    - destruct (below_above d k) as [->|?]; [by eapply below_trans|by rewrite below_refl in Hnb|done]. }
  rewrite (tree_above fs d k) by (done || by rewrite Hd). apply Hk, (tree_above fs d k); [done|by rewrite Hd|done].
Qed.
End walks.
