(* ===== verification/LlamaCpp.v ===== *)
(** * The llama.cpp runtime

    [internal/runtimes/llamacpp.go], [llamacpp_rpc.go] and [llamacpp_stage.go]:
    where the worker finds the [llama-cli] program, how it fetches a release and
    unpacks it, and the probes of the RPC server and of the experimental stage
    runtime.  The web, the archive formats of the standard library and the
    process's environment are the instance of [Host]. *)

From S2P Require Import Prelude GoString GoSort World Paths Files Transport Http.

(** ** The environment of the process *)

(** The answer to an HTTP GET: the body as the reads that return it, and the
    error it ends in. *)
Record web_reply := mkWebReply {
  wr_Status : Z;
  wr_ContentLength : Z;
  wr_Reads : list string;
  wr_Err : option string;
}.
Record zip_file := mkZipFile {
  zf_Name : string;
  zf_IsDir : bool;
  zf_Data : result string (string * option string);   (** [Open], then what reading gives *)
}.
Inductive tar_type := TypeDir | TypeReg | TypeOther.
Record tar_header := mkTarHeader {
  th_Name : string;
  th_Typeflag : tar_type;
  th_Data : string;
  th_Err : option string;
}.

Class Host := {
  look_path : string → option string;            (** exec.LookPath *)
  getenv : string → string;
  home_dir : option string;                      (** os.UserHomeDir, [None] for an error *)
  user_cache_dir : option string;                (** os.UserCacheDir *)
  temp_name : Tag → string;                      (** the name os.CreateTemp picks *)
  web_get : Tag → string → result string web_reply;
  read_zip : string → result string (list zip_file);
  (** the headers of a compressed archive and the error they end in, none at the end of the file *)
  read_tar_gz : string → result string (list tar_header * option string);
}.
Definition all_reads (r : web_reply) : string := foldr (λ a b, a +:+ b) "" (wr_Reads r).

(** ** Data *)

Definition LlamaCPPName : string := "llama.cpp".
Definition githubAPIURL : string := "https://api.github.com/repos/ggml-org/llama.cpp/releases/latest".
Definition fallbackLlamaCPPTag : string := "b9672".

Record RuntimeStatus := mkRuntimeStatus {
  rs_Name : string;
  rs_Ready : bool;
  rs_Version : string;
  rs_Platform : string;
  rs_BinaryPath : string;
  rs_Source : string;
  rs_Error : string;
}.
Record githubAssetObject := mkAssetObject { gao_Name : string; gao_BrowserDownloadURL : string }.
Record githubRelease := mkRelease { ghr_TagName : string; ghr_Assets : list githubAssetObject }.
Record asset := mkAsset { asset_Name : string; asset_URL : string }.

Inductive runtime_error :=
  | NotFoundInPath
  | RuntimeNotInstalled
  | BinaryNotFound (name : string)
  | FileFailed (e : os_error)
  | WebFailed (text : string)
  | LookupReturned (status : Z)
  | UndecodableRelease
  | ReleaseWithoutTag
  | ContextEnded
  | UnavailablePlatform (platform : string)
  | NoAsset (tag platform : string)
  | DownloadReturned (status : Z)
  | UnsupportedArchive (name : string)
  | ArchiveFailed (text : string)
  | UnsafeArchivePath (name : string)
  | CLIPathRequired | CLINotAccessible (e : os_error) | CLIIsDirectory | NoStageHooks | RPCServerNotInstalled
  | StageNotReady (blockers : list string) | StageExperimental (blockers : list string).
Class RuntimeTexts := { runtime_text : runtime_error → string }.

Definition HasSuffix (s p : string) : bool := HasPrefix (rev_string s) (rev_string p).

Section runtime.
Context `{World} `{Files} `{Platform} `{Host} `{RuntimeTexts} `{JsonBody githubRelease}.

(** ** Paths and names *)

Definition runtimeRoot (cacheDir : string) : string := PathJoin [cacheDir; "runtimes"%string].
Definition runtimeDir (cacheDir version : string) : string := PathJoin [runtimeRoot cacheDir; LlamaCPPName; version].
Definition on_windows : bool := str_eqb GOOS "windows".
Definition llamaBinaryName : string := if on_windows then "llama-cli.exe" else "llama-cli".
Definition platformKey : string := platform.

(** The path a walk from [root] passes for a place. *)
Definition walk_path (root : string) (p : place) : string :=
  match strip (at_path root) p with
  | None | Some [] => root
  | Some rel => PathJoin (root :: rel)
  end.

Fixpoint find_visit (root name : string) (visits : list visit) : result runtime_error string :=
  match visits with
  | [] => Ok ""
  | Unread _ err :: _ => Err (FileFailed err)
  | Visit p e :: rest =>
      if is_dir (Some e) || negb (str_eqb (base p) name) then find_visit root name rest else Ok (walk_path root p)
  end.
Definition findBinary (t : Tag) (fs : tree) (root name : string) : result runtime_error string :=
  match find_visit root name (walk t fs root) with
  | Err e => Err e
  | Ok found => if str_eqb found "" then Err (BinaryNotFound name) else Ok found
  end.

(** ** Where the program already is *)

Definition system_candidates : list string :=
  let unix := ["/opt/homebrew/bin/llama-cli"; "/usr/local/bin/llama-cli"; "/opt/local/bin/llama-cli";
               "/usr/bin/llama-cli"]%string in
  if on_windows then
    ["C:\Program Files\llama.cpp\llama-cli.exe"; "C:\Program Files\CMesh\llama-cli.exe"]%string ++ unix
  else unix.
(** The first candidate that is a file. *)
Fixpoint first_file (t : Tag) (fs : tree) (candidates : list string) : option string :=
  match candidates with
  | [] => None
  | candidate :: rest =>
      match os_Stat (t ++ [candidate]) fs candidate with
      | Ok info => if is_dir (Some info) then first_file t fs rest else Some candidate
      | Err _ => first_file t fs rest
      end
  end.
Definition FindSystemLlamaCPP (t : Tag) (fs : tree) : result runtime_error string :=
  match look_path llamaBinaryName with
  | Some cli => Ok cli
  | None => match first_file t fs system_candidates with Some c => Ok c | None => Err NotFoundInPath end
  end.

(** The versions in a runtime directory, last one first. *)
Fixpoint newest (t : Tag) (fs : tree) (root : string) (versions : list (string * entry)) : option (string * string) :=
  match versions with
  | [] => None
  | (version, e) :: rest =>
      if negb (is_dir (Some e)) then newest t fs root rest
      else match findBinary (t ++ [version]) fs (PathJoin [root; version]) llamaBinaryName with
           | Ok binary => Some (binary, version)
           | Err _ => newest t fs root rest
           end
  end.
Definition cachedLlamaCPPBinary (t : Tag) (fs : tree) (cacheDir : string) : result runtime_error (string * string) :=
  let root := PathJoin [runtimeRoot cacheDir; LlamaCPPName] in
  match os_ReadDir t fs root with
  | Err _ => Err RuntimeNotInstalled
  | Ok versions => match newest t fs root (reverse versions) with Some x => Ok x | None => Err RuntimeNotInstalled end
  end.

Definition LlamaCPPStatus (t : Tag) (fs : tree) (cacheDir : string) : RuntimeStatus :=
  match FindSystemLlamaCPP (t ++ ["system"%string]) fs with
  | Ok binary => mkRuntimeStatus LlamaCPPName true "" platformKey binary "system-path" ""
  | Err _ =>
      match cachedLlamaCPPBinary (t ++ ["cached"%string]) fs cacheDir with
      | Err e => mkRuntimeStatus LlamaCPPName false "" platformKey "" "cmesh-runtime-cache" (runtime_text e)
      | Ok (binary, version) =>
          mkRuntimeStatus LlamaCPPName true version platformKey binary "cmesh-runtime-cache" ""
      end
  end.

(** ** Older caches *)

(** Cache directories of earlier versions: the configured ones, then those below
    the home directory. *)
Definition legacyCacheDirs : list string :=
  let configured := TrimSpace (getenv "CMESH_LLAMA_CPP_LEGACY_CACHE_DIRS") in
  let listed :=
    if str_eqb configured "" then []
    else filter (λ s, s ≠ ""%string) (TrimSpace <$> Split configured (Ascii.ascii_of_nat 58)) in
  let optional name := let dir := TrimSpace (getenv name) in
    if str_eqb dir "" then [] else [PathJoin [dir; "cmesh"; "cache"]%string] in
  match home_dir with
  | None => listed
  | Some home =>
      if str_eqb home "" then listed
      else listed ++
        (if str_eqb GOOS "darwin" then [PathJoin [home; "Library"; "Caches"; "cmesh"; "cache"]%string]
         else if on_windows then
           optional "LOCALAPPDATA"%string ++ [PathJoin [home; "AppData"; "Local"; "cmesh"; "cache"]%string]
         else optional "XDG_CACHE_HOME"%string ++ [PathJoin [home; ".cache"; "cmesh"; "cache"]%string])
  end.

Definition copyFile (t : Tag) (fs : tree) (source target : string) : tree * option os_error :=
  match os_MkdirAll (t ++ ["mkdir"%string]) fs (PathDir target) with
  | (fs, Some e) => (fs, Some e)
  | (fs, None) =>
      match os_ReadFile (t ++ ["read"%string]) fs source with
      | Err e => (fs, Some e)
      | Ok data => os_WriteFile (t ++ ["write"%string]) fs target data
      end
  end.

Definition rel_text (rel : place) : string := match rel with [] => "." | _ => Join rel "/" end.
(** The function of the walk: directories are made, files copied. *)
Fixpoint copy_visits (t : Tag) (fs : tree) (source target : string) (visits : list visit) : tree * option os_error :=
  match visits with
  | [] => (fs, None)
  | Unread _ err :: _ => (fs, Some err)
  | Visit p e :: rest =>
      let rel := default [] (strip (at_path source) p) in
      let dst := PathJoin [target; rel_text rel] in
      let '(fs, err) :=
        match e with
        | EDir => os_MkdirAll (t ++ "dir"%string :: rel) fs dst
        | EFile _ _ => copyFile (t ++ "file"%string :: rel) fs (walk_path source p) dst
        end in
      match err with Some e => (fs, Some e) | None => copy_visits t fs source target rest end
  end.
Definition copyDir (t : Tag) (fs : tree) (source target : string) : tree * option os_error :=
  match os_RemoveAll (t ++ ["remove"%string]) fs target with
  | (fs, Some e) => (fs, Some e)
  | (fs, None) => copy_visits t fs source target (walk (t ++ ["walk"%string]) fs source)
  end.

(** The versions of one older cache, last one first: the first one that has the
    program is copied. *)
Fixpoint migrate_from (t : Tag) (fs : tree) (sourceRoot targetRoot : string) (versions : list (string * entry))
    : tree * option (result runtime_error (string * string)) :=
  match versions with
  | [] => (fs, None)
  | (version, e) :: rest =>
      let sourceDir := PathJoin [sourceRoot; version] in
      let t' := t ++ [version] in
      match is_dir (Some e), findBinary (t' ++ ["source"%string]) fs sourceDir llamaBinaryName with
      | true, Ok _ =>
          let targetDir := PathJoin [targetRoot; version] in
          match copyDir (t' ++ ["copy"%string]) fs sourceDir targetDir with
          | (fs, Some e) => (fs, Some (Err (FileFailed e)))
          | (fs, None) =>
              (fs, Some (match findBinary (t' ++ ["target"%string]) fs targetDir llamaBinaryName with
                         | Ok binary => Ok (binary, version)
                         | Err e => Err e
                         end))
          end
      | _, _ => migrate_from t fs sourceRoot targetRoot rest
      end
  end.
Fixpoint migrate_dirs (t : Tag) (fs : tree) (targetRoot : string) (dirs : list string)
    : tree * result runtime_error (string * string) :=
  match dirs with
  | [] => (fs, Err RuntimeNotInstalled)
  | legacyCacheDir :: rest =>
      let sourceRoot := PathJoin [runtimeRoot legacyCacheDir; LlamaCPPName] in
      if str_eqb (PathAbs wd sourceRoot) (PathAbs wd targetRoot) then migrate_dirs t fs targetRoot rest
      else match os_ReadDir (t ++ [legacyCacheDir]) fs sourceRoot with
           | Err _ => migrate_dirs t fs targetRoot rest
           | Ok versions =>
               match migrate_from (t ++ [legacyCacheDir]) fs sourceRoot targetRoot (reverse versions) with
               | (fs, Some res) => (fs, res)
               | (fs, None) => migrate_dirs t fs targetRoot rest
               end
           end
  end.
Definition migrateCachedLlamaCPP (t : Tag) (fs : tree) (cacheDir : string)
    : tree * result runtime_error (string * string) :=
  migrate_dirs t fs (PathJoin [runtimeRoot cacheDir; LlamaCPPName]) legacyCacheDirs.

(** ** Fetching a release *)

Definition web_bad (r : web_reply) : bool := (wr_Status r <? 200) || (300 <=? wr_Status r).

Definition fetchGitHubRelease (t : Tag) (url : string) : result runtime_error githubRelease :=
  match web_get t url with
  | Err text => Err (WebFailed text)
  | Ok resp =>
      if web_bad resp then Err (LookupReturned (wr_Status resp))
      else let '(release, ok) := Decode (A := githubRelease) (all_reads resp) in
           if negb ok then Err UndecodableRelease
           else if str_eqb (ghr_TagName release) "" then Err ReleaseWithoutTag else Ok release
  end.

Definition fallback_names : list string :=
  ["-bin-macos-arm64.tar.gz"; "-bin-macos-x64.tar.gz"; "-bin-ubuntu-x64.tar.gz"; "-bin-ubuntu-arm64.tar.gz";
   "-bin-win-cpu-x64.zip"; "-bin-win-cpu-arm64.zip"]%string.
Definition fallbackLlamaCPPRelease (tag : string) : githubRelease :=
  let base := "https://github.com/ggml-org/llama.cpp/releases/download/" +:+ tag +:+ "/llama-" +:+ tag in
  mkRelease tag ((λ name, mkAssetObject ("llama-" +:+ tag +:+ name) (base +:+ name)) <$> fallback_names).

(** Three attempts, with a wait before the later ones that the context may end. *)
Fixpoint fetch_attempts (t : Tag) (ctx : Context) (url : string) (attempt n : nat)
    : result runtime_error githubRelease + runtime_error :=
  match n with
  | O => inr UndecodableRelease
  | S n =>
      if (0 <? Z.of_nat attempt) && ctx_done ctx then inl (Err ContextEnded)
      else match fetchGitHubRelease (t ++ [Itoa (Z.of_nat attempt)]) url with
           | Ok release => inl (Ok release)
           | Err e => match n with O => inr e | S _ => fetch_attempts t ctx url (S attempt) n end
           end
  end.
Definition fetchLatestRelease (t : Tag) (ctx : Context) : result runtime_error githubRelease :=
  let tag := TrimSpace (getenv "CMESH_LLAMA_CPP_TAG") in
  let url := if str_eqb tag "" then githubAPIURL
             else "https://api.github.com/repos/ggml-org/llama.cpp/releases/tags/" +:+ tag in
  match fetch_attempts t ctx url 0 3 with
  | inl res => res
  | inr lastErr => if str_eqb tag "" then Ok (fallbackLlamaCPPRelease fallbackLlamaCPPTag) else Err lastErr
  end.

Definition wanted_suffix (goos goarch : string) : option string :=
  let key := goos +:+ "/" +:+ goarch in
  if str_eqb key "darwin/arm64" then Some "-bin-macos-arm64.tar.gz"%string
  else if str_eqb key "darwin/amd64" then Some "-bin-macos-x64.tar.gz"%string
  else if str_eqb key "linux/amd64" then Some "-bin-ubuntu-x64.tar.gz"%string
  else if str_eqb key "linux/arm64" then Some "-bin-ubuntu-arm64.tar.gz"%string
  else if str_eqb key "windows/amd64" then Some "-bin-win-cpu-x64.zip"%string
  else if str_eqb key "windows/arm64" then Some "-bin-win-cpu-arm64.zip"%string
  else None.
Fixpoint first_asset (want : string) (assets : list githubAssetObject) : option asset :=
  match assets with
  | [] => None
  | candidate :: rest =>
      if HasSuffix (gao_Name candidate) want && negb (str_eqb (gao_BrowserDownloadURL candidate) "")
      then Some (mkAsset (gao_Name candidate) (gao_BrowserDownloadURL candidate))
      else first_asset want rest
  end.
Definition selectLlamaCPPAsset (release : githubRelease) (goos goarch : string) : result runtime_error asset :=
  match wanted_suffix goos goarch with
  | None => Err (UnavailablePlatform (goos +:+ "/" +:+ goarch))
  | Some want =>
      match first_asset want (ghr_Assets release) with
      | Some a => Ok a
      | None => Err (NoAsset (ghr_TagName release) (goos +:+ "/" +:+ goarch))
      end
  end.

(** ** Unpacking *)

Definition safeArchivePath (root archiveName : string) : result runtime_error string :=
  let clean := PathClean archiveName in
  if IsAbs clean || str_eqb clean ".." || HasPrefix clean "../" then Err (UnsafeArchivePath archiveName)
  else
    let target := PathJoin [root; clean] in
    let rootClean := PathAbs wd root in
    let targetClean := PathAbs wd target in
    if negb (str_eqb targetClean rootClean) && negb (HasPrefix targetClean (rootClean +:+ "/"))
    then Err (UnsafeArchivePath archiveName)
    else Ok target.

(** A file of an archive: created, its data copied, and the error the data ends
    in. *)
Definition write_entry (t : Tag) (fs : tree) (target data : string) (data_err : option string)
    : tree * option runtime_error :=
  match os_Create (t ++ ["create"%string]) fs target with
  | (fs, Some e) => (fs, Some (FileFailed e))
  | (fs, None) =>
      match os_Append (t ++ ["copy"%string]) fs target data with
      | (fs, Some e) => (fs, Some (FileFailed e))
      | (fs, None) => (fs, ArchiveFailed <$> data_err)
      end
  end.
Definition make_parent (t : Tag) (fs : tree) (target : string) (k : tree → tree * option runtime_error)
    : tree * option runtime_error :=
  match os_MkdirAll t fs (PathDir target) with
  | (fs, Some e) => (fs, Some (FileFailed e))
  | (fs, None) => k fs
  end.
Definition make_entry_dir (t : Tag) (fs : tree) (target : string) : tree * option runtime_error :=
  let '(fs, e) := os_MkdirAll t fs target in (fs, FileFailed <$> e).
Definition zip_entry (t : Tag) (file : zip_file) (target : string) (fs : tree) : tree * option runtime_error :=
  if zf_IsDir file then make_entry_dir (t ++ ["dir"%string]) fs target
  else make_parent (t ++ ["parent"%string]) fs target (λ fs,
    match zf_Data file with
    | Err text => (fs, Some (ArchiveFailed text))
    | Ok (data, data_err) => write_entry (t ++ ["file"%string]) fs target data data_err
    end).
Definition tar_entry (t : Tag) (header : tar_header) (target : string) (fs : tree) : tree * option runtime_error :=
  match th_Typeflag header with
  | TypeDir => make_entry_dir (t ++ ["dir"%string]) fs target
  | TypeReg => make_parent (t ++ ["parent"%string]) fs target (λ fs,
      write_entry (t ++ ["file"%string]) fs target (th_Data header) (th_Err header))
  | TypeOther => (fs, None)
  end.
(** The entries of an archive in order, each at its accepted path, and the error
    the archive ends in. *)
Fixpoint extract_entries {A} (entry_name : A → string) (put : Tag → A → string → tree → tree * option runtime_error)
    (t : Tag) (i : nat) (fs : tree) (dir : string) (files : list A) (last_err : option string)
    : tree * option runtime_error :=
  match files with
  | [] => (fs, ArchiveFailed <$> last_err)
  | file :: rest =>
      match safeArchivePath dir (entry_name file) with
      | Err e => (fs, Some e)
      | Ok target =>
          match put (t ++ [Itoa (Z.of_nat i)]) file target fs with
          | (fs, Some e) => (fs, Some e)
          | (fs, None) => extract_entries entry_name put t (S i) fs dir rest last_err
          end
      end
  end.
Definition extractZip (t : Tag) (fs : tree) (path dir : string) : tree * option runtime_error :=
  match os_ReadFile (t ++ ["open"%string]) fs path with
  | Err e => (fs, Some (FileFailed e))
  | Ok data =>
      match read_zip data with
      | Err text => (fs, Some (ArchiveFailed text))
      | Ok files => extract_entries zf_Name zip_entry t 0 fs dir files None
      end
  end.

Definition extractTarGz (t : Tag) (fs : tree) (path dir : string) : tree * option runtime_error :=
  match os_ReadFile (t ++ ["open"%string]) fs path with
  | Err e => (fs, Some (FileFailed e))
  | Ok data =>
      match read_tar_gz data with
      | Err text => (fs, Some (ArchiveFailed text))
      | Ok (headers, err) => extract_entries th_Name tar_entry t 0 fs dir headers err
      end
  end.

(** [io.Copy] to an open file: each read is written, until an error. *)
Fixpoint copy_reads (t : Tag) (i : nat) (fs : tree) (path : string) (reads : list string) (err : option string)
    : tree * option runtime_error :=
  match reads with
  | [] => (fs, WebFailed <$> err)
  | data :: rest =>
      match os_Append (t ++ [Itoa (Z.of_nat i)]) fs path data with
      | (fs, Some e) => (fs, Some (FileFailed e))
      | (fs, None) => copy_reads t (S i) fs path rest err
      end
  end.

(** The archive goes to a temporary file, which is removed whatever happens. *)
Definition downloadAndExtract (t : Tag) (fs : tree) (url archiveName dir : string) : tree * option runtime_error :=
  match web_get (t ++ ["get"%string]) url with
  | Err text => (fs, Some (WebFailed text))
  | Ok resp =>
      if web_bad resp then (fs, Some (DownloadReturned (wr_Status resp)))
      else
        let tmp := temp_name t in
        match os_Create (t ++ ["temp"%string]) fs tmp with
        | (fs, Some e) => (fs, Some (FileFailed e))
        | (fs, None) =>
            let '(fs, err) :=
              match copy_reads (t ++ ["copy"%string]) 0 fs tmp (wr_Reads resp) (wr_Err resp) with
              | (fs, Some e) => (fs, Some e)
              | (fs, None) =>
                  if HasSuffix archiveName ".zip" then extractZip (t ++ ["zip"%string]) fs tmp dir
                  else if HasSuffix archiveName ".tar.gz" then extractTarGz (t ++ ["tar"%string]) fs tmp dir
                  else (fs, Some (UnsupportedArchive archiveName))
              end in
            ((os_Remove (t ++ ["remove"%string]) fs tmp).1, err)
        end
  end.

(** ** The program, wherever it comes from *)

Definition EnsureLlamaCPP (t : Tag) (ctx : Context) (fs : tree) (cacheDir : string)
    : tree * (string * RuntimeStatus * option runtime_error) :=
  match FindSystemLlamaCPP (t ++ ["system"%string]) fs with
  | Ok binary => (fs, (binary, mkRuntimeStatus LlamaCPPName true "" platformKey binary "system-path" "", None))
  | Err _ =>
  match cachedLlamaCPPBinary (t ++ ["cached"%string]) fs cacheDir with
  | Ok (binary, version) =>
      (fs, (binary, mkRuntimeStatus LlamaCPPName true version platformKey binary "cmesh-runtime-cache" "", None))
  | Err _ =>
  match migrateCachedLlamaCPP (t ++ ["migrate"%string]) fs cacheDir with
  | (fs, Ok (binary, version)) =>
      (fs, (binary, mkRuntimeStatus LlamaCPPName true version platformKey binary "cmesh-runtime-cache-migrated" "", None))
  | (fs, Err _) =>
  let failed version err :=
    let status := LlamaCPPStatus (t ++ ["status"%string]) fs cacheDir in
    ("", mkRuntimeStatus (rs_Name status) (rs_Ready status) (default (rs_Version status) version) (rs_Platform status)
           (rs_BinaryPath status) (rs_Source status) (runtime_text err), Some err)%string in
  match fetchLatestRelease (t ++ ["release"%string]) ctx with
  | Err e => (fs, failed None e)
  | Ok release =>
  match selectLlamaCPPAsset release GOOS GOARCH with
  | Err e => (fs, failed (Some (ghr_TagName release)) e)
  | Ok selected =>
  let dir := runtimeDir cacheDir (ghr_TagName release) in
  let undecided e := ("", mkRuntimeStatus "" false "" "" "" "" "", Some (FileFailed e))%string in
  match os_RemoveAll (t ++ ["clear"%string]) fs dir with
  | (fs, Some e) => (fs, undecided e)
  | (fs, None) =>
  match os_MkdirAll (t ++ ["mkdir"%string]) fs dir with
  | (fs, Some e) => (fs, undecided e)
  | (fs, None) =>
  let given_up fs e :=
    ((os_RemoveAll (t ++ ["cleanup"%string]) fs dir).1,
     ("", mkRuntimeStatus LlamaCPPName false (ghr_TagName release) platformKey "" (asset_URL selected) (runtime_text e),
      Some e))%string in
  match downloadAndExtract (t ++ ["download"%string]) fs (asset_URL selected) (asset_Name selected) dir with
  | (fs, Some e) => given_up fs e
  | (fs, None) =>
  match findBinary (t ++ ["binary"%string]) fs dir llamaBinaryName with
  | Err e => given_up fs e
  | Ok binary =>
      (fs, (binary, mkRuntimeStatus LlamaCPPName true (ghr_TagName release) platformKey binary (asset_URL selected) "",
            None))
  end end end end end end end end end.

(** ** The probes *)

Definition LlamaCPPRPCRuntimeName : string := "llama.cpp-rpc".
Definition CapabilityLlamaCPPRPCBackend : string := "llama.cpp-rpc-backend".
Definition CapabilityLlamaCPPRPCClient : string := "llama.cpp-rpc-client".
Definition LlamaCPPStageRuntimeName : string := "llama.cpp-stage-experimental".

Definition llamaRPCServerBinaryName : string := if on_windows then "rpc-server.exe" else "rpc-server".
Definition llamaRPCServerCandidates : list string :=
  let unix := ["/opt/homebrew/bin/rpc-server"; "/usr/local/bin/rpc-server"; "/opt/local/bin/rpc-server";
               "/usr/bin/rpc-server"]%string in
  if on_windows then
    ["C:\Program Files\llama.cpp\rpc-server.exe"; "C:\Program Files\CMesh\rpc-server.exe"]%string ++ unix
  else unix.
Definition findLlamaCPPRPCServer (t : Tag) (fs : tree) (llamaCLIPath : string) : result runtime_error string :=
  match look_path llamaRPCServerBinaryName with
  | Some server => Ok server
  | None =>
      let beside := if blank llamaCLIPath then Err RPCServerNotInstalled
                    else findBinary (t ++ ["beside"%string]) fs (PathDir llamaCLIPath) llamaRPCServerBinaryName in
      match beside with
      | Ok server => Ok server
      | Err _ =>
          match first_file t fs llamaRPCServerCandidates with
          | Some candidate => Ok candidate
          | None => Err RPCServerNotInstalled
          end
      end
  end.

Record RPCRuntimeProbe := mkRPCProbe {
  pr_Name : string; pr_Runtime : string; pr_Ready : bool; pr_ServerPath : string; pr_Endpoint : string;
  pr_Protocol : string; pr_Blockers : list string;
}.
Record LlamaCPPRPCRuntime := mkRPCRuntime { lrr_BinaryPath : string; lrr_Endpoint : string }.
Definition NewLlamaCPPRPCRuntime (binaryPath endpoint : string) : LlamaCPPRPCRuntime :=
  mkRPCRuntime (TrimSpace binaryPath) (TrimSpace endpoint).
Definition rpc_Probe (t : Tag) (fs : tree) (r : LlamaCPPRPCRuntime) (ctx : Context) : RPCRuntimeProbe :=
  let probe ready server blockers :=
    mkRPCProbe LlamaCPPRPCRuntimeName LlamaCPPName ready server (lrr_Endpoint r) "llama.cpp-rpc" blockers in
  if ctx_done ctx then probe false "" [runtime_text ContextEnded]
  else match findLlamaCPPRPCServer t fs (lrr_BinaryPath r) with
       | Err e => probe false "" [runtime_text e]
       | Ok serverPath => probe true serverPath []
       end.

Record StageRuntimeProbe := mkStageProbe {
  ps_Name : string; ps_Runtime : string; ps_Ready : bool; ps_CLIReady : bool; ps_BinaryPath : string;
  ps_RequiredHooks : list string; ps_Blockers : list string;
}.
Record LlamaCPPStageRuntime := mkStageRuntime { lst_BinaryPath : string }.
Definition NewLlamaCPPStageRuntime (binaryPath : string) : LlamaCPPStageRuntime :=
  mkStageRuntime (TrimSpace binaryPath).
Definition required_hooks : list string :=
  ["load logical layer range"; "accept upstream hidden-state activation"; "emit downstream hidden-state activation";
   "persist per-stage KV/cache state"; "emit final token deltas from terminal stage"]%string.
Definition stage_Probe (t : Tag) (fs : tree) (r : LlamaCPPStageRuntime) (ctx : Context) : StageRuntimeProbe :=
  let probe cli path blocker :=
    mkStageProbe LlamaCPPStageRuntimeName LlamaCPPName false cli path required_hooks [runtime_text blocker] in
  let path := lst_BinaryPath r in
  if ctx_done ctx then probe false "" ContextEnded
  else if str_eqb path "" then probe false "" CLIPathRequired
  else match os_Stat t fs path with
       | Err e => probe false path (CLINotAccessible e)
       | Ok info => if is_dir (Some info) then probe false path CLIIsDirectory else probe true path NoStageHooks
       end%string.
(** The stage operations of the experimental runtime: each refuses. *)
Definition llamaCPPStageUnsupported (t : Tag) (fs : tree) (r : LlamaCPPStageRuntime) (ctx : Context) : runtime_error :=
  let probe := stage_Probe t fs r ctx in
  if negb (ps_CLIReady probe) then StageNotReady (ps_Blockers probe) else StageExperimental (ps_Blockers probe).
Definition lst_PrepareStage (t : Tag) (fs : tree) (r : LlamaCPPStageRuntime) (ctx : Context)
    (req : StagePrepareRequest) : result runtime_error StagePrepareResult :=
  let probe := stage_Probe t fs r ctx in
  if negb (ps_CLIReady probe) then Err (StageNotReady (ps_Blockers probe)) else Err (StageExperimental (ps_Blockers probe)).
(** PrefillStage, DecodeStage, CompleteStage and AbortStage. *)
Definition lst_Command (t : Tag) (fs : tree) (r : LlamaCPPStageRuntime) (ctx : Context) (req : StageCommandRequest)
    : result runtime_error StageCommandResult := Err (llamaCPPStageUnsupported t fs r ctx).

(** ** Lemmas *)

Implicit Types fs : tree.

(** A program: a file of that name. *)
Definition program_at (fs : tree) (path name : string) : Prop :=
  is_file (fs !! at_path path) = true ∧ base (at_path path) = name.

Lemma proper_comps rel : Forall proper rel → rel ≫= comps = rel.
Proof.
  induction 1 as [|c rel [Hc _] Hrel IH]; [done|]. change ((c :: rel) ≫= comps) with (comps c ++ (rel ≫= comps)).
  by rewrite IH, comps_name.
Qed.
Lemma proper_not_up rel : Forall proper rel → Forall (λ c, c ≠ ".."%string) rel.
Proof. intros Hrel. eapply Forall_impl; [exact Hrel|]. by intros c [_ ?]. Qed.
Lemma at_path_Join root rel :
  root ≠ ""%string → Forall proper rel → at_path (PathJoin (root :: rel)) = at_path root ++ rel.
Proof.
  intros Hroot Hrel. unfold at_path. rewrite locate_Join; [by rewrite proper_comps|apply wd_abs|done|].
  rewrite proper_comps by done. by apply proper_not_up.
Qed.

Lemma at_walk_path root p :
  root ≠ ""%string → Forall proper p → below (at_path root) p = true → at_path (walk_path root p) = p.
Proof.
  intros Hroot Hp [rel E]%below_true. unfold walk_path. rewrite (proj2 (strip_Some _ _ rel) E).
  destruct rel as [|c rel]; [by rewrite E, app_nil_r|]. rewrite at_path_Join; [done..|].
  rewrite E in Hp. by apply Forall_app in Hp as [_ Hp].
Qed.

Lemma find_visit_spec root name visits found :
  find_visit root name visits = Ok found →
  found = ""%string ∨ ∃ p e, Visit p e ∈ visits ∧ is_file (Some e) = true ∧ base p = name ∧ found = walk_path root p.
Proof.
  induction visits as [|[p e|p err] visits IH]; cbn [find_visit]; [by intros [= <-]; left| |done].
  destruct (is_dir (Some e) || negb (str_eqb (base p) name)) eqn:Ec.
  - intros Hf. destruct (IH Hf) as [?|(q & x & Hin & ?)]; [by left|]. right. exists q, x. split; [by right|done].
  - intros [= <-]. right. exists p, e. apply orb_false_iff in Ec as [Hd Hb]. apply negb_false_iff, bool_decide_eq_true in Hb.
    split_and!; [left|by destruct e|done|done].
Qed.
Lemma findBinary_found t fs root name path :
  tree_ok fs → root ≠ ""%string → findBinary t fs root name = Ok path →
  program_at fs path name ∧ below (at_path root) (at_path path) = true.
Proof.
  intros Hok Hroot. unfold findBinary. destruct (find_visit _ _ _) as [found|e] eqn:Ef; [|done].
  destruct (find_visit_spec _ _ _ _ Ef) as [->|(p & e & Hin & He & Hb & ->)]; [done|].
  case_bool_decide; [done|]. intros [= <-]. apply elem_of_walk in Hin as [Hp Hbl].
  assert (Forall proper p) as Hpp by (apply (tree_names fs Hok); by eexists).
  unfold program_at. rewrite at_walk_path by done. by rewrite Hp, He.
Qed.

(** *** Paths of archives *)

Definition ends_proper (dir : string) : Prop :=
  ∃ cs c, clean_comps (IsAbs dir) (comps dir) = cs ++ [c] ∧ c ≠ ".."%string.

Lemma clean_name_proper archiveName :
  (IsAbs (PathClean archiveName) || str_eqb (PathClean archiveName) ".." || HasPrefix (PathClean archiveName) "../") = false →
  Forall proper (comps (PathClean archiveName)).
Proof.
  rewrite !orb_false_iff. intros [[Ha Hup] Hpre]. rewrite IsAbs_Clean in Ha.
  pose proof (comps_names (PathClean archiveName)) as Hn. rewrite comps_Clean, Ha in *.
  destruct (clean_comps_clean false (comps archiveName)) as (ups & downs & E & Hu & Hd & _).
  destruct ups as [|u ups].
  - simpl in E. rewrite E in *. rewrite Forall_forall in *. intros c Hc. split; auto.
  - exfalso. apply Forall_cons in Hu as [-> _]. unfold PathClean in Hup, Hpre. rewrite Ha, E in Hup, Hpre. simpl in Hup, Hpre.
    by destruct (ups ++ downs).
Qed.

Lemma safe_path_below root archiveName target :
  root ≠ ""%string → safeArchivePath root archiveName = Ok target →
  ∃ rel, Forall proper rel ∧ at_path target = at_path root ++ rel ∧
    PathClean target = target ∧ comps target = clean_comps (IsAbs root) (comps root) ++ rel.
Proof.
  intros Hroot. unfold safeArchivePath. destruct (_ || _) eqn:Ec; [done|]. cbv zeta.
  destruct (_ && _); [done|]. intros E. assert (target = PathJoin [root; PathClean archiveName]) as -> by congruence.
  clear E. pose proof (clean_name_proper _ Ec) as Hrel.
  set (rel := comps (PathClean archiveName)) in *. exists rel. split; [done|].
  assert (Hj : [PathClean archiveName] ≫= comps = rel) by (unfold rel; simpl; by rewrite app_nil_r).
  destruct (PathJoin_comps root [PathClean archiveName] Hroot) as [_ Hc]. rewrite Hj in Hc. split_and!.
  - unfold at_path. rewrite locate_Join, Hj; [done|apply wd_abs|done|]. rewrite Hj. by apply proper_not_up.
  - cbn [PathJoin]. rewrite bool_decide_eq_false_2 by done. apply Clean_idemp.
  - rewrite Hc. apply clean_comps_app. by apply proper_not_up.
Qed.

(** The directory of an accepted path is inside, or just above, the root. *)
Lemma safe_parent root archiveName target :
  root ≠ ""%string → ends_proper root → safeArchivePath root archiveName = Ok target →
  below (at_path root) (at_path (PathDir target)) = true ∨ below (at_path (PathDir target)) (at_path root) = true.
Proof.
  intros Hroot (cs & c & Hcs & Hc) Hsafe. destruct (safe_path_below _ _ _ Hroot Hsafe) as (rel & Hrel & Hat & Hcl & Hct).
  rewrite Hcs in Hct. unfold at_path in *. destruct rel as [|d rel _] using rev_ind.
  - rewrite app_nil_r in Hct, Hat. rewrite (locate_Dir wd target cs c wd_abs Hcl Hct Hc) in Hat. right.
    rewrite <- Hat. apply below_app.
  - rewrite app_assoc in Hct. apply Forall_app in Hrel as [Hrel Hd]. apply Forall_singleton in Hd as [_ Hd].
    rewrite (locate_Dir wd target _ d wd_abs Hcl Hct Hd), app_assoc in Hat. apply app_inj_tail in Hat as [-> _].
    left. apply below_app.
Qed.

(** *** What unpacking changes *)

(** Inside a directory that is there. *)
Record inside (d : place) (fs fs' : tree) : Prop := {
  in_changes : changes (λ k, below d k = true) fs fs';
  in_dir : fs' !! d = Some EDir;
}.
Lemma inside_trans d fs1 fs2 fs3 : inside d fs1 fs2 → inside d fs2 fs3 → inside d fs1 fs3.
Proof. intros [Hc1 _] [Hc2 Hd]. split; [by eapply changes_trans|done]. Qed.
Lemma inside_refl d fs : fs !! d = Some EDir → inside d fs fs.
Proof. split; [apply changes_refl|done]. Qed.
(** A file below the directory is not the directory. *)
Lemma inside_file d p fs fs' :
  fs !! d = Some EDir → below d p = true → changes (λ k, k = p) fs fs' → fs' !! d = Some EDir → inside d fs fs'.
Proof. intros Hd Hp Hc Hd'. split; [|done]. eapply changes_weaken; [|done]. by intros k ->. Qed.

Definition tree_step (d : place) (fs : tree) (out : tree * option runtime_error) : Prop :=
  tree_ok out.1 ∧ inside d fs out.1.

Lemma write_entry_inside t fs target data err d :
  tree_ok fs → fs !! d = Some EDir → below d (at_path target) = true →
  tree_step d fs (write_entry t fs target data err).
Proof.
  intros Hok Hd Hb. unfold write_entry. pose proof (Create_spec (t ++ ["create"%string]) fs target) as Hc.
  destruct (os_Create _ fs target) as [fs1 [e|]].
  { destruct Hc as [_ ->]. split; [done|]. by apply inside_refl. }
  destruct Hc as ([Ho Hw] & Hcr & Hnd).
  assert (at_path target ≠ d) as Hne by (intros E; by rewrite E in Hnd).
  assert (fs1 !! d = Some EDir) as Hd1 by (by rewrite Ho).
  assert (inside d fs fs1) as Hin1 by (by eapply inside_file).
  pose proof (Append_spec (t ++ ["copy"%string]) fs1 target data) as Ha. destruct (os_Append _ fs1 target data) as [fs2 err2].
  destruct Ha as [[Ho2 Hw2] _]. assert (tree_step d fs (fs2, None : option runtime_error)) as [? ?].
  { split; [by apply Hw2, Hw|]. eapply inside_trans; [exact Hin1|]. eapply inside_file; [done..|by split|by rewrite Ho2]. }
  by destruct err2.
Qed.
Lemma mkdir_inside t fs path d :
  tree_ok fs → fs !! d = Some EDir → below d (at_path path) = true ∨ below (at_path path) d = true →
  tree_ok (os_MkdirAll t fs path).1 ∧ inside d fs (os_MkdirAll t fs path).1.
Proof.
  intros Hok Hd Hrel. pose proof (MkdirAll_inside t fs path d Hok Hd Hrel) as Hm.
  destruct (os_MkdirAll t fs path) as [fs1 err]. destruct Hm as ([Ho Hw] & Hd1 & _). split; [by apply Hw|]. by split.
Qed.

(** An accepted entry only changes what is below the directory. *)
Definition entry_inside {A} (put : Tag → A → string → tree → tree * option runtime_error) : Prop :=
  ∀ t x target fs d, tree_ok fs → fs !! d = Some EDir → below d (at_path target) = true →
    below d (at_path (PathDir target)) = true ∨ below (at_path (PathDir target)) d = true →
    tree_step d fs (put t x target fs).

Lemma make_parent_inside t fs target k d :
  tree_ok fs → fs !! d = Some EDir →
  below d (at_path (PathDir target)) = true ∨ below (at_path (PathDir target)) d = true →
  (∀ fs1, tree_ok fs1 → fs1 !! d = Some EDir → tree_step d fs1 (k fs1)) → tree_step d fs (make_parent t fs target k).
Proof.
  intros Hok Hd Hrel Hk. unfold make_parent. destruct (mkdir_inside t fs (PathDir target) d Hok Hd Hrel) as [Hok1 Hin].
  destruct (os_MkdirAll t fs (PathDir target)) as [fs1 [e|]]; simpl in *; [by split|].
  destruct (Hk fs1 Hok1 (in_dir _ _ _ Hin)) as [? ?]. split; [done|]. by eapply inside_trans.
Qed.
Lemma make_entry_dir_inside t fs target d :
  tree_ok fs → fs !! d = Some EDir → below d (at_path target) = true → tree_step d fs (make_entry_dir t fs target).
Proof.
  intros Hok Hd Hb. unfold make_entry_dir. destruct (mkdir_inside t fs target d Hok Hd (or_introl Hb)).
  by destruct (os_MkdirAll t fs target).
Qed.
Lemma zip_entry_inside : entry_inside zip_entry.
Proof.
  intros t file target fs d Hok Hd Hb Hp. unfold zip_entry. destruct (zf_IsDir file); [by apply make_entry_dir_inside|].
  apply make_parent_inside; [done..|]. intros fs1 Hok1 Hd1.
  destruct (zf_Data file) as [[data err]|text]; [by apply write_entry_inside|]. split; [done|]. by apply inside_refl.
Qed.
Lemma tar_entry_inside : entry_inside tar_entry.
Proof.
  intros t header target fs d Hok Hd Hb Hp. unfold tar_entry. destruct (th_Typeflag header).
  - by apply make_entry_dir_inside.
  - apply make_parent_inside; [done..|]. intros fs1 Hok1 Hd1. by apply write_entry_inside.
  - split; [done|]. by apply inside_refl.
Qed.

Lemma extract_entries_inside {A} (entry_name : A → string) put t i fs dir files err :
  entry_inside put → dir ≠ ""%string → ends_proper dir → tree_ok fs → fs !! at_path dir = Some EDir →
  tree_step (at_path dir) fs (extract_entries entry_name put t i fs dir files err).
Proof.
  intros Hput Hne Hend. revert i fs. induction files as [|file files IH]; intros i fs Hok Hd; simpl.
  { split; [done|]. by apply inside_refl. }
  destruct (safeArchivePath dir (entry_name file)) as [target|e] eqn:Es; [|split; [done|by apply inside_refl]].
  destruct (safe_path_below _ _ _ Hne Es) as (rel & _ & Hat & _).
  destruct (Hput (t ++ [Itoa (Z.of_nat i)]) file target fs (at_path dir) Hok Hd) as [Hok1 Hin1].
  { rewrite Hat. apply below_app. } { by eapply safe_parent. }
  destruct (put _ file target fs) as [fs1 [e|]]; simpl in *; [by split|].
  destruct (IH (S i) fs1 Hok1 (in_dir _ _ _ Hin1)). split; [done|]. by eapply inside_trans.
Qed.

Lemma copy_reads_changes t i fs path reads err :
  changes (λ k, k = at_path path) fs (copy_reads t i fs path reads err).1.
Proof.
  revert i fs. induction reads as [|data reads IH]; intros i fs; simpl; [apply changes_refl|].
  pose proof (Append_spec (t ++ [Itoa (Z.of_nat i)]) fs path data) as Ha.
  destruct (os_Append _ fs path data) as [fs1 [e|]]; simpl; [apply Ha|]. eapply changes_trans; [apply Ha|apply IH].
Qed.

(** *** The runtime directory *)

Lemma PathClean_nonempty path : PathClean path ≠ ""%string.
Proof. unfold PathClean. destruct (IsAbs path); [done|]. by case_bool_decide. Qed.
Lemma PathJoin_nonempty root rest : Exists (λ e, e ≠ ""%string) (root :: rest) → PathJoin (root :: rest) ≠ ""%string.
Proof.
  revert root. induction rest as [|e rest IH]; intros root Hex; cbn [PathJoin] in *; case_bool_decide as Hr.
  - by apply Exists_cons in Hex as [?|?%Exists_nil].
  - apply PathClean_nonempty.
  - apply Exists_cons in Hex as [?|Hex]; [done|]. by apply IH.
  - apply PathClean_nonempty.
Qed.

Definition llama_root (cacheDir : string) : string := PathJoin [runtimeRoot cacheDir; LlamaCPPName].
Lemma llama_name_proper : proper LlamaCPPName.
Proof. by apply (bool_decide_unpack _). Qed.
Lemma runtimeRoot_nonempty cacheDir : runtimeRoot cacheDir ≠ ""%string.
Proof. apply PathJoin_nonempty. right. by left. Qed.
Lemma llama_root_nonempty cacheDir : llama_root cacheDir ≠ ""%string.
Proof. apply PathJoin_nonempty. left. apply runtimeRoot_nonempty. Qed.

(** Nothing but [P] differs, except directories made on the way to [r]. *)
Record grown (P : place → Prop) (r : place) (fs fs' : tree) : Prop := {
  grown_ok : tree_ok fs';
  grown_only k : ¬ P k → fs' !! k = fs !! k ∨ (fs !! k = None ∧ fs' !! k = Some EDir ∧ below k r = true);
}.
Lemma grown_refl P r fs : tree_ok fs → grown P r fs fs.
Proof. split; auto. Qed.
Lemma grown_trans P r fs1 fs2 fs3 : grown P r fs1 fs2 → grown P r fs2 fs3 → grown P r fs1 fs3.
Proof.
  intros [_ Hg1] [Hok Hg2]. split; [done|]. intros k Hk.
  destruct (Hg1 k Hk) as [E1|(E1 & E2 & Hb)], (Hg2 k Hk) as [E3|(E3 & E4 & Hb')]; rewrite ?E1, ?E3 in *; naive_solver.
Qed.
Lemma grown_changes P r fs fs' : tree_ok fs → changes P fs fs' → grown P r fs fs'.
Proof. intros Hok [Ho Hw]. split; auto. Qed.

(** What lies below the runtime's root, or is the temporary file. *)
Definition runtime_place (r tmp k : place) : Prop := below r k = true ∨ k = tmp.

Lemma grown_mkdir tmp r t fs path :
  tree_ok fs → below r (at_path path) = true ∨ below (at_path path) r = true →
  grown (runtime_place r tmp) r fs (os_MkdirAll t fs path).1.
Proof.
  intros Hok Hrel. pose proof (MkdirAll_spec t fs path) as Hm. destruct (os_MkdirAll t fs path) as [fs1 err].
  destruct Hm as (_ & [Ho Hw] & _ & Hnew). simpl. split; [by apply Hw|]. intros k Hnp.
  destruct (Hnew k) as [?|[E1 E2]]; [by left|]. right. split_and!; [done..|].
  destruct (below k (at_path path)) eqn:Eb; [|rewrite Ho in E2; [congruence|by rewrite Eb]].
  destruct Hrel as [Hrel|Hrel]; [|by eapply below_trans].
  destruct (below_linear r k (at_path path) Hrel Eb) as [?|(c & s & ->)%elem_of_above]; [by destruct Hnp; left|apply below_app].
Qed.

Lemma grown_weaken P Q r fs fs' : (∀ k, P k → Q k) → grown P r fs fs' → grown Q r fs fs'.
Proof. intros HPQ [Hok Hg]. split; [done|]. intros k Hk. apply Hg. auto. Qed.
Lemma grown_below tmp r p fs fs' :
  tree_ok fs → below r p = true → changes (λ k, below p k = true) fs fs' → grown (runtime_place r tmp) r fs fs'.
Proof.
  intros Hok Hp Hc. apply grown_changes; [done|]. eapply changes_weaken; [|exact Hc].
  intros k Hk. left. by eapply below_trans.
Qed.
Lemma grown_at tmp r p fs fs' :
  tree_ok fs → below r p = true → changes (λ k, k = p) fs fs' → grown (runtime_place r tmp) r fs fs'.
Proof.
  intros Hok Hp Hc. eapply grown_below; [done|exact Hp|]. eapply changes_weaken; [|exact Hc].
  intros k ->. apply below_refl.
Qed.

(** *** Copying an older cache *)

Lemma rel_text_comps rel : Forall proper rel → comps (rel_text rel) = rel.
Proof.
  intros Hrel. destruct rel as [|c rel]; [done|]. apply (comps_Join (c :: rel)).
  eapply Forall_impl; [exact Hrel|]. by intros d [? _].
Qed.
Lemma at_rel_text target rel :
  target ≠ ""%string → Forall proper rel →
  let dst := PathJoin [target; rel_text rel] in
  at_path dst = at_path target ++ rel ∧ PathClean dst = dst ∧
  comps dst = clean_comps (IsAbs target) (comps target) ++ rel.
Proof.
  intros Ht Hrel. cbv zeta. assert (Hj : [rel_text rel] ≫= comps = rel) by (simpl; by rewrite app_nil_r, rel_text_comps).
  pose proof (proper_not_up _ Hrel) as Hup. split_and!.
  - unfold at_path. rewrite locate_Join, Hj; [done|apply wd_abs|done|by rewrite Hj].
  - cbn [PathJoin]. rewrite bool_decide_eq_false_2 by done. apply Clean_idemp.
  - destruct (PathJoin_comps target [rel_text rel] Ht) as [_ Hc]. rewrite Hj in Hc. by rewrite Hc, clean_comps_app.
Qed.
(** The directory of a path made below [target], which is itself in [r]. *)
Lemma parent_of_dst target dst r v rel :
  ends_proper target → at_path target = r ++ [v] → at_path dst = at_path target ++ rel → PathClean dst = dst →
  comps dst = clean_comps (IsAbs target) (comps target) ++ rel → Forall proper rel →
  below r (at_path (PathDir dst)) = true.
Proof.
  intros (cs & c & Hcs & Hc) Ht Hat Hcl Hct Hrel. rewrite Hcs in Hct. unfold at_path in *.
  destruct rel as [|d rel _] using rev_ind.
  - rewrite app_nil_r in Hct, Hat. rewrite (locate_Dir wd dst cs c wd_abs Hcl Hct Hc), Ht in Hat.
    apply app_inj_tail in Hat as [-> _]. apply below_refl.
  - rewrite app_assoc in Hct. apply Forall_app in Hrel as [_ Hd]. apply Forall_singleton in Hd as [_ Hd].
    rewrite (locate_Dir wd dst _ d wd_abs Hcl Hct Hd), app_assoc in Hat. apply app_inj_tail in Hat as [-> _].
    rewrite Ht, <- app_assoc. apply below_app.
Qed.

Lemma ends_proper_Join root rel v :
  root ≠ ""%string → Forall proper rel → proper v → ends_proper (PathJoin (root :: rel ++ [v])).
Proof.
  intros Hroot Hrel Hv. assert (Forall proper (rel ++ [v])) as Hp by (apply Forall_app_2; [done|by constructor]).
  destruct (PathJoin_comps root (rel ++ [v]) Hroot) as [Ha Hc]. rewrite proper_comps in Hc by done.
  rewrite app_assoc, clean_comps_app in Hc by (apply proper_not_up; by constructor).
  eexists _, v. split; [|by destruct Hv]. rewrite Ha, Hc, clean_comps_app by (apply proper_not_up; by constructor).
  reflexivity.
Qed.

Lemma copyFile_grown tmp r t fs source dst :
  tree_ok fs → below r (at_path (PathDir dst)) = true → below r (at_path dst) = true →
  grown (runtime_place r tmp) r fs (copyFile t fs source dst).1.
Proof.
  intros Hok Hdir Hdst. unfold copyFile. pose proof (grown_mkdir tmp r (t ++ ["mkdir"%string]) fs (PathDir dst) Hok (or_introl Hdir)) as Hg.
  destruct (os_MkdirAll _ fs (PathDir dst)) as [fs1 [e|]]; [done|]. simpl in Hg.
  destruct (os_ReadFile _ fs1 source) as [data|e]; [|done].
  pose proof (WriteFile_spec (t ++ ["write"%string]) fs1 dst data) as Hw. destruct (os_WriteFile _ fs1 dst data) as [fs2 err].
  eapply grown_trans; [exact Hg|]. eapply grown_at; [apply Hg|exact Hdst|apply Hw].
Qed.

Lemma copy_visits_grown tmp r v t fs source target visits :
  tree_ok fs → target ≠ ""%string → ends_proper target → at_path target = r ++ [v] →
  (∀ p e, Visit p e ∈ visits → Forall proper p) →
  grown (runtime_place r tmp) r fs (copy_visits t fs source target visits).1.
Proof.
  intros Hok Hne Hend Hat. revert fs Hok. induction visits as [|[p e|p err] visits IH]; intros fs Hok Hv;
    cbn [copy_visits]; [by apply grown_refl| |by apply grown_refl].
  set (rel := default [] (strip (at_path source) p)).
  assert (Forall proper rel) as Hrel.
  { unfold rel. destruct (strip _ p) as [q|] eqn:E; [|constructor]. apply strip_Some in E.
    assert (Forall proper p) as Hp by (eapply Hv; left). rewrite E in Hp. by apply Forall_app in Hp as [_ Hp]. }
  destruct (at_rel_text target rel Hne Hrel) as (Hdst & Hcl & Hct). cbv zeta in *. set (dst := PathJoin [target; rel_text rel]) in *.
  assert (below r (at_path dst) = true) as Hb by (rewrite Hdst, Hat, <- app_assoc; apply below_app).
  assert (below r (at_path (PathDir dst)) = true) as Hbd by (by eapply parent_of_dst).
  assert (Hone : grown (runtime_place r tmp) r fs
    match e with EDir => os_MkdirAll (t ++ "dir"%string :: rel) fs dst
               | EFile _ _ => copyFile (t ++ "file"%string :: rel) fs (walk_path source p) dst end.1).
  { destruct e; [apply grown_mkdir; auto|by apply copyFile_grown]. }
  destruct (match e with EDir => _ | EFile _ _ => _ end) as [fs1 [err|]]; [done|]. simpl in Hone.
  eapply grown_trans; [exact Hone|]. apply IH; [apply Hone|]. intros q x Hin. eapply Hv. by right.
Qed.
Lemma walk_proper t fs root p e : tree_ok fs → Visit p e ∈ walk t fs root → Forall proper p.
Proof. intros Hok [Hp _]%elem_of_walk. apply (tree_names fs Hok). by eexists. Qed.

Lemma copyDir_grown tmp r v t fs source target :
  tree_ok fs → target ≠ ""%string → ends_proper target → at_path target = r ++ [v] →
  grown (runtime_place r tmp) r fs (copyDir t fs source target).1.
Proof.
  intros Hok Hne Hend Hat. unfold copyDir.
  assert (at_path target ≠ []) as Hnr by (rewrite Hat; by destruct r).
  pose proof (RemoveAll_spec (t ++ ["remove"%string]) fs target Hnr) as Hr.
  destruct (os_RemoveAll _ fs target) as [fs1 err]. destruct Hr as [Hc _].
  assert (grown (runtime_place r tmp) r fs fs1) as Hg
    by (eapply grown_below; [done| |exact Hc]; rewrite Hat; apply below_app).
  destruct err as [e|]; [done|]. eapply grown_trans; [exact Hg|]. pose proof (grown_ok _ _ _ _ Hg) as Hok1.
  eapply copy_visits_grown; [done..|]. intros p e. by apply walk_proper.
Qed.

(** The versions a directory lists. *)
Definition listed (fs : tree) (root : string) (versions : list (string * entry)) : Prop :=
  ∀ version e, (version, e) ∈ versions → fs !! (at_path root ++ [version]) = Some e.
Lemma ReadDir_listed t fs root versions : os_ReadDir t fs root = Ok versions → listed fs root (reverse versions).
Proof.
  unfold os_ReadDir. destruct (io_fault t); [done|]. destruct (fs !! at_path root) as [[|]|]; [|done..].
  intros [= <-] version e Hin. by apply elem_of_entries, elem_of_reverse.
Qed.
Lemma listed_proper fs root version e versions :
  tree_ok fs → listed fs root ((version, e) :: versions) → proper version ∧ listed fs root versions.
Proof.
  intros Hok Hl. split; [|intros v x Hin; apply Hl; by right].
  assert (Forall proper (at_path root ++ [version])) as Hp.
  { apply (tree_names fs Hok). exists e. apply Hl. left. }
  apply Forall_app in Hp as [_ Hp]. by rewrite Forall_singleton in Hp.
Qed.

Lemma migrate_from_grown tmp t fs sourceRoot cacheDir versions :
  let r := at_path (llama_root cacheDir) in
  tree_ok fs → sourceRoot ≠ ""%string → listed fs sourceRoot versions →
  let '(fs', out) := migrate_from t fs sourceRoot (llama_root cacheDir) versions in
  grown (runtime_place r tmp) r fs fs' ∧
  ∀ b v, out = Some (Ok (b, v)) → program_at fs' b llamaBinaryName.
Proof.
  intros r Hok Hsrc Hl. pose proof (llama_root_nonempty cacheDir) as Hroot.
  induction versions as [|[version e] versions IH]; [by split; [apply grown_refl|]|].
  destruct (listed_proper _ _ _ _ _ Hok Hl) as [Hpv Hl']. specialize (IH Hl'). cbn [migrate_from].
  destruct (is_dir (Some e)); [|exact IH]. destruct (findBinary _ fs _ _); [|exact IH]. clear IH.
  set (targetDir := PathJoin [llama_root cacheDir; version]). set (t' := t ++ [version]).
  pose proof (copyDir_grown tmp r version (t' ++ ["copy"%string]) fs (PathJoin [sourceRoot; version]) targetDir Hok) as Hg.
  destruct (copyDir _ fs _ targetDir) as [fs1 err]. simpl in Hg.
  assert (grown (runtime_place r tmp) r fs fs1) as Hg'.
  { apply Hg; [apply PathJoin_nonempty; by left|by apply (ends_proper_Join (llama_root cacheDir) [] version Hroot)|].
    unfold targetDir, r. apply at_path_Join; [done|by constructor]. }
  destruct err as [err|]; [by split|]. split; [done|]. intros b v.
  destruct (findBinary _ fs1 targetDir _) as [binary|] eqn:Ef; [|done]. intros [= <- <-].
  eapply findBinary_found in Ef; [apply Ef|apply Hg'|apply PathJoin_nonempty; by left].
Qed.
Lemma migrate_dirs_grown tmp t fs cacheDir dirs :
  let r := at_path (llama_root cacheDir) in
  tree_ok fs →
  let '(fs', out) := migrate_dirs t fs (llama_root cacheDir) dirs in
  grown (runtime_place r tmp) r fs fs' ∧ ∀ b v, out = Ok (b, v) → program_at fs' b llamaBinaryName.
Proof.
  intros r. revert fs. induction dirs as [|dir dirs IH]; intros fs Hok; cbn [migrate_dirs]; [by split; [apply grown_refl|]|].
  case_bool_decide; [by apply IH|]. destruct (os_ReadDir _ fs _) as [versions|] eqn:Er; [|by apply IH].
  apply ReadDir_listed in Er.
  pose proof (migrate_from_grown tmp (t ++ [dir]) fs _ cacheDir _ Hok (llama_root_nonempty dir) Er) as Hm.
  fold (llama_root dir). destruct (migrate_from _ fs (llama_root dir) _ _) as [fs1 out]. destruct Hm as [Hg Hp].
  destruct out as [res|]; [split; [done|]; intros b v ->; by eapply Hp|].
  specialize (IH fs1 (grown_ok _ _ _ _ Hg)). destruct (migrate_dirs t fs1 _ dirs) as [fs2 out].
  destruct IH as [Hg2 Hp2]. split; [by eapply grown_trans|done].
Qed.

(** *** Downloading *)

Lemma extract_inside t fs tmp name dir :
  dir ≠ ""%string → ends_proper dir → tree_ok fs → fs !! at_path dir = Some EDir →
  tree_step (at_path dir) fs
    (if HasSuffix name ".zip" then extractZip (t ++ ["zip"%string]) fs tmp dir
     else if HasSuffix name ".tar.gz" then extractTarGz (t ++ ["tar"%string]) fs tmp dir
     else (fs, Some (UnsupportedArchive name))).
Proof.
  intros Hne Hend Hok Hd. assert (∀ err, tree_step (at_path dir) fs (fs, err)) as Hsame
    by (split; [done|by apply inside_refl]).
  destruct (HasSuffix name ".zip"); [|destruct (HasSuffix name ".tar.gz"); [|done]].
  - unfold extractZip. destruct (os_ReadFile _ fs tmp) as [data|]; [|done]. destruct (read_zip data); [|done].
    apply extract_entries_inside; [apply zip_entry_inside|done..].
  - unfold extractTarGz. destruct (os_ReadFile _ fs tmp) as [data|]; [|done].
    destruct (read_tar_gz data) as [[headers err]|]; [|done]. apply extract_entries_inside; [apply tar_entry_inside|done..].
Qed.

(** A download changes the temporary file and what is below the directory. *)
Lemma download_step t fs url name dir :
  dir ≠ ""%string → ends_proper dir → tree_ok fs → fs !! at_path dir = Some EDir →
  changes (λ k, below (at_path dir) k = true ∨ k = at_path (temp_name t)) fs (downloadAndExtract t fs url name dir).1.
Proof.
  intros Hne Hend Hok Hd. unfold downloadAndExtract. set (tmp := temp_name t).
  destruct (web_get _ url) as [resp|]; [|apply changes_refl]. destruct (web_bad resp); [apply changes_refl|].
  assert (Htmp : ∀ fs1 fs2, changes (λ k, k = at_path tmp) fs1 fs2 →
    changes (λ k, below (at_path dir) k = true ∨ k = at_path tmp) fs1 fs2).
  { intros fs1 fs2. apply changes_weaken. auto. }
  pose proof (Create_spec (t ++ ["temp"%string]) fs tmp) as Hc. destruct (os_Create _ fs tmp) as [fs1 [e|]]; [apply Htmp, Hc|].
  destruct Hc as (Hc & _ & Hnd). assert (at_path dir ≠ at_path tmp) as Hdt by (intros E; by rewrite <- E in Hnd).
  assert (Hkeep : ∀ fs1 fs2, changes (λ k, k = at_path tmp) fs1 fs2 → fs1 !! at_path dir = Some EDir →
    fs2 !! at_path dir = Some EDir) by (intros ? ? [Ho _] ?; by rewrite Ho).
  pose proof (copy_reads_changes (t ++ ["copy"%string]) 0 fs1 tmp (wr_Reads resp) (wr_Err resp)) as Hcr.
  destruct (copy_reads _ 0 fs1 tmp _ _) as [fs2 err]. simpl in Hcr.
  assert (Hin : changes (λ k, below (at_path dir) k = true ∨ k = at_path tmp) fs2
    match err with Some e => (fs2, Some e) | None =>
      if HasSuffix name ".zip" then extractZip (t ++ ["zip"%string]) fs2 tmp dir
      else if HasSuffix name ".tar.gz" then extractTarGz (t ++ ["tar"%string]) fs2 tmp dir
      else (fs2, Some (UnsupportedArchive name)) end.1).
  { destruct err; [apply changes_refl|]. destruct (extract_inside t fs2 tmp name dir Hne Hend) as [_ [Hx _]].
    - apply Hcr, Hc, Hok.
    - eapply Hkeep; [exact Hcr|]. by eapply Hkeep.
    - eapply changes_weaken; [|exact Hx]. auto. }
  destruct (match err with Some e => _ | None => _ end) as [fs3 err3]. simpl in *.
  pose proof (Remove_spec (t ++ ["remove"%string]) fs3 tmp) as Hr. destruct (os_Remove _ fs3 tmp) as [fs4 err4].
  eapply changes_trans; [by apply Htmp|]. eapply changes_trans; [by apply Htmp|].
  eapply changes_trans; [exact Hin|]. apply Htmp, Hr.
Qed.

(** *** Where the program was found *)

Lemma newest_found t fs root versions binary version :
  tree_ok fs → root ≠ ""%string → newest t fs root versions = Some (binary, version) →
  program_at fs binary llamaBinaryName.
Proof.
  intros Hok Hroot. induction versions as [|[v e] versions IH]; cbn [newest]; [done|].
  destruct (negb _); [done|]. destruct (findBinary _ fs _ _) as [b|] eqn:Ef; [|done]. intros [= <- <-].
  eapply findBinary_found in Ef; [apply Ef|done|apply PathJoin_nonempty; by left].
Qed.
Lemma cached_found t fs cacheDir binary version :
  tree_ok fs → cachedLlamaCPPBinary t fs cacheDir = Ok (binary, version) → program_at fs binary llamaBinaryName.
Proof.
  intros Hok. unfold cachedLlamaCPPBinary. destruct (os_ReadDir _ _ _) as [versions|]; [|done].
  destruct (newest _ _ _ _) as [[b v]|] eqn:En; [|done]. intros [= <- <-].
  eapply newest_found; [done| |exact En]. apply llama_root_nonempty.
Qed.

(** The directory of a release. *)
Lemma release_dir cacheDir tag :
  proper tag →
  let dir := runtimeDir cacheDir tag in
  dir ≠ ""%string ∧ ends_proper dir ∧ at_path dir = at_path (llama_root cacheDir) ++ [tag] ∧
  below (at_path (llama_root cacheDir)) (at_path dir) = true.
Proof.
  intros Htag dir. pose proof llama_name_proper.
  assert (at_path dir = at_path (llama_root cacheDir) ++ [tag]) as Hdir.
  { unfold dir, runtimeDir, llama_root. rewrite !at_path_Join by (apply runtimeRoot_nonempty || auto). by rewrite <- app_assoc. }
  split_and!; [apply PathJoin_nonempty; left; apply runtimeRoot_nonempty| |done|rewrite Hdir; apply below_app].
  apply (ends_proper_Join _ [LlamaCPPName]); [apply runtimeRoot_nonempty|constructor; [done|constructor]|done].
Qed.
Lemma release_cleared tmp cacheDir tag t fs :
  proper tag → tree_ok fs →
  let r := at_path (llama_root cacheDir) in grown (runtime_place r tmp) r fs (os_RemoveAll t fs (runtimeDir cacheDir tag)).1.
Proof.
  intros Htag Hok r. destruct (release_dir cacheDir tag Htag) as (_ & _ & Hdir & Hbelow).
  assert (at_path (runtimeDir cacheDir tag) ≠ []) as Hnr by (rewrite Hdir; by destruct (at_path _)).
  pose proof (RemoveAll_spec t fs _ Hnr) as Hr. destruct (os_RemoveAll t fs _) as [fs3 err].
  eapply grown_below; [done|exact Hbelow|apply Hr].
Qed.

(** C14 (safety). However it obtains the llama.cpp program (from the system, its
    cache, an older cache or a release it downloads and unpacks, whatever the
    archive holds and whichever call fails) on a well-formed file tree, provided the
    tag of the latest release, when one is fetched, is a [proper] name of a
    directory (the code uses it unchecked, and a tag that climbs escapes,
    [climbing_tag]), the worker leaves everything outside the runtime's directory
    and the temporary file as it was, but for directories made on the way; and when
    it reports no error, the path it returns is a file of that name, or the one
    found on the system. *)
Theorem ensure_llama_confined (t : Tag) (ctx : Context) (fs : tree) (cacheDir : string) :
  tree_ok fs →
  (∀ release, fetchLatestRelease (t ++ ["release"%string]) ctx = Ok release → proper (ghr_TagName release)) →
  let r := at_path (llama_root cacheDir) in
  let tmp := at_path (temp_name (t ++ ["download"%string])) in
  let '(fs', (binary, status, err)) := EnsureLlamaCPP t ctx fs cacheDir in
  tree_ok fs' ∧
  (∀ k, below r k = false → k ≠ tmp →
     fs' !! k = fs !! k ∨ (fs !! k = None ∧ fs' !! k = Some EDir ∧ below k r = true)) ∧
  match err with
  | None => rs_Ready status = true ∧ rs_BinaryPath status = binary ∧
      (FindSystemLlamaCPP (t ++ ["system"%string]) fs = Ok binary ∨ program_at fs' binary llamaBinaryName)
  | Some e => binary = ""%string ∧ (rs_Error status = runtime_text e ∨ status = mkRuntimeStatus "" false "" "" "" "" "")
  end.
Proof.
  intros Hok Htag r tmp. cut (let '(fs', (binary, status, err)) := EnsureLlamaCPP t ctx fs cacheDir in
    grown (runtime_place r tmp) r fs fs' ∧
    match err with
    | None => rs_Ready status = true ∧ rs_BinaryPath status = binary ∧
        (FindSystemLlamaCPP (t ++ ["system"%string]) fs = Ok binary ∨ program_at fs' binary llamaBinaryName)
    | Some e => binary = ""%string ∧ (rs_Error status = runtime_text e ∨ status = mkRuntimeStatus "" false "" "" "" "" "")
    end).
  { destruct (EnsureLlamaCPP t ctx fs cacheDir) as [fs' [[binary status] err]]. intros [[Hok' Hg] Herr].
    split_and!; [done| |done]. intros k Hb Hk. apply Hg. intros [E|E]; congruence. }
  unfold EnsureLlamaCPP. destruct (FindSystemLlamaCPP _ fs) as [binary|] eqn:Es;
    [split; [by apply grown_refl|]; split_and!; auto|].
  destruct (cachedLlamaCPPBinary _ fs cacheDir) as [[binary version]|] eqn:Ec.
  { split; [by apply grown_refl|]. split_and!; [done..|]. right. by eapply cached_found. }
  pose proof (migrate_dirs_grown tmp (t ++ ["migrate"%string]) fs cacheDir legacyCacheDirs Hok) as Hm. cbv zeta in Hm.
  unfold migrateCachedLlamaCPP. fold (llama_root cacheDir). fold r in Hm.
  destruct (migrate_dirs _ fs _ _) as [fs1 out]. destruct Hm as [Hg1 Hp1].
  destruct out as [[binary version]|e1]; [split; [done|]; split_and!; [done..|]; right; by eapply Hp1|].
  pose proof (grown_ok _ _ _ _ Hg1) as Hok1.
  destruct (fetchLatestRelease _ ctx) as [release|e2] eqn:Ef; [|split; [done|]; by split; [|left]].
  destruct (selectLlamaCPPAsset release GOOS GOARCH) as [selected|e3]; [|split; [done|]; by split; [|left]].
  specialize (Htag release eq_refl). set (dir := runtimeDir cacheDir (ghr_TagName release)).
  destruct (release_dir cacheDir (ghr_TagName release) Htag) as (Hdne & Hend & Hdir & Hbelow). fold dir r in Hdne, Hend, Hdir, Hbelow.
  pose proof (λ t' fs2, release_cleared tmp cacheDir (ghr_TagName release) t' fs2 Htag) as Hrm. cbv zeta in Hrm. fold dir r in Hrm.
  pose proof (Hrm (t ++ ["clear"%string]) fs1 Hok1) as Hg2. destruct (os_RemoveAll _ fs1 dir) as [fs2 [e4|]]; simpl in Hg2.
  { split; [by eapply grown_trans|]. split; auto. }
  pose proof (grown_trans _ _ _ _ _ Hg1 Hg2) as Hg12. pose proof (grown_ok _ _ _ _ Hg2) as Hok2.
  pose proof (grown_mkdir tmp r (t ++ ["mkdir"%string]) fs2 dir Hok2 (or_introl Hbelow)) as Hg3.
  pose proof (MkdirAll_spec (t ++ ["mkdir"%string]) fs2 dir) as Hmk.
  destruct (os_MkdirAll _ fs2 dir) as [fs3 [e5|]]; simpl in Hg3.
  { split; [by eapply grown_trans|]. split; auto. }
  pose proof (grown_trans _ _ _ _ _ Hg12 Hg3) as Hg13. pose proof (grown_ok _ _ _ _ Hg3) as Hok3.
  assert (Hd3 : fs3 !! at_path dir = Some EDir) by (apply Hmk; [done|apply below_refl]).
  pose proof (download_step (t ++ ["download"%string]) fs3 (asset_URL selected) (asset_Name selected) dir Hdne Hend Hok3 Hd3) as Hdl.
  destruct (downloadAndExtract _ fs3 _ _ dir) as [fs4 err4]. simpl in Hdl.
  assert (Hg4 : grown (runtime_place r tmp) r fs fs4).
  { eapply grown_trans; [exact Hg13|]. apply grown_changes; [done|]. eapply changes_weaken; [|exact Hdl].
    intros k [Hk|Hk]; [left; by eapply below_trans|by right]. }
  pose proof (grown_ok _ _ _ _ Hg4) as Hok4.
  assert (Hup : grown (runtime_place r tmp) r fs (os_RemoveAll (t ++ ["cleanup"%string]) fs4 dir).1)
    by (eapply grown_trans; [exact Hg4|by apply Hrm]).
  destruct err4 as [e6|]; [split; [done|]; split; auto|].
  destruct (findBinary _ fs4 dir _) as [binary|e7] eqn:Eb; [|split; [done|]; split; auto].
  split; [done|]. split_and!; [done..|]. right. eapply findBinary_found in Eb; [apply Eb|done..].
Qed.
End runtime.

(** ** Choosing an archive *)

Lemma HasSuffix_app a b : HasSuffix (a +:+ b) b = true.
Proof.
  unfold HasSuffix, HasPrefix. rewrite rev_string_app. by rewrite (proj2 (drop_prefix_Some _ _ (rev_string a)) eq_refl).
Qed.
(** Two strings that differ before either ends. *)
Fixpoint differ (p s : string) : bool :=
  match p, s with
  | String x p, String y s => if Ascii.eqb x y then differ p s else true
  | _, _ => false
  end%string.
Lemma HasSuffix_differ a b p : differ (rev_string p) (rev_string b) = true → HasSuffix (a +:+ b) p = false.
Proof.
  unfold HasSuffix, HasPrefix. rewrite rev_string_app. generalize (rev_string p), (rev_string b), (rev_string a). clear.
  intros p. induction p as [|x p IH]; intros [|y b] a; simpl; try done. by destruct (Ascii.eqb x y); [apply IH|].
Qed.

Lemma fallback_suffix tag assetName want :
  assetName ∈ fallback_names → want ∈ fallback_names →
  HasSuffix ("llama-" +:+ tag +:+ assetName) want = str_eqb assetName want.
Proof.
  intros Hn Hw. rewrite string_app_assoc. case_bool_decide as E; [subst; apply HasSuffix_app|]. apply HasSuffix_differ.
  assert (Forall (λ n, Forall (λ w, n = w ∨ differ (rev_string w) (rev_string n) = true) fallback_names) fallback_names) as Hall
    by (apply (bool_decide_unpack _); by vm_compute).
  rewrite Forall_forall in Hall. specialize (Hall _ Hn). rewrite Forall_forall in Hall. by destruct (Hall _ Hw).
Qed.
Lemma first_asset_found tag (url : string → string) want names :
  names ⊆ fallback_names → want ∈ names → (∀ n, url n ≠ ""%string) →
  first_asset want ((λ n, mkAssetObject ("llama-" +:+ tag +:+ n) (url n)) <$> names) =
  Some (mkAsset ("llama-" +:+ tag +:+ want) (url want)).
Proof.
  intros Hsub Hw Hurl. assert (Hwf : want ∈ fallback_names) by by apply Hsub. induction names as [|n names IH]; [by apply not_elem_of_nil in Hw|].
  cbn [fmap list_fmap first_asset gao_Name gao_BrowserDownloadURL].
  rewrite fallback_suffix by (done || apply Hsub; left). rewrite (bool_decide_eq_false_2 (url n = _)) by done.
  case_bool_decide as E; [by subst|]. simpl. apply IH.
  - intros x Hx. apply Hsub. by right.
  - apply elem_of_cons in Hw as [->|?]; done.
Qed.

(** (functional). When no release can be looked up, the built-in one
    has an archive for each of the six supported platforms and for no other. *)
Theorem fallback_release_covers (tag goos goarch : string) :
  selectLlamaCPPAsset (fallbackLlamaCPPRelease tag) goos goarch =
  match wanted_suffix goos goarch with
  | Some want =>
      Ok (mkAsset ("llama-" +:+ tag +:+ want)
            (("https://github.com/ggml-org/llama.cpp/releases/download/" +:+ tag +:+ "/llama-" +:+ tag) +:+ want))
  | None => Err (UnavailablePlatform (goos +:+ "/" +:+ goarch))
  end.
Proof.
  unfold selectLlamaCPPAsset. destruct (wanted_suffix goos goarch) as [want|] eqn:Ew; [|done].
  assert (want ∈ fallback_names) as Hw.
  { unfold wanted_suffix in Ew. repeat case_match; simplify_eq; apply (bool_decide_unpack _); by vm_compute. }
  unfold fallbackLlamaCPPRelease. cbn [ghr_Assets ghr_TagName].
  rewrite (first_asset_found tag (λ n, ("https://github.com/ggml-org/llama.cpp/releases/download/" +:+ tag +:+ "/llama-" +:+ tag) +:+ n));
    done.
Qed.

(** ** Worked examples *)

Section demo.
Definition demo_files : Files := {|
  wd := "/home/w"; wd_abs := eq_refl; io_fault _ := None; io_part _ := 0%nat; dir_size := 4096 |}.
#[local] Existing Instance demo_files.
#[local] Instance demo_platform : Platform := {| GOOS := "linux"; GOARCH := "amd64" |}.
#[local] Instance demo_texts : RuntimeTexts := {| runtime_text _ := "failed" |}.
#[local] Instance demo_world : World := world_at 1.
(** GitHub's API answers with the release [tag]; every archive holds [names]. *)
Definition demo_host (names : list string) : Host := {|
  look_path _ := None; getenv _ := ""; home_dir := None; user_cache_dir := None; temp_name _ := "/tmp/cmesh-runtime-1";
  web_get _ url := Ok (mkWebReply 200 2 ["{}"%string] None);
  read_zip _ := Err "not a zip"%string;
  read_tar_gz _ := Ok ((λ n, mkTarHeader n TypeReg "program" None) <$> names, None) |}.
Definition demo_release (tag : string) : JsonBody githubRelease := {|
  Decode _ := (mkRelease tag [mkAssetObject "llama-bin-ubuntu-x64.tar.gz" "https://example.org/a"], true) |}.
(** A home and a temporary directory. *)
Definition demo_tree : tree :=
  <[["tmp"%string] := EDir]> (<[["home"; "w"]%string := EDir]> (<[["home"%string] := EDir]> {[ [] := EDir ]})).

(** The program is unpacked where the release says. *)
Example unpacked :
  let '(fs, (binary, status, err)) :=
    EnsureLlamaCPP (H2 := demo_host ["build/bin/llama-cli"%string]) (H4 := demo_release "b1") ["e"%string] Background demo_tree "c" in
  binary = "c/runtimes/llama.cpp/b1/build/bin/llama-cli"%string ∧ err = None ∧
  fs !! ["home"; "w"; "c"; "runtimes"; "llama.cpp"; "b1"; "build"; "bin"; "llama-cli"]%string = Some (EFile "program" 1) ∧
  fs !! ["tmp"; "cmesh-runtime-1"]%string = None.
Proof. vm_compute. by split_and!. Qed.
(** An archive that names a file outside its directory is given up. *)
Example climbing_refused :
  let '(fs, (binary, status, err)) :=
    EnsureLlamaCPP (H2 := demo_host ["llama-cli"; "../../../../evil"]%string) (H4 := demo_release "b1") ["e"%string] Background demo_tree "c" in
  err = Some (UnsafeArchivePath "../../../../evil") ∧
  fs !! ["home"; "w"; "c"; "runtimes"; "llama.cpp"; "b1"; "llama-cli"]%string = None.
Proof. vm_compute. by split_and!. Qed.
(** The tag of a release is joined to the path as it is: one that climbs makes
    the worker clear a directory of its own choosing. *)
Example climbing_tag :
  let fs0 := <[["home"; "w"; "c"]%string := EDir]> (<[["home"; "w"; "c"; "models"]%string := EFile "precious" 0]> demo_tree) in
  (EnsureLlamaCPP (H2 := demo_host ["llama-cli"]%string) (H4 := demo_release "../..") ["e"%string] Background fs0 "c").1
    !! ["home"; "w"; "c"; "models"]%string = None.
Proof. by vm_compute. Qed.

Lemma demo_tree_ok : tree_ok demo_tree.
Proof. apply tree_check_ok, (bool_decide_unpack _). by vm_compute. Qed.
Lemma ensure_llama_confined_witness :
  let '(fs', (binary, status, err)) :=
    EnsureLlamaCPP (H2 := demo_host ["llama-cli"]%string) (H4 := demo_release "b1") ["e"%string] Background demo_tree "c" in
  tree_ok fs' ∧ fs' !! ["home"%string] = Some EDir ∧ rs_Ready status = true.
Proof.
  pose proof (ensure_llama_confined (H2 := demo_host ["llama-cli"]%string) (H4 := demo_release "b1") ["e"%string] Background demo_tree "c"
    demo_tree_ok) as He. cbv zeta in He.
  assert (Hrun : (EnsureLlamaCPP (H2 := demo_host ["llama-cli"]%string) (H4 := demo_release "b1") ["e"%string] Background demo_tree "c").2.2 = None)
    by (vm_compute; reflexivity).
  destruct (EnsureLlamaCPP _ _ _ _) as [fs' [[binary status] err]]. simpl in Hrun. subst err.
  destruct He as (Hok & Hk & Hr & _).
  - intros release. vm_compute. intros [= <-]. by apply (bool_decide_unpack _).
  - split_and!; [done| |done]. destruct (Hk ["home"%string]) as [->|(_ & -> & _)]; [by vm_compute|discriminate|by vm_compute|done].
Defined.
End demo.
