(* ===== verification/MatrixJob.v ===== *)
(** * The matrix multiplication job

    [cmd/cmesh/main.go]: the benchmark job a worker runs by itself.  Two fixed
    matrices are multiplied a number of times and a checksum of the product is
    reported with the time it took. *)

From S2P Require Import Prelude GoString GoSort GoFloat World Json.

Record matrixMultiplyInput := mkMatrixInput { mi_Size : Z; mi_Iterations : Z }.

Record matrixMultiplyResult := mkMatrixResult {
  mmr_Kind : string;
  mmr_Size : Z;
  mmr_Iterations : Z;
  mmr_Operations : Z;
  mmr_DurationMS : Z;
  mmr_GFLOPS : float64;
  mmr_Checksum : float64;
  mmr_WorkerRuntime : string;
}.

(** What the machine decides: [math.Sin], [math.Cos], whether the compiler fuses
    [c + a * b] into one rounding. *)
Class Machine := {
  f_sin : float64 → float64;
  f_cos : float64 → float64;
  mul_add : float64 → float64 → float64 → float64;   (** [a], [b], [c] *)
}.

Inductive matrix_error := InvalidMatrixInput | SizeOutOfRange | IterationsOutOfRange | UnsupportedFloat.

Definition validateMatrixMultiplyInput (input : matrixMultiplyInput) : option matrix_error :=
  first_error [((mi_Size input <? 16) || (2048 <? mi_Size input), SizeOutOfRange);
               ((mi_Iterations input <? 1) || (100 <? mi_Iterations input), IterationsOutOfRange)].

#[export] Instance float64_inhabited : Inhabited float64 := populate f_zero.

Section matrix.
Context `{World, Platform, Machine, Json matrixMultiplyInput, Json matrixMultiplyResult}.

Definition newMatrixMultiplyInput (size iterations : Z) : result matrix_error string :=
  let input := mkMatrixInput size iterations in
  check (validateMatrixMultiplyInput input) (Ok (Marshal input)).

(** The three loops of [multiplySquareMatrices], innermost first; the slices have
    [size * size] elements, so no index is out of range. *)
Definition column_loop (b : list float64) (size row brow : nat) (av : float64) (c : list float64) : list float64 :=
  foldl (λ c j, <[row + j := mul_add av (b !!! (brow + j)) (c !!! (row + j))]> c)%nat c (seq 0 size).
Definition row_loop (a b : list float64) (size i : nat) (c : list float64) : list float64 :=
  let row := (i * size)%nat in
  foldl (λ c k, column_loop b size row (k * size) (a !!! (row + k)) c)%nat c (seq 0 size).
Definition multiplySquareMatrices (a b c : list float64) (size : nat) : list float64 :=
  foldl (λ c i, row_loop a b size i c) c (seq 0 size).

Definition half : float64 := f_div (f_of_Z 1) (f_of_Z 2).
Definition matrix_a (size : nat) : list float64 :=
  (λ i, f_mul (f_sin (f_of_Z (Z.of_nat i mod 97))) half) <$> seq 0 (size * size).
Definition matrix_b (size : nat) : list float64 :=
  (λ i, f_mul (f_cos (f_of_Z (Z.of_nat i mod 89))) half) <$> seq 0 (size * size).

(** Each round clears [c] and multiplies again. *)
Fixpoint rounds (a b c : list float64) (size iterations : nat) : list float64 :=
  match iterations with
  | O => c
  | S iterations =>
      rounds a b (multiplySquareMatrices a b ((λ _, f_zero) <$> c) size) size iterations
  end.

Definition checksum (c : list float64) (size : nat) : float64 :=
  foldl (λ sum '(i, value), if (i mod size =? 0)%nat then f_add sum value else sum) f_zero
    (zip (seq 0 (length c)) c).

(** [time.Duration] counts nanoseconds. *)
Definition Milliseconds (d : Z) : Z := Z.quot d 1000000.
Definition Seconds (d : Z) : float64 :=
  f_add (f_of_Z (Z.quot d Second)) (f_div (f_of_Z (Z.rem d Second)) (f_of_Z Second)).

Definition matrix_request (input : string) : result matrix_error matrixMultiplyInput :=
  if blank input then Ok (mkMatrixInput 192 3)
  else match Unmarshal input with Some req => Ok req | None => Err InvalidMatrixInput end.

(** [json.Marshal] refuses infinite and undefined numbers. *)
Definition executeMatrixMultiplyJob (input : string) : result matrix_error string :=
  match matrix_request input with
  | Err e => Err e
  | Ok req =>
      check (validateMatrixMultiplyInput req)
      (let size := Z.to_nat (mi_Size req) in
       let c := rounds (matrix_a size) (matrix_b size) (replicate (size * size) f_zero) size
                  (Z.to_nat (mi_Iterations req)) in
       let duration := time_Sub (w_clock ["matrix"; "end"]) (w_clock ["matrix"; "start"]) in
       let sum := checksum c size in
       let operations := i64 (2 * mi_Size req * mi_Size req * mi_Size req * mi_Iterations req) in
       let gflops := f_div (f_div (f_of_Z operations) (Seconds duration)) (f_of_Z 1000000000) in
       if is_finite gflops && is_finite sum then
         Ok (Marshal (mkMatrixResult "matrix_multiply" (mi_Size req) (mi_Iterations req) operations
               (Milliseconds duration) gflops sum platform))
       else Err UnsupportedFloat)
  end.

(** ** The loops compute the product

    The reference: the entry of row [i] and column [j], the products added in
    the order of the middle index onto the entry [c] had. *)
Definition dot (a b : list float64) (size i j : nat) (c0 : float64) : float64 :=
  foldl (λ acc k, mul_add (a !!! (i * size + k)) (b !!! (k * size + j)) acc)%nat c0 (seq 0 size).

Lemma column_loop_length b size row brow av c : length (column_loop b size row brow av c) = length c.
Proof.
  unfold column_loop. generalize (seq 0 size) as l. intros l. revert c.
  induction l as [|j l IH]; intros c; simpl; [done|]. by rewrite IH, length_insert.
Qed.

(** One pass over a row changes the entries of that row only. *)
Lemma column_loop_lookup b size row brow av c p :
  (row + size ≤ length c)%nat → (p < length c)%nat →
  column_loop b size row brow av c !!! p =
  if bool_decide (row ≤ p < row + size)%nat then mul_add av (b !!! (brow + (p - row))%nat) (c !!! p) else c !!! p.
Proof.
  intros Hsize Hp. unfold column_loop.
  assert (Hgen : ∀ m, (m ≤ size)%nat →
    let c' := foldl (λ c j, <[row + j := mul_add av (b !!! (brow + j)) (c !!! (row + j))]> c)%nat c (seq 0 m) in
    length c' = length c ∧ c' !!! p =
    if bool_decide (row ≤ p < row + m)%nat then mul_add av (b !!! (brow + (p - row))%nat) (c !!! p) else c !!! p).
  { induction m as [|m IH]; intros Hm; cbn zeta.
    { simpl. rewrite bool_decide_eq_false_2 by lia. done. }
    destruct IH as [Hlen IH]; [lia|]. rewrite seq_S, foldl_app. cbn [foldl Nat.add].
    split; [by rewrite length_insert|]. destruct (decide (p = (row + m)%nat)) as [->|Hne].
    - rewrite list_lookup_total_insert_eq, IH by lia.
      rewrite bool_decide_eq_false_2, bool_decide_eq_true_2 by lia. by replace (row + m - row)%nat with m by lia.
    - rewrite list_lookup_total_insert_ne, IH by lia.
      repeat case_bool_decide; (done || lia). }
  apply (Hgen size). lia.
Qed.

Lemma row_loop_length a b size i c : length (row_loop a b size i c) = length c.
Proof.
  unfold row_loop. cbn zeta. generalize (seq 0 size) as l. intros l. revert c.
  induction l as [|k l IH]; intros c; simpl; [done|]. by rewrite IH, column_loop_length.
Qed.

Lemma row_loop_lookup a b size i c p :
  length c = (size * size)%nat → (i < size)%nat → (p < length c)%nat →
  row_loop a b size i c !!! p =
  if bool_decide (i * size ≤ p < i * size + size)%nat then dot a b size i (p - i * size) (c !!! p) else c !!! p.
Proof.
  intros Hc Hi Hp. unfold row_loop, dot. cbn zeta. generalize (seq 0 size) as l. intros l. revert c Hc Hp.
  assert (i * size + size ≤ size * size)%nat as Hrow by nia.
  induction l as [|k l IH]; intros c Hc Hp; cbn [foldl]; [by case_bool_decide|].
  rewrite IH by (by rewrite column_loop_length). rewrite column_loop_lookup by lia. by case_bool_decide.
Qed.

Lemma row_index size m i j :
  (j < size)%nat → (m * size ≤ i * size + j < m * size + size)%nat ↔ i = m.
Proof.
  intros Hj. split; [|intros ->; lia]. intros [Hlo Hhi].
  destruct (Nat.lt_trichotomy i m) as [Hlt|[->|Hlt]]; [|done|];
    pose proof (Nat.mul_le_mono_r _ _ size Hlt); simpl in *; lia.
Qed.

(** The i-k-j loops give every entry of the product, summed in the order of [k]. *)
Lemma multiply_lookup a b c size :
  length c = (size * size)%nat →
  length (multiplySquareMatrices a b c size) = length c ∧
  ∀ i j, (i < size)%nat → (j < size)%nat →
    multiplySquareMatrices a b c size !!! (i * size + j)%nat = dot a b size i j (c !!! (i * size + j)%nat).
Proof.
  intros Hc. unfold multiplySquareMatrices.
  assert (Hgen : ∀ m, (m ≤ size)%nat →
    let c' := foldl (λ c i, row_loop a b size i c) c (seq 0 m) in
    length c' = length c ∧ ∀ i j, (i < size)%nat → (j < size)%nat →
      c' !!! (i * size + j)%nat =
      if bool_decide (i < m)%nat then dot a b size i j (c !!! (i * size + j)%nat) else c !!! (i * size + j)%nat).
  { induction m as [|m IH]; intros Hm; cbn zeta; [done|].
    destruct IH as [Hlen IH]; [lia|]. rewrite seq_S, foldl_app. cbn [foldl Nat.add].
    set (c' := foldl _ c (seq 0 m)) in *.
    split; [by rewrite row_loop_length|].
    intros i j Hi Hj. assert (i * size + j < length c')%nat as Hp by nia.
    rewrite row_loop_lookup, IH by (done || congruence || lia).
    rewrite (bool_decide_ext _ _ (row_index size m i j Hj)).
    destruct (decide (i = m)) as [->|Hne]; [|by repeat case_bool_decide; (done || lia)].
    rewrite bool_decide_eq_true_2, bool_decide_eq_false_2, bool_decide_eq_true_2 by lia. f_equal. lia. }
  destruct (Hgen size) as [Hlen Hl]; [lia|]. split; [done|]. intros i j Hi Hj.
  rewrite Hl by done. by rewrite bool_decide_eq_true_2.
Qed.

Lemma multiply_length a b c size : length (multiplySquareMatrices a b c size) = length c.
Proof.
  unfold multiplySquareMatrices. generalize (seq 0 size) as l. intros l. revert c.
  induction l as [|i l IH]; intros c; simpl; [done|]. by rewrite IH, row_loop_length.
Qed.

Lemma const_replicate {A} (x : A) (c : list A) : (λ _, x) <$> c = replicate (length c) x.
Proof. induction c as [|y c IH]; csimpl; [done|by rewrite IH]. Qed.

(** Each round starts from zero, so their number does not matter. *)
Lemma rounds_product a b c size n :
  rounds a b c size (S n) = multiplySquareMatrices a b (replicate (length c) f_zero) size.
Proof.
  revert c. induction n as [|n IH]; intros c; cbn [rounds]; [by rewrite const_replicate|].
  cbn [rounds] in IH. by rewrite IH, multiply_length, length_fmap.
Qed.

(** The checksum adds the first entry of each row. *)
Lemma zip_indices (c : list float64) n :
  zip (seq n (length c)) c = (λ p, (p, c !!! (p - n)%nat)) <$> seq n (length c).
Proof.
  revert n. induction c as [|x c IH]; intros n; csimpl; [done|]. rewrite Nat.sub_diag, IH. f_equal.
  apply list_fmap_ext. intros k p Hp. apply lookup_seq in Hp as [-> _].
  by replace (S n + k - n)%nat with (S (S n + k - S n)) by lia.
Qed.

Lemma skip_row size m k (f : float64 → nat → float64) x :
  (0 < m)%nat → (m + k ≤ size)%nat → ∀ q,
  foldl (λ sum p, if (p mod size =? 0)%nat then f sum p else sum) x (seq (q * size + m) k) = x.
Proof.
  intros Hm Hk q. revert m Hm Hk. induction k as [|k IH]; intros m Hm Hk; simpl; [done|].
  rewrite Nat.add_comm, Nat.Div0.mod_add, Nat.mod_small by lia.
  destruct (Nat.eqb_spec m 0) as [->|_]; [lia|].
  replace (S (m + q * size))%nat with (q * size + S m)%nat by lia. apply IH; lia.
Qed.

Lemma checksum_first_column c size :
  (0 < size)%nat → length c = (size * size)%nat →
  checksum c size = foldl (λ sum i, f_add sum (c !!! (i * size)%nat)) f_zero (seq 0 size).
Proof.
  intros Hs Hc. unfold checksum. rewrite zip_indices, foldl_fmap, Hc.
  assert (Hgen : ∀ m, foldl (λ sum p, if (p mod size =? 0)%nat then f_add sum (c !!! (p - 0)%nat) else sum) f_zero
      (seq 0 (m * size)) = foldl (λ sum i, f_add sum (c !!! (i * size)%nat)) f_zero (seq 0 m)); [|apply Hgen].
  induction m as [|m IH]; [done|].
  rewrite seq_S, foldl_app, <- IH. replace (S m * size)%nat with (m * size + S (size - 1))%nat by lia.
  rewrite seq_app, foldl_app. cbn [foldl seq Nat.add].
  rewrite Nat.Div0.mod_mul. cbn [Nat.eqb]. rewrite Nat.sub_0_r.
  replace (S (m * size)) with (m * size + 1)%nat by lia.
  apply (skip_row size 1 (size - 1) (λ sum p, f_add sum (c !!! (p - 0)%nat))); lia.
Qed.

(** The number reported as checksum. *)
Definition first_column_sum (size : nat) : float64 :=
  foldl (λ sum i, f_add sum (dot (matrix_a size) (matrix_b size) size i 0 f_zero)) f_zero (seq 0 size).

Lemma job_checksum size n :
  (0 < size)%nat →
  checksum (rounds (matrix_a size) (matrix_b size) (replicate (size * size) f_zero) size (S n)) size =
  first_column_sum size.
Proof.
  intros Hs. rewrite rounds_product, length_replicate.
  assert (length (replicate (size * size) f_zero) = size * size)%nat as Hz by apply length_replicate.
  rewrite checksum_first_column by (by rewrite ?multiply_length). unfold first_column_sum.
  apply foldl_ext_in. intros sum i Hi. f_equal. apply elem_of_seq in Hi.
  destruct (multiply_lookup (matrix_a size) (matrix_b size) _ size Hz) as [_ Hl].
  specialize (Hl i 0%nat). rewrite Nat.add_0_r in Hl. rewrite Hl by lia.
  by rewrite lookup_total_replicate_2 by nia.
Qed.

(** (equivalence). The matrix job computes what it claims: a request within
    the limits either cannot be reported, when a number is infinite or undefined,
    or is answered with the true number of operations and, whatever the number of
    rounds and the loop order, the sum over the first column of the product, each
    entry summed in the order of the middle index; any other request is refused. *)
Theorem matrix_job_outcome (input : string) :
  match executeMatrixMultiplyJob input with
  | Ok text => ∃ req r, matrix_request input = Ok req ∧ 16 ≤ mi_Size req ≤ 2048 ∧ 1 ≤ mi_Iterations req ≤ 100 ∧
      text = Marshal r ∧ mmr_Size r = mi_Size req ∧ mmr_Iterations r = mi_Iterations req ∧
      mmr_Operations r = 2 * mi_Size req ^ 3 * mi_Iterations req ∧
      mmr_Checksum r = first_column_sum (Z.to_nat (mi_Size req))
  | Err UnsupportedFloat => ∃ req, matrix_request input = Ok req ∧ validateMatrixMultiplyInput req = None
  | Err e => matrix_request input = Err e ∨
      ∃ req, matrix_request input = Ok req ∧ validateMatrixMultiplyInput req = Some e
  end.
Proof.
  unfold executeMatrixMultiplyJob. destruct (matrix_request input) as [req|e] eqn:Er.
  2:{ unfold matrix_request in Er. destruct (blank input); [done|].
      destruct (Unmarshal input); [done|]. injection Er as <-. by left. }
  unfold check. destruct (validateMatrixMultiplyInput req) as [e|] eqn:Ev.
  { pose proof Ev as Ev'. unfold validateMatrixMultiplyInput in Ev. cbn [first_error] in Ev.
    repeat case_match; simplify_eq; eauto. }
  cbv zeta. destruct (is_finite _ && is_finite _); [|by exists req].
  unfold validateMatrixMultiplyInput in Ev. apply first_error_None in Ev.
  rewrite !Forall_cons in Ev. cbn [fst] in Ev. destruct Ev as (Hsize & Hiter & _).
  apply orb_false_iff in Hsize as [?%Z.ltb_ge ?%Z.ltb_ge], Hiter as [?%Z.ltb_ge ?%Z.ltb_ge].
  eexists req, _. split_and!; try done; cbn.
  - rewrite i64_small; [ring|].
    assert (0 ≤ mi_Size req * mi_Size req ≤ 2048 * 2048) by nia.
    assert (0 ≤ mi_Size req * mi_Size req * mi_Size req ≤ 2048 * 2048 * 2048) by nia. nia.
  - destruct (Z.to_nat (mi_Iterations req)) as [|n] eqn:En; [lia|]. apply job_checksum. lia.
Qed.
End matrix.

(** ** A worked example *)

Section demo.
#[local] Instance no_fusion : Machine := {|
  f_sin x := x; f_cos x := x; mul_add a b c := f_add c (f_mul a b) |}.
#[local] Instance arm : Platform := {| GOOS := "linux"; GOARCH := "arm64" |}.
(** The rows (0 1), (2 3) times (4 5), (6 7), onto zeros and onto ones. *)
Definition small (l : list Z) : list float64 := f_of_Z <$> l.
Example two_by_two :
  multiplySquareMatrices (small [0; 1; 2; 3]) (small [4; 5; 6; 7]) (small [0; 0; 0; 0]) 2 = small [6; 7; 26; 31] ∧
  multiplySquareMatrices (small [0; 1; 2; 3]) (small [4; 5; 6; 7]) (small [1; 1; 1; 1]) 2 = small [7; 8; 27; 32].
Proof. split; vm_compute; reflexivity. Qed.
(** The smallest job; one second for 8192 operations. *)
#[local] Instance request_codec : Json matrixMultiplyInput := fixed_codec (mkMatrixInput 16 1).
#[local] Instance result_codec : Json matrixMultiplyResult := {|
  Marshal r := Itoa (mmr_Operations r); Unmarshal _ := None; json_ok _ := False;
  json_roundtrip x H := match H with end |}.
#[local] Instance one_second : World := {|
  w_clock t := if bool_decide (t = ["matrix"; "end"]%string) then Second else 0;
  w_perm _ _ l := l; w_perm_ok _ _ _ := reflexivity _; w_rand _ := None; w_fconv _ := 0 |}.
Example smallest_job : executeMatrixMultiplyJob "x" = Ok "8192"%string.
Proof. vm_compute. reflexivity. Qed.
(** A clock too coarse to see the job run: the rate is infinite, and the result
    cannot be encoded. *)
Example unmeasurable_job : executeMatrixMultiplyJob (H := world_at 0) "x" = Err UnsupportedFloat.
Proof. vm_compute. reflexivity. Qed.
End demo.
