(* ===== verification/Prompt.v ===== *)
(** * Prompts and the text of models

    [cmd/cmesh/main.go]: the chat prompt each family of models expects, and the
    cleaning of what a model prints: chat-template tokens, hidden reasoning,
    echoed roles and the lines of the command-line program. *)

From S2P Require Import Prelude GoString Types Models Transport.

(** ** More of package strings *)

(** strings.Index and strings.LastIndex; [None] is -1. *)
Fixpoint Index (s sub : string) : option nat :=
  if HasPrefix s sub then Some O
  else match s with "" => None | String _ s' => S <$> Index s' sub end%string.
Fixpoint LastIndex (s sub : string) : option nat :=
  match match s with "" => None | String _ s' => LastIndex s' sub end%string with
  | Some n => Some (S n)
  | None => if HasPrefix s sub then Some O else None
  end.

(** The slices [s[:n]] and [s[n:]], which panic when [n] is beyond the end. *)
Fixpoint slice_to (s : string) (n : nat) : option string :=
  match n, s with
  | O, _ => Some ""%string
  | S n, String a s => String a <$> slice_to s n
  | S _, ""%string => None
  end.
Fixpoint slice_from (s : string) (n : nat) : option string :=
  match n, s with
  | O, _ => Some s
  | S n, String _ s => slice_from s n
  | S _, ""%string => None
  end.

(** strings.NewReplacer(old1, new, old2, new, ...).Replace with the same [new]
    for all: at each position the first of [olds] that matches.  Each round
    consumes a byte, so the length is fuel enough. *)
Fixpoint replace_fuel (fuel : nat) (olds : list string) (new s : string) : string :=
  match fuel, s with
  | S fuel, String a s' =>
      match drop_any olds s with
      | Some rest => new +:+ replace_fuel fuel olds new rest
      | None => String a (replace_fuel fuel olds new s')
      end
  | _, _ => s
  end.
Definition Replace (olds : list string) (new s : string) : string := replace_fuel (String.length s) olds new s.
Definition ReplaceAll (s old new : string) : string := Replace [old] new s.

Definition newline : Ascii.ascii := Ascii.ascii_of_nat 10.
Definition nl : string := String newline "".
Definition crlf : string := bytes [13; 10]%nat.
Definition Lines (s : string) : list string := Split (ReplaceAll s crlf nl) newline.

(** ** Prompts *)

(** Four of the chat formats write a system part, a part per message that is not
    a system message, and the cue for the answer. *)
Definition is_system (m : ChatMessage) : bool := str_eqb (msg_Role m) "system".
Definition is_assistant (m : ChatMessage) : bool := str_eqb (msg_Role m) "assistant".
Fixpoint turns (turn : ChatMessage → string) (messages : list ChatMessage) : string :=
  match messages with
  | [] => ""
  | m :: messages => if is_system m then turns turn messages else turn m +:+ turns turn messages
  end.

Definition qwenRole (role : string) : string := if str_eqb role "assistant" then "assistant" else "user".

Definition qwenChatPrompt (systemPrompt : string) (messages : list ChatMessage) : string :=
  ("<|im_start|>system" +:+ nl +:+ systemPrompt +:+ "<|im_end|>" +:+ nl)
  +:+ turns (λ m, ("<|im_start|>" +:+ qwenRole (msg_Role m) +:+ nl) +:+ msg_Content m +:+ ("<|im_end|>" +:+ nl)) messages
  +:+ ("<|im_start|>assistant" +:+ nl).

Definition gemmaChatPrompt (systemPrompt : string) (messages : list ChatMessage) : string :=
  (if str_eqb systemPrompt "" then ""
   else "<start_of_turn>user" +:+ nl +:+ systemPrompt +:+ "<end_of_turn>" +:+ nl
        +:+ "<start_of_turn>model" +:+ nl +:+ "Understood.<end_of_turn>" +:+ nl)
  +:+ turns (λ m, ("<start_of_turn>" +:+ (if is_assistant m then "model" else "user") +:+ nl)
                   +:+ msg_Content m +:+ ("<end_of_turn>" +:+ nl)) messages
  +:+ ("<start_of_turn>model" +:+ nl).

Definition phiChatPrompt (systemPrompt : string) (messages : list ChatMessage) : string :=
  ("<|system|>" +:+ nl +:+ systemPrompt +:+ "<|end|>" +:+ nl)
  +:+ turns (λ m, ("<|" +:+ (if is_assistant m then "assistant" else "user") +:+ "|>" +:+ nl)
                   +:+ msg_Content m +:+ ("<|end|>" +:+ nl)) messages
  +:+ ("<|assistant|>" +:+ nl).

Definition llamaChatPrompt (systemPrompt : string) (messages : list ChatMessage) : string :=
  ("System: " +:+ systemPrompt +:+ nl +:+ nl)
  +:+ turns (λ m, ((if is_assistant m then "Assistant" else "User") +:+ ": ") +:+ msg_Content m +:+ (nl +:+ nl)) messages
  +:+ "Assistant:".

(** The state of the Mistral loop: the text so far, the system prompt still to
    be written, and the user messages since the last answer. *)
Record mistral_state := mkMistral { mi_text : string; mi_system : string; mi_pending : string }.

Definition mistral_step (st : mistral_state) (m : ChatMessage) : mistral_state :=
  if is_system m then st
  else if is_assistant m then
    let st :=
      if str_eqb (mi_pending st) "" then st
      else mkMistral
             (mi_text st +:+ "[INST] "
              +:+ (if str_eqb (mi_system st) "" then "" else mi_system st +:+ nl +:+ nl)
              +:+ mi_pending st +:+ " [/INST] ")
             "" "" in
    mkMistral (mi_text st +:+ msg_Content m +:+ " ") (mi_system st) (mi_pending st)
  else
    mkMistral (mi_text st) (mi_system st)
      (if str_eqb (mi_pending st) "" then msg_Content m else mi_pending st +:+ nl +:+ nl +:+ msg_Content m).

Definition mistralChatPrompt (systemPrompt : string) (messages : list ChatMessage) : string :=
  let st := foldl mistral_step (mkMistral "" systemPrompt "") messages in
  if str_eqb (mi_pending st) "" then mi_text st
  else mi_text st +:+ "[INST] "
       +:+ (if str_eqb (mi_system st) "" then "" else mi_system st +:+ nl +:+ nl)
       +:+ mi_pending st +:+ " [/INST]".

(** ** Adapters *)

Record ModelAdapter := mkModelAdapter {
  ma_Name : string;
  ma_Prompt : string → list ChatMessage → string;
  ma_SystemPromptSuffix : string;
  ma_StopSequences : list string;
  ma_ContextFloor : Z;
}.

Definition qwenAdapter : ModelAdapter :=
  mkModelAdapter "qwen" qwenChatPrompt "Prefer concise, natural answers."
    ["<|im_end|>"; "<|im_start|>user"; "<|im_start|>system"] 4096.
Definition deepSeekQwenAdapter : ModelAdapter :=
  mkModelAdapter "deepseek-qwen" (ma_Prompt qwenAdapter)
    "Return only the final answer unless the user explicitly asks for reasoning."
    (ma_StopSequences qwenAdapter) (ma_ContextFloor qwenAdapter).
Definition gemmaAdapter : ModelAdapter :=
  mkModelAdapter "gemma" gemmaChatPrompt "Keep answers clear and conversational."
    ["<end_of_turn>"; "<start_of_turn>user"] 4096.
Definition mistralAdapter : ModelAdapter :=
  mkModelAdapter "mistral" mistralChatPrompt "Be practical and concise." ["</s>"; "[INST]"] 4096.
Definition phiAdapter : ModelAdapter :=
  mkModelAdapter "phi" phiChatPrompt "Keep answers short unless more detail is needed."
    ["<|end|>"; "<|user|>"] 4096.
Definition llamaAdapter : ModelAdapter :=
  mkModelAdapter "llama" llamaChatPrompt "" ["</s>"; "User:"] 4096.

Section adapters.
Context `{LowerCase}.

Definition modelAdapterFor (model : Model) : ModelAdapter :=
  let id := ToLower (model_ID model) in
  let family := ToLower (model_Family model) in
  if Contains id "deepseek" then deepSeekQwenAdapter
  else if str_eqb family "qwen" then qwenAdapter
  else if str_eqb family "gemma" then gemmaAdapter
  else if str_eqb family "mistral" then mistralAdapter
  else if str_eqb family "phi" then phiAdapter
  else llamaAdapter.

Definition adapter_SystemPrompt (a : ModelAdapter) (model : Model) : string :=
  let preset := TrimSpace (qp_SystemPrompt (QualityPresetFor model)) in
  if negb (str_eqb preset "") then preset
  else let suffix := TrimSpace (ma_SystemPromptSuffix a) in
       if str_eqb suffix "" then preset_base else preset_base +:+ " " +:+ suffix.

Definition adapter_ContextSize (a : ModelAdapter) (model : Model) : Z :=
  let floor := if ma_ContextFloor a <=? 0 then 4096 else ma_ContextFloor a in
  if (0 <? model_Context model) && (model_Context model <? floor) then model_Context model else floor.

Definition modelSystemPrompt (model : Model) : string := adapter_SystemPrompt (modelAdapterFor model) model.

Definition modelStopSequences (model : Model) : list string :=
  match ma_StopSequences (modelAdapterFor model) with
  | [] => ma_StopSequences llamaAdapter
  | stops => stops
  end.

(** The role of a prompt message; a message without content is dropped. *)
Definition prompt_role (role : string) : string :=
  let role := ToLower (TrimSpace role) in
  if negb (str_eqb role "assistant") && negb (str_eqb role "system") then "user" else role.
Fixpoint normalize_loop (messages : list ChatMessage) : list ChatMessage :=
  match messages with
  | [] => []
  | m :: messages =>
      let content := TrimSpace (msg_Content m) in
      if str_eqb content "" then normalize_loop messages
      else mkChatMessage (prompt_role (msg_Role m)) content :: normalize_loop messages
  end.
Definition normalizePromptMessages (messages : list ChatMessage) (fallbackPrompt : string) : list ChatMessage :=
  match normalize_loop messages with
  | [] => if blank fallbackPrompt then [] else [mkChatMessage "user" (TrimSpace fallbackPrompt)]
  | out => out
  end.

(** The messages of the prompt, and the prompt. *)
Definition prompt_messages (req : GenerateInput) : list ChatMessage :=
  match normalizePromptMessages (gen_Messages req) (gen_Prompt req) with
  | [] => [mkChatMessage "user" (TrimSpace (gen_Prompt req))]
  | messages => messages
  end.
Definition modelPrompt (model : Model) (req : GenerateInput) : string :=
  let systemPrompt := TrimSpace (gen_SystemPrompt req) in
  let systemPrompt := if str_eqb systemPrompt "" then modelSystemPrompt model else systemPrompt in
  ma_Prompt (modelAdapterFor model) systemPrompt (prompt_messages req).

(** ** Cleaning the output *)

Definition template_tokens : list string :=
  ["<|im_start|>system"; "<|im_start|>user"; "<|im_start|>assistant"; "<|im_start|>"; "<|im_end|>";
   "</|im_start|>"; "</|im_end|>"; "<start_of_turn>user"; "<start_of_turn>model"; "<start_of_turn>";
   "<end_of_turn>"; "<|system|>"; "<|user|>"; "<|assistant|>"; "<|end|>"].
Definition removeChatTemplateTokens (text : string) : string := Replace template_tokens "" text.

(** One round of the loop that removes [<think>...</think>]: the positions are
    found in the lower-case text and used to slice the text itself. *)
Inductive reasoning_round := ReasoningDone (text : string) | ReasoningAgain (text : string) | ReasoningPanic.

Definition reasoning_step (text : string) : reasoning_round :=
  match Index (ToLower text) "<think>" with
  | None => ReasoningDone text
  | Some start =>
      match slice_to text start, slice_from text start with
      | Some before, Some tail =>
          match Index (ToLower tail) "</think>" with
          | None => ReasoningDone before
          | Some fin =>
              match slice_from text (start + fin + String.length "</think>") with
              | Some after => ReasoningAgain (before +:+ after)
              | None => ReasoningPanic
              end
          end
      | _, _ => ReasoningPanic
      end
  end.

(** The loop; [Blocked] when it has not ended after [fuel] rounds. *)
Fixpoint reasoning_loop (fuel : nat) (text : string) : outcome string :=
  match reasoning_step text with
  | ReasoningDone text => Returned text
  | ReasoningPanic => Panicked
  | ReasoningAgain text => match fuel with O => Blocked | S fuel => reasoning_loop fuel text end
  end.

(** The part after the loop. *)
Definition drop_start_thinking (text : string) : outcome string :=
  match LastIndex (ToLower text) "[start thinking]" with
  | None => Returned (TrimSpace (ReplaceAll text "[Start thinking]" ""))
  | Some idx =>
      match slice_from text (idx + String.length "[start thinking]") with
      | None => Panicked
      | Some after =>
          let text := if negb (blank after) then TrimSpace after else text in
          Returned (TrimSpace (ReplaceAll text "[Start thinking]" ""))
      end
  end.

Definition removeReasoningText (text : string) : outcome string :=
  match reasoning_loop (String.length text) text with
  | Returned text => drop_start_thinking text
  | Blocked => Blocked
  | Panicked => Panicked
  end.

Definition isChatTemplateNoise (lower : string) : bool :=
  str_eqb lower "<" || str_eqb lower "</"
  || existsb (HasPrefix lower)
       ["<|im_start|"; "<|im_end|"; "</|im_start|"; "</|im_end|"; "<start_of_turn>"; "<end_of_turn>";
        "<|system|>"; "<|user|>"; "<|assistant|>"; "<|end|>"].

Definition isRoleEcho (lower : string) : bool :=
  bool_decide (TrimSet [":"%string] (TrimSpace lower) ∈ ["user"; "assistant"; "system"; "model"]%string).

(** The loop over the lines; the lines kept are newest first. *)
Fixpoint sanitize_loop (seenContent : bool) (cleaned lines : list string) : list string :=
  match lines with
  | [] => reverse cleaned
  | line :: lines =>
      let trimmed := TrimSpace line in
      if str_eqb trimmed "" then
        match cleaned with
        | last :: _ => if str_eqb last "" then sanitize_loop seenContent cleaned lines
                       else sanitize_loop seenContent (""%string :: cleaned) lines
        | [] => sanitize_loop seenContent cleaned lines
        end
      else
        let lower := ToLower trimmed in
        if isChatTemplateNoise lower || isRoleEcho lower
           || negb seenContent && HasPrefix lower "you will answer the user's question"
        then sanitize_loop seenContent cleaned lines
        else sanitize_loop true (line :: cleaned) lines
  end.

Definition sanitizeModelText (text : string) : outcome string :=
  match removeReasoningText (removeChatTemplateTokens text) with
  | Returned text => Returned (TrimSpace (Join (sanitize_loop false [] (Lines text)) nl))
  | Blocked => Blocked
  | Panicked => Panicked
  end.

(** The lines the command-line program prints around the answer. *)
Definition cli_noise (trimmed : string) : bool :=
  str_eqb trimmed "Exiting..." || str_eqb trimmed "Loading model..."
  || HasPrefix trimmed "build      :" || HasPrefix trimmed "model      :" || HasPrefix trimmed "modalities :"
  || Contains trimmed "available commands:" || HasPrefix trimmed "/exit " || HasPrefix trimmed "/regen"
  || HasPrefix trimmed "/clear" || HasPrefix trimmed "/read " || HasPrefix trimmed "/glob "
  || Contains trimmed "▄▄" || Contains trimmed "██" || Contains trimmed "▀▀".

(** The loop over the output; the lines collected are newest first. *)
Fixpoint clean_output_loop (afterPrompt : bool) (collected lines : list string) : list string :=
  match lines with
  | [] => reverse collected
  | line :: lines =>
      let trimmed := TrimSpace line in
      if str_eqb trimmed "" then
        clean_output_loop afterPrompt
          (match collected with [] => [] | _ => if afterPrompt then ""%string :: collected else collected end) lines
      else if HasPrefix trimmed "> " then clean_output_loop true collected lines
      else if Contains trimmed "<|im_start|>assistant" then clean_output_loop true collected lines
      else if Contains trimmed "<|im_start|>" || Contains trimmed "<|im_end|>" then
        if afterPrompt then
          let line := removeChatTemplateTokens line in
          if str_eqb (TrimSpace line) "" then clean_output_loop afterPrompt collected lines
          else clean_output_loop afterPrompt (line :: collected) lines
        else clean_output_loop afterPrompt collected lines
      else if cli_noise trimmed then clean_output_loop afterPrompt collected lines
      else clean_output_loop afterPrompt (if afterPrompt then line :: collected else collected) lines
  end.

Definition cleanLlamaOutput (output : string) : outcome string :=
  let text := TrimSpace (Join (clean_output_loop false [] (Lines output)) nl) in
  if str_eqb text "" then sanitizeModelText output
  else
    match sanitizeModelText text with
    | Returned text =>
        Returned (if 8192 <? payload_len text then default text (slice_to text (Z.to_nat 8192)) else text)
    | Blocked => Blocked
    | Panicked => Panicked
    end.
End adapters.

(** A buffer that keeps the first bytes written to it. *)
Record limitedBuffer := mkLimitedBuffer { lb_Buffer : string; lb_limit : Z; lb_truncated : bool }.

(** [Write] returns the length it was given, whatever it kept. *)
Definition limitedBuffer_Write (b : limitedBuffer) (p : string) : limitedBuffer * Z :=
  if lb_limit b <=? 0 then (b, payload_len p) else
  let remaining := lb_limit b - payload_len (lb_Buffer b) in
  if remaining <=? 0 then (mkLimitedBuffer (lb_Buffer b) (lb_limit b) true, payload_len p)
  else if remaining <? payload_len p then
    (mkLimitedBuffer (lb_Buffer b +:+ default ""%string (slice_to p (Z.to_nat remaining))) (lb_limit b) true,
     payload_len p)
  else (mkLimitedBuffer (lb_Buffer b +:+ p) (lb_limit b) (lb_truncated b), payload_len p).

(** ** Slices and searches *)

Lemma slice_to_Some s n : (n ≤ String.length s)%nat → ∃ a b, slice_to s n = Some a ∧ slice_from s n = Some b ∧
  s = a +:+ b ∧ String.length a = n.
Proof.
  revert n. induction s as [|x s IH]; intros [|n] Hn; simpl in *; try lia; [by exists "", ""|by exists "", (String x s)|].
  destruct (IH n) as (a & b & -> & -> & -> & Hl); [lia|]. exists (String x a), b. simpl. by rewrite Hl.
Qed.
Lemma slice_from_Some s n b : slice_from s n = Some b → (String.length b + n = String.length s)%nat.
Proof.
  revert n. induction s as [|x s IH]; intros [|n] H; simpl in *; [by injection H as <-|done|by injection H as <-; simpl; lia|].
  apply IH in H. lia.
Qed.
Lemma slice_to_length s n a : slice_to s n = Some a → String.length a = n ∧ (n ≤ String.length s)%nat.
Proof.
  revert n a. induction s as [|x s IH]; intros [|n] a H; simpl in *;
    [by injection H as <-|done|injection H as <-; simpl; lia|].
  destruct (slice_to s n) as [a'|] eqn:E; simpl in H; [|done]. injection H as <-. simpl.
  destruct (IH _ _ E). split; lia.
Qed.

Lemma HasPrefix_spec s p : HasPrefix s p = true ↔ ∃ r, s = p +:+ r.
Proof.
  unfold HasPrefix. split.
  - destruct (drop_prefix p s) as [r|] eqn:E; [|done]. intros _. exists r. by apply drop_prefix_Some.
  - intros [r ->]. by rewrite (proj2 (drop_prefix_Some p (p +:+ r) r) eq_refl).
Qed.
Lemma HasPrefix_length s p : HasPrefix s p = true → (String.length p ≤ String.length s)%nat.
Proof. intros [r ->]%HasPrefix_spec. rewrite string_app_length. lia. Qed.

Lemma Index_Some s sub n : Index s sub = Some n → (n + String.length sub ≤ String.length s)%nat.
Proof.
  revert n. induction s as [|a s IH]; intros n; simpl; (destruct (HasPrefix _ sub) eqn:E; [intros [= <-]|]).
  - apply HasPrefix_length in E. simpl in E. lia.
  - done.
  - apply HasPrefix_length in E. simpl in *. lia.
  - destruct (Index s sub); simpl; [intros [= <-]|done]. specialize (IH _ eq_refl). lia.
Qed.
Lemma Index_None s sub : Index s sub = None ↔ Contains s sub = false.
Proof.
  induction s as [|a s IH]; simpl; destruct (HasPrefix _ sub); simpl; try done.
  rewrite <- IH. by destruct (Index s sub).
Qed.
Lemma LastIndex_Some s sub n : LastIndex s sub = Some n → (n + String.length sub ≤ String.length s)%nat.
Proof.
  revert n. induction s as [|a s IH]; intros n; simpl.
  - destruct (HasPrefix _ sub) eqn:E; [intros [= <-]|done]. apply HasPrefix_length in E. simpl in E. lia.
  - destruct (LastIndex s sub) as [m|]; [intros [= <-]; specialize (IH _ eq_refl); lia|].
    destruct (HasPrefix _ sub) eqn:E; [intros [= <-]|done]. apply HasPrefix_length in E. simpl in *. lia.
Qed.

(** *** ASCII text keeps its length in lower case *)

Lemma ascii_lower_length s : String.length (ascii_lower s) = String.length s.
Proof. induction s as [|a s IH]; simpl; [done|by rewrite IH]. Qed.
Lemma is_ascii_slice s n a b : is_ascii s = true → slice_to s n = Some a → slice_from s n = Some b →
  is_ascii a = true ∧ is_ascii b = true.
Proof.
  intros Hs Ha Hb. destruct (slice_to_Some s n) as (a' & b' & Ha' & Hb' & -> & _).
  { by apply slice_to_length in Ha as [_ ?]. }
  simplify_eq. rewrite is_ascii_app in Hs. by apply andb_true_iff in Hs.
Qed.

Lemma HasPrefix_extend s t p : HasPrefix s p = true → HasPrefix (s +:+ t) p = true.
Proof. rewrite !HasPrefix_spec. intros [r ->]. exists (r +:+ t). by rewrite string_app_assoc. Qed.
(** An occurrence in the first part is found there. *)
Lemma Index_app a b sub : Contains a sub = true →
  ∃ n, Index (a +:+ b) sub = Some n ∧ (n + String.length sub ≤ String.length a)%nat.
Proof.
  induction a as [|x a IH]; intros Hc.
  - simpl in Hc. rewrite orb_false_r in Hc. exists 0%nat.
    pose proof (HasPrefix_length _ _ Hc). split; [|done].
    apply (HasPrefix_extend _ b) in Hc. by destruct b; simpl in *; rewrite Hc.
  - cbn [Contains] in Hc. destruct (HasPrefix (String x a) sub) eqn:E; simpl in Hc.
    + exists 0%nat. pose proof (HasPrefix_length _ _ E). split; [|done].
      apply (HasPrefix_extend _ b) in E. simpl in *. by rewrite E.
    + destruct (IH Hc) as (n & Hn & Hl). simpl. destruct (HasPrefix (String x (a +:+ b)) sub).
      * exists 0%nat. split; [done|]. simpl. lia.
      * exists (S n). rewrite Hn. split; [done|]. simpl. lia.
Qed.

Lemma ascii_lower_app s t : ascii_lower (s +:+ t) = ascii_lower s +:+ ascii_lower t.
Proof. induction s as [|a s IH]; simpl; [done|by rewrite IH]. Qed.

(** ** The reasoning loop ends *)

Section reasoning.
Context `{LowerCase}.

Definition thinking (text : string) : bool := Contains (ToLower text) "<think>".

Lemma reasoning_step_shorter t t' : reasoning_step t = ReasoningAgain t' → (String.length t' < String.length t)%nat.
Proof.
  unfold reasoning_step. destruct (Index (ToLower t) _) as [start|]; [|done].
  destruct (slice_to t start) as [before|] eqn:Eb; [|done]. destruct (slice_from t start) as [tail|]; [|done].
  destruct (Index (ToLower tail) _) as [fin|]; [|done].
  destruct (slice_from t _) as [after|] eqn:Ea; [|done]. intros [= <-].
  apply slice_to_length in Eb as [Hb _]. apply slice_from_Some in Ea. simpl in Ea.
  rewrite string_app_length. lia.
Qed.

Lemma reasoning_loop_ends fuel t : (String.length t ≤ fuel)%nat → reasoning_loop fuel t ≠ Blocked.
Proof.
  revert t. induction fuel as [|fuel IH]; intros t Ht; cbn [reasoning_loop];
    destruct (reasoning_step t) as [| |] eqn:E; try done; apply reasoning_step_shorter in E; [lia|].
  apply IH. lia.
Qed.

(** On ASCII text no slice is out of range. *)
Lemma reasoning_step_ascii t : is_ascii t = true →
  match reasoning_step t with
  | ReasoningDone t' => is_ascii t' = true ∧ thinking t' = false ∧ (thinking t = false → t' = t)
  | ReasoningAgain t' => is_ascii t' = true ∧ thinking t = true
  | ReasoningPanic => False
  end.
Proof.
  intros Ht. unfold reasoning_step, thinking. rewrite (ToLower_ascii _ Ht).
  destruct (Index (ascii_lower t) "<think>") as [start|] eqn:E.
  2:{ apply Index_None in E. by rewrite (ToLower_ascii _ Ht). }
  assert (Contains (ascii_lower t) "<think>" = true) as Hc.
  { destruct (Contains _ _) eqn:Ec; [done|]. apply Index_None in Ec. by rewrite Ec in E. }
  pose proof (Index_Some _ _ _ E) as Hs. rewrite ascii_lower_length in Hs. simpl in Hs.
  destruct (slice_to_Some t start) as (before & tail & Eb & Et & Heq & Hlen); [lia|]. rewrite Eb, Et.
  destruct (is_ascii_slice _ _ _ _ Ht Eb Et) as [Hb Htl]. rewrite (ToLower_ascii _ Htl).
  destruct (Index (ascii_lower tail) "</think>") as [fin|] eqn:Ef.
  - pose proof (Index_Some _ _ _ Ef) as Hf. rewrite ascii_lower_length in Hf. simpl in Hf.
    assert (String.length t = start + String.length tail)%nat as Hlt by (rewrite Heq, string_app_length; lia).
    destruct (slice_to_Some t (start + fin + 8)) as (x & y & Ex & Ey & _); [lia|].
    change (String.length "</think>") with 8%nat. rewrite Ey.
    destruct (is_ascii_slice _ _ _ _ Ht Ex Ey) as [_ Hy]. by rewrite is_ascii_app, Hb, Hy.
  - rewrite (ToLower_ascii _ Hb), Hc. split_and!; [done| |done].
    destruct (Contains (ascii_lower before) _) eqn:Ec; [|done].
    apply (Index_app _ (ascii_lower tail)) in Ec as (n & Hn & Hle).
    rewrite <- ascii_lower_app, <- Heq, E in Hn. injection Hn as <-.
    rewrite ascii_lower_length, Hlen in Hle. simpl in Hle. lia.
Qed.

Lemma reasoning_loop_ascii fuel t : (String.length t ≤ fuel)%nat → is_ascii t = true →
  ∃ r, reasoning_loop fuel t = Returned r ∧ is_ascii r = true ∧ thinking r = false ∧ (thinking t = false → r = t).
Proof.
  revert t. induction fuel as [|fuel IH]; intros t Hl Ht; cbn [reasoning_loop];
    pose proof (reasoning_step_ascii t Ht) as Hs; destruct (reasoning_step t) as [r|t'|] eqn:E; try done;
    try (by exists r; naive_solver); apply reasoning_step_shorter in E; [lia|].
  destruct Hs as [Ht' Hth]. destruct (IH t') as (r & Hr & Ha & Hn & _); [lia|done|].
  exists r. by rewrite Hth.
Qed.

(** ** Cleaning ASCII text *)

Lemma is_ascii_parts a b : is_ascii (a +:+ b) = true → is_ascii a = true ∧ is_ascii b = true.
Proof. rewrite is_ascii_app. apply andb_true_iff. Qed.
Lemma is_ascii_trim s : is_ascii s = true → is_ascii (TrimSpace s) = true.
Proof.
  intros Hs. unfold TrimSpace. destruct (trim_left_suffix space_runes (String.length s) s) as [w Hw].
  fold (TrimLeftSpace s) in Hw. rewrite Hw in Hs. apply is_ascii_parts in Hs as [_ Hs].
  destruct (TrimRight_prefix (TrimLeftSpace s)) as [w' Hw']. rewrite Hw' in Hs. by apply is_ascii_parts in Hs as [? _].
Qed.
Lemma is_ascii_replace olds new s : is_ascii new = true → is_ascii s = true → is_ascii (Replace olds new s) = true.
Proof.
  intros Hnew. unfold Replace. generalize (String.length s) as n. intros n. revert s.
  induction n as [|n IH]; intros s Hs; [by destruct s|]. destruct s as [|a s]; [done|]. cbn [replace_fuel].
  destruct (drop_any olds (String a s)) as [rest|] eqn:E.
  - apply drop_any_suffix in E as (p & _ & E). rewrite E in Hs. apply is_ascii_parts in Hs as [_ Hs].
    rewrite is_ascii_app, Hnew. by apply IH.
  - simpl in *. apply andb_true_iff in Hs as [Ha Hs]. rewrite Ha. by apply IH.
Qed.
Lemma is_ascii_split s sep : is_ascii s = true → Forall (λ l, is_ascii l = true) (Split s sep).
Proof.
  induction s as [|a s IH]; simpl; intros Hs; [by repeat constructor|].
  apply andb_true_iff in Hs as [Ha Hs]. specialize (IH Hs). destruct (Ascii.eqb a sep); [by constructor|].
  destruct IH as [|l ls Hl Hls]; constructor; simpl; rewrite ?Ha; done.
Qed.
Lemma is_ascii_join ls sep :
  is_ascii sep = true → Forall (λ l, is_ascii l = true) ls → is_ascii (Join ls sep) = true.
Proof.
  intros Hsep. induction 1 as [|l ls Hl Hls IH]; [done|]. destruct ls; [done|].
  cbn [Join] in *. by rewrite !is_ascii_app, Hl, Hsep.
Qed.
Lemma is_ascii_lines s : is_ascii s = true → Forall (λ l, is_ascii l = true) (Lines s).
Proof. intros. by apply is_ascii_split, is_ascii_replace. Qed.

Lemma clean_output_ascii lines : ∀ after collected,
  Forall (λ l, is_ascii l = true) collected → Forall (λ l, is_ascii l = true) lines →
  Forall (λ l, is_ascii l = true) (clean_output_loop after collected lines).
Proof.
  induction lines as [|line lines IH]; intros after collected Hc Hl; cbn [clean_output_loop].
  { by apply Forall_reverse. }
  apply Forall_cons in Hl as [Hline Hl].
  assert (is_ascii (removeChatTemplateTokens line) = true) by by apply is_ascii_replace.
  repeat case_match; apply IH; try done; try (by constructor); by destruct Hc; repeat constructor.
Qed.
Lemma sanitize_ascii lines : ∀ seen cleaned,
  Forall (λ l, is_ascii l = true) cleaned → Forall (λ l, is_ascii l = true) lines →
  Forall (λ l, is_ascii l = true) (sanitize_loop seen cleaned lines).
Proof.
  induction lines as [|line lines IH]; intros seen cleaned Hc Hl; cbn [sanitize_loop].
  { by apply Forall_reverse. }
  apply Forall_cons in Hl as [Hline Hl]. repeat case_match; apply IH; try done; by constructor.
Qed.

Lemma removeReasoning_ends t : removeReasoningText t ≠ Blocked.
Proof.
  unfold removeReasoningText. pose proof (reasoning_loop_ends (String.length t) t (le_n _)).
  destruct (reasoning_loop _ t); try done. unfold drop_start_thinking. by repeat case_match.
Qed.
Lemma removeReasoning_ascii t : is_ascii t = true →
  ∃ out, removeReasoningText t = Returned out ∧ is_ascii out = true.
Proof.
  intros Ht. unfold removeReasoningText, drop_start_thinking.
  destruct (reasoning_loop_ascii (String.length t) t (le_n _) Ht) as (r & -> & Hr & _).
  rewrite (ToLower_ascii _ Hr). destruct (LastIndex _ _) as [idx|] eqn:E.
  - apply LastIndex_Some in E. rewrite ascii_lower_length in E.
    destruct (slice_to_Some r _ E) as (a & b & Ea & Eb & _). rewrite Eb.
    destruct (is_ascii_slice _ _ _ _ Hr Ea Eb) as [_ Hb]. eexists. split; [done|].
    apply is_ascii_trim, is_ascii_replace; [done|]. destruct (negb _); [by apply is_ascii_trim|done].
  - eexists. split; [done|]. by apply is_ascii_trim, is_ascii_replace.
Qed.

Lemma sanitizeModelText_ends t : sanitizeModelText t ≠ Blocked.
Proof.
  unfold sanitizeModelText. pose proof (removeReasoning_ends (removeChatTemplateTokens t)).
  by destruct (removeReasoningText _).
Qed.
Lemma sanitizeModelText_ascii t : is_ascii t = true →
  ∃ out, sanitizeModelText t = Returned out ∧ is_ascii out = true.
Proof.
  intros Ht. unfold sanitizeModelText.
  destruct (removeReasoning_ascii (removeChatTemplateTokens t)) as (r & -> & Hr); [by apply is_ascii_replace|].
  eexists. split; [done|]. apply is_ascii_trim, is_ascii_join; [done|]. apply sanitize_ascii; [done|].
  by apply is_ascii_lines.
Qed.

(** C36 (termination, error). The cleaning of a model's output always ends, and on
    ASCII output it ends with a text; the loop that removes the reasoning leaves
    no opening tag in any case and does not touch a text without one. *)
Theorem cleaning_ends (output : string) :
  cleanLlamaOutput output ≠ Blocked ∧
  (is_ascii output = true →
    (∃ text, cleanLlamaOutput output = Returned text) ∧
    ∃ r, reasoning_loop (String.length output) output = Returned r ∧
         thinking r = false ∧ (thinking output = false → r = output)).
Proof.
  unfold cleanLlamaOutput. cbv zeta. split.
  - case_match; [apply sanitizeModelText_ends|].
    pose proof (sanitizeModelText_ends (TrimSpace (Join (clean_output_loop false [] (Lines output)) nl))).
    by destruct (sanitizeModelText _).
  - intros Ha. split.
    + case_match; [by destruct (sanitizeModelText_ascii _ Ha) as (out & -> & _); eexists|].
      destruct (sanitizeModelText_ascii (TrimSpace (Join (clean_output_loop false [] (Lines output)) nl)))
        as (out & -> & _); [|by eexists].
      apply is_ascii_trim, is_ascii_join; [done|]. apply clean_output_ascii; [done|]. by apply is_ascii_lines.
    + destruct (reasoning_loop_ascii (String.length output) output (le_n _) Ha) as (r & ? & _ & ? & ?). by exists r.
Qed.
End reasoning.

(** ** Every message reaches the model, in order *)

(** The texts occur in the string one after the other, without overlap. *)
Fixpoint in_order (texts : list string) (s : string) : Prop :=
  match texts with
  | [] => True
  | t :: texts => ∃ a b, s = a +:+ t +:+ b ∧ in_order texts b
  end.

Lemma in_order_left texts a s : in_order texts s → in_order texts (a +:+ s).
Proof.
  destruct texts as [|t texts]; [done|]. intros (x & b & -> & H). exists (a +:+ x), b.
  by rewrite <- string_app_assoc.
Qed.
Lemma in_order_app l1 l2 s1 s2 : in_order l1 s1 → in_order l2 s2 → in_order (l1 ++ l2) (s1 +:+ s2).
Proof.
  revert s1. induction l1 as [|t l1 IH]; intros s1 H1 H2; simpl; [by apply in_order_left|].
  destruct H1 as (a & b & -> & H1). exists a, (b +:+ s2). rewrite <- !string_app_assoc. by split; [|apply IH].
Qed.
Lemma in_order_one t a b : in_order [t] (a +:+ t +:+ b).
Proof. by exists a, b. Qed.
Lemma in_order_right texts s b : in_order texts s → in_order texts (s +:+ b).
Proof. intros H. rewrite <- (app_nil_r texts). by apply in_order_app. Qed.
Lemma in_order_around texts a s b : in_order texts s → in_order texts (a +:+ s +:+ b).
Proof. intros H. by apply in_order_left, in_order_right. Qed.

(** The messages that take part in the conversation. *)
Definition spoken (messages : list ChatMessage) : list string :=
  msg_Content <$> filter (λ m, is_system m = false) messages.

Lemma spoken_cons m messages :
  spoken (m :: messages) = (if is_system m then [] else [msg_Content m]) ++ spoken messages.
Proof. unfold spoken. rewrite filter_cons. destruct (is_system m); by case_decide. Qed.

Lemma turns_in_order f g messages :
  in_order (spoken messages) (turns (λ m, f m +:+ msg_Content m +:+ g m) messages).
Proof.
  induction messages as [|m messages IH]; [done|]. rewrite spoken_cons. cbn [turns].
  destruct (is_system m); [done|]. apply in_order_app; [|done]. apply in_order_one.
Qed.

(** The Mistral loop: what is written and what is pending hold the messages so far. *)
Definition mistral_holds (texts : list string) (st : mistral_state) : Prop :=
  ∃ written pending, texts = written ++ pending ∧ in_order written (mi_text st) ∧
    in_order pending (mi_pending st) ∧ (mi_pending st = "" → pending = []).

Lemma mistral_step_holds texts st m :
  msg_Content m ≠ "" → mistral_holds texts st →
  mistral_holds (texts ++ if is_system m then [] else [msg_Content m]) (mistral_step st m).
Proof.
  intros Hne (w & p & -> & Hw & Hp & Hnil). unfold mistral_step.
  destruct (is_system m); [rewrite app_nil_r; by exists w, p|]. destruct (is_assistant m).
  - exists (w ++ p ++ [msg_Content m]), []. rewrite app_nil_r. split; [by rewrite app_assoc|].
    split; [|split; [done|done]]. case_bool_decide as Hb.
    + rewrite (Hnil Hb). simpl. apply in_order_app; [done|]. by exists "", " ".
    + cbn [mi_text]. rewrite <- string_app_assoc. apply in_order_app; [done|].
      apply in_order_app; [|by exists "", " "].
      apply in_order_left, in_order_left. apply in_order_right. done.
  - exists w, (p ++ [msg_Content m]). split; [by rewrite app_assoc|]. split; [done|]. cbn [mi_pending].
    case_bool_decide as Hb.
    + rewrite (Hnil Hb). split; [|done]. exists "", "". by rewrite string_app_nil_r.
    + split; [|by destruct (mi_pending st)]. apply in_order_app; [done|].
      apply in_order_left. exists nl, "". by rewrite string_app_nil_r.
Qed.

Lemma mistral_in_order systemPrompt messages :
  Forall (λ m, msg_Content m ≠ "") messages →
  in_order (spoken messages) (mistralChatPrompt systemPrompt messages).
Proof.
  intros Hne. assert (mistral_holds (spoken messages) (foldl mistral_step (mkMistral "" systemPrompt "") messages)) as H.
  { assert (Hgen : ∀ l texts st, Forall (λ m, msg_Content m ≠ "") l → mistral_holds texts st →
      mistral_holds (texts ++ spoken l) (foldl mistral_step st l)).
    { induction l as [|m l IH]; intros texts st Hl Hst; [by rewrite app_nil_r|].
      apply Forall_cons in Hl as [Hm Hl]. rewrite spoken_cons, app_assoc. apply IH; [done|].
      by apply mistral_step_holds. }
    apply (Hgen messages [] _ Hne). by exists [], []. }
  unfold mistralChatPrompt. cbv zeta. destruct H as (w & p & -> & Hw & Hp & Hnil). case_bool_decide as Hb.
  - by rewrite (Hnil Hb), app_nil_r.
  - apply in_order_app; [done|]. by apply in_order_left, in_order_left, in_order_right.
Qed.

Section prompts.
Context `{LowerCase}.

Lemma normalize_loop_content messages : Forall (λ m, msg_Content m ≠ "") (normalize_loop messages).
Proof. induction messages as [|m l IH]; simpl; [constructor|]. case_bool_decide; [done|by constructor]. Qed.
Lemma prompt_messages_content req :
  blank (gen_Prompt req) = false → Forall (λ m, msg_Content m ≠ "") (prompt_messages req).
Proof.
  intros Hp. unfold prompt_messages, normalizePromptMessages.
  pose proof (normalize_loop_content (gen_Messages req)) as Hn. destruct (normalize_loop _); [|done].
  rewrite Hp. constructor; [|done]. by apply blank_false.
Qed.

(** (functional). Whatever the model's family, the prompt of a request holds
    the trimmed texts of all its messages other than the system ones, or the
    plain prompt when there is none, in order and whole. *)
Theorem prompt_keeps_conversation (model : Model) (req : GenerateInput) :
  blank (gen_Prompt req) = false →
  in_order (spoken (prompt_messages req)) (modelPrompt model req) ∧
  (normalize_loop (gen_Messages req) = [] → spoken (prompt_messages req) = [TrimSpace (gen_Prompt req)]).
Proof.
  intros Hp. split.
  - pose proof (prompt_messages_content req Hp) as Hc. unfold modelPrompt. cbv zeta.
    generalize (if str_eqb (TrimSpace (gen_SystemPrompt req)) "" then modelSystemPrompt model
                else TrimSpace (gen_SystemPrompt req)) as sys. intros sys.
    unfold modelAdapterFor.
    repeat case_match; cbn [ma_Prompt deepSeekQwenAdapter qwenAdapter gemmaAdapter mistralAdapter phiAdapter llamaAdapter];
      first [by apply mistral_in_order | apply in_order_around, turns_in_order].
  - intros Hn. unfold prompt_messages, normalizePromptMessages. by rewrite Hn, Hp.
Qed.
End prompts.

(** ** The output buffer keeps a prefix *)

(** The first bytes of a text, byte by byte. *)
Fixpoint first_bytes (n : nat) (s : string) : string :=
  match n, s with
  | S n, String a s => String a (first_bytes n s)
  | _, _ => ""
  end%string.
Lemma slice_to_first s n : (n ≤ String.length s)%nat → slice_to s n = Some (first_bytes n s).
Proof.
  revert n. induction s as [|a s IH]; intros [|n] Hn; simpl in *; try done; [lia|].
  by rewrite IH by lia.
Qed.
Lemma first_bytes_length n s : String.length (first_bytes n s) = (n `min` String.length s)%nat.
Proof. revert n. induction s as [|a s IH]; intros [|n]; simpl; try done. by rewrite IH. Qed.
Lemma first_bytes_app n s t :
  first_bytes n (s +:+ t) = first_bytes n s +:+ first_bytes (n - String.length s) t.
Proof. revert n. induction s as [|a s IH]; intros [|n]; simpl; try done; by rewrite ?IH. Qed.
Lemma first_bytes_all n s : (String.length s ≤ n)%nat → first_bytes n s = s.
Proof. revert n. induction s as [|a s IH]; intros [|n] Hn; simpl in *; try done; [lia|]. by rewrite IH by lia. Qed.

Lemma limitedBuffer_Write_prefix b p total :
  0 < lb_limit b → lb_Buffer b = first_bytes (Z.to_nat (lb_limit b)) total →
  lb_limit (limitedBuffer_Write b p).1 = lb_limit b ∧
  lb_Buffer (limitedBuffer_Write b p).1 = first_bytes (Z.to_nat (lb_limit b)) (total +:+ p).
Proof.
  intros Hl Hb. pose proof (first_bytes_length (Z.to_nat (lb_limit b)) total) as Hlen.
  rewrite <- Hb in Hlen. unfold limitedBuffer_Write, payload_len. cbv zeta.
  rewrite first_bytes_app, <- Hb.
  destruct (Z.leb_spec (lb_limit b) 0); [lia|].
  destruct (Z.leb_spec (lb_limit b - Z.of_nat (String.length (lb_Buffer b))) 0); cbn [fst lb_limit lb_Buffer].
  { split; [done|]. replace (Z.to_nat (lb_limit b) - String.length total)%nat with 0%nat by lia.
    by rewrite string_app_nil_r. }
  assert (String.length (lb_Buffer b) = String.length total) as Heq by lia. rewrite <- Heq.
  destruct (Z.ltb_spec (lb_limit b - Z.of_nat (String.length (lb_Buffer b))) (Z.of_nat (String.length p)));
    cbn [fst lb_limit lb_Buffer]; (split; [done|]).
  - rewrite slice_to_first by lia. simpl. do 2 f_equal. lia.
  - by rewrite first_bytes_all by lia.
Qed.

(** (bounds). The buffer of a running command holds the first [limit] bytes of
    everything written to it, however it was cut into writes, and every write
    reports that all was taken. *)
Theorem limited_buffer_prefix (limit : Z) (writes : list string) :
  0 < limit →
  lb_Buffer (foldl (λ b p, (limitedBuffer_Write b p).1) (mkLimitedBuffer "" limit false) writes) =
  first_bytes (Z.to_nat limit) (foldr String.append ""%string writes) ∧
  ∀ b p, (limitedBuffer_Write b p).2 = payload_len p.
Proof.
  intros Hl. split.
  - assert (Hgen : ∀ l b total, 0 < lb_limit b → lb_Buffer b = first_bytes (Z.to_nat (lb_limit b)) total →
      lb_Buffer (foldl (λ b p, (limitedBuffer_Write b p).1) b l) =
      first_bytes (Z.to_nat (lb_limit b)) (total +:+ foldr String.append ""%string l)).
    { induction l as [|p l IH]; intros b total Hb Hp; simpl; [by rewrite string_app_nil_r|].
      destruct (limitedBuffer_Write_prefix b p total Hb Hp) as [E1 E2].
      rewrite (IH _ (total +:+ p)) by (by rewrite E1). by rewrite E1, <- string_app_assoc. }
    apply (Hgen writes (mkLimitedBuffer "" limit false) ""%string Hl). by destruct (Z.to_nat _).
  - intros b p. unfold limitedBuffer_Write. cbv zeta. by repeat case_match.
Qed.

(** ** Worked examples *)

Section demo.
#[local] Existing Instance ascii_case.
Definition demo_model (id family : string) : Model :=
  mkModel id "M" family "llama.cpp" "" "" "" "" "" 0 1 1 0 "" "".
Definition demo_chat (messages : list ChatMessage) : GenerateInput :=
  mkGenerateInput "m" "hi" messages "Be brief." "" 0 "" "".
Definition three_messages : list ChatMessage :=
  [mkChatMessage "user" " one "; mkChatMessage "Assistant" "two"; mkChatMessage "tool" "three"].

Example mistral_prompt :
  modelPrompt (demo_model "m" "Mistral") (demo_chat three_messages) =
  "[INST] Be brief." +:+ nl +:+ nl +:+ "one [/INST] two [INST] three [/INST]".
Proof. vm_compute. reflexivity. Qed.
(** The system prompt is lost when the first message is an answer of the model. *)
Example mistral_without_question :
  modelPrompt (demo_model "m" "Mistral") (demo_chat [mkChatMessage "assistant" "two"]) = "two ".
Proof. vm_compute. reflexivity. Qed.

Lemma prompt_keeps_conversation_witness :
  in_order ["one"; "two"; "three"]%string (modelPrompt (demo_model "m" "Mistral") (demo_chat three_messages)).
Proof. exact (proj1 (prompt_keeps_conversation (demo_model "m" "Mistral") (demo_chat three_messages) eq_refl)). Defined.

Example cleaned_answer :
  cleanLlamaOutput ("Loading model..." +:+ nl +:+ "> hi" +:+ nl +:+ "<think>hm</think>Hello" +:+ nl +:+ "Exiting...") =
  Returned "Hello"%string.
Proof. vm_compute. reflexivity. Qed.
Lemma cleaning_ends_witness :
  ∃ text, cleanLlamaOutput "<think>never closed" = Returned text.
Proof. exact (proj1 (proj2 (cleaning_ends "<think>never closed") eq_refl)). Defined.
Lemma limited_buffer_prefix_witness :
  lb_Buffer (foldl (λ b p, (limitedBuffer_Write b p).1) (mkLimitedBuffer "" 5 false) ["abc"; "def"]%string) = "abcde"%string.
Proof. exact (proj1 (limited_buffer_prefix 5 ["abc"; "def"]%string eq_refl)). Defined.

End demo.

(** U+023A takes two bytes, its lower case U+2C65 three: a position in the
    lower-case text can lie beyond the end of the text, and the slice panics. *)
Section panic.
Definition slashed_A : string := bytes [200; 186]%nat.
#[local] Instance two_to_three : LowerCase.
Proof.
  refine {| ToLower s := if is_ascii s then ascii_lower s
                         else ReplaceAll (ascii_lower s) slashed_A (bytes [226; 177; 165]%nat) |}.
  by intros s ->.
Defined.
Example reasoning_panics :
  removeReasoningText (foldr String.append "<think>"%string (replicate 8 slashed_A)) = Panicked.
Proof. vm_compute. reflexivity. Qed.
End panic.
