(* ===== verification/HttpTransport.v ===== *)
(** * The HTTP client of the activation transport

    [internal/transport/transport.go]: the transport a worker uses to reach the
    streams of the manager.  A call of [net/http]'s client runs the server's
    program for the request; the network may lose the request or the reply. *)

From S2P Require Import Prelude GoString GoSort GoFloat World Json Cdip Types Protocol Models State.
From S2P Require Import Conversations Scheduling JobStore ModelView RpcPool DistributedPlan Views Capacity.
From S2P Require Import Transport Coordinator Http Handlers Demo ModelHandlers Server Access.

(** ** Calls over the network *)

Inductive net_fault := Carried | RequestLost | ReplyLost.

(** The manager's base URL, what happens to a call, and the context the server
    gives the request. *)
Class Network := {
  net_base : string;
  net_fault_of : Tag → net_fault;
  net_context : Tag → Context;
}.

Definition question : Ascii.ascii := Ascii.ascii_of_nat 63.
Definition ampersand : Ascii.ascii := Ascii.ascii_of_nat 38.
Definition equals : Ascii.ascii := Ascii.ascii_of_nat 61.

(** The path and the query of a URL below the base, when neither has escapes. *)
Definition parse_pair (pair : string) (query : gmap string string) : gmap string string :=
  match Split pair equals with
  | key :: value :: _ => <[key := value]> query
  | _ => query
  end.
Definition parse_target (target : string) : string * gmap string string :=
  match Split target question with
  | path :: query :: _ => (path, foldr parse_pair ∅ (Split query ampersand))
  | path :: [] => (path, ∅)
  | [] => (target, ∅)
  end.

Section calls.
Context `{W : World} `{ServerCodecs} `{Dialer} `{ErrorTexts} `{Network}.

(** [client.Do] with a context: an error when the call is not carried, when the
    server drops the connection, or when the context ends first. *)
Definition Do (t : Tag) (ctx : Context) (method url : string) (headers : gmap string string) (body : string)
    (srv : Server) : Server * outcome (result transport_error Response) :=
  if ctx_done ctx then (srv, Returned (Err ContextDone)) else
  match drop_prefix net_base url, net_fault_of t with
  | Some target, Carried | Some target, ReplyLost =>
      let '(path, query) := parse_target target in
      let r := mkRequest method path net_base false query headers ∅ body (net_context t) in
      let '(srv, out) := run_prog (ServeHTTP (W := sub_world t) r) srv in
      match out with
      | Returned resp =>
          (srv, Returned (match net_fault_of t with ReplyLost => Err CallFailed | _ => Ok resp end))
      | Panicked => (srv, Returned (Err CallFailed))
      | Blocked => (srv, if ctx_deadline ctx then Returned (Err ContextDone) else Blocked)
      end
  | _, _ => (srv, Returned (Err CallFailed))
  end.

(** [resp.StatusCode < 200 || resp.StatusCode >= 300] *)
Definition bad_status (resp : Response) : bool := (rs_Status resp <? 200) || (300 <=? rs_Status resp).
End calls.

(** ** The transport *)

Record HTTPActivationTransport := mkHTTPTransport {
  hat_managerURL : string;
  hat_operatorToken : string;
  hat_nodeID : string;
  hat_pollTimeout : Z;
}.

Definition NewHTTPActivationTransport (managerURL operatorToken : string) : HTTPActivationTransport :=
  mkHTTPTransport (trim_right_slash managerURL) operatorToken "" 250000000.
Definition WithPollTimeout (t : HTTPActivationTransport) (timeout : Z) : HTTPActivationTransport :=
  if 0 <? timeout then mkHTTPTransport (hat_managerURL t) (hat_operatorToken t) (hat_nodeID t) timeout else t.
Definition WithNodeID (t : HTTPActivationTransport) (nodeID : string) : HTTPActivationTransport :=
  mkHTTPTransport (hat_managerURL t) (hat_operatorToken t) (TrimSpace nodeID) (hat_pollTimeout t).

(** Frames as JSON text: what a client sends decodes to the frame on the server,
    a decoded frame can be sent again, and so can the body of a response. *)
Class FrameText `{!JsonBody ActivationFrame} := {
  frame_text : ActivationFrame → string;
  body_text : Body → string;
  frame_ok : ActivationFrame → Prop;
  frame_text_decodes f : frame_ok f → Decode (frame_text f) = (f, true);
  body_text_decodes f : frame_ok f → Decode (body_text (BodyFrame f)) = (f, true);
}.

Record httpActivationWriter := mkHTTPWriter { hw_transport : HTTPActivationTransport; hw_stream : StreamID }.
Record httpActivationReader := mkHTTPReader { hr_transport : HTTPActivationTransport; hr_stream : StreamID }.

(** [OpenWriter] and [OpenReader] make the same checks. *)
Definition open_check (ctx : Context) (t : HTTPActivationTransport) (stream : StreamID) : option transport_error :=
  match validateStreamID stream with
  | Some e => Some e
  | None => first_error [(blank (hat_managerURL t), ManagerURLRequired); (ctx_done ctx, ContextDone)]
  end.
Definition http_OpenWriter (ctx : Context) (t : HTTPActivationTransport) (stream : StreamID) (_ : string)
    : result transport_error httpActivationWriter :=
  check (open_check ctx t stream) (Ok (mkHTTPWriter t stream)).
Definition http_OpenReader (ctx : Context) (t : HTTPActivationTransport) (stream : StreamID)
    : result transport_error httpActivationReader :=
  check (open_check ctx t stream) (Ok (mkHTTPReader t stream)).

Definition streamURL (t : HTTPActivationTransport) (stream : StreamID) : string :=
  hat_managerURL t +:+ "/v1/cdip/activations/" +:+ str_ParentJobID stream +:+ "/" +:+ str_StageJobID stream
  +:+ "/frames".

(** The headers [authorize] sets, by canonical name. *)
Definition authorize (t : HTTPActivationTransport) (headers : gmap string string) : gmap string string :=
  let headers := if blank (hat_operatorToken t) then headers
                 else <["X-Cmesh-Operator-Token"%string := hat_operatorToken t]> headers in
  if blank (hat_nodeID t) then headers else <["X-Cmesh-Node-Id"%string := hat_nodeID t]> headers.

(** The frame is not of the stream. *)
Definition other_stream (frame : ActivationFrame) (stream : StreamID) : bool :=
  bool_decide (chunk_ParentJobID (frame_Header frame) ≠ str_ParentJobID stream)
  || bool_decide (chunk_StageJobID (frame_Header frame) ≠ str_StageJobID stream).

Section transport.
Context `{W : World} `{ServerCodecs} `{Dialer} `{ErrorTexts} `{Network} `{!FrameText}.

Definition http_Send (t : Tag) (ctx : Context) (w : httpActivationWriter) (frame : ActivationFrame) (srv : Server)
    : Server * outcome (option transport_error) :=
  match ActivationFrame_Validate frame with
  | Some e => (srv, Returned (Some e))
  | None =>
      if other_stream frame (hw_stream w) then (srv, Returned (Some StreamMismatch)) else
      let headers := authorize (hw_transport w) {["Content-Type"%string := "application/json"%string]} in
      match Do t ctx "POST" (streamURL (hw_transport w) (hw_stream w)) headers (frame_text frame) srv with
      | (srv, Blocked) => (srv, Blocked)
      | (srv, Panicked) => (srv, Panicked)
      | (srv, Returned (Err e)) => (srv, Returned (Some e))
      | (srv, Returned (Ok resp)) =>
          (srv, Returned (if bad_status resp then Some (RelayFailed (rs_Status resp)) else None))
      end
  end.

(** [Close] does nothing. *)
Definition http_Close (w : httpActivationWriter) : option transport_error := None.

Definition maxInt64 (a b : Z) : Z := if b <? a then a else b.

Definition http_Receive (t : Tag) (ctx : Context) (r : httpActivationReader) (srv : Server)
    : Server * outcome (result transport_error ActivationFrame) :=
  let url := streamURL (hr_transport r) (hr_stream r) +:+ "?timeout_ms="
             +:+ Itoa (maxInt64 1 (Z.quot (hat_pollTimeout (hr_transport r)) 1000000)) in
  match Do t ctx "GET" url (authorize (hr_transport r) ∅) "" srv with
  | (srv, Blocked) => (srv, Blocked)
  | (srv, Panicked) => (srv, Panicked)
  | (srv, Returned (Err e)) => (srv, Returned (Err e))
  | (srv, Returned (Ok resp)) =>
      (srv, Returned (
        if rs_Status resp =? 204 then Err EndOfStream
        else if bad_status resp then Err (RelayFailed (rs_Status resp))
        else let '(frame, ok) := Decode (body_text (rs_Body resp)) in
             if negb ok then Err UndecodableFrame else
             match ActivationFrame_Validate frame with
             | Some e => Err e
             | None => if other_stream frame (hr_stream r) then Err StreamMismatch else Ok frame
             end))
  end.
End transport.

(** ** The request reaches its handler *)

(** Identifiers made of letters, digits and [-_.~], as the manager makes them. *)
Fixpoint plain_chars (s : string) : bool :=
  match s with "" => true | String a s => unreserved a && plain_chars s end%string.
Definition plain (s : string) : Prop := s ≠ ""%string ∧ plain_chars s = true.

Lemma plain_no_sep sep s : unreserved sep = false → plain_chars s = true → no_sep sep s.
Proof.
  intros Hsep. induction s as [|a s IH]; simpl; [done|]. intros [Ha Hs]%andb_true_iff.
  split; [by intros ->; congruence|by apply IH].
Qed.

Section routing.
Context `{W : World} `{ServerCodecs} `{Dialer} `{ErrorTexts}.

(** The path below a subtree, when no exact pattern ends as the path does. *)
Definition ends_with (suffix s : string) : bool := HasPrefix (rev_string s) (rev_string suffix).
Lemma ends_with_app q suffix : ends_with suffix (q +:+ suffix) = true.
Proof. unfold ends_with. rewrite rev_string_app. apply HasPrefix_app. by eexists. Qed.

Lemma route_below r q suffix h :
  rq_Path r = q +:+ suffix →
  forallb (λ x, negb (ends_with suffix x.1 || ends_with (suffix +:+ "/") x.1)) routes = true →
  (subtree_route (q +:+ suffix)).2 = h → ServeHTTP r = h r.
Proof.
  intros Hp Hf Hh. unfold ServeHTTP. rewrite Hp. rewrite forallb_forall in Hf.
  assert (∀ x e, x ∈ routes → x.1 = q +:+ e → (e = suffix ∨ e = suffix +:+ "/") → False) as Hno.
  { intros x e Hin Hx He. rewrite list_elem_of_In in Hin. apply Hf in Hin.
    rewrite negb_true_iff, orb_false_iff in Hin. pose proof (ends_with_app q e) as Hend.
    rewrite <- Hx in Hend. destruct Hin, He as [->| ->]; congruence. }
  destruct (exact_route (q +:+ suffix)) as [x|] eqn:E.
  { apply exact_route_elem in E as [Hin Hx]. destruct (Hno x suffix Hin Hx). by left. }
  destruct (exact_route ((q +:+ suffix) +:+ "/")) as [x|] eqn:E'.
  { apply exact_route_elem in E' as [Hin Hx]. rewrite <- string_app_assoc in Hx.
    destruct (Hno x (suffix +:+ "/") Hin Hx). by right. }
  by rewrite Hh.
Qed.
Lemma activation_route r p s :
  rq_Path r = "/v1/cdip/activations/" +:+ p +:+ "/" +:+ s +:+ "/frames" → ServeHTTP r = handleCDIPActivation r.
Proof.
  intros Hp. apply (route_below r ("/v1/cdip/activations/" +:+ p +:+ "/" +:+ s) "/frames").
  - rewrite Hp. by rewrite <- !string_app_assoc.
  - reflexivity.
  - rewrite <- string_app_assoc. reflexivity.
Qed.
Lemma worker_route r id :
  rq_Path r = "/v1/workers/" +:+ id +:+ "/jobs/next" → ServeHTTP r = handleWorkerRoutes r.
Proof.
  intros Hp. apply (route_below r ("/v1/workers/" +:+ id) "/jobs/next").
  - rewrite Hp. by rewrite <- !string_app_assoc.
  - reflexivity.
  - rewrite <- string_app_assoc. reflexivity.
Qed.
Lemma complete_route r id :
  rq_Path r = "/v1/jobs/" +:+ id +:+ "/complete" → ServeHTTP r = handleJob r.
Proof.
  intros Hp. apply (route_below r ("/v1/jobs/" +:+ id) "/complete").
  - rewrite Hp. by rewrite <- !string_app_assoc.
  - reflexivity.
  - rewrite <- string_app_assoc. reflexivity.
Qed.
Lemma progress_route r id :
  rq_Path r = "/v1/jobs/" +:+ id +:+ "/progress" → ServeHTTP r = handleJob r.
Proof.
  intros Hp. apply (route_below r ("/v1/jobs/" +:+ id) "/progress").
  - rewrite Hp. by rewrite <- !string_app_assoc.
  - reflexivity.
  - rewrite <- string_app_assoc. reflexivity.
Qed.
End routing.

(** ** What the server does with a frame *)

Section effects.
Context `{W : World} `{ServerCodecs} `{Dialer} `{ErrorTexts}.

(** Nothing was added to or taken from any stream. *)
Definition same_frames (srv srv' : Server) : Prop := ∀ sid, frames_in srv' sid = frames_in srv sid.
(** The frames of one stream changed to [frames]. *)
Definition now_holds (sid : StreamID) (frames : list ActivationFrame) (srv srv' : Server) : Prop :=
  frames_in srv' sid = frames ∧ ∀ sid', sid' ≠ sid → frames_in srv' sid' = frames_in srv sid'.

Lemma same_frames_of sid srv srv' :
  frames_in srv' sid = frames_in srv sid → only_stream sid srv srv' → same_frames srv srv'.
Proof.
  intros Hs [_ Ho] sid'. destruct (decide (sid' = sid)) as [->|Hne]; [done|]. unfold frames_in. by rewrite Ho.
Qed.
Lemma now_holds_of sid frames srv srv' :
  frames_in srv' sid = frames → only_stream sid srv srv' → now_holds sid frames srv srv'.
Proof. intros Hs [_ Ho]. split; [done|]. intros sid' Hne. unfold frames_in. by rewrite Ho. Qed.

(** Opening a stream adds no frame. *)
Lemma mem_stream_frames ctx srv sid :
  default [] (ch_queue <$> mem_streams (mem_stream ctx (srv_bus srv) sid).1 !! sid) = frames_in srv sid.
Proof.
  unfold mem_stream, frames_in. destruct (validateStreamID sid); [done|]. destruct (ctx_done ctx); [done|].
  destruct (mem_streams (srv_bus srv) !! sid) eqn:E; cbn; [by rewrite E|]. by rewrite lookup_insert_eq.
Qed.

(** A post adds the frame it carries and is answered 202, or changes nothing and
    is answered with an error, or waits for room. *)
Lemma post_frame_effect r sid stageJob srv :
  let frame := (Decode (A := ActivationFrame) (rq_Body r)).1 in
  let '(srv', out) := run_prog (post_frame r sid stageJob) srv in
  match out with
  | Returned resp =>
      (rs_Status resp = 202 ∧ ActivationFrame_Validate frame = None ∧ other_stream frame sid = false ∧
       now_holds sid (frames_in srv sid ++ [frame]) srv srv') ∨
      (400 ≤ rs_Status resp ∧ same_frames srv srv')
  | _ => same_frames srv srv'
  end.
Proof.
  cbv zeta. pose proof (post_frame_only r sid stageJob srv) as Ho.
  unfold post_frame in *. destruct (Decode (rq_Body r)) as [frame ok]. cbn [fst].
  destruct ok; cbn [negb guard] in *; [|by right].
  fold (other_stream frame sid) in *. destruct (other_stream frame sid) eqn:Eo; cbn [guard] in *; [by right|].
  destruct (ActivationFrame_Validate frame) eqn:Hv; [by right|].
  pose proof (mem_stream_frames (rq_Context r) srv sid) as Hq.
  unfold on_bus, mem_OpenWriter in *. cbn [prog_bind run_prog] in *.
  destruct (mem_stream (rq_Context r) (srv_bus srv) sid) as [bus out] eqn:Em. cbn [fst] in Hq.
  destruct out as [sid'|e]; cbn in *; [|right; split; [done|]; by apply (same_frames_of sid)].
  apply mem_stream_ok in Em as (-> & _ & ch & Hch & _). rewrite Hch in Hq. cbn in Hq.
  unfold mem_Send in *. rewrite Hv in *. cbn in *. rewrite Hch in *.
  assert (Hsame : ∀ srv', mem_streams (srv_bus srv') !! sid = Some ch → only_stream sid srv srv' → same_frames srv srv').
  { intros srv' Hs. apply same_frames_of. unfold frames_in. by rewrite Hs. }
  destruct (select_done _ _) as [[|]|]; cbn in *; [right; split; [done|]; by apply Hsame| |by apply Hsame].
  destruct (ch_closed ch); cbn in *; [by apply Hsame|].
  left. split_and!; [done..|]. apply now_holds_of; [|done].
  unfold frames_in at 1. cbn. rewrite lookup_insert_eq. cbn. by rewrite Hq.
Qed.

(** A read takes the oldest frame, or answers 204 or an error and takes none. *)
Lemma get_frame_effect r sid srv :
  let '(srv', out) := run_prog (get_frame r sid) srv in
  match out with
  | Returned resp =>
      (∃ frame rest, resp = reply 200 (BodyFrame frame) ∧ frames_in srv sid = frame :: rest ∧
                     now_holds sid rest srv srv') ∨
      ((rs_Status resp = 204 ∨ 400 ≤ rs_Status resp) ∧ same_frames srv srv')
  | _ => same_frames srv srv'
  end.
Proof.
  pose proof (get_frame_only r sid srv) as Ho.
  unfold get_frame in *. set (ctx := mkContext _ _ _) in *.
  pose proof (mem_stream_frames ctx srv sid) as Hq.
  unfold on_bus, mem_OpenReader in *. cbn [prog_bind run_prog] in *.
  destruct (mem_stream ctx (srv_bus srv) sid) as [bus out] eqn:Em. cbn [fst] in Hq.
  destruct out as [sid'|e]; cbn in *; [|right; split; [by right|]; by apply (same_frames_of sid)].
  apply mem_stream_ok in Em as (-> & _ & ch & Hch & _). rewrite Hch in Hq. cbn in Hq.
  unfold mem_Receive in *. cbn in *. rewrite Hch in *.
  assert (Hsame : ∀ srv', mem_streams (srv_bus srv') !! sid = Some ch → only_stream sid srv srv' → same_frames srv srv').
  { intros srv' Hs. apply same_frames_of. unfold frames_in. by rewrite Hs. }
  destruct (select_done _ _) as [[|]|]; cbn in *; [right; split; [by left|]; by apply Hsame| |by apply Hsame].
  destruct (ch_queue ch) as [|frame rest] eqn:Eq; cbn in *; [right; split; [by left|]; by apply Hsame|].
  left. exists frame, rest. split_and!; [done|by rewrite <- Hq|]. apply now_holds_of; [|done].
  unfold frames_in at 1. cbn. by rewrite lookup_insert_eq.
Qed.

(** The outcomes of a post and of a read on a stream. *)
Definition posted (sid : StreamID) (frame : ActivationFrame) (srv srv' : Server) (out : outcome Response) : Prop :=
  match out with
  | Returned resp =>
      (rs_Status resp = 202 ∧ ActivationFrame_Validate frame = None ∧ other_stream frame sid = false ∧
       now_holds sid (frames_in srv sid ++ [frame]) srv srv') ∨
      (400 ≤ rs_Status resp ∧ same_frames srv srv')
  | _ => same_frames srv srv'
  end.
Definition got (sid : StreamID) (srv srv' : Server) (out : outcome Response) : Prop :=
  match out with
  | Returned resp =>
      (∃ frame rest, resp = reply 200 (BodyFrame frame) ∧ frames_in srv sid = frame :: rest ∧
                     now_holds sid rest srv srv') ∨
      ((rs_Status resp = 204 ∨ 400 ≤ rs_Status resp) ∧ same_frames srv srv')
  | _ => same_frames srv srv'
  end.

(** A request for a stream is refused without effect, or posts, or reads. *)
Lemma activation_effect r p s srv :
  activation_path r = [p; s; "frames"%string] →
  let '(srv', out) := run_prog (handleCDIPActivation r) srv in
  (∃ resp, out = Returned resp ∧ 400 ≤ rs_Status resp ∧ srv' = srv) ∨
  (is_post r = true ∧ posted (mkStreamID p s) (Decode (A := ActivationFrame) (rq_Body r)).1 srv srv' out) ∨
  (is_post r = false ∧ is_get r = true ∧ got (mkStreamID p s) srv srv' out).
Proof.
  intros Hpath. destruct (handleCDIPActivation_path r) as [->|(p' & s' & Hpath' & ->)].
  { left. by eexists. }
  rewrite Hpath in Hpath'. injection Hpath' as <- <-. unfold activation_on.
  destruct (_ || _); cbn [guard]; [left; by eexists|]. rewrite validate_run.
  destruct (FindJob (srv_state srv) p) as [parent|]; [|left; by eexists].
  destruct (FindJob (srv_state srv) s) as [stageJob|]; [|left; by eexists].
  destruct (_ || _); [left; by eexists|]. unfold look. cbn [prog_bind run_prog].
  destruct (requireCDIPActivationAuth srv r stageJob) as [resp|] eqn:Ha.
  { left. exists resp. split_and!; [done| |done]. unfold requireCDIPActivationAuth in Ha.
    repeat case_match; simplify_eq; done. }
  destruct (is_post r) eqn:Hp.
  - pose proof (post_frame_effect r (mkStreamID p s) stageJob srv) as He.
    destruct (run_prog (post_frame _ _ _) srv). right; left. by split.
  - destruct (is_get r) eqn:Hg; [|left; by eexists].
    pose proof (get_frame_effect r (mkStreamID p s) srv) as He.
    destruct (run_prog (get_frame _ _) srv). right; right. by split_and!.
Qed.
End effects.

(** ** The path of a stream *)

Lemma plain_first s : plain s → ∃ a t, s = String a t ∧ unreserved a = true.
Proof. intros [Hne Hs]. destruct s as [|a s]; [done|]. simpl in Hs. apply andb_true_iff in Hs as [Ha _]. by exists a, s. Qed.

Lemma trim_slash_id a s b : unreserved a = true → unreserved b = true →
  trim_slash (String a s +:+ String b "") = String a s +:+ String b "".
Proof.
  intros Ha Hb. unfold trim_slash, TrimSet.
  assert (∀ c s, unreserved c = true → drop_any ["/"%string] (String c s) = None) as Hno.
  { intros c s' Hc. assert (Ascii.eqb slash c = false) as E.
    { apply Ascii.eqb_neq. by intros <-. }
    change (match (if Ascii.eqb slash c then Some s' else None) with Some r => Some r | None => None end = None).
    by rewrite E. }
  change (rev_string <$> ["/"%string]) with ["/"%string].
  rewrite (trim_left_id _ _ (String a s +:+ String b "")) by (by apply Hno).
  rewrite trim_left_id; [apply rev_string_involutive|].
  rewrite rev_string_app. by apply (Hno b (rev_string (String a s))).
Qed.

Lemma TrimPrefix_app p t : TrimPrefix (p +:+ t) p = t.
Proof. unfold TrimPrefix. by rewrite (proj2 (drop_prefix_Some p (p +:+ t) t) eq_refl). Qed.

Lemma stream_path r p s :
  plain p → plain s → rq_Path r = "/v1/cdip/activations/" +:+ p +:+ "/" +:+ s +:+ "/frames" →
  activation_path r = [p; s; "frames"%string].
Proof.
  intros Hp Hs Hr. unfold activation_path. rewrite Hr, TrimPrefix_app.
  assert (trim_slash (p +:+ "/" +:+ s +:+ "/frames") = p +:+ "/" +:+ s +:+ "/frames") as ->.
  { destruct (plain_first p Hp) as (a & t & -> & Ha).
    replace (String a t +:+ "/" +:+ s +:+ "/frames") with (String a (t +:+ "/" +:+ s +:+ "/frame") +:+ "s")
      by (simpl; rewrite <- string_app_assoc; simpl; by rewrite <- string_app_assoc).
    by apply trim_slash_id. }
  destruct Hp as [_ Hp], Hs as [_ Hs].
  change ("/" +:+ s +:+ "/frames") with (String slash (s +:+ String slash "frames")).
  rewrite !Split_head by (apply plain_no_sep; [reflexivity|done]). reflexivity.
Qed.

(** ** The client over the server *)

Section client.
Context `{W : World} `{ServerCodecs} `{Dialer} `{ErrorTexts} `{Network} `{!FrameText}.

Definition stream_path_of (stream : StreamID) : string :=
  "/v1/cdip/activations/" +:+ str_ParentJobID stream +:+ "/" +:+ str_StageJobID stream +:+ "/frames".
Definition plain_stream (stream : StreamID) : Prop :=
  plain (str_ParentJobID stream) ∧ plain (str_StageJobID stream).

Lemma parse_plain_target stream : plain_stream stream → parse_target (stream_path_of stream) = (stream_path_of stream, ∅).
Proof.
  intros [[_ Hp] [_ Hs]]. unfold parse_target. rewrite Split_whole; [done|]. unfold stream_path_of.
  repeat (apply no_sep_app; [by repeat split|]; try (apply no_sep_app; [apply plain_no_sep; [reflexivity|done]|])).
  by repeat split.
Qed.
Lemma parse_query_target stream query : plain_stream stream →
  (parse_target (stream_path_of stream +:+ "?" +:+ query)).1 = stream_path_of stream.
Proof.
  intros Hpl. unfold parse_target. change ("?" +:+ query) with (String question query). rewrite Split_head.
  - by destruct (Split query question).
  - destruct Hpl as [[_ Hp] [_ Hs]]. unfold stream_path_of.
    repeat (apply no_sep_app; [by repeat split|]; try (apply no_sep_app; [apply plain_no_sep; [reflexivity|done]|])).
    by repeat split.
Qed.

(** What a call on a stream does: the effect on the server of a post or a read
    with the same outcome, or nothing when the call fails. *)
Lemma Do_effect t ctx method target hdrs body srv (P : Server → outcome Response → Prop) :
  (∀ q, rq_Path q = (parse_target target).1 → rq_Method q = method → rq_Body q = body →
        let '(srv', out) := run_prog (ServeHTTP (W := sub_world t) q) srv in P srv' out) →
  let '(srv', out) := Do t ctx method (net_base +:+ target) hdrs body srv in
  (srv' = srv ∧ ∃ e, out = Returned (Err e)) ∨
  (∃ out', P srv' out' ∧
    match out' with
    | Returned resp => out = Returned (Ok resp) ∨ (net_fault_of t = ReplyLost ∧ out = Returned (Err CallFailed))
    | Panicked => out = Returned (Err CallFailed)
    | Blocked => out = Blocked ∨ out = Returned (Err ContextDone)
    end).
Proof.
  intros HP. unfold Do. destruct (ctx_done ctx); [left; eauto|].
  rewrite (proj2 (drop_prefix_Some net_base (net_base +:+ target) target) eq_refl).
  destruct (parse_target target) as [path query] eqn:Et. cbn [fst] in HP.
  destruct (net_fault_of t) eqn:Ef; [|left; eauto|];
    match goal with |- context [run_prog (ServeHTTP ?q) srv] => specialize (HP q eq_refl eq_refl eq_refl) end;
    destruct (run_prog _ srv) as [srv' [resp| |]]; right; eexists; (split; [exact HP|]); try (by destruct (ctx_deadline ctx); auto); auto.
Qed.

Lemma request_effect t stream q srv :
  plain_stream stream → rq_Path q = stream_path_of stream →
  let '(srv', out) := run_prog (ServeHTTP (W := sub_world t) q) srv in
  (∃ resp, out = Returned resp ∧ 400 ≤ rs_Status resp ∧ srv' = srv) ∨
  (is_post q = true ∧ posted stream (Decode (A := ActivationFrame) (rq_Body q)).1 srv srv' out) ∨
  (is_post q = false ∧ is_get q = true ∧ got stream srv srv' out).
Proof.
  intros [Hp Hs] Hq. rewrite (activation_route (W := sub_world t) q _ _ Hq). destruct stream as [p s].
  apply activation_effect. by apply stream_path.
Qed.

Lemma bad_status_400 resp : 400 ≤ rs_Status resp → bad_status resp = true ∧ rs_Status resp =? 204 = false.
Proof.
  intros Hs. unfold bad_status. rewrite orb_true_iff, Z.leb_le, Z.eqb_neq. split; [right|]; lia.
Qed.

(** Sending: the frame is accepted at the end of the stream, or the call fails;
    then no stream changed, unless only the reply was lost. *)
Lemma http_Send_effect t ctx w frame srv :
  net_base = hat_managerURL (hw_transport w) → plain_stream (hw_stream w) → frame_ok frame →
  let '(srv', out) := http_Send t ctx w frame srv in
  (ActivationFrame_Validate frame = None ∧ other_stream frame (hw_stream w) = false ∧
   (out = Returned None ∨ net_fault_of t = ReplyLost ∧ out ≠ Returned None) ∧
   now_holds (hw_stream w) (frames_in srv (hw_stream w) ++ [frame]) srv srv') ∨
  (out ≠ Returned None ∧ same_frames srv srv').
Proof.
  intros Hbase Hpl Hok. unfold http_Send.
  destruct (ActivationFrame_Validate frame) eqn:Hv; [by right|].
  destruct (other_stream frame (hw_stream w)) eqn:Ho; [by right|].
  unfold streamURL. rewrite <- Hbase.
  match goal with |- context [Do t ctx "POST" (net_base +:+ ?tg) ?h ?b srv] =>
    pose proof (Do_effect t ctx "POST" tg h b srv (λ srv' out,
      (∃ resp, out = Returned resp ∧ 400 ≤ rs_Status resp ∧ srv' = srv) ∨ posted (hw_stream w) frame srv srv' out)) as HD
  end.
  destruct (Do _ _ _ _ _ _ srv) as [srv' out]. destruct HD as [[-> [e ->]]|(out' & Hout' & Hrel)].
  { intros q Hq Hm Hb. change (rq_Path q = (parse_target (stream_path_of (hw_stream w))).1) in Hq.
    rewrite (parse_plain_target _ Hpl) in Hq.
    pose proof (request_effect t (hw_stream w) q srv Hpl Hq) as He.
    rewrite Hb, (frame_text_decodes frame Hok) in He. destruct (run_prog _ srv) as [srv1 out1].
    destruct He as [He|[[_ He]|(Hnp & _)]]; [by left|by right|]. unfold is_post in Hnp. by rewrite Hm in Hnp. }
  { cbn. right. by split. }
  destruct Hout' as [(resp & -> & Hst & ->)|Hposted].
  - destruct (bad_status_400 resp Hst) as [Hbad _].
    destruct Hrel as [->|[_ ->]]; cbn; rewrite ?Hbad; right; by split.
  - destruct out' as [resp| |]; simpl in Hposted.
    + destruct Hposted as [(Hst & _ & _ & Hh)|[Hst Hs]].
      * destruct Hrel as [->|[Hf ->]]; cbn; left; split_and!; try done; [left|by right].
        unfold bad_status. by rewrite Hst.
      * destruct (bad_status_400 resp Hst) as [Hbad _].
        destruct Hrel as [->|[_ ->]]; cbn; rewrite ?Hbad; right; by split.
    + destruct Hrel as [->| ->]; cbn; right; by split.
    + subst out. cbn. right. by split.
Qed.

(** The frames on the server are good: they can be sent on and belong to their
    stream. *)
Definition good_frames (srv : Server) : Prop := ∀ sid f, f ∈ frames_in srv sid →
  frame_ok f ∧ ActivationFrame_Validate f = None ∧ other_stream f sid = false.

(** Receiving: the oldest frame is taken and returned, or the call fails; then no
    stream changed, unless only the reply was lost. *)
Lemma http_Receive_effect t ctx r srv :
  net_base = hat_managerURL (hr_transport r) → plain_stream (hr_stream r) → good_frames srv →
  let '(srv', out) := http_Receive t ctx r srv in
  (∃ frame rest, frames_in srv (hr_stream r) = frame :: rest ∧ now_holds (hr_stream r) rest srv srv' ∧
     (out = Returned (Ok frame) ∨ net_fault_of t = ReplyLost ∧ ∃ e, out = Returned (Err e))) ∨
  ((∀ frame, out ≠ Returned (Ok frame)) ∧ same_frames srv srv').
Proof.
  intros Hbase Hpl Hgood. unfold http_Receive. cbv zeta. unfold streamURL. rewrite <- Hbase, <- !string_app_assoc.
  match goal with |- context [Do t ctx "GET" (net_base +:+ ?tg) ?h ?b srv] =>
    pose proof (Do_effect t ctx "GET" tg h b srv (λ srv' out,
      (∃ resp, out = Returned resp ∧ 400 ≤ rs_Status resp ∧ srv' = srv) ∨ got (hr_stream r) srv srv' out)) as HD
  end.
  destruct (Do _ _ _ _ _ _ srv) as [srv' out]. destruct HD as [[-> [e ->]]|(out' & Hout' & Hrel)].
  { intros q Hq Hm Hb.
    match type of Hq with _ = (parse_target ?tg).1 =>
      replace tg with (stream_path_of (hr_stream r) +:+ "?" +:+ ("timeout_ms=" +:+
        Itoa (maxInt64 1 (hat_pollTimeout (hr_transport r) ÷ 1000000)))) in Hq
        by (unfold stream_path_of; by rewrite <- !string_app_assoc)
    end.
    rewrite (parse_query_target (hr_stream r) _ Hpl) in Hq.
    pose proof (request_effect t (hr_stream r) q srv Hpl Hq) as He.
    destruct (run_prog _ srv) as [srv1 out1].
    destruct He as [He|[[Hnp _]|(_ & _ & He)]]; [by left| |by right]. unfold is_post in Hnp. by rewrite Hm in Hnp. }
  { cbn. right. by split. }
  destruct Hout' as [(resp & -> & Hst & ->)|Hgot].
  - destruct (bad_status_400 resp Hst) as [Hbad Hne].
    destruct Hrel as [->|[_ ->]]; cbn; rewrite ?Hne, ?Hbad; right; by split.
  - destruct out' as [resp| |]; simpl in Hgot.
    + destruct Hgot as [(frame & rest & -> & Hq & Hh)|[[Hst|Hst] Hs]].
      * destruct (Hgood (hr_stream r) frame) as (Hok & Hv & Ho); [rewrite Hq; by left|].
        destruct Hrel as [->|[Hf ->]]; cbn; left; exists frame, rest; (split_and!; [done..|]);
          [left|right; by eauto]. by rewrite (body_text_decodes frame Hok), Hv, Ho.
      * destruct Hrel as [->|[_ ->]]; cbn; rewrite ?(proj2 (Z.eqb_eq _ _) Hst); right; by split.
      * destruct (bad_status_400 resp Hst) as [Hbad Hne].
        destruct Hrel as [->|[_ ->]]; cbn; rewrite ?Hne, ?Hbad; right; by split.
    + destruct Hrel as [->| ->]; cbn; right; by split.
    + subst out. cbn. right. by split.
Qed.
End client.

(** ** Runs of clients *)

Section runs.
Context `{ServerCodecs} `{Dialer} `{ErrorTexts} `{Network} `{!FrameText}.

(** A client sends or receives, in a world of the moment; in between, the
    manager's jobs change in any way. *)
Inductive http_op :=
  | HSend (W : World) (t : Tag) (ctx : Context) (w : httpActivationWriter) (frame : ActivationFrame)
  | HReceive (W : World) (t : Tag) (ctx : Context) (r : httpActivationReader)
  | HStore (s : State).

(** Clients of this manager, streams with plain identifiers, frames that JSON
    can carry. *)
Definition http_op_ok (op : http_op) : Prop :=
  match op with
  | HSend _ _ _ w frame => net_base = hat_managerURL (hw_transport w) ∧ plain_stream (hw_stream w) ∧ frame_ok frame
  | HReceive _ _ _ r => net_base = hat_managerURL (hr_transport r) ∧ plain_stream (hr_stream r)
  | HStore _ => True
  end.

Definition http_exec (srv : Server) (op : http_op) : Server * mem_event :=
  match op with
  | HSend W t ctx w frame =>
      let '(srv, out) := http_Send (W := W) t ctx w frame srv in
      (srv, match out with Returned None => Accepted (hw_stream w) frame | _ => Quiet end)
  | HReceive W t ctx r =>
      let '(srv, out) := http_Receive (W := W) t ctx r srv in
      (srv, match out with Returned (Ok frame) => Delivered (hr_stream r) frame | _ => Quiet end)
  | HStore s => (srv <| srv_state := s |>, Quiet)
  end.
Fixpoint http_run (srv : Server) (ops : list http_op) : Server * list mem_event :=
  match ops with
  | [] => (srv, [])
  | op :: ops =>
      let '(srv, ev) := http_exec srv op in
      let '(srv, evs) := http_run srv ops in (srv, ev :: evs)
  end.

(** One operation, when no reply is lost, seen from a stream: its client is told
    what it put in and what it took out. *)
Definition exec_step (srv srv' : Server) (ev : mem_event) (sid : StreamID) : Prop :=
  frames_in srv sid ++ option_list (accepted sid ev) = option_list (delivered sid ev) ++ frames_in srv' sid.

Lemma quiet_step srv srv' sid : frames_in srv' sid = frames_in srv sid → exec_step srv srv' Quiet sid.
Proof. intros E. unfold exec_step. by rewrite app_nil_r. Qed.

Lemma http_exec_step srv op :
  (∀ t, net_fault_of t ≠ ReplyLost) → http_op_ok op → good_frames srv →
  good_frames (http_exec srv op).1 ∧ ∀ sid, exec_step srv (http_exec srv op).1 (http_exec srv op).2 sid.
Proof.
  intros Hkept Hok Hgood. destruct op as [W t ctx w frame|W t ctx r|s]; simpl in Hok |- *.
  - destruct Hok as (Hb & Hpl & Hf). pose proof (http_Send_effect (W := W) t ctx w frame srv Hb Hpl Hf) as He.
    destruct (http_Send _ _ _ _ srv) as [srv' out]. cbn [fst snd].
    destruct He as [(Hv & Ho & Hout & Hin & Hother)|[Hout Hs]].
    + split.
      * intros sid f Hin'. destruct (decide (sid = hw_stream w)) as [->|Hne]; [|by rewrite Hother in Hin'; [apply Hgood|]].
        rewrite Hin, elem_of_app, list_elem_of_singleton in Hin'. destruct Hin' as [?| ->]; [by apply Hgood|done].
      * intros sid. destruct Hout as [->|[Hl _]]; [|by destruct (Hkept t)]. unfold exec_step. cbn [accepted delivered].
        destruct (decide (sid = hw_stream w)) as [->|Hne]; [by rewrite Hin, bool_decide_eq_true_2|].
        rewrite bool_decide_eq_false_2 by done. simpl. by rewrite Hother, app_nil_r.
    + split; [intros sid f Hin; rewrite Hs in Hin; by apply Hgood|].
      intros sid. destruct out as [[e|]| |]; try done; by apply quiet_step.
  - destruct Hok as [Hb Hpl]. pose proof (http_Receive_effect (W := W) t ctx r srv Hb Hpl Hgood) as He.
    destruct (http_Receive _ _ _ srv) as [srv' out]. cbn [fst snd].
    destruct He as [(frame & rest & Hq & [Hin Hother] & Hout)|[Hout Hs]].
    + split.
      * intros sid f Hin'. destruct (decide (sid = hr_stream r)) as [->|Hne]; [|by rewrite Hother in Hin'; [apply Hgood|]].
        apply Hgood. rewrite Hq, <- Hin. by right.
      * intros sid. destruct Hout as [->|[Hl _]]; [|by destruct (Hkept t)]. unfold exec_step. cbn [accepted delivered].
        destruct (decide (sid = hr_stream r)) as [->|Hne]; [by rewrite Hq, Hin, app_nil_r, bool_decide_eq_true_2|].
        rewrite bool_decide_eq_false_2 by done. simpl. by rewrite Hother, app_nil_r.
    + split; [intros sid f Hin; rewrite Hs in Hin; by apply Hgood|].
      intros sid. destruct out as [[f|e]| |]; [by destruct (Hout f)|by apply quiet_step..].
  - split; [exact Hgood|]. intros sid. by apply quiet_step.
Qed.
Lemma http_run_queue srv ops sid :
  (∀ t, net_fault_of t ≠ ReplyLost) → good_frames srv → Forall http_op_ok ops →
  let '(srv', evs) := http_run srv ops in
  frames_in srv sid ++ omap (accepted sid) evs = omap (delivered sid) evs ++ frames_in srv' sid.
Proof.
  intros Hkept Hg Hok. revert srv Hg. induction Hok as [|op ops Hop Hops IH]; intros srv Hg; cbn [http_run].
  { apply app_nil_r. }
  destruct (http_exec_step srv op Hkept Hop Hg) as [Hg' Hstep]. specialize (Hstep sid). unfold exec_step in Hstep.
  destruct (http_exec srv op) as [srv1 ev]. cbn [fst snd] in *. specialize (IH srv1 Hg').
  destruct (http_run srv1 ops) as [srv' evs].
  assert (∀ {A} (f : mem_event → option A), omap f (ev :: evs) = option_list (f ev) ++ omap f evs) as Hom
    by (intros A f; simpl; by destruct (f ev)).
  by rewrite !Hom, app_assoc, Hstep, <- !app_assoc, IH.
Qed.
End runs.

(** ** Lost replies

    The same network, but for the replies it loses: those get through. *)

Definition replies_kept (N : Network) : Network := {|
  net_base := net_base;
  net_fault_of t := match net_fault_of t with ReplyLost => Carried | f => f end;
  net_context := net_context;
|}.

Section lost.
Context `{ServerCodecs} `{Dialer} `{ErrorTexts} {N : Network} `{!FrameText}.

(** A call leaves the server the same, and its client hears of it, or of a failure. *)
Lemma Do_kept (W : World) t ctx method url hdrs body srv :
  let '(srv', out) := Do t ctx method url hdrs body srv in
  ∃ out', Do (H2 := replies_kept N) t ctx method url hdrs body srv = (srv', out') ∧
    (out = out' ∨ net_fault_of t = ReplyLost ∧ out = Returned (Err CallFailed)).
Proof.
  unfold Do. destruct (ctx_done ctx); [by eauto|]. cbn [net_base net_fault_of net_context replies_kept].
  destruct (drop_prefix _ url) as [target|]; [|by eauto]. destruct (parse_target target) as [path query].
  destruct (net_fault_of t) eqn:Ef; try (by eauto); destruct (run_prog _ srv) as [srv' [resp| |]];
    eexists; (split; [reflexivity|]); auto.
Qed.
Lemma http_Send_kept (W : World) t ctx w frame srv :
  let '(srv', out) := http_Send t ctx w frame srv in
  ∃ out', http_Send (H2 := replies_kept N) t ctx w frame srv = (srv', out') ∧
    (out = out' ∨ net_fault_of t = ReplyLost ∧ out ≠ Returned None).
Proof.
  unfold http_Send. destruct (ActivationFrame_Validate frame); [by eauto|]. destruct (other_stream _ _); [by eauto|].
  match goal with |- context [Do t ctx ?m ?u ?h ?b srv] => pose proof (Do_kept W t ctx m u h b srv) as Hd end.
  destruct (Do _ _ _ _ _ _ _) as [srv' out]. destruct Hd as (out' & -> & [->|[Hl ->]]).
  - destruct out' as [[resp|e]| |]; by eauto.
  - destruct out' as [[resp|e]| |]; eexists; (split; [reflexivity|right; by split]).
Qed.
Lemma http_Receive_kept (W : World) t ctx r srv :
  let '(srv', out) := http_Receive t ctx r srv in
  ∃ out', http_Receive (H2 := replies_kept N) t ctx r srv = (srv', out') ∧
    (out = out' ∨ net_fault_of t = ReplyLost ∧ ∃ e, out = Returned (Err e)).
Proof.
  unfold http_Receive. cbv zeta.
  match goal with |- context [Do t ctx ?m ?u ?h ?b srv] => pose proof (Do_kept W t ctx m u h b srv) as Hd end.
  destruct (Do _ _ _ _ _ _ _) as [srv' out]. destruct Hd as (out' & -> & [->|[Hl ->]]).
  - destruct out' as [[resp|e]| |]; by eauto.
  - destruct out' as [[resp|e]| |]; eexists; (split; [reflexivity|right; by eauto]).
Qed.

(** What the client of an operation is told, given what the server did. *)
Definition told_of (op : http_op) (told did : mem_event) : Prop :=
  told = did ∨
  told = Quiet ∧ match op with HSend _ t _ _ _ | HReceive _ t _ _ => net_fault_of t = ReplyLost | HStore _ => False end.
Lemma http_exec_kept srv op :
  let '(srv', told) := http_exec srv op in
  ∃ did, http_exec (H2 := replies_kept N) srv op = (srv', did) ∧ told_of op told did.
Proof.
  unfold told_of. destruct op as [W t ctx w frame|W t ctx r|s]; cbn [http_exec]; [| |by eauto].
  - pose proof (http_Send_kept W t ctx w frame srv) as Hs. destruct (http_Send _ _ _ _ _) as [srv' out].
    destruct Hs as (out' & -> & [->|[Hl Hout]]); eexists; (split; [reflexivity|]); [by left|right].
    split; [|done]. by destruct out as [[e|]| |].
  - pose proof (http_Receive_kept W t ctx r srv) as Hs. destruct (http_Receive _ _ _ _) as [srv' out].
    destruct Hs as (out' & -> & [->|[Hl [e ->]]]); eexists; (split; [reflexivity|]); [by left|by right].
Qed.
Lemma http_run_kept srv ops :
  let '(srv', told) := http_run srv ops in
  ∃ did, http_run (H2 := replies_kept N) srv ops = (srv', did) ∧ Forall3 told_of ops told did.
Proof.
  revert srv. induction ops as [|op ops IH]; intros srv; cbn [http_run]; [eexists; split; [reflexivity|constructor]|].
  pose proof (http_exec_kept srv op) as Hop. destruct (http_exec srv op) as [srv1 told].
  destruct Hop as (did & -> & Ht). specialize (IH srv1). destruct (http_run srv1 ops) as [srv' tolds].
  destruct IH as (dids & -> & Hts). eexists. split; [reflexivity|]. by constructor.
Qed.

(** C8 (refinement). The HTTP transport keeps the promise of the in-memory one: on a
    manager with no frames waiting, whatever frames that JSON can carry its clients
    send, and receive, on streams with plain identifiers over a network that may
    lose requests and replies, while the jobs change in any way, the server does
    what it would do if every reply got through ([did]), in which the frames
    accepted on a stream are the frames delivered from it followed by those waiting,
    in order; and each client is told what the server did, unless the reply to that
    very call was lost, when it is told of a failure. *)
Theorem http_streams_refine_queues (srv : Server) (ops : list http_op) (sid : StreamID) :
  (∀ sid, frames_in srv sid = []) → Forall http_op_ok ops →
  let '(srv', told) := http_run srv ops in
  ∃ did, http_run (H2 := replies_kept N) srv ops = (srv', did) ∧
    omap (accepted sid) did = omap (delivered sid) did ++ frames_in srv' sid ∧
    Forall3 told_of ops told did.
Proof.
  intros Hempty Hok. pose proof (http_run_kept srv ops) as Hr. destruct (http_run srv ops) as [srv' told].
  destruct Hr as (did & Hrun & Ht). exists did. split_and!; [done| |done].
  pose proof (http_run_queue (H2 := replies_kept N) srv ops sid) as Hq. rewrite Hrun, Hempty in Hq. apply Hq; [| |done].
  - intros t. simpl. by destruct (net_fault_of t).
  - intros s f. rewrite Hempty. by intros ?%not_elem_of_nil.
Qed.
End lost.

(** ** A worked example *)

Section demo.
#[local] Existing Instance silent_network.
#[local] Existing Instance no_texts.
(** The stage [s] of the job [p], as in the access examples; every frame decodes
    to the one of the example. *)
#[local] Existing Instance access_codecs.
Definition demo_activation : ActivationFrame := demo_frame "p" "s" "activations".
#[local] Instance demo_net : Network := {|
  net_base := "http://manager";
  net_fault_of t := if bool_decide (t = ["lost"%string]) then ReplyLost else Carried;
  net_context _ := Background |}.
#[local] Instance demo_frame_text : FrameText.
Proof.
  refine {| frame_text _ := "x"; body_text _ := "x"; frame_ok f := f = demo_activation |}; by intros f ->.
Defined.

Definition from_b : HTTPActivationTransport :=
  WithNodeID (NewHTTPActivationTransport "http://manager/" "") "b".
Definition to_c : HTTPActivationTransport :=
  WithNodeID (NewHTTPActivationTransport "http://manager" "") " c ".
Definition send_op (t : Tag) : http_op :=
  HSend (world_at 20) t Background (mkHTTPWriter from_b (mkStreamID "p" "s")) demo_activation.
Definition receive_op (t : Tag) : http_op :=
  HReceive (world_at 20) t Background (mkHTTPReader to_c (mkStreamID "p" "s")).

(** Two frames, of which the sender takes the second for lost; then three reads,
    of which the second loses its frame on the way. *)
Definition demo_ops : list http_op :=
  [send_op ["1"]; send_op ["lost"]; receive_op ["2"]; receive_op ["lost"]; receive_op ["3"]]%string.
Example lost_replies_lose_frames :
  (http_run access_server demo_ops).2 =
  [Accepted (mkStreamID "p" "s") demo_activation; Quiet; Delivered (mkStreamID "p" "s") demo_activation; Quiet; Quiet].
Proof. vm_compute. reflexivity. Qed.

Lemma http_streams_refine_queues_witness :
  Forall http_op_ok demo_ops ∧
  ∃ did, omap (accepted (mkStreamID "p" "s")) did = [demo_activation; demo_activation] ∧
    omap (delivered (mkStreamID "p" "s")) did = [demo_activation; demo_activation] ∧
    Forall3 told_of demo_ops (http_run access_server demo_ops).2 did.
Proof.
  assert (Forall http_op_ok demo_ops) as Hok by (repeat constructor; discriminate).
  split; [exact Hok|].
  assert (Hempty : ∀ sid, frames_in access_server sid = []) by (intros sid; reflexivity).
  pose proof (http_streams_refine_queues access_server demo_ops (mkStreamID "p" "s") Hempty Hok) as Hrun.
  assert (Hdid : omap (accepted (mkStreamID "p" "s")) (http_run (H2 := replies_kept demo_net) access_server demo_ops).2 =
    [demo_activation; demo_activation]) by (vm_compute; reflexivity).
  assert (Htook : omap (delivered (mkStreamID "p" "s")) (http_run (H2 := replies_kept demo_net) access_server demo_ops).2 =
    [demo_activation; demo_activation]) by (vm_compute; reflexivity).
  destruct (http_run access_server demo_ops) as [srv' told].
  destruct Hrun as (did & E & _ & Ht). rewrite E in Hdid, Htook. exists did. split_and!; [exact Hdid|exact Htook|exact Ht].
Defined.
End demo.
