(* ===== verification/Discovery.v ===== *)
(** * What a worker finds out about itself

    [internal/resources/discovery.go] and [disk_unix.go]: the resources, models
    and runtimes a worker reports, the manifest beside an installed model and the
    state of the RPC server; [internal/workerstatus/status.go]: what the worker
    writes about its job.  The machine's facts are the instance of [Facts]. *)

From S2P Require Import Prelude GoString GoSort GoFloat World Paths Files Json Types Models DistributedPlan Transport Http LlamaCpp.

(** ** Data *)

Record ResourceLimits := mkLimits {
  lim_CPUCores : Z;
  lim_MemoryBytes : Z;
  lim_DiskBytes : Z;
  lim_GPUEnabled : bool;
  lim_VRAMBytes : Z;
  lim_JobSlots : Z;
}.
Record DiscoveryOptions := mkDiscoveryOptions { do_Limits : ResourceLimits; do_CacheDir : string }.
Record LlamaCPPRPCState := mkRPCState {
  rpcs_Running : bool;
  rpcs_Endpoint : string;
  rpcs_BindEndpoint : string;
  rpcs_AdvertiseEndpoint : string;
  rpcs_PID : Z;
  rpcs_StartedAt : Time;
  rpcs_UpdatedAt : Time;
}.
Record CMeshStorageUsage := mkUsage {
  us_ModelsBytes : Z;
  us_RuntimesBytes : Z;
  us_TotalBytes : Z;
  us_PartialModelBytes : Z;
  us_PartialModelFiles : Z;
  us_OrphanModelBytes : Z;
  us_OrphanModelDirs : Z;
}.
Record ModelManifest := mkManifest {
  mf_Schema : string;
  mf_ID : string;
  mf_Name : string;
  mf_Family : string;
  mf_Runtime : string;
  mf_Repo : string;
  mf_File : string;
  mf_URL : string;
  mf_Path : string;
  mf_Bytes : Z;
  mf_InstalledAt : Time;
}.
Record JobStatus := mkJobStatus {
  ws_State : string;
  ws_NodeID : string;
  ws_JobID : string;
  ws_Type : string;
  ws_Input : string;
  ws_Result : string;
  ws_Error : string;
  ws_ProgressBytes : Z;
  ws_TotalBytes : Z;
  ws_ProgressPercent : float64;
  ws_ProgressLabel : string;
  ws_StartedAt : option Time;
  ws_FinishedAt : option Time;
  ws_UpdatedAt : Time;
}.

(** The indented texts of these, with the newline the writers append. *)
Class DiscoveryCodecs := {
  dc_manifest :: Json ModelManifest;
  dc_rpc_state :: Json LlamaCPPRPCState;
  dc_status :: Json JobStatus;
}.

(** The machine's facts. *)
Class Facts := {
  num_cpu : Z;                                        (** runtime.NumCPU *)
  statfs : string → option (Z * Z * Z);               (** block size, blocks, blocks available *)
  command_output : list string → option string;       (** exec.Command(...).Output *)
}.

(** ** Parsing what the system says *)

(** strconv.ParseUint(s, 10, 64) *)
Definition ParseUint (s : string) : option Z :=
  if str_eqb s "" then None
  else n ← digits 0 s; if n <? 2^64 then Some n else None.

(** bufio.ScanLines: no final empty line, no carriage return at the end of one. *)
Definition line_feed : Ascii.ascii := Ascii.ascii_of_nat 10.
Definition drop_cr (line : string) : string := TrimSuffix line (bytes [13%nat]).
Definition scan_lines (s : string) : list string :=
  let lines := Split s line_feed in
  drop_cr <$> (if str_eqb (default "" (last lines)) "" then removelast lines else lines).

(** strings.Fields *)
Fixpoint until_space (s : string) : string * string :=
  match drop_any space_runes s with
  | Some _ => ("", s)
  | None => match s with
            | "" => ("", "")
            | String a s' => let '(field, rest) := until_space s' in (String a field, rest)
            end
  end%string.
Fixpoint fields_fuel (fuel : nat) (s : string) : list string :=
  match fuel with
  | O => []
  | S fuel =>
      let s := TrimLeftSpace s in
      if str_eqb s "" then []
      else let '(field, rest) := until_space s in field :: fields_fuel fuel rest
  end.
Definition Fields (s : string) : list string := fields_fuel (S (String.length s)) s.

Definition firstNonEmpty (values : list string) : string :=
  default "" (head (filter (λ value, blank value = false) values)).

Definition allowedInt (configured total : Z) : Z :=
  if configured <=? 0 then total
  else if (0 <? total) && (total <? configured) then total
  else configured.
Definition allowedBytes (configured total : Z) : Z :=
  if configured =? 0 then total
  else if (0 <? total) && (total <? configured) then total
  else configured.

Section discovery.
Context `{World} `{Files} `{Platform} `{Host} `{RuntimeTexts} `{DiscoveryCodecs} `{Facts}.

(** ** Memory, disk and graphics *)

Definition sysctlUint64 (key : string) : Z :=
  match command_output ["sysctl"%string; "-n"%string; key] with
  | None => 0
  | Some output => default 0 (ParseUint (TrimSpace output))
  end.
Fixpoint meminfo_total (lines : list string) : Z :=
  match lines with
  | [] => 0
  | line :: rest =>
      if negb (HasPrefix line "MemTotal:") then meminfo_total rest
      else match Fields line with
           | _ :: kb :: _ => match ParseUint kb with Some kb => u64 (kb * 1024) | None => 0 end
           | _ => 0
           end
  end.
Definition linuxMemTotal (t : Tag) (fs : tree) : Z :=
  match os_ReadFile t fs "/proc/meminfo" with
  | Err _ => 0
  | Ok data => meminfo_total (scan_lines data)
  end.
Definition discoverTotalMemory (t : Tag) (fs : tree) : Z :=
  if str_eqb GOOS "darwin" then sysctlUint64 "hw.memsize"
  else if str_eqb GOOS "linux" then linuxMemTotal t fs
  else 0.

Definition discoverDisk (path : string) : Z * Z :=
  let sizes '(bsize, blocks, bavail) := (u64 (blocks * bsize), u64 (bavail * bsize)) in
  let path := if str_eqb path "" then "."%string else path in
  match statfs path with
  | Some x => sizes x
  | None => if str_eqb path "." then (0, 0)
            else match statfs "." with Some x => sizes x | None => (0, 0) end
  end.

Definition chipset_prefix : string := "Chipset Model:".
Fixpoint chipset (lines : list string) : string :=
  match lines with
  | [] => ""
  | line :: rest =>
      let line := TrimSpace line in
      if HasPrefix line chipset_prefix then TrimSpace (TrimPrefix line chipset_prefix) else chipset rest
  end.
Definition darwinGPUName : string :=
  match command_output ["system_profiler"; "SPDisplaysDataType"]%string with
  | None => ""
  | Some output => chipset (scan_lines output)
  end.
Definition discoverGPUs (limits : ResourceLimits) : list GPUResources :=
  if negb (lim_GPUEnabled limits) then []
  else if str_eqb GOOS "darwin" then
    let gpu := darwinGPUName in
    if str_eqb gpu "" then [] else [mkGPUResources gpu "apple" 0 (lim_VRAMBytes limits) true]
  else [].

(** ** The use of the cache *)

(** What a file adds: nothing when its size cannot be read. *)
Definition info_size (t : Tag) (p : place) (e : entry) : option Z :=
  match io_fault (t ++ "info"%string :: p) with Some _ => None | None => Some (Size e) end.
Definition positive_size (t : Tag) (p : place) (e : entry) : option Z :=
  size ← info_size t p e; if size <=? 0 then None else Some size.

Definition partial_step (t : Tag) (acc : Z * Z) (v : visit) : Z * Z :=
  match v with
  | Unread _ _ => acc
  | Visit p e =>
      if is_dir (Some e) || negb (HasSuffix (base p) ".tmp") then acc
      else match positive_size t p e with
           | None => acc
           | Some size => (u64 (acc.1 + size), i64 (acc.2 + 1))
           end
  end.
Definition discoverPartialModelDownloads (t : Tag) (fs : tree) (modelsDir : string) : Z * Z :=
  foldl (partial_step t) (0, 0) (walk t fs modelsDir).

Definition size_step (t : Tag) (total : Z) (v : visit) : Z :=
  match v with
  | Unread _ _ => total
  | Visit p e =>
      if is_dir (Some e) then total
      else match positive_size t p e with None => total | Some size => u64 (total + size) end
  end.
Definition discovered_size (t : Tag) (fs : tree) (path : string) : Z := foldl (size_step t) 0 (walk t fs path).

Definition catalogued (id : string) : bool := existsb (λ model, str_eqb (model_ID model) id) Catalog.
Definition discoverOrphanModelDirs (t : Tag) (fs : tree) (modelsDir : string) : Z * Z :=
  match os_ReadDir t fs modelsDir with
  | Err _ => (0, 0)
  | Ok listing =>
      foldl (λ acc x, if negb (is_dir (Some x.2)) || catalogued x.1 then acc
                      else (u64 (acc.1 + discovered_size (t ++ [x.1]) fs (PathJoin [modelsDir; x.1])), i64 (acc.2 + 1)))
        (0, 0) listing
  end.

Definition discoverCMeshStorageUsage (t : Tag) (fs : tree) (cacheDir : string) : CMeshStorageUsage :=
  let cacheDir := TrimSpace cacheDir in
  if str_eqb cacheDir "" then mkUsage 0 0 0 0 0 0 0
  else
    let modelsDir := PathJoin [cacheDir; "models"%string] in
    let '(partialBytes, partialFiles) := discoverPartialModelDownloads (t ++ ["partial"%string]) fs modelsDir in
    let '(orphanBytes, orphanDirs) := discoverOrphanModelDirs (t ++ ["orphans"%string]) fs modelsDir in
    mkUsage (discovered_size (t ++ ["models"%string]) fs modelsDir)
      (discovered_size (t ++ ["runtimes"%string]) fs (PathJoin [cacheDir; "runtimes"%string]))
      (discovered_size (t ++ ["total"%string]) fs cacheDir) partialBytes partialFiles orphanBytes orphanDirs.

(** ** Installed models *)

Definition modelManifestFile : string := "cmesh-model.json".
Definition ModelFilePath (cacheDir : string) (model : Model) : string :=
  PathJoin [cacheDir; "models"%string; model_ID model; model_File model].
Definition ModelManifestPath (cacheDir modelID : string) : string :=
  PathJoin [cacheDir; "models"%string; modelID; modelManifestFile].

Definition manifest_of (t : Tag) (model : Model) (path : string) (bytes : Z) (installedAt : Time) : ModelManifest :=
  mkManifest "cmesh.model.v1" (model_ID model) (model_Name model) (model_Family model) (model_Runtime model)
    (model_Repo model) (model_File model) (model_URL model) path bytes
    (if IsZero installedAt then w_clock (t ++ ["now"%string]) else installedAt).
Definition WriteModelManifest (t : Tag) (fs : tree) (cacheDir : string) (model : Model) (path : string) (bytes : Z)
    (installedAt : Time) : tree * option os_error :=
  let file := ModelManifestPath cacheDir (model_ID model) in
  match os_MkdirAll (t ++ ["mkdir"%string]) fs (PathDir file) with
  | (fs, Some e) => (fs, Some e)
  | (fs, None) => os_WriteFile (t ++ ["write"%string]) fs file (Marshal (manifest_of t model path bytes installedAt))
  end.
Definition readModelManifest (t : Tag) (fs : tree) (cacheDir modelID : string) : option ModelManifest :=
  match os_ReadFile t fs (ModelManifestPath cacheDir modelID) with
  | Err _ => None
  | Ok body => Unmarshal (A := ModelManifest) body
  end.

(** What is reported of a model file, by its manifest. *)
Definition installed_resource (model : Model) (path : string) (size : Z) (manifest : option ModelManifest)
    : ModelResource :=
  let resource name family rt bytes err installedAt :=
    mkModelResource (model_ID model) name family rt path bytes true err installedAt in
  let plain err := resource (model_Name model) (model_Family model) (model_Runtime model) size err 0 in
  match manifest with
  | None => plain "manifest missing"%string
  | Some m =>
      if negb (str_eqb (TrimSpace (mf_ID m)) (model_ID model)) then plain "manifest id does not match catalog"%string
      else
        let file_error := if negb (str_eqb (mf_File m) "") && negb (str_eqb (mf_File m) (model_File model))
                          then "manifest file does not match catalog"%string else ""%string in
        let size_wrong := (0 <? mf_Bytes m) && negb (mf_Bytes m =? size) in
        resource (firstNonEmpty [mf_Name m; model_Name model]) (firstNonEmpty [mf_Family m; model_Family model])
          (firstNonEmpty [mf_Runtime m; model_Runtime model])
          (if size_wrong then size else if 0 <? mf_Bytes m then mf_Bytes m else size)
          (if size_wrong then "manifest size does not match model file" else file_error)%string (mf_InstalledAt m)
  end.
Definition installed_model (t : Tag) (fs : tree) (cacheDir : string) (model : Model) : option ModelResource :=
  let path := ModelFilePath cacheDir model in
  match os_Stat (t ++ ["stat"%string; model_ID model]) fs path with
  | Err _ => None
  | Ok info =>
      if is_dir (Some info) || (Size info <=? 0) then None
      else Some (installed_resource model path (Size info)
                   (readModelManifest (t ++ ["manifest"%string; model_ID model]) fs cacheDir (model_ID model)))
  end.
Definition DiscoverInstalledModels (t : Tag) (fs : tree) (cacheDir : string) : list ModelResource :=
  if blank cacheDir then [] else omap (installed_model t fs cacheDir) Catalog.

(** ** The state of the RPC server *)

Definition LlamaCPPRPCStatePath (cacheDir : string) : string :=
  PathJoin [cacheDir; "runtimes"%string; "llama.cpp-rpc.json"%string].
(** Trimmed, each endpoint standing in for the other. *)
Definition normalized (state : LlamaCPPRPCState) : LlamaCPPRPCState :=
  let endpoint := TrimSpace (rpcs_Endpoint state) in
  let advertise := TrimSpace (rpcs_AdvertiseEndpoint state) in
  let advertise := if str_eqb advertise "" then endpoint else advertise in
  mkRPCState (rpcs_Running state) (if str_eqb endpoint "" then advertise else endpoint)
    (TrimSpace (rpcs_BindEndpoint state)) advertise (rpcs_PID state) (rpcs_StartedAt state) (rpcs_UpdatedAt state).
Definition WriteLlamaCPPRPCState (t : Tag) (fs : tree) (cacheDir : string) (state : LlamaCPPRPCState)
    : tree * option os_error :=
  let cacheDir := TrimSpace cacheDir in
  if str_eqb cacheDir "" then (fs, None)
  else
    let state := normalized state in
    let state := mkRPCState (rpcs_Running state) (rpcs_Endpoint state) (rpcs_BindEndpoint state)
      (rpcs_AdvertiseEndpoint state) (rpcs_PID state) (rpcs_StartedAt state) (w_clock (t ++ ["now"%string])) in
    let path := LlamaCPPRPCStatePath cacheDir in
    match os_MkdirAll (t ++ ["mkdir"%string]) fs (PathDir path) with
    | (fs, Some e) => (fs, Some e)
    | (fs, None) => os_WriteFile (t ++ ["write"%string]) fs path (Marshal state)
    end.
Definition ClearLlamaCPPRPCState (t : Tag) (fs : tree) (cacheDir : string) : tree * option os_error :=
  let cacheDir := TrimSpace cacheDir in
  if str_eqb cacheDir "" then (fs, None)
  else match os_Remove t fs (LlamaCPPRPCStatePath cacheDir) with
       | (fs, Some e) => (fs, if IsNotExist e then None else Some e)
       | (fs, None) => (fs, None)
       end.
Definition ReadLlamaCPPRPCState (t : Tag) (fs : tree) (cacheDir : string) : option LlamaCPPRPCState :=
  let cacheDir := TrimSpace cacheDir in
  if str_eqb cacheDir "" then None
  else match os_ReadFile t fs (LlamaCPPRPCStatePath cacheDir) with
       | Err _ => None
       | Ok body =>
           state ← Unmarshal (A := LlamaCPPRPCState) body;
           let state := normalized state in
           if negb (rpcs_Running state) || str_eqb (rpcs_Endpoint state) "" then None else Some state
       end.

(** ** Runtimes *)

Definition runtimeCapabilities (t : Tag) (fs : tree) (status : RuntimeStatus) (cacheDir : string) : list string :=
  if negb (rs_Ready status) then []
  else if str_eqb (rs_Name status) LlamaCPPName then
    match ReadLlamaCPPRPCState (t ++ ["state"%string]) fs cacheDir with
    | Some state =>
        if pr_Ready (rpc_Probe (t ++ ["probe"%string]) fs
             (NewLlamaCPPRPCRuntime (rs_BinaryPath status) (rpcs_Endpoint state)) Background)
        then LogicalStageCapabilities ++ [CapabilityLlamaCPPRPCClient; CapabilityLlamaCPPRPCBackend]
        else LogicalStageCapabilities
    | None => LogicalStageCapabilities
    end
  else [].
Definition runtimeRPCRuntimes (t : Tag) (fs : tree) (status : RuntimeStatus) (cacheDir : string)
    : list RPCRuntimeResource :=
  if negb (str_eqb (rs_Name status) LlamaCPPName) then []
  else
    let state := ReadLlamaCPPRPCState (t ++ ["state"%string]) fs cacheDir in
    let endpoint := match state with Some state => rpcs_Endpoint state | None => ""%string end in
    let active := match state with Some _ => true | None => false end in
    let probe := rpc_Probe (t ++ ["probe"%string]) fs (NewLlamaCPPRPCRuntime (rs_BinaryPath status) endpoint) Background in
    [mkRPCRuntimeResource (pr_Name probe) (active && pr_Ready probe) (pr_ServerPath probe) (pr_Endpoint probe)
       (pr_Protocol probe)
       (pr_Blockers probe ++ (if pr_Ready probe && negb active then ["llama.cpp rpc-server is not running"%string] else []))].
Definition runtimeStageRuntimes (t : Tag) (fs : tree) (status : RuntimeStatus) : list StageRuntimeResource :=
  if negb (str_eqb (rs_Name status) LlamaCPPName) then []
  else
    let probe := stage_Probe t fs (NewLlamaCPPStageRuntime (rs_BinaryPath status)) Background in
    [mkStageRuntimeResource (ps_Name probe) (ps_Ready probe) (ps_CLIReady probe) (ps_BinaryPath probe)
       (ps_RequiredHooks probe) (ps_Blockers probe)].
Definition DiscoverRuntimes (t : Tag) (fs : tree) (cacheDir : string) : list RuntimeResource :=
  let status := LlamaCPPStatus (t ++ ["status"%string]) fs cacheDir in
  [mkRuntimeResource (rs_Name status) (rs_Ready status) (rs_Version status) (rs_Platform status)
     (rs_BinaryPath status) (rs_Source status)
     (runtimeCapabilities (t ++ ["capabilities"%string]) fs status cacheDir)
     (runtimeRPCRuntimes (t ++ ["rpc"%string]) fs status cacheDir)
     (runtimeStageRuntimes (t ++ ["stage"%string]) fs status) (rs_Error status)].

(** ** The snapshot *)

Definition DiscoverLocal (t : Tag) (fs : tree) (options : DiscoveryOptions) : tree * ResourceSnapshot :=
  let cacheDir := do_CacheDir options in
  let limits := do_Limits options in
  let fs := if str_eqb cacheDir "" then fs else (os_MkdirAll (t ++ ["mkdir"%string]) fs cacheDir).1 in
  let totalMemory := discoverTotalMemory (t ++ ["memory"%string]) fs in
  let '(totalStorage, freeStorage) := discoverDisk cacheDir in
  let usage := discoverCMeshStorageUsage (t ++ ["usage"%string]) fs cacheDir in
  (fs, mkResourceSnapshot
    (mkCPUResources num_cpu (allowedInt (lim_CPUCores limits) num_cpu))
    (mkMemoryResources totalMemory (allowedBytes (lim_MemoryBytes limits) totalMemory))
    (discoverGPUs limits)
    (mkStorageResources totalStorage (allowedBytes (lim_DiskBytes limits) freeStorage) freeStorage
       (us_ModelsBytes usage) (us_RuntimesBytes usage) (us_TotalBytes usage) (us_PartialModelBytes usage)
       (us_PartialModelFiles usage) (us_OrphanModelBytes usage) (us_OrphanModelDirs usage))
    (allowedInt (lim_JobSlots limits) 1)
    (DiscoverInstalledModels (t ++ ["models"%string]) fs cacheDir)
    (DiscoverRuntimes (t ++ ["runtimes"%string]) fs cacheDir)).

(** ** The status of the job *)

Definition status_FileName : string := "worker-job-status.json".
Definition status_Path (cacheDir : string) : string :=
  PathJoin [if str_eqb cacheDir "" then "."%string else cacheDir; status_FileName].
Definition status_Read (t : Tag) (fs : tree) (cacheDir : string) : option JobStatus :=
  match os_ReadFile t fs (status_Path cacheDir) with
  | Err _ => None
  | Ok body => Unmarshal (A := JobStatus) body
  end.
Definition updated_at (now : Time) (s : JobStatus) : JobStatus :=
  mkJobStatus (ws_State s) (ws_NodeID s) (ws_JobID s) (ws_Type s) (ws_Input s) (ws_Result s) (ws_Error s)
    (ws_ProgressBytes s) (ws_TotalBytes s) (ws_ProgressPercent s) (ws_ProgressLabel s) (ws_StartedAt s)
    (ws_FinishedAt s) now.
Definition status_Write (t : Tag) (fs : tree) (cacheDir : string) (status : JobStatus) : tree * option os_error :=
  let path := status_Path cacheDir in
  match os_MkdirAll (t ++ ["mkdir"%string]) fs (PathDir path) with
  | (fs, Some e) => (fs, Some e)
  | (fs, None) =>
      os_WriteFile (t ++ ["write"%string]) fs path (Marshal (updated_at (w_clock (t ++ ["now"%string])) status))
  end.
Definition idle_status (nodeID : string) : JobStatus :=
  mkJobStatus "idle" nodeID "" "" "" "" "" 0 0 f_zero "" None None 0.
Definition MarkIdle (t : Tag) (fs : tree) (cacheDir nodeID : string) : tree * option os_error :=
  status_Write t fs cacheDir (idle_status nodeID).
End discovery.
