(* ===== verification/ModelJobs.v ===== *)
(** * Jobs on model files

    [cmd/cmesh/main.go], the jobs that install, repair, delete and clean up
    models, the progress they report, and the errors of all jobs.  A job runs on
    the worker's file tree and, for its progress, against the manager. *)

From S2P Require Import Prelude GoString GoSort GoFloat World Json Cdip Types Protocol Models State JobStore RpcPool.
From S2P Require Import DistributedPlan Transport Http Handlers Demo Server Access.
From S2P Require Import MatrixJob Prompt HttpTransport Paths Files LlamaCpp Discovery.

(** ** Errors of jobs *)

Inductive worker_error :=
  | GuardRejected (text : string)
  | InvalidInput
  | ParentIDRequired
  | ModelRequired
  | ShardDiffers
  | UnsupportedShard (m : ShardMaterialization)
  | ShardRuntimeRequired
  | RuntimeNotReady (runtime : string)
  | NotInstalled (modelID : string)
  | StageRefused (e : stage_error)
  | MatrixRefused (e : matrix_error)
  | CoordinatorOwned
  | UnsupportedJobType (jobType : string)
  | PromptRequired
  | UnknownModel (modelID : string)
  | StatFailed (e : os_error)
  | RuntimeUnavailable (e : runtime_error)
  | UnsupportedRuntime (runtime : string)
  | GenerateTimedOut
  | GenerateFailed (text stderr : string)
  | EmptyResponse
  | InvalidPlan (e : plan_error)
  | InvalidResult (e : plan_error)
  | DiskFailed (e : os_error)
  | ManifestFailed (e : os_error)
  | PartialKept (e : os_error)
  | DownloadFailed (text : string)
  | ModelDownloadReturned (status : Z)
  | CloseFailed (text : string)
  | WroteNothing
  | UnsupportedScope (scope : string)
  | UndecodableInstall.

(** The texts of errors; every message has constant words. *)
Class WorkerTexts := {
  worker_text : worker_error → string;
  worker_text_some e : blank (worker_text e) = false;
}.

(** ** Results *)

Record modelInstallResult := mkInstallResult {
  mir_Kind : string; mir_ModelID : string; mir_ModelName : string; mir_Path : string; mir_Bytes : Z;
  mir_Runtime : string; mir_WorkerRuntime : string;
}.
Record modelDeleteResult := mkDeleteResult {
  mdr_Kind : string; mdr_ModelID : string; mdr_Removed : bool; mdr_Path : string; mdr_FreedBytes : Z;
  mdr_WorkerRuntime : string;
}.
Record modelRepairResult := mkRepairResult {
  mrr_Kind : string; mrr_ModelID : string; mrr_ModelName : string; mrr_Path : string; mrr_Bytes : Z;
  mrr_Runtime : string; mrr_WorkerRuntime : string;
  mrr_ManifestRepaired : bool; mrr_TempCleaned : bool; mrr_Reinstalled : bool;
}.
Record modelCleanupResult := mkCleanupResult {
  mcr_Kind : string; mcr_WorkerRuntime : string; mcr_PartialFilesRemoved : Z; mcr_PartialBytesRemoved : Z;
  mcr_OrphanDirsRemoved : Z; mcr_OrphanBytesRemoved : Z; mcr_StaleManifestsRemoved : Z;
  mcr_EmptyModelDirsRemoved : Z; mcr_TotalBytesRemoved : Z;
}.
Class ModelJobCodecs := {
  mj_input :: Json DeleteInput;
  mj_cleanup :: Json CleanupInput;
  mj_install :: Json modelInstallResult;
  mj_delete :: Json modelDeleteResult;
  mj_repair :: Json modelRepairResult;
  mj_cleaned :: Json modelCleanupResult;
}.

(** The worker's side of the world while a job runs: its files, the manager at
    the other end of its calls, and the time of the last progress report. *)
Record Site := mkSite { site_fs : tree; site_srv : Http.Server; site_last : Time }.
#[export] Instance set_site_fs : Setter site_fs := λ f s, mkSite (f (site_fs s)) (site_srv s) (site_last s).
#[export] Instance set_site_srv : Setter site_srv := λ f s, mkSite (site_fs s) (f (site_srv s)) (site_last s).
#[export] Instance set_site_last : Setter site_last := λ f s, mkSite (site_fs s) (site_srv s) (f (site_last s)).

(** A job as a function of the site. *)
Definition job_m (A : Type) : Type := Site → Site * outcome A.
Definition mreturn {A : Type} (a : A) : job_m A := λ s, (s, Returned a).
Definition mbind {A B : Type} (m : job_m A) (f : A → job_m B) : job_m B := λ s,
  match m s with
  | (s, Returned a) => f a s
  | (s, Blocked) => (s, Blocked)
  | (s, Panicked) => (s, Panicked)
  end.
(** A call on the files; its error ends the job as [wrap] says, after [undo]. *)
Definition on_files {A : Type} (call : tree → tree * option os_error) (wrap : os_error → A) (k : job_m A) : job_m A := λ s,
  match call (site_fs s) with
  | (fs, Some e) => (s <| site_fs := fs |>, Returned (wrap e))
  | (fs, None) => k (s <| site_fs := fs |>)
  end.
Definition touch (call : tree → tree * option os_error) (s : Site) : Site := s <| site_fs := (call (site_fs s)).1 |>.

(** The JSON texts between the worker and the manager: a report the worker sends
    decodes to itself on the server, a job in a response to itself on the worker
    (for values JSON can carry). *)
Class JobTexts `{ServerCodecs} := {
  response_text : Body → string;
  read_next : string → option (option Job);
  report_text : CompleteRequest → string;
  heartbeat_text : Heartbeat → string;
  progress_text : ProgressRequest → string;
  sendable_job : option Job → Prop;
  sendable_report : CompleteRequest → Prop;
  read_next_decodes job : sendable_job job → read_next (response_text (BodyNextJob job)) = Some job;
  report_decodes req : sendable_report req → Decode (report_text req) = (req, true);
}.

Section model_jobs.
Context `{W : World} `{ServerCodecs} `{Dialer} `{ErrorTexts} `{Network} `{!JobTexts}.
Context `{Files} `{Platform} `{Host} `{DiscoveryCodecs} `{ModelJobCodecs}.

(** ** Progress *)

(** What is called with the bytes written and the total. *)
Definition progress_fn : Type := Tag → Z → Z → job_m unit.

Definition postJobProgress (t : Tag) (managerURL jobID : string) (req : ProgressRequest) : job_m unit := λ s,
  let url := trim_right_slash managerURL +:+ "/v1/jobs/" +:+ jobID +:+ "/progress" in
  match Do t Background "POST" url {["Content-Type"%string := "application/json"%string]} (progress_text req) (site_srv s) with
  | (srv, Returned _) => (s <| site_srv := srv |>, Returned tt)
  | (srv, Blocked) => (s <| site_srv := srv |>, Blocked)
  | (srv, Panicked) => (s <| site_srv := srv |>, Panicked)
  end.

Definition progress_percent (written total : Z) : float64 :=
  if 0 <? total then
    let percent := f_mul (f_div (f_of_Z written) (f_of_Z total)) (f_of_Z 100) in
    if f_lt (f_of_Z 100) percent then f_of_Z 100 else percent
  else f_zero.
Definition progress_label : string := "Downloading model".

(** At most one report a second, and one for a finished download; failures to
    write it are only printed. *)
Definition modelInstallProgressWriter (managerURL cacheDir nodeID : string) (job : Job) (startedAt : Time)
    : option progress_fn :=
  if blank cacheDir || blank nodeID || IsZero startedAt then None
  else Some (λ t written total s,
    let now := w_clock (t ++ ["now"%string]) in
    let last := site_last s in
    if negb (IsZero last) && (time_Sub now last <? Second) && negb (written =? total) then (s, Returned tt)
    else
      let percent := progress_percent written total in
      let status := mkJobStatus "running" nodeID (job_ID job) (job_Type job) (job_Input job) "" "" written total percent
                      progress_label (Some startedAt) None 0 in
      let s := s <| site_last := now |> in
      let s := touch (λ fs, status_Write (t ++ ["status"%string]) fs cacheDir status) s in
      if blank managerURL then (s, Returned tt)
      else postJobProgress (t ++ ["post"%string]) managerURL (job_ID job)
             (mkProgressRequest nodeID written total percent progress_label) s).
Definition notify (progress : option progress_fn) (t : Tag) (written total : Z) : job_m unit :=
  match progress with None => mreturn tt | Some f => f t written total end.

(** ** Installing *)

Definition defaultCacheDir : string :=
  match user_cache_dir with
  | Some dir => if str_eqb dir "" then "./data/cache" else dir +:+ "/cmesh/cache"
  | None => "./data/cache"
  end.
Definition modelPath (cacheDir : string) (model : Model) : string :=
  ModelFilePath (if blank cacheDir then defaultCacheDir else cacheDir) model.

Definition install_result (model : Model) (path : string) (size : Z) : modelInstallResult :=
  mkInstallResult JobInstall (model_ID model) (model_Name model) path size (model_Runtime model) platform.
(** [stat.ModTime]. *)
Definition mod_time (t : Tag) (e : entry) : Time := match e with EFile _ m => m | EDir => w_clock (t ++ ["modified"%string]) end.

(** [io.Copy] from the body to the temporary file: each read is reported, then
    written; what comes back is the number of bytes written. *)
Fixpoint copy_body (t : Tag) (i : nat) (progress : option progress_fn) (tmp : string) (total : Z)
    (reads : list string) (err : option string) (read written : Z) : job_m (Z * option worker_error) := λ s,
  match reads with
  | [] => (s, Returned (written, DownloadFailed <$> err))
  | data :: rest =>
      if str_eqb data "" then copy_body t (S i) progress tmp total rest err read written s
      else
        let t' := t ++ [Itoa (Z.of_nat i)] in
        let size := Z.of_nat (String.length data) in
        let read := i64 (read + size) in
        mbind (notify progress (t' ++ ["progress"%string]) read total) (λ _ s,
          match os_Append (t' ++ ["write"%string]) (site_fs s) tmp data with
          | (fs, Some e) =>
              (s <| site_fs := fs |>, Returned (written + Z.min size (Z.of_nat (io_part (t' ++ ["write"%string]))), Some (DiskFailed e)))
          | (fs, None) => copy_body t (S i) progress tmp total rest err read (written + size) (s <| site_fs := fs |>)
          end) s
  end.

Definition drop_tmp (t : Tag) (tmp : string) : Site → Site := touch (λ fs, os_Remove (t ++ ["drop"%string]) fs tmp).
(** From the closed temporary file on: the rename, the manifest. *)
Definition place_download (t : Tag) (cacheDir : string) (model : Model) (progress : option progress_fn)
    (bytesWritten total : Z) : job_m (result worker_error string) := λ s,
  let path := modelPath cacheDir model in
  let tmp := path +:+ ".tmp" in
  match os_Rename (t ++ ["rename"%string]) (site_fs s) tmp path with
  | (fs, Some e) => (drop_tmp t tmp (s <| site_fs := fs |>), Returned (Err (DiskFailed e)))
  | (fs, None) =>
      match WriteModelManifest (t ++ ["manifest"%string]) fs cacheDir model path (u64 bytesWritten)
              (w_clock (t ++ ["installed"%string])) with
      | (fs, Some e) =>
          (touch (λ fs, os_Remove (t ++ ["undo"%string]) fs path) (s <| site_fs := fs |>),
           Returned (Err (ManifestFailed e)))
      | (fs, None) =>
          mbind (notify progress (t ++ ["last"%string]) bytesWritten total) (λ _,
            mreturn (Ok (Marshal (install_result model path bytesWritten)))) (s <| site_fs := fs |>)
      end
  end.
(** From an open response on: the temporary file, the copy, and what follows;
    what failed is removed again. *)
Definition install_body (t : Tag) (cacheDir : string) (model : Model) (progress : option progress_fn)
    (resp : web_reply) : job_m (result worker_error string) :=
  let tmp := modelPath cacheDir model +:+ ".tmp" in
  let total := wr_ContentLength resp in
  mbind (notify progress (t ++ ["first"%string]) 0 total) (λ _,
  on_files (λ fs, os_Create (t ++ ["create"%string]) fs tmp) (λ e, Err (DiskFailed e)) (
  mbind (copy_body (t ++ ["copy"%string]) 0 progress tmp total (wr_Reads resp) (wr_Err resp) 0 0) (λ '(bytesWritten, copyErr) s,
  match copyErr, io_fault (t ++ ["close"%string]) with
  | Some e, _ => (drop_tmp t tmp s, Returned (Err e))
  | None, Some text => (drop_tmp t tmp s, Returned (Err (CloseFailed text)))
  | None, None =>
      if bytesWritten =? 0 then (drop_tmp t tmp s, Returned (Err WroteNothing))
      else place_download t cacheDir model progress bytesWritten total s
  end))).

(** From the directory of the model on, when its file is not there. *)
Definition download_model (t : Tag) (cacheDir : string) (model : Model) (progress : option progress_fn)
    : job_m (result worker_error string) :=
  on_files (λ fs, os_MkdirAll (t ++ ["mkdir"%string]) fs (PathDir (modelPath cacheDir model))) (λ e, Err (DiskFailed e)) (
    match web_get (t ++ ["get"%string]) (model_URL model) with
    | Err text => mreturn (Err (DownloadFailed text))
    | Ok resp =>
        if web_bad resp then mreturn (Err (ModelDownloadReturned (wr_Status resp)))
        else install_body t cacheDir model progress resp
    end).
(** The file is there: its manifest is written again, and [done] is the answer. *)
Definition rewrite_manifest (t : Tag) (cacheDir : string) (model : Model) (stat : entry) (done : string)
    : job_m (result worker_error string) :=
  on_files (λ fs, WriteModelManifest (t ++ ["again"%string]) fs cacheDir model (modelPath cacheDir model)
                    (u64 (Size stat)) (mod_time t stat))
    (λ e, Err (ManifestFailed e)) (mreturn (Ok done)).

Definition executeModelInstallJob (t : Tag) (input cacheDir : string) (progress : option progress_fn)
    : job_m (result worker_error string) := λ s,
  match Unmarshal (A := DeleteInput) input with
  | None => (s, Returned (Err InvalidInput))
  | Some req =>
      match MustFind (del_ModelID req) with
      | Err id => (s, Returned (Err (UnknownModel id)))
      | Ok model =>
          let path := modelPath cacheDir model in
          match os_Stat (t ++ ["stat"%string]) (site_fs s) path with
          | Ok stat =>
              if 0 <? Size stat
              then rewrite_manifest t cacheDir model stat (Marshal (install_result model path (Size stat))) s
              else download_model t cacheDir model progress s
          | Err _ => download_model t cacheDir model progress s
          end
      end
  end.

(** ** Repairing *)

Definition repair_result (model : Model) (path : string) (size : Z) (rt workerRuntime : string) (tempCleaned reinstalled : bool)
    : string :=
  Marshal (mkRepairResult JobRepair (model_ID model) (model_Name model) path size rt workerRuntime true tempCleaned reinstalled).
(** An installation, whose result is read back. *)
Definition reinstall (t : Tag) (cacheDir : string) (model : Model) (progress : option progress_fn) (tempCleaned : bool)
    : job_m (result worker_error string) :=
  mbind (executeModelInstallJob (t ++ ["install"%string]) (Marshal (mkDeleteInput (model_ID model) "")) cacheDir progress)
    (λ res, mreturn
      match res with
      | Err e => Err e
      | Ok text =>
          match Unmarshal (A := modelInstallResult) text with
          | None => Err UndecodableInstall
          | Some installed =>
              Ok (repair_result model (mir_Path installed) (mir_Bytes installed) (mir_Runtime installed)
                    (mir_WorkerRuntime installed) tempCleaned true)
          end
      end).
(** From the cleaned temporary file on. *)
Definition repair_model (t : Tag) (cacheDir : string) (model : Model) (progress : option progress_fn) (tempCleaned : bool)
    : job_m (result worker_error string) := λ s,
  let path := modelPath cacheDir model in
  match os_Stat (t ++ ["stat"%string]) (site_fs s) path with
  | Ok stat =>
      if negb (is_dir (Some stat)) && (0 <? Size stat) then
        rewrite_manifest t cacheDir model stat
          (repair_result model path (Size stat) (model_Runtime model) platform tempCleaned false) s
      else reinstall t cacheDir model progress tempCleaned s
  | Err _ => reinstall t cacheDir model progress tempCleaned s
  end.
Definition executeModelRepairJob (t : Tag) (input cacheDir : string) (progress : option progress_fn)
    : job_m (result worker_error string) := λ s,
  match Unmarshal (A := DeleteInput) input with
  | None => (s, Returned (Err InvalidInput))
  | Some req =>
      match MustFind (del_ModelID req) with
      | Err id => (s, Returned (Err (UnknownModel id)))
      | Ok model =>
          let tmp := modelPath cacheDir model +:+ ".tmp" in
          match os_Stat (t ++ ["partial"%string]) (site_fs s) tmp with
          | Ok _ => on_files (λ fs, os_Remove (t ++ ["remove"%string]) fs tmp) (λ e, Err (PartialKept e))
                      (repair_model t cacheDir model progress true) s
          | Err _ => repair_model t cacheDir model progress false s
          end
      end
  end.

(** ** Cleaning up *)

(** A walk that ends at the first error. *)
Fixpoint remove_partial (t : Tag) (fs : tree) (modelsDir : string) (visits : list visit) (removed bytesRemoved : Z)
    : tree * (Z * Z * option os_error) :=
  match visits with
  | [] => (fs, (removed, bytesRemoved, None))
  | Unread _ err :: _ => (fs, (removed, bytesRemoved, Some err))
  | Visit p e :: rest =>
      if is_dir (Some e) || negb (HasSuffix (base p) ".tmp") then remove_partial t fs modelsDir rest removed bytesRemoved
      else
        let bytesRemoved := match positive_size t p e with Some size => i64 (bytesRemoved + size) | None => bytesRemoved end in
        match os_Remove (t ++ "remove"%string :: p) fs (walk_path modelsDir p) with
        | (fs, Some err) =>
            if IsNotExist err then remove_partial t fs modelsDir rest (i64 (removed + 1)) bytesRemoved
            else (fs, (removed, bytesRemoved, Some err))
        | (fs, None) => remove_partial t fs modelsDir rest (i64 (removed + 1)) bytesRemoved
        end
  end.
Definition removePartialModelDownloads (t : Tag) (fs : tree) (modelsDir : string) : tree * (Z * Z * option os_error) :=
  let '(fs, (removed, bytesRemoved, err)) := remove_partial t fs modelsDir (walk t fs modelsDir) 0 0 in
  match err with
  | Some e => (fs, if IsNotExist e then (0, 0, None) else (removed, bytesRemoved, Some e))
  | None => (fs, (removed, bytesRemoved, None))
  end.

Fixpoint sum_sizes (t : Tag) (visits : list visit) (total : Z) : Z * option os_error :=
  match visits with
  | [] => (total, None)
  | Unread _ err :: _ => (total, Some err)
  | Visit p e :: rest =>
      if is_dir (Some e) then sum_sizes t rest total
      else match io_fault (t ++ "info"%string :: p) with
           | Some text => (total, Some (EIO text))
           | None => sum_sizes t rest (i64 (total + Size e))
           end
  end.
Definition directorySize (t : Tag) (fs : tree) (path : string) : Z * option os_error :=
  let '(total, err) := sum_sizes t (walk t fs path) 0 in
  match err with
  | Some e => if IsNotExist e then (0, None) else (total, Some e)
  | None => (total, None)
  end.

Fixpoint remove_orphans (t : Tag) (fs : tree) (modelsDir : string) (listing : list (string * entry)) (removed bytesRemoved : Z)
    : tree * (Z * Z * option os_error) :=
  match listing with
  | [] => (fs, (removed, bytesRemoved, None))
  | (dirName, e) :: rest =>
      if negb (is_dir (Some e)) || catalogued dirName then remove_orphans t fs modelsDir rest removed bytesRemoved
      else
        let path := PathJoin [modelsDir; dirName] in
        match directorySize (t ++ ["size"%string; dirName]) fs path with
        | (_, Some err) => (fs, (removed, bytesRemoved, Some err))
        | (size, None) =>
            match os_RemoveAll (t ++ ["remove"%string; dirName]) fs path with
            | (fs, Some err) => (fs, (removed, bytesRemoved, Some err))
            | (fs, None) => remove_orphans t fs modelsDir rest (i64 (removed + 1)) (i64 (bytesRemoved + size))
            end
        end
  end.
Definition removeOrphanModelDirs (t : Tag) (fs : tree) (modelsDir : string) : tree * (Z * Z * option os_error) :=
  match os_ReadDir t fs modelsDir with
  | Err e => (fs, (0, 0, if IsNotExist e then None else Some e))
  | Ok listing => remove_orphans t fs modelsDir listing 0 0
  end.

Definition removeDirIfEmpty (t : Tag) (fs : tree) (path : string) : tree * (bool * option os_error) :=
  match os_ReadDir (t ++ ["list"%string]) fs path with
  | Err e => (fs, (false, if IsNotExist e then None else Some e))
  | Ok (_ :: _) => (fs, (false, None))
  | Ok [] =>
      match os_Remove (t ++ ["remove"%string]) fs path with
      | (fs, Some e) => (fs, if IsNotExist e then (true, None) else (false, Some e))
      | (fs, None) => (fs, (true, None))
      end
  end.
Definition present_model (r : result os_error entry) : bool :=
  match r with Ok stat => negb (is_dir (Some stat)) && (0 <? Size stat) | Err _ => false end.
Fixpoint remove_stale (t : Tag) (fs : tree) (cacheDir : string) (catalog : list Model) (stale empty : Z)
    : tree * (Z * Z * option os_error) :=
  match catalog with
  | [] => (fs, (stale, empty, None))
  | model :: rest =>
      let modelFile := modelPath cacheDir model in
      let t' := t ++ [model_ID model] in
      if present_model (os_Stat (t' ++ ["stat"%string]) fs modelFile) then remove_stale t fs cacheDir rest stale empty
      else
        let '(fs, err) := os_Remove (t' ++ ["manifest"%string]) fs (ModelManifestPath cacheDir (model_ID model)) in
        let stale := match err with None => i64 (stale + 1) | Some _ => stale end in
        match (e ← err; if IsNotExist e then None else Some e) with
        | Some e => (fs, (stale, empty, Some e))
        | None =>
            match removeDirIfEmpty t' fs (PathDir modelFile) with
            | (fs, (_, Some e)) => (fs, (stale, empty, Some e))
            | (fs, (removed, None)) =>
                remove_stale t fs cacheDir rest stale (if removed then i64 (empty + 1) else empty)
            end
        end
  end.
Definition removeStaleModelManifestsAndEmptyDirs (t : Tag) (fs : tree) (cacheDir : string)
    : tree * (Z * Z * option os_error) := remove_stale t fs cacheDir Catalog 0 0.

Definition cleanup_scope (input : string) : result worker_error string :=
  let scope req := if blank (cln_Scope req) then "cache"%string else cln_Scope req in
  if blank input then Ok (scope (mkCleanupInput ""))
  else match Unmarshal (A := CleanupInput) input with None => Err InvalidInput | Some req => Ok (scope req) end.
(** What the three passes removed: partial files and their bytes, orphan
    directories and theirs, stale manifests and empty directories. *)
Definition clean_cache (t : Tag) (fs : tree) (cacheDir : string) : tree * result os_error (Z * Z * Z * Z * Z * Z) :=
  let modelsDir := PathJoin [cacheDir; "models"%string] in
  match removePartialModelDownloads (t ++ ["partial"%string]) fs modelsDir with
  | (fs, (_, Some e)) => (fs, Err e)
  | (fs, (partialFiles, partialBytes, None)) =>
      match removeOrphanModelDirs (t ++ ["orphans"%string]) fs modelsDir with
      | (fs, (_, Some e)) => (fs, Err e)
      | (fs, (orphanDirs, orphanBytes, None)) =>
          match removeStaleModelManifestsAndEmptyDirs (t ++ ["stale"%string]) fs cacheDir with
          | (fs, (_, Some e)) => (fs, Err e)
          | (fs, (stale, empty, None)) => (fs, Ok (partialFiles, partialBytes, orphanDirs, orphanBytes, stale, empty))
          end
      end
  end.
Definition executeModelCleanupJob (t : Tag) (input cacheDir : string) : job_m (result worker_error string) := λ s,
  match cleanup_scope input with
  | Err e => (s, Returned (Err e))
  | Ok scope =>
      if negb (str_eqb scope "cache") then (s, Returned (Err (UnsupportedScope scope)))
      else match clean_cache t (site_fs s) cacheDir with
           | (fs, Err e) => (s <| site_fs := fs |>, Returned (Err (DiskFailed e)))
           | (fs, Ok (partialFiles, partialBytes, orphanDirs, orphanBytes, stale, empty)) =>
               (s <| site_fs := fs |>,
                Returned (Ok (Marshal (mkCleanupResult JobCleanup platform partialFiles partialBytes orphanDirs orphanBytes
                                         stale empty (i64 (partialBytes + orphanBytes))))))
           end
  end.

(** ** Deleting *)

Definition executeModelDeleteJob (t : Tag) (input cacheDir : string) : job_m (result worker_error string) := λ s,
  match Unmarshal (A := DeleteInput) input with
  | None => (s, Returned (Err InvalidInput))
  | Some req =>
      match MustFind (del_ModelID req) with
      | Err id => (s, Returned (Err (UnknownModel id)))
      | Ok model =>
          let path := modelPath cacheDir model in
          let modelDir := PathDir path in
          let freedBytes := (directorySize (t ++ ["size"%string]) (site_fs s) modelDir).1 in
          on_files (λ fs, os_RemoveAll (t ++ ["remove"%string]) fs modelDir) (λ e, Err (DiskFailed e))
            (mreturn (Ok (Marshal (mkDeleteResult JobDelete (model_ID model) (0 <? freedBytes) path freedBytes platform)))) s
      end
  end.

(** ** Lemmas: where model files are *)

Implicit Types fs : tree.
Implicit Type model : Model.

Lemma catalog_names model : model ∈ Catalog →
  proper (model_ID model) ∧ proper (model_File model) ∧ proper (model_File model +:+ ".tmp") ∧
  HasSuffix (model_File model) ".tmp" = false ∧ model_File model ≠ modelManifestFile.
Proof.
  revert model. apply Forall_forall. apply (bool_decide_unpack _). by vm_compute.
Qed.
Lemma catalog_id_inj (m1 m2 : Model) : m1 ∈ Catalog → m2 ∈ Catalog → model_ID m1 = model_ID m2 → m1 = m2.
Proof.
  intros Hm1 Hm2 Hid. pose proof (find_model_complete (model_ID m1) _ catalog_ids_NoDup m1 Hm1 eq_refl) as E1.
  pose proof (find_model_complete (model_ID m1) _ catalog_ids_NoDup m2 Hm2 (eq_sym Hid)) as E2. congruence.
Qed.
Lemma catalog_catalogued model : model ∈ Catalog → catalogued (model_ID model) = true.
Proof.
  intros Hm. unfold catalogued. apply existsb_exists. exists model. split; [by apply list_elem_of_In|].
  by apply bool_decide_eq_true.
Qed.

Definition models_place (cacheDir : string) : place := at_path cacheDir ++ ["models"%string].
Definition model_dir (cacheDir : string) (model : Model) : place := models_place cacheDir ++ [model_ID model].
Definition model_place (cacheDir : string) (model : Model) : place := model_dir cacheDir model ++ [model_File model].
Definition manifest_place (cacheDir : string) (model : Model) : place := model_dir cacheDir model ++ [modelManifestFile].
Definition tmp_place (cacheDir : string) (model : Model) : place := model_dir cacheDir model ++ [model_File model +:+ ".tmp"].

Lemma models_proper : proper "models".
Proof. by apply (bool_decide_unpack _). Qed.
Lemma manifest_proper : proper modelManifestFile.
Proof. by apply (bool_decide_unpack _). Qed.

Lemma at_models cacheDir : cacheDir ≠ ""%string → at_path (PathJoin [cacheDir; "models"%string]) = models_place cacheDir.
Proof. intros Hc. apply at_path_Join; [done|]. constructor; [apply models_proper|done]. Qed.

(** A path joined from the cache directory and proper names. *)
Lemma at_joined cacheDir rel c :
  cacheDir ≠ ""%string → Forall proper rel → proper c →
  let path := PathJoin (cacheDir :: rel ++ [c]) in
  at_path path = at_path cacheDir ++ rel ++ [c] ∧ at_path (PathDir path) = at_path cacheDir ++ rel ∧
  (∀ s, proper (c +:+ s) → at_path (path +:+ s) = at_path cacheDir ++ rel ++ [c +:+ s]).
Proof.
  intros Hne Hrel Hc path. assert (Forall proper (rel ++ [c])) as Hp by (apply Forall_app_2; [done|by constructor]).
  assert (Hat : at_path path = at_path cacheDir ++ rel ++ [c]) by by apply at_path_Join.
  assert (Hcl : PathClean path = path).
  { unfold path. cbn [PathJoin]. rewrite bool_decide_eq_false_2 by done. apply Clean_idemp. }
  assert (Hcs : ∃ cs, comps path = cs ++ [c]).
  { destruct (PathJoin_comps cacheDir (rel ++ [c]) Hne) as [_ E]. fold path in E. rewrite proper_comps in E by done.
    rewrite app_assoc, clean_comps_app in E by (apply proper_not_up; by constructor). eauto. }
  destruct Hcs as [cs Hcs]. unfold at_path in *. split_and!; [done| |].
  - rewrite (locate_Dir wd path cs c wd_abs Hcl Hcs) in Hat by apply Hc. rewrite app_assoc in Hat.
    by apply app_inj_tail in Hat as [-> _].
  - intros s Hs. destruct (locate_append wd path cs c s wd_abs Hcl Hcs (proj2 Hc) Hs) as (dir & E1 & ->).
    rewrite E1, app_assoc in Hat. apply app_inj_tail in Hat as [-> _]. by rewrite app_assoc.
Qed.
Lemma at_model cacheDir model :
  cacheDir ≠ ""%string → model ∈ Catalog →
  at_path (ModelFilePath cacheDir model) = model_place cacheDir model ∧
  at_path (PathDir (ModelFilePath cacheDir model)) = model_dir cacheDir model ∧
  at_path (ModelFilePath cacheDir model +:+ ".tmp") = tmp_place cacheDir model.
Proof.
  intros Hne Hm. destruct (catalog_names model Hm) as (Hid & Hf & Ht & _ & _).
  destruct (at_joined cacheDir ["models"%string; model_ID model] (model_File model) Hne) as (H1' & H2' & H3');
    [constructor; [apply models_proper|by constructor]|done|].
  unfold ModelFilePath, model_place, tmp_place, model_dir, models_place. rewrite <- !app_assoc. simpl app in *.
  split_and!; [done..|]. by apply H3'.
Qed.
Lemma at_manifest cacheDir model :
  cacheDir ≠ ""%string → model ∈ Catalog →
  at_path (ModelManifestPath cacheDir (model_ID model)) = manifest_place cacheDir model ∧
  at_path (PathDir (ModelManifestPath cacheDir (model_ID model))) = model_dir cacheDir model.
Proof.
  intros Hne Hm. destruct (catalog_names model Hm) as (Hid & _).
  destruct (at_joined cacheDir ["models"%string; model_ID model] modelManifestFile Hne) as (H1' & H2' & _);
    [constructor; [apply models_proper|by constructor]|apply manifest_proper|].
  unfold ModelManifestPath, manifest_place, model_dir, models_place. rewrite <- !app_assoc. by simpl app in *.
Qed.
Lemma modelPath_nonblank cacheDir model : blank cacheDir = false → modelPath cacheDir model = ModelFilePath cacheDir model.
Proof. intros Hb. unfold modelPath. by rewrite Hb. Qed.

(** A model whose file is there. *)
Definition present (fs : tree) (cacheDir : string) (model : Model) : Prop :=
  ∃ data m, fs !! model_place cacheDir model = Some (EFile data m) ∧ data ≠ ""%string.
Lemma present_or_not fs cacheDir model : present fs cacheDir model ∨ ¬ present fs cacheDir model.
Proof.
  unfold present. destruct (fs !! model_place cacheDir model) as [[|data m]|]; [right; naive_solver| |right; naive_solver].
  destruct (decide (data = ""%string)); [right; naive_solver|left; eauto].
Qed.
Lemma Size_pos data m : 0 < Size (EFile data m) ↔ data ≠ ""%string.
Proof. simpl. destruct data; simpl; split; try done; lia. Qed.
Lemma present_stat t fs cacheDir model :
  cacheDir ≠ ""%string → model ∈ Catalog →
  present_model (os_Stat t fs (ModelFilePath cacheDir model)) = true ↔ io_fault t = None ∧ present fs cacheDir model.
Proof.
  intros Hne Hm. destruct (at_model cacheDir model Hne Hm) as (Hat & _). unfold os_Stat. rewrite Hat.
  destruct (io_fault t); [by split; [|intros []]|]. unfold present.
  destruct (fs !! model_place cacheDir model) as [[|data mt]|]; simpl; [split; [done|naive_solver]| |split; [done|naive_solver]].
  rewrite Z.ltb_lt. pose proof (Size_pos data mt) as Hs. simpl in Hs. rewrite Hs. naive_solver.
Qed.

(** *** Removals *)

(** Only removals, and only of [D]. *)
Record removals (D : place → Prop) (fs fs' : tree) : Prop := {
  rm_only k : fs' !! k = fs !! k ∨ (fs' !! k = None ∧ D k);
  rm_ok : tree_ok fs → tree_ok fs';
}.
Lemma removals_refl D fs : removals D fs fs.
Proof. split; auto. Qed.
Lemma removals_trans D fs1 fs2 fs3 : removals D fs1 fs2 → removals D fs2 fs3 → removals D fs1 fs3.
Proof.
  intros [Ho1 Hw1] [Ho2 Hw2]. split; [|auto]. intros k.
  destruct (Ho2 k) as [->|?]; [|by right]. apply Ho1.
Qed.
Lemma removals_weaken (D D' : place → Prop) fs fs' : (∀ k, D k → D' k) → removals D fs fs' → removals D' fs fs'.
Proof. intros HD [Ho Hw]. split; [|done]. intros k. destruct (Ho k) as [?|[? ?]]; auto. Qed.
Lemma removals_kept D fs fs' k : removals D fs fs' → ¬ D k → fs' !! k = fs !! k.
Proof. intros [Ho _] Hk. by destruct (Ho k) as [?|[_ ?]]. Qed.
Lemma removals_Some D fs fs' k e : removals D fs fs' → fs' !! k = Some e → fs !! k = Some e.
Proof. intros [Ho _] E. destruct (Ho k) as [<-|[E' _]]; congruence. Qed.

Lemma Remove_removals (D : place → Prop) t fs path : D (at_path path) → removals D fs (os_Remove t fs path).1.
Proof.
  intros HD. pose proof (Remove_spec t fs path) as Hr. destruct (os_Remove t fs path) as [fs' [e|]]; simpl;
    destruct Hr as [[_ Hw] [-> _]]; [apply removals_refl|]. split; [|done]. intros k.
  destruct (decide (k = at_path path)) as [->|Hk]; [right; by rewrite lookup_delete_eq|left; by rewrite lookup_delete_ne].
Qed.
Lemma RemoveAll_removals (D : place → Prop) t fs path :
  at_path path ≠ [] → (∀ k, below (at_path path) k = true → D k) → removals D fs (os_RemoveAll t fs path).1.
Proof.
  intros Hne HD. pose proof (RemoveAll_spec t fs path Hne) as Hr. destruct (os_RemoveAll t fs path) as [fs' e].
  destruct Hr as ([Ho Hw] & Hk & _). split; [|done]. intros k. destruct (Hk k) as [E|E]; [|by left].
  destruct (below (at_path path) k) eqn:Eb; [by right; auto|]. left. apply Ho. by rewrite Eb.
Qed.

(** A partial download below the models' directory. *)
Definition partial_file (cacheDir : string) (k : place) : Prop :=
  below (models_place cacheDir) k = true ∧ HasSuffix (base k) ".tmp" = true.
(** Something in a directory that is not a model's. *)
Definition orphaned (cacheDir : string) (k : place) : Prop :=
  ∃ d, catalogued d = false ∧ below (models_place cacheDir ++ [d]) k = true.
(** The manifest or the directory of a model that is not there. *)
Definition stale_of (fs0 : tree) (cacheDir : string) (k : place) : Prop :=
  ∃ model, model ∈ Catalog ∧ ¬ present fs0 cacheDir model ∧
    (k = manifest_place cacheDir model ∨ k = model_dir cacheDir model).

Lemma remove_partial_removals t fs cacheDir modelsDir visits n b :
  modelsDir ≠ ""%string → at_path modelsDir = models_place cacheDir →
  (∀ p e, Visit p e ∈ visits → Forall proper p ∧ below (models_place cacheDir) p = true) →
  removals (partial_file cacheDir) fs (remove_partial t fs modelsDir visits n b).1.
Proof.
  intros Hne Hat. revert fs n b. induction visits as [|[p e|p err] visits IH]; intros fs n b Hv; cbn [remove_partial];
    [apply removals_refl| |apply removals_refl].
  assert (Hv' : ∀ q x, Visit q x ∈ visits → Forall proper q ∧ below (models_place cacheDir) q = true)
    by (intros; eapply Hv; by right).
  destruct (Hv p e) as [Hp Hb]; [by left|].
  destruct (is_dir (Some e) || negb (HasSuffix (base p) ".tmp")) eqn:Ec; [by apply IH|].
  apply orb_false_iff in Ec as [_ Hs]. apply negb_false_iff in Hs. rewrite <- Hat in Hb.
  assert (Hr : removals (partial_file cacheDir) fs (os_Remove (t ++ "remove"%string :: p) fs (walk_path modelsDir p)).1).
  { apply Remove_removals. rewrite at_walk_path by done. split; [by rewrite <- Hat|done]. }
  destruct (os_Remove _ fs (walk_path modelsDir p)) as [fs1 [err|]]; simpl in Hr;
    [destruct (IsNotExist err); [|done]|]; (eapply removals_trans; [exact Hr|]; by apply IH).
Qed.

Lemma remove_orphans_removals t fs cacheDir modelsDir listing n b :
  modelsDir ≠ ""%string → at_path modelsDir = models_place cacheDir → Forall (λ x, proper x.1) listing →
  removals (orphaned cacheDir) fs (remove_orphans t fs modelsDir listing n b).1.
Proof.
  intros Hne Hat Hl. revert fs n b. induction Hl as [|[d e] listing Hd Hl IH]; intros fs n b; cbn [remove_orphans]; [apply removals_refl|].
  destruct (negb (is_dir (Some e)) || catalogued d) eqn:Ec; [apply IH|]. apply orb_false_iff in Ec as [_ Hc].
  destruct (directorySize _ fs _) as [size [err|]]; [apply removals_refl|].
  assert (Hp : at_path (PathJoin [modelsDir; d]) = models_place cacheDir ++ [d]).
  { rewrite at_path_Join by (done || by constructor). by rewrite Hat. }
  assert (Hr : removals (orphaned cacheDir) fs (os_RemoveAll (t ++ ["remove"%string; d]) fs (PathJoin [modelsDir; d])).1).
  { apply RemoveAll_removals; rewrite Hp; [by destruct (models_place cacheDir)|]. intros k Hk. by exists d. }
  destruct (os_RemoveAll _ fs _) as [fs1 [err|]]; [done|]. eapply removals_trans; [exact Hr|]. apply IH.
Qed.

(** A model that is there loses nothing of its directory but partial downloads. *)
Lemma places_differ fs0 cacheDir model k :
  model ∈ Catalog → present fs0 cacheDir model → below (model_dir cacheDir model) k = true → HasSuffix (base k) ".tmp" = false →
  ¬ partial_file cacheDir k ∧ ¬ orphaned cacheDir k ∧ ¬ stale_of fs0 cacheDir k.
Proof.
  intros Hm Hp [r ->]%below_true Hk. unfold model_dir in *. split_and!.
  - intros [_ Hb]. congruence.
  - intros (d & Hd & [r2 Hb]%below_true). rewrite <- !app_assoc in Hb. apply app_inv_head in Hb. injection Hb as Hid _.
    rewrite <- Hid in Hd. by rewrite catalog_catalogued in Hd.
  - intros (m2 & Hm2 & Hnp & Hk2). unfold manifest_place, model_dir in Hk2. rewrite <- !app_assoc in Hk2.
    assert (model_ID model = model_ID m2) as Hid by (destruct Hk2 as [Hk2|Hk2]; apply app_inv_head in Hk2; by injection Hk2).
    by rewrite (catalog_id_inj model m2 Hm Hm2 Hid) in Hp.
Qed.
(** The file and the manifest are no partial downloads. *)
Lemma own_places cacheDir model k : model ∈ Catalog → k = model_place cacheDir model ∨ k = manifest_place cacheDir model →
  below (model_dir cacheDir model) k = true ∧ HasSuffix (base k) ".tmp" = false.
Proof.
  intros Hm Hk. destruct (catalog_names model Hm) as (_ & _ & _ & Hs & _). unfold base.
  destruct Hk as [-> | ->]; (split; [apply below_app|]); [unfold model_place|unfold manifest_place]; rewrite last_snoc; [done|by vm_compute].
Qed.

Definition cleaned_place (fs0 : tree) (cacheDir : string) (k : place) : Prop :=
  partial_file cacheDir k ∨ orphaned cacheDir k ∨ stale_of fs0 cacheDir k.
Lemma cleaned_below fs0 cacheDir k : cleaned_place fs0 cacheDir k → below (models_place cacheDir) k = true.
Proof.
  intros [[Hb' _]|[(d & _ & Hb')|(model & _ & _ & [-> | ->])]]; [done| | |].
  - eapply below_trans; [apply below_app|exact Hb'].
  - unfold manifest_place, model_dir, models_place. rewrite <- (app_assoc (at_path cacheDir ++ _)). apply below_app.
  - apply below_app.
Qed.
Lemma directory_kept fs0 fs cacheDir model k :
  model ∈ Catalog → removals (cleaned_place fs0 cacheDir) fs0 fs → present fs0 cacheDir model →
  below (model_dir cacheDir model) k = true → HasSuffix (base k) ".tmp" = false → fs !! k = fs0 !! k.
Proof.
  intros Hm Hr Hp Hb Hs. apply (removals_kept _ _ _ _ Hr). intros Hc.
  destruct (places_differ fs0 cacheDir model k Hm Hp Hb Hs) as (? & ? & ?). by destruct Hc as [?|[?|?]].
Qed.
Lemma present_kept fs0 fs cacheDir model :
  model ∈ Catalog → removals (cleaned_place fs0 cacheDir) fs0 fs → present fs0 cacheDir model →
  fs !! model_place cacheDir model = fs0 !! model_place cacheDir model ∧
  fs !! manifest_place cacheDir model = fs0 !! manifest_place cacheDir model.
Proof.
  intros Hm Hr Hp. destruct (own_places cacheDir model _ Hm (or_introl eq_refl)), (own_places cacheDir model _ Hm (or_intror eq_refl)).
  split; by apply (directory_kept fs0 fs cacheDir model).
Qed.

Lemma removeDirIfEmpty_removals (D : place → Prop) t fs path :
  D (at_path path) → removals D fs (removeDirIfEmpty t fs path).1.
Proof.
  intros HD. unfold removeDirIfEmpty. destruct (os_ReadDir _ fs path) as [[|]|]; [|apply removals_refl..].
  pose proof (Remove_removals D (t ++ ["remove"%string]) fs path HD) as Hr.
  destruct (os_Remove _ fs path) as [fs1 [e|]]; [destruct (IsNotExist e)|]; done.
Qed.

Lemma remove_stale_removals t fs0 fs cacheDir catalog n m :
  blank cacheDir = false → catalog ⊆ Catalog →
  (∀ model, io_fault ((t ++ [model_ID model]) ++ ["stat"%string]) = None) →
  removals (cleaned_place fs0 cacheDir) fs0 fs →
  removals (cleaned_place fs0 cacheDir) fs0 (remove_stale t fs cacheDir catalog n m).1.
Proof.
  intros Hb. pose proof (blank_false_ne _ Hb) as Hne. intros Hsub Hst. revert fs n m.
  induction catalog as [|model catalog IH]; intros fs n m Hr; cbn [remove_stale]; [done|].
  assert (Hm : model ∈ Catalog) by (apply Hsub; left).
  assert (Hsub' : catalog ⊆ Catalog) by (intros x Hx; apply Hsub; by right). specialize (IH Hsub').
  rewrite modelPath_nonblank by done. set (t' := t ++ [model_ID model]).
  destruct (present_model _) eqn:Ep; [by apply IH|].
  assert (Hnp : ¬ present fs0 cacheDir model).
  { intros Hp. pose proof (present_kept _ _ _ _ Hm Hr Hp) as [E _].
    assert (present fs cacheDir model) as Hp' by (unfold present; by rewrite E).
    assert (present_model (os_Stat (t' ++ ["stat"%string]) fs (ModelFilePath cacheDir model)) = true) as Ht
      by (apply present_stat; [done..|]; split; [apply Hst|done]). congruence. }
  destruct (at_model cacheDir model Hne Hm) as (_ & Hdir & _). destruct (at_manifest cacheDir model Hne Hm) as [Hman _].
  assert (Hr1 : removals (cleaned_place fs0 cacheDir) fs
    (os_Remove (t' ++ ["manifest"%string]) fs (ModelManifestPath cacheDir (model_ID model))).1).
  { apply Remove_removals. rewrite Hman. right; right. exists model. by split_and!; [..|left]. }
  destruct (os_Remove _ fs _) as [fs1 err]. simpl in Hr1. pose proof (removals_trans _ _ _ _ Hr Hr1) as Hr01.
  destruct (e ← err; _) as [e|]; [done|].
  assert (Hr2 : removals (cleaned_place fs0 cacheDir) fs1 (removeDirIfEmpty t' fs1 (PathDir (ModelFilePath cacheDir model))).1).
  { apply removeDirIfEmpty_removals. rewrite Hdir. right; right. exists model. by split_and!; [..|right]. }
  pose proof (removals_trans _ _ _ _ Hr01 Hr2) as Hr02.
  destruct (removeDirIfEmpty _ fs1 _) as [fs2 [removed [e|]]]; [done|by apply IH].
Qed.

Lemma clean_cache_removals t fs cacheDir :
  tree_ok fs → blank cacheDir = false →
  (∀ model, io_fault (((t ++ ["stale"%string]) ++ [model_ID model]) ++ ["stat"%string]) = None) →
  removals (cleaned_place fs cacheDir) fs (clean_cache t fs cacheDir).1.
Proof.
  intros Hok Hb Hst. pose proof (blank_false_ne _ Hb) as Hne. unfold clean_cache.
  pose proof (at_models cacheDir Hne) as Hat. set (modelsDir := PathJoin [cacheDir; "models"%string]) in *.
  assert (Hmne : modelsDir ≠ ""%string) by (apply PathJoin_nonempty; by left).
  assert (Hr1 : removals (cleaned_place fs cacheDir) fs (removePartialModelDownloads (t ++ ["partial"%string]) fs modelsDir).1).
  { unfold removePartialModelDownloads. eapply removals_weaken; [by left|].
    pose proof (remove_partial_removals (t ++ ["partial"%string]) fs cacheDir modelsDir (walk (t ++ ["partial"%string]) fs modelsDir) 0 0 Hmne Hat) as Hr.
    destruct (remove_partial _ fs _ _ 0 0) as [fs1 [[n b] err]]. destruct err; simpl; apply Hr; intros p e Hv;
      (split; [by eapply walk_proper|]); rewrite <- Hat; by eapply elem_of_walk. }
  destruct (removePartialModelDownloads _ fs modelsDir) as [fs1 [[pf pb] [e|]]]; [done|]. simpl in Hr1.
  assert (Hr2 : removals (cleaned_place fs cacheDir) fs1 (removeOrphanModelDirs (t ++ ["orphans"%string]) fs1 modelsDir).1).
  { unfold removeOrphanModelDirs. destruct (os_ReadDir _ fs1 modelsDir) as [listing|] eqn:El; [|apply removals_refl].
    eapply removals_weaken; [by right; left|]. apply remove_orphans_removals; [done..|].
    apply Forall_forall. intros [d x] Hin. unfold os_ReadDir in El. destruct (io_fault _); [done|].
    destruct (fs1 !! at_path modelsDir) as [[|]|]; [|done..]. injection El as <-. apply elem_of_entries in Hin.
    assert (Forall proper (at_path modelsDir ++ [d])) as Hp by (apply (tree_names fs1 (rm_ok _ _ _ Hr1 Hok)); by eexists).
    apply Forall_app in Hp as [_ Hp]. by rewrite Forall_singleton in Hp. }
  pose proof (removals_trans _ _ _ _ Hr1 Hr2) as Hr12.
  destruct (removeOrphanModelDirs _ fs1 modelsDir) as [fs2 [[od ob] [e|]]]; [done|]. simpl in Hr12.
  pose proof (remove_stale_removals (t ++ ["stale"%string]) fs fs2 cacheDir Catalog 0 0 Hb (reflexivity _) Hst Hr12) as Hr3.
  unfold removeStaleModelManifestsAndEmptyDirs.
  destruct (remove_stale _ fs2 cacheDir Catalog 0 0) as [fs3 [[sm em] [e|]]]; done.
Qed.

(** What is found of a model depends on its file and its manifest. *)
Lemma installed_model_kept t fs fs' cacheDir model :
  cacheDir ≠ ""%string → model ∈ Catalog →
  fs' !! model_place cacheDir model = fs !! model_place cacheDir model →
  fs' !! manifest_place cacheDir model = fs !! manifest_place cacheDir model →
  installed_model t fs' cacheDir model = installed_model t fs cacheDir model.
Proof.
  intros Hne Hm E1 E2. destruct (at_model cacheDir model Hne Hm) as (Hat & _).
  destruct (at_manifest cacheDir model Hne Hm) as [Hman _].
  unfold installed_model, os_Stat, readModelManifest, os_ReadFile. rewrite Hat, Hman, E1, E2.
  destruct (io_fault (t ++ ["stat"%string; _])); [done|]. destruct (fs !! model_place cacheDir model); [|done].
  destruct (is_dir _ || _); [done|]. destruct (io_fault _); [done|]. by destruct (fs !! manifest_place cacheDir model) as [[]|].
Qed.
Lemma installed_model_absent t fs cacheDir model :
  cacheDir ≠ ""%string → model ∈ Catalog → ¬ present fs cacheDir model → installed_model t fs cacheDir model = None.
Proof.
  intros Hne Hm Hnp. destruct (at_model cacheDir model Hne Hm) as (Hat & _). unfold installed_model, os_Stat. rewrite Hat.
  destruct (io_fault _); [done|]. destruct (fs !! model_place cacheDir model) as [[|data mt]|] eqn:E; [done| |done].
  destruct (Z.leb_spec (Size (EFile data mt)) 0) as [|Hs]; [by rewrite orb_true_r|].
  destruct Hnp. exists data, mt. split; [done|]. by apply Size_pos in Hs.
Qed.
Lemma omap_ext_in {A B} (f g : A → option B) (l : list A) : (∀ x, x ∈ l → f x = g x) → omap f l = omap g l.
Proof.
  intros Hfg. induction l as [|x l IH]; [done|]. csimpl. rewrite (Hfg x) by left. rewrite IH; [done|]. intros y Hy. apply Hfg. by right.
Qed.
Lemma DiscoverInstalledModels_ext t fs fs' cacheDir :
  (∀ model, model ∈ Catalog → installed_model t fs' cacheDir model = installed_model t fs cacheDir model) →
  DiscoverInstalledModels t fs' cacheDir = DiscoverInstalledModels t fs cacheDir.
Proof. intros He. unfold DiscoverInstalledModels. destruct (blank cacheDir); [done|]. by apply omap_ext_in. Qed.

(** C12 (safety). Cleaning up a named cache directory of a well-formed file tree,
    whichever of its steps fails, only removes things, all below the models'
    directory, and each is one of: a partial download (by its name), something in a
    directory of no model, and the manifest or the directory of a model that is not
    there. Of an installed model nothing in its directory goes but partial
    downloads; its file and its manifest stay, so the worker reports the same models
    afterwards. (A failure to look at a model's file is excluded: the job takes it
    for a missing model and removes its manifest.) *)
Theorem cleanup_keeps_models (t : Tag) (input cacheDir : string) (s : Site) :
  tree_ok (site_fs s) → blank cacheDir = false →
  (∀ model, io_fault (((t ++ ["stale"%string]) ++ [model_ID model]) ++ ["stat"%string]) = None) →
  let '(s', res) := executeModelCleanupJob t input cacheDir s in
  tree_ok (site_fs s') ∧
  (∀ k, site_fs s' !! k = site_fs s !! k ∨
        (site_fs s' !! k = None ∧ below (at_path cacheDir ++ ["models"%string]) k = true ∧
         (partial_file cacheDir k ∨ orphaned cacheDir k ∨ stale_of (site_fs s) cacheDir k))) ∧
  (∀ model, model ∈ Catalog → present (site_fs s) cacheDir model →
     (∀ k, below (model_dir cacheDir model) k = true → HasSuffix (base k) ".tmp" = false →
        site_fs s' !! k = site_fs s !! k) ∧
     site_fs s' !! model_place cacheDir model = site_fs s !! model_place cacheDir model ∧
     site_fs s' !! manifest_place cacheDir model = site_fs s !! manifest_place cacheDir model) ∧
  ∀ t', DiscoverInstalledModels t' (site_fs s') cacheDir = DiscoverInstalledModels t' (site_fs s) cacheDir.
Proof.
  intros Hok Hb Hst. pose proof (blank_false_ne _ Hb) as Hne.
  pose proof (clean_cache_removals t (site_fs s) cacheDir Hok Hb Hst) as Hr.
  assert (Hall : ∀ fs', removals (cleaned_place (site_fs s) cacheDir) (site_fs s) fs' →
    tree_ok fs' ∧
    (∀ k, fs' !! k = site_fs s !! k ∨ (fs' !! k = None ∧ below (at_path cacheDir ++ ["models"%string]) k = true ∧
       cleaned_place (site_fs s) cacheDir k)) ∧
    (∀ model, model ∈ Catalog → present (site_fs s) cacheDir model →
       (∀ k, below (model_dir cacheDir model) k = true → HasSuffix (base k) ".tmp" = false → fs' !! k = site_fs s !! k) ∧
       fs' !! model_place cacheDir model = site_fs s !! model_place cacheDir model ∧
       fs' !! manifest_place cacheDir model = site_fs s !! manifest_place cacheDir model) ∧
    ∀ t', DiscoverInstalledModels t' fs' cacheDir = DiscoverInstalledModels t' (site_fs s) cacheDir).
  { intros fs' Hrm. assert (Hk : ∀ model, model ∈ Catalog → present (site_fs s) cacheDir model → _)
      by (intros model Hm; apply (present_kept _ _ _ _ Hm Hrm)).
    split_and!; [by apply Hrm| | |].
    - intros k. destruct (rm_only _ _ _ Hrm k) as [?|[E Hc]]; [by left|]. right. split; [done|]. split; [|done].
      by apply (cleaned_below (site_fs s)).
    - intros model Hm Hp. split; [|by apply Hk]. intros k. by apply directory_kept.
    - intros t'. apply DiscoverInstalledModels_ext. intros model Hm.
      destruct (present_or_not (site_fs s) cacheDir model) as [Hp|Hnp].
      + destruct (Hk model Hm Hp). by apply installed_model_kept.
      + rewrite !installed_model_absent; [done..|]. intros (data & mt & E & Hd). apply Hnp. exists data, mt.
        split; [by eapply removals_Some|done]. }
  unfold executeModelCleanupJob. destruct (cleanup_scope input) as [scope|]; [|apply Hall, removals_refl].
  destruct (negb _); [apply Hall, removals_refl|].
  destruct (clean_cache t (site_fs s) cacheDir) as [fs' [[[[[[pf pb] od] ob] sm] em]|e]]; by apply Hall.
Qed.

(** *** Deleting a model *)

Lemma omap_filter {A B} (f g : A → option B) (P : B → Prop) `{∀ y, Decision (P y)} (l : list A) :
  (∀ x, x ∈ l → g x = y ← f x; if decide (P y) then Some y else None) → omap g l = filter P (omap f l).
Proof.
  intros Hg. induction l as [|x l IH]; [done|]. csimpl. rewrite (Hg x) by left.
  rewrite IH by (intros; apply Hg; by right). destruct (f x) as [y|]; [|done]. simpl. rewrite filter_cons. by case_decide.
Qed.
Lemma installed_model_ID t fs cacheDir model x : installed_model t fs cacheDir model = Some x → mr_ID x = model_ID model.
Proof.
  unfold installed_model. destruct (os_Stat _ _ _) as [info|]; [|done]. destruct (_ || _); [done|]. intros [= <-].
  unfold installed_resource. destruct (readModelManifest _ _ _ _) as [m|]; [|done]. by destruct (negb _).
Qed.
Lemma MustFind_Ok id model : MustFind id = Ok model → model ∈ Catalog ∧ model_ID model = id.
Proof.
  unfold MustFind, Find. destruct (find_model id catalog) as [m|] eqn:E; [|done]. intros [= <-].
  by apply find_model_Some.
Qed.
Lemma model_dir_inj cacheDir m1 m2 :
  m1 ∈ Catalog → m2 ∈ Catalog → below (model_dir cacheDir m1) (model_place cacheDir m2) = true ∨
  below (model_dir cacheDir m1) (manifest_place cacheDir m2) = true → m1 = m2.
Proof.
  intros Hm1 Hm2 Hb. assert (∃ c, below (model_dir cacheDir m1) (model_dir cacheDir m2 ++ [c]) = true) as [c [r Hc]%below_true]
    by (destruct Hb; eauto). unfold model_dir in Hc. rewrite <- !app_assoc in Hc. apply app_inv_head in Hc.
  injection Hc as Hid _. by apply catalog_id_inj.
Qed.

(** (functional). Deleting a model changes nothing outside its
    directory, and when it succeeds nothing is left there: the worker then reports
    exactly the models it reported before, without this one. *)
Theorem delete_removes_model (t : Tag) (input cacheDir : string) (s : Site) :
  tree_ok (site_fs s) → blank cacheDir = false →
  match executeModelDeleteJob t input cacheDir s with
  | (s', Returned (Ok text)) =>
      ∃ req model, Unmarshal (A := DeleteInput) input = Some req ∧ MustFind (del_ModelID req) = Ok model ∧
        tree_ok (site_fs s') ∧
        (∀ k, site_fs s' !! k = if below (model_dir cacheDir model) k then None else site_fs s !! k) ∧
        ∀ t', DiscoverInstalledModels t' (site_fs s') cacheDir =
              filter (λ r, mr_ID r ≠ del_ModelID req) (DiscoverInstalledModels t' (site_fs s) cacheDir)
  | (s', Returned (Err e)) =>
      (Unmarshal (A := DeleteInput) input = None ∧ s' = s ∧ e = InvalidInput) ∨
      ∃ req, Unmarshal (A := DeleteInput) input = Some req ∧
        match MustFind (del_ModelID req) with
        | Err id => s' = s ∧ e = UnknownModel id
        | Ok model => ∀ k, below (model_dir cacheDir model) k = false → site_fs s' !! k = site_fs s !! k
        end
  | (_, _) => False
  end.
Proof.
  intros Hok Hb. pose proof (blank_false_ne _ Hb) as Hne. unfold executeModelDeleteJob.
  destruct (Unmarshal input) as [req|] eqn:Eu; [|by left]. destruct (MustFind (del_ModelID req)) as [model|id] eqn:Ef;
    [|right; exists req; by rewrite Ef]. pose proof Ef as [Hm Hid]%MustFind_Ok.
  destruct (at_model cacheDir model Hne Hm) as (_ & Hdir & _). rewrite modelPath_nonblank by done. unfold on_files.
  assert (Hnr : at_path (PathDir (ModelFilePath cacheDir model)) ≠ []) by (rewrite Hdir; unfold model_dir; by destruct (models_place _)).
  pose proof (RemoveAll_spec (t ++ ["remove"%string]) (site_fs s) (PathDir (ModelFilePath cacheDir model)) Hnr) as Hr.
  rewrite Hdir in Hr. destruct (os_RemoveAll _ (site_fs s) _) as [fs [e|]]; destruct Hr as ([Ho Hw] & Hk & Hgone); simpl.
  { right. exists req. rewrite Ef. split; [done|]. intros k Hb'. apply Ho. by rewrite Hb'. }
  specialize (Hgone eq_refl Hok).
  assert (Hall : ∀ k, fs !! k = if below (model_dir cacheDir model) k then None else site_fs s !! k).
  { intros k. destruct (below _ k) eqn:Eb; [by apply Hgone|]. apply Ho. by rewrite Eb. }
  exists req, model. split_and!; [done|done|by apply Hw|done|]. intros t'. unfold DiscoverInstalledModels. rewrite Hb.
  apply omap_filter. intros m2 Hm2. destruct (decide (model_ID m2 = model_ID model)) as [Heq|Hdiff'].
  - rewrite (catalog_id_inj m2 model) by done. rewrite installed_model_absent; [|done..|].
    + destruct (installed_model t' (site_fs s) cacheDir model) as [x|] eqn:Ei; [|done]. simpl.
      apply installed_model_ID in Ei. rewrite decide_False; [done|]. rewrite Ei, Hid. by intros [].
    + intros (data & mt & E & _). rewrite Hall in E. unfold model_place in E. by rewrite below_app in E.
  - assert (Hdiff : m2 ≠ model) by (by intros ->). assert (Hout : below (model_dir cacheDir model) (model_place cacheDir m2) = false ∧
      below (model_dir cacheDir model) (manifest_place cacheDir m2) = false).
    { split; apply not_true_is_false; intros Hb'; apply Hdiff; symmetry; apply (model_dir_inj cacheDir); auto. }
    destruct Hout as [Ho1 Ho2]. rewrite (installed_model_kept t' (site_fs s) fs) by (done || by rewrite Hall, ?Ho1, ?Ho2).
    destruct (installed_model t' (site_fs s) cacheDir m2) as [x|] eqn:Ei; [|done]. simpl.
    apply installed_model_ID in Ei. rewrite decide_True; [done|]. rewrite Ei, <- Hid. intros E. by apply Hdiff, catalog_id_inj.
Qed.

(** *** Installing a model *)

Lemma grown_towards P (r r' : place) fs fs' : below r r' = true → grown P r fs fs' → grown P r' fs fs'.
Proof.
  intros Hb [Hok Hg]. split; [done|]. intros k Hk. destruct (Hg k Hk) as [?|(? & ? & Hb')]; [by left|].
  right. split_and!; [done..|]. by eapply below_trans.
Qed.
Lemma grown_kept P r fs fs' k e : grown P r fs fs' → ¬ P k → fs !! k = Some e → fs' !! k = Some e.
Proof. intros [_ Hg] Hk E. destruct (Hg k Hk) as [->|(E' & _)]; [done|congruence]. Qed.
(** A file that is not there stays away, unless it is a directory on the way. *)
Lemma grown_same P r fs fs' k : grown P r fs fs' → ¬ P k → below k r = false → fs' !! k = fs !! k.
Proof. intros [_ Hg] Hk Hb. destruct (Hg k Hk) as [->|(_ & _ & E)]; [done|congruence]. Qed.
Lemma grown_mkdirs P t fs path : tree_ok fs → grown P (at_path path) fs (os_MkdirAll t fs path).1.
Proof.
  intros Hok. pose proof (MkdirAll_spec t fs path) as Hm. destruct (os_MkdirAll t fs path) as [fs' err].
  destruct Hm as (_ & [Ho Hw] & _ & Hnew). split; [by apply Hw|]. intros k _.
  destruct (Hnew k) as [?|[E1 E2]]; [by left|]. right. split_and!; [done..|].
  destruct (below k (at_path path)) eqn:Eb; [done|]. rewrite Ho in E2; [congruence|by rewrite Eb].
Qed.
Lemma grown_one (P : place → Prop) r p fs fs' : tree_ok fs → P p → changes (λ k, k = p) fs fs' → grown P r fs fs'.
Proof. intros Hok Hp Hc. apply grown_changes; [done|]. eapply changes_weaken; [|exact Hc]. by intros k ->. Qed.

(** What writing the status of the job changes. *)
Definition status_place (cacheDir : string) : place := at_path (status_Path cacheDir).
Lemma at_status cacheDir :
  cacheDir ≠ ""%string → status_place cacheDir = at_path cacheDir ++ [status_FileName] ∧
  at_path (PathDir (status_Path cacheDir)) = at_path cacheDir.
Proof.
  intros Hne. unfold status_place, status_Path. rewrite bool_decide_eq_false_2 by done.
  destruct (at_joined cacheDir [] status_FileName Hne) as (E1 & E2 & _); [done|by apply (bool_decide_unpack _)|].
  simpl app in *. by rewrite app_nil_r in E2.
Qed.
Lemma status_Write_grown t fs cacheDir status :
  cacheDir ≠ ""%string → tree_ok fs →
  grown (λ k, k = status_place cacheDir) (at_path cacheDir) fs (status_Write t fs cacheDir status).1.
Proof.
  intros Hne Hok. destruct (at_status cacheDir Hne) as [_ Hdir]. unfold status_Write.
  pose proof (grown_mkdirs (λ k, k = status_place cacheDir) (t ++ ["mkdir"%string]) fs (PathDir (status_Path cacheDir)) Hok) as Hg.
  rewrite Hdir in Hg. destruct (os_MkdirAll _ fs _) as [fs1 [e|]]; [done|]. simpl in Hg.
  pose proof (WriteFile_spec (t ++ ["write"%string]) fs1 (status_Path cacheDir)
    (Marshal (updated_at (w_clock (t ++ ["now"%string])) status))) as Hw.
  destruct (os_WriteFile _ fs1 _ _) as [fs2 err]. eapply grown_trans; [exact Hg|].
  eapply grown_one; [apply Hg| |apply Hw]. done.
Qed.

(** Progress reports only touch the status file. *)
Definition progress_safe (cacheDir : string) (progress : option progress_fn) : Prop :=
  ∀ t w total s, tree_ok (site_fs s) →
    grown (λ k, k = status_place cacheDir) (at_path cacheDir) (site_fs s) (site_fs (notify progress t w total s).1).
Lemma postJobProgress_fs t managerURL jobID req s : site_fs (postJobProgress t managerURL jobID req s).1 = site_fs s.
Proof. unfold postJobProgress. by destruct (Do _ _ _ _ _ _ _) as [srv [?| |]]. Qed.
Lemma progress_writer_safe managerURL cacheDir nodeID job startedAt :
  progress_safe cacheDir (modelInstallProgressWriter managerURL cacheDir nodeID job startedAt).
Proof.
  intros t w total s Hok. unfold modelInstallProgressWriter. destruct (blank cacheDir) eqn:Hb; [by apply grown_refl|].
  destruct (_ || _); [by apply grown_refl|]. unfold notify. cbv zeta. destruct (_ && _); [by apply grown_refl|].
  assert (Hg : ∀ st, grown (λ k, k = status_place cacheDir) (at_path cacheDir) (site_fs s)
    (status_Write (t ++ ["status"%string]) (site_fs s) cacheDir st).1)
    by (intros st; apply status_Write_grown; [by apply blank_false_ne|done]).
  destruct (blank managerURL); [apply Hg|]. rewrite postJobProgress_fs. apply Hg.
Qed.

(** The copy fills the temporary file with what was read. *)
Lemma copy_body_spec t i cacheDir progress tmp total reads err read written s data m :
  tree_ok (site_fs s) → progress_safe cacheDir progress → at_path tmp ≠ status_place cacheDir →
  site_fs s !! at_path tmp = Some (EFile data m) →
  let '(s', out) := copy_body t i progress tmp total reads err read written s in
  grown (λ k, k = status_place cacheDir ∨ k = at_path tmp) (at_path cacheDir) (site_fs s) (site_fs s') ∧
  is_file (site_fs s' !! at_path tmp) = true ∧
  ∀ n, out = Returned (n, None) →
    let body := foldr (λ a b, a +:+ b) "" reads in
    n = written + Z.of_nat (String.length body) ∧ ∃ m', site_fs s' !! at_path tmp = Some (EFile (data +:+ body) m').
Proof.
  intros Hok Hsafe Hts Hd. revert i read written s data m Hok Hd.
  induction reads as [|x reads IH]; intros i read written s data m Hok Hd; cbn [copy_body].
  { split_and!; [by apply grown_refl|by rewrite Hd|]. intros n [= <- _]. simpl. rewrite string_app_nil_r. split; [lia|eauto]. }
  destruct (str_eqb x "") eqn:Ex.
  { apply bool_decide_eq_true in Ex as ->. specialize (IH (S i) read written s data m Hok Hd).
    destruct (copy_body _ _ _ _ _ _ _ _ _ s) as [s' out]. exact IH. }
  unfold mbind at 1. set (t' := t ++ [Itoa (Z.of_nat i)]). set (size := Z.of_nat (String.length x)).
  pose proof (Hsafe (t' ++ ["progress"%string]) (i64 (read + size)) total s Hok) as Hg1.
  destruct (notify progress _ _ total s) as [s1 out1]. simpl in Hg1.
  assert (Hd1 : site_fs s1 !! at_path tmp = Some (EFile data m)) by (by eapply grown_kept).
  assert (Hg1' : grown (λ k, k = status_place cacheDir ∨ k = at_path tmp) (at_path cacheDir) (site_fs s) (site_fs s1))
    by (eapply grown_weaken; [|exact Hg1]; auto).
  destruct out1 as [[]| |]; [|by split_and!; [|rewrite Hd1|]..].
  pose proof (Append_spec (t' ++ ["write"%string]) (site_fs s1) tmp x) as Ha.
  destruct (os_Append _ (site_fs s1) tmp x) as [fs2 err2]. destruct Ha as [Hc2 Hp2].
  destruct (Hp2 _ _ Hd1) as (put & m2 & Hd2 & Hput).
  assert (Hg2 : grown (λ k, k = status_place cacheDir ∨ k = at_path tmp) (at_path cacheDir) (site_fs s) fs2).
  { eapply grown_trans; [exact Hg1'|]. eapply grown_one; [apply Hg1| |exact Hc2]. by right. }
  destruct err2 as [e|]; [by split_and!; [|simpl; rewrite Hd2|]|]. rewrite Hput in Hd2 by done.
  specialize (IH (S i) (i64 (read + size)) (written + size) (s1 <| site_fs := fs2 |>) (data +:+ x) m2 (grown_ok _ _ _ _ Hg2) Hd2).
  destruct (copy_body _ _ _ _ _ reads _ _ _ _) as [s' out]. destruct IH as (Hg3 & Hf3 & Hn3).
  split_and!; [by eapply grown_trans|done|]. intros n Hout. destruct (Hn3 n Hout) as (-> & m3 & Hd3).
  split; [|exists m3; by rewrite Hd3, <- string_app_assoc]. simpl. rewrite string_app_length. unfold size. lia.
Qed.

Lemma model_places_distinct cacheDir model :
  cacheDir ≠ ""%string → model ∈ Catalog →
  model_place cacheDir model ≠ tmp_place cacheDir model ∧ model_place cacheDir model ≠ manifest_place cacheDir model ∧
  model_place cacheDir model ≠ status_place cacheDir ∧ tmp_place cacheDir model ≠ status_place cacheDir ∧
  manifest_place cacheDir model ≠ status_place cacheDir ∧ manifest_place cacheDir model ≠ tmp_place cacheDir model.
Proof.
  intros Hne Hm. destruct (catalog_names model Hm) as (_ & _ & _ & Hs & Hman). destruct (at_status cacheDir Hne) as [-> _].
  assert (Hlen : ∀ c, model_dir cacheDir model ++ [c] ≠ at_path cacheDir ++ [status_FileName]).
  { intros c E. unfold model_dir, models_place in E. apply (f_equal length) in E. rewrite !length_app in E. simpl in E. lia. }
  split_and!; try apply Hlen; intros E; apply app_inj_tail in E as [_ E]; [|congruence|].
  - apply (f_equal String.length) in E. rewrite string_app_length in E. simpl in E. lia.
  - pose proof (HasSuffix_app (model_File model) ".tmp") as Hx. rewrite <- E in Hx. by vm_compute in Hx.
Qed.

Lemma WriteModelManifest_spec t fs cacheDir model path bytes installedAt :
  tree_ok fs → cacheDir ≠ ""%string → model ∈ Catalog →
  let '(fs', err) := WriteModelManifest t fs cacheDir model path bytes installedAt in
  grown (λ k, k = manifest_place cacheDir model) (model_dir cacheDir model) fs fs' ∧
  (err = None → ∃ m, fs' !! manifest_place cacheDir model = Some (EFile (Marshal (manifest_of t model path bytes installedAt)) m)).
Proof.
  intros Hok Hne Hm. destruct (at_manifest cacheDir model Hne Hm) as [Hat Hdir]. unfold WriteModelManifest.
  pose proof (grown_mkdirs (λ k, k = manifest_place cacheDir model) (t ++ ["mkdir"%string]) fs
    (PathDir (ModelManifestPath cacheDir (model_ID model))) Hok) as Hg. rewrite Hdir in Hg.
  destruct (os_MkdirAll _ fs _) as [fs1 [e|]]; [by split|]. simpl in Hg.
  pose proof (WriteFile_spec (t ++ ["write"%string]) fs1 (ModelManifestPath cacheDir (model_ID model))
    (Marshal (manifest_of t model path bytes installedAt))) as Hw. rewrite Hat in Hw.
  destruct (os_WriteFile _ fs1 _ _) as [fs2 err]. destruct Hw as [Hc Hd]. split; [|done].
  eapply grown_trans; [exact Hg|]. eapply grown_one; [apply Hg| |exact Hc]. done.
Qed.

(** What an installation may change: the file of the model, the temporary file, the
    manifest, and the status file. *)
Definition install_place (cacheDir : string) (model : Model) (k : place) : Prop :=
  k ∈ [model_place cacheDir model; tmp_place cacheDir model; manifest_place cacheDir model; status_place cacheDir].
Lemma cache_above_model cacheDir model : below (at_path cacheDir) (model_dir cacheDir model) = true.
Proof. unfold model_dir, models_place. rewrite <- app_assoc. apply below_app. Qed.
Lemma model_dir_off cacheDir model c : below (model_dir cacheDir model ++ [c]) (model_dir cacheDir model) = false.
Proof.
  destruct (below _ _) eqn:E; [|done]. apply below_true in E as [r Hr]. apply (f_equal length) in Hr.
  rewrite !length_app in Hr. simpl in Hr. lia.
Qed.

(** What a failed installation leaves: the model's file as it was, or none, unless it
    could not be removed again; the manifest as it was, unless writing it failed. *)
Definition left_behind (t : Tag) (cacheDir : string) (model : Model) (fs fs' : tree) (e : worker_error) : Prop :=
  (fs' !! model_place cacheDir model = fs !! model_place cacheDir model ∨
   fs' !! model_place cacheDir model = None ∨ io_fault (t ++ ["undo"%string]) ≠ None) ∧
  ((∃ x, e = ManifestFailed x) ∨ fs' !! manifest_place cacheDir model = fs !! manifest_place cacheDir model).
(** The temporary file is gone, or was not touched, or could not be removed. *)
Definition no_leftover (t : Tag) (cacheDir : string) (model : Model) (fs fs' : tree) : Prop :=
  fs' !! tmp_place cacheDir model = None ∨ fs' !! tmp_place cacheDir model = fs !! tmp_place cacheDir model ∨
  io_fault (t ++ ["drop"%string]) ≠ None.
(** The outcome of a download: on success the file and the manifest. *)
Definition downloaded (t : Tag) (cacheDir : string) (model : Model) (resp : web_reply) (fs fs' : tree)
    (out : outcome (result worker_error string)) : Prop :=
  let path := ModelFilePath cacheDir model in
  let size := Z.of_nat (String.length (all_reads resp)) in
  match out with
  | Returned (Ok text) =>
      text = Marshal (install_result model path size) ∧ all_reads resp ≠ ""%string ∧
      (∃ m, fs' !! model_place cacheDir model = Some (EFile (all_reads resp) m)) ∧
      (∃ m, fs' !! manifest_place cacheDir model =
             Some (EFile (Marshal (manifest_of (t ++ ["manifest"%string]) model path (u64 size) (w_clock (t ++ ["installed"%string])))) m)) ∧
      no_leftover t cacheDir model fs fs'
  | Returned (Err e) => left_behind t cacheDir model fs fs' e ∧ no_leftover t cacheDir model fs fs'
  | _ => True
  end.

(** What is shared by the phases of an installation. *)
Section install.
Context (cacheDir : string) (model : Model) (progress : option progress_fn) (t : Tag) (resp : web_reply).
Context (Hb : blank cacheDir = false) (Hm : model ∈ Catalog) (Hsafe : progress_safe cacheDir progress).
Let path : string := ModelFilePath cacheDir model.
Let tmp : string := path +:+ ".tmp".
Let mp : place := model_place cacheDir model.
Let tp : place := tmp_place cacheDir model.
Let fp : place := manifest_place cacheDir model.
Let sp : place := status_place cacheDir.
Let G : tree → tree → Prop := grown (install_place cacheDir model) (model_dir cacheDir model).

Lemma install_ne : cacheDir ≠ ""%string.
Proof. by apply blank_false_ne. Qed.
Lemma install_at : at_path path = mp ∧ at_path tmp = tp.
Proof. destruct (at_model cacheDir model install_ne Hm) as (E1 & _ & E2). by split. Qed.
(** A change of one file of the model. *)
Lemma install_file fs1 fs2 q : tree_ok fs1 → install_place cacheDir model q → changes (λ k, k = q) fs1 fs2 → G fs1 fs2.
Proof. intros Hok1 Hq Hc. by eapply grown_one. Qed.
Lemma install_places : install_place cacheDir model mp ∧ install_place cacheDir model tp ∧
  install_place cacheDir model fp ∧ install_place cacheDir model sp.
Proof. unfold install_place. split_and!; set_solver. Qed.
(** A report keeps the files of the model. *)
Lemma install_report t' w total s :
  tree_ok (site_fs s) → let s1 := (notify progress t' w total s).1 in
  G (site_fs s) (site_fs s1) ∧
  ∀ c, model_dir cacheDir model ++ [c] ≠ sp → site_fs s1 !! (model_dir cacheDir model ++ [c]) = site_fs s !! (model_dir cacheDir model ++ [c]).
Proof.
  intros Hok s1. pose proof (Hsafe t' w total s Hok) as Hg. fold s1 in Hg.
  apply (grown_towards _ _ (model_dir cacheDir model)) in Hg; [|apply cache_above_model]. split.
  - eapply grown_weaken; [|exact Hg]. intros k ->. apply install_places.
  - intros c Hc. eapply grown_same; [exact Hg|done|apply model_dir_off].
Qed.
(** Giving up removes the temporary file only. *)
Lemma install_drop fs s1 err :
  G fs (site_fs s1) → site_fs s1 !! mp = fs !! mp → site_fs s1 !! fp = fs !! fp → is_file (site_fs s1 !! tp) = true →
  G fs (site_fs (drop_tmp t tmp s1)) ∧ downloaded t cacheDir model resp fs (site_fs (drop_tmp t tmp s1)) (Returned (Err err)).
Proof.
  intros HG E Ef Htp. destruct install_at as [_ Htmp].
  destruct (model_places_distinct cacheDir model install_ne Hm) as (Hd & _ & _ & _ & _ & Hd6).
  unfold drop_tmp, touch. simpl. pose proof (Remove_spec (t ++ ["drop"%string]) (site_fs s1) tmp) as Hr. rewrite Htmp in Hr.
  destruct (os_Remove _ (site_fs s1) tmp) as [fs2 e] eqn:Er. destruct Hr as [Hc Hr]. simpl. split; [|split; [split|]].
  - eapply grown_trans; [exact HG|]. eapply install_file; [apply HG| |exact Hc]; apply install_places.
  - left. destruct Hc as [Ho _]. by rewrite Ho.
  - right. destruct Hc as [Ho _]. by rewrite Ho.
  - destruct e as [e|]; [|left; destruct Hr as [-> _]; apply lookup_delete_eq].
    right; right. intros Hnf. unfold os_Remove in Er. rewrite Hnf, Htmp in Er.
    by destruct (site_fs s1 !! tp) as [[|]|].
Qed.
(** After a failed manifest the model file is removed again. *)
Lemma install_undo fs fs5 s data m3 :
  G fs fs5 → fs5 !! mp = Some (EFile data m3) → fs5 !! tp = None →
  let s' := touch (λ fs, os_Remove (t ++ ["undo"%string]) fs path) (s <| site_fs := fs5 |>) in
  G fs (site_fs s') ∧ ∀ e, downloaded t cacheDir model resp fs (site_fs s') (Returned (Err (ManifestFailed e))).
Proof.
  intros HG5 E5 Etp. destruct install_at as [Hat _]. unfold touch. simpl.
  destruct (model_places_distinct cacheDir model install_ne Hm) as (Hd & _).
  pose proof (Remove_spec (t ++ ["undo"%string]) fs5 path) as Hr. rewrite Hat in Hr.
  destruct (os_Remove _ fs5 path) as [fs6 err6] eqn:E6. destruct Hr as [Hc6 Hr]. simpl. split.
  - eapply grown_trans; [exact HG5|]. eapply install_file; [apply HG5| |exact Hc6]; apply install_places.
  - intros e. split; [split; [|left; by exists e]|left; destruct Hc6 as [Ho _]; rewrite Ho; [exact Etp|by apply not_eq_sym]].
    right. destruct err6 as [e6|]; [|left; destruct Hr as [-> _]; apply lookup_delete_eq].
    right. intros Hnf. unfold os_Remove in E6. rewrite Hnf, Hat, E5 in E6. done.
Qed.

Lemma place_download_spec fs s m3 :
  let body := all_reads resp in
  let size := Z.of_nat (String.length body) in
  G fs (site_fs s) → site_fs s !! mp = fs !! mp → site_fs s !! fp = fs !! fp → site_fs s !! tp = Some (EFile body m3) →
  body ≠ ""%string →
  let '(s', out) := place_download t cacheDir model progress size (wr_ContentLength resp) s in
  G fs (site_fs s') ∧ downloaded t cacheDir model resp fs (site_fs s') out.
Proof.
  intros body size HG3 Emp3 Efp3 E3 Hne0. destruct install_at as [Hat Htmp].
  destruct (model_places_distinct cacheDir model install_ne Hm) as (Hd1 & Hd2 & Hd3 & Hd4 & Hd5 & Hd6).
  unfold place_download. rewrite modelPath_nonblank by done. fold path tmp. cbv zeta.
  assert (Hnd : site_fs s !! at_path tmp ≠ Some EDir) by (rewrite Htmp, E3; discriminate).
  pose proof (Rename_spec (t ++ ["rename"%string]) (site_fs s) tmp path Hnd) as Hr. rewrite Htmp, Hat in Hr.
  destruct (os_Rename _ (site_fs s) tmp path) as [fs4 [e|]]; destruct Hr as [Hc4 Hr];
    [subst fs4; apply install_drop; [done..|]; simpl; by rewrite E3|].
  destruct Hr as (data & m4 & E4 & E4' & Egone). specialize (Egone (not_eq_sym Hd1)). rewrite E3 in E4. injection E4 as <- <-.
  assert (HG4 : G fs fs4).
  { eapply grown_trans; [exact HG3|]. apply grown_changes; [apply HG3|]. eapply changes_weaken; [|exact Hc4].
    intros k [-> | ->]; apply install_places. }
  pose proof (WriteModelManifest_spec (t ++ ["manifest"%string]) fs4 cacheDir model path (u64 size)
    (w_clock (t ++ ["installed"%string])) (grown_ok _ _ _ _ HG4) install_ne Hm) as Hw.
  destruct (WriteModelManifest _ fs4 _ _ _ _ _) as [fs5 err5]. destruct Hw as [Hg5 Hman].
  assert (HG5 : G fs fs5).
  { eapply grown_trans; [exact HG4|]. eapply grown_weaken; [|exact Hg5]. intros k ->. apply install_places. }
  assert (E5' : fs5 !! mp = Some (EFile body m3)) by (eapply grown_kept; [exact Hg5|done|exact E4']).
  assert (Etp5 : fs5 !! tp = None).
  { etrans; [eapply grown_same; [exact Hg5|by apply not_eq_sym|apply model_dir_off]|exact Egone]. }
  destruct err5 as [e|]; [destruct (install_undo fs fs5 s body m3 HG5 E5' Etp5) as [? Hu]; split; [done|apply Hu]|].
  destruct (Hman eq_refl) as (m5 & E5). unfold mbind. set (s5 := s <| site_fs := fs5 |>).
  pose proof (install_report (t ++ ["last"%string]) size (wr_ContentLength resp) s5 (grown_ok _ _ _ _ HG5)) as Hrep.
  destruct (notify progress _ _ _ s5) as [s6 out6]. destruct Hrep as [HG6 Hk6]. simpl in HG6, Hk6.
  pose proof (grown_trans _ _ _ _ _ HG5 HG6) as HG06. destruct out6 as [[]| |]; [|by split..].
  split; [done|]. split_and!; [done..| | |].
  - exists m3. etrans; [by apply Hk6|exact E5'].
  - exists m5. etrans; [by apply Hk6|exact E5].
  - left. etrans; [by apply Hk6|exact Etp5].
Qed.

Lemma install_body_spec s :
  tree_ok (site_fs s) →
  let '(s', out) := install_body t cacheDir model progress resp s in
  G (site_fs s) (site_fs s') ∧ downloaded t cacheDir model resp (site_fs s) (site_fs s') out.
Proof.
  intros Hok. destruct install_at as [Hat Htmp].
  destruct (model_places_distinct cacheDir model install_ne Hm) as (Hd1 & Hd2 & Hd3 & Hd4 & Hd5 & Hd6).
  unfold install_body. rewrite modelPath_nonblank by done. fold path tmp. cbv zeta.
  unfold mbind at 1. pose proof (install_report (t ++ ["first"%string]) 0 (wr_ContentLength resp) s Hok) as Hrep.
  destruct (notify progress _ 0 _ s) as [s1 out1]. destruct Hrep as [HG1 Hk1]. simpl in HG1, Hk1.
  pose proof (Hk1 _ Hd3) as Emp1. pose proof (Hk1 _ Hd5) as Efp1. pose proof (Hk1 _ Hd4) as Etp1. destruct out1 as [[]| |]; [|by split..].
  unfold on_files. pose proof (Create_spec (t ++ ["create"%string]) (site_fs s1) tmp) as Hc. rewrite Htmp in Hc.
  destruct (os_Create _ (site_fs s1) tmp) as [fs2 [e|]]; destruct Hc as [Hc2 Hd].
  { simpl. rewrite Hd. split; [done|]. split; [split; [by left|by right]|]. by right; left. }
  destruct Hd as [E2 _]. assert (HG2 : G (site_fs s) fs2).
  { eapply grown_trans; [exact HG1|]. eapply install_file; [apply HG1| |exact Hc2]; apply install_places. }
  assert (Emp2 : fs2 !! mp = site_fs s !! mp) by (destruct Hc2 as [Ho _]; by rewrite Ho).
  assert (Efp2 : fs2 !! fp = site_fs s !! fp) by (destruct Hc2 as [Ho _]; by rewrite Ho).
  unfold mbind at 1. set (s2 := s1 <| site_fs := fs2 |>).
  assert (Hts : at_path tmp ≠ sp) by by rewrite Htmp.
  assert (E2' : site_fs s2 !! at_path tmp = Some (EFile "" (w_clock (t ++ ["create"%string])))) by by rewrite Htmp.
  pose proof (copy_body_spec (t ++ ["copy"%string]) 0 cacheDir progress tmp (wr_ContentLength resp) (wr_Reads resp) (wr_Err resp)
    0 0 s2 _ _ (grown_ok _ _ _ _ HG2) Hsafe Hts E2') as Hcp.
  destruct (copy_body _ _ _ _ _ _ _ _ _ s2) as [s3 out3]. destruct Hcp as (Hg3 & Hf3 & Hn3). rewrite Htmp in Hg3, Hf3, Hn3.
  apply (grown_towards _ _ (model_dir cacheDir model)) in Hg3; [|apply cache_above_model].
  assert (HG3 : G (site_fs s) (site_fs s3)).
  { eapply grown_trans; [exact HG2|]. eapply grown_weaken; [|exact Hg3].
    intros k [-> | ->]; apply install_places. }
  assert (Emp3 : site_fs s3 !! mp = site_fs s !! mp).
  { rewrite <- Emp2. eapply grown_same; [exact Hg3| |apply model_dir_off]. by intros [?|?]. }
  assert (Efp3 : site_fs s3 !! fp = site_fs s !! fp).
  { rewrite <- Efp2. eapply grown_same; [exact Hg3| |apply model_dir_off]. by intros [?|?]. }
  destruct out3 as [[bytesWritten copyErr]| |]; [|by split..].
  destruct copyErr as [e|]; [by apply install_drop|]. destruct (io_fault (t ++ ["close"%string])); [by apply install_drop|].
  destruct (Hn3 _ eq_refl) as [-> (m3 & E3)]. change (foldr _ _ (wr_Reads resp)) with (all_reads resp) in *.
  rewrite Z.add_0_l in *. change ("" +:+ all_reads resp) with (all_reads resp) in E3.
  destruct (Z.eqb_spec (Z.of_nat (String.length (all_reads resp))) 0) as [E0|Hn0]; [by apply install_drop|].
  assert (Hne0 : all_reads resp ≠ ""%string) by (intros E0; by rewrite E0 in Hn0).
  by eapply place_download_spec.
Qed.
End install.

(** A manifest just written describes the model without an error. *)
Definition sound_resource (model : Model) (path : string) (size : Z) (installedAt : Time) : ModelResource :=
  mkModelResource (model_ID model) (model_Name model) (model_Family model) (model_Runtime model) path size true "" installedAt.
Lemma catalog_texts model : model ∈ Catalog →
  TrimSpace (model_ID model) = model_ID model ∧ firstNonEmpty [model_Name model; model_Name model] = model_Name model ∧
  firstNonEmpty [model_Family model; model_Family model] = model_Family model ∧
  firstNonEmpty [model_Runtime model; model_Runtime model] = model_Runtime model.
Proof. revert model. apply Forall_forall. apply (bool_decide_unpack _). by vm_compute. Qed.
Lemma installed_sound t model path size installedAt :
  model ∈ Catalog → 0 < size < 2^64 →
  installed_resource model path size (Some (manifest_of t model path (u64 size) installedAt)) =
  sound_resource model path size (mf_InstalledAt (manifest_of t model path (u64 size) installedAt)).
Proof.
  intros Hm Hs. destruct (catalog_texts model Hm) as (Hid & Hn & Hf & Hr). unfold installed_resource, manifest_of.
  cbn [mf_ID mf_Name mf_Family mf_Runtime mf_File mf_Bytes mf_InstalledAt]. rewrite u64_small by lia.
  rewrite Hid, Hn, Hf, Hr, !bool_decide_eq_true_2 by done. simpl.
  rewrite ?Z.eqb_refl, ?(proj2 (Z.ltb_lt 0 size)) by lia. rewrite (bool_decide_eq_true_2 (model_File model = model_File model)) by done. cbn [andb negb]. by rewrite andb_false_r.
Qed.

(** The file and the manifest of an installation, and what is then found. *)
Definition installed_at (fs : tree) (cacheDir : string) (model : Model) (data : string) : Prop :=
  data ≠ ""%string ∧
  (∃ m, fs !! model_place cacheDir model = Some (EFile data m)) ∧
  ∃ manifest m, fs !! manifest_place cacheDir model = Some (EFile (Marshal manifest) m) ∧
    ∀ t', io_fault (t' ++ ["stat"%string; model_ID model]) = None → io_fault (t' ++ ["manifest"%string; model_ID model]) = None →
      json_ok manifest → Z.of_nat (String.length data) < 2^64 →
      sound_resource model (ModelFilePath cacheDir model) (Z.of_nat (String.length data)) (mf_InstalledAt manifest)
        ∈ DiscoverInstalledModels t' fs cacheDir.
Lemma installed_found fs cacheDir model data m t at_ m2 :
  let size := Z.of_nat (String.length data) in
  let manifest := manifest_of t model (ModelFilePath cacheDir model) (u64 size) at_ in
  blank cacheDir = false → model ∈ Catalog → data ≠ ""%string →
  fs !! model_place cacheDir model = Some (EFile data m) →
  fs !! manifest_place cacheDir model = Some (EFile (Marshal manifest) m2) → installed_at fs cacheDir model data.
Proof.
  intros size manifest Hb Hm Hd E1 E2. pose proof (blank_false_ne _ Hb) as Hne.
  destruct (at_model cacheDir model Hne Hm) as (Hat & _). destruct (at_manifest cacheDir model Hne Hm) as [Hman _].
  split; [done|]. split; [by eexists|]. exists manifest, m2. split; [done|]. intros t' Hf1 Hf2 Hj Hlt.
  unfold DiscoverInstalledModels. rewrite Hb. apply list_elem_of_omap. exists model. split; [done|].
  assert (0 < size) as Hpos by by apply (Size_pos data m).
  unfold installed_model, os_Stat, readModelManifest, os_ReadFile. rewrite Hf1, Hf2, Hat, Hman, E1, E2.
  cbn [is_dir orb Size]. fold size. rewrite (proj2 (Z.leb_gt size 0)) by lia.
  rewrite (json_roundtrip manifest Hj). f_equal. apply installed_sound; [done|]. unfold size in *. lia.
Qed.

(** The two ways of an installation, and what they promise. *)
Definition install_promise (t : Tag) (cacheDir : string) (model : Model) (fs fs' : tree)
    (out : outcome (result worker_error string)) : Prop :=
  grown (install_place cacheDir model) (model_dir cacheDir model) fs fs' ∧
  match out with
  | Returned (Ok text) =>
      no_leftover t cacheDir model fs fs' ∧
      (is_dir (fs !! model_place cacheDir model) = false →
      ∃ data, installed_at fs' cacheDir model data ∧
        text = Marshal (install_result model (ModelFilePath cacheDir model) (Z.of_nat (String.length data))) ∧
        ((∃ m, fs !! model_place cacheDir model = Some (EFile data m)) ∨
         ∃ resp, web_get (t ++ ["get"%string]) (model_URL model) = Ok resp ∧ web_bad resp = false ∧ data = all_reads resp))
  | Returned (Err e) => left_behind t cacheDir model fs fs' e ∧ no_leftover t cacheDir model fs fs'
  | _ => True
  end.
(** The file is there: only its manifest is written again. *)
Lemma install_again cacheDir model t (s : Site) :
  tree_ok (site_fs s) → blank cacheDir = false → model ∈ Catalog → ∀ stat,
  site_fs s !! model_place cacheDir model = Some stat → 0 < Size stat →
  let path := ModelFilePath cacheDir model in
  let '(s', out) := rewrite_manifest t cacheDir model stat (Marshal (install_result model path (Size stat))) s in
  install_promise t cacheDir model (site_fs s) (site_fs s') out.
Proof.
  intros Hok Hb Hm stat Hs Hpos path. pose proof (blank_false_ne _ Hb) as Hne.
  destruct (model_places_distinct cacheDir model Hne Hm) as (_ & Hd & _ & _ & _ & Hd6).
  unfold rewrite_manifest, on_files. rewrite modelPath_nonblank by done. fold path.
  pose proof (WriteModelManifest_spec (t ++ ["again"%string]) (site_fs s) cacheDir model path (u64 (Size stat)) (mod_time t stat)
    Hok Hne Hm) as Hw.
  destruct (WriteModelManifest _ (site_fs s) _ _ _ _ _) as [fs1 err]. destruct Hw as [Hg Hman].
  assert (Hkept : fs1 !! model_place cacheDir model = Some stat) by (by eapply grown_kept).
  assert (Hno : no_leftover t cacheDir model (site_fs s) fs1).
  { right; left. eapply grown_same; [exact Hg|by apply not_eq_sym|apply model_dir_off]. }
  destruct err as [e|]; unfold mreturn, install_promise; cbn [site_fs set_site_fs].
  all: split; [eapply grown_weaken; [|exact Hg]; intros k ->; unfold install_place; set_solver|].
  - split; [|exact Hno]. split; [left; etrans; [exact Hkept|done]|left; by eexists].
  - split; [exact Hno|]. rewrite Hs. intros Hnd. destruct stat as [|data m]; [done|]. destruct (Hman eq_refl) as [m2 E2].
    exists data. split_and!; [|done|left; by eexists]. eapply installed_found; [done..| |exact Hkept|exact E2].
    by apply (Size_pos data m).
Qed.
(** The file is not there, or empty: it is downloaded. *)
Lemma install_download cacheDir model progress t (s : Site) :
  tree_ok (site_fs s) → blank cacheDir = false → model ∈ Catalog → progress_safe cacheDir progress →
  let '(s', out) := download_model t cacheDir model progress s in
  install_promise t cacheDir model (site_fs s) (site_fs s') out.
Proof.
  intros Hok Hb Hm Hsafe. pose proof (blank_false_ne _ Hb) as Hne. destruct (at_model cacheDir model Hne Hm) as (_ & Hdir & _).
  unfold download_model, on_files. rewrite modelPath_nonblank by done.
  pose proof (grown_mkdirs (install_place cacheDir model) (t ++ ["mkdir"%string]) (site_fs s)
    (PathDir (ModelFilePath cacheDir model)) Hok) as Hg. rewrite Hdir in Hg.
  pose proof (MkdirAll_spec (t ++ ["mkdir"%string]) (site_fs s) (PathDir (ModelFilePath cacheDir model))) as Hmk.
  destruct (os_MkdirAll _ (site_fs s) _) as [fs1 err]. rewrite Hdir in Hmk. destruct Hmk as (_ & [Ho _] & _).
  assert (E1 : fs1 !! model_place cacheDir model = site_fs s !! model_place cacheDir model)
    by (apply Ho; unfold model_place; by rewrite model_dir_off).
  assert (E2 : fs1 !! manifest_place cacheDir model = site_fs s !! manifest_place cacheDir model)
    by (apply Ho; unfold manifest_place; by rewrite model_dir_off).
  assert (E3 : fs1 !! tmp_place cacheDir model = site_fs s !! tmp_place cacheDir model)
    by (apply Ho; unfold tmp_place; by rewrite model_dir_off).
  assert (Hleft : ∀ e, left_behind t cacheDir model (site_fs s) fs1 e ∧ no_leftover t cacheDir model (site_fs s) fs1)
    by (intros e; split; [split; [by left|by right]|by right; left]).
  cbn [fst] in Hg. destruct err as [e|]; [by split|].
  destruct (web_get _ _) as [resp|text] eqn:Eg; [|by split].
  destruct (web_bad resp) eqn:Eb; [by split|].
  pose proof (install_body_spec cacheDir model progress t resp Hb Hm Hsafe (s <| site_fs := fs1 |>) (grown_ok _ _ _ _ Hg)) as Hbody.
  destruct (install_body t cacheDir model progress resp _) as [s' out]. destruct Hbody as [Hg2 Hd].
  assert (Hno : no_leftover t cacheDir model fs1 (site_fs s') → no_leftover t cacheDir model (site_fs s) (site_fs s'))
    by (unfold no_leftover; by rewrite E3).
  split; [by eapply grown_trans|]. destruct out as [[text|e]| |]; [| |done..].
  - destruct Hd as (-> & Hne0 & [m E4] & (m2 & E5) & Hl). split; [by apply Hno|]. intros _. exists (all_reads resp).
    split_and!; [|done|right; by eexists]. by eapply installed_found.
  - destruct Hd as [[Hl1 Hl2] Hl]. split; [|by apply Hno]. split; [by rewrite <- E1|]. by rewrite <- E2.
Qed.

(** C11 (functional). Installing a model below a named cache directory of a
    well-formed file tree, with the progress reported to the manager, changes the
    model's file, its temporary file, its manifest and the status file only, and
    makes the directories above them. When it succeeds and there was no directory in
    the way, the model's file holds the whole body of the download (or what was
    there already), its manifest describes it, and the worker, when it can read both
    and the manifest's texts survive JSON, then reports the model as ready, without
    an error and with its size. Either way the temporary file is gone or was never
    touched, unless removing it failed. When it fails the model's file is as it was
    or gone, unless removing it again failed, and the manifest is as it was, unless
    it is the manifest that could not be written. *)
Theorem install_reported (t : Tag) (input cacheDir managerURL nodeID : string) (job : Job) (startedAt : Time) (s : Site) :
  tree_ok (site_fs s) → blank cacheDir = false →
  let '(s', out) := executeModelInstallJob t input cacheDir
    (modelInstallProgressWriter managerURL cacheDir nodeID job startedAt) s in
  match Unmarshal (A := DeleteInput) input with
  | None => s' = s ∧ out = Returned (Err InvalidInput)
  | Some req =>
      match MustFind (del_ModelID req) with
      | Err id => s' = s ∧ out = Returned (Err (UnknownModel id))
      | Ok model =>
          grown (install_place cacheDir model) (model_dir cacheDir model) (site_fs s) (site_fs s') ∧
          match out with
          | Returned (Ok text) =>
              no_leftover t cacheDir model (site_fs s) (site_fs s') ∧
              (is_dir (site_fs s !! model_place cacheDir model) = false →
              ∃ data, installed_at (site_fs s') cacheDir model data ∧
                text = Marshal (install_result model (ModelFilePath cacheDir model) (Z.of_nat (String.length data))) ∧
                ((∃ m, site_fs s !! model_place cacheDir model = Some (EFile data m)) ∨
                 ∃ resp, web_get (t ++ ["get"%string]) (model_URL model) = Ok resp ∧ web_bad resp = false ∧ data = all_reads resp))
          | Returned (Err e) =>
              left_behind t cacheDir model (site_fs s) (site_fs s') e ∧ no_leftover t cacheDir model (site_fs s) (site_fs s')
          | _ => True
          end
      end
  end.
Proof.
  intros Hok Hb. pose proof (blank_false_ne _ Hb) as Hne. unfold executeModelInstallJob.
  destruct (Unmarshal input) as [req|]; [|done]. destruct (MustFind (del_ModelID req)) as [model|id] eqn:Ef; [|done].
  apply MustFind_Ok in Ef as [Hm _]. rewrite modelPath_nonblank by done. cbv zeta.
  pose proof (progress_writer_safe managerURL cacheDir nodeID job startedAt) as Hsafe.
  set (progress := modelInstallProgressWriter _ _ _ _ _) in *.
  match goal with |- let '(_, _) := ?job in _ =>
    enough (let '(s', out) := job in install_promise t cacheDir model (site_fs s) (site_fs s') out) as Hp by exact Hp end.
  pose proof (install_again cacheDir model t s Hok Hb Hm) as Hagain.
  pose proof (install_download cacheDir model progress t s Hok Hb Hm Hsafe) as Hdown.
  destruct (os_Stat _ _ _) as [e|] eqn:Es; [|exact Hdown]. destruct (Z.ltb_spec 0 (Size e)); [|exact Hdown].
  apply Hagain; [|done]. destruct (at_model cacheDir model Hne Hm) as (Hat & _). rewrite <- Hat. by eapply os_Stat_Ok.
Qed.
End model_jobs.

(** ** Worked examples *)

(** Texts for one job and one report. *)
Definition fixed_texts `{ServerCodecs} (job : option Job) (report : CompleteRequest)
    (decodes : Decode (A := CompleteRequest) "x" = (report, true)) : JobTexts := {|
  response_text _ := "x"; read_next _ := Some job; report_text _ := "x"; heartbeat_text _ := "x"; progress_text _ := "x";
  sendable_job j := j = job; sendable_report r := r = report;
  read_next_decodes j Hj := f_equal Some (eq_sym Hj);
  report_decodes r Hr := eq_trans decodes (f_equal (λ x, (x, true)) (eq_sym Hr)) |}.

Section demo.
#[local] Existing Instance silent_network.
#[local] Existing Instance no_texts.
#[local] Existing Instance access_codecs.
#[local] Existing Instance demo_files.
#[local] Instance jobs_world : World := world_at 5.
#[local] Instance jobs_platform : Platform := {| GOOS := "linux"; GOARCH := "amd64" |}.
#[local] Instance jobs_network : Network := {|
  net_base := "http://manager"; net_fault_of _ := RequestLost; net_context _ := Background |}.
#[local] Instance jobs_texts : JobTexts := fixed_texts None (mkCompleteRequest "" "" "") eq_refl.
(** The models' server sends two reads. *)
#[local] Instance jobs_host : Host := {|
  look_path _ := None; getenv _ := ""; home_dir := None; user_cache_dir := None; temp_name _ := "/tmp/x";
  web_get _ _ := Ok (mkWebReply 200 4 ["GG"; ""; "UF"]%string None);
  read_zip _ := Err "not a zip"%string; read_tar_gz _ := Err "not an archive"%string |}.
Definition demo_model : Model := nth 0 Catalog (mkModel "" "" "" "" "" "" "" "" "" 0 0 0 0 "" "").
Definition demo_manifest : ModelManifest :=
  manifest_of [] demo_model (ModelFilePath "c" demo_model) 4 5.
#[local] Instance jobs_discovery : DiscoveryCodecs := {|
  dc_manifest := fixed_codec demo_manifest; dc_rpc_state := opaque_codec _; dc_status := opaque_codec _ |}.
#[local] Instance jobs_codecs : ModelJobCodecs := {|
  mj_input := fixed_codec (mkDeleteInput (model_ID demo_model) ""); mj_cleanup := fixed_codec (mkCleanupInput "cache");
  mj_install := opaque_codec _; mj_delete := opaque_codec _; mj_repair := opaque_codec _; mj_cleaned := opaque_codec _ |}.
Definition demo_site (fs : tree) : Site := mkSite fs access_server 0.
Definition demo_cache : place := ["home"; "w"; "c"]%string.
(** A cache with what a download left behind and the directory of no model. *)
Definition demo_cached : tree :=
  <[demo_cache ++ ["models"; "gone"; "x"]%string := EFile "abc" 1]>
  (<[demo_cache ++ ["models"; "gone"]%string := EDir]>
  (<[demo_cache ++ ["models"; model_ID demo_model; "left.tmp"]%string := EFile "ab" 1]>
  (<[model_dir "c" demo_model := EDir]>
  (<[demo_cache ++ ["models"]%string := EDir]> (<[demo_cache := EDir]> demo_tree))))).
Lemma demo_cached_ok : tree_ok demo_cached.
Proof. apply tree_check_ok, (bool_decide_unpack _). by vm_compute. Qed.
Definition install (fs : tree) : Site * outcome (result worker_error string) :=
  executeModelInstallJob ["i"%string] "{}" "c"
    (modelInstallProgressWriter "" "c" "n" (access_job "j" JobInstall "n" "") 5) (demo_site fs).

(** An installation, and what the worker finds afterwards. *)
Example installed :
  let '(s, out) := install demo_tree in
  out = Returned (Ok ""%string) ∧ site_fs s !! model_place "c" demo_model = Some (EFile "GGUF" 5) ∧
  DiscoverInstalledModels [] (site_fs s) "c" = [sound_resource demo_model (ModelFilePath "c" demo_model) 4 5].
Proof. vm_compute. by split_and!. Qed.
(** A directory where the model's file should be is taken for the model: the
    job succeeds, and the worker has no model. *)
Example directory_installed :
  let '(s, out) := install (<[model_place "c" demo_model := EDir]> demo_cached) in
  out = Returned (Ok ""%string) ∧ DiscoverInstalledModels [] (site_fs s) "c" = [].
Proof. vm_compute. by split_and!. Qed.
(** A cleanup while an installation downloads takes its temporary file away, and
    the installation fails. *)
Example cleanup_breaks_install :
  let '(s1, out1) := executeModelInstallJob ["i"%string] "{}" "c"
    (Some (λ _ read _ s, (if read =? 4 then touch (λ fs, ((clean_cache ["k"%string] fs "c").1, None)) s else s, Returned tt)))
    (demo_site demo_tree) in
  out1 = Returned (Err (DiskFailed ENOENT)) ∧ site_fs s1 !! model_place "c" demo_model = None.
Proof. vm_compute. by split_and!. Qed.

Lemma install_reported_witness :
  let '(s, out) := install demo_cached in
  tree_ok (site_fs s) ∧ ∃ data, installed_at (site_fs s) "c" demo_model data ∧ data = "GGUF"%string.
Proof.
  pose proof (install_reported ["i"%string] "{}" "c" "" "n" (access_job "j" JobInstall "n" "") 5 (demo_site demo_cached)
    demo_cached_ok eq_refl) as Hi.
  fold (install demo_cached) in Hi. assert (Hout : (install demo_cached).2 = Returned (Ok ""%string)) by (vm_compute; reflexivity).
  destruct (install demo_cached) as [s out]. simpl in Hout. subst out. destruct Hi as [Hg Hi]. split; [apply Hg|].
  destruct Hi as [_ Hi]. destruct Hi as (data & Hin & _ & [[m Hm]|(resp & Hget & _ & ->)]); [by vm_compute|vm_compute in Hm; discriminate|].
  exists (all_reads resp). split; [exact Hin|]. vm_compute in Hget. injection Hget as <-. reflexivity.
Defined.
Lemma cleanup_keeps_models_witness :
  let fs := site_fs (install demo_cached).1 in
  let '(s', res) := executeModelCleanupJob ["k"%string] "" "c" (demo_site fs) in
  DiscoverInstalledModels [] (site_fs s') "c" = [sound_resource demo_model (ModelFilePath "c" demo_model) 4 5] ∧
  site_fs s' !! (demo_cache ++ ["models"; "gone"]%string) = None.
Proof.
  assert (Hok : tree_ok (site_fs (install demo_cached).1)) by (apply tree_check_ok, (bool_decide_unpack _); by vm_compute).
  pose proof (cleanup_keeps_models ["k"%string] "" "c" (demo_site (site_fs (install demo_cached).1)) Hok eq_refl (λ _, eq_refl)) as Hc.
  cbv zeta. assert (Hgone : site_fs (executeModelCleanupJob ["k"%string] "" "c" (demo_site (site_fs (install demo_cached).1))).1
    !! (demo_cache ++ ["models"; "gone"]%string) = None) by (vm_compute; reflexivity).
  destruct (executeModelCleanupJob _ _ _ _) as [s' res]. destruct Hc as (_ & _ & _ & Hsame). split; [|exact Hgone].
  rewrite Hsame. vm_compute. reflexivity.
Defined.
Lemma delete_removes_model_witness :
  let '(s', out) := executeModelDeleteJob ["d"%string] "{}" "c" (demo_site (site_fs (install demo_cached).1)) in
  out = Returned (Ok ""%string) ∧ DiscoverInstalledModels [] (site_fs s') "c" = [].
Proof.
  assert (Hok : tree_ok (site_fs (install demo_cached).1)) by (apply tree_check_ok, (bool_decide_unpack _); by vm_compute).
  pose proof (delete_removes_model ["d"%string] "{}" "c" (demo_site (site_fs (install demo_cached).1)) Hok eq_refl) as Hd.
  assert (Hout : (executeModelDeleteJob ["d"%string] "{}" "c" (demo_site (site_fs (install demo_cached).1))).2 = Returned (Ok ""%string))
    by (vm_compute; reflexivity).
  destruct (executeModelDeleteJob _ _ _ _) as [s' out]. simpl in Hout. subst out. split; [reflexivity|].
  destruct Hd as (req & model & Hreq & _ & _ & _ & Hsame). vm_compute in Hreq. injection Hreq as <-.
  rewrite Hsame. vm_compute. reflexivity.
Defined.
End demo.

(** A failure to look at the model's file makes the cleanup remove the manifest of
    an installed model: the worker then reports it as damaged. *)
Section faulty.
#[local] Existing Instance access_codecs.
#[local] Instance faulty_files : Files := {|
  wd := "/home/w"; wd_abs := eq_refl; io_part _ := 0%nat; dir_size := 4096;
  io_fault t := if bool_decide (t = ["k"; "stale"; model_ID demo_model; "stat"]%string) then Some "interrupted"%string else None |}.
Example cleanup_unreadable :
  let fs := site_fs (install demo_tree).1 in
  let '(fs', _) := clean_cache (H4 := faulty_files) (H6 := jobs_host) ["k"%string] fs "c" in
  fs' !! manifest_place "c" demo_model = None ∧ fs' !! model_place "c" demo_model = Some (EFile "GGUF" 5).
Proof. vm_compute. by split_and!. Qed.
End faulty.
