(* ===== verification/Execute.v ===== *)
(** * Executing jobs

    [cmd/cmesh/main.go]: the resource guard of a worker and the execution of each
    type of job.  The process that generates text is the instance of [Processes];
    the jobs on model files are in ModelJobs. *)

From S2P Require Import Prelude GoString GoSort GoFloat World Json Cdip Types Protocol Models State.
From S2P Require Import Conversations Scheduling JobStore ModelView RpcPool DistributedPlan Views Capacity.
From S2P Require Import Transport Coordinator Http Handlers Demo ModelHandlers Server Access.
From S2P Require Import MatrixJob Prompt HttpTransport Paths Files LlamaCpp Discovery ModelJobs.

(** ** The resource guard *)

Definition bytesToGB (bytes : Z) : float64 :=
  let k := f_of_Z 1024 in f_div (f_div (f_div (f_of_Z bytes) k) k) k.
Definition gb_text (bytes : Z) : string := f_fmt1 (bytesToGB bytes).

Definition guard_prefix : string := "worker resource guard rejected job: ".

Definition validateWorkerCanRunJob (job : Job) (snapshot : ResourceSnapshot) : option string :=
  let req := job_Requirements job in
  let cores := cpu_CoresAllowed (res_CPU snapshot) in
  let memory := mem_AllowedBytes (res_Memory snapshot) in
  let storage := res_Storage snapshot in
  let allowed := sto_AllowedBytes storage in
  let used := sto_UsedByModelsBytes storage in
  let free := sto_FreeBytes storage in
  let disk := req_DiskBytes req in
  if (0 <? req_CPUCores req) && (0 <? cores) && (cores <? req_CPUCores req) then
    Some (guard_prefix +:+ "requires " +:+ Itoa (req_CPUCores req) +:+ " CPU cores, worker allows " +:+ Itoa cores)
  else if (0 <? req_MemoryBytes req) && (0 <? memory) && (memory <? req_MemoryBytes req) then
    Some (guard_prefix +:+ "requires " +:+ gb_text (req_MemoryBytes req) +:+ " GB RAM, worker allows "
          +:+ gb_text memory +:+ " GB")
  else if (0 <? disk) && (0 <? allowed) && (allowed <? disk) then
    Some (guard_prefix +:+ "requires " +:+ gb_text disk +:+ " GB disk, worker allows " +:+ gb_text allowed +:+ " GB")
  else if str_eqb (job_Type job) JobInstall && (0 <? disk) && (0 <? allowed) && (0 <? used)
          && (allowed <? u64 (used + disk)) then
    let remaining := if used <? allowed then allowed - used else 0 in
    Some (guard_prefix +:+ "requires " +:+ gb_text disk +:+ " GB model quota, worker has "
          +:+ gb_text remaining +:+ " GB remaining model quota")
  else if (0 <? disk) && (0 <? free) && (free <? disk) then
    Some (guard_prefix +:+ "requires " +:+ gb_text disk +:+ " GB free disk, worker has " +:+ gb_text free +:+ " GB")
  else if negb (req_GPURequired req) && (req_VRAMBytes req =? 0) then None
  else if existsb (gpu_meets req) (res_GPU snapshot) then None
  else if 0 <? req_VRAMBytes req then
    Some (guard_prefix +:+ "requires compute GPU with " +:+ gb_text (req_VRAMBytes req) +:+ " GB VRAM")
  else Some (guard_prefix +:+ "requires compute GPU").

Definition isModelJobType (jobType : string) : bool :=
  bool_decide (jobType ∈ [JobInstall; JobDelete; JobGenerate; JobGenerateDistributedRPC; JobGenerateDistributed;
                          JobGenerateStage; JobRepair; JobCleanup]).

(** ** Results *)

Record distributedStageResult := mkStageResult {
  dsr_Kind : string;
  dsr_ParentJobID : string;
  dsr_StageIndex : Z;
  dsr_ModelID : string;
  dsr_Runtime : string;
  dsr_LayerStart : Z;
  dsr_LayerEnd : Z;
  dsr_UpstreamNodeID : string;
  dsr_DownstreamNodeID : string;
  dsr_Materialization : ShardMaterialization;
  dsr_SourceArtifact : string;
  dsr_TargetArtifact : string;
  dsr_ActivationProtocol : string;
}.

Record modelGenerateResult := mkModelGenerateResult {
  mgr_Kind : string;
  mgr_ModelID : string;
  mgr_Output : string;
  mgr_WorkerRuntime : string;
  mgr_ModelRuntime : string;
  mgr_RuntimeVersion : string;
  mgr_RPCEndpoints : list string;
  mgr_RPCEndpointCount : Z;
  mgr_ExecutionResult : DistributedRPCExecutionResult;
}.

(** Running a program in a directory: what it writes to both outputs, and how it ends within the
    time it is given; and [time.ParseDuration]. *)
Inductive run_end := Exited | DeadlineExceeded | RunFailed (text : string).
Class Processes := {
  run_process : Tag → string → string → list string → Z → list string * list string * run_end;
  parse_duration : string → option Z;
}.

Class WorkerCodecs := {
  wc_stage_input :: Json DistributedStageJobInput;
  wc_stage_result :: Json distributedStageResult;
  wc_generate :: Json GenerateInput;
  wc_generate_rpc :: Json DistributedRPCGenerateInput;
  wc_generate_result :: Json modelGenerateResult;
  wc_matrix_input :: Json matrixMultiplyInput;
  wc_matrix_result :: Json matrixMultiplyResult;
}.

(** ** Executing a job *)

Section jobs.
Context `{W : World} `{ServerCodecs} `{Dialer} `{ErrorTexts} `{Network} `{!JobTexts}.
Context `{Files} `{Platform} `{Host} `{RuntimeTexts} `{JsonBody githubRelease} `{DiscoveryCodecs} `{ModelJobCodecs}.
Context `{Machine} `{Processes} `{WorkerCodecs}.

Definition workerRuntimeReady (snapshot : ResourceSnapshot) (runtimeName : string) : bool :=
  existsb (λ runtime, str_eqb (rt_Name runtime) runtimeName && rt_Ready runtime) (res_Runtimes snapshot).
Definition workerModelReady (snapshot : ResourceSnapshot) (modelID : string) : bool :=
  existsb (λ model, str_eqb (mr_ID model) modelID && mr_Ready model) (res_Models snapshot).

Definition executeDistributedStageJob (input : string) (snapshot : ResourceSnapshot) : result worker_error string :=
  match Unmarshal (A := DistributedStageJobInput) input with
  | None => Err InvalidInput
  | Some req =>
      let shard := sji_Shard req in
      check (first_error [
        (blank (sji_ParentJobID req), ParentIDRequired);
        (blank (sji_ModelID req), ModelRequired);
        (negb (shard_matches (sji_Stage req) shard), ShardDiffers);
        (negb (bool_decide (shard_Materialization shard = ShardLogicalLayers)),
           UnsupportedShard (shard_Materialization shard));
        (blank (shard_Runtime shard), ShardRuntimeRequired);
        (negb (workerRuntimeReady snapshot (shard_Runtime shard)), RuntimeNotReady (shard_Runtime shard));
        (negb (workerModelReady snapshot (sji_ModelID req)), NotInstalled (sji_ModelID req))])
      (match PrepareStage (NewLogicalStageRuntime (shard_Runtime shard)) Background
               (mkStagePrepareRequest (sji_ParentJobID req) "worker-local-stage-prepare" (sji_ModelID req)
                  (sji_Stage req) shard (sji_UpstreamNodeID req) (sji_DownstreamNodeID req)) with
       | Err e => Err (StageRefused e)
       | Ok prepared =>
           Ok (Marshal (mkStageResult (sprr_Kind prepared) (sprr_ParentJobID prepared) (sprr_StageIndex prepared)
                 (sprr_ModelID prepared) (sprr_Runtime prepared) (sprr_LayerStart prepared) (sprr_LayerEnd prepared)
                 (sprr_UpstreamNodeID prepared) (sprr_DownstreamNodeID prepared) (sprr_Materialization prepared)
                 (sprr_SourceArtifact prepared) (sprr_TargetArtifact prepared) (sprr_ActivationProtocol prepared)))
       end)
  end.

(** *** Generation *)

Definition Minute : Z := 60 * Second.

Definition modelGenerateTimeout (maxTokens : Z) : Z :=
  let raw := TrimSpace (getenv "CMESH_MODEL_GENERATE_TIMEOUT") in
  let computed :=
    let timeout := i64 (2 * Minute + maxTokens * 2 * Second) in
    if 10 * Minute <? timeout then 10 * Minute else timeout in
  if str_eqb raw "" then computed
  else match parse_duration raw with
       | Some duration => if 0 <? duration then duration else computed
       | None => computed
       end.

Definition modelContextSize (model : Model) : Z :=
  let raw := TrimSpace (getenv "CMESH_MODEL_CONTEXT_SIZE") in
  let computed := adapter_ContextSize (modelAdapterFor model) model in
  if str_eqb raw "" then computed
  else match Atoi raw with
       | Some value => if 0 <? value then value else computed
       | None => computed
       end.

Definition ensureModelRuntime (t : Tag) (fs : tree) (modelRuntime cacheDir : string)
    : tree * result worker_error (string * RuntimeStatus) :=
  if str_eqb modelRuntime RuntimeLlamaCPP then
    match EnsureLlamaCPP t Background fs cacheDir with
    | (fs, (_, _, Some e)) => (fs, Err (RuntimeUnavailable e))
    | (fs, (binary, status, None)) => (fs, Ok (binary, status))
    end
  else (fs, Err (UnsupportedRuntime modelRuntime)).

Definition generate_tokens (model : Model) (requested : Z) : Z :=
  let bad n := (n <=? 0) || (2048 <? n) in
  if bad requested then
    let preset := qp_MaxTokens (QualityPresetFor model) in if bad preset then 512 else preset
  else requested.
Definition generate_temperature (model : Model) (requested : string) : string :=
  let temperature := TrimSpace requested in
  if str_eqb temperature "" then qp_Temperature (QualityPresetFor model) else temperature.

Definition generate_args (model : Model) (req : GenerateInput) (path rpcArg : string) : list string :=
  ["-m"; path; "-p"; modelPrompt model req; "-n"; Itoa (generate_tokens model (gen_MaxTokens req));
   "--temp"; generate_temperature model (gen_Temperature req); "--threads"; "1";
   "--ctx-size"; Itoa (modelContextSize model);
   "--log-disable"; "--no-display-prompt"; "--no-show-timings"; "--simple-io"; "--single-turn"]%string
  ++ (if str_eqb rpcArg "" then [] else ["--rpc"%string; rpcArg])
  ++ (modelStopSequences model ≫= λ stop, ["-r"%string; stop]).

(** What the process wrote to an output, cut at the limit of its buffer. *)
Definition buffered (limit : Z) (writes : list string) : string :=
  lb_Buffer (foldl (λ b p, (limitedBuffer_Write b p).1) (mkLimitedBuffer "" limit false) writes).

Definition no_execution : DistributedRPCExecutionResult :=
  mkDistributedRPCExecutionResult "" 0 0 "" "" "" "" "" "" "" [] 0 0 "".
Definition no_plan : DistributedRPCExecutionPlan :=
  mkDistributedRPCExecutionPlan "" "" 0 0 "" "" "" "" [] [] false "".

(** The text of the answer: the cleaned output, or all of it sanitized. *)
Definition answer_text (stdout : string) : outcome string :=
  match cleanLlamaOutput stdout with
  | Returned text => if str_eqb text "" then sanitizeModelText stdout else Returned text
  | Blocked => Blocked
  | Panicked => Panicked
  end.

(** The result for a text. *)
Definition generate_result (t : Tag) (model : Model) (version resultKind text : string) (endpoints : list string)
    (executionPlan : DistributedRPCExecutionPlan) : result worker_error string :=
  let result execution :=
    mkModelGenerateResult resultKind (model_ID model) text platform (model_Runtime model) version endpoints
      (Z.of_nat (length endpoints)) execution in
  if str_eqb resultKind JobGenerateDistributedRPC then
    let duration := time_Sub (w_clock (t ++ ["end"%string])) (w_clock (t ++ ["start"%string])) in
    let execution :=
      mkDistributedRPCExecutionResult DistributedRPCProtocol DistributedRPCProtocolVersion
        DistributedRPCPlanSchemaVersion (ep_ID executionPlan) resultKind (model_ID model) text
        (model_Runtime model) version platform endpoints (Z.of_nat (length endpoints))
        (Milliseconds duration) (FormatRFC3339 (w_clock (t ++ ["completed"%string]))) in
    match ValidateDistributedRPCExecutionResult execution executionPlan with
    | Some e => Err (InvalidResult e)
    | None => Ok (Marshal (result execution))
    end
  else Ok (Marshal (result no_execution)).

(** The program is run and its output turned into the answer. *)
Definition run_model (t : Tag) (model : Model) (req : GenerateInput) (path cli version : string) (endpoints : list string)
    (resultKind : string) (executionPlan : DistributedRPCExecutionPlan) : outcome (result worker_error string) :=
  let args := generate_args model req path (Join endpoints ",") in
  let timeout := modelGenerateTimeout (generate_tokens model (gen_MaxTokens req)) in
  let '(stdout, stderr, ended) := run_process (t ++ ["run"%string]) (PathDir cli) cli args timeout in
  match ended with
  | DeadlineExceeded => Returned (Err GenerateTimedOut)
  | RunFailed text => Returned (Err (GenerateFailed text (TrimSpace (buffered (16 * 1024) stderr))))
  | Exited =>
      match answer_text (buffered (64 * 1024) stdout) with
      | Blocked => Blocked
      | Panicked => Panicked
      | Returned text =>
          Returned (if str_eqb text "" then Err EmptyResponse
                    else generate_result t model version resultKind text endpoints executionPlan)
      end
  end.

Definition executeModelGenerate (t : Tag) (req : GenerateInput) (cacheDir : string) (rpcEndpoints : list string)
    (resultKind : string) (executionPlan : DistributedRPCExecutionPlan) : job_m (result worker_error string) := λ s,
  if blank (gen_Prompt req) then (s, Returned (Err PromptRequired)) else
  let endpoints := clean_loop ∅ rpcEndpoints in
  match MustFind (gen_ModelID req) with
  | Err id => (s, Returned (Err (UnknownModel id)))
  | Ok model =>
      let path := modelPath cacheDir model in
      match os_Stat (t ++ ["stat"%string]) (site_fs s) path with
      | Err e => (s, Returned (Err (if IsNotExist e then NotInstalled (model_ID model) else StatFailed e)))
      | Ok _ =>
          match ensureModelRuntime (t ++ ["runtime"%string]) (site_fs s) (model_Runtime model) cacheDir with
          | (fs, Err e) => (s <| site_fs := fs |>, Returned (Err e))
          | (fs, Ok (cli, status)) =>
              (s <| site_fs := fs |>, run_model t model req path cli (rs_Version status) endpoints resultKind executionPlan)
          end
      end
  end.

Definition executeModelGenerateJob (t : Tag) (input cacheDir : string) : job_m (result worker_error string) :=
  match Unmarshal (A := GenerateInput) input with
  | None => mreturn (Err InvalidInput)
  | Some req => executeModelGenerate t req cacheDir [] JobGenerate no_plan
  end.

Definition executeModelDistributedRPCGenerateJob (t : Tag) (input cacheDir nodeID : string)
    : job_m (result worker_error string) :=
  match Unmarshal (A := DistributedRPCGenerateInput) input with
  | None => mreturn (Err InvalidInput)
  | Some req =>
      match ValidateDistributedRPCExecutionPlan (drg_ExecutionPlan req) (drg_ModelID req) nodeID with
      | Some e => mreturn (Err (InvalidPlan e))
      | None =>
          executeModelGenerate t
            (mkGenerateInput (drg_ModelID req) (drg_Prompt req) (drg_Messages req) (drg_SystemPrompt req)
               (drg_ConversationID req) (drg_MaxTokens req) (drg_Temperature req) "")
            cacheDir (ep_RPCEndpoints (drg_ExecutionPlan req)) JobGenerateDistributedRPC (drg_ExecutionPlan req)
      end
  end.

(** [executeWorkerJob]: the guard, then the executor of the type.  A progress
    writer starts without a last report. *)
Definition with_writer (job : job_m (result worker_error string)) : job_m (result worker_error string) :=
  λ s, job (s <| site_last := 0 |>).
Definition executeWorkerJob (t : Tag) (job : Job) (snapshot : ResourceSnapshot) (cacheDir nodeID : string)
    (startedAt : Time) (managerURL : string) : job_m (result worker_error string) :=
  match validateWorkerCanRunJob job snapshot with
  | Some text => mreturn (Err (GuardRejected text))
  | None =>
      let jobType := job_Type job in
      let input := job_Input job in
      let progress := modelInstallProgressWriter managerURL cacheDir nodeID job startedAt in
      if str_eqb jobType "echo" then mreturn (Ok input)
      else if str_eqb jobType "compute.matrix_multiply" then
        mreturn (match executeMatrixMultiplyJob input with Ok text => Ok text | Err e => Err (MatrixRefused e) end)
      else if str_eqb jobType JobInstall then with_writer (executeModelInstallJob t input cacheDir progress)
      else if str_eqb jobType JobRepair then with_writer (executeModelRepairJob t input cacheDir progress)
      else if str_eqb jobType JobCleanup then executeModelCleanupJob t input cacheDir
      else if str_eqb jobType JobDelete then executeModelDeleteJob t input cacheDir
      else if str_eqb jobType JobGenerate then executeModelGenerateJob t input cacheDir
      else if str_eqb jobType JobGenerateDistributedRPC then executeModelDistributedRPCGenerateJob t input cacheDir nodeID
      else if str_eqb jobType JobGenerateDistributed then mreturn (Err CoordinatorOwned)
      else if str_eqb jobType JobGenerateStage then mreturn (executeDistributedStageJob input snapshot)
      else mreturn (Err (UnsupportedJobType jobType))
  end.
End jobs.

