(* ===== verification/Worker.v ===== *)
(** * The worker's rounds

    [cmd/cmesh/main.go], the part of a worker that takes jobs from the manager,
    executes them, reports back and writes down what it does
    ([internal/workerstatus/status.go]), and the runner that keeps as many of these
    rounds going as the worker has slots. *)

From S2P Require Import Prelude GoString GoSort GoFloat World Json Cdip Types Protocol Models State.
From S2P Require Import Conversations Scheduling JobStore ModelView RpcPool DistributedPlan Views Capacity.
From S2P Require Import Transport Coordinator Http Handlers Demo ModelHandlers Server Access.
From S2P Require Import MatrixJob Prompt HttpTransport Paths Files LlamaCpp Discovery ModelJobs Execute.

(** ** Taking jobs from the manager *)

Inductive poll_error :=
  | PollCallFailed (e : transport_error)
  | ManagerReturned (status : Z)
  | PollUndecodable.

Section polling.
Context `{W : World} `{ServerCodecs} `{Dialer} `{ErrorTexts} `{Network} `{!JobTexts}.
Context `{Files} `{Platform} `{Host} `{RuntimeTexts} `{JsonBody githubRelease} `{DiscoveryCodecs} `{ModelJobCodecs}.
Context `{Machine} `{Processes} `{WorkerCodecs} `{WorkerTexts}.

(** [http.Get] and [http.Post] of the default client; a reply with another status
    than 2xx is an error. *)
Definition call_manager (t : Tag) (method url body : string) (srv : Server)
    : Server * outcome (result poll_error Response) :=
  let hdrs := if str_eqb method "POST" then {["Content-Type"%string := "application/json"%string]} else ∅ in
  match Do t Background method url hdrs body srv with
  | (srv, Blocked) => (srv, Blocked)
  | (srv, Panicked) => (srv, Panicked)
  | (srv, Returned (Err e)) => (srv, Returned (Err (PollCallFailed e)))
  | (srv, Returned (Ok resp)) =>
      (srv, Returned (if bad_status resp then Err (ManagerReturned (rs_Status resp)) else Ok resp))
  end.

Definition sendHeartbeat (t : Tag) (managerURL nodeID : string) (snapshot : ResourceSnapshot) (srv : Server)
    : Server * outcome (result poll_error Response) :=
  call_manager t "POST" (managerURL +:+ "/v1/workers/heartbeat")
    (heartbeat_text (mkHeartbeat nodeID (w_clock (t ++ ["now"%string])) snapshot)) srv.

(** The report on a job, and the status file afterwards. *)
Definition job_report (nodeID : string) (res : result worker_error string) : CompleteRequest :=
  match res with
  | Ok text => mkCompleteRequest nodeID text ""
  | Err e => mkCompleteRequest nodeID "" (worker_text e)
  end.
Definition running_status (nodeID : string) (job : Job) (started : Time) : JobStatus :=
  mkJobStatus "running" nodeID (job_ID job) (job_Type job) (job_Input job) "" "" 0 0 f_zero "" (Some started) None 0.
Definition finished_status (nodeID : string) (job : Job) (report : CompleteRequest) (started finished : Time)
    : JobStatus :=
  mkJobStatus (if str_eqb (comp_Error report) "" then "succeeded" else "failed") nodeID (job_ID job) (job_Type job)
    (job_Input job) (comp_Result report) (comp_Error report) 0 0 f_zero "" (Some started) (Some finished) 0.
(** Failures to write the status are only printed. *)
Definition write_status (t : Tag) (cacheDir : string) (status : JobStatus) : job_m unit := λ s,
  (touch (λ fs, status_Write t fs cacheDir status) s, Returned tt).
Definition on_manager {A : Type} (call : Server → Server * outcome A) : job_m A := λ s,
  let '(srv, out) := call (site_srv s) in (s <| site_srv := srv |>, out).

(** After a reported job: for a model job, a heartbeat with the models there are
    now, whose failure is only printed. *)
Definition refresh_models (t : Tag) (managerURL nodeID cacheDir : string) (job : Job) (snapshot : ResourceSnapshot)
    : job_m unit := λ s,
  if isModelJobType (job_Type job) then
    let refreshed := mkResourceSnapshot (res_CPU snapshot) (res_Memory snapshot) (res_GPU snapshot)
      (res_Storage snapshot) (res_JobSlots snapshot)
      (DiscoverInstalledModels (t ++ ["models"%string]) (site_fs s) cacheDir) (res_Runtimes snapshot) in
    mbind (on_manager (sendHeartbeat (t ++ ["refresh"%string]) managerURL nodeID refreshed)) (λ _, mreturn tt) s
  else (s, Returned tt).

(** [pollAndExecuteJob] from the moment a job is there. *)
Definition report_job (t : Tag) (managerURL nodeID cacheDir : string) (snapshot : ResourceSnapshot) (job : Job)
    (startedAt : Time) (res : result worker_error string) : job_m (result poll_error bool) :=
  let report := job_report nodeID res in
  mbind (on_manager (call_manager (t ++ ["complete"%string]) "POST"
           (managerURL +:+ "/v1/jobs/" +:+ job_ID job +:+ "/complete") (report_text report))) (λ answer,
  match answer with
  | Err e => mreturn (Err e)
  | Ok _ =>
      mbind (write_status (t ++ ["done"%string]) cacheDir
               (finished_status nodeID job report startedAt (w_clock (t ++ ["finished"%string])))) (λ _,
      mbind (refresh_models t managerURL nodeID cacheDir job snapshot) (λ _, mreturn (Ok true)))
  end).
Definition execute_and_report (t : Tag) (managerURL nodeID cacheDir : string) (snapshot : ResourceSnapshot) (job : Job)
    : job_m (result poll_error bool) :=
  let startedAt := w_clock (t ++ ["started"%string]) in
  mbind (write_status (t ++ ["running"%string]) cacheDir (running_status nodeID job startedAt)) (λ _,
  mbind (executeWorkerJob (t ++ ["execute"%string]) job snapshot cacheDir nodeID startedAt managerURL) (λ res,
  report_job t managerURL nodeID cacheDir snapshot job startedAt res)).

Definition pollAndExecuteJob (t : Tag) (managerURL nodeID cacheDir : string) (snapshot : ResourceSnapshot)
    : job_m (result poll_error bool) :=
  mbind (on_manager (call_manager (t ++ ["next"%string]) "GET"
           (managerURL +:+ "/v1/workers/" +:+ nodeID +:+ "/jobs/next") "")) (λ answer,
  match answer with
  | Err e => mreturn (Err e)
  | Ok resp =>
      match read_next (response_text (rs_Body resp)) with
      | None => mreturn (Err PollUndecodable)
      | Some None => mbind (write_status (t ++ ["idle"%string]) cacheDir (idle_status nodeID)) (λ _, mreturn (Ok false))
      | Some (Some job) => execute_and_report t managerURL nodeID cacheDir snapshot job
      end
  end).
End polling.

(** ** The job runner

    As many polls run at once as the worker has slots; the first error stops the
    polling. *)

Record workerJobRunner := mkRunner {
  run_slots : Z;
  run_active : Z;
  run_lastErr : option poll_error;
}.
Definition newWorkerJobRunner (slots : Z) : workerJobRunner :=
  mkRunner (if slots <=? 0 then 1 else slots) 0 None.

(** The number of polls started, or the recorded error. *)
Definition PollAvailable (r : workerJobRunner) : workerJobRunner * result poll_error Z :=
  let available := i64 (run_slots r - run_active r) in
  match run_lastErr r with
  | Some e => (r, Err e)
  | None =>
      if available <=? 0 then (r, Ok 0)
      else (mkRunner (run_slots r) (i64 (run_active r + available)) None, Ok available)
  end.
Definition LastError (r : workerJobRunner) : option poll_error := run_lastErr r.
(** The end of [pollOne]. *)
Definition poll_done (r : workerJobRunner) (err : option poll_error) : workerJobRunner :=
  mkRunner (run_slots r) (i64 (run_active r - 1))
    (match run_lastErr r, err with None, Some e => Some e | last, _ => last end).

(** The runner and the polls in flight: the main loop polls, a poll ends. *)
Inductive runner_step : workerJobRunner * Z → workerJobRunner * Z → Prop :=
  | rs_poll r n r' started : PollAvailable r = (r', Ok started) → runner_step (r, n) (r', n + started)
  | rs_refused r n r' e : PollAvailable r = (r', Err e) → runner_step (r, n) (r', n)
  | rs_done r n err : 0 < n → runner_step (r, n) (poll_done r err, n - 1).

(** ** The guard and the scheduler agree *)

(** The installed models and the new one exceed what the worker allows. *)
Definition over_quota (job : Job) (snapshot : ResourceSnapshot) : Prop :=
  let storage := res_Storage snapshot in
  let disk := req_DiskBytes (job_Requirements job) in
  job_Type job = JobInstall ∧ 0 < disk ∧ 0 < sto_AllowedBytes storage ∧ 0 < sto_UsedByModelsBytes storage ∧
  sto_AllowedBytes storage < u64 (sto_UsedByModelsBytes storage + disk).

Lemma met_requirements_guard node job :
  nodeMeetsRequirements node (job_Requirements job) = true →
  validateWorkerCanRunJob job (node_Resources node) = None ↔ ¬ over_quota job (node_Resources node).
Proof.
  unfold nodeMeetsRequirements, validateWorkerCanRunJob, over_quota. cbv zeta.
  set (req := job_Requirements job). set (r := node_Resources node). intros Hm.
  repeat (match type of Hm with (if ?c then false else _) = true => destruct c eqn:?; [done|] end).
  assert (∀ a b c, a && c = false → a && b && c = false) as Hweak by (by intros [] [] []).
  rewrite (Hweak (0 <? req_CPUCores req) (0 <? cpu_CoresAllowed (res_CPU r))) by done.
  rewrite (Hweak (0 <? req_MemoryBytes req) (0 <? mem_AllowedBytes (res_Memory r))) by done.
  rewrite (Hweak (0 <? req_DiskBytes req) (0 <? sto_AllowedBytes (res_Storage r))) by done.
  destruct (_ && (sto_AllowedBytes _ <? u64 _)) eqn:Eq.
  - rewrite !andb_true_iff, bool_decide_eq_true, !Z.ltb_lt in Eq. split; [done|]. intros []. tauto.
  - split; [|intros _].
    + intros _ (H1 & H2 & H3 & H4 & H5). rewrite bool_decide_eq_true_2 in Eq by done.
      apply Z.ltb_lt in H2, H3, H4, H5. by rewrite H2, H3, H4, H5 in Eq.
    + destruct (negb _ && _); [done|]. by rewrite Hm.
Qed.

(** (safety). A worker does not refuse a job the manager placed on it: the
    worker picked for a job is a node of the manager whose reported resources pass
    the worker's own guard, except for a model that no longer fits beside the
    models already installed, which only the worker looks at. *)
Theorem placed_jobs_pass_guard `{World} (s : State) (t : Tag) (job : Job) (excluded : gset string) :
  nodes_wf (st_nodes s) →
  let w := pickWorkerExcludingLocked s t (job_Requirements job) excluded in
  w ≠ ""%string →
  ∃ node, st_nodes s !! w = Some node ∧ w ∉ excluded ∧
    (validateWorkerCanRunJob job (node_Resources node) = None ↔ ¬ over_quota job (node_Resources node)).
Proof.
  intros Hwf w Hw. destruct (pick_spec s t (job_Requirements job) excluded Hwf) as [[Hno _]|Hpick]; [done|].
  destruct Hpick as (node & Hn & Hid & _ & [Hel Hex] & _). exists node. split; [done|]. split; [by rewrite Hid in Hex|].
  apply met_requirements_guard, Hel.
Qed.

(** ** The runner keeps to its slots *)

Definition runner_inv (slots : Z) (x : workerJobRunner * Z) : Prop :=
  run_slots x.1 = slots ∧ run_active x.1 = x.2 ∧ 0 ≤ x.2 ≤ slots.

(** C35 (invariant). The job runner never has more polls in flight than slots: its
    count of active polls is exact, whatever polls end and however they end; a
    round starts all that are missing, and none after an error, which stays the
    first one. *)
Theorem runner_within_slots (slots : Z) (r : workerJobRunner) (n : Z) :
  slots < 2^63 → rtc runner_step (newWorkerJobRunner slots, 0) (r, n) →
  run_active r = n ∧ 0 ≤ n ≤ run_slots r ∧
  match PollAvailable r with
  | (r', Ok started) => run_lastErr r = None ∧ n + started = run_slots r ∧ run_active r' = run_slots r
  | (r', Err e) => run_lastErr r = Some e ∧ r' = r
  end ∧
  ∀ r' n', runner_step (r, n) (r', n') → ∀ e, run_lastErr r = Some e → run_lastErr r' = Some e ∧ n' ≤ n.
Proof.
  intros Hs Hrun. set (k := if slots <=? 0 then 1 else slots).
  assert (Hk : 1 ≤ k < 2^63) by (unfold k; destruct (Z.leb_spec slots 0); lia).
  assert (Hpoll : ∀ r n, runner_inv k (r, n) → match PollAvailable r with
    | (r', Ok started) => run_lastErr r = None ∧ n + started = k ∧ runner_inv k (r', k)
    | (r', Err e) => run_lastErr r = Some e ∧ r' = r end).
  { intros r0 n0 (Hsl & Ha & Hb). simpl in *. unfold PollAvailable. rewrite (i64_small (run_slots r0 - run_active r0)) by lia.
    destruct (run_lastErr r0) as [e|] eqn:Ee; [done|]. destruct (Z.leb_spec (run_slots r0 - run_active r0) 0).
    - split_and!; [done|lia|]. split_and!; simpl; lia.
    - rewrite i64_small by lia. split_and!; [done|lia|]. split_and!; simpl; lia. }
  assert (Hstep : ∀ x y, runner_step x y → runner_inv k x → runner_inv k y).
  { intros x y Hxy Hi. destruct Hxy as [r0 n0 r1 started Hp|r0 n0 r1 e Hp|r0 n0 err Hn].
    - specialize (Hpoll _ _ Hi). rewrite Hp in Hpoll. destruct Hpoll as (_ & -> & ?). done.
    - specialize (Hpoll _ _ Hi). rewrite Hp in Hpoll. by destruct Hpoll as (_ & ->).
    - destruct Hi as (Hsl & Ha & Hb). simpl in *. split_and!; simpl; [done|rewrite i64_small; lia|lia..]. }
  assert (runner_inv k (r, n)) as Hi.
  { assert (runner_inv k (newWorkerJobRunner slots, 0)) as H0 by (split_and!; simpl; [done|done|lia..]).
    remember (newWorkerJobRunner slots, 0) as x0 eqn:E0. remember (r, n) as x1 eqn:E1. clear E0 E1.
    induction Hrun as [x|x y z Hxy _ IH]; [done|]. eauto. }
  pose proof Hi as (Hsl & Ha & Hb). simpl in *. split_and!; [done|lia|lia| |].
  - specialize (Hpoll _ _ Hi). destruct (PollAvailable r) as [r' [st|e]]; [|done].
    destruct Hpoll as (? & ? & ? & ? & _). simpl in *. split_and!; [done|lia|lia].
  - intros r' n' Hxy e He. inversion Hxy as [? ? ? ? Hp|? ? ? ? Hp|? ? err]; subst.
    + unfold PollAvailable in Hp. by rewrite He in Hp.
    + unfold PollAvailable in Hp. rewrite He in Hp. injection Hp as <- _. by split.
    + simpl. rewrite He. split; [done|lia].
Qed.

(** ** One round of a worker against the manager *)

Section round.
Context `{W : World} `{ServerCodecs} `{Dialer} `{ErrorTexts} `{Network} `{!JobTexts}.
Context `{Files} `{Platform} `{Host} `{RuntimeTexts} `{JsonBody githubRelease} `{DiscoveryCodecs} `{ModelJobCodecs}.
Context `{Machine} `{Processes} `{WorkerCodecs} `{WorkerTexts}.

Lemma Do_carried t method target hdrs body srv :
  net_fault_of t = Carried → no_sep question target →
  Do t Background method (net_base +:+ target) hdrs body srv =
  let '(srv', out) := run_prog (ServeHTTP (W := sub_world t)
    (mkRequest method target net_base false ∅ hdrs ∅ body (net_context t))) srv in
  (srv', match out with Returned resp => Returned (Ok resp) | Panicked => Returned (Err CallFailed) | Blocked => Blocked end).
Proof.
  intros Hf Hq. unfold Do. cbn [ctx_done Background ctx_deadline].
  rewrite (proj2 (drop_prefix_Some net_base (net_base +:+ target) target) eq_refl), Hf.
  unfold parse_target. rewrite Split_whole by done. by destruct (run_prog _ srv) as [srv' [?| |]].
Qed.

Lemma plain_target front id back :
  no_sep question front → no_sep question back → plain id → no_sep question (front +:+ id +:+ back).
Proof. intros Hf Hb [_ Hp]. by repeat apply no_sep_app; [|apply plain_no_sep|]. Qed.

(** The header of a request by its method. *)
Definition call_headers (method : string) : gmap string string :=
  if str_eqb method "POST" then {["Content-Type"%string := "application/json"%string]} else ∅.

Lemma call_carried t method target body srv :
  net_fault_of t = Carried → no_sep question target →
  call_manager t method (net_base +:+ target) body srv =
  let '(srv', out) := run_prog (ServeHTTP (W := sub_world t)
    (mkRequest method target net_base false ∅ (call_headers method) ∅ body (net_context t))) srv in
  (srv', match out with
         | Returned resp => Returned (if bad_status resp then Err (ManagerReturned (rs_Status resp)) else Ok resp)
         | Panicked => Returned (Err (PollCallFailed CallFailed))
         | Blocked => Blocked
         end).
Proof.
  intros Hf Hq. unfold call_manager. rewrite Do_carried by done. cbv zeta. unfold call_headers.
  by destruct (run_prog _ srv) as [srv' [resp| |]].
Qed.

Definition get_request (t : Tag) (nodeID : string) : Request :=
  mkRequest "GET" ("/v1/workers/" +:+ nodeID +:+ "/jobs/next") net_base false ∅ ∅ ∅ "" (net_context t).

Lemma next_run t nodeID srv :
  plain nodeID →
  run_prog (ServeHTTP (W := sub_world t) (get_request t nodeID)) srv =
  let '(s', job) := NextJobForWorker (H := sub_world (W := sub_world t) ["next"]) (srv_state srv) nodeID in
  (srv <| srv_state := s' |>, Returned (reply 200 (BodyNextJob job))).
Proof.
  intros [Hne Hp]. rewrite (worker_route (W := sub_world t) (get_request t nodeID) nodeID eq_refl).
  unfold handleWorkerRoutes. cbn [rq_Path get_request]. rewrite TrimPrefix_app.
  assert (Split (nodeID +:+ "/jobs/next") slash = [nodeID; "jobs"; "next"]%string) as ->.
  { change (nodeID +:+ "/jobs/next") with (nodeID +:+ String slash "jobs/next").
    rewrite Split_head by (apply plain_no_sep; [reflexivity|done]). reflexivity. }
  unfold handleWorkerNextJob, store. change (is_get (get_request t nodeID)) with true.
  cbn [negb guard prog_bind run_prog].
  by destruct (NextJobForWorker (H := sub_world (W := sub_world t) ["next"]) (srv_state srv) nodeID).
Qed.

Definition complete_request (t : Tag) (hdrs : gmap string string) (jobID body : string) : Request :=
  mkRequest "POST" ("/v1/jobs/" +:+ jobID +:+ "/complete") net_base false ∅ hdrs ∅ body (net_context t).

Lemma complete_handled t hdrs jobID body srv :
  plain jobID →
  run_prog (ServeHTTP (W := sub_world t) (complete_request t hdrs jobID body)) srv =
  run_prog (handleJobComplete (W := sub_world t) (complete_request t hdrs jobID body) jobID) srv.
Proof.
  intros [Hne Hp]. rewrite (complete_route (W := sub_world t) (complete_request t hdrs jobID body) jobID eq_refl).
  unfold handleJob. cbn [rq_Path complete_request]. rewrite TrimPrefix_app.
  rewrite bool_decide_eq_false_2 by (by destruct jobID). cbn [guard].
  change (jobID +:+ "/complete") with (jobID +:+ String slash "complete").
  rewrite Split_head by (apply plain_no_sep; [reflexivity|done]). done.
Qed.

(** What the manager makes of the report on a job it runs. *)
Inductive reported (nodeID : string) (job : Job) (res : result worker_error string) (s' : State) : Prop :=
  | reported_success text j' : res = Ok text → job_Type job ≠ JobGenerateStage →
      st_jobs s' !! job_ID job = Some j' → job_Status j' = StatusSucceeded → job_Result j' = text →
      reported nodeID job res s'
  | reported_failure e j' j'' : res = Err e → job_Type job ≠ JobGenerateStage →
      fail_moved nodeID job j' → sched_change j' j'' → st_jobs s' !! job_ID job = Some j'' →
      reported nodeID job res s'
  | reported_stage_ready text j' : res = Ok text → job_Type job = JobGenerateStage →
      st_jobs s' !! job_ID job = Some j' → job_CDIPState j' = StageReady → job_Status j' = job_Status job →
      reported nodeID job res s'
  | reported_stage_failed e j' : res = Err e → job_Type job = JobGenerateStage →
      st_jobs s' !! job_ID job = Some j' → job_CDIPState j' = StageFailed → job_Status j' = StatusFailed →
      job_Error j' = TrimSpace (worker_text e) → reported nodeID job res s'.

(** A job the worker holds: running, its own, and, when it is a stage, being
    prepared. *)
Definition held (nodeID : string) (job : Job) (s : State) : Prop :=
  st_jobs s !! job_ID job = Some job ∧ job_Status job = StatusRunning ∧ job_AssignedTo job = nodeID ∧
  (job_Type job = JobGenerateStage → job_CDIPState job = StagePreparing).

(** The result of a stage names the kind the manager looks for. *)
Definition stage_kind_text : Prop := ∀ text, (∃ r : distributedStageResult, text = Marshal r ∧ dsr_Kind r = "cdip.stage_ready"%string) →
  Unmarshal (A := cdipStageWorkerResult) text = Some (mkStageWorkerResult "cdip.stage_ready").

Lemma stage_execution_kind input snapshot text :
  executeDistributedStageJob input snapshot = Ok text →
  ∃ r : distributedStageResult, text = Marshal r ∧ dsr_Kind r = "cdip.stage_ready"%string.
Proof.
  unfold executeDistributedStageJob. destruct (Unmarshal input) as [req|]; [|done]. cbv zeta. unfold check.
  destruct (first_error _); [done|]. destruct (PrepareStage _ _ _) as [prepared|e] eqn:E; [|done].
  intros [= <-]. eexists. split; [done|]. cbn. unfold PrepareStage, check in E.
  destruct (first_error _); [done|]. cbv zeta in E. destruct (StagePrepare_Validate _); [done|]. by injection E as <-.
Qed.

Lemma complete_reports t hdrs nodeID job res srv :
  stage_kind_text → state_wf (srv_state srv) → plain (job_ID job) → nodeID ≠ "" →
  held nodeID job (srv_state srv) → job_Type job ≠ JobDelete → sendable_report (job_report nodeID res) →
  (job_Type job = JobGenerateStage → ∀ text, res = Ok text → ∃ r : distributedStageResult, text = Marshal r ∧
    dsr_Kind r = "cdip.stage_ready"%string) →
  ∃ srv' resp, run_prog (ServeHTTP (W := sub_world t)
      (complete_request t hdrs (job_ID job) (report_text (job_report nodeID res)))) srv = (srv', Returned resp) ∧
    rs_Status resp = 200 ∧ reported nodeID job res (srv_state srv').
Proof.
  intros Hkind Hwf Hplain Hnode (Hj & Hrun & Hto & Hstage) Hdel Hsend Hres.
  rewrite complete_handled by done. unfold handleJobComplete, decoded.
  cbn [rq_Body complete_request]. rewrite (report_decodes _ Hsend).
  assert (comp_NodeID (job_report nodeID res) = nodeID) as Hcn by by destruct res.
  rewrite Hcn, bool_decide_eq_false_2 by done. cbn [negb guard].
  change (is_post (complete_request t hdrs (job_ID job) (report_text (job_report nodeID res)))) with true.
  cbn [negb guard]. unfold handleCDIPStageComplete, call_Job, look, FindJob. rewrite Hcn. cbn [prog_bind run_prog].
  rewrite Hj. destruct (decide (job_Type job = JobGenerateStage)) as [Ht|Ht].
  - rewrite Ht, Hto, !bool_decide_eq_true_2 by done. cbn [negb orb].
    assert (Hup : ∀ (W' : World) next detail, CanTransition StagePreparing next = true →
      UpdateCDIPStageState (H := W') (srv_state srv) (job_ID job) next detail =
      ((srv_state srv) <| st_jobs := <[job_ID job := stage_job job next detail (w_clock (World := W') ["now"])]> (st_jobs (srv_state srv)) |>,
       Some (stage_job job next detail (w_clock (World := W') ["now"])))).
    { intros W' next detail Hcan. unfold UpdateCDIPStageState. rewrite Hj, bool_decide_eq_false_2 by (by intros []).
      unfold stage_current. rewrite (Hstage Ht). rewrite bool_decide_eq_false_2, Hcan by done. cbn [negb].
      destruct (stage_job_spec job next detail (w_clock ["now"])) as (Hc & _).
      apply (f_equal core_ID) in Hc. simpl in Hc. by rewrite Hc. }
    destruct res as [text|e].
    + destruct (Hres Ht text eq_refl) as (r & -> & Hr). cbn [job_report comp_Error comp_Result].
      rewrite blank_empty. cbn [negb]. rewrite (Hkind (Marshal r)) by eauto. cbn [swr_Kind].
      rewrite bool_decide_eq_true_2 by done. cbn [negb]. unfold call_UpdateCDIPStageState, store.
      cbn [prog_bind run_prog]. rewrite Hup by done. cbn [prog_bind run_prog].
      eexists _, _. split; [reflexivity|]. split; [done|].
      eapply reported_stage_ready; [done..|cbn; by rewrite lookup_insert_eq|done|done].
    + cbn [job_report comp_Error comp_Result]. rewrite worker_text_some. cbn [negb].
      unfold call_UpdateCDIPStageState, store. cbn [prog_bind run_prog]. rewrite Hup by done. cbn [prog_bind run_prog].
      eexists _, _. split; [reflexivity|]. split; [done|].
      eapply reported_stage_failed; [done..|cbn; by rewrite lookup_insert_eq|done|done|done].
  - rewrite bool_decide_eq_false_2 by done. cbn [negb orb prog_bind run_prog].
    unfold call_CompleteJob. cbn [prog_bind run_prog].
    match goal with |- context [CompleteJob (H := ?W') ?s ?id ?req] =>
      pose proof (CompleteJob_completion (H := W') s id req Hwf) as Hc; destruct (CompleteJob s id req) as [s' answer]
    end.
    rewrite Hj in Hc. destruct Hc as [Hne|?|? ? Hnr|s' j' j'' _ _ He Hmv Hl Hsc|s' j' _ _ He Hst _ _ Hr Hl|s' _ _ _ Hd]; try congruence.
    + eexists _, _. split; [reflexivity|]. split; [done|]. rewrite Hcn in Hmv. destruct res as [text|e]; [done|].
      by eapply reported_failure.
    + eexists _, _. split; [reflexivity|]. split; [done|]. destruct res as [text|e].
      * eapply reported_success; [done..| |by apply Hr]; done.
      * cbn in He. pose proof (worker_text_some e) as Hb. by rewrite He in Hb.
Qed.

(** The heartbeat after the report: it only ever is the store's heartbeat. *)
Definition maybe_heartbeat (s s' : State) : Prop :=
  s' = s ∨ ∃ (W' : World) hb, s' = (HeartbeatOp (H := W') s hb).1.

Lemma heartbeat_run t hdrs body srv :
  ∃ srv' resp, run_prog (ServeHTTP (W := sub_world t)
      (mkRequest "POST" "/v1/workers/heartbeat" net_base false ∅ hdrs ∅ body (net_context t))) srv =
    (srv', Returned resp) ∧ maybe_heartbeat (srv_state srv) (srv_state srv').
Proof.
  set (q := mkRequest _ _ _ _ _ _ _ _ _).
  change (ServeHTTP (W := sub_world t) q) with (handleWorkerHeartbeat (W := sub_world t) q).
  unfold handleWorkerHeartbeat. change (is_post q) with true. cbn [negb guard].
  unfold decoded. destruct (Decode (rq_Body q)) as [hb ok].
  destruct ok; cbn [negb guard]; [|eexists _, _; split; [done|by left]].
  destruct (str_eqb (hb_NodeID hb) ""); cbn [guard]; [eexists _, _; split; [done|by left]|].
  unfold store. cbn [prog_bind run_prog].
  destruct (HeartbeatOp (srv_state srv) hb) as [s' known] eqn:E. cbn [prog_bind run_prog].
  assert (maybe_heartbeat (srv_state srv) s') as Hs.
  { right. exists (sub_world (W := sub_world t) ["heartbeat"%string]), hb. by rewrite E. }
  destruct known; cbn [negb guard]; eexists _, _; (split; [done|exact Hs]).
Qed.

Lemma refresh_runs t nodeID cacheDir job snapshot s :
  ∃ srv', refresh_models t net_base nodeID cacheDir job snapshot s = (s <| site_srv := srv' |>, Returned tt) ∧
    maybe_heartbeat (srv_state (site_srv s)) (srv_state srv').
Proof.
  unfold refresh_models. destruct (isModelJobType _); [|by exists (site_srv s); split; [destruct s|left]].
  unfold mbind, on_manager, sendHeartbeat, call_manager, Do. cbn [ctx_done ctx_deadline Background].
  rewrite (proj2 (drop_prefix_Some net_base (net_base +:+ "/v1/workers/heartbeat") "/v1/workers/heartbeat") eq_refl).
  change (parse_target "/v1/workers/heartbeat") with ("/v1/workers/heartbeat"%string, ∅ : gmap string string).
  destruct (net_fault_of (t ++ ["refresh"%string])) eqn:Ef; [|by exists (site_srv s); split; [|left]|];
    match goal with |- context [run_prog (ServeHTTP (W := sub_world ?t) (mkRequest _ _ _ _ _ ?h _ ?b _)) ?srv] =>
      destruct (heartbeat_run t h b srv) as (srv' & resp & Hrun & Hs) end;
    rewrite Hrun; by exists srv'.
Qed.

(** *** What the job does to the manager while it runs *)

(** A job that was only told about its progress. *)
Definition progressed (job j : Job) : Prop := ∃ text now, j = job <| job_Result := text |> <| job_UpdatedAt := now |>.
(** The manager still has the job with the worker. *)
Definition holding (nodeID : string) (job : Job) (srv : Server) : Prop :=
  state_wf (srv_state srv) ∧ ∃ j, progressed job j ∧ held nodeID j (srv_state srv).
Definition keeps (I : Server → Prop) {A : Type} (m : job_m A) : Prop := ∀ s, I (site_srv s) → I (site_srv (m s).1).

Section keeping.
Context (I : Server → Prop).
Lemma keeps_return {A : Type} (a : A) : keeps I (mreturn a).
Proof. by intros s. Qed.
Lemma keeps_bind {A B : Type} (m : job_m A) (f : A → job_m B) : keeps I m → (∀ a, keeps I (f a)) → keeps I (mbind m f).
Proof.
  intros Hm Hf s Hs. unfold mbind. specialize (Hm s Hs). destruct (m s) as [s' [a| |]]; [by apply Hf|done..].
Qed.
Lemma keeps_files {A : Type} call wrap (k : job_m A) : keeps I k → keeps I (on_files call wrap k).
Proof. intros Hk s Hs. unfold on_files. destruct (call (site_fs s)) as [fs [e|]]; [done|by apply Hk]. Qed.
Lemma keeps_writer job : keeps I job → keeps I (with_writer job).
Proof. intros Hj s Hs. unfold with_writer. by apply Hj. Qed.
Lemma keeps_notify progress t w total : (∀ f, progress = Some f → ∀ t w total, keeps I (f t w total)) → keeps I (notify progress t w total).
Proof. intros Hp. unfold notify. destruct progress; [by apply Hp|apply keeps_return]. Qed.

(** The jobs on files only reach the manager through their progress. *)
Section files.
Context (progress : option progress_fn) (Hp : ∀ f, progress = Some f → ∀ t w total, keeps I (f t w total)).
Lemma keeps_copy t i tmp total reads err read written : keeps I (copy_body t i progress tmp total reads err read written).
Proof.
  revert i read written. induction reads as [|x reads IH]; intros i read written s Hs; cbn [copy_body]; [done|].
  destruct (str_eqb x ""); [by apply IH|]. revert s Hs. apply keeps_bind; [by apply keeps_notify|].
  intros _ s Hs. destruct (os_Append _ _ _ _) as [fs [e|]]; [done|by apply IH].
Qed.
Lemma keeps_place t cacheDir model bytes total : keeps I (place_download t cacheDir model progress bytes total).
Proof.
  intros s Hs. unfold place_download. cbv zeta. destruct (os_Rename _ _ _ _) as [fs [e|]]; [done|].
  destruct (WriteModelManifest _ _ _ _ _ _ _) as [fs' [e|]]; [done|].
  revert Hs. change (site_srv s) with (site_srv (s <| site_fs := fs' |>)).
  apply keeps_bind; [by apply keeps_notify|intros; apply keeps_return].
Qed.
Lemma keeps_manifest t cacheDir model stat done : keeps I (rewrite_manifest t cacheDir model stat done).
Proof. apply keeps_files, keeps_return. Qed.
Lemma keeps_download t cacheDir model : keeps I (download_model t cacheDir model progress).
Proof.
  apply keeps_files. destruct (web_get _ _) as [resp|]; [|apply keeps_return]. destruct (web_bad resp); [apply keeps_return|].
  apply keeps_bind; [by apply keeps_notify|]. intros _. apply keeps_files, keeps_bind; [apply keeps_copy|].
  intros [bytes copyErr] s Hs.
  destruct copyErr; [done|]. destruct (io_fault (t ++ ["close"%string])); [done|].
  destruct (bytes =? 0); [done|by apply keeps_place].
Qed.
Lemma keeps_install t input cacheDir : keeps I (executeModelInstallJob t input cacheDir progress).
Proof.
  intros s Hs. unfold executeModelInstallJob. destruct (Unmarshal input) as [req|]; [|done].
  destruct (MustFind _) as [model|]; [|done]. cbv zeta.
  destruct (os_Stat _ _ _); [|by apply keeps_download]. destruct (0 <? _); [by apply keeps_manifest|by apply keeps_download].
Qed.
Lemma keeps_repair t input cacheDir : keeps I (executeModelRepairJob t input cacheDir progress).
Proof.
  assert (∀ model b, keeps I (repair_model t cacheDir model progress b)) as Hrep.
  { intros model b s Hs. unfold repair_model. cbv zeta.
    assert (keeps I (reinstall t cacheDir model progress b)) as Hre
      by (apply keeps_bind; [apply keeps_install|intros; apply keeps_return]).
    destruct (os_Stat _ _ _); [|by apply Hre]. destruct (_ && _); [by apply keeps_manifest|by apply Hre]. }
  intros s Hs. unfold executeModelRepairJob. destruct (Unmarshal input) as [req|]; [|done].
  destruct (MustFind _) as [model|]; [|done]. cbv zeta.
  destruct (os_Stat _ _ _); [|by apply Hrep]. revert s Hs. apply keeps_files, Hrep.
Qed.
End files.

Lemma keeps_generate t req cacheDir endpoints kind plan : keeps I (executeModelGenerate t req cacheDir endpoints kind plan).
Proof.
  intros s Hs. unfold executeModelGenerate. destruct (blank _); [done|]. cbv zeta. destruct (MustFind _); [|done].
  destruct (os_Stat _ _ _); [|done]. by destruct (ensureModelRuntime _ _ _ _) as [fs [[cli status]|e]].
Qed.
Lemma keeps_job t job snapshot cacheDir nodeID startedAt managerURL :
  (∀ f, modelInstallProgressWriter managerURL cacheDir nodeID job startedAt = Some f → ∀ t w total, keeps I (f t w total)) →
  keeps I (executeWorkerJob t job snapshot cacheDir nodeID startedAt managerURL).
Proof.
  intros Hp. unfold executeWorkerJob. destruct (validateWorkerCanRunJob _ _); [apply keeps_return|]. cbv zeta.
  repeat match goal with |- keeps I (if ?c then _ else _) => destruct c end; try apply keeps_return.
  - by apply keeps_writer, keeps_install.
  - by apply keeps_writer, keeps_repair.
  - intros s Hs. unfold executeModelCleanupJob. destruct (cleanup_scope _); [|done]. destruct (negb _); [done|].
    by destruct (clean_cache _ _ _) as [fs [[[[[[] ] ] ] ]|e]].
  - intros s Hs. unfold executeModelDeleteJob. destruct (Unmarshal _); [|done]. destruct (MustFind _); [|done].
    exact (keeps_files _ _ _ (keeps_return _) s Hs).
  - unfold executeModelGenerateJob. destruct (Unmarshal _); [apply keeps_generate|apply keeps_return].
  - unfold executeModelDistributedRPCGenerateJob. destruct (Unmarshal _); [|apply keeps_return].
    destruct (ValidateDistributedRPCExecutionPlan _ _ _); [apply keeps_return|apply keeps_generate].
Qed.
End keeping.

Definition progress_request (t : Tag) (hdrs : gmap string string) (jobID body : string) : Request :=
  mkRequest "POST" ("/v1/jobs/" +:+ jobID +:+ "/progress") net_base false ∅ hdrs ∅ body (net_context t).
(** A progress report only ever is the store's. *)
Lemma progress_run t hdrs jobID body srv :
  plain jobID →
  let '(srv', out) := run_prog (ServeHTTP (W := sub_world t) (progress_request t hdrs jobID body)) srv in
  (srv' = srv ∨ ∃ (W' : World) req, srv' = srv <| srv_state := (UpdateJobProgress (H := W') (srv_state srv) jobID req).1 |>) ∧
  ∃ resp, out = Returned resp.
Proof.
  intros [Hne Hp]. rewrite (progress_route (W := sub_world t) (progress_request t hdrs jobID body) jobID eq_refl).
  unfold handleJob. cbn [rq_Path progress_request]. rewrite TrimPrefix_app.
  rewrite bool_decide_eq_false_2 by (by destruct jobID). cbn [guard].
  change (jobID +:+ "/progress") with (jobID +:+ String slash "progress").
  rewrite Split_head by (apply plain_no_sep; [reflexivity|done]).
  change (Split "progress" slash) with ["progress"%string]. unfold handleJobProgress.
  change (is_post (progress_request t hdrs jobID body)) with true. cbn [negb guard].
  unfold decoded. cbn [rq_Body progress_request]. destruct (Decode body) as [req ok].
  destruct ok; cbn [negb guard]; [|split; [by left|by eexists]].
  destruct (str_eqb (prog_NodeID req) ""); cbn [guard]; [split; [by left|by eexists]|].
  unfold store. cbn [prog_bind run_prog].
  destruct (UpdateJobProgress (srv_state srv) jobID req) as [s' j] eqn:E. cbn [prog_bind run_prog].
  destruct j; (split; [right|by eexists]); exists (sub_world (W := sub_world t) ["progress"%string]), req; by rewrite E.
Qed.

Lemma UpdateJobProgress_holding (W' : World) nodeID job req srv :
  holding nodeID job srv →
  holding nodeID job (srv <| srv_state := (UpdateJobProgress (H := W') (srv_state srv) (job_ID job) req).1 |>).
Proof.
  intros (Hwf & j & (text & now & ->) & Hheld & Hrun & Hto & Hst).
  split; [by eapply ss_wf, (UpdateJobProgress_step (H := W'))|]. simpl in *. unfold UpdateJobProgress. rewrite Hheld.
  destruct (_ || _); [by exists (job <| job_Result := text |> <| job_UpdatedAt := now |>); split; [eexists _, _|]|].
  eexists. split; [|split_and!; [apply lookup_insert_eq|done..]].
  eexists _, _. reflexivity.
Qed.
Lemma progress_keeps_holding nodeID job cacheDir startedAt f t w total :
  plain (job_ID job) → no_sep question (job_ID job) → trim_right_slash net_base = net_base →
  modelInstallProgressWriter net_base cacheDir nodeID job startedAt = Some f → keeps (holding nodeID job) (f t w total).
Proof.
  intros Hp Hq Hbase. unfold modelInstallProgressWriter. destruct (_ || _); [done|]. intros [= <-] s Hs.
  destruct (_ && _); [done|]. cbv zeta. destruct (blank net_base); [exact Hs|]. unfold postJobProgress. cbv zeta. rewrite Hbase.
  unfold Do. cbn [ctx_done Background ctx_deadline].
  match goal with |- context [drop_prefix net_base (net_base +:+ ?target)] =>
    rewrite (proj2 (drop_prefix_Some net_base (net_base +:+ target) target) eq_refl);
    assert (parse_target target = (target, ∅)) as ->
      by (unfold parse_target; rewrite Split_whole; [done|by repeat apply no_sep_app]) end.
  destruct (net_fault_of (t ++ ["post"%string])); [|exact Hs|];
    match goal with |- context [run_prog (ServeHTTP (mkRequest _ _ _ _ _ ?h _ ?b _)) ?srv] =>
      pose proof (progress_run (t ++ ["post"%string]) h (job_ID job) b srv Hp) as Hr; unfold progress_request in Hr end;
    destruct (run_prog _ _) as [srv' out]; destruct Hr as ([-> |(W' & req & ->)] & resp & ->);
    [exact Hs|by apply UpdateJobProgress_holding|exact Hs|by apply UpdateJobProgress_holding].
Qed.

Lemma executed_stage t job snapshot cacheDir nodeID startedAt managerURL s s' text :
  job_Type job = JobGenerateStage →
  executeWorkerJob t job snapshot cacheDir nodeID startedAt managerURL s = (s', Returned (Ok text)) →
  executeDistributedStageJob (job_Input job) snapshot = Ok text.
Proof.
  intros Ht. unfold executeWorkerJob. cbv zeta. rewrite Ht.
  destruct (validateWorkerCanRunJob job snapshot); [done|]. cbn. by intros [= _ ->].
Qed.

(** C9 (liveness). One round of a worker completes the job it is given: when the
    manager hands it a job (a stage being prepared, or any other but a deletion),
    its calls for the job and for the report get through and the job ends, then,
    whatever progress was reported meanwhile and whatever else fails, the worker
    reports, the manager accepts, and the job is recorded as succeeded with the
    worker's result, or as failed and moved on, a stage as ready or failed; the
    worker's status file says the same. *)
Theorem worker_round (t : Tag) (nodeID cacheDir : string) (snapshot : ResourceSnapshot) (s s2 : Site) (s1 : State)
    (job : Job) (res : result worker_error string) :
  let startedAt := w_clock (t ++ ["started"%string]) in
  let started := mkSite
    (status_Write (t ++ ["running"%string]) (site_fs s) cacheDir (running_status nodeID job startedAt)).1
    ((site_srv s) <| srv_state := s1 |>) (site_last s) in
  stage_kind_text → state_wf (srv_state (site_srv s)) → plain nodeID → trim_right_slash net_base = net_base →
  net_fault_of (t ++ ["next"%string]) = Carried → net_fault_of (t ++ ["complete"%string]) = Carried →
  NextJobForWorker (H := sub_world (W := sub_world (t ++ ["next"%string])) ["next"%string]) (srv_state (site_srv s)) nodeID = (s1, Some job) →
  plain (job_ID job) → sendable_job (Some job) → sendable_report (job_report nodeID res) →
  job_Type job ≠ JobDelete → (job_Type job = JobGenerateStage → job_CDIPState job = StagePreparing) →
  executeWorkerJob (t ++ ["execute"%string]) job snapshot cacheDir nodeID startedAt net_base started = (s2, Returned res) →
  ∃ s' j s3, pollAndExecuteJob t net_base nodeID cacheDir snapshot s = (s', Returned (Ok true)) ∧
    progressed job j ∧ reported nodeID j res s3 ∧ maybe_heartbeat s3 (srv_state (site_srv s')) ∧
    site_fs s' = (status_Write (t ++ ["done"%string]) (site_fs s2) cacheDir
                    (finished_status nodeID job (job_report nodeID res) startedAt (w_clock (t ++ ["finished"%string])))).1.
Proof.
  intros startedAt started Hkind Hwf Hnode Hbase Hf1 Hf2 Hnext Hplain Hsj Hsr Hdel Hst Hexec.
  pose proof (NextJobForWorker_spec (H := sub_world (W := sub_world (t ++ ["next"%string])) ["next"%string]) _ nodeID Hwf) as Hspec.
  pose proof (JobStore.exec_step (H := sub_world (W := sub_world (t ++ ["next"%string])) ["next"%string]) _ (OpNextJobForWorker nodeID) Hwf I) as Hstep.
  simpl in Hstep. rewrite Hnext in Hspec, Hstep. apply ss_wf in Hstep. simpl in Hstep.
  destruct Hspec as (j & Hj & Hto & _ & Hjob & Hs1).
  assert (job_ID job = job_ID j ∧ job_AssignedTo job = nodeID ∧ job_Status job = StatusRunning) as (Hid & Hto' & Hrun)
    by (rewrite Hjob; by split_and!).
  assert (holding nodeID job (site_srv started)) as Hheld.
  { split; [done|]. exists job. split; [exists (job_Result job), (job_UpdatedAt job); by destruct job|].
    split_and!; try done. simpl. rewrite Hs1, Hid. simpl. apply lookup_insert_eq. }
  pose proof (keeps_job (holding nodeID job) (t ++ ["execute"%string]) job snapshot cacheDir nodeID startedAt net_base
    (λ f Hf t w total, progress_keeps_holding nodeID job cacheDir startedAt f t w total Hplain
      (plain_no_sep question _ eq_refl (proj2 Hplain)) Hbase Hf) started Hheld) as Hheld2. rewrite Hexec in Hheld2.
  destruct Hheld2 as (Hwf2 & j2 & Hprog & Hheld2). pose proof Hprog as (text2 & now2 & Ej2).
  unfold pollAndExecuteJob, mbind at 1, on_manager at 1.
  rewrite (call_carried (t ++ ["next"%string]) "GET") by (done || by apply plain_target).
  pose proof (next_run (t ++ ["next"%string]) nodeID (site_srv s) Hnode) as Hrn. rewrite Hnext in Hrn.
  change (mkRequest "GET" _ _ _ _ _ _ _ _) with (get_request (t ++ ["next"%string]) nodeID). rewrite Hrn.
  change (bad_status (reply 200 (BodyNextJob (Some job)))) with false. cbn [reply rs_Body].
  rewrite read_next_decodes by done. unfold execute_and_report, mbind at 1, write_status at 1, touch.
  change (mbind _ _ _) with (mbind (executeWorkerJob (t ++ ["execute"%string]) job snapshot cacheDir nodeID startedAt net_base)
    (report_job t net_base nodeID cacheDir snapshot job startedAt) started).
  unfold mbind at 1. rewrite Hexec. unfold report_job, mbind at 1, on_manager at 1.
  rewrite (call_carried (t ++ ["complete"%string]) "POST") by (done || by apply plain_target).
  assert (job_ID job = job_ID j2) as Hidj by by rewrite Ej2.
  destruct (complete_reports (t ++ ["complete"%string]) (call_headers "POST") nodeID j2 res (site_srv s2))
    as (srv2 & resp & Hrun2 & Hok & Hrep); [done|done|by rewrite <- Hidj|apply Hnode|done|by rewrite Ej2|done| |].
  { intros Ht text ->. eapply stage_execution_kind, executed_stage; [|exact Hexec]. by rewrite Ej2 in Ht. }
  unfold complete_request in Hrun2. rewrite <- Hidj in Hrun2. rewrite Hrun2.
  assert (bad_status resp = false) as -> by (unfold bad_status; by rewrite Hok).
  unfold mbind at 1, write_status at 1, touch. unfold mbind at 1.
  match goal with |- context [refresh_models _ _ _ _ _ _ ?s] =>
    destruct (refresh_runs t nodeID cacheDir job snapshot s) as (srv3 & -> & Hhb) end.
  eexists _, j2, _. split_and!; [reflexivity|done|exact Hrep|exact Hhb|reflexivity].
Qed.
End round.

(** ** Worked examples *)

Lemma runner_within_slots_witness :
  let r := mkRunner 2 1 (Some PollUndecodable) in
  rtc runner_step (newWorkerJobRunner 2, 0) (r, 1) ∧ run_active r = 1 ∧ (PollAvailable r).2 = Err PollUndecodable.
Proof.
  assert (rtc runner_step (newWorkerJobRunner 2, 0) (mkRunner 2 1 (Some PollUndecodable), 1)) as Hrun.
  { eapply rtc_l; [apply (rs_poll _ 0 (mkRunner 2 2 None) 2); reflexivity|].
    eapply rtc_l; [apply (rs_done _ 2 (Some PollUndecodable)); lia|]. apply rtc_refl. }
  split; [exact Hrun|].
  destruct (runner_within_slots 2 (mkRunner 2 1 (Some PollUndecodable)) 1 eq_refl Hrun) as (Ha & _). split; [exact Ha|reflexivity].
Defined.

(** A worker that may use 16 bytes of disk, with 12 bytes of models on it. *)
Definition full_storage : StorageResources := mkStorageResources 100 16 100 12 0 0 0 0 0 0.
Definition full_node : Node :=
  mkNode "n" "n" NodeRoleWorker NodeStatusOnline ""
    (mkResourceSnapshot (mkCPUResources 4 4) (mkMemoryResources 16 16) [] full_storage 2 [] []) 0 0.
Definition install_job (disk : Z) : Job :=
  mkJob "j" JobInstall StatusScheduled "{}" "n" "" (mkRequirements 1 0 disk false 0) "" "" 1 3 "" StageNone "" 0 0 0 0 0.
Definition round_state : State := (NewState 1) <| st_nodes := {["n"%string := full_node]} |>
  <| st_jobs := {["j"%string := install_job 2]} |>.

(** The manager places an installation of 8 bytes, for which the worker says there
    is no room. *)
Example placed_then_refused :
  pickWorkerExcludingLocked (H := world_at 5) round_state ["t"%string] (job_Requirements (install_job 8)) ∅ = "n"%string ∧
  ∃ text, validateWorkerCanRunJob (install_job 8) (node_Resources full_node) = Some text.
Proof. split; [by vm_compute|by eexists]. Qed.
Lemma placed_jobs_pass_guard_witness :
  validateWorkerCanRunJob (install_job 2) (node_Resources full_node) = None.
Proof.
  assert (nodes_wf (st_nodes round_state)) as Hwf by (apply (bool_decide_unpack _); vm_compute; reflexivity).
  destruct (placed_jobs_pass_guard (H := world_at 5) round_state ["t"%string] (install_job 2) ∅ Hwf) as (node & Hn & _ & Hg);
    [vm_compute; discriminate|].
  assert (node = full_node) as -> by (vm_compute in Hn; injection Hn as <-; reflexivity).
  apply Hg. intros (_ & _ & _ & _ & Hu). vm_compute in Hu. discriminate.
Defined.

Section demo.
#[local] Existing Instance silent_network.
#[local] Existing Instance no_texts.
#[local] Existing Instance demo_files.
#[local] Existing Instance jobs_world.
#[local] Existing Instance jobs_platform.
#[local] Existing Instance jobs_host.
#[local] Existing Instance jobs_codecs.
#[local] Existing Instance jobs_discovery.
#[local] Instance round_codecs : ServerCodecs :=
demo_server_codecs (demo_join "") (mkGenerateRequest "" "" "" "" 0 "") (demo_stage "a" "c")
  (demo_frame "p" "s" "activations") (mkCompleteRequest "n" "" "").
#[local] Instance round_net : Network := {| net_base := "http://manager"; net_fault_of _ := Carried; net_context _ := Background |}.
Definition given_job : option Job :=
  (NextJobForWorker (H := sub_world (W := sub_world ["r"; "next"]%string) ["next"%string]) round_state "n").2.
#[local] Instance round_texts : JobTexts := fixed_texts given_job (mkCompleteRequest "n" "" "") eq_refl.
#[local] Instance round_errors : WorkerTexts := {| worker_text _ := "failed"; worker_text_some _ := eq_refl |}.
#[local] Instance round_runtime : RuntimeTexts := {| runtime_text _ := "failed" |}.
#[local] Instance round_release : JsonBody githubRelease := demo_release "b1".
#[local] Instance round_machine : Machine := {| f_sin x := x; f_cos x := x; mul_add _ _ c := c |}.
#[local] Instance round_process : Processes := {| run_process _ _ _ _ _ := ([], [], Exited); parse_duration _ := None |}.
#[local] Instance round_json : WorkerCodecs := {|
  wc_stage_input := opaque_codec _; wc_stage_result := opaque_codec _; wc_generate := opaque_codec _;
  wc_generate_rpc := opaque_codec _; wc_generate_result := opaque_codec _; wc_matrix_input := opaque_codec _;
  wc_matrix_result := opaque_codec _ |}.
Definition round_site : Site := mkSite demo_cached (NewServerWithOptions (mkServerOptions "" "" "") round_state) 0.
Definition run_round : Site * outcome (result poll_error bool) :=
  pollAndExecuteJob ["r"%string] "http://manager" "n" "c" (node_Resources full_node) round_site.

Example installed_in_a_round :
  let '(s, out) := run_round in
  out = Returned (Ok true) ∧ job_Status <$> (st_jobs (srv_state (site_srv s)) !! "j"%string) = Some StatusSucceeded ∧
  length (DiscoverInstalledModels [] (site_fs s) "c") = 1%nat.
Proof. vm_compute. by split_and!. Qed.

Lemma round_state_wf : state_wf round_state.
Proof.
  split; [apply (bool_decide_unpack _); by vm_compute|]. intros k job Hk.
  change (st_jobs round_state) with ({["j"%string := install_job 2]} : gmap string Job) in Hk.
  apply lookup_singleton_Some in Hk as [<- <-]. split; [done|]. split; [done|done|done|discriminate].
Qed.
Definition round_job : Job := default (install_job 2) given_job.
Definition round_given : State * option Job :=
  NextJobForWorker (H := sub_world (W := sub_world (["r"%string] ++ ["next"%string])) ["next"%string]) (srv_state (site_srv round_site)) "n".
Definition round_executed : Site * outcome (result worker_error string) :=
  executeWorkerJob (["r"%string] ++ ["execute"%string]) round_job (node_Resources full_node) "c" "n" (w_clock (["r"%string] ++ ["started"%string])) net_base
    (mkSite (status_Write (["r"%string] ++ ["running"%string]) (site_fs round_site) "c"
               (running_status "n" round_job (w_clock (["r"%string] ++ ["started"%string])))).1
       ((site_srv round_site) <| srv_state := round_given.1 |>) (site_last round_site)).
Lemma round_executes : round_executed = (round_executed.1, Returned (Ok ""%string)).
Proof. rewrite (surjective_pairing round_executed) at 1. apply pair_equal_spec. split; [reflexivity|by vm_compute]. Qed.
Lemma round_gives : round_given = (round_given.1, Some round_job).
Proof. rewrite (surjective_pairing round_given) at 1. apply pair_equal_spec. split; [reflexivity|by vm_compute]. Qed.
Lemma round_facts :
  plain "n" ∧ trim_right_slash net_base = net_base ∧ plain (job_ID round_job) ∧ sendable_job (Some round_job) ∧ job_Type round_job ≠ JobDelete ∧
  (job_Type round_job = JobGenerateStage → job_CDIPState round_job = StagePreparing).
Proof. by vm_compute. Qed.
Lemma round_kind : stage_kind_text.
Proof. by intros text _. Qed.
Lemma worker_round_witness :
  run_round.2 = Returned (Ok true) ∧ ∃ s3 j, reported "n" j (Ok ""%string) s3.
Proof.
  pose proof round_facts as (Hnode & Hbase & Hplain & Hsend & Hdel & Hstage).
  destruct (worker_round ["r"%string] "n" "c" (node_Resources full_node) round_site round_executed.1 round_given.1 round_job
    (Ok ""%string) round_kind round_state_wf Hnode Hbase eq_refl eq_refl round_gives
    Hplain Hsend eq_refl Hdel Hstage round_executes) as (s' & j & s3 & Hrun & _ & Hrep & _).
  split; [exact (f_equal snd Hrun)|]. exists s3, j. exact Hrep.
Defined.
End demo.
