(* ===== verification/WorkerControl.v ===== *)
(** * The local control of a worker

    [internal/workercontrol/server.go] and [process_unix.go]: the HTTP server on
    the worker's machine that keeps its configuration, starts and stops the worker
    and the RPC server, and collects their output.  A handler is a program of
    atomic actions on the desk (the critical sections, the system calls between
    them); requests, exits of processes and their output interleave. *)

From S2P Require Import Prelude GoString GoSort GoFloat World Json Cdip Types Protocol Models State JobStore RpcPool.
From S2P Require Import DistributedPlan Transport Http Prompt Paths Files LlamaCpp Discovery.

(** ** Data *)

Record Config := mkConfig {
  cfg_ManagerURL : string;
  cfg_JoinToken : string;
  cfg_NodeName : string;
  cfg_CPU : Z;
  cfg_MemoryGB : Z;
  cfg_DiskGB : Z;
  cfg_GPUEnabled : bool;
  cfg_VRAMGB : Z;
  cfg_JobSlots : Z;
  cfg_Benchmark : bool;
  cfg_RPCHost : string;
  cfg_RPCAdvertiseHost : string;
  cfg_RPCPort : Z;
  cfg_RPCCache : bool;
  cfg_WorkerBinary : string;
  cfg_WorkerCacheDir : string;
}.

(** The text of a configuration, with the final newline; reading one fills in
    what the text does not say from a given configuration. *)
Class ConfigText := {
  config_text : Config → string;
  read_config : Config → string → option Config;
  config_ok : Config → Prop;
  read_config_text d c : config_ok c → read_config d (config_text c) = Some c;
}.

(** *** The tail of the output *)

Record tailBuffer := mkTailBuffer { tb_limit : Z; tb_buf : string }.
Definition newTailBuffer (limit : Z) : tailBuffer := mkTailBuffer limit "".
(** [s[n:]] *)
Definition from_byte (n : Z) (s : string) : string := String.substring (Z.to_nat n) (String.length s - Z.to_nat n) s.
Definition tail_Write (b : tailBuffer) (p : string) : tailBuffer :=
  let buf := tb_buf b +:+ p in
  let size := Z.of_nat (String.length buf) in
  mkTailBuffer (tb_limit b) (if tb_limit b <? size then from_byte (size - tb_limit b) buf else buf).

(** *** Processes *)

Inductive role := WorkerRole | RPCRole.
#[export] Instance role_dec : EqDecision role.
Proof. solve_decision. Defined.
(** How a process ended: [None] for success, otherwise the exit code when there is
    one and the text of the error. *)
Definition wait_result : Type := option (option Z * string).
Inductive signal := Interrupt | Kill.
(** A process runs, has ended, or its end was taken note of. *)
Inductive proc_state := Alive | Ended (r : wait_result) | Noted.
Record Process := mkProcess {
  ps_role : role; ps_pid : Z; ps_path : string; ps_args : list string; ps_env : list string;
  ps_state : proc_state; ps_signals : list signal;
}.
(** An [exec.Cmd] that was started: which process, and its number. *)
Record Command := mkCommand { cmd_no : nat; cmd_Pid : Z }.
#[export] Instance Command_dec : EqDecision Command.
Proof. solve_decision. Defined.

(** *** The server *)

Record Slot := mkSlot {
  sl_cmd : option Command;
  sl_startedAt : option Time;
  sl_exitCode : option Z;
  sl_lastError : string;
}.
(** [cmd], [startedAt], [exitCode] and [lastError] of the worker, and those of the
    RPC server. *)
Record Control := mkControl {
  ctl_configPath : string;
  ctl_token : string;
  ctl_config : Config;
  ctl_slot : role → Slot;
  ctl_logTail : tailBuffer;
}.
(** The server, its file tree, the advertised hosts inferred so far (a global of
    the package), and every process it started, in order. *)
Record Desk := mkDesk {
  dk_fs : tree;
  dk_ctl : Control;
  dk_hosts : gmap string string;
  dk_procs : list Process;
}.
#[export] Instance set_ctl_config : Setter ctl_config := λ f c,
  mkControl (ctl_configPath c) (ctl_token c) (f (ctl_config c)) (ctl_slot c) (ctl_logTail c).
#[export] Instance set_ctl_slot : Setter ctl_slot := λ f c,
  mkControl (ctl_configPath c) (ctl_token c) (ctl_config c) (f (ctl_slot c)) (ctl_logTail c).
#[export] Instance set_ctl_logTail : Setter ctl_logTail := λ f c,
  mkControl (ctl_configPath c) (ctl_token c) (ctl_config c) (ctl_slot c) (f (ctl_logTail c)).
#[export] Instance set_dk_fs : Setter dk_fs := λ f d, mkDesk (f (dk_fs d)) (dk_ctl d) (dk_hosts d) (dk_procs d).
#[export] Instance set_dk_ctl : Setter dk_ctl := λ f d, mkDesk (dk_fs d) (f (dk_ctl d)) (dk_hosts d) (dk_procs d).
#[export] Instance set_dk_hosts : Setter dk_hosts := λ f d, mkDesk (dk_fs d) (dk_ctl d) (f (dk_hosts d)) (dk_procs d).
#[export] Instance set_dk_procs : Setter dk_procs := λ f d, mkDesk (dk_fs d) (dk_ctl d) (dk_hosts d) (f (dk_procs d)).

Definition slot (d : Desk) (r : role) : Slot := ctl_slot (dk_ctl d) r.
Definition set_slot (r : role) (sl : Slot) : Desk → Desk :=
  set dk_ctl (set ctl_slot (λ f r', if decide (r' = r) then sl else f r')).
Definition log (text : string) : Desk → Desk := set dk_ctl (set ctl_logTail (λ b, tail_Write b text)).
Definition in_state (st : proc_state) (p : Process) : Process :=
  mkProcess (ps_role p) (ps_pid p) (ps_path p) (ps_args p) (ps_env p) st (ps_signals p).
Definition set_proc (no : nat) (st : proc_state) : Desk → Desk := set dk_procs (alter (in_state st) no).

(** *** What it reports *)

Record ProcessStatus := mkProcessStatus {
  pst_Running : bool; pst_PID : Z; pst_StartedAt : option Time; pst_ExitCode : option Z; pst_LastError : string;
}.
Record RPCRuntimeStatus := mkRPCStatus {
  rst_Process : ProcessStatus; rst_Runtime : RPCRuntimeProbe; rst_Endpoint : string;
}.
(* [workercontrol.Status]; [Status] alone is the status of a job. *)
Record ControlStatus := mkStatus {
  st_Process : ProcessStatus;
  st_LogTail : string;
  st_JobStatus : option JobStatus;
  st_Runtime : RuntimeStatus;
  st_RPC : RPCRuntimeStatus;
  st_Models : list ModelResource;
  st_Config : Config;
  st_ConfigPath : string;
}.

(** The machine around the control: names, directories, URLs and addresses, and
    the start of a process, which gives its number. *)
Record URL := mkURL { url_Scheme : string; url_Host : string; url_Hostname : string; url_Port : string }.
Class Surroundings := {
  hostname : option string;
  user_config_dir : option string;
  executable : option string;
  parse_url : string → option URL;
  loopback_ip : string → bool;                     (** an IP address, and a loopback one *)
  local_ip : Tag → string → option string;         (** of a UDP socket towards an address, not unspecified *)
  local_ip_trimmed t a ip : local_ip t a = Some ip → TrimSpace ip = ip ∧ ip ≠ ""%string;
  start_process : Tag → string → list string → list string → result string Z;
  pipe_fault : Tag → option string;
  interrupt_fails : Tag → bool;
  environ : list string;
}.

Inductive control_error :=
  | Refused (text : string)
  | OnFiles (e : os_error)
  | OnProcess (text : string)
  | NoBinary
  | BadConfig.
Class ControlTexts := { control_text : control_error → string }.

(** ** Programs of atomic actions *)

Inductive control_body :=
  | CText (message : string)
  | CHealth
  | CConfig (c : Config)
  | CStatus (s : ControlStatus)
  | CRPC (s : RPCRuntimeStatus).
Record Reply := mkReply { rep_Status : Z; rep_Body : control_body }.
Definition control_http_error (message : string) (status : Z) : Reply := mkReply status (CText message).

Inductive cprog (A : Type) : Type :=
  | CRet (a : A)
  | CStop (r : Reply)
  | CAct {B : Set} (f : Desk → Desk * B) (k : B → cprog A).
Arguments CRet {A} a.
Arguments CStop {A} r.
Arguments CAct {A B} f k.
Fixpoint cbind {A B} (p : cprog A) (h : A → cprog B) : cprog B :=
  match p with
  | CRet a => h a
  | CStop r => CStop r
  | CAct f k => CAct f (λ b, cbind (k b) h)
  end.
Declare Scope cprog_scope.
Delimit Scope cprog_scope with cprog.
Notation "x ⟵ p ; q" := (cbind p (λ x, q)) (at level 20, p at level 100, q at level 200, right associativity) : cprog_scope.
#[local] Open Scope cprog_scope.

Definition act {B : Set} (f : Desk → Desk * B) : cprog B := CAct f CRet.
Definition peek {B : Set} (f : Desk → B) : cprog B := act (λ d, (d, f d)).
Definition cguard {A} (b : bool) (r : Reply) (k : cprog A) : cprog A := if b then CStop r else k.

(** A program on its own. *)
Fixpoint run_alone {A} (p : cprog A) (d : Desk) : Desk * (A + Reply) :=
  match p with
  | CRet a => (d, inl a)
  | CStop r => (d, inr r)
  | CAct f k => let '(d, b) := f d in run_alone (k b) d
  end.

Section control.
Context `{W : World} `{Files} `{Platform} `{Host} `{RuntimeTexts} `{DiscoveryCodecs} `{Facts} `{LowerCase}.
Context `{Surroundings} `{ConfigText} `{ControlTexts}.

(** ** The configuration *)

Definition default_node_name : string :=
  match hostname with Some host => if str_eqb host "" then "worker" else host | None => "worker" end.
Definition control_cache_dir : string :=
  match user_cache_dir with
  | Some dir => if str_eqb dir "" then "./data/cache" else PathJoin [dir; "cmesh"; "cache"]%string
  | None => "./data/cache"
  end.
Definition defaultConfigPath : string :=
  let value := getenv "CMESH_WORKER_CONTROL_CONFIG" in
  if negb (str_eqb value "") then value
  else match user_config_dir with
       | Some dir => if str_eqb dir "" then "./data/worker-control.json"
                     else PathJoin [dir; "cmesh"; "worker-control.json"]%string
       | None => "./data/worker-control.json"
       end.
Definition defaultConfig : Config :=
  mkConfig "http://127.0.0.1:8080" "" default_node_name num_cpu 8 50 true 0 1 true "0.0.0.0" "" 50052 true "" control_cache_dir.

Definition JoinHostPort (host port : string) : string :=
  if Contains host ":" then "[" +:+ host +:+ "]:" +:+ port else host +:+ ":" +:+ port.
Definition isLoopbackHost (host : string) : bool :=
  let host := TrimSet ["["; "]"]%string (ToLower (TrimSpace host)) in
  str_eqb host "localhost" || loopback_ip host.
Definition any_address (bindHost : string) : bool :=
  str_eqb bindHost "" || str_eqb bindHost "0.0.0.0" || str_eqb bindHost "::".
(** The address a socket is opened towards, to learn the local one. *)
Definition probe_target (managerURL : string) : string :=
  let public := JoinHostPort "8.8.8.8" "80" in
  match parse_url (TrimSpace managerURL) with
  | Some u =>
      if negb (str_eqb (url_Host u) "") && (negb (str_eqb (url_Hostname u) "") && negb (isLoopbackHost (url_Hostname u)))
      then JoinHostPort (url_Hostname u)
             (if negb (str_eqb (url_Port u) "") then url_Port u
              else if str_eqb (url_Scheme u) "https" then "443" else "80")
      else public
  | None => public
  end.
Definition inferRPCAdvertiseHostUncached (t : Tag) (managerURL bindHost : string) : string :=
  let bindHost := TrimSpace bindHost in
  if negb (any_address bindHost) then bindHost
  else match local_ip t (probe_target managerURL) with Some ip => ip | None => "127.0.0.1" end.
Definition inferRPCAdvertiseHost (t : Tag) (hosts : gmap string string) (managerURL bindHost : string)
    : gmap string string * string :=
  let cacheKey := TrimSpace managerURL +:+ "|" +:+ TrimSpace bindHost in
  let infer :=
    let inferred := inferRPCAdvertiseHostUncached t managerURL bindHost in (<[cacheKey := inferred]> hosts, inferred) in
  match hosts !! cacheKey with
  | Some value => if str_eqb value "" then infer else (hosts, value)
  | None => infer
  end.

Definition or_default (s d : string) : string := if str_eqb s "" then d else s.
Definition or_default_int (n d : Z) : Z := if n =? 0 then d else n.
Definition normalizeConfig (t : Tag) (hosts : gmap string string) (cfg : Config) : gmap string string * Config :=
  let managerURL := or_default (trim_right_slash (TrimSpace (cfg_ManagerURL cfg))) (cfg_ManagerURL defaultConfig) in
  let rpcHost := or_default (TrimSpace (cfg_RPCHost cfg)) (cfg_RPCHost defaultConfig) in
  let advertise := TrimSpace (cfg_RPCAdvertiseHost cfg) in
  let '(hosts, advertise) :=
    if str_eqb advertise "" then inferRPCAdvertiseHost t hosts managerURL rpcHost else (hosts, advertise) in
  (hosts, mkConfig managerURL (TrimSpace (cfg_JoinToken cfg))
    (or_default (TrimSpace (cfg_NodeName cfg)) (cfg_NodeName defaultConfig))
    (or_default_int (cfg_CPU cfg) (cfg_CPU defaultConfig)) (or_default_int (cfg_MemoryGB cfg) (cfg_MemoryGB defaultConfig))
    (or_default_int (cfg_DiskGB cfg) (cfg_DiskGB defaultConfig)) (cfg_GPUEnabled cfg) (cfg_VRAMGB cfg)
    (or_default_int (cfg_JobSlots cfg) (cfg_JobSlots defaultConfig)) (cfg_Benchmark cfg) rpcHost advertise
    (or_default_int (cfg_RPCPort cfg) (cfg_RPCPort defaultConfig)) (cfg_RPCCache cfg) (TrimSpace (cfg_WorkerBinary cfg))
    (or_default (TrimSpace (cfg_WorkerCacheDir cfg)) (cfg_WorkerCacheDir defaultConfig))).

Definition validateRPCConfig (cfg : Config) : option control_error :=
  first_error [
    (blank (cfg_RPCHost cfg), Refused "rpc_host is required");
    (blank (cfg_RPCAdvertiseHost cfg), Refused "rpc_advertise_host is required");
    ((cfg_RPCPort cfg <=? 0) || (65535 <? cfg_RPCPort cfg), Refused "rpc_port must be between 1 and 65535")].
Definition validateConfig (cfg : Config) : option control_error :=
  match first_error [
    (str_eqb (cfg_ManagerURL cfg) "", Refused "manager_url is required");
    (str_eqb (cfg_NodeName cfg) "", Refused "node_name is required");
    (cfg_CPU cfg <=? 0, Refused "cpu must be greater than zero");
    (cfg_MemoryGB cfg <=? 0, Refused "memory_gb must be greater than zero");
    (cfg_DiskGB cfg <=? 0, Refused "disk_gb must be greater than zero");
    (cfg_JobSlots cfg <=? 0, Refused "job_slots must be greater than zero")] with
  | Some e => Some e
  | None => validateRPCConfig cfg
  end.
Definition validateRunnableConfig (cfg : Config) : option control_error :=
  if blank (cfg_JoinToken cfg) then Some (Refused "join_token is required before starting worker") else None.

Definition loadConfig (t : Tag) (fs : tree) (hosts : gmap string string) (path : string)
    : gmap string string * result control_error Config :=
  match os_ReadFile (t ++ ["read"%string]) fs path with
  | Err e => (hosts, if IsNotExist e then Ok defaultConfig else Err (OnFiles e))
  | Ok body =>
      match read_config defaultConfig body with
      | None => (hosts, Err BadConfig)
      | Some cfg => let '(hosts, cfg) := normalizeConfig (t ++ ["normalize"%string]) hosts cfg in (hosts, Ok cfg)
      end
  end.
Definition saveConfig (t : Tag) (path : string) (cfg : Config) : cprog (option control_error) :=
  made ⟵ act (λ d, let '(fs, err) := os_MkdirAll (t ++ ["mkdir"%string]) (dk_fs d) (PathDir path) in (d <| dk_fs := fs |>, err));
  match made with
  | Some e => CRet (Some (OnFiles e))
  | None =>
      cfg ⟵ act (λ d, let '(hosts, cfg) := normalizeConfig (t ++ ["normalize"%string]) (dk_hosts d) cfg in
                      (d <| dk_hosts := hosts |>, cfg));
      act (B := option control_error) (λ d, let '(fs, err) := os_WriteFile (t ++ ["write"%string]) (dk_fs d) path (config_text cfg) in
                (d <| dk_fs := fs |>, option_map OnFiles err))
  end.

Definition idle_slot : Slot := mkSlot None None None "".
Definition NewServerWithToken (t : Tag) (configPath token : string) (fs : tree) (hosts : gmap string string)
    : result control_error Desk :=
  let configPath := if str_eqb configPath "" then defaultConfigPath else configPath in
  match loadConfig t fs hosts configPath with
  | (_, Err e) => Err e
  | (hosts, Ok cfg) =>
      Ok (mkDesk fs (mkControl configPath (TrimSpace token) cfg (λ _, idle_slot) (newTailBuffer (32 * 1024))) hosts [])
  end.
Definition NewServer (t : Tag) (configPath : string) : tree → gmap string string → result control_error Desk :=
  NewServerWithToken t configPath (getenv "CMESH_WORKER_CONTROL_TOKEN").

(** *** What it starts *)

Definition FormatBool (b : bool) : string := if b then "true" else "false".
Definition workerArgs (cfg : Config) : list string :=
  ["worker"; "run"; "--manager"; cfg_ManagerURL cfg; "--token"; cfg_JoinToken cfg; "--name"; cfg_NodeName cfg;
   "--cpu"; Itoa (cfg_CPU cfg); "--memory-gb"; Itoa (cfg_MemoryGB cfg); "--disk-gb"; Itoa (cfg_DiskGB cfg);
   "--vram-gb"; Itoa (cfg_VRAMGB cfg); "--job-slots"; Itoa (cfg_JobSlots cfg);
   "--gpu=" +:+ FormatBool (cfg_GPUEnabled cfg); "--cache-dir"; cfg_WorkerCacheDir cfg]%string
  ++ (if cfg_Benchmark cfg then ["--benchmark"%string] else []).
Definition llamaCPPRPCArgs (cfg : Config) : list string :=
  ["--host"; cfg_RPCHost cfg; "--port"; Itoa (cfg_RPCPort cfg)]%string ++ (if cfg_RPCCache cfg then ["-c"%string] else []).
Definition rpcBindEndpoint (cfg : Config) : string := JoinHostPort (cfg_RPCHost cfg) (Itoa (cfg_RPCPort cfg)).
Definition rpcAdvertiseEndpoint (cfg : Config) : string := JoinHostPort (cfg_RPCAdvertiseHost cfg) (Itoa (cfg_RPCPort cfg)).
Definition resolveWorkerBinary (configured : string) : result control_error string :=
  if negb (str_eqb configured "") then Ok configured
  else
    let value := getenv "CMESH_WORKER_BIN" in
    if negb (str_eqb value "") then Ok value
    else
      let path := match look_path "cmesh" with Some p => Ok p | None => Err NoBinary end in
      match executable with Some self => if str_eqb self "" then path else Ok self | None => path end.

(** ** Starting and stopping *)

(** [configureWorkerCommand] puts a process into a group of its own, so that the
    signals reach what it started too. *)
Definition signalled (s : signal) (p : Process) : Process :=
  mkProcess (ps_role p) (ps_pid p) (ps_path p) (ps_args p) (ps_env p) (ps_state p) (ps_signals p ++ [s]).
Definition send_signal (s : signal) (cmd : Command) : Desk → Desk := set dk_procs (alter (signalled s) (cmd_no cmd)).
(** The process, when it starts, becomes the one of its slot. *)
Definition launch (t : Tag) (r : role) (path : string) (args env : list string) (d : Desk)
    : Desk * result control_error Command :=
  match pipe_fault (t ++ ["stdout"%string]), pipe_fault (t ++ ["stderr"%string]) with
  | Some e, _ | None, Some e => (d, Err (OnProcess e))
  | None, None =>
      match start_process (t ++ ["start"%string]) path args env with
      | Err e => (d, Err (OnProcess e))
      | Ok pid =>
          let cmd := mkCommand (length (dk_procs d)) pid in
          let d := set dk_procs (λ ps, ps ++ [mkProcess r pid path args env Alive []]) d in
          (set_slot r (mkSlot (Some cmd) (Some (w_clock (t ++ ["now"%string]))) None "") d, Ok cmd)
      end
  end.

(** [startWorker], under the lock throughout. *)
Definition startWorker (t : Tag) (d : Desk) : Desk * option control_error :=
  match sl_cmd (slot d WorkerRole) with
  | Some _ => (d, Some (Refused "worker is already running"))
  | None =>
      let '(hosts, cfg) := normalizeConfig (t ++ ["normalize"%string]) (dk_hosts d) (ctl_config (dk_ctl d)) in
      let d := d <| dk_hosts := hosts |> in
      match validateConfig cfg, validateRunnableConfig cfg, resolveWorkerBinary (cfg_WorkerBinary cfg) with
      | Some e, _, _ | None, Some e, _ | None, None, Err e => (d, Some e)
      | None, None, Ok binary =>
          match launch t WorkerRole binary (workerArgs cfg) environ d with
          | (d, Err e) => (d, Some e)
          | (d, Ok cmd) => (log ("started worker pid=" +:+ Itoa (cmd_Pid cmd) +:+ nl) d, None)
          end
      end
  end.

(** The state file says where the RPC server is; when it cannot be written the
    process is killed and waited for. *)
Definition rpc_state (t : Tag) (cfg : Config) (pid : Z) : LlamaCPPRPCState :=
  mkRPCState true (rpcAdvertiseEndpoint cfg) (rpcBindEndpoint cfg) (rpcAdvertiseEndpoint cfg) pid
    (w_clock (t ++ ["now"%string])) 0.
Definition publish_rpc (t : Tag) (cfg : Config) (cmd : Command) (d : Desk) : Desk * option control_error :=
  match WriteLlamaCPPRPCState (t ++ ["state"%string]) (dk_fs d) (cfg_WorkerCacheDir cfg) (rpc_state t cfg (cmd_Pid cmd)) with
  | (fs, Some e) =>
      let sl := slot d RPCRole in
      (set_slot RPCRole (mkSlot None None (sl_exitCode sl) (sl_lastError sl))
         (set_proc (cmd_no cmd) Noted (send_signal Kill cmd (d <| dk_fs := fs |>))), Some (OnFiles e))
  | (fs, None) =>
      (log ("started llama.cpp rpc-server pid=" +:+ Itoa (cmd_Pid cmd) +:+ " endpoint=" +:+ rpcAdvertiseEndpoint cfg +:+ nl)
         (d <| dk_fs := fs |>), None)
  end.
Definition rpc_env (cfg : Config) : list string :=
  environ ++ (if cfg_RPCCache cfg
              then ["LLAMA_CACHE=" +:+ PathJoin [cfg_WorkerCacheDir cfg; "runtimes"; "llama.cpp-rpc-cache"]%string] else []).
Definition startLlamaCPPRPC (t : Tag) (d : Desk) : Desk * option control_error :=
  match sl_cmd (slot d RPCRole) with
  | Some _ => (d, Some (Refused "llama.cpp rpc-server is already running"))
  | None =>
      let '(hosts, cfg) := normalizeConfig (t ++ ["normalize"%string]) (dk_hosts d) (ctl_config (dk_ctl d)) in
      let d := d <| dk_hosts := hosts |> in
      match validateRPCConfig cfg with
      | Some e => (d, Some e)
      | None =>
          let runtimeStatus := LlamaCPPStatus (t ++ ["status"%string]) (dk_fs d) (cfg_WorkerCacheDir cfg) in
          if negb (rs_Ready runtimeStatus) then
            (d, Some (Refused ("llama.cpp runtime is not ready" +:+
                               (if str_eqb (rs_Error runtimeStatus) "" then "" else ": " +:+ rs_Error runtimeStatus))))
          else
            let probe := rpc_Probe (t ++ ["probe"%string]) (dk_fs d)
                           (NewLlamaCPPRPCRuntime (rs_BinaryPath runtimeStatus) (rpcBindEndpoint cfg)) Background in
            if negb (pr_Ready probe) then
              (d, Some (Refused ("llama.cpp rpc runtime is not ready: " +:+ Join (pr_Blockers probe) "; ")))
            else match launch t RPCRole (pr_ServerPath probe) (llamaCPPRPCArgs cfg) (rpc_env cfg) d with
                 | (d, Err e) => (d, Some e)
                 | (d, Ok cmd) => publish_rpc t cfg cmd d
                 end
      end
  end.

(** The loop that waits for a process to be noted as gone: a look, then a wait of
    100 ms; after 51 waits the five seconds are over in any case, and the process
    is killed. *)
Fixpoint await_exit (t : Tag) (n : nat) (r : role) (cmd : Command) : cprog unit :=
  running ⟵ peek (λ d, bool_decide (sl_cmd (slot d r) = Some cmd));
  if negb running then CRet tt
  else
    let kill := act (λ d, (send_signal Kill cmd d, tt)) in
    match n with
    | O => kill
    | S n' =>
        if w_clock (t ++ ["stop"%string]) + 5 * Second <? w_clock (t ++ ["wait"%string; Itoa (Z.of_nat n)]) then kill
        else await_exit t n' r cmd
    end.
Definition stop_process (t : Tag) (r : role) (cmd : Command) : cprog unit :=
  _ ⟵ act (λ d, (send_signal Interrupt cmd d, tt));
  _ ⟵ (if interrupt_fails t then act (λ d, (send_signal Kill cmd d, tt)) else CRet tt);
  await_exit t 51 r cmd.
(** [stopWorker], which never fails. *)
Definition stopWorker (t : Tag) : cprog (option control_error) :=
  running ⟵ peek (λ d, sl_cmd (slot d WorkerRole));
  match running with
  | None => CRet None
  | Some cmd => _ ⟵ stop_process t WorkerRole cmd; CRet None
  end.
Definition clear_rpc_state (t : Tag) (cacheDir : string) : cprog unit :=
  act (λ d, (d <| dk_fs := (ClearLlamaCPPRPCState t (dk_fs d) cacheDir).1 |>, tt)).
Definition stopLlamaCPPRPC (t : Tag) : cprog (option control_error) :=
  running ⟵ peek (λ d, (sl_cmd (slot d RPCRole), cfg_WorkerCacheDir (ctl_config (dk_ctl d))));
  _ ⟵ match running.1 with None => CRet tt | Some cmd => stop_process t RPCRole cmd end;
  _ ⟵ clear_rpc_state (t ++ ["clear"%string]) running.2;
  CRet None.

(** ** The status *)

Definition process_status (sl : Slot) : ProcessStatus :=
  mkProcessStatus (bool_decide (is_Some (sl_cmd sl))) (match sl_cmd sl with Some cmd => cmd_Pid cmd | None => 0 end)
    (sl_startedAt sl) (sl_exitCode sl) (sl_lastError sl).
Definition status (t : Tag) (d : Desk) : Desk * ControlStatus :=
  let '(hosts, cfg) := normalizeConfig (t ++ ["normalize"%string]) (dk_hosts d) (ctl_config (dk_ctl d)) in
  let fs := dk_fs d in
  let runtimeStatus := LlamaCPPStatus (t ++ ["status"%string]) fs (cfg_WorkerCacheDir cfg) in
  let rpcRuntime := rpc_Probe (t ++ ["probe"%string]) fs
                      (NewLlamaCPPRPCRuntime (rs_BinaryPath runtimeStatus) (rpcBindEndpoint cfg)) Background in
  (d <| dk_hosts := hosts |>,
   mkStatus (process_status (slot d WorkerRole)) (tb_buf (ctl_logTail (dk_ctl d)))
     (status_Read (t ++ ["job"%string]) fs (cfg_WorkerCacheDir cfg)) runtimeStatus
     (mkRPCStatus (process_status (slot d RPCRole)) rpcRuntime (rpcAdvertiseEndpoint cfg))
     (DiscoverInstalledModels (t ++ ["models"%string]) fs (cfg_WorkerCacheDir cfg)) cfg (ctl_configPath (dk_ctl d))).

(** ** The handlers *)

Context (decode_config : string → Config * bool).

Definition is_method (method : string) (r : Request) : bool := str_eqb (rq_Method r) method.
Definition control_method_not_allowed : Reply := control_http_error "method not allowed" 405.
Definition control_unauthorized : Reply := control_http_error "unauthorized" 401.
Definition authorized (token : string) (r : Request) : bool :=
  str_eqb token "" || str_eqb (default ""%string (rq_Header r !! "X-Cmesh-Control-Token"%string)) token.
Definition authorize_control {A} (r : Request) (k : cprog A) : cprog A :=
  ok ⟵ peek (λ d, authorized (ctl_token (dk_ctl d)) r);
  cguard (negb ok) control_unauthorized k.
Definition posted_control {A} (r : Request) (k : cprog A) : cprog A :=
  authorize_control r (cguard (negb (is_method "POST" r)) control_method_not_allowed k).
(** What fails is answered with the text of the error. *)
Definition attempt {A} (code : Z) (p : cprog (option control_error)) (k : cprog A) : cprog A :=
  err ⟵ p;
  match err with Some e => CStop (control_http_error (control_text e) code) | None => k end.
Definition reply_status (t : Tag) : cprog Reply :=
  st ⟵ act (status (t ++ ["status"%string])); CRet (mkReply 200 (CStatus st)).
Definition reply_rpc (t : Tag) : cprog Reply :=
  st ⟵ act (status (t ++ ["status"%string])); CRet (mkReply 200 (CRPC (st_RPC st))).

Definition control_handleHealth (t : Tag) (r : Request) : cprog Reply := CRet (mkReply 200 CHealth).
Definition handleConfig (t : Tag) (r : Request) : cprog Reply :=
  authorize_control r (
  if is_method "GET" r then
    cfg ⟵ peek (λ d, ctl_config (dk_ctl d)); CRet (mkReply 200 (CConfig cfg))
  else if is_method "PUT" r then
    let '(cfg, ok) := decode_config (rq_Body r) in
    if negb ok then CStop (control_http_error (control_text BadConfig) 400) else
    cfg ⟵ act (λ d, let '(hosts, cfg) := normalizeConfig (t ++ ["normalize"%string]) (dk_hosts d) cfg in
                    (d <| dk_hosts := hosts |>, cfg));
    attempt 400 (CRet (validateConfig cfg)) (
    path ⟵ peek (λ d, ctl_configPath (dk_ctl d));
    attempt 500 (saveConfig (t ++ ["save"%string]) path cfg) (
    _ ⟵ act (λ d, (set dk_ctl (λ c, c <| ctl_config := cfg |>) d, tt));
    CRet (mkReply 200 (CConfig cfg))))
  else CStop control_method_not_allowed).
Definition handleStatus (t : Tag) (r : Request) : cprog Reply := authorize_control r (reply_status t).
Definition handleStart (t : Tag) (r : Request) : cprog Reply :=
  posted_control r (attempt 409 (act (startWorker (t ++ ["worker"%string]))) (reply_status t)).
Definition handleStop (t : Tag) (r : Request) : cprog Reply :=
  posted_control r (attempt 409 (stopWorker (t ++ ["stop"%string])) (reply_status t)).
Definition handleRestart (t : Tag) (r : Request) : cprog Reply :=
  posted_control r (
  _ ⟵ stopWorker (t ++ ["stop"%string]);
  attempt 409 (act (startWorker (t ++ ["worker"%string]))) (reply_status t)).
Definition handleEnsureLlamaCPP (t : Tag) (r : Request) `{JsonBody githubRelease} : cprog Reply :=
  posted_control r (
  cacheDir ⟵ peek (λ d, cfg_WorkerCacheDir (ctl_config (dk_ctl d)));
  ensured ⟵ act (λ d, let '(fs, (_, runtimeStatus, err)) :=
                        EnsureLlamaCPP (t ++ ["ensure"%string]) (rq_Context r) (dk_fs d) cacheDir in
                      (d <| dk_fs := fs |>, (runtimeStatus, err)));
  st ⟵ act (status (t ++ ["status"%string]));
  CRet (match ensured.2 with
        | Some _ => mkReply 409 (CStatus (mkStatus (st_Process st) (st_LogTail st) (st_JobStatus st) ensured.1 (st_RPC st)
                                            (st_Models st) (st_Config st) (st_ConfigPath st)))
        | None => mkReply 200 (CStatus st)
        end)).
Definition handleLlamaCPPRPCStatus (t : Tag) (r : Request) : cprog Reply :=
  authorize_control r (cguard (negb (is_method "GET" r)) control_method_not_allowed (reply_rpc t)).
Definition handleStartLlamaCPPRPC (t : Tag) (r : Request) : cprog Reply :=
  posted_control r (attempt 409 (act (startLlamaCPPRPC (t ++ ["rpc"%string]))) (reply_rpc t)).
Definition handleStopLlamaCPPRPC (t : Tag) (r : Request) : cprog Reply :=
  posted_control r (attempt 409 (stopLlamaCPPRPC (t ++ ["stop"%string])) (reply_rpc t)).
Definition handleRestartLlamaCPPRPC (t : Tag) (r : Request) : cprog Reply :=
  posted_control r (
  _ ⟵ stopLlamaCPPRPC (t ++ ["stop"%string]);
  attempt 409 (act (startLlamaCPPRPC (t ++ ["rpc"%string]))) (reply_rpc t)).
Definition forget_token (cfg : Config) : Config :=
  mkConfig (cfg_ManagerURL cfg) "" (cfg_NodeName cfg) (cfg_CPU cfg) (cfg_MemoryGB cfg) (cfg_DiskGB cfg)
    (cfg_GPUEnabled cfg) (cfg_VRAMGB cfg) (cfg_JobSlots cfg) (cfg_Benchmark cfg) (cfg_RPCHost cfg)
    (cfg_RPCAdvertiseHost cfg) (cfg_RPCPort cfg) (cfg_RPCCache cfg) (cfg_WorkerBinary cfg) (cfg_WorkerCacheDir cfg).
Definition handleDisconnect (t : Tag) (r : Request) : cprog Reply :=
  posted_control r (
  attempt 409 (stopWorker (t ++ ["stop"%string])) (
  _ ⟵ stopLlamaCPPRPC (t ++ ["rpc"%string]);
  cfg ⟵ act (λ d, let cfg := forget_token (ctl_config (dk_ctl d)) in
                  (log ("disconnected worker from cluster" +:+ nl) (set dk_ctl (λ c, c <| ctl_config := cfg |>) d), cfg));
  path ⟵ peek (λ d, ctl_configPath (dk_ctl d));
  attempt 500 (saveConfig (t ++ ["save"%string]) path cfg) (reply_status t))).

(** The routes of [Start]: exact paths. *)
Definition control_routes (t : Tag) `{JsonBody githubRelease} : list (string * (Request → cprog Reply)) :=
  [("/health"%string, control_handleHealth t);
   ("/v1/config"%string, handleConfig t);
   ("/v1/status"%string, handleStatus t);
   ("/v1/start"%string, handleStart t);
   ("/v1/stop"%string, handleStop t);
   ("/v1/restart"%string, handleRestart t);
   ("/v1/disconnect"%string, handleDisconnect t);
   ("/v1/runtime/llama.cpp/ensure"%string, λ r, handleEnsureLlamaCPP t r);
   ("/v1/runtime/llama.cpp/repair"%string, λ r, handleEnsureLlamaCPP t r);
   ("/v1/runtime/llama.cpp/rpc/status"%string, handleLlamaCPPRPCStatus t);
   ("/v1/runtime/llama.cpp/rpc/start"%string, handleStartLlamaCPPRPC t);
   ("/v1/runtime/llama.cpp/rpc/stop"%string, handleStopLlamaCPPRPC t);
   ("/v1/runtime/llama.cpp/rpc/restart"%string, handleRestartLlamaCPPRPC t)].
Definition control_serve (t : Tag) `{JsonBody githubRelease} (r : Request) : cprog Reply :=
  match find (λ x, str_eqb x.1 (rq_Path r)) (control_routes t) with
  | Some x => x.2 r
  | None => CStop (control_http_error "404 page not found" 404)
  end.

(** ** What happens on its own *)

Definition exit_code (res : wait_result) : Z :=
  match res with None => 0 | Some (Some code, _) => code | Some (None, _) => 1 end.
Definition exit_text (r : role) (code : Z) : string :=
  match r with
  | WorkerRole => "worker exited code=" +:+ Itoa code +:+ nl
  | RPCRole => "llama.cpp rpc-server exited code=" +:+ Itoa code +:+ nl
  end.
(** [waitWorker] and [waitLlamaCPPRPC], once the process was waited for. *)
Definition note_exit (t : Tag) (r : role) (cmd : Command) (res : wait_result) (d : Desk) : Desk :=
  if decide (sl_cmd (slot d r) = Some cmd) then
    let d := match r with
             | WorkerRole => d
             | RPCRole => d <| dk_fs := (ClearLlamaCPPRPCState t (dk_fs d) (cfg_WorkerCacheDir (ctl_config (dk_ctl d)))).1 |>
             end in
    log (exit_text r (exit_code res))
      (set_slot r (mkSlot None None (Some (exit_code res))
                     (match res with Some (_, text) => text | None => sl_lastError (slot d r) end)) d)
  else d.

(** A process ends; its end is noted; it writes, and [copyOutput] collects. *)
Inductive desk_step : Desk → Desk → Prop :=
  | process_exits d no p res :
      dk_procs d !! no = Some p → ps_state p = Alive → desk_step d (set_proc no (Ended res) d)
  | process_noted t d no p res :
      dk_procs d !! no = Some p → ps_state p = Ended res →
      desk_step d (set_proc no Noted (note_exit t (ps_role p) (mkCommand no (ps_pid p)) res d))
  | process_writes d no p text :
      dk_procs d !! no = Some p → desk_step d (log text d).

(** The desk and the requests in progress. *)
Inductive floor_step (arriving : cprog Reply → Prop) : Desk * list (cprog Reply) → Desk * list (cprog Reply) → Prop :=
  | fl_arrive d ps p : arriving p → floor_step arriving (d, ps) (d, ps ++ [p])
  | fl_act d ps i B (f : Desk → Desk * B) k :
      ps !! i = Some (CAct f k) → floor_step arriving (d, ps) ((f d).1, <[i := k (f d).2]> ps)
  | fl_desk d d' ps : desk_step d d' → floor_step arriving (d, ps) (d', ps).
Definition control_requests `{JsonBody githubRelease} (which : Request → Prop) (p : cprog Reply) : Prop :=
  ∃ t r, which r ∧ p = control_serve t r.
End control.
