(* ===== verification/ControlRun.v ===== *)
(** * The worker control under interleaving

    Every action of a handler and everything that happens on its own is a
    sequence of a few elementary moves on the desk.  From what a move keeps
    follows what any interleaving of requests, exits and output keeps: one
    process of each role, the one the server knows of; and what a stopped,
    disconnected or unauthorized control does. *)

From S2P Require Import Prelude GoString GoSort GoFloat World Json Cdip Types Protocol Models State JobStore RpcPool.
From S2P Require Import DistributedPlan Transport Http Prompt Paths Files LlamaCpp Discovery WorkerControl.
#[local] Open Scope cprog_scope.

(** ** Elementary moves *)

Inductive move :=
  | MFiles (fs : tree)
  | MHosts (hosts : gmap string string)
  | MConfig (cfg : Config)
  | MLog (text : string)
  | MSignal (s : signal) (cmd : Command)
  | MLaunch (p : Process) (now : Time)
  | MEnd (no : nat) (res : wait_result)
  | MNote (no : nat) (r : role) (code : option Z) (text : string).

Definition perform (m : move) (d : Desk) : Desk :=
  match m with
  | MFiles fs => d <| dk_fs := fs |>
  | MHosts hosts => d <| dk_hosts := hosts |>
  | MConfig cfg => set dk_ctl (λ c, c <| ctl_config := cfg |>) d
  | MLog text => log text d
  | MSignal s cmd => send_signal s cmd d
  | MLaunch p now =>
      set_slot (ps_role p) (mkSlot (Some (mkCommand (length (dk_procs d)) (ps_pid p))) (Some now) None "")
        (set dk_procs (λ ps, ps ++ [p]) d)
  | MEnd no res => set_proc no (Ended res) d
  | MNote no r code text => set_slot r (mkSlot None None code text) (set_proc no Noted d)
  end.

(** The processes that were started and not yet taken note of are those the
    server has a command for; a slot has a start time when it has a command. *)
Record desk_ok (d : Desk) : Prop := {
  dk_current r cmd : sl_cmd (slot d r) = Some cmd →
    ∃ p, dk_procs d !! cmd_no cmd = Some p ∧ ps_role p = r ∧ ps_pid p = cmd_Pid cmd ∧ ps_state p ≠ Noted;
  dk_known no p : dk_procs d !! no = Some p → ps_state p ≠ Noted →
    sl_cmd (slot d (ps_role p)) = Some (mkCommand no (ps_pid p));
  dk_started r : is_Some (sl_startedAt (slot d r)) ↔ is_Some (sl_cmd (slot d r));
}.

(** What a process may become. *)
Record becomes (p p' : Process) : Prop := {
  be_role : ps_role p' = ps_role p;
  be_pid : ps_pid p' = ps_pid p;
  be_args : ps_args p' = ps_args p;
  be_signals : ps_signals p `prefix_of` ps_signals p';
  be_noted : ps_state p = Noted → ps_state p' = Noted;
}.
#[export] Instance becomes_preorder : PreOrder becomes.
Proof.
  split; [by split|]. intros p1 p2 p3 [] []. split; try congruence; [by etrans|auto].
Qed.
Lemma becomes_signalled s p : becomes p (signalled s p).
Proof. split; simpl; try done. by eexists. Qed.
Lemma becomes_in_state st p : ps_state p ≠ Noted ∨ st = Noted → becomes p (in_state st p).
Proof. intros Hst. split; simpl; try done. naive_solver. Qed.

Lemma slot_set_slot r r' sl d : slot (set_slot r sl d) r' = if decide (r' = r) then sl else slot d r'.
Proof. done. Qed.

Section moves.
Context `{Host} `{Facts} `{LowerCase} `{Surroundings}.

(** A process is started from the configuration, as it is after normalization and
    when it is valid. *)
Definition launchable (cfg : Config) (p : Process) : Prop :=
  ∃ t hosts, let cfg := (normalizeConfig t hosts cfg).2 in
  match ps_role p with
  | WorkerRole => validateConfig cfg = None ∧ validateRunnableConfig cfg = None ∧ ps_args p = workerArgs cfg
  | RPCRole => validateRPCConfig cfg = None ∧ ps_args p = llamaCPPRPCArgs cfg
  end.
(** When a move may happen; [C] says which configurations may be set. *)
Definition allowed (C : Config → Prop) (m : move) (d : Desk) : Prop :=
  match m with
  | MConfig cfg => C cfg
  | MLaunch p _ =>
      sl_cmd (slot d (ps_role p)) = None ∧ ps_state p = Alive ∧ ps_signals p = [] ∧ launchable (ctl_config (dk_ctl d)) p
  | MEnd no _ => ∃ p, dk_procs d !! no = Some p ∧ ps_state p = Alive
  | MNote no r _ _ => ∃ p, dk_procs d !! no = Some p ∧ ps_role p = r ∧ ps_state p ≠ Noted
  | _ => True
  end.
Definition move_step (C : Config → Prop) (d d' : Desk) : Prop := ∃ m, allowed C m d ∧ d' = perform m d.
Definition moves (C : Config → Prop) : Desk → Desk → Prop := rtc (move_step C).

Lemma one_move C m d : allowed C m d → moves C d (perform m d).
Proof. intros Hm. apply rtc_once. by exists m. Qed.

(** *** What a move keeps *)

Lemma alter_ok (f : Process → Process) no d :
  (∀ p, dk_procs d !! no = Some p →
    ps_role (f p) = ps_role p ∧ ps_pid (f p) = ps_pid p ∧ (ps_state (f p) = Noted ↔ ps_state p = Noted)) →
  desk_ok d → desk_ok (set dk_procs (alter f no) d).
Proof.
  intros Hf [Hc Hk Hs]. split; [| |exact Hs].
  - intros r cmd Hcmd. destruct (Hc r cmd Hcmd) as (p & Hp & Hr & Hpid & Hst). change (dk_procs _) with (alter f no (dk_procs d)).
    destruct (decide (cmd_no cmd = no)) as [<-|Hne].
    + rewrite list_lookup_alter_eq, Hp. destruct (Hf p Hp) as (? & ? & ?). exists (f p). split_and!; [done|congruence..|naive_solver].
    + rewrite list_lookup_alter_ne by done. by exists p.
  - intros i p. change (dk_procs _) with (alter f no (dk_procs d)). change (slot (set dk_procs _ d)) with (slot d).
    destruct (decide (i = no)) as [->|Hne].
    + rewrite list_lookup_alter_eq. intros (q & Hq & ->)%fmap_Some Hst. destruct (Hf q Hq) as (-> & -> & Hn).
      apply Hk; [done|naive_solver].
    + rewrite list_lookup_alter_ne by done. apply Hk.
Qed.

Lemma launch_procs p now d : dk_procs (perform (MLaunch p now) d) = dk_procs d ++ [p].
Proof. done. Qed.
Lemma launch_slot p now d r :
  slot (perform (MLaunch p now) d) r =
  if decide (r = ps_role p) then mkSlot (Some (mkCommand (length (dk_procs d)) (ps_pid p))) (Some now) None "" else slot d r.
Proof. done. Qed.
Lemma launch_ok p now d :
  sl_cmd (slot d (ps_role p)) = None → ps_state p = Alive → desk_ok d → desk_ok (perform (MLaunch p now) d).
Proof.
  intros Hidle Hst [Hc Hk Hs]. split.
  - intros r cmd. rewrite launch_slot, launch_procs. destruct (decide (r = ps_role p)) as [->|Hne]; simpl.
    + intros [= <-]. exists p. rewrite lookup_app_r, Nat.sub_diag by done. split_and!; [done..|by rewrite Hst].
    + intros Hcmd. destruct (Hc r cmd Hcmd) as (q & Hq & Hrest). exists q. split; [by apply lookup_app_l_Some|done].
  - intros no q. rewrite launch_slot, launch_procs.
    intros [Hq|[Hge [Hno <-]%list_lookup_singleton_Some]]%lookup_app_Some Hn.
    + pose proof (Hk no q Hq Hn) as Hkn. destruct (decide (ps_role q = ps_role p)) as [E|]; [|done].
      rewrite E, Hidle in Hkn. done.
    + rewrite decide_True by done. simpl. do 2 f_equal. lia.
  - intros r. rewrite launch_slot. destruct (decide (r = ps_role p)); [by split; eexists|apply Hs].
Qed.

Lemma note_procs no r code text d : dk_procs (perform (MNote no r code text) d) = alter (in_state Noted) no (dk_procs d).
Proof. done. Qed.
Lemma note_slot no r code text d r' :
  slot (perform (MNote no r code text) d) r' = if decide (r' = r) then mkSlot None None code text else slot d r'.
Proof. done. Qed.
Lemma note_ok no r code text d :
  (∃ p, dk_procs d !! no = Some p ∧ ps_role p = r ∧ ps_state p ≠ Noted) → desk_ok d →
  desk_ok (perform (MNote no r code text) d).
Proof.
  intros (p & Hp & Hr & Hst) [Hc Hk Hs]. pose proof (Hk no p Hp Hst) as Hcmd. rewrite Hr in Hcmd. split.
  - intros r' cmd. rewrite note_slot, note_procs. destruct (decide (r' = r)) as [->|Hne]; [done|]. intros Hcmd'.
    destruct (Hc r' cmd Hcmd') as (q & Hq & Hrq & Hrest). exists q. split; [|done].
    rewrite list_lookup_alter_ne; [done|]. intros E. rewrite <- E in Hq. congruence.
  - intros i q. rewrite note_slot, note_procs. destruct (decide (i = no)) as [->|Hne].
    + rewrite list_lookup_alter_eq, Hp. by intros [= <-].
    + rewrite list_lookup_alter_ne by done. intros Hq Hn. pose proof (Hk i q Hq Hn) as Hkn.
      destruct (decide (ps_role q = r)) as [E|]; [|done]. rewrite E, Hcmd in Hkn. by simplify_eq.
  - intros r'. rewrite note_slot. destruct (decide (r' = r)); [by split; intros []|apply Hs].
Qed.

Lemma perform_ok C m d : allowed C m d → desk_ok d → desk_ok (perform m d).
Proof.
  destruct m as [fs|hosts|cfg|text|s cmd|p now|no res|no r code text]; intros Ha Hok;
    try (by destruct Hok as [Hc Hk Hs]; split; [exact Hc|exact Hk|exact Hs]).
  - by apply alter_ok.
  - destruct Ha as (? & ? & _). by apply launch_ok.
  - destruct Ha as (p & Hp & Hst). apply alter_ok; [|done]. intros q Hq. simplify_eq. simpl. rewrite Hst. done.
  - by apply note_ok.
Qed.

(** The desk a server with the same path and token has later: processes only
    become what they may, and new ones were started from a configuration. *)
Record evolves (d d' : Desk) : Prop := {
  ev_ok : desk_ok d → desk_ok d';
  ev_path : ctl_configPath (dk_ctl d') = ctl_configPath (dk_ctl d);
  ev_token : ctl_token (dk_ctl d') = ctl_token (dk_ctl d);
  ev_becomes no p : dk_procs d !! no = Some p → ∃ p', dk_procs d' !! no = Some p' ∧ becomes p p';
  ev_launched no p' : dk_procs d' !! no = Some p' → dk_procs d !! no = None → ∃ cfg, launchable cfg p';
}.
Lemma launchable_becomes cfg p p' : becomes p p' → launchable cfg p → launchable cfg p'.
Proof. intros Hb (t & hosts & Hl). exists t, hosts. by rewrite (be_role _ _ Hb), (be_args _ _ Hb). Qed.
#[export] Instance evolves_preorder : PreOrder evolves.
Proof.
  split.
  - intros d. split; [done..| |congruence]. intros no p Hp. exists p. by split.
  - intros d1 d2 d3 [A1 B1 C1 D1 E1] [A2 B2 C2 D2 E2]. split; [auto|congruence..| |].
    + intros no p (p2 & Hp2 & Hb)%D1. destruct (D2 _ _ Hp2) as (p3 & Hp3 & Hb'). exists p3. split; [done|by etrans].
    + intros no p3 Hp3 Hn. destruct (dk_procs d2 !! no) as [p2|] eqn:Hp2; [|by eapply E2].
      destruct (E1 _ _ Hp2 Hn) as [cfg Hl]. exists cfg. destruct (D2 _ _ Hp2) as (p' & Hp' & Hb). simplify_eq.
      by eapply launchable_becomes.
Qed.
Lemma evolves_same d d' :
  dk_procs d' = dk_procs d → (desk_ok d → desk_ok d') → ctl_configPath (dk_ctl d') = ctl_configPath (dk_ctl d) →
  ctl_token (dk_ctl d') = ctl_token (dk_ctl d) → evolves d d'.
Proof. intros Hp ???. split; [done..| |]; rewrite Hp; [|congruence]. intros no p ?. by exists p. Qed.
Lemma evolves_alter d d' f no :
  dk_procs d' = alter f no (dk_procs d) → (desk_ok d → desk_ok d') →
  ctl_configPath (dk_ctl d') = ctl_configPath (dk_ctl d) → ctl_token (dk_ctl d') = ctl_token (dk_ctl d) →
  (∀ p, dk_procs d !! no = Some p → becomes p (f p)) → evolves d d'.
Proof.
  intros Hp ??? Hf. split; [done..| |]; rewrite Hp.
  - intros i p Hi. destruct (decide (i = no)) as [->|Hne].
    + rewrite list_lookup_alter_eq, Hi. exists (f p). split; [done|by apply Hf].
    + rewrite list_lookup_alter_ne by done. by exists p.
  - intros i p Hi Hn. destruct (decide (i = no)) as [->|Hne].
    + by rewrite list_lookup_alter_eq, Hn in Hi.
    + rewrite list_lookup_alter_ne in Hi by done. congruence.
Qed.

Lemma perform_evolves C m d : allowed C m d → evolves d (perform m d).
Proof.
  intros Ha. pose proof (perform_ok C m d Ha) as Hok. destruct m as [fs|hosts|cfg|text|s cmd|p now|no res|no r code text];
    try (by apply evolves_same).
  - eapply evolves_alter; [done..|]. intros p _. apply becomes_signalled.
  - destruct Ha as (_ & _ & _ & Hl). split; [done..| |]; change (dk_procs (perform _ _)) with (dk_procs d ++ [p]).
    + intros no q Hq. exists q. split; [by apply lookup_app_l_Some|done].
    + intros no q [Hq|[_ [_ <-]%list_lookup_singleton_Some]]%lookup_app_Some Hn; [congruence|]. by eexists.
  - destruct Ha as (p & Hp & Hst). eapply evolves_alter; [done..|]. intros q Hq. simplify_eq. apply becomes_in_state. left. by rewrite Hst.
  - eapply evolves_alter; [done..|]. intros q Hq. apply becomes_in_state. by right.
Qed.
Lemma moves_evolve C d d' : moves C d d' → evolves d d'.
Proof. induction 1 as [d|d1 d2 d3 (m & Hm & ->) _ IH]; [done|]. etrans; [by eapply perform_evolves|done]. Qed.
Lemma moves_ok C d d' : moves C d d' → desk_ok d → desk_ok d'.
Proof. intros Hm. by apply ev_ok, (moves_evolve C). Qed.
End moves.

(** ** Programs of actions *)

Fixpoint acts {A : Type} (R : Desk → Desk → Prop) (p : cprog A) : Prop :=
  match p with
  | CRet _ | CStop _ => True
  | CAct f k => (∀ d, R d (f d).1) ∧ ∀ b, acts R (k b)
  end.
Lemma acts_bind {A B : Type} R (p : cprog A) (h : A → cprog B) : acts R p → (∀ a, acts R (h a)) → acts R (cbind p h).
Proof. intros Hp Hh. induction p as [a|r|B' f k IH]; simpl; [done..|]. destruct Hp. by split; [|intros b; apply IH]. Qed.
Lemma acts_cguard {A : Type} R b r (k : cprog A) : acts R k → acts R (cguard b r k).
Proof. by destruct b. Qed.
Lemma acts_mono {A : Type} (R R' : Desk → Desk → Prop) (p : cprog A) : (∀ d d', R d d' → R' d d') → acts R p → acts R' p.
Proof. intros HR. induction p as [a|r|B f k IH]; simpl; [done..|]. intros [Hf Hk]. split; [auto|]. intros b. by apply IH. Qed.
Lemma acts_act {B : Set} R (f : Desk → Desk * B) : (∀ d, R d (f d).1) → acts R (act f).
Proof. by split. Qed.
Lemma acts_peek {B : Set} (R : Desk → Desk → Prop) `{!Reflexive R} (f : Desk → B) : acts R (peek f).
Proof. apply acts_act. by intros d. Qed.

Section actions.
Context `{W : World} `{Files} `{Platform} `{Host} `{RuntimeTexts} `{DiscoveryCodecs} `{Facts} `{LowerCase}.
Context `{Surroundings} `{ConfigText} `{ControlTexts} (decode_config : string → Config * bool) `{JsonBody githubRelease}.
Implicit Types C : Config → Prop.

Lemma moves_files C d fs : moves C d (d <| dk_fs := fs |>).
Proof. by apply (one_move C (MFiles fs)). Qed.
Lemma moves_hosts C d hosts : moves C d (d <| dk_hosts := hosts |>).
Proof. by apply (one_move C (MHosts hosts)). Qed.
Lemma moves_log C d text : moves C d (log text d).
Proof. by apply (one_move C (MLog text)). Qed.
Lemma moves_signal C d s cmd : moves C d (send_signal s cmd d).
Proof. by apply (one_move C (MSignal s cmd)). Qed.
Lemma moves_config C d cfg : C cfg → moves C d (set dk_ctl (λ c, c <| ctl_config := cfg |>) d).
Proof. intros HC. by apply (one_move C (MConfig cfg)). Qed.

Lemma launch_cases t r path args env d :
  let '(d', out) := launch t r path args env d in
  match out with
  | Err _ => d' = d
  | Ok cmd => cmd = mkCommand (length (dk_procs d)) (cmd_Pid cmd) ∧
      d' = perform (MLaunch (mkProcess r (cmd_Pid cmd) path args env Alive []) (w_clock (t ++ ["now"%string]))) d
  end.
Proof. unfold launch. destruct (pipe_fault _); [done|]. destruct (pipe_fault _); [done|]. by destruct (start_process _ _ _ _). Qed.
Lemma launch_moves C t r path args env d :
  sl_cmd (slot d r) = None → (∀ pid, launchable (ctl_config (dk_ctl d)) (mkProcess r pid path args env Alive [])) →
  moves C d (launch t r path args env d).1.
Proof.
  intros Hidle Hl. pose proof (launch_cases t r path args env d) as Hc. destruct (launch _ _ _ _ _ d) as [d' [cmd|e]]; simpl.
  - destruct Hc as [_ ->]. apply one_move. by split_and!.
  - by rewrite Hc.
Qed.

Lemma publish_moves C t cfg cmd d :
  (∃ p, dk_procs d !! cmd_no cmd = Some p ∧ ps_role p = RPCRole ∧ ps_state p ≠ Noted) → moves C d (publish_rpc t cfg cmd d).1.
Proof.
  intros (p & Hp & Hr & Hst). unfold publish_rpc. destruct (WriteLlamaCPPRPCState _ _ _ _) as [fs [e|]]; simpl.
  - etrans; [apply (moves_files C d fs)|]. etrans; [apply (moves_signal C _ Kill cmd)|].
    apply (one_move C (MNote (cmd_no cmd) RPCRole (sl_exitCode (slot d RPCRole)) (sl_lastError (slot d RPCRole)))).
    exists (signalled Kill p). split_and!; [|done..]. change (alter (signalled Kill) (cmd_no cmd) (dk_procs d) !! cmd_no cmd = Some (signalled Kill p)).
    by rewrite list_lookup_alter_eq, Hp.
  - etrans; [apply (moves_files C d fs)|apply moves_log].
Qed.

Lemma startWorker_moves C t d : moves C d (startWorker t d).1.
Proof.
  unfold startWorker. destruct (sl_cmd (slot d WorkerRole)) eqn:Hidle; [done|].
  pose proof (eq_refl (normalizeConfig (t ++ ["normalize"%string]) (dk_hosts d) (ctl_config (dk_ctl d)))) as En.
  destruct (normalizeConfig _ _ _) as [hosts cfg] in En at 2 |- *. set (d1 := d <| dk_hosts := hosts |>).
  assert (Hm1 : moves C d d1) by apply moves_hosts.
  destruct (validateConfig cfg) eqn:Ev; [done|]. destruct (validateRunnableConfig cfg) eqn:Er; [done|].
  destruct (resolveWorkerBinary _) as [binary|e]; [|done].
  assert (Hm2 : moves C d (launch t WorkerRole binary (workerArgs cfg) environ d1).1).
  { etrans; [exact Hm1|]. apply launch_moves; [exact Hidle|]. intros pid. exists (t ++ ["normalize"%string]), (dk_hosts d). cbn [ps_role].
    change (ctl_config (dk_ctl d1)) with (ctl_config (dk_ctl d)). by rewrite En. }
  destruct (launch _ _ _ _ _ d1) as [d2 [cmd|e]]; simpl in *; [|done]. etrans; [exact Hm2|apply moves_log].
Qed.

Lemma startLlamaCPPRPC_moves C t d : moves C d (startLlamaCPPRPC t d).1.
Proof.
  unfold startLlamaCPPRPC. destruct (sl_cmd (slot d RPCRole)) eqn:Hidle; [done|].
  pose proof (eq_refl (normalizeConfig (t ++ ["normalize"%string]) (dk_hosts d) (ctl_config (dk_ctl d)))) as En.
  destruct (normalizeConfig _ _ _) as [hosts cfg] in En at 2 |- *. set (d1 := d <| dk_hosts := hosts |>).
  assert (Hm1 : moves C d d1) by apply moves_hosts.
  destruct (validateRPCConfig cfg) eqn:Ev; [done|]. cbv zeta. destruct (negb (rs_Ready _)); [done|]. destruct (negb (pr_Ready _)); [done|].
  set (path := pr_ServerPath _).
  assert (Hm2 : moves C d (launch t RPCRole path (llamaCPPRPCArgs cfg) (rpc_env cfg) d1).1).
  { etrans; [exact Hm1|]. apply launch_moves; [exact Hidle|]. intros pid. exists (t ++ ["normalize"%string]), (dk_hosts d). cbn [ps_role].
    change (ctl_config (dk_ctl d1)) with (ctl_config (dk_ctl d)). by rewrite En. }
  pose proof (launch_cases t RPCRole path (llamaCPPRPCArgs cfg) (rpc_env cfg) d1) as Hc.
  destruct (launch _ _ _ _ _ d1) as [d2 [cmd|e]]; [|done]. etrans; [exact Hm2|]. apply publish_moves.
  destruct Hc as [Hcmd ->]. rewrite launch_procs, Hcmd. cbn [cmd_no]. eexists. rewrite lookup_app_r, Nat.sub_diag by done. by split_and!.
Qed.

Lemma status_moves C t d : moves C d (status t d).1.
Proof. unfold status. destruct (normalizeConfig _ _ _) as [hosts cfg]. apply moves_hosts. Qed.

Lemma desk_step_moves C d d' : desk_ok d → desk_step d d' → moves C d d'.
Proof.
  intros Hok. destruct 1 as [d no p res Hp Hst|t d no p res Hp Hst|d no p text Hp].
  - apply (one_move C (MEnd no res)). by exists p.
  - assert (Hn : ps_state p ≠ Noted) by (by rewrite Hst). unfold note_exit. rewrite (dk_known d Hok no p Hp Hn), decide_True by done.
    set (d1 := match ps_role p with WorkerRole => d | RPCRole => _ end).
    assert (Hm1 : moves C d d1) by (unfold d1; destruct (ps_role p); [done|apply moves_files]).
    assert (Hp1 : dk_procs d1 = dk_procs d) by (unfold d1; by destruct (ps_role p)).
    etrans; [exact Hm1|]. etrans; [apply (moves_log C d1 (exit_text (ps_role p) (exit_code res)))|].
    apply (one_move C (MNote no (ps_role p) (Some (exit_code res)) (match res with Some (_, text) => text | None => sl_lastError (slot d1 (ps_role p)) end))
      (log (exit_text (ps_role p) (exit_code res)) d1)).
    exists p. change (dk_procs (log _ d1)) with (dk_procs d1). by rewrite Hp1.
  - apply moves_log.
Qed.
End actions.

(** ** Every request is served by moves *)

Section requests.
Context `{W : World} `{Files} `{Platform} `{Host} `{RuntimeTexts} `{DiscoveryCodecs} `{Facts} `{LowerCase}.
Context `{Surroundings} `{ConfigText} `{ControlTexts} (decode_config : string → Config * bool) `{JsonBody githubRelease}.
Implicit Types C : Config → Prop.

Definition sets_config (r : Request) : Prop := rq_Path r = "/v1/config"%string ∧ rq_Method r = "PUT"%string.

#[local] Instance moves_refl C : Reflexive (moves C).
Proof. intros d. apply rtc_refl. Qed.

Lemma acts_saveConfig C t path cfg : acts (moves C) (saveConfig t path cfg).
Proof.
  apply acts_bind; [apply acts_act; intros d; destruct (os_MkdirAll _ _ _) as [fs err]; apply moves_files|].
  intros [e|]; [done|]. apply acts_bind.
  - apply acts_act. intros d. destruct (normalizeConfig _ _ _) as [hosts cfg']. apply moves_hosts.
  - intros cfg'. apply acts_act. intros d. destruct (os_WriteFile _ _ _ _) as [fs err]. apply moves_files.
Qed.
Lemma acts_signal C s cmd : acts (moves C) (act (λ d, (send_signal s cmd d, tt))).
Proof. apply acts_act. intros d. apply moves_signal. Qed.
Lemma acts_await C t n r cmd : acts (moves C) (await_exit t n r cmd).
Proof.
  induction n as [|n IH]; simpl; (split; [by intros d|]); intros [|]; simpl; try done.
  - split; [intros d; apply moves_signal|done].
  - destruct (_ <? _); [apply acts_signal|done].
Qed.
Lemma acts_stop_process C t r cmd : acts (moves C) (stop_process t r cmd).
Proof.
  apply acts_bind; [apply acts_signal|intros _]. apply acts_bind; [destruct (interrupt_fails t); [apply acts_signal|done]|].
  intros _. apply acts_await.
Qed.
Lemma acts_stopWorker C t : acts (moves C) (stopWorker t).
Proof.
  apply acts_bind; [by apply acts_peek, _|]. intros [cmd|]; [|done]. by apply acts_bind; [apply acts_stop_process|].
Qed.
Lemma acts_clear C t cacheDir : acts (moves C) (clear_rpc_state t cacheDir).
Proof. apply acts_act. intros d. apply moves_files. Qed.
Lemma acts_stopRPC C t : acts (moves C) (stopLlamaCPPRPC t).
Proof.
  apply acts_bind; [by apply acts_peek, _|]. intros [running cacheDir].
  apply acts_bind; [destruct running; [apply acts_stop_process|done]|intros _]. by apply acts_bind; [apply acts_clear|].
Qed.
Lemma acts_reply_status C t : acts (moves C) (reply_status t).
Proof. apply acts_bind; [apply acts_act; intros d; apply status_moves|done]. Qed.
Lemma acts_reply_rpc C t : acts (moves C) (reply_rpc t).
Proof. apply acts_bind; [apply acts_act; intros d; apply status_moves|done]. Qed.
Lemma acts_attempt {A : Type} C code p (k : cprog A) : acts (moves C) p → acts (moves C) k → acts (moves C) (attempt code p k).
Proof. intros Hp Hk. by apply acts_bind; [|intros [e|]]. Qed.
Lemma acts_authorize {A : Type} C r (k : cprog A) : acts (moves C) k → acts (moves C) (authorize_control r k).
Proof. intros Hk. apply acts_bind; [by apply acts_peek, _|]. intros ok. by apply acts_cguard. Qed.
Lemma acts_posted {A : Type} C r (k : cprog A) : acts (moves C) k → acts (moves C) (posted_control r k).
Proof. intros Hk. by apply acts_authorize, acts_cguard. Qed.
Lemma acts_startWorker C t : acts (moves C) (act (startWorker t)).
Proof. apply acts_act. intros d. apply startWorker_moves. Qed.
Lemma acts_startRPC C t : acts (moves C) (act (startLlamaCPPRPC t)).
Proof. apply acts_act. intros d. apply startLlamaCPPRPC_moves. Qed.

Lemma acts_config C t r : (is_method "PUT" r = true → ∀ cfg, C cfg) → acts (moves C) (handleConfig decode_config t r).
Proof.
  intros HC. apply acts_authorize. destruct (is_method "GET" r); [by apply acts_bind; [apply acts_peek, _|]|].
  destruct (is_method "PUT" r); [|done]. destruct (decode_config _) as [cfg ok]. destruct ok; [|done]. simpl negb. cbv iota.
  apply acts_bind; [apply acts_act; intros d; destruct (normalizeConfig _ _ _) as [hosts cfg']; apply moves_hosts|]. intros cfg'.
  apply acts_attempt; [done|]. apply acts_bind; [by apply acts_peek, _|]. intros path.
  apply acts_attempt; [apply acts_saveConfig|]. apply acts_bind; [|done]. apply acts_act. intros d. apply moves_config. by apply HC.
Qed.
Lemma acts_ensure C t r : acts (moves C) (handleEnsureLlamaCPP t r).
Proof.
  apply acts_posted. apply acts_bind; [by apply acts_peek, _|]. intros cacheDir. apply acts_bind.
  - apply acts_act. intros d. destruct (EnsureLlamaCPP _ _ _ _) as [fs [[? ?] ?]]. apply moves_files.
  - intros ensured. apply acts_bind; [apply acts_act; intros d; apply status_moves|done].
Qed.
Lemma acts_disconnect C t r : (∀ cfg, cfg_JoinToken cfg = ""%string → C cfg) → acts (moves C) (handleDisconnect t r).
Proof.
  intros HC. apply acts_posted, acts_attempt; [apply acts_stopWorker|]. apply acts_bind; [apply acts_stopRPC|intros _].
  apply acts_bind.
  - apply acts_act. intros d. cbn [fst]. etrans; [apply (moves_config C d (forget_token (ctl_config (dk_ctl d)))); by apply HC|apply moves_log].
  - intros cfg. apply acts_bind; [by apply acts_peek, _|]. intros path. apply acts_attempt; [apply acts_saveConfig|apply acts_reply_status].
Qed.
Lemma acts_routes C t r :
  (∀ cfg, cfg_JoinToken cfg = ""%string → C cfg) → (sets_config r → ∀ cfg, C cfg) →
  Forall (λ x, rq_Path r = x.1 → acts (moves C) (x.2 r)) (control_routes decode_config t).
Proof.
  intros Hblank Hset. unfold control_routes. repeat apply List.Forall_cons; [done|cbn [fst snd]; intros Hpath..|apply List.Forall_nil].
  - apply acts_config. intros Hm. apply Hset. by split; [|apply bool_decide_eq_true in Hm].
  - apply acts_authorize, acts_reply_status.
  - apply acts_posted, acts_attempt; [apply acts_startWorker|apply acts_reply_status].
  - apply acts_posted, acts_attempt; [apply acts_stopWorker|apply acts_reply_status].
  - apply acts_posted, acts_bind; [apply acts_stopWorker|intros _]. apply acts_attempt; [apply acts_startWorker|apply acts_reply_status].
  - by apply acts_disconnect.
  - apply acts_ensure.
  - apply acts_ensure.
  - apply acts_authorize, acts_cguard, acts_reply_rpc.
  - apply acts_posted, acts_attempt; [apply acts_startRPC|apply acts_reply_rpc].
  - apply acts_posted, acts_attempt; [apply acts_stopRPC|apply acts_reply_rpc].
  - apply acts_posted, acts_bind; [apply acts_stopRPC|intros _]. apply acts_attempt; [apply acts_startRPC|apply acts_reply_rpc].
Qed.
Lemma serve_acts C t r :
  (∀ cfg, cfg_JoinToken cfg = ""%string → C cfg) → (sets_config r → ∀ cfg, C cfg) →
  acts (moves C) (control_serve decode_config t r).
Proof.
  intros Hblank Hset. unfold control_serve. destruct (find _ _) as [x|] eqn:Ef; [|done].
  apply find_some in Ef as [Hin Hp%bool_decide_eq_true]. pose proof (acts_routes C t r Hblank Hset) as Hr.
  rewrite List.Forall_forall in Hr. by apply (Hr x).
Qed.

(** *** Interleavings *)

Lemma floor_run C (arriving : cprog Reply → Prop) d ps d' ps' :
  (∀ p, arriving p → acts (moves C) p) → Forall (acts (moves C)) ps → desk_ok d →
  rtc (floor_step arriving) (d, ps) (d', ps') → moves C d d' ∧ Forall (acts (moves C)) ps'.
Proof.
  intros Ha Hps Hok Hrun. remember (d, ps) as x eqn:Ex. remember (d', ps') as y eqn:Ey. revert d ps Ex Hps Hok.
  induction Hrun as [x|x1 x2 x3 Hstep _ IH]; intros d ps -> Hps Hok; [by simplify_eq|].
  assert (Hone : moves C d x2.1 ∧ Forall (acts (moves C)) x2.2).
  { inversion Hstep as [??? Hp|??? B f k Hi|??? Hd]; subst; simpl.
    - split; [done|]. apply Forall_app. split; [done|]. apply Forall_singleton. by apply Ha.
    - pose proof (Forall_lookup_1 _ _ _ _ Hps Hi) as [Hf Hk]. split; [apply Hf|]. apply Forall_insert; [done|apply Hk].
    - split; [|done]. by apply desk_step_moves. }
  destruct Hone as [Hm Hall]. destruct (IH Ey x2.1 x2.2) as [Hm' Hall']; [by destruct x2|done|by eapply moves_ok|].
  split; [by etrans|done].
Qed.
End requests.

(** ** What holds at the end, whatever else happens meanwhile *)

Fixpoint during {A : Type} (R : Desk → Desk → Prop) (p : cprog A) (Q : Desk → A → Prop) (d : Desk) : Prop :=
  match p with
  | CRet a => Q d a
  | CStop _ => True
  | CAct f k => ∀ d', R d d' → during R (k (f d').2) Q (f d').1
  end.

Section during.
Context (R : Desk → Desk → Prop) `{!PreOrder R}.

Lemma during_bind {A B : Type} (p : cprog A) (h : A → cprog B) Q d :
  during R p (λ d' a, during R (h a) Q d') d → during R (cbind p h) Q d.
Proof. revert d. induction p as [a|r|B' f k IH]; simpl; [done..|]. intros d Hp d' Hd. by apply IH, Hp. Qed.
Lemma during_mono {A : Type} (p : cprog A) (Q Q' : Desk → A → Prop) d :
  (∀ d' a, Q d' a → Q' d' a) → during R p Q d → during R p Q' d.
Proof. intros HQ. revert d. induction p as [a|r|B f k IH]; simpl; [auto..|]. intros d Hp d' Hd. by apply IH, Hp. Qed.
Lemma during_later {A : Type} (p : cprog A) (Q : Desk → A → Prop) d d' :
  (∀ d1 d2 a, R d1 d2 → Q d1 a → Q d2 a) → R d d' → during R p Q d → during R p Q d'.
Proof. intros HQ Hd. destruct p as [a|r|B f k]; simpl; [by apply HQ|done|]. intros Hp d2 Hd2. apply Hp. by etrans. Qed.
(** Everything is related to where it started. *)
Lemma during_from {A : Type} (p : cprog A) (Q : Desk → A → Prop) d :
  acts R p → during R p Q d → during R p (λ d' a, R d d' ∧ Q d' a) d.
Proof.
  intros Hp HQ. assert (Hgen : ∀ d0, R d d0 → during R p Q d0 → during R p (λ d' a, R d d' ∧ Q d' a) d0).
  { clear HQ. induction p as [a|r|B f k IH]; intros d0 Hd0; simpl; [done..|]. intros HQ d1 Hd1. destruct Hp as [Hf Hk].
    apply IH; [apply Hk|etrans; [exact Hd0|]; etrans; [exact Hd1|apply Hf]|by apply HQ]. }
  by apply Hgen.
Qed.
Lemma during_true {A : Type} (p : cprog A) (Q : Desk → A → Prop) d :
  (∀ d' a, R d d' → Q d' a) → acts R p → during R p Q d.
Proof.
  intros HQ Hp. apply (during_mono p (λ d' a, R d d' ∧ True)); [by intros d' a [? _]; apply HQ|].
  apply during_from; [done|]. revert d HQ. induction p as [a|r|B f k IH]; simpl; [done..|]. intros d HQ d' Hd.
  destruct Hp as [Hf Hk]. apply IH; [apply Hk|]. intros d2 a Hd2. apply HQ.
  etrans; [exact Hd|]. etrans; [apply Hf|exact Hd2].
Qed.
Lemma during_peek {A : Type} {B : Set} (f : Desk → B) (k : B → cprog A) Q d :
  (∀ d', R d d' → during R (k (f d')) Q d') → during R (cbind (peek f) k) Q d.
Proof. done. Qed.
End during.

Section interference.
Context `{W : World} `{Files} `{Platform} `{Host} `{RuntimeTexts} `{DiscoveryCodecs} `{Facts} `{LowerCase}.
Context `{Surroundings} `{ConfigText} `{ControlTexts} (decode_config : string → Config * bool) `{JsonBody githubRelease}.

(** The moves of a desk in order. *)
Definition goes (C : Config → Prop) (d d' : Desk) : Prop := desk_ok d → moves C d d'.
#[export] Instance goes_preorder C : PreOrder (goes C).
Proof.
  split; [by intros d _; apply rtc_refl|]. intros d1 d2 d3 H12 H23 Hok. etrans; [by apply H12|]. apply H23. by eapply moves_ok; [apply H12|].
Qed.
Lemma acts_goes {A : Type} C (p : cprog A) : acts (moves C) p → acts (goes C) p.
Proof. apply acts_mono. by intros d d' Hm _. Qed.

Lemma floor_during C (arriving : cprog Reply → Prop) Q d ps d' ps' i p :
  (∀ p, arriving p → acts (moves C) p) → Forall (acts (moves C)) ps → desk_ok d →
  (∀ d1 d2 a, goes C d1 d2 → Q d1 a → Q d2 a) →
  rtc (floor_step arriving) (d, ps) (d', ps') → ps !! i = Some p → during (goes C) p Q d →
  ∃ p', ps' !! i = Some p' ∧ during (goes C) p' Q d'.
Proof.
  intros Ha Hps Hok HQ Hrun. remember (d, ps) as x eqn:Ex. remember (d', ps') as y eqn:Ey. revert d ps p Ex Hps Hok.
  induction Hrun as [x|x1 x2 x3 Hstep Hrun IH]; intros d ps p -> Hps Hok Hi Hp; [simplify_eq; by eexists|].
  destruct x2 as [d2 ps2]. destruct (floor_run C arriving d ps d2 ps2) as [Hm Hps2]; [done..|by apply rtc_once|].
  assert (Hnext : ∃ p2, ps2 !! i = Some p2 ∧ during (goes C) p2 Q d2).
  { assert (Hd2 : goes C d d2) by (intros _; exact Hm).
    pose proof (lookup_lt_Some _ _ _ Hi) as Hlt. inversion Hstep as [??? Hp'|??? B f k Hj|??? Hd]; subst; simpl in *.
    - exists p. split; [by apply lookup_app_l_Some|done].
    - destruct (decide (i0 = i)) as [->|Hne].
      + rewrite Hi in Hj. simplify_eq. exists (k (f d).2). split; [by apply list_lookup_insert_eq|]. by apply Hp.
      + exists p. rewrite list_lookup_insert_ne by done. split; [done|]. by apply (during_later _ p Q d).
    - exists p. split; [done|]. by apply (during_later _ p Q d). }
  destruct Hnext as (p2 & Hi2 & Hp2). apply (IH Ey d2 ps2 p2); try done. by eapply moves_ok.
Qed.

(** *** Stopping *)

(** A process that was started has ended and its end was noted, or it was killed. *)
Definition settled (no : nat) (d : Desk) : Prop :=
  ∃ p, dk_procs d !! no = Some p ∧ (ps_state p = Noted ∨ Kill ∈ ps_signals p).
Lemma settled_later d d' no : evolves d d' → settled no d → settled no d'.
Proof.
  intros He (p & Hp & Hs). destruct (ev_becomes _ _ He _ _ Hp) as (p' & Hp' & Hb). exists p'. split; [done|].
  destruct Hs as [Hs|Hs]; [left; by apply (be_noted _ _ Hb)|right]. destruct (be_signals _ _ Hb) as [l ->]. set_solver.
Qed.
Lemma kill_settles d cmd : is_Some (dk_procs d !! cmd_no cmd) → settled (cmd_no cmd) (send_signal Kill cmd d).
Proof.
  intros [p Hp]. exists (signalled Kill p). split; [|right; simpl; set_solver].
  change (alter (signalled Kill) (cmd_no cmd) (dk_procs d) !! cmd_no cmd = Some (signalled Kill p)). by rewrite list_lookup_alter_eq, Hp.
Qed.
(** The process of a command the server no longer knows of was noted. *)
Lemma forgotten_noted d no p : desk_ok d → dk_procs d !! no = Some p →
  sl_cmd (slot d (ps_role p)) ≠ Some (mkCommand no (ps_pid p)) → ps_state p = Noted.
Proof.
  intros Hok Hp Hs. destruct (ps_state p) eqn:Hst; [..|done]; exfalso; apply Hs, (dk_known d Hok no p Hp); by rewrite Hst.
Qed.
Lemma forgotten_settled d no p : desk_ok d → dk_procs d !! no = Some p →
  sl_cmd (slot d (ps_role p)) ≠ Some (mkCommand no (ps_pid p)) → settled no d.
Proof. intros Hok Hp Hs. exists p. split; [done|]. left. by eapply forgotten_noted. Qed.

Record runs_as (r : role) (cmd : Command) (d : Desk) : Prop := {
  ra_ok : desk_ok d;
  ra_proc : ∃ p, dk_procs d !! cmd_no cmd = Some p ∧ ps_role p = r ∧ ps_pid p = cmd_Pid cmd;
}.
Lemma runs_as_later C r cmd d d' : goes C d d' → runs_as r cmd d → runs_as r cmd d'.
Proof.
  intros Hd [Hok (p & Hp & Hr & Hpid)]. specialize (Hd Hok). split; [by eapply moves_ok|].
  destruct (ev_becomes _ _ (moves_evolve C _ _ Hd) _ _ Hp) as (p' & Hp' & Hb). exists p'.
  split; [done|]. by rewrite (be_role _ _ Hb), (be_pid _ _ Hb).
Qed.
Lemma unseen_settled r cmd d : runs_as r cmd d → sl_cmd (slot d r) ≠ Some cmd → settled (cmd_no cmd) d.
Proof.
  intros [Hok (p & Hp & <- & Hpid)] Hs. apply (forgotten_settled d _ p); [done..|]. rewrite Hpid. by destruct cmd.
Qed.
Lemma killed_settled C r cmd d d' : runs_as r cmd d → goes C d d' → settled (cmd_no cmd) (send_signal Kill cmd d').
Proof.
  intros Hr Hd. destruct (ra_proc _ _ _ (runs_as_later C r cmd _ _ Hd Hr)) as (p & Hp & _). apply kill_settles. by eexists.
Qed.
Lemma await_settles C t n r cmd d :
  runs_as r cmd d → during (goes C) (await_exit t n r cmd) (λ d' _, settled (cmd_no cmd) d') d.
Proof.
  revert d. induction n as [|n IH]; intros d Hr d1 Hd1; pose proof (runs_as_later C r cmd _ _ Hd1 Hr) as Hr1;
    cbn [fst snd act peek cbind during]; case_bool_decide as Hcmd; try (by apply (unseen_settled r)).
  - intros d2 Hd2. by eapply killed_settled.
  - cbn [negb]. destruct (_ <? _); [|by apply IH]. intros d2 Hd2. by eapply killed_settled.
Qed.
Lemma stop_settles C t r cmd d :
  runs_as r cmd d → during (goes C) (stop_process t r cmd) (λ d' _, settled (cmd_no cmd) d') d.
Proof.
  intros Hr. assert (Hsig : ∀ d s d', runs_as r cmd d → goes C d d' → runs_as r cmd (send_signal s cmd d')).
  { intros d0 s d1 Hr0 Hd. eapply runs_as_later; [|exact Hr0]. etrans; [exact Hd|]. intros _. apply (moves_signal C). }
  intros d1 Hd1. cbn [cbind fst snd]. apply during_bind. destruct (interrupt_fails t); cbn [during act fst snd].
  - intros d2 Hd2. apply await_settles. eauto.
  - apply await_settles. eauto.
Qed.

(** A stop deals with every process of the role that was there before. *)
Definition all_settled (r : role) (d d' : Desk) : Prop :=
  ∀ no p, dk_procs d !! no = Some p → ps_role p = r → settled no d'.
Lemma all_settled_later r d d1 d2 : evolves d1 d2 → all_settled r d d1 → all_settled r d d2.
Proof. intros He Hs no p Hp Hr. eapply settled_later; [exact He|by eapply Hs]. Qed.
Lemma all_settled_from r d d1 d2 : evolves d d1 → all_settled r d1 d2 → all_settled r d d2.
Proof.
  intros He Hs no p Hp Hr. destruct (ev_becomes _ _ He _ _ Hp) as (p' & Hp' & Hb). eapply Hs; [done|]. by rewrite (be_role _ _ Hb).
Qed.
Lemma idle_all_settled r d : desk_ok d → sl_cmd (slot d r) = None → all_settled r d d.
Proof. intros Hok Hs no p Hp <-. by apply (forgotten_settled d no p); [..|by rewrite Hs]. Qed.
Lemma stop_all_settled C t r cmd d :
  desk_ok d → sl_cmd (slot d r) = Some cmd →
  during (goes C) (stop_process t r cmd) (λ d' _, desk_ok d' ∧ all_settled r d d') d.
Proof.
  intros Hok Hcmd. destruct (dk_current d Hok r cmd Hcmd) as (q & Hq & Hrq & Hpid & Hst).
  apply (during_mono _ _ (λ d' _, goes C d d' ∧ settled (cmd_no cmd) d')).
  - intros d' _ [Hd Hs]. specialize (Hd Hok). split; [by eapply moves_ok|]. intros no p Hp Hr.
    destruct (decide (no = cmd_no cmd)) as [->|Hne]; [done|].
    eapply settled_later; [by apply (moves_evolve C)|]. apply (forgotten_settled d no p); [done..|].
    rewrite Hr, Hcmd. intros E. apply Hne. by rewrite (inj Some _ _ E).
  - apply during_from; [apply _|apply acts_goes, acts_stop_process|]. apply stop_settles. split; [done|]. by exists q.
Qed.
(** What both stops do with what they find running. *)
Lemma stop_found_settles C t r d d1 :
  desk_ok d → goes C d d1 →
  during (goes C) (match sl_cmd (slot d1 r) with None => CRet tt | Some cmd => stop_process t r cmd end)
    (λ d' _, desk_ok d' ∧ all_settled r d d') d1.
Proof.
  intros Hok Hd1. assert (Hok1 : desk_ok d1) by (by eapply moves_ok; [apply Hd1|]).
  assert (He : evolves d d1) by (by apply (moves_evolve C), Hd1). destruct (sl_cmd (slot d1 r)) as [cmd|] eqn:Hcmd.
  - eapply during_mono; [|by apply (stop_all_settled C t r cmd d1)]. intros d' _ [? Hs]. split; [done|]. by eapply all_settled_from.
  - split; [done|]. by eapply all_settled_from, idle_all_settled.
Qed.
Lemma stopWorker_settles C t d :
  desk_ok d → during (goes C) (stopWorker t) (λ d' e, e = None ∧ desk_ok d' ∧ all_settled WorkerRole d d') d.
Proof.
  intros Hok. apply during_peek. intros d1 Hd1. pose proof (stop_found_settles C t WorkerRole d d1 Hok Hd1) as Hs.
  destruct (sl_cmd (slot d1 WorkerRole)) as [cmd|]; [|by destruct Hs]. apply during_bind.
  eapply during_mono; [|exact Hs]. by intros d' _ [??].
Qed.
Lemma stopRPC_settles C t d :
  desk_ok d → during (goes C) (stopLlamaCPPRPC t) (λ d' e, e = None ∧ desk_ok d' ∧ all_settled RPCRole d d') d.
Proof.
  intros Hok. apply during_peek. intros d1 Hd1. cbn [fst snd]. apply during_bind.
  eapply during_mono; [|by apply (stop_found_settles C t RPCRole d d1)]. intros d2 _ [Hok2 Hs] d3 Hd3. cbn [fst snd cbind during].
  assert (Hm : moves C d2 (d3 <| dk_fs := (ClearLlamaCPPRPCState (t ++ ["clear"%string]) (dk_fs d3) (cfg_WorkerCacheDir (ctl_config (dk_ctl d1)))).1 |>))
    by (etrans; [by apply Hd3|apply moves_files]).
  split_and!; [done|by eapply moves_ok|]. by eapply all_settled_later; [eapply moves_evolve|].
Qed.

Lemma during_keep {A : Type} C (I : Desk → Prop) (p : cprog A) d :
  (∀ d1 d2, goes C d1 d2 → I d1 → I d2) → acts (moves C) p → I d → during (goes C) p (λ d' _, I d') d.
Proof. intros HI Hp Hd. apply during_true; [apply _|intros d' a Hd'; by eapply HI|by apply acts_goes]. Qed.
Lemma during_cguard {A : Type} R b r (k : cprog A) Q d : during R k Q d → during R (cguard b r k) Q d.
Proof. by destruct b. Qed.

(** *** A server that starts *)

Lemma new_server_desk t path token fs hosts d :
  NewServerWithToken t path token fs hosts = Ok d →
  desk_ok d ∧ dk_procs d = [] ∧ dk_fs d = fs ∧ ctl_token (dk_ctl d) = TrimSpace token.
Proof.
  unfold NewServerWithToken. destruct (loadConfig _ _ _ _) as [hosts' [cfg|e]]; intros [= <-]; split_and!; try done.
  by split; [done|done|by intros r; split; intros []].
Qed.
Abbreviation any_config := (λ _ : Config, True).
Abbreviation served := (control_requests decode_config (λ _, True)).
Abbreviation undisturbed := (control_requests decode_config (λ r, ¬ sets_config r)).
Abbreviation blank_config := (λ cfg : Config, cfg_JoinToken cfg = ""%string).
Lemma served_acts p : served p → acts (moves any_config) p.
Proof. intros (t & r & _ & ->). by apply serve_acts. Qed.
Lemma undisturbed_acts p : undisturbed p → acts (moves blank_config) p.
Proof. intros (t & r & Hr & ->). apply serve_acts; [done|]. by intros ?. Qed.
Lemma served_run d ps d' ps' :
  desk_ok d → Forall (acts (moves any_config)) ps → rtc (floor_step served) (d, ps) (d', ps') →
  evolves d d' ∧ desk_ok d' ∧ Forall (acts (moves any_config)) ps'.
Proof.
  intros Hok Hps Hrun. destruct (floor_run any_config served d ps d' ps') as [Hm Hps']; [apply served_acts|done..|].
  split_and!; [by eapply moves_evolve|by eapply moves_ok|done].
Qed.

(** Without a token no worker is started. *)
Lemma launchable_token cfg p : launchable cfg p → cfg_JoinToken cfg = ""%string → ps_role p ≠ WorkerRole.
Proof.
  intros (t & hosts & Hl) Htok Hr. rewrite Hr in Hl. destruct Hl as (_ & Hrun & _). unfold validateRunnableConfig in Hrun.
  assert (Hj : cfg_JoinToken (normalizeConfig t hosts cfg).2 = ""%string).
  { unfold normalizeConfig. destruct (if str_eqb _ _ then _ else _) as [hs ad]. simpl. by rewrite Htok. }
  by rewrite Hj in Hrun.
Qed.
Lemma altered_lookup {A} (f : A → A) i (l : list A) no x : alter f i l !! no = Some x → is_Some (l !! no).
Proof. intros Hx%lookup_lt_Some. apply lookup_lt_is_Some. by rewrite length_alter in Hx. Qed.
Lemma blank_move_starts_no_worker m d no p :
  allowed blank_config m d → cfg_JoinToken (ctl_config (dk_ctl d)) = ""%string →
  dk_procs (perform m d) !! no = Some p → ps_role p = WorkerRole → is_Some (dk_procs d !! no).
Proof.
  intros Ha Htok Hp Hr. destruct m as [| | | |s cmd|q now|i res|i r code text]; try (by eexists).
  - change (alter (signalled s) (cmd_no cmd) (dk_procs d) !! no = Some p) in Hp. by eapply altered_lookup.
  - rewrite launch_procs in Hp. apply lookup_app_Some in Hp as [Hp|[_ [_ ->]%list_lookup_singleton_Some]]; [by eexists|].
    destruct Ha as (_ & _ & _ & Hl). by destruct (launchable_token _ _ Hl Htok).
  - change (alter (in_state (Ended res)) i (dk_procs d) !! no = Some p) in Hp. by eapply altered_lookup.
  - rewrite note_procs in Hp. by eapply altered_lookup.
Qed.
Lemma moves_blank d d' :
  moves blank_config d d' → cfg_JoinToken (ctl_config (dk_ctl d)) = ""%string →
  cfg_JoinToken (ctl_config (dk_ctl d')) = ""%string ∧
  (∀ no p, dk_procs d' !! no = Some p → ps_role p = WorkerRole → is_Some (dk_procs d !! no)).
Proof.
  induction 1 as [d|d1 d2 d3 (m & Hm & ->) Hrest IH]; intros Htok; [split; [done|]; intros no p ->; by eexists|].
  assert (Htok' : cfg_JoinToken (ctl_config (dk_ctl (perform m d1))) = ""%string) by (by destruct m).
  destruct (IH Htok') as [Ht Hw]. split; [done|]. intros no p Hp Hr. destruct (Hw no p Hp Hr) as [q Hq].
  destruct (ev_becomes _ _ (moves_evolve blank_config _ _ Hrest) _ _ Hq) as (q' & Hq' & Hb). simplify_eq.
  eapply blank_move_starts_no_worker; [done..|]. by rewrite <- (be_role _ _ Hb).
Qed.

(** *** Stopping and disconnecting, request by request *)

Lemma serve_stop t r : rq_Path r = "/v1/stop"%string → control_serve decode_config t r = handleStop t r.
Proof. intros Hp. unfold control_serve. by rewrite Hp. Qed.
Lemma serve_disconnect t r : rq_Path r = "/v1/disconnect"%string → control_serve decode_config t r = handleDisconnect t r.
Proof. intros Hp. unfold control_serve. by rewrite Hp. Qed.
Lemma goes_ok C d d' : goes C d d' → desk_ok d → desk_ok d'.
Proof. intros Hd Hok. by eapply moves_ok; [apply Hd|]. Qed.
Lemma goes_evolves C d d' : goes C d d' → desk_ok d → evolves d d'.
Proof. intros Hd Hok. by eapply moves_evolve, Hd. Qed.
Lemma during_posted {A : Type} C r (k : cprog A) Q d :
  (∀ d', goes C d d' → during (goes C) k Q d') → during (goes C) (posted_control r k) Q d.
Proof. intros Hk. apply during_peek. intros d' Hd. by apply during_cguard, during_cguard, Hk. Qed.
Lemma during_attempt {A : Type} C code p (k : cprog A) Q d :
  during (goes C) p (λ d' e, e = None → during (goes C) k Q d') d → during (goes C) (attempt code p k) Q d.
Proof. intros Hp. apply during_bind. eapply during_mono; [|exact Hp]. intros d' [e|] He; [done|by apply He]. Qed.
Lemma settled_keep C r d d1 d2 :
  goes C d1 d2 → desk_ok d1 ∧ all_settled r d d1 → desk_ok d2 ∧ all_settled r d d2.
Proof. intros Hd [Hok Hs]. split; [by eapply goes_ok|]. by eapply all_settled_later; [eapply goes_evolves|]. Qed.

Lemma handleStop_settles C t r d :
  desk_ok d → during (goes C) (handleStop t r) (λ d' _, desk_ok d' ∧ all_settled WorkerRole d d') d.
Proof.
  intros Hok. apply during_posted. intros d1 Hd1. assert (Hok1 : desk_ok d1) by (by eapply goes_ok).
  apply during_attempt. eapply during_mono; [|by apply stopWorker_settles]. intros d2 e (_ & Hok2 & Hs) _.
  apply (during_keep C (λ d', desk_ok d' ∧ all_settled WorkerRole d d')); [|apply acts_reply_status|].
  - intros d3 d4 Hd. by apply (settled_keep C).
  - split; [done|]. by eapply all_settled_from; [eapply goes_evolves|].
Qed.

(** What a disconnect leaves. *)
Record disconnected (d d' : Desk) : Prop := {
  di_ok : desk_ok d';
  di_worker : all_settled WorkerRole d d';
  di_rpc : all_settled RPCRole d d';
  di_token : cfg_JoinToken (ctl_config (dk_ctl d')) = ""%string;
}.
Lemma disconnected_keep d d1 d2 : goes blank_config d1 d2 → disconnected d d1 → disconnected d d2.
Proof.
  intros Hd [Hok Hw Hr Ht]. assert (He : evolves d1 d2) by (by eapply goes_evolves). split.
  - by apply (ev_ok _ _ He).
  - by eapply all_settled_later.
  - by eapply all_settled_later.
  - by apply (moves_blank d1 d2); [apply Hd|].
Qed.
Lemma handleDisconnect_leaves t r d :
  desk_ok d → during (goes blank_config) (handleDisconnect t r) (λ d' _, disconnected d d') d.
Proof.
  intros Hok. apply during_posted. intros d1 Hd1. assert (Hok1 : desk_ok d1) by (by eapply goes_ok).
  assert (He1 : evolves d d1) by (by eapply goes_evolves).
  apply during_attempt. eapply during_mono.
  2: { apply during_from; [apply _|apply acts_goes, acts_stopWorker|by apply stopWorker_settles]. }
  intros d2 e (Hd2 & _ & Hok2 & Hw) _. assert (He2 : evolves d1 d2) by (by eapply goes_evolves).
  apply during_bind. eapply during_mono.
  2: { apply during_from; [apply _|apply acts_goes, acts_stopRPC|by apply stopRPC_settles]. }
  intros d3 e' (Hd3 & _ & Hok3 & Hr). assert (He3 : evolves d2 d3) by (by eapply goes_evolves).
  intros d4 Hd4. cbn [cbind fst snd act]. set (d5 := log _ _).
  assert (Hd5 : moves blank_config d4 d5) by (etrans; [by apply (moves_config blank_config d4 (forget_token (ctl_config (dk_ctl d4))))|apply moves_log]).
  assert (Hdis : disconnected d d5).
  { assert (Hm : moves blank_config d3 d5) by (etrans; [by apply Hd4|exact Hd5]). split; [by eapply moves_ok| | |done].
    - eapply all_settled_later; [by eapply moves_evolve|]. eapply all_settled_later; [exact He3|]. by eapply all_settled_from.
    - eapply all_settled_later; [by eapply moves_evolve|]. eapply all_settled_from; [|exact Hr]. by etrans. }
  apply (during_keep blank_config (disconnected d)); [apply disconnected_keep| |done].
  apply acts_bind; [by apply acts_peek, _|]. intros path. apply acts_attempt; [apply acts_saveConfig|apply acts_reply_status].
Qed.

(** ** What holds of every run *)

(** *** One process of each role *)

(** C6 (invariant). However requests interleave with each other, with the end of processes and
    with their output: at any moment at most one worker and one RPC server were
    started and not yet taken note of; the status reports exactly that one; and
    every process was started with the arguments of a valid configuration, a
    worker of one with a join token. *)
Theorem one_process_of_each_role t path token fs hosts d0 d ps t' :
  NewServerWithToken t path token fs hosts = Ok d0 → rtc (floor_step served) (d0, []) (d, ps) →
  (∀ i j p q, dk_procs d !! i = Some p → dk_procs d !! j = Some q → ps_role p = ps_role q →
     ps_state p ≠ Noted → ps_state q ≠ Noted → i = j) ∧
  (∀ i p, dk_procs d !! i = Some p → ∃ cfg, launchable cfg p) ∧
  (let st := (status t' d).2 in
   let reports (r : role) (s : ProcessStatus) :=
     if pst_Running s then ∃ i p, dk_procs d !! i = Some p ∧ ps_role p = r ∧ ps_state p ≠ Noted ∧ pst_PID s = ps_pid p
     else ∀ i p, dk_procs d !! i = Some p → ps_role p = r → ps_state p = Noted in
   reports WorkerRole (st_Process st) ∧ reports RPCRole (rst_Process (st_RPC st))).
Proof.
  intros Hnew Hrun. destruct (new_server_desk _ _ _ _ _ _ Hnew) as (Hok0 & Hnil & _).
  destruct (served_run d0 [] d ps) as (He & Hok & _); [done|by apply List.Forall_nil|done|].
  assert (Hrep : ∀ r, if pst_Running (process_status (slot d r))
    then ∃ i p, dk_procs d !! i = Some p ∧ ps_role p = r ∧ ps_state p ≠ Noted ∧ pst_PID (process_status (slot d r)) = ps_pid p
    else ∀ i p, dk_procs d !! i = Some p → ps_role p = r → ps_state p = Noted).
  { intros r. unfold process_status. cbn [pst_Running pst_PID]. destruct (sl_cmd (slot d r)) as [cmd|] eqn:Hcmd.
    - rewrite bool_decide_true by (by eexists). destruct (dk_current d Hok r cmd Hcmd) as (p & Hp & Hr & Hpid & Hst).
      exists (cmd_no cmd), p. by rewrite Hpid.
    - rewrite bool_decide_false by (by intros []). intros i p Hp <-. apply (forgotten_noted d i); [done..|]. by rewrite Hcmd. }
  split_and!.
  - intros i j p q Hp Hq Hr Hnp Hnq. pose proof (dk_known d Hok i p Hp Hnp) as H1'. pose proof (dk_known d Hok j q Hq Hnq) as H2'.
    rewrite Hr, H2' in H1'. congruence.
  - intros i p Hp. apply (ev_launched _ _ He i); [done|]. by rewrite Hnil.
  - cbv zeta. unfold status. destruct (normalizeConfig _ _ _) as [hs cfg]. cbn [snd st_Process st_RPC rst_Process]. split; apply Hrep.
Qed.

(** *** Stopping *)

(** C7 (liveness). When a stop is answered, every worker there was when it came in has ended and
    that was noted, or it was killed: no interleaving makes a stop lose the worker
    it was asked to stop. *)
Theorem answered_stop_settles_workers t path token fs hosts d0 d ps d' ps' t' r reply :
  NewServerWithToken t path token fs hosts = Ok d0 → rtc (floor_step served) (d0, []) (d, ps) →
  rq_Path r = "/v1/stop"%string →
  rtc (floor_step served) (d, ps ++ [control_serve decode_config t' r]) (d', ps') →
  ps' !! length ps = Some (CRet reply) →
  ∀ no p, dk_procs d !! no = Some p → ps_role p = WorkerRole →
  ∃ p', dk_procs d' !! no = Some p' ∧ (ps_state p' = Noted ∨ Kill ∈ ps_signals p').
Proof.
  intros Hnew Hrun Hpath Hrun' Hdone no p Hp Hr. destruct (new_server_desk _ _ _ _ _ _ Hnew) as (Hok0 & _).
  destruct (served_run d0 [] d ps) as (_ & Hok & Hps); [done|by apply List.Forall_nil|done|].
  destruct (floor_during any_config served (λ d' _, desk_ok d' ∧ all_settled WorkerRole d d') d
    (ps ++ [control_serve decode_config t' r]) d' ps' (length ps)
    (control_serve decode_config t' r)) as (p' & Hp' & Hs); [apply served_acts| |done| |done| | |].
  - apply List.Forall_app. split; [done|]. apply List.Forall_cons; [|by apply List.Forall_nil]. apply served_acts. by exists t', r.
  - intros d1 d2 _. apply (settled_keep any_config).
  - by rewrite lookup_app_r, Nat.sub_diag.
  - rewrite serve_stop by done. by apply handleStop_settles.
  - rewrite Hdone in Hp'. simplify_eq. by eapply (proj2 Hs).
Qed.

(** C29 (safety). On a control server that since its start has been asked for anything,
    interleaved anyhow, but to put a configuration: when a disconnect is answered the
    join token is gone, and every worker and RPC server there was when it came in has
    ended and that was noted, or it was killed; from then on, as long as no
    configuration is put, no worker is started.  (A configuration put meanwhile can
    bring the token back, [put_during_disconnect].) *)
Theorem disconnect_lasts t path token fs hosts d0 d ps d1 ps1 d2 ps2 t' r reply :
  NewServerWithToken t path token fs hosts = Ok d0 → rtc (floor_step undisturbed) (d0, []) (d, ps) →
  rq_Path r = "/v1/disconnect"%string →
  rtc (floor_step undisturbed) (d, ps ++ [control_serve decode_config t' r]) (d1, ps1) →
  ps1 !! length ps = Some (CRet reply) → rtc (floor_step undisturbed) (d1, ps1) (d2, ps2) →
  cfg_JoinToken (ctl_config (dk_ctl d2)) = ""%string ∧
  (∀ no p, dk_procs d2 !! no = Some p → ps_role p = WorkerRole → is_Some (dk_procs d1 !! no)) ∧
  (∀ no p, dk_procs d !! no = Some p →
     ∃ p', dk_procs d2 !! no = Some p' ∧ (ps_state p' = Noted ∨ Kill ∈ ps_signals p')).
Proof.
  intros Hnew Hrun Hpath Hrun1 Hdone Hrun2. destruct (new_server_desk _ _ _ _ _ _ Hnew) as (Hok0 & _).
  destruct (floor_run blank_config undisturbed d0 [] d ps) as [Hm Hps]; [apply undisturbed_acts|by apply List.Forall_nil|done..|].
  assert (Hok : desk_ok d) by (by eapply moves_ok).
  assert (Hps' : Forall (acts (moves blank_config)) (ps ++ [control_serve decode_config t' r])).
  { apply List.Forall_app. split; [done|]. apply List.Forall_cons; [|by apply List.Forall_nil]. rewrite serve_disconnect by done. by apply acts_disconnect. }
  destruct (floor_run blank_config undisturbed d _ d1 ps1 undisturbed_acts Hps' Hok Hrun1) as [Hm1 Hps1].
  destruct (floor_during blank_config undisturbed (λ d' _, disconnected d d') d
    (ps ++ [control_serve decode_config t' r]) d1 ps1 (length ps)
    (control_serve decode_config t' r)) as (p' & Hp' & Hs); [apply undisturbed_acts|done..| |done| | |].
  - intros ? ? _. apply disconnected_keep.
  - by rewrite lookup_app_r, Nat.sub_diag.
  - rewrite serve_disconnect by done. by apply handleDisconnect_leaves.
  - rewrite Hdone in Hp'. simplify_eq.
    destruct (floor_run blank_config undisturbed d1 ps1 d2 ps2 undisturbed_acts Hps1 (di_ok _ _ Hs) Hrun2) as [Hm2 _].
    destruct (moves_blank d1 d2 Hm2 (di_token _ _ Hs)) as [Ht Hw]. split_and!; [done..|]. intros no p Hp.
    assert (Hs2 : disconnected d d2) by (eapply disconnected_keep; [|exact Hs]; intros _; exact Hm2).
    destruct (ps_role p) eqn:Hr; [by eapply (di_worker _ _ Hs2)|by eapply (di_rpc _ _ Hs2)].
Qed.
End interference.
