(* ===== verification/ControlState.v ===== *)
(** * The worker control's configuration, output and published state

    What a configuration that was put survives, what a request without the
    token can do, what the tail of the output holds, and how the file that says
    where the RPC server is follows the server; with worked runs. *)

From S2P Require Import Prelude GoString GoSort GoFloat World Json Cdip Types Protocol Models State JobStore RpcPool.
From S2P Require Import DistributedPlan Transport Http Prompt Paths Files LlamaCpp Discovery Demo WorkerControl ControlRun.
#[local] Open Scope cprog_scope.

(** ** The tail of the output *)

Lemma string_split n s : (n <= String.length s)%nat → ∃ a b, s = (a +:+ b) ∧ String.length a = n.
Proof.
  revert s. induction n as [|n IH]; intros s Hn; [by exists ""%string, s|]. destruct s as [|c s]; simpl in Hn; [lia|].
  destruct (IH s) as (a & b & -> & Ha); [lia|]. exists (String c a), b. by rewrite <- Ha.
Qed.
Lemma substring_all s : String.substring 0 (String.length s) s = s.
Proof. induction s as [|c s IH]; simpl; [done|]. by rewrite IH. Qed.
Lemma from_byte_app a b : from_byte (Z.of_nat (String.length a)) (a +:+ b) = b.
Proof.
  unfold from_byte. rewrite Nat2Z.id, string_app_length. replace (_ + _ - _)%nat with (String.length b) by lia.
  induction a as [|c a IH]; simpl; [apply substring_all|exact IH].
Qed.
Lemma from_byte_all n s : n <= 0 → from_byte n s = s.
Proof. intros Hn. unfold from_byte. replace (Z.to_nat n) with 0%nat by lia. rewrite Nat.sub_0_r. apply substring_all. Qed.

(** The last bytes of a text. *)
Definition last_bytes (limit : Z) (s : string) : string := from_byte (Z.of_nat (String.length s) - limit) s.
Lemma last_bytes_app limit a b : Z.of_nat (String.length b) = limit → last_bytes limit (a +:+ b) = b.
Proof.
  intros Hb. unfold last_bytes. rewrite string_app_length. replace (_ - limit) with (Z.of_nat (String.length a)) by lia. apply from_byte_app.
Qed.
Lemma last_bytes_all limit s : Z.of_nat (String.length s) <= limit → last_bytes limit s = s.
Proof. intros Hs. apply from_byte_all. lia. Qed.
(** A text is its last bytes after something, which is nothing when it is short. *)
Lemma last_bytes_split limit s : 0 <= limit →
  ∃ a, s = (a +:+ last_bytes limit s) ∧ Z.of_nat (String.length (last_bytes limit s)) <= limit ∧
  (a ≠ ""%string → Z.of_nat (String.length (last_bytes limit s)) = limit).
Proof.
  intros Hl. destruct (Z.leb_spec (Z.of_nat (String.length s)) limit) as [Hle|Hgt].
  - exists ""%string. by rewrite last_bytes_all.
  - destruct (string_split (Z.to_nat (Z.of_nat (String.length s) - limit)) s) as (a & b & -> & Ha); [lia|].
    rewrite string_app_length in *. assert (Hb : Z.of_nat (String.length b) = limit) by lia. exists a. rewrite last_bytes_app by done.
    split_and!; [done|lia|done].
Qed.
Lemma last_bytes_last limit s p : 0 <= limit → last_bytes limit (last_bytes limit s +:+ p) = last_bytes limit (s +:+ p).
Proof.
  intros Hl. destruct (last_bytes_split limit s Hl) as (a & Hs & Hle & Hfull). remember (last_bytes limit s) as b eqn:Eb. clear Eb.
  subst s. rewrite <- string_app_assoc. destruct (decide (a = ""%string)) as [->|Ha]; [done|]. specialize (Hfull Ha).
  destruct (last_bytes_split limit (b +:+ p) Hl) as (c & Hc & Hle' & Hfull'). rewrite Hc at 2. rewrite string_app_assoc.
  rewrite (last_bytes_app limit (a +:+ c)); [done|]. apply (f_equal String.length) in Hc. rewrite !string_app_length in Hc.
  destruct (decide (c = ""%string)) as [->|Hne]; [|by apply Hfull']. simpl in Hc. lia.
Qed.
Lemma tail_Write_last b p :
  tail_Write b p = mkTailBuffer (tb_limit b) (last_bytes (tb_limit b) (tb_buf b +:+ p)).
Proof. unfold tail_Write. f_equal. destruct (Z.ltb_spec (tb_limit b) (Z.of_nat (String.length (tb_buf b +:+ p)))); [done|]. by rewrite last_bytes_all. Qed.

(** C40 (bounds). Whatever was written, and in whatever pieces, the buffer holds the last bytes
    of all of it, as many as its limit. *)
Theorem tail_holds_last_bytes limit (pieces : list string) :
  0 <= limit →
  let written := foldl String.append ""%string pieces in
  let kept := tb_buf (foldl tail_Write (newTailBuffer limit) pieces) in
  (∃ before, written = (before +:+ kept) ∧ (before ≠ ""%string → Z.of_nat (String.length kept) = limit)) ∧
  Z.of_nat (String.length kept) <= limit.
Proof.
  intros Hl. cbv zeta. assert (Hkept : foldl tail_Write (newTailBuffer limit) pieces =
    mkTailBuffer limit (last_bytes limit (foldl String.append ""%string pieces))).
  { induction pieces as [|p pieces IH] using rev_ind; [unfold newTailBuffer; by rewrite last_bytes_all by (simpl; lia)|].
    rewrite !foldl_snoc, IH, tail_Write_last. cbn [tb_limit tb_buf]. by rewrite last_bytes_last. }
  rewrite Hkept. cbn [tb_buf]. destruct (last_bytes_split limit (foldl String.append ""%string pieces) Hl) as (a & Ha & Hle & Hfull).
  split; [by exists a|done].
Qed.
Lemma tail_holds_last_bytes_witness :
  tb_buf (foldl tail_Write (newTailBuffer 4) ["ab"; ""; "cde"; "f"]%string) = "cdef"%string ∧
  (Z.of_nat (String.length (tb_buf (foldl tail_Write (newTailBuffer 4) ["ab"; ""; "cde"; "f"]%string))) <= 4).
Proof.
  split; [by vm_compute|]. refine (proj2 (tail_holds_last_bytes 4 ["ab"; ""; "cde"; "f"]%string _)). lia.
Defined.

(** ** Requests without the token *)

Section strangers.
Context `{W : World} `{Files} `{Platform} `{Host} `{RuntimeTexts} `{DiscoveryCodecs} `{Facts} `{LowerCase}.
Context `{Surroundings} `{ConfigText} `{ControlTexts} (decode_config : string → Config * bool) `{JsonBody githubRelease}.

(** A program that, with this token set, leaves the desk alone and ends with a
    refusal, or by saying that the server is there. *)
Fixpoint idles (token : string) (p : cprog Reply) : Prop :=
  match p with
  | CRet reply => rep_Body reply = CHealth
  | CStop reply => rep_Status reply = 401 ∨ rep_Status reply = 404
  | CAct f k => ∀ d, ctl_token (dk_ctl d) = token → (f d).1 = d ∧ idles token (k (f d).2)
  end.
Lemma idles_authorize token r k : authorized token r = false → idles token (authorize_control r k).
Proof. intros Ha d <-. split; [done|]. cbn [peek act fst snd]. by rewrite Ha; left. Qed.
Lemma serve_idles token t r : authorized token r = false → idles token (control_serve decode_config t r).
Proof.
  intros Ha. unfold control_serve. destruct (find _ _) as [x|] eqn:Ef; [|by right]. apply find_some in Ef as [Hin _].
  assert (Hall : Forall (λ x, idles token (x.2 r)) (control_routes decode_config t)).
  { unfold control_routes. repeat apply List.Forall_cons; [done|cbn [snd]; by apply idles_authorize..|by apply List.Forall_nil]. }
  rewrite List.Forall_forall in Hall. by apply Hall.
Qed.
Lemma desk_step_token d d' : desk_step d d' → ctl_token (dk_ctl d') = ctl_token (dk_ctl d).
Proof. destruct 1 as [|t d no p res _ _|]; [done| |done]. unfold note_exit. destruct (decide _); [by destruct (ps_role p)|done]. Qed.

(** C20 (safety). When a token is set, requests that do not carry it do nothing, however many
    they are and however they interleave: the desk only changes by what happens
    on its own, and every answer is a refusal or the health check's. *)
Theorem strangers_change_nothing d d' ps' :
  let stranger := control_requests decode_config (λ r, authorized (ctl_token (dk_ctl d)) r = false) in
  rtc (floor_step stranger) (d, []) (d', ps') →
  rtc desk_step d d' ∧
  ∀ i, match ps' !! i with
       | Some (CRet reply) => rep_Body reply = CHealth
       | Some (CStop reply) => rep_Status reply = 401 ∨ rep_Status reply = 404
       | _ => True
       end.
Proof.
  intros stranger Hrun. set (token := ctl_token (dk_ctl d)) in *.
  assert (Hgen : rtc desk_step d d' ∧ Forall (idles token) ps').
  { remember (d, []) as x eqn:Ex. remember (d', ps') as y eqn:Ey.
    assert (Hx : ctl_token (dk_ctl x.1) = token ∧ Forall (idles token) x.2) by (subst x; split; [done|by apply List.Forall_nil]).
    replace d with x.1 by (by subst x). clear Ex. revert d' ps' Ey.
    induction Hrun as [x|x1 x2 x3 Hstep _ IH]; intros d' ps' ->; [by destruct Hx; split; [apply rtc_refl|]|].
    destruct Hx as [Htok Hall]. inversion Hstep as [d1 ps p Hp|d1 ps i B f k Hi|d1 d2 ps Hd]; subst; simpl in *.
    - assert (Hall2 : Forall (idles token) (ps ++ [p])).
      { apply List.Forall_app. split; [done|]. apply List.Forall_cons; [|by apply List.Forall_nil].
        destruct Hp as (t & r & Ha & ->). by apply serve_idles. }
      apply (IH (conj Htok Hall2) d' ps' eq_refl).
    - destruct (Forall_lookup_1 _ _ _ _ Hall Hi d1 Htok) as [Hf Hk]. rewrite Hf in IH. apply (IH (conj Htok (Forall_insert _ _ _ _ Hall Hk)) d' ps' eq_refl).
    - assert (Htok2 : ctl_token (dk_ctl d2) = token) by (by rewrite (desk_step_token _ _ Hd)).
      destruct (IH (conj Htok2 Hall) d' ps' eq_refl) as [Hr Hps]. split; [by eapply rtc_l|done]. }
  destruct Hgen as [Hd Hps]. split; [done|]. intros i. destruct (ps' !! i) as [p|] eqn:Hi; [|done].
  pose proof (Forall_lookup_1 _ _ _ _ Hps Hi) as Hp. by destruct p.
Qed.
End strangers.

(** ** A configuration that was put *)

Lemma trim_right_slash_idemp s : trim_right_slash (trim_right_slash s) = trim_right_slash s.
Proof.
  unfold trim_right_slash at 1. assert (Hd : drop_any ["/"%string] (rev_string (trim_right_slash s)) = None).
  { unfold trim_right_slash. rewrite rev_string_involutive. apply trim_left_done; [by repeat constructor|by rewrite rev_string_length]. }
  rewrite trim_left_id by done. apply rev_string_involutive.
Qed.

Lemma run_bind {A B : Type} (p : cprog A) (h : A → cprog B) d :
  run_alone (cbind p h) d = let '(d', out) := run_alone p d in
                            match out with inl a => run_alone (h a) d' | inr r => (d', inr r) end.
Proof. revert d. induction p as [a|r|B' f k IH]; intros d; simpl; [done..|]. destruct (f d) as [d' b]. apply IH. Qed.

Section configuration.
Context `{W : World} `{Files} `{Platform} `{Host} `{RuntimeTexts} `{DiscoveryCodecs} `{Facts} `{LowerCase}.
Context `{Surroundings} `{ConfigText} `{ControlTexts} (decode_config : string → Config * bool) `{JsonBody githubRelease}.

(** A configuration normalization leaves as it is. *)
Record steady (cfg : Config) : Prop := {
  sd_url : trim_right_slash (TrimSpace (cfg_ManagerURL cfg)) = cfg_ManagerURL cfg ∧ cfg_ManagerURL cfg ≠ ""%string;
  sd_token : TrimSpace (cfg_JoinToken cfg) = cfg_JoinToken cfg;
  sd_name : TrimSpace (cfg_NodeName cfg) = cfg_NodeName cfg ∧ cfg_NodeName cfg ≠ ""%string;
  sd_counts : cfg_CPU cfg ≠ 0 ∧ cfg_MemoryGB cfg ≠ 0 ∧ cfg_DiskGB cfg ≠ 0 ∧ cfg_JobSlots cfg ≠ 0 ∧ cfg_RPCPort cfg ≠ 0;
  sd_host : TrimSpace (cfg_RPCHost cfg) = cfg_RPCHost cfg ∧ cfg_RPCHost cfg ≠ ""%string;
  sd_advertise : TrimSpace (cfg_RPCAdvertiseHost cfg) = cfg_RPCAdvertiseHost cfg ∧ cfg_RPCAdvertiseHost cfg ≠ ""%string;
  sd_binary : TrimSpace (cfg_WorkerBinary cfg) = cfg_WorkerBinary cfg;
  sd_cache : TrimSpace (cfg_WorkerCacheDir cfg) = cfg_WorkerCacheDir cfg ∧ cfg_WorkerCacheDir cfg ≠ ""%string;
}.
Lemma or_default_id s d : s ≠ ""%string → or_default s d = s.
Proof. intros Hs. unfold or_default. by rewrite bool_decide_false. Qed.
Lemma or_default_int_id n d : n ≠ 0 → or_default_int n d = n.
Proof. intros Hn. unfold or_default_int. by destruct (Z.eqb_spec n 0). Qed.
Lemma steady_normalize t hosts cfg : steady cfg → normalizeConfig t hosts cfg = (hosts, cfg).
Proof.
  intros [[Hu Hu'] Ht [Hn Hn'] (Hc & Hm & Hd & Hj & Hp) [Hh Hh'] [Ha Ha'] Hb [Hw Hw']]. unfold normalizeConfig.
  rewrite Hu, Ht, Hn, Hh, Ha, Hb, Hw, !or_default_id, !or_default_int_id, (bool_decide_false (cfg_RPCAdvertiseHost cfg = _)) by done.
  by destruct cfg.
Qed.

(** The hosts inferred so far are trimmed. *)
Definition hosts_ok (hosts : gmap string string) : Prop := ∀ k v, hosts !! k = Some v → TrimSpace v = v.
Lemma infer_trimmed t hosts managerURL bindHost :
  hosts_ok hosts → let '(hosts', v) := inferRPCAdvertiseHost t hosts managerURL bindHost in
  hosts_ok hosts' ∧ TrimSpace v = v ∧ v ≠ ""%string.
Proof.
  intros Hok. unfold inferRPCAdvertiseHost. set (key := _ +:+ _). set (v := inferRPCAdvertiseHostUncached _ _ _).
  assert (Hv : TrimSpace v = v ∧ v ≠ ""%string).
  { unfold v, inferRPCAdvertiseHostUncached. destruct (any_address (TrimSpace bindHost)) eqn:Ea; simpl.
    - destruct (local_ip _ _) as [ip|] eqn:El; [by apply local_ip_trimmed in El|done].
    - split; [apply TrimSpace_idemp|]. intros E. by rewrite E in Ea. }
  assert (Hnew : hosts_ok (<[key := v]> hosts) ∧ TrimSpace v = v ∧ v ≠ ""%string).
  { split; [|done]. intros k x [[<- <-]|[_ Hx]]%lookup_insert_Some; [apply Hv|by eapply Hok]. }
  destruct (hosts !! key) as [x|] eqn:Ex; [|done]. case_bool_decide as E; [done|]. split_and!; [done|by eapply Hok|done].
Qed.
(** What normalization gives is steady, when the defaults are trimmed and the
    manager's URL has no white space before its final slashes. *)
Lemma normalized_steady t hosts cfg :
  hosts_ok hosts → TrimSpace default_node_name = default_node_name → num_cpu ≠ 0 →
  TrimSpace control_cache_dir = control_cache_dir ∧ control_cache_dir ≠ ""%string →
  let '(hosts', cfg') := normalizeConfig t hosts cfg in
  TrimSpace (cfg_ManagerURL cfg') = cfg_ManagerURL cfg' → hosts_ok hosts' ∧ steady cfg'.
Proof.
  intros Hok Hname Hcpu Hcache. unfold normalizeConfig.
  set (url := or_default _ _). set (rpcHost := or_default (TrimSpace (cfg_RPCHost cfg)) _).
  assert (Ha : let '(hosts', a) := if str_eqb (TrimSpace (cfg_RPCAdvertiseHost cfg)) "" then inferRPCAdvertiseHost t hosts url rpcHost
                                  else (hosts, TrimSpace (cfg_RPCAdvertiseHost cfg)) in
               hosts_ok hosts' ∧ TrimSpace a = a ∧ a ≠ ""%string).
  { case_bool_decide; [by apply infer_trimmed|]. split_and!; [done|apply TrimSpace_idemp|done]. }
  destruct (if str_eqb _ _ then _ else _) as [hosts' a]. cbn [cfg_ManagerURL]. intros Hurl. split; [apply Ha|].
  assert (Hor : ∀ s d, TrimSpace d = d → d ≠ ""%string → TrimSpace (or_default (TrimSpace s) d) = or_default (TrimSpace s) d ∧ or_default (TrimSpace s) d ≠ ""%string).
  { intros s d Hd Hd'. unfold or_default. case_bool_decide; [done|]. split; [apply TrimSpace_idemp|done]. }
  assert (Hint : ∀ n d, d ≠ 0 → or_default_int n d ≠ 0).
  { intros n d Hd. unfold or_default_int. by destruct (Z.eqb_spec n 0). }
  split; cbn [cfg_ManagerURL cfg_JoinToken cfg_NodeName cfg_CPU cfg_MemoryGB cfg_DiskGB cfg_JobSlots cfg_RPCPort cfg_RPCHost
    cfg_RPCAdvertiseHost cfg_WorkerBinary cfg_WorkerCacheDir].
  - rewrite Hurl. unfold url, or_default. case_bool_decide as E; [done|]. by rewrite trim_right_slash_idemp.
  - apply TrimSpace_idemp.
  - apply Hor; [done|]. cbn [cfg_NodeName defaultConfig]. unfold default_node_name. destruct hostname as [h|]; [|done]. by case_bool_decide.
  - split_and!; by apply Hint.
  - by apply Hor.
  - apply Ha.
  - apply TrimSpace_idemp.
  - apply Hor; apply Hcache.
Qed.

(** *** What a put does, served on its own *)

Lemma handleConfig_put t r d :
  is_method "PUT" r = true →
  run_alone (handleConfig decode_config t r) d =
  if negb (authorized (ctl_token (dk_ctl d)) r) then (d, inr control_unauthorized)
  else let '(cfg, ok) := decode_config (rq_Body r) in
       if negb ok then (d, inr (control_http_error (control_text BadConfig) 400))
       else let '(hosts, cfg) := normalizeConfig (t ++ ["normalize"%string]) (dk_hosts d) cfg in
            let d := d <| dk_hosts := hosts |> in
            match validateConfig cfg with
            | Some e => (d, inr (control_http_error (control_text e) 400))
            | None =>
                match run_alone (saveConfig (t ++ ["save"%string]) (ctl_configPath (dk_ctl d)) cfg) d with
                | (d, inl None) => (set dk_ctl (λ c, c <| ctl_config := cfg |>) d, inl (mkReply 200 (CConfig cfg)))
                | (d, inl (Some e)) => (d, inr (control_http_error (control_text e) 500))
                | (d, inr reply) => (d, inr reply)
                end
            end.
Proof.
  intros Hm. assert (Hg : is_method "GET" r = false).
  { unfold is_method in *. apply bool_decide_eq_true in Hm. by rewrite Hm. }
  unfold handleConfig, authorize_control, cguard. rewrite Hm, Hg. cbn [cbind peek act run_alone].
  destruct (negb (authorized _ _)); [done|]. destruct (decode_config _) as [cfg ok]. destruct (negb ok); [done|].
  cbn [cbind act run_alone]. destruct (normalizeConfig _ _ _) as [hosts cfg']. unfold attempt at 1. cbn [cbind].
  destruct (validateConfig cfg'); [done|]. cbn [cbind peek act run_alone]. unfold attempt. rewrite run_bind.
  destruct (run_alone _ _) as [d' [[e|]|reply]]; done.
Qed.
Lemma saveConfig_alone t path cfg d :
  ∃ fs hosts err, run_alone (saveConfig t path cfg) d = (d <| dk_fs := fs |> <| dk_hosts := hosts |>, inl err) ∧
  (err = None → steady cfg → ∃ m, fs !! at_path path = Some (EFile (config_text cfg) m)).
Proof.
  unfold saveConfig. cbn [cbind act run_alone]. destruct (os_MkdirAll _ _ _) as [fs [e|]].
  { exists fs, (dk_hosts d), (Some (OnFiles e)). by destruct d. }
  cbn [cbind act run_alone]. destruct (normalizeConfig _ _ cfg) as [hosts cfg'] eqn:En. cbn [run_alone].
  match goal with |- context [os_WriteFile ?t ?fs ?path ?text] => pose proof (WriteFile_spec t fs path text) as Hw;
    destruct (os_WriteFile t fs path text) as [fs' err] eqn:Ew end.
  exists fs', hosts, (option_map OnFiles err). split; [by destruct d|]. intros He Hs. rewrite (steady_normalize _ _ _ Hs) in En.
  injection En as _ <-. destruct err as [e|]; [done|]. by apply Hw.
Qed.
Lemma loadConfig_steady t fs hosts path cfg m :
  steady cfg → config_ok cfg → io_fault (t ++ ["read"%string]) = None →
  fs !! at_path path = Some (EFile (config_text cfg) m) → loadConfig t fs hosts path = (hosts, Ok cfg).
Proof.
  intros Hs Hok Hio Hf. unfold loadConfig, os_ReadFile. by rewrite Hio, Hf, read_config_text, (steady_normalize _ _ _ Hs) by done.
Qed.

(** C22 (roundtrip). A configuration that is put, on a server with a configuration
    file that can be read later, while nothing else is served: answered 200, it is
    valid and is the server's, and, when its texts survive JSON ([config_ok]) and it
    is one that normalizing leaves as it is ([steady]: also the URL, cf.
    [url_not_steady], where it is not), a server that starts later from the same
    path has the very same configuration; answered otherwise, the server keeps the
    one it has. *)
Theorem put_config_survives_restart t r d t' token hosts :
  rq_Path r = "/v1/config"%string → rq_Method r = "PUT"%string → ctl_configPath (dk_ctl d) ≠ ""%string →
  io_fault (t' ++ ["read"%string]) = None →
  match run_alone (control_serve decode_config t r) d with
  | (d', inl reply) =>
      let cfg := ctl_config (dk_ctl d') in
      reply = mkReply 200 (CConfig cfg) ∧ validateConfig cfg = None ∧ dk_procs d' = dk_procs d ∧
      (steady cfg → config_ok cfg →
       ∃ d2, NewServerWithToken t' (ctl_configPath (dk_ctl d)) token (dk_fs d') hosts = Ok d2 ∧ ctl_config (dk_ctl d2) = cfg)
  | (d', inr reply) => rep_Status reply ∈ [400; 401; 500] ∧ dk_ctl d' = dk_ctl d ∧ dk_procs d' = dk_procs d
  end.
Proof.
  intros Hpath Hm Hne Hio. assert (Hserve : control_serve decode_config t r = handleConfig decode_config t r)
    by (unfold control_serve; by rewrite Hpath).
  rewrite Hserve, handleConfig_put by (by unfold is_method; rewrite Hm). clear Hserve.
  destruct (negb (authorized _ _)); [split_and!; [set_solver|done..]|]. destruct (decode_config _) as [cfg0 ok].
  destruct (negb ok); [split_and!; [set_solver|done..]|]. destruct (normalizeConfig _ _ _) as [hs cfg]. cbv zeta.
  destruct (validateConfig cfg) eqn:Hv; [split_and!; [set_solver|done..]|].
  change (ctl_configPath (dk_ctl (d <| dk_hosts := hs |>))) with (ctl_configPath (dk_ctl d)).
  destruct (saveConfig_alone (t ++ ["save"%string]) (ctl_configPath (dk_ctl d)) cfg (d <| dk_hosts := hs |>)) as (fs & hs' & err & -> & Hsaved).
  destruct err as [e|]; [split_and!; [set_solver|done..]|]. split_and!; [done..|]. intros Hs Hok.
  change (steady cfg) in Hs. change (config_ok cfg) in Hok. destruct (Hsaved eq_refl Hs) as [m Hm']. unfold NewServerWithToken. rewrite bool_decide_false by done.
  match goal with |- context [loadConfig t' ?fs' hosts _] => change fs' with fs end.
  rewrite (loadConfig_steady t' fs hosts (ctl_configPath (dk_ctl d)) cfg m) by done. by eexists.
Qed.

(** ** The published state of the RPC server *)

Lemma endpoint_not_empty host port : JoinHostPort host port ≠ ""%string.
Proof. unfold JoinHostPort. destruct (Contains host ":"); [done|]. by destruct host. Qed.
(** What is published, for endpoints without surrounding white space. *)
Definition published (t : Tag) (cfg : Config) (pid : Z) : LlamaCPPRPCState :=
  mkRPCState true (rpcAdvertiseEndpoint cfg) (rpcBindEndpoint cfg) (rpcAdvertiseEndpoint cfg) pid
    (w_clock (t ++ ["now"%string])) (w_clock ((t ++ ["state"%string]) ++ ["now"%string])).
Lemma normalized_id st :
  TrimSpace (rpcs_Endpoint st) = rpcs_Endpoint st → rpcs_Endpoint st ≠ ""%string →
  TrimSpace (rpcs_BindEndpoint st) = rpcs_BindEndpoint st → rpcs_AdvertiseEndpoint st = rpcs_Endpoint st → normalized st = st.
Proof. intros He Hne Hb Ha. unfold normalized. rewrite Ha, He, Hb, !bool_decide_false by done. by destruct st; simpl in *; subst. Qed.

Section published.
Context (t : Tag) (cfg : Config) (pid : Z).
Context (Hep : TrimSpace (rpcAdvertiseEndpoint cfg) = rpcAdvertiseEndpoint cfg).
Context (Hbind : TrimSpace (rpcBindEndpoint cfg) = rpcBindEndpoint cfg).
Context (Hdir : TrimSpace (cfg_WorkerCacheDir cfg) = cfg_WorkerCacheDir cfg ∧ cfg_WorkerCacheDir cfg ≠ ""%string).

Lemma write_published fs fs' :
  WriteLlamaCPPRPCState (t ++ ["state"%string]) fs (cfg_WorkerCacheDir cfg) (rpc_state t cfg pid) = (fs', None) →
  ∃ m, fs' !! at_path (LlamaCPPRPCStatePath (cfg_WorkerCacheDir cfg)) = Some (EFile (Marshal (published t cfg pid)) m).
Proof.
  destruct Hdir as [Htrim Hne]. unfold WriteLlamaCPPRPCState. rewrite Htrim, bool_decide_false by done.
  rewrite normalized_id by (done || apply endpoint_not_empty). destruct (os_MkdirAll _ _ _) as [fs1 [e|]]; [done|].
  intros Hw. match type of Hw with os_WriteFile ?t ?fs ?path ?text = _ => pose proof (WriteFile_spec t fs path text) as Hs end.
  rewrite Hw in Hs. by apply Hs.
Qed.
Lemma read_published fs t' m :
  json_ok (published t cfg pid) → io_fault t' = None →
  fs !! at_path (LlamaCPPRPCStatePath (cfg_WorkerCacheDir cfg)) = Some (EFile (Marshal (published t cfg pid)) m) →
  ReadLlamaCPPRPCState t' fs (cfg_WorkerCacheDir cfg) = Some (published t cfg pid).
Proof.
  intros Hok Hio Hf. destruct Hdir as [Htrim Hne]. unfold ReadLlamaCPPRPCState, os_ReadFile.
  rewrite Htrim, bool_decide_false, Hio, Hf, json_roundtrip by done. cbn [mbind option_bind].
  rewrite normalized_id by (done || apply endpoint_not_empty). cbn [rpcs_Running rpcs_Endpoint published negb orb].
  by rewrite bool_decide_false by apply endpoint_not_empty.
Qed.
Lemma clear_published fs t' t2 :
  io_fault t' = None → is_file (fs !! at_path (LlamaCPPRPCStatePath (cfg_WorkerCacheDir cfg))) = true →
  ReadLlamaCPPRPCState t2 (ClearLlamaCPPRPCState t' fs (cfg_WorkerCacheDir cfg)).1 (cfg_WorkerCacheDir cfg) = None.
Proof.
  intros Hio (data & m & Hf)%is_file_true. destruct Hdir as [Htrim Hne].
  unfold ClearLlamaCPPRPCState, ReadLlamaCPPRPCState, os_Remove, os_ReadFile. rewrite Htrim, bool_decide_false, Hio, Hf by done.
  cbn [fst]. rewrite lookup_delete_eq. by destruct (io_fault t2).
Qed.
End published.

(** (functional). While nothing else is served, the state file follows the RPC server: a start
    that succeeds publishes the endpoint and the number of the process it
    started, a reader finds exactly them, and once the end of that process is
    noted a reader finds nothing. *)
Theorem published_state_follows_server t d d' :
  let cfg := ctl_config (dk_ctl d) in
  steady cfg → TrimSpace (rpcAdvertiseEndpoint cfg) = rpcAdvertiseEndpoint cfg →
  TrimSpace (rpcBindEndpoint cfg) = rpcBindEndpoint cfg →
  startLlamaCPPRPC t d = (d', None) →
  ∃ cmd, sl_cmd (slot d' RPCRole) = Some cmd ∧
  (∀ t', json_ok (published t cfg (cmd_Pid cmd)) → io_fault t' = None →
     ReadLlamaCPPRPCState t' (dk_fs d') (cfg_WorkerCacheDir cfg) = Some (published t cfg (cmd_Pid cmd))) ∧
  (∀ t' t2 res, io_fault t' = None →
     ReadLlamaCPPRPCState t2 (dk_fs (note_exit t' RPCRole cmd res d')) (cfg_WorkerCacheDir cfg) = None).
Proof.
  intros cfg Hs Hep Hbind. unfold startLlamaCPPRPC. destruct (sl_cmd (slot d RPCRole)); [done|]. fold cfg.
  rewrite (steady_normalize _ _ _ Hs). destruct (validateRPCConfig cfg); [done|]. cbv zeta. destruct (negb (rs_Ready _)); [done|].
  destruct (negb (pr_Ready _)); [done|]. set (path := pr_ServerPath _).
  pose proof (launch_cases t RPCRole path (llamaCPPRPCArgs cfg) (rpc_env cfg) (d <| dk_hosts := dk_hosts d |>)) as Hc.
  destruct (launch _ _ _ _ _ _) as [d1 [cmd|e]]; [|done]. destruct Hc as [Hcmd Hd1]. unfold publish_rpc.
  destruct (WriteLlamaCPPRPCState _ _ _ _) as [fs [e|]] eqn:Hw; [done|]. intros [= <-].
  destruct (write_published t cfg (cmd_Pid cmd) Hep Hbind (sd_cache _ Hs) _ _ Hw) as [m Hf]. exists cmd.
  assert (Hslot : sl_cmd (slot d1 RPCRole) = Some cmd) by (rewrite Hd1, launch_slot, decide_True by done; by rewrite Hcmd).
  split_and!; [exact Hslot| |].
  - intros t' Hok Hio. by apply (read_published t cfg (cmd_Pid cmd) Hep Hbind (sd_cache _ Hs) fs t' m).
  - intros t' t2 res Hio. unfold note_exit. rewrite decide_True by exact Hslot.
    assert (Hcfg : ctl_config (dk_ctl d1) = cfg) by (by rewrite Hd1).
    match goal with |- ReadLlamaCPPRPCState _ (dk_fs ?x) _ = None =>
      change (dk_fs x) with (ClearLlamaCPPRPCState t' fs (cfg_WorkerCacheDir (ctl_config (dk_ctl d1)))).1 end.
    rewrite Hcfg. apply clear_published; [exact (sd_cache _ Hs)|done|by rewrite Hf].
Qed.
End configuration.

(** ** Worked runs *)

(** A schedule of the requests in progress. *)
Fixpoint run_floor (schedule : list nat) (x : Desk * list (cprog Reply)) : Desk * list (cprog Reply) :=
  match schedule with
  | [] => x
  | i :: schedule =>
      run_floor schedule
        (match x.2 !! i with Some (CAct f k) => ((f x.1).1, <[i := k (f x.1).2]> x.2) | _ => x end)
  end.
Lemma run_floor_steps `{Files} arriving schedule x : rtc (floor_step arriving) x (run_floor schedule x).
Proof.
  revert x. induction schedule as [|i schedule IH]; intros x; simpl; [apply rtc_refl|]. destruct x as [d ps]. simpl.
  destruct (ps !! i) as [[| |B f k]|] eqn:E; try apply IH. eapply rtc_l; [by eapply fl_act|]. apply IH.
Qed.
Lemma arrive_and_run `{Files} (arriving : cprog Reply → Prop) schedule d ps p :
  arriving p → rtc (floor_step arriving) (d, ps) (run_floor schedule (d, ps ++ [p])).
Proof. intros Hp. eapply rtc_l; [by apply fl_arrive|]. apply run_floor_steps. Qed.

Section demo.
#[local] Existing Instance demo_files.
#[local] Instance floor_world : World := world_at 5.
#[local] Instance floor_platform : Platform := {| GOOS := "linux"; GOARCH := "amd64" |}.
#[local] Instance floor_host : Host := {|
  look_path name := Some ("/usr/bin/" +:+ name); getenv _ := ""; home_dir := None; user_cache_dir := None; temp_name _ := "/tmp/x";
  web_get _ _ := Err "offline"%string; read_zip _ := Err "not a zip"%string; read_tar_gz _ := Err "not an archive"%string |}.
#[local] Instance floor_texts : RuntimeTexts := {| runtime_text _ := "failed" |}.
#[local] Instance floor_facts : Facts := {| num_cpu := 4; statfs _ := None; command_output _ := None |}.
#[local] Existing Instance ascii_case.
#[local] Instance floor_release : JsonBody githubRelease := demo_release "b1".
#[local] Instance floor_around : Surroundings := {|
  hostname := Some "box"%string; user_config_dir := None; executable := Some "/usr/bin/cmesh"%string; parse_url _ := None;
  loopback_ip _ := false; local_ip _ _ := Some "10.0.0.5"%string;
  local_ip_trimmed _ _ ip E := eq_ind "10.0.0.5"%string (λ ip, TrimSpace ip = ip ∧ ip ≠ ""%string)
    (conj eq_refl (λ E, eq_ind "10.0.0.5"%string (λ s, if str_eqb s "" then False else True) I _ E)) ip (f_equal (default ""%string) E);
  start_process _ _ _ _ := Ok 100; pipe_fault _ := None; interrupt_fails _ := false; environ := [] |}.
(** A configuration with a token; as text, the token. *)
Definition floor_config (token : string) : Config :=
  mkConfig "http://m" token "n" 4 8 50 true 0 1 true "0.0.0.0" "10.0.0.5" 50052 true "" "c".
#[local] Instance floor_text : ConfigText := {|
  config_text := cfg_JoinToken; read_config _ s := Some (floor_config s); config_ok c := c = floor_config "tok";
  read_config_text _ c E := eq_ind_r (λ c, Some (floor_config (cfg_JoinToken c)) = Some c) eq_refl E |}.
#[local] Instance floor_errors : ControlTexts := {| control_text _ := "failed" |}.
Definition floor_state : LlamaCPPRPCState := published [] (floor_config "tok") 100.
#[local] Instance floor_codecs : DiscoveryCodecs := {|
  dc_manifest := opaque_codec _; dc_rpc_state := fixed_codec floor_state; dc_status := opaque_codec _ |}.
Definition floor_decode (body : string) : Config * bool := (floor_config "tok", true).
Definition floor_tree : tree := <[["home"; "w"; "control.json"]%string := EFile "tok" 1]> demo_tree.
Definition request_at (method path : string) : cprog Reply := control_serve floor_decode [path] (demo_request_to method path).
Definition floor_desk : Desk :=
  mkDesk floor_tree (mkControl "control.json" "" (floor_config "tok") (λ _, idle_slot) (newTailBuffer (32 * 1024))) ∅ [].
Lemma floor_desk_new : NewServerWithToken ["new"%string] "control.json" "" floor_tree ∅ = Ok floor_desk.
Proof. vm_compute. reflexivity. Qed.
Lemma request_served method path : control_requests floor_decode (λ _, True) (request_at method path).
Proof. by eexists _, _. Qed.

(** A worker is started; a second start is refused. *)
Definition started_run : Desk * list (cprog Reply) :=
  run_floor (repeat 0%nat 9 ++ repeat 1%nat 9) (floor_desk, [request_at "POST" "/v1/start"] ++ [request_at "POST" "/v1/start"]).
Example second_start_refused :
  (ps_args <$> dk_procs started_run.1) = [workerArgs (floor_config "tok")] ∧
  match started_run.2 with [CRet a; CStop b] => rep_Status a = 200 ∧ rep_Status b = 409 | _ => False end.
Proof. vm_compute. by split. Qed.

(** A configuration is put while the worker is disconnected: what the file says
    is without the token, what the server goes by is not. *)
Example put_during_disconnect :
  let run := run_floor (repeat 0%nat 6 ++ repeat 1%nat 20 ++ [0%nat])
               (floor_desk, [request_at "PUT" "/v1/config"; request_at "POST" "/v1/disconnect"]) in
  cfg_JoinToken (ctl_config (dk_ctl run.1)) = "tok"%string ∧
  dk_fs run.1 !! ["home"; "w"; "control.json"]%string = Some (EFile "" 5) ∧
  match run.2 with [CRet a; CRet b] => rep_Status a = 200 ∧ rep_Status b = 200 | _ => False end.
Proof. vm_compute. by split_and!. Qed.

(** A stop that found no RPC server clears the state file of the one that was
    started meanwhile: the server runs, and nobody finds it. *)
Example late_clear :
  let run := run_floor (repeat 0%nat 2 ++ repeat 1%nat 20 ++ repeat 0%nat 9)
               (floor_desk, [request_at "POST" "/v1/runtime/llama.cpp/rpc/stop"; request_at "POST" "/v1/runtime/llama.cpp/rpc/start"]) in
  (ps_state <$> dk_procs run.1) = [Alive] ∧ ReadLlamaCPPRPCState ["r"%string] (dk_fs run.1) "c" = None.
Proof. vm_compute. by split. Qed.

(** Normalizing the URL of the manager twice is not normalizing it once. *)
Example url_not_steady :
  let put := mkConfig "http://x /" "" "n" 4 8 50 true 0 1 true "h" "a" 1 true "" "c" in
  let once := (normalizeConfig [] ∅ put).2 in
  cfg_ManagerURL once = "http://x "%string ∧ cfg_ManagerURL (normalizeConfig [] ∅ once).2 = "http://x"%string.
Proof. vm_compute. by split. Qed.
(** A negative amount of graphics memory is valid, and given to the worker. *)
Example negative_vram :
  let cfg := mkConfig "http://m" "tok" "n" 4 8 50 true (-1) 1 true "h" "a" 1 true "" "c" in
  validateConfig cfg = None ∧ "-1"%string ∈ workerArgs cfg.
Proof. split; [by vm_compute|]. apply (bool_decide_unpack _). by vm_compute. Qed.

(** *** The theorems at these runs *)

Abbreviation floor_served := (control_requests floor_decode (λ _, True)).
Abbreviation floor_undisturbed := (control_requests floor_decode (λ r, ¬ sets_config r)).
Lemma request_undisturbed path : control_requests floor_decode (λ r, ¬ sets_config r) (request_at "POST" path).
Proof. eexists _, _. split; [|done]. by intros [_ ?]. Qed.
Lemma split_steps (arriving : cprog Reply → Prop) x (y : Desk * list (cprog Reply)) :
  rtc (floor_step arriving) x y → rtc (floor_step arriving) x (y.1, y.2).
Proof. by rewrite <- surjective_pairing. Qed.
Lemma started_run_steps : rtc (floor_step floor_served) (floor_desk, []) started_run.
Proof.
  eapply rtc_l; [by apply fl_arrive, (request_served "POST" "/v1/start")|].
  apply arrive_and_run, request_served.
Qed.
Lemma one_process_of_each_role_witness :
  length (dk_procs started_run.1) = 1%nat ∧
  ∀ i p, dk_procs started_run.1 !! i = Some p → ∃ cfg, launchable cfg p.
Proof.
  split; [by vm_compute|].
  pose proof (one_process_of_each_role floor_decode ["new"%string] "control.json" "" floor_tree ∅ floor_desk started_run.1 started_run.2 []
    floor_desk_new (split_steps _ _ _ started_run_steps)) as (_ & Hlaunched & _). exact Hlaunched.
Defined.

(** The worker is stopped, and does not end. *)
Definition one_started : Desk * list (cprog Reply) := run_floor (repeat 0%nat 9) (floor_desk, [] ++ [request_at "POST" "/v1/start"]).
Definition stopped_run : Desk * list (cprog Reply) :=
  run_floor (repeat 1%nat 60) (one_started.1, one_started.2 ++ [request_at "POST" "/v1/stop"]).
Definition last_reply (x : Desk * list (cprog Reply)) : Reply :=
  match last x.2 with Some (CRet reply) => reply | _ => mkReply 0 CHealth end.
Lemma one_started_steps : rtc (floor_step floor_undisturbed) (floor_desk, []) one_started.
Proof. apply arrive_and_run, request_undisturbed. Qed.
Lemma undisturbed_served x y : rtc (floor_step floor_undisturbed) x y → rtc (floor_step floor_served) x y.
Proof.
  induction 1 as [x|x y z Hs _ IH]; [apply rtc_refl|]. eapply rtc_l; [|exact IH]. destruct Hs as [d ps p (t & r & _ & ->)|d ps i B f k Hi|d d' ps Hd].
  - apply fl_arrive. by exists t, r.
  - by apply fl_act.
  - by apply fl_desk.
Qed.
Lemma one_started_worker :
  dk_procs one_started.1 !! 0%nat = Some (mkProcess WorkerRole 100 "/usr/bin/cmesh" (workerArgs (floor_config "tok")) [] Alive []).
Proof. vm_compute. reflexivity. Qed.
Lemma stopped_run_answered : stopped_run.2 !! length one_started.2 = Some (CRet (last_reply stopped_run)).
Proof. vm_compute. reflexivity. Qed.
Lemma answered_stop_settles_workers_witness :
  ps_signals <$> dk_procs stopped_run.1 = [[Interrupt; Kill]] ∧
  ∃ p, dk_procs stopped_run.1 !! 0%nat = Some p ∧ (ps_state p = Noted ∨ Kill ∈ ps_signals p).
Proof.
  split; [by vm_compute|].
  pose proof (answered_stop_settles_workers floor_decode ["new"%string] "control.json" "" floor_tree ∅ floor_desk one_started.1 one_started.2
    stopped_run.1 stopped_run.2 ["/v1/stop"%string] (demo_request_to "POST" "/v1/stop") (last_reply stopped_run) floor_desk_new
    (undisturbed_served _ _ (split_steps _ _ _ one_started_steps)) eq_refl (split_steps _ _ _ (run_floor_steps _ _ _))
    stopped_run_answered 0%nat _ one_started_worker eq_refl) as Hsettled.
  exact Hsettled.
Defined.

(** The worker is disconnected; a start that comes later is refused. *)
Definition disconnected_run : Desk * list (cprog Reply) :=
  run_floor (repeat 1%nat 80) (one_started.1, one_started.2 ++ [request_at "POST" "/v1/disconnect"]).
Definition restarted_run : Desk * list (cprog Reply) :=
  run_floor (repeat 2%nat 9) (disconnected_run.1, disconnected_run.2 ++ [request_at "POST" "/v1/start"]).
Lemma disconnected_run_answered : disconnected_run.2 !! length one_started.2 = Some (CRet (last_reply disconnected_run)).
Proof. vm_compute. reflexivity. Qed.
Lemma restarted_run_steps : rtc (floor_step floor_undisturbed) disconnected_run restarted_run.
Proof.
  rewrite (surjective_pairing disconnected_run) at 1. apply arrive_and_run, request_undisturbed.
Qed.
Lemma disconnect_lasts_witness :
  match last restarted_run.2 with Some (CStop reply) => rep_Status reply = 409 | _ => False end ∧
  cfg_JoinToken (ctl_config (dk_ctl restarted_run.1)) = ""%string.
Proof.
  split; [by vm_compute|].
  pose proof (disconnect_lasts floor_decode ["new"%string] "control.json" "" floor_tree ∅ floor_desk one_started.1 one_started.2
    disconnected_run.1 disconnected_run.2 restarted_run.1 restarted_run.2 ["/v1/disconnect"%string]
    (demo_request_to "POST" "/v1/disconnect") (last_reply disconnected_run) floor_desk_new (split_steps _ _ _ one_started_steps) eq_refl
    (split_steps _ _ _ (run_floor_steps _ _ _)) disconnected_run_answered) as Hlasts.
  rewrite <- surjective_pairing in Hlasts. destruct (Hlasts (split_steps _ _ _ restarted_run_steps)) as [Htok _]. exact Htok.
Defined.

(** A server with a token, and requests that do not carry it. *)
Definition guarded_desk : Desk :=
  mkDesk floor_tree (mkControl "control.json" "secret" (floor_config "tok") (λ _, idle_slot) (newTailBuffer (32 * 1024))) ∅ [].
Definition strangers_run : Desk * list (cprog Reply) :=
  run_floor (repeat 0%nat 9) (guarded_desk, [] ++ [request_at "POST" "/v1/start"]).
Lemma strangers_run_steps :
  rtc (floor_step (control_requests floor_decode (λ r, authorized (ctl_token (dk_ctl guarded_desk)) r = false))) (guarded_desk, []) strangers_run.
Proof.
  apply arrive_and_run. exists ["/v1/start"%string], (demo_request_to "POST" "/v1/start"). by split.
Qed.
Lemma strangers_change_nothing_witness :
  dk_procs strangers_run.1 = [] ∧ rtc desk_step guarded_desk strangers_run.1.
Proof.
  split; [by vm_compute|].
  pose proof (strangers_change_nothing floor_decode guarded_desk strangers_run.1 strangers_run.2 (split_steps _ _ _ strangers_run_steps)) as [Hd _].
  exact Hd.
Defined.

Definition put_request : Request := demo_request_to "PUT" "/v1/config".
Definition put_alone : Desk * (Reply + Reply) := run_alone (control_serve floor_decode ["put"%string] put_request) floor_desk.
Lemma put_config_survives_restart_witness :
  ∃ d2, NewServerWithToken ["again"%string] "control.json" "" (dk_fs put_alone.1) ∅ = Ok d2 ∧ ctl_config (dk_ctl d2) = floor_config "tok".
Proof.
  pose proof (put_config_survives_restart floor_decode ["put"%string] put_request floor_desk ["again"%string] "" ∅
    eq_refl eq_refl ltac:(discriminate) eq_refl) as Hp. fold put_alone in Hp.
  assert (Hcfg : ctl_config (dk_ctl put_alone.1) = floor_config "tok") by (vm_compute; reflexivity).
  assert (Hanswered : match put_alone.2 with inl _ => True | inr _ => False end) by (vm_compute; exact I).
  destruct put_alone as [d' [reply|reply]]; [|destruct Hanswered]. simpl in Hcfg. destruct Hp as (_ & _ & _ & Hp). rewrite Hcfg in Hp.
  apply Hp; [|reflexivity]. by split.
Defined.

Lemma published_state_follows_server_witness :
  let d' := (startLlamaCPPRPC [] floor_desk).1 in
  ∃ cmd, sl_cmd (slot d' RPCRole) = Some cmd ∧ ReadLlamaCPPRPCState ["r"%string] (dk_fs d') "c" = Some (published [] (floor_config "tok") (cmd_Pid cmd)).
Proof.
  assert (Hs : steady (ctl_config (dk_ctl floor_desk))) by (by split).
  destruct (published_state_follows_server [] floor_desk (startLlamaCPPRPC [] floor_desk).1 Hs) as (cmd & Hcmd & Hread & _).
  - vm_compute. reflexivity.
  - vm_compute. reflexivity.
  - vm_compute. reflexivity.
  - exists cmd. split; [exact Hcmd|]. apply Hread; [|reflexivity]. revert Hcmd. vm_compute. intros [= <-]. reflexivity.
Defined.
End demo.
