(* ===== verification/PgStore.v ===== *)
(** * The PostgreSQL store

    [internal/manager/postgres_store.go]: the store of the manager over a
    database.  Each method is a program of SQL statements; a statement is atomic,
    statements of concurrent calls interleave.  The tables, with their keys, the
    width of their columns and the precision of their times, are a record; what
    the statements do is SQL's documented behaviour at the default isolation
    (read committed), under which an [UPDATE] first finds its rows, with its
    subqueries, in a snapshot, and then changes those that still satisfy its own
    condition.  A statement may fail.  It needs a connection of a pool of a fixed
    size; rows that are read one by one and transactions keep theirs while the
    methods run further statements. *)

From S2P Require Import Prelude GoString GoSort GoFloat World Json Cdip Types Protocol Models State.
From S2P Require Import Codec Conversations Scheduling JobStore.

(** ** The tables *)

Record DB := mkDB {
  db_nodes : gmap string Node;
  db_benchmarks : gmap string (gmap BenchmarkKind BenchmarkResult);
  db_rpc_health : gmap string RPCHealthRecord;
  db_jobs : gmap string Job;
}.
#[export] Instance set_db_nodes : Setter db_nodes := λ f d, mkDB (f (db_nodes d)) (db_benchmarks d) (db_rpc_health d) (db_jobs d).
#[export] Instance set_db_benchmarks : Setter db_benchmarks := λ f d, mkDB (db_nodes d) (f (db_benchmarks d)) (db_rpc_health d) (db_jobs d).
#[export] Instance set_db_rpc_health : Setter db_rpc_health := λ f d, mkDB (db_nodes d) (db_benchmarks d) (f (db_rpc_health d)) (db_jobs d).
#[export] Instance set_db_jobs : Setter db_jobs := λ f d, mkDB (db_nodes d) (db_benchmarks d) (db_rpc_health d) (f (db_jobs d)).
Definition empty_db : DB := mkDB ∅ ∅ ∅ ∅.

(** When a statement fails, from its place and the texts it sends; and what is
    read back from a [JSONB] column after a value was marshalled into it. *)
Class Postgres := {
  pg_fault : Tag → list string → bool;
  jsonb_resources : ResourceSnapshot → ResourceSnapshot;
  jsonb_requirements : Requirements → Requirements;
  jsonb_metadata : gmap string string → gmap string string;
}.
(** [TIMESTAMPTZ] counts microseconds; NULL is the zero time. *)
Definition micro (t : Time) : Time := t - t mod 1000.
(** [INTEGER] *)
Definition int4 (n : Z) : bool := (- 2^31 <=? n) && (n <? 2^31).
Definition row_fits (j : Job) : bool := int4 (job_Attempts j) && int4 (job_MaxAttempts j) && int4 (job_CDIPStageIndex j).
Definition record_fits (r : RPCHealthRecord) : bool :=
  int4 (rh_Successes r) && int4 (rh_Failures r) && int4 (rh_ConsecutiveFailures r).

Record PostgresStore := mkPostgresStore { pg_startedAt : Time; pg_heartbeatTimeout : Z }.
Definition NewPostgresStore (now : Time) : PostgresStore := mkPostgresStore now (30 * Second).

(** What the tables mean as a state of the manager. *)
Definition db_state (p : PostgresStore) (d : DB) : State :=
  mkState (pg_startedAt p) (pg_heartbeatTimeout p) (db_nodes d) (db_benchmarks d) (db_rpc_health d) (db_jobs d) ∅ ∅.

(** ** Programs of statements *)

(** The connection a statement runs on: one of the pool, given back at once
    ([Exec], [QueryRow], rows read to the end); one that stays taken ([Query] with
    rows still to read, [Begin]); the one taken last ([tx.Exec]); or that one, which
    is given back ([rows.Close], [Commit], [Rollback]). *)
Inductive conn := Pooled | Opens | Own | Closes.
(** The connections that are free then; a call waits, without a limit, for one. *)
Definition takes (c : conn) (free : nat) : option nat :=
  match c, free with
  | Pooled, S _ | Own, _ => Some free
  | Opens, S free => Some free
  | Closes, _ => Some (S free)
  | _, O => None
  end.

Inductive query (A : Type) : Type :=
  | QRet (a : A)
  | QOut                                                  (** the fuel is spent *)
  | QStmt (c : conn) {B : Set} (f : DB → DB * B) (k : B → query A).
Arguments QRet {A} a.
Arguments QOut {A}.
Arguments QStmt {A} c {B} f k.
Fixpoint qbind {A B} (p : query A) (h : A → query B) : query B :=
  match p with
  | QRet a => h a
  | QOut => QOut
  | QStmt c f k => QStmt c f (λ b, qbind (k b) h)
  end.
Declare Scope query_scope.
Delimit Scope query_scope with query.
Notation "x ⟵ p ; q" := (qbind p (λ x, q)) (at level 20, p at level 100, q at level 200, right associativity) : query_scope.
#[local] Open Scope query_scope.
Fixpoint qeach {X} (f : X → query unit) (l : list X) : query unit :=
  match l with [] => QRet tt | x :: l => _ ⟵ f x; qeach f l end.

(** A call on its own, with connections enough. *)
Fixpoint qrun {A} (p : query A) (d : DB) : option (DB * A) :=
  match p with
  | QRet a => Some (d, a)
  | QOut => None
  | QStmt _ f k => let '(d, b) := f d in qrun (k b) d
  end.

(** A call on its own, with [free] connections in the pool: it may wait for ever. *)
Inductive pool_outcome (A : Type) := Finished (d : DB) (a : A) | Waits | OutOfFuel.
Arguments Finished {A} d a.
Arguments Waits {A}.
Arguments OutOfFuel {A}.
Fixpoint prun {A} (free : nat) (q : query A) (d : DB) : pool_outcome A :=
  match q with
  | QRet a => Finished d a
  | QOut => OutOfFuel
  | QStmt c f k =>
      match takes c free with
      | Some free => let '(d, b) := f d in prun free (k b) d
      | None => Waits
      end
  end.

(** ** Statements *)

(** [scanJob] *)
Definition scan (j : Job) : Job := j <| job_MaxAttempts := normalizeMaxAttempts (job_MaxAttempts j) |>.
(** [UPDATE jobs ... WHERE id = $1 AND ... RETURNING ...]: the row, if it is there,
    satisfies the condition and fits its columns. *)
Definition update_row (id : string) (P : Job → bool) (f : Job → Job) (d : DB) : DB * option Job :=
  match db_jobs d !! id with
  | Some j =>
      let j' := f j in
      if P j && row_fits j' then (d <| db_jobs := <[id := j']> (db_jobs d) |>, Some (scan j')) else (d, None)
  | None => (d, None)
  end.
Definition anyway (j : Job) : bool := true.
(** The columns [failActiveJobsForWorker] and [CompleteJob] write back from a copy. *)
Definition write_back (copy row : Job) : Job :=
  row <| job_Status := job_Status copy |> <| job_AssignedTo := job_AssignedTo copy |> <| job_Result := job_Result copy |>
      <| job_Error := job_Error copy |> <| job_Attempts := job_Attempts copy |> <| job_MaxAttempts := job_MaxAttempts copy |>
      <| job_LastFailure := job_LastFailure copy |> <| job_UpdatedAt := micro (job_UpdatedAt copy) |>
      <| job_StartedAt := micro (job_StartedAt copy) |> <| job_FinishedAt := micro (job_FinishedAt copy) |>.

Section postgres.
Context `{W : World} `{Codecs} `{Postgres} (p : PostgresStore).

Definition sql {B : Set} (c : conn) (t : Tag) (texts : list string) (f : DB → DB * B) (failed : B) : query B :=
  QStmt c (λ d, if pg_fault t texts then (d, failed) else f d) QRet.
(** The rows are read to the end, or the transaction is over. *)
Definition give_back : query unit := QStmt Closes (λ d, (d, tt)) QRet.

(** The rows of a table, in an order the statement may leave open. *)
Definition rows {V} (t : Tag) (m : gmap string V) : list V := range_values t m.
Definition created_first (a b : Job) : bool := job_CreatedAt a <? job_CreatedAt b.
Definition select_jobs (t : Tag) (texts : list string) (P : Job → bool) : query (option (list Job)) :=
  sql Opens t texts (λ d, (d, Some (map scan (filter (λ j, P j = true) (rows t (db_jobs d)))))) None.
Definition update_node (t : Tag) (id : string) (f : Node → Node) : query bool :=
  sql Pooled t [id] (λ d, match db_nodes d !! id with
                   | Some node => (d <| db_nodes := <[id := f node]> (db_nodes d) |>, true)
                   | None => (d, false)
                   end) false.
Definition update_job (t : Tag) (texts : list string) (id : string) (P : Job → bool) (f : Job → Job) : query (option Job) :=
  sql Pooled t (id :: texts) (update_row id P f) None.
Definition column_job (j : Job) : Job :=
  j <| job_Requirements := jsonb_requirements (job_Requirements j) |> <| job_CreatedAt := micro (job_CreatedAt j) |>
    <| job_UpdatedAt := micro (job_UpdatedAt j) |>.
(** [INSERT INTO jobs]: an error when the key is taken or a number does not fit. *)
Definition job_texts (j : Job) : list string :=
  [job_ID j; job_Type j; job_RequestedBy j; job_AssignedTo j; job_Input j; job_LastFailure j; job_CDIPParentJobID j].
Definition can_insert (jobs : gmap string Job) (j : Job) : bool := bool_decide (jobs !! job_ID j = None) && row_fits j.
Definition insert_job (t : Tag) (j : Job) : query bool :=
  sql Pooled t (job_texts j) (λ d, if can_insert (db_jobs d) j
                            then (d <| db_jobs := <[job_ID j := column_job j]> (db_jobs d) |>, true) else (d, false)) false.

(** ** Reading *)

Definition pg_deriveNodeStatus (node : Node) (now : Time) : Node :=
  if bool_decide (node_Role node = NodeRoleWorker) && bool_decide (node_Status node = NodeStatusOnline)
     && (pg_heartbeatTimeout p <? time_Sub now (node_UpdatedAt node))
  then node <| node_Status := NodeStatusOffline |> else node.

Definition pg_Jobs (t : Tag) : query (list Job) :=
  found ⟵ sql Pooled t [] (λ d, (d, Some (map scan (sort_slice t (λ a b, created_first b a) (rows t (db_jobs d)))))) None;
  QRet (default [] found).
Definition pg_Job (t : Tag) (id : string) : query (option Job) :=
  sql Pooled t [id] (λ d, (d, option_map scan (db_jobs d !! id))) None.

Definition pg_Benchmarks (t : Tag) : query (list BenchmarkResult) :=
  found ⟵ sql Pooled t [] (λ d, (d, Some (sort_slice t (λ a b, bench_CreatedAt b <? bench_CreatedAt a)
                                   (concat (map (λ byKind, map snd (map_to_list byKind)) (rows t (db_benchmarks d))))))) None;
  QRet (default [] found).
Definition benchmark_step (summaries : gmap string NodeBenchmarkSummary) (res : BenchmarkResult)
    : gmap string NodeBenchmarkSummary :=
  let summary := default (mkNodeBenchmarkSummary (bench_NodeID res) f_zero ∅) (summaries !! bench_NodeID res) in
  <[bench_NodeID res := mkNodeBenchmarkSummary (nbs_NodeID summary) (f_add (nbs_TotalScore summary) (bench_Score res))
                          (<[bench_Kind res := res]> (nbs_Results summary))]> summaries.
Definition pg_BenchmarkSummaryByNode (t : Tag) : query (gmap string NodeBenchmarkSummary) :=
  results ⟵ pg_Benchmarks t; QRet (foldl benchmark_step ∅ results).

Definition pg_RPCHealth (t : Tag) : query (list RPCHealthRecord) :=
  found ⟵ sql Pooled t [] (λ d, (d, Some (sort_slice t rpc_less (rows t (db_rpc_health d))))) None;
  QRet (default [] found).

(** The number of active jobs of a worker; 1 when the statement fails. *)
Definition pg_activeJobsForWorker (t : Tag) (nodeID : string) : query Z :=
  found ⟵ sql Pooled t [nodeID] (λ d, (d, Some (active_on nodeID (db_jobs d)))) None;
  QRet (default defaultWorkerJobSlots found).

(** ** Placing jobs

    These need the list of the nodes, which itself fails the jobs of workers that
    timed out, which places them again. *)

Section placing.
Context (nodes_of : Tag → query (list Node)).

Definition pg_online (node : Node) : bool :=
  bool_decide (node_Role node = NodeRoleWorker) && bool_decide (node_Status node = NodeStatusOnline).
Fixpoint pick_loop (t : Tag) (req : Requirements) (excluded : gset string) (benchmarks : gmap string NodeBenchmarkSummary)
    (best : string * float64) (nodes : list Node) : query string :=
  match nodes with
  | [] => QRet best.1
  | node :: nodes =>
      if bool_decide (node_ID node ∈ excluded) || negb (pg_online node) || negb (nodeMeetsRequirements node req)
      then pick_loop t req excluded benchmarks best nodes
      else
        active ⟵ pg_activeJobsForWorker (t ++ ["active"%string; node_ID node]) (node_ID node);
        if workerJobSlots node <=? active then pick_loop t req excluded benchmarks best nodes
        else
          let score := default f_zero (nbs_TotalScore <$> benchmarks !! node_ID node) in
          pick_loop t req excluded benchmarks
            (if str_eqb best.1 "" || f_lt best.2 score then (node_ID node, score) else best) nodes
  end.
Definition pg_pickWorkerExcept (t : Tag) (req : Requirements) (excluded : gset string) : query string :=
  nodes ⟵ nodes_of (t ++ ["nodes"%string]);
  benchmarks ⟵ pg_BenchmarkSummaryByNode (t ++ ["benchmarks"%string]);
  pick_loop t req excluded benchmarks (""%string, f_zero) nodes.
Definition pg_pickWorker (t : Tag) (req : Requirements) : query string := pg_pickWorkerExcept t req ∅.

Definition pg_workerCanAccept (t : Tag) (nodeID : string) (req : Requirements) : query bool :=
  nodes ⟵ nodes_of (t ++ ["nodes"%string]);
  match find (λ node, str_eqb (node_ID node) nodeID) nodes with
  | None => QRet false
  | Some node =>
      if negb (pg_online node) || negb (nodeMeetsRequirements node req) then QRet false
      else active ⟵ pg_activeJobsForWorker (t ++ ["active"%string]) (node_ID node); QRet (active <? workerJobSlots node)
  end.
Definition pg_waitingReason (t : Tag) (req : Requirements) : query string :=
  nodes ⟵ nodes_of (t ++ ["waiting"%string]);
  QRet (if existsb (λ node, pg_online node && nodeMeetsRequirements node req) nodes then waiting_capacity else waiting_capable).

Definition pg_rescheduleOrFailJob (t : Tag) (job : Job) (failedNodeID : string) (now : Time) (reason : string) : query Job :=
  let job := job <| job_MaxAttempts := normalizeMaxAttempts (job_MaxAttempts job) |> in
  let job := if job_Attempts job <=? 0 then job <| job_Attempts := 1 |> else job in
  if job_Attempts job <? job_MaxAttempts job then
    nextWorkerID ⟵ pg_pickWorkerExcept t (job_Requirements job) {[failedNodeID]};
    QRet (if negb (str_eqb nextWorkerID "") then
            job <| job_Status := StatusScheduled |> <| job_AssignedTo := nextWorkerID |>
                <| job_Attempts := i64 (job_Attempts job + 1) |> <| job_LastFailure := reason |>
                <| job_Error := "" |> <| job_Result := "" |> <| job_StartedAt := 0 |>
                <| job_FinishedAt := 0 |> <| job_UpdatedAt := now |>
          else
            job <| job_Status := StatusQueued |> <| job_AssignedTo := "" |>
                <| job_LastFailure := reason +:+ "; waiting for capable worker" |>
                <| job_Error := "" |> <| job_Result := "" |> <| job_StartedAt := 0 |>
                <| job_FinishedAt := 0 |> <| job_UpdatedAt := now |>)
  else
    QRet (job <| job_Status := StatusFailed |> <| job_Error := reason |> <| job_LastFailure := reason |>
              <| job_FinishedAt := now |> <| job_UpdatedAt := now |>).

(** The jobs are those of the moment the statement ran; its connection stays taken
    until the last of them is done. *)
Definition pg_fail_step (t : Tag) (nodeID : string) (now : Time) (reason : string) (job : Job) : query unit :=
  job ⟵ pg_rescheduleOrFailJob (t ++ ["fail"%string; job_ID job]) job nodeID now reason;
  _ ⟵ update_job (t ++ ["failed"%string; job_ID job]) [job_AssignedTo job; job_Result job; job_Error job; job_LastFailure job]
        (job_ID job) anyway (write_back job);
  QRet tt.
Definition pg_failActiveJobsForWorker (t : Tag) (nodeID : string) (now : Time) (reason : string) : query unit :=
  found ⟵ select_jobs (t ++ ["active"%string]) [nodeID] (λ j, bool_decide (occupies nodeID j));
  _ ⟵ qeach (pg_fail_step t nodeID now reason) (default [] found);
  give_back.

Definition is_waiting (j : Job) : bool := bool_decide (job_Status j = StatusQueued) && str_eqb (job_AssignedTo j) "".
Definition pg_schedule_step (t : Tag) (now : Time) (job : Job) : query unit :=
  let waiting := str_eqb (job_LastFailure job) waiting_capable || str_eqb (job_LastFailure job) waiting_capacity in
  workerID ⟵ pg_pickWorker (t ++ ["schedule"%string; job_ID job]) (job_Requirements job);
  if str_eqb workerID "" then
    if str_eqb (job_LastFailure job) "" || waiting then
      reason ⟵ pg_waitingReason (t ++ ["schedule"%string; job_ID job]) (job_Requirements job);
      _ ⟵ update_job (t ++ ["waits"%string; job_ID job]) [reason] (job_ID job) anyway
            (λ j, j <| job_LastFailure := reason |> <| job_UpdatedAt := micro now |>);
      QRet tt
    else QRet tt
  else
    let lastFailure := if waiting then ""%string else job_LastFailure job in
    _ ⟵ update_job (t ++ ["placed"%string; job_ID job]) [workerID; lastFailure] (job_ID job) is_waiting
          (λ j, j <| job_Status := StatusScheduled |> <| job_AssignedTo := workerID |> <| job_Attempts := job_Attempts j + 1 |>
                  <| job_LastFailure := lastFailure |> <| job_Error := "" |> <| job_Result := "" |>
                  <| job_StartedAt := 0 |> <| job_FinishedAt := 0 |> <| job_UpdatedAt := micro now |>);
    QRet tt.
Definition pg_scheduleQueuedJobs (t : Tag) (now : Time) : query unit :=
  found ⟵ sql Opens (t ++ ["queued"%string]) [] (λ d, (d, Some (map scan
             (sort_slice (t ++ ["queued"%string]) created_first
               (filter (λ j, is_waiting j = true) (rows (t ++ ["queued"%string]) (db_jobs d))))))) None;
  _ ⟵ qeach (pg_schedule_step t now) (default [] found);
  give_back.
End placing.

(** [Nodes]; the calls of each other end because each marks a worker offline that
    the next finds offline. *)
Definition stale_nodes (now : Time) (nodes : list Node) : list Node :=
  filter (λ node, node_Status node = NodeStatusOnline ∧ node_Status (pg_deriveNodeStatus node now) = NodeStatusOffline) nodes.
Definition derived_node (now : Time) (node : Node) : Node :=
  let derived := pg_deriveNodeStatus node now in
  if bool_decide (node_Status node = NodeStatusOnline) && bool_decide (node_Status derived = NodeStatusOffline)
  then derived <| node_UpdatedAt := now |> else derived.
Fixpoint pg_Nodes (fuel : nat) (t : Tag) : query (list Node) :=
  match fuel with
  | O => QOut
  | S fuel =>
      found ⟵ sql Pooled t [] (λ d, (d, Some (sort_slice t (λ a b, node_JoinedAt a <? node_JoinedAt b) (rows t (db_nodes d))))) None;
      let now := w_clock (t ++ ["now"%string]) in
      let nodes := default [] found in
      _ ⟵ qeach (λ node,
            _ ⟵ update_node (t ++ ["stale"%string; node_ID node]) (node_ID node)
                  (λ n, n <| node_Status := NodeStatusOffline |> <| node_UpdatedAt := micro now |>);
            pg_failActiveJobsForWorker (pg_Nodes fuel) (t ++ ["timeout"%string; node_ID node]) (node_ID node) now
              "worker heartbeat timed out") (stale_nodes now nodes);
      QRet (derived_node now <$> nodes)
  end.

(** ** The methods *)

Section methods.
Context (fuel : nat).
Definition nodes_of : Tag → query (list Node) := pg_Nodes fuel.

Definition pg_RegisterWorker (t : Tag) (req : JoinRequest) : query JoinResponse :=
  let now := w_clock (t ++ ["now"%string]) in
  let nodeID := newID "node" (w_rand (t ++ ["node"%string])) in
  let node := mkNode nodeID (join_NodeName req) NodeRoleWorker NodeStatusOnline (join_Endpoint req)
                (jsonb_resources (join_Resources req)) (micro now) (micro now) in
  _ ⟵ sql Pooled (t ++ ["insert"%string]) [nodeID; join_NodeName req; join_Endpoint req]
        (λ d, match db_nodes d !! nodeID with
              | Some _ => (d, false)
              | None => (d <| db_nodes := <[nodeID := node]> (db_nodes d) |>, true)
              end) false;
  _ ⟵ pg_scheduleQueuedJobs nodes_of t now;
  QRet (mkJoinResponse nodeID ["http://127.0.0.1:8080"%string] (10 * Second)).

Definition pg_Heartbeat (t : Tag) (hb : Heartbeat) : query bool :=
  let now := w_clock (t ++ ["now"%string]) in
  ok ⟵ update_node (t ++ ["update"%string]) (hb_NodeID hb)
         (λ n, n <| node_Status := NodeStatusOnline |> <| node_Resources := jsonb_resources (hb_Resources hb) |>
                 <| node_UpdatedAt := micro now |>);
  if ok then _ ⟵ pg_scheduleQueuedJobs nodes_of t now; QRet true else QRet false.

Definition pg_MarkWorkerOffline (t : Tag) (nodeID : string) : query bool :=
  let now := w_clock (t ++ ["now"%string]) in
  ok ⟵ update_node (t ++ ["update"%string]) nodeID
         (λ n, n <| node_Status := NodeStatusOffline |> <| node_UpdatedAt := micro now |>);
  if ok then _ ⟵ pg_failActiveJobsForWorker nodes_of t nodeID now "worker went offline"; QRet true else QRet false.

(** An error when the node is not in [nodes]. *)
Definition pg_PutBenchmark (t : Tag) (res : BenchmarkResult) : query bool :=
  let res := if IsZero (bench_CreatedAt res) then res <| bench_CreatedAt := w_clock (t ++ ["now"%string]) |> else res in
  sql Pooled t [bench_NodeID res; bench_Unit res]
    (λ d, match db_nodes d !! bench_NodeID res with
          | None => (d, false)
          | Some _ =>
              let row := res <| bench_CreatedAt := micro (bench_CreatedAt res) |> <| bench_Metadata := jsonb_metadata (bench_Metadata res) |> in
              (d <| db_benchmarks := <[bench_NodeID res := <[bench_Kind res := row]> (db_benchmarks d !!! bench_NodeID res)]> (db_benchmarks d) |>, true)
          end) false.

Definition health_row (endpoint : string) (update : RPCHealthUpdate) (checkedAt : Time) (old : option RPCHealthRecord) : RPCHealthRecord :=
  let ready := rhu_Ready update in
  let add n (b : bool) := if b then n + 1 else n in
  let nodeID := TrimSpace (rhu_NodeID update) in
  let nodeName := TrimSpace (rhu_NodeName update) in
  let base := default zero_RPCHealthRecord old in
  mkRPCHealthRecord endpoint (if str_eqb nodeID "" then rh_NodeID base else nodeID)
    (if str_eqb nodeName "" then rh_NodeName base else nodeName) ready
    (add (rh_Successes base) ready) (add (rh_Failures base) (negb ready))
    (if ready then 0 else rh_ConsecutiveFailures base + 1)
    (rhu_LatencyMS update) (TrimSpace (rhu_Error update)) (micro checkedAt).
Definition pg_PutRPCHealth (t : Tag) (update : RPCHealthUpdate) : query RPCHealthRecord :=
  let endpoint := TrimSpace (rhu_Endpoint update) in
  if str_eqb endpoint "" then QRet zero_RPCHealthRecord
  else
    let checkedAt := if IsZero (rhu_CheckedAt update) then w_clock (t ++ ["now"%string]) else rhu_CheckedAt update in
    sql Pooled t [endpoint; rhu_NodeID update; rhu_NodeName update; rhu_Error update]
      (λ d, let record := health_row endpoint update checkedAt (db_rpc_health d !! endpoint) in
            if record_fits record then (d <| db_rpc_health := <[endpoint := record]> (db_rpc_health d) |>, record)
            else (d, zero_RPCHealthRecord)) zero_RPCHealthRecord.

(** *** Creation *)

Definition new_job (t : Tag) (now : Time) (req : CreateRequest) : Job :=
  mkJob (newID "job" (w_rand (t ++ ["job"%string]))) (cr_Type req) StatusQueued (cr_RequestedBy req) ""
    (cr_Input req) (cr_Requirements req) "" "" 0 (normalizeMaxAttempts (cr_MaxAttempts req)) ""
    (cr_CDIPState req) (cr_CDIPParentJobID req) (cr_CDIPStageIndex req) now now 0 0.
Definition pg_placed_job (t : Tag) (now : Time) (req : CreateRequest) : query Job :=
  let job := new_job t now req in
  let schedule w := job <| job_AssignedTo := w |> <| job_Status := StatusScheduled |> <| job_Attempts := 1 |> in
  let wait := reason ⟵ pg_waitingReason nodes_of t (job_Requirements job); QRet (job <| job_LastFailure := reason |>) in
  if cr_NoAutoAssign req then
    QRet (job <| job_AssignedTo := cr_AssignedTo req |> <| job_LastFailure := "waiting for coordinator" |>)
  else if negb (str_eqb (cr_AssignedTo req) "") then
    accepted ⟵ pg_workerCanAccept nodes_of t (cr_AssignedTo req) (job_Requirements job);
    if accepted then QRet (schedule (cr_AssignedTo req)) else wait
  else
    workerID ⟵ pg_pickWorker nodes_of t (job_Requirements job);
    if negb (str_eqb workerID "") then QRet (schedule workerID) else wait.
Definition pg_CreateJob (t : Tag) (req : CreateRequest) : query (Job * bool) :=
  job ⟵ pg_placed_job t (w_clock (t ++ ["now"%string])) req;
  ok ⟵ insert_job (t ++ ["insert"%string]) job;
  QRet (job, ok).

(** The rows inserted in a transaction are seen by nobody else until it commits;
    the statements that look for a worker run outside it. *)
Fixpoint batch_loop (t : Tag) (now : Time) (i : nat) (inserted : list Job) (requests : list CreateRequest)
    : query (option (list Job)) :=
  match requests with
  | [] => QRet (Some inserted)
  | req :: requests =>
      job ⟵ pg_placed_job (t ++ [pretty i]) now req;
      ok ⟵ sql Own (t ++ ["insert"%string; pretty i]) (job_texts job)
             (λ d, (d, can_insert (db_jobs d) job && bool_decide (job_ID job ∉ (job_ID <$> inserted)))) false;
      if negb ok then QRet None else batch_loop t now (S i) (inserted ++ [job]) requests
  end.
Definition commit (inserted : list Job) (d : DB) : DB * bool :=
  if forallb (can_insert (db_jobs d)) inserted
  then (d <| db_jobs := foldl (λ jobs job, <[job_ID job := column_job job]> jobs) (db_jobs d) inserted |>, true) else (d, false).
Definition pg_CreateJobsBatch (t : Tag) (requests : list CreateRequest) : query (option (list Job)) :=
  began ⟵ sql Opens (t ++ ["begin"%string]) [] (λ d, (d, true)) false;
  if negb began then _ ⟵ give_back; QRet None
  else
    created ⟵ batch_loop t (w_clock (t ++ ["now"%string])) 0 [] requests;
    match created with
    | None => _ ⟵ give_back; QRet None
    | Some created =>
        committed ⟵ sql Closes (t ++ ["commit"%string]) [] (commit created) false;
        QRet (if committed then Some created else None)
    end.

(** *** Polling, progress, completion *)

(** The statement finds the oldest scheduled job in its snapshot, then changes the
    row of that key, whatever became of it meanwhile; all on one connection. *)
Definition pg_NextJobForWorker (t : Tag) (nodeID : string) : query (option Job) :=
  let now := w_clock (t ++ ["now"%string]) in
  found ⟵ sql Opens t [nodeID]
    (λ d, (d, head (sort_slice t created_first
                 (filter (λ j, job_AssignedTo j = nodeID ∧ job_Status j = StatusScheduled) (rows t (db_jobs d)))))) None;
  match found with
  | None => _ ⟵ give_back; QRet None
  | Some job =>
      QStmt Closes (update_row (job_ID job) anyway
               (λ j, j <| job_Status := StatusRunning |> <| job_StartedAt := micro now |> <| job_UpdatedAt := micro now |>)) QRet
  end.

Definition pg_UpdateJobProgress (t : Tag) (jobID : string) (req : ProgressRequest) : query (option Job) :=
  let now := w_clock (t ++ ["now"%string]) in
  let text := jobProgressResult req now in
  update_job t [prog_NodeID req; text] jobID
    (λ j, bool_decide (job_AssignedTo j = prog_NodeID req) && bool_decide (job_Status j = StatusRunning))
    (λ j, j <| job_Result := text |> <| job_UpdatedAt := micro now |>).

Definition pg_UpdateCDIPStageState (t : Tag) (jobID : string) (next : StageState) (detail : string) : query (option Job) :=
  let now := w_clock (t ++ ["now"%string]) in
  current ⟵ pg_Job (t ++ ["current"%string]) jobID;
  match current with
  | None => QRet None
  | Some current =>
      if bool_decide (job_Type current ≠ JobGenerateStage) then QRet None
      else if negb (CanTransition (stage_current current) next) then QRet None
      else
        let moved := stage_job current next detail now in
        update_job (t ++ ["update"%string]) [job_Result moved; job_Error moved; job_LastFailure moved] jobID
          (λ j, bool_decide (job_Type j = JobGenerateStage))
          (λ j, j <| job_CDIPState := next |> <| job_Status := job_Status moved |> <| job_Result := job_Result moved |>
                  <| job_Error := job_Error moved |> <| job_LastFailure := job_LastFailure moved |>
                  <| job_Attempts := job_Attempts moved |> <| job_UpdatedAt := micro now |>
                  <| job_FinishedAt := micro (job_FinishedAt moved) |>)
  end.

Definition pg_CompleteCoordinatorJob (t : Tag) (jobID text errText : string) : query (option Job) :=
  let now := w_clock (t ++ ["now"%string]) in
  let errText := TrimSpace errText in
  let failed := negb (str_eqb errText "") in
  update_job t [text; errText] jobID (λ j, bool_decide (job_Type j = JobGenerateDistributed))
    (λ j, j <| job_Status := if failed then StatusFailed else StatusSucceeded |> <| job_Result := TrimSpace text |>
            <| job_Error := errText |> <| job_LastFailure := if failed then errText else "" |>
            <| job_UpdatedAt := micro now |> <| job_FinishedAt := micro now |>).

Definition pg_CompleteJob (t : Tag) (jobID : string) (req : CompleteRequest) : query (option Job) :=
  let now := w_clock (t ++ ["now"%string]) in
  selected ⟵ sql Pooled (t ++ ["select"%string]) [jobID; comp_NodeID req]
    (λ d, (d, match db_jobs d !! jobID with
              | Some j => if bool_decide (job_AssignedTo j = comp_NodeID req)
                             && (bool_decide (job_Status j = StatusRunning) || bool_decide (job_Status j = StatusCanceled))
                          then Some (scan j) else None
              | None => None
              end)) None;
  match selected with
  | None => QRet None
  | Some job =>
      if bool_decide (job_Status job = StatusCanceled) then QRet (Some job)
      else
        let job := job <| job_Result := comp_Result req |> <| job_Error := comp_Error req |> <| job_UpdatedAt := now |> in
        job ⟵ (if negb (str_eqb (comp_Error req) "")
               then pg_rescheduleOrFailJob nodes_of (t ++ ["complete"%string]) job (comp_NodeID req) now (comp_Error req)
               else QRet (job <| job_Status := StatusSucceeded |> <| job_FinishedAt := now |>));
        updated ⟵ update_job (t ++ ["update"%string]) [job_AssignedTo job; job_Result job; job_Error job; job_LastFailure job]
                    (job_ID job) anyway (write_back job);
        match updated with
        | None => QRet None
        | Some updated => _ ⟵ pg_scheduleQueuedJobs nodes_of t now; QRet (Some updated)
        end
  end.

Definition pg_CancelJob (t : Tag) (jobID : string) : query (option Job) :=
  let now := w_clock (t ++ ["now"%string]) in
  canceled ⟵ update_job (t ++ ["cancel"%string]) [] jobID jobCanBeCanceled
    (λ j, j <| job_Status := StatusCanceled |> <| job_Error := "canceled by operator" |> <| job_LastFailure := "" |>
            <| job_UpdatedAt := micro now |> <| job_FinishedAt := micro now |>);
  match canceled with
  | None => QRet None
  | Some job => _ ⟵ pg_scheduleQueuedJobs nodes_of t now; QRet (Some job)
  end.

Definition pg_ClusterSummary (t : Tag) : query ClusterSummary :=
  nodes ⟵ nodes_of (t ++ ["nodes"%string]);
  scores ⟵ pg_BenchmarkSummaryByNode (t ++ ["benchmarks"%string]);
  QRet (foldl (summary_step scores) (mkClusterSummary (pg_startedAt p) 0 0 0 0 0 f_zero zero_snapshot) nodes).
End methods.
End postgres.
