(* ===== verification/PgRun.v ===== *)
(** * Running the statements of the PostgreSQL store

    A total-correctness predicate transformer for the programs of PgStore.v, and
    what each of them does to the tables when it runs on its own over a database
    that answers: what the nested listings may change ([calm]), that they end, and
    that every job moves along its life cycle. *)

From S2P Require Import Prelude GoString GoSort GoFloat World Json Cdip Types Protocol Models State.
From S2P Require Import Codec Conversations Scheduling JobStore PgStore.
#[local] Open Scope query_scope.

(** ** Total correctness *)

Fixpoint wp {A} (q : query A) (Q : DB → A → Prop) (d : DB) : Prop :=
  match q with
  | QRet a => Q d a
  | QOut => False
  | QStmt _ f k => let '(d, b) := f d in wp (k b) Q d
  end.

Lemma qwp_run {A} (q : query A) Q d : wp q Q d → ∃ d' a, qrun q d = Some (d', a) ∧ Q d' a.
Proof.
  revert d. induction q as [a| |c B f k IH]; intros d; simpl; [by eauto|done|].
  destruct (f d) as [d1 b]. apply IH.
Qed.
Lemma qwp_mono {A} (q : query A) (Q Q' : DB → A → Prop) d :
  wp q Q d → (∀ d' a, Q d' a → Q' d' a) → wp q Q' d.
Proof.
  intros Hq HQ. revert d Hq. induction q as [a| |c B f k IH]; intros d; simpl; [apply HQ|done|].
  destruct (f d) as [d1 b]. apply IH.
Qed.
Lemma qwp_bind {A B} (q : query A) (h : A → query B) Q d :
  wp q (λ d a, wp (h a) Q d) d → wp (qbind q h) Q d.
Proof.
  revert d. induction q as [a| |c C f k IH]; intros d; simpl; [done|done|].
  destruct (f d) as [d1 b]. apply IH.
Qed.
(** Sequencing with a known intermediate condition. *)
Lemma wp_seq {A B} (q : query A) (h : A → query B) (R : DB → A → Prop) Q d :
  wp q R d → (∀ d' a, R d' a → wp (h a) Q d') → wp (qbind q h) Q d.
Proof. intros Hq Hh. eapply qwp_bind, qwp_mono; [exact Hq|exact Hh]. Qed.

(** ** Columns that matter to the life cycle *)

Definition vital (j : Job) := (core j, job_CDIPState j, job_Status j, job_AssignedTo j, job_Attempts j).
Lemma vital_fields j1 j2 : vital j1 = vital j2 →
  core j1 = core j2 ∧ job_CDIPState j1 = job_CDIPState j2 ∧ job_Status j1 = job_Status j2 ∧
  job_AssignedTo j1 = job_AssignedTo j2 ∧ job_Attempts j1 = job_Attempts j2.
Proof.
  unfold vital. generalize (core j1) (core j2). intros c1 c2 H. injection H. intros. by split_and!.
Qed.
Lemma vital_lifecycle j j1 j2 : vital j1 = vital j2 → lifecycle j j1 → lifecycle j j2.
Proof.
  intros (Hc & Hs & Hst & Hto & Ha)%vital_fields [E1 E2 T|E1 E2 E3 E4 E5 E6|E1 E2 E3 E4 E5 E6].
  - apply lc_status; [congruence|congruence|]. unfold waiting in *.
    destruct T as [? [] ?| | | | | |? [] ? ?| |];
      [apply t_wait|apply t_place|apply t_start|apply t_progress|apply t_succeed|apply t_retry|
       apply t_requeue|apply t_fail|apply t_cancel]; first [assumption|congruence|split; congruence].
  - apply lc_stage; [congruence|done|congruence|by rewrite <- Hs|lia|].
    unfold terminal in *. by rewrite <- Hst, <- Hs.
  - apply lc_coordinator; [congruence|done|congruence|congruence|congruence|]. destruct E6; [left|right]; congruence.
Qed.
Lemma vital_max j1 j2 : vital j1 = vital j2 → job_MaxAttempts j1 = job_MaxAttempts j2.
Proof. intros (Hc & _)%vital_fields. by injection Hc. Qed.
Lemma vital_ok j1 j2 : vital j1 = vital j2 → job_ok j1 → job_ok j2.
Proof.
  intros Hv [? ? Hact Hw]. pose proof (vital_max _ _ Hv) as HM.
  apply vital_fields in Hv as (_ & _ & Hst & Hto & Ha).
  unfold is_active in *. rewrite Hst, Hto, Ha, HM in *. by split.
Qed.
Lemma vital_occ n j1 j2 : vital j1 = vital j2 → occ n j1 = occ n j2.
Proof.
  intros (_ & _ & Hst & Hto & _)%vital_fields.
  unfold occ. apply decide_ext. unfold occupies, is_active. by rewrite Hst, Hto.
Qed.

Lemma scan_ok j : job_ok j → scan j = j.
Proof. intros [_ ? _ _]. unfold scan. rewrite normalizeMaxAttempts_pos by lia. by destruct j. Qed.

(** ** What a listing may change *)

Definition online (d : DB) (n : string) : Prop :=
  ∃ node, db_nodes d !! n = Some node ∧ node_Status node = NodeStatusOnline.
Definition is_online (node : Node) : Prop := node_Status node = NodeStatusOnline.
Definition onlines (d : DB) : nat := size (filter (λ kv, is_online kv.2) (db_nodes d)).
Definition has_slot (d : DB) (n : string) : Prop := active_on n (db_jobs d) < slots_of (db_nodes d) n.

(** The node is the same, but may have gone offline. *)
Definition calmer (n n' : Node) : Prop :=
  node_ID n' = node_ID n ∧ node_Role n' = node_Role n ∧ node_Resources n' = node_Resources n ∧
  (is_online n' → is_online n).
#[export] Instance calmer_preorder : PreOrder calmer.
Proof. split; [by intros ?|]. intros a b c (?&?&?&?) (?&?&?&?). split_and!; try congruence. auto. Qed.

Section calm.
Context (p : PostgresStore).
Abbreviation wf d := (state_wf (db_state p d)).

(** The jobs moved along their life cycles and within the slots of the workers;
    of those that are not on an online worker, only [X] changed. *)
Record calm (X : list string) (d d' : DB) : Prop := {
  cm_step : store_step true [] (db_state p d) (db_state p d');
  cm_nodes k : option_Forall2 calmer (db_nodes d !! k) (db_nodes d' !! k);
  cm_stage id j : db_jobs d !! id = Some j →
    ∃ j', db_jobs d' !! id = Some j' ∧ job_CDIPState j' = job_CDIPState j;
  cm_still id j : db_jobs d !! id = Some j → ¬ online d (job_AssignedTo j) → id ∉ X → db_jobs d' !! id = Some j;
}.

Lemma calm_wf X d d' : calm X d d' → wf d'.
Proof. intros Hc. apply (cm_step _ _ _ Hc). Qed.
Lemma calm_refl X d : wf d → calm X d d.
Proof.
  intros Hwf. split; [by apply store_step_refl| |by eauto|done].
  intros k. destruct (db_nodes d !! k); by constructor.
Qed.
Lemma calm_weaken X Y d d' : X ⊆ Y → calm X d d' → calm Y d d'.
Proof. intros HX [S N G K]. split; [done..|]. intros id j Hj Hoff HY. apply K; [done|done|]. set_solver. Qed.
Lemma nodes_slots d d' : (∀ k, option_Forall2 calmer (db_nodes d !! k) (db_nodes d' !! k)) →
  ∀ n, slots_of (db_nodes d) n = slots_of (db_nodes d') n.
Proof.
  intros Hn n. unfold slots_of. specialize (Hn n). destruct Hn as [a b (_ & _ & E & _)|]; [|done].
  unfold workerJobSlots. by rewrite E.
Qed.
Lemma nodes_offline d d' n : (∀ k, option_Forall2 calmer (db_nodes d !! k) (db_nodes d' !! k)) →
  ¬ online d n → ¬ online d' n.
Proof.
  intros Hn Hoff (node' & E' & Hon). apply Hoff. specialize (Hn n). rewrite E' in Hn.
  destruct (db_nodes d !! n) as [node|] eqn:E; inversion Hn as [? ? (_ & _ & _ & Hback)|]; subst.
  exists node. split; [done|]. by apply Hback.
Qed.
Lemma calm_trans X Y d1 d2 d3 : calm X d1 d2 → calm Y d2 d3 → calm (X ++ Y) d1 d3.
Proof.
  intros [S1 N1 G1 K1] [S2 N2 G2 K2]. split.
  - eapply (store_step_trans _ [] []); [|exact S1|exact S2]. by apply nodes_slots.
  - intros k. specialize (N1 k). specialize (N2 k). destruct N1; inversion N2; subst; constructor. by etrans.
  - intros id j Hj. destruct (G1 id j Hj) as (j1 & Hj1 & E1). destruct (G2 id j1 Hj1) as (j2 & Hj2 & E2).
    exists j2. split; [done|congruence].
  - intros id j Hj Hoff [HX HY]%not_elem_of_app. apply K2; [by apply K1| |done]. by eapply nodes_offline.
Qed.

Lemma onlines_le d d' : (∀ k, option_Forall2 calmer (db_nodes d !! k) (db_nodes d' !! k)) →
  (onlines d' ≤ onlines d)%nat.
Proof.
  intros Hn. unfold onlines. rewrite <- !(size_dom (D := gset string)). apply subseteq_size.
  intros k. rewrite !elem_of_dom. intros [n' [E Hon]%map_lookup_filter_Some]. specialize (Hn k).
  rewrite E in Hn. destruct (db_nodes d !! k) as [n|] eqn:E0; inversion Hn as [? ? (_ & _ & _ & Hb)|]; subst.
  exists n. apply map_lookup_filter_Some. split; [done|]. by apply Hb.
Qed.
Lemma onlines_lt d d' n : (∀ k, option_Forall2 calmer (db_nodes d !! k) (db_nodes d' !! k)) →
  online d n → ¬ online d' n → (onlines d' < onlines d)%nat.
Proof.
  intros Hn (node & E & Hon) Hoff. unfold onlines. rewrite <- !(size_dom (D := gset string)). apply subset_size.
  split.
  - intros k. rewrite !elem_of_dom. intros [n' [E' Hon']%map_lookup_filter_Some]. specialize (Hn k).
    rewrite E' in Hn. destruct (db_nodes d !! k) as [m|] eqn:E0; inversion Hn as [? ? (_ & _ & _ & Hb)|]; subst.
    exists m. apply map_lookup_filter_Some. split; [done|]. by apply Hb.
  - intros Hs. specialize (Hs n). rewrite !elem_of_dom in Hs. destruct Hs as [n' [E' Hon']%map_lookup_filter_Some].
    { exists node. by apply map_lookup_filter_Some. }
    apply Hoff. by exists n'.
Qed.

(** *** Changing a row *)

Lemma row_calm d id row P f :
  wf d → db_jobs d !! id = Some row →
  (P row = true → lifecycle row (f row) ∧ job_ok (f row) ∧ job_CDIPState (f row) = job_CDIPState row ∧
     ∀ n, occ n (f row) ≤ occ n row ∨ has_slot d n) →
  calm [id] d (update_row id P f d).1.
Proof.
  intros Hwf Hid Hf. unfold update_row. rewrite Hid.
  destruct (P row && row_fits (f row)) eqn:HP; simpl; [|by apply calm_refl].
  apply andb_prop in HP as [HP _]. destruct (Hf HP) as (Hl & Hok & Hs & Hocc).
  destruct (wf_jobs _ Hwf _ _ Hid) as [HID _].
  assert (E : job_ID (f row) = id).
  { pose proof (lifecycle_core _ _ Hl) as Hc. apply (f_equal core_ID) in Hc. simpl in Hc. congruence. }
  split; simpl.
  - pose proof (update_step true (db_state p d) id row (f row) Hwf Hid Hl Hok) as H.
    rewrite E in H. apply H. intros _. exact Hocc.
  - intros k. destruct (db_nodes d !! k); by constructor.
  - intros id' j Hj. destruct (decide (id' = id)) as [->|Hne].
    + exists (f row). rewrite lookup_insert_eq. by simplify_eq.
    + exists j. by rewrite lookup_insert_ne.
  - intros id' j Hj _ Hne%not_elem_of_cons. rewrite lookup_insert_ne by naive_solver. done.
Qed.

(** Marking a worker offline. *)
Lemma offline_calm d id node f :
  wf d → db_nodes d !! id = Some node → calmer node (f node) →
  calm [] d (d <| db_nodes := <[id := f node]> (db_nodes d) |>).
Proof.
  intros Hwf Hid Hf. destruct (wf_nodes _ Hwf _ _ Hid) as [HID Hne].
  assert (HN : ∀ k, option_Forall2 calmer (db_nodes d !! k) (<[id := f node]> (db_nodes d) !! k)).
  { intros k. destruct (decide (k = id)) as [->|Hk]; [rewrite Hid, lookup_insert_eq; by constructor|].
    rewrite lookup_insert_ne by done. destruct (db_nodes d !! k); by constructor. }
  split; simpl; [|done|by eauto|done].
  apply store_step_refl; [|done].
  apply (state_wf_nodes (db_state p d)); [done| |done]. destruct Hf as [-> _]. done.
Qed.

(** A second step whose changes are to jobs that were on a worker online at the start. *)
Lemma calm_absorb X d0 d d' n :
  calm [] d0 d → calm X d d' → online d0 n →
  (∀ id, id ∈ X → ∃ j, db_jobs d !! id = Some j ∧ job_AssignedTo j = n) →
  calm [] d0 d'.
Proof.
  intros C1 C2 Hon HX. destruct (calm_trans _ _ _ _ _ C1 C2) as [S N G K]. split; [done..|].
  intros id j Hj Hoff _. apply K; [done|done|]. simpl. intros Hin.
  destruct (HX id Hin) as (j1 & Hj1 & Ha). rewrite (cm_still _ _ _ C1 id j Hj Hoff) in Hj1 by apply not_elem_of_nil.
  simplify_eq. done.
Qed.
End calm.

(** ** The programs, over a database that answers *)

Section runs.
Context `{W : World} `{Codecs} `{Postgres} (p : PostgresStore).
Context (Hup : ∀ t texts, pg_fault t texts = false).
Abbreviation wf d := (state_wf (db_state p d)).

Lemma wp_sql {B : Set} t texts (f : DB → DB * B) failed Q d :
  Q (f d).1 (f d).2 → wp (sql Pooled t texts f failed) Q d.
Proof. simpl. rewrite Hup. by destruct (f d). Qed.

(** A read followed by a pure answer. *)
Lemma wp_look {B : Set} {A} t texts (f : DB → B) failed (h : B → A) Q d :
  Q d (h (f d)) → wp (x ⟵ sql Pooled t texts (λ d, (d, f d)) failed; QRet (h x)) Q d.
Proof. intros HQ. simpl. by rewrite Hup. Qed.

Lemma wp_active t n Q d : Q d (active_on n (db_jobs d)) → wp (pg_activeJobsForWorker t n) Q d.
Proof. apply (wp_look t [n] (λ d, Some (active_on n (db_jobs d))) None (default defaultWorkerJobSlots)). Qed.
Lemma wp_scores t Q d : (∀ scores, Q d scores) → wp (pg_BenchmarkSummaryByNode t) Q d.
Proof. intros HQ. unfold pg_BenchmarkSummaryByNode, pg_Benchmarks. simpl. rewrite Hup. apply HQ. Qed.

(** The rows of the job table are their own scans, under distinct keys. *)
Lemma rows_elem t d j : wf d → j ∈ rows t (db_jobs d) ↔ db_jobs d !! job_ID j = Some j.
Proof.
  intros Hwf. unfold rows. rewrite range_values_elem. split; [|by eauto].
  intros [k Hk]. destruct (wf_jobs _ Hwf _ _ Hk) as [Hid _]. by rewrite Hid.
Qed.
Lemma rows_NoDup t d : wf d → NoDup (job_ID <$> rows t (db_jobs d)).
Proof.
  intros Hwf. unfold rows. rewrite range_values_perm.
  replace (job_ID <$> (map_to_list (db_jobs d)).*2) with (map_to_list (db_jobs d)).*1; [apply NoDup_fst_map_to_list|].
  rewrite <- list_fmap_compose. apply list_fmap_ext. intros i [k j] Hij%list_elem_of_lookup_2%elem_of_map_to_list.
  destruct (wf_jobs _ Hwf _ _ Hij) as [Hid _]. by rewrite <- Hid.
Qed.
(** What a statement that selects jobs returns. *)
Definition selected (d : DB) (P : Job → Prop) (l : list Job) : Prop :=
  NoDup (job_ID <$> l) ∧ ∀ j, j ∈ l → db_jobs d !! job_ID j = Some j ∧ P j.
Lemma map_scan d l : wf d → (∀ j, j ∈ l → db_jobs d !! job_ID j = Some j) → map scan l = l.
Proof.
  intros Hwf Hl. transitivity (id <$> l); [|apply list_fmap_id]. apply list_fmap_ext.
  intros i j Hj%list_elem_of_lookup_2. destruct (wf_jobs _ Hwf _ _ (Hl j Hj)) as [_ Hok]. by apply scan_ok.
Qed.
Lemma selected_rows t d P `{∀ j, Decision (P j)} l :
  wf d → l ≡ₚ filter P (rows t (db_jobs d)) → selected d P (map scan l).
Proof.
  intros Hwf Hl.
  assert (Hin : ∀ j, j ∈ l → db_jobs d !! job_ID j = Some j ∧ P j).
  { intros j. rewrite Hl, list_elem_of_filter, rows_elem by done. tauto. }
  rewrite (map_scan d) by naive_solver. split; [|done]. rewrite Hl.
  pose proof (rows_NoDup t d Hwf) as Hnd. revert Hnd. generalize (rows t (db_jobs d)). clear.
  intros l. induction l as [|j l IH]; [done|]. rewrite fmap_cons, NoDup_cons. intros [Hj Hl].
  rewrite filter_cons. case_decide; [|by apply IH]. rewrite fmap_cons, NoDup_cons. split; [|by apply IH].
  intros Hin. apply Hj. apply list_elem_of_fmap in Hin as (j' & -> & [_ Hin]%list_elem_of_filter).
  by apply list_elem_of_fmap_2.
Qed.

(** *** Picking a worker, given what a listing does *)

(** A listing shows nodes of the table. *)
Definition listed (d : DB) (l : list Node) : Prop :=
  ∀ node, node ∈ l → ∃ row, db_nodes d !! node_ID node = Some row ∧ node_Resources row = node_Resources node.
Definition nodes_spec (nodes_of : Tag → query (list Node)) (k : nat) : Prop :=
  ∀ t d, wf d → (onlines d < k)%nat → wp (nodes_of t) (λ d' l, calm p [] d d' ∧ listed d' l) d.

Lemma listed_slots d node l : listed d l → node ∈ l → slots_of (db_nodes d) (node_ID node) = workerJobSlots node.
Proof. intros Hl Hin. destruct (Hl node Hin) as (row & E & Er). unfold slots_of, workerJobSlots. by rewrite E, Er. Qed.
Lemma listed_named d node l : wf d → listed d l → node ∈ l → node_ID node ≠ ""%string.
Proof. intros Hwf Hl Hin. destruct (Hl node Hin) as (row & E & _). by destruct (wf_nodes _ Hwf _ _ E). Qed.

Definition picked (d : DB) (excluded : gset string) (w : string) : Prop :=
  w = ""%string ∨ (w ≠ ""%string ∧ w ∉ excluded ∧ has_slot d w).

Lemma wp_pick_loop t req excluded scores best l d :
  wf d → listed d l → picked d excluded best.1 →
  wp (pick_loop t req excluded scores best l) (λ d' w, d' = d ∧ picked d excluded w) d.
Proof.
  intros Hwf. revert best. induction l as [|node l IH]; intros best Hl Hb; cbn [pick_loop]; [by split|].
  assert (Hl' : listed d l) by (intros x Hx; apply Hl; by right).
  destruct (_ || _) eqn:Hg; [by apply IH|].
  rewrite !orb_false_iff, bool_decide_eq_false in Hg. destruct Hg as [[Hex _] _].
  apply qwp_bind, wp_active. destruct (Z.leb_spec (workerJobSlots node) (active_on (node_ID node) (db_jobs d))); [by apply IH|].
  apply IH; [done|]. destruct (_ || _); [|done]. right. simpl. split_and!; [|done|].
  - by eapply listed_named; [..|by left].
  - unfold has_slot. by rewrite (listed_slots d node (node :: l)) by (done || by left).
Qed.

Section placing.
Context (nodes_of : Tag → query (list Node)) (k : nat) (Hnodes : nodes_spec nodes_of k).

Lemma wp_pick t req excluded d :
  wf d → (onlines d < k)%nat →
  wp (pg_pickWorkerExcept nodes_of t req excluded) (λ d' w, calm p [] d d' ∧ picked d' excluded w) d.
Proof.
  intros Hwf Hk. unfold pg_pickWorkerExcept. eapply wp_seq; [by apply Hnodes|]. cbn beta.
  intros d1 l [Hc Hl]. apply qwp_bind, wp_scores. intros scores. eapply qwp_mono.
  - apply wp_pick_loop; [by eapply calm_wf|done|by left].
  - by intros d' w [-> ?].
Qed.

(** A failed attempt: the job moves to another worker, waits, or fails. *)
Lemma wp_reschedule t j node now reason d :
  wf d → (onlines d < k)%nat → occupies node j →
  wp (pg_rescheduleOrFailJob nodes_of t j node now reason)
    (λ d' j', calm p [] d d' ∧ fail_moved node j j' ∧ ∀ n, occ n j' = 0 ∨ has_slot d' n) d.
Proof.
  intros Hwf Hk Hocc. unfold pg_rescheduleOrFailJob.
  set (job1 := j <| job_MaxAttempts := _ |>).
  set (job2 := if job_Attempts job1 <=? 0 then _ else job1).
  assert (Hj2 : same_job j job2 ∧ job_MaxAttempts job2 = normalizeMaxAttempts (job_MaxAttempts j) ∧
            job_Attempts job2 = Z.max 1 (job_Attempts j) ∧ job_AssignedTo job2 = job_AssignedTo j).
  { subst job2 job1. simpl. destruct (Z.leb_spec (job_Attempts j) 0); simpl;
      (split_and!; [by split_and!|done|lia|done]). }
  clearbody job2. clear job1. destruct Hj2 as (Hsame & Hmax & Hatt & Hto).
  destruct (Z.ltb_spec (job_Attempts job2) (job_MaxAttempts job2)) as [Hlt|Hge].
  - eapply wp_seq; [by apply wp_pick|]. cbn beta. intros d1 w [Hc Hp]. case_bool_decide as Hw; simpl.
    + split_and!; [done| |intros n; left; by rewrite (occ_zero n)].
      split_and!; try done. cbv zeta. simpl. rewrite <- Hatt. right; left. by split_and!.
    + destruct Hp as [?|(_ & Hex & Hroom)]; [done|]. split_and!; [done| |].
      * split_and!; try done. cbv zeta. simpl. rewrite <- Hatt. left. split_and!; [done|done|set_solver|done..].
      * intros n. destruct (decide (n = w)) as [->|Hn]; [by right|left]. rewrite occ_other; [done|]. simpl. congruence.
  - simpl. split_and!; [by apply calm_refl| |intros n; left; by rewrite (occ_zero n)].
    split_and!; try done. cbv zeta. simpl. rewrite <- Hatt. right; right. destruct Hocc. split_and!; [done|congruence|lia|done].
Qed.

Lemma write_back_vital node copy j j' :
  fail_moved node j j' → job_CDIPState copy = job_CDIPState j → core copy = core j →
  job_ok j → vital j' = vital (write_back j' copy).
Proof.
  intros (_ & Hs & HM & _) Hst Hc [_ ? _ _]. rewrite normalizeMaxAttempts_pos in HM by lia.
  assert (core j' = core j) by by apply same_job_core.
  assert (core (write_back j' copy) = core j).
  { rewrite <- Hc. unfold core in *. simplify_eq. simpl. congruence. }
  unfold vital. repeat (apply f_equal2; [|done]). apply f_equal2; [congruence|].
  simpl. unfold same_job in Hs. destruct_and! Hs. congruence.
Qed.

(** Several steps on distinct jobs, none of them on an online worker. *)
Lemma wp_each (step : Job → query unit) (P : Job → Prop) l d :
  (∀ j d, wf d → (onlines d < k)%nat → db_jobs d !! job_ID j = Some j → ¬ online d (job_AssignedTo j) → P j →
     wp (step j) (λ d' _, calm p [job_ID j] d d') d) →
  wf d → (onlines d < k)%nat → selected d P l → (∀ j, j ∈ l → ¬ online d (job_AssignedTo j)) →
  wp (qeach step l) (λ d' _, calm p (job_ID <$> l) d d') d.
Proof.
  intros Hstep. revert d. induction l as [|j l IH]; intros d Hwf Hk [Hnd Hl] Hoff; simpl; [by apply calm_refl|].
  rewrite fmap_cons, NoDup_cons in Hnd. destruct Hnd as [Hj Hnd]. destruct (Hl j) as [Hrow HP]; [by left|].
  eapply wp_seq; [apply Hstep; try done; apply Hoff; by left|]. cbn beta. intros d1 _ C1.
  eapply qwp_mono; [apply IH|].
  - by eapply calm_wf.
  - eapply Nat.le_lt_trans; [|exact Hk]. eapply onlines_le, cm_nodes, C1.
  - split; [done|]. intros j' Hin. destruct (Hl j') as [Hrow' HP']; [by right|]. split; [|done].
    eapply cm_still; [exact C1|done|apply Hoff; by right|].
    intros E%list_elem_of_singleton. apply Hj. rewrite <- E. by apply list_elem_of_fmap_2.
  - intros j' Hin. eapply nodes_offline; [eapply cm_nodes, C1|apply Hoff; by right].
  - cbn beta. intros d' _ C2. exact (calm_trans p [_] _ _ _ _ C1 C2).
Qed.

(** *** The jobs of a failed worker *)

Lemma wp_fail_step t node now reason j d :
  wf d → (onlines d < k)%nat → db_jobs d !! job_ID j = Some j → ¬ online d (job_AssignedTo j) → occupies node j →
  wp (pg_fail_step nodes_of t node now reason j) (λ d' _, calm p [job_ID j] d d') d.
Proof.
  intros Hwf Hk Hrow Hoff Hocc. unfold pg_fail_step. eapply wp_seq; [by apply wp_reschedule|]. cbn beta.
  intros d1 j' (C1 & Hm & Hfree). pose proof (calm_wf _ _ _ _ C1) as Hwf1.
  pose proof (cm_still _ _ _ _ C1 _ _ Hrow Hoff (not_elem_of_nil _)) as Hrow1.
  destruct (wf_jobs _ Hwf _ _ Hrow) as [_ Hok].
  assert (E : job_ID j' = job_ID j) by (by destruct Hm as (_ & (? & _) & _)).
  pose proof (write_back_vital node j j j' Hm eq_refl eq_refl Hok) as Hv.
  unfold update_job. apply qwp_bind, wp_sql. simpl. rewrite E.
  apply (calm_trans p [] [job_ID j] d d1); [done|]. apply (row_calm p d1 (job_ID j) j); [done|done|]. intros _. split_and!.
  - eapply vital_lifecycle; [exact Hv|]. by eapply fail_moved_lifecycle.
  - eapply vital_ok; [exact Hv|]. by eapply fail_moved_ok.
  - done.
  - intros n. rewrite <- (vital_occ n _ _ Hv). pose proof (occ_bounds n j). destruct (Hfree n); [left; lia|by right].
Qed.

Lemma wp_failActive t node now reason d :
  wf d → (onlines d < k)%nat → ¬ online d node →
  wp (pg_failActiveJobsForWorker nodes_of t node now reason)
    (λ d' _, ∃ X, calm p X d d' ∧ ∀ id, id ∈ X → ∃ j, db_jobs d !! id = Some j ∧ job_AssignedTo j = node) d.
Proof.
  intros Hwf Hk Hoff. unfold pg_failActiveJobsForWorker, select_jobs. apply qwp_bind, wp_sql. simpl.
  pose proof (selected_rows (t ++ ["active"%string]) d (λ j, bool_decide (occupies node j) = true) _ Hwf
    (reflexivity _)) as Hs.
  revert Hs. generalize (map scan (filter (λ j, bool_decide (occupies node j) = true)
    (rows (t ++ ["active"%string]) (db_jobs d)))) as l. intros l Hs.
  assert (Hat : ∀ j, j ∈ l → db_jobs d !! job_ID j = Some j ∧ job_AssignedTo j = node).
  { intros j [Hj Ho%bool_decide_eq_true]%(proj2 Hs). split; [done|]. apply Ho. }
  eapply wp_seq; [apply (wp_each _ (λ j, bool_decide (occupies node j) = true))|].
  - intros j d' ? ? ? ? Ho%bool_decide_eq_true. by apply wp_fail_step.
  - done.
  - done.
  - done.
  - intros j Hj. by destruct (Hat j Hj) as [_ ->].
  - intros d' u Hc. exists (job_ID <$> l). split; [exact Hc|]. intros id (j & -> & Hj)%list_elem_of_fmap.
    exists j. by apply Hat.
Qed.

(** *** Queued jobs *)

Lemma wp_waiting t req d (Q : DB → string → Prop) :
  wf d → (onlines d < k)%nat → (∀ d' reason, calm p [] d d' → Q d' reason) → wp (pg_waitingReason nodes_of t req) Q d.
Proof.
  intros Hwf Hk HQ. unfold pg_waitingReason. eapply wp_seq; [by apply Hnodes|]. cbn beta.
  intros d1 l [Hc _]. by apply HQ.
Qed.

Lemma not_online_empty d : wf d → ¬ online d "".
Proof. intros Hwf (node & E & _). by destruct (wf_nodes _ Hwf _ _ E). Qed.

Lemma wp_schedule_step t now j d :
  wf d → (onlines d < k)%nat → db_jobs d !! job_ID j = Some j → ¬ online d (job_AssignedTo j) → is_waiting j = true →
  wp (pg_schedule_step nodes_of t now j) (λ d' _, calm p [job_ID j] d d') d.
Proof.
  intros Hwf Hk Hrow Hoff Hw. unfold pg_schedule_step. eapply wp_seq; [by apply wp_pick|]. cbn beta.
  intros d1 w [C1 Hp]. pose proof (calm_wf _ _ _ _ C1) as Hwf1.
  assert (Hk1 : (onlines d1 < k)%nat) by (eapply Nat.le_lt_trans; [|exact Hk]; eapply onlines_le, cm_nodes, C1).
  pose proof (cm_still _ _ _ _ C1 _ _ Hrow Hoff (not_elem_of_nil _)) as Hrow1.
  pose proof (nodes_offline _ _ _ (cm_nodes _ _ _ _ C1) Hoff) as Hoff1.
  destruct (wf_jobs _ Hwf _ _ Hrow) as [_ Hok].
  apply andb_prop in Hw as [Hst%bool_decide_eq_true Hto%bool_decide_eq_true].
  pose proof (jo_waiting _ Hok Hst Hto) as Hlt.
  case_bool_decide as Hw.
  - destruct (_ || _); [|simpl; apply (calm_weaken p []); [set_solver|done]].
    eapply qwp_bind, wp_waiting; [done|done|]. intros d2 reason C2.
    pose proof (calm_wf _ _ _ _ C2) as Hwf2.
    pose proof (cm_still _ _ _ _ C2 _ _ Hrow1 Hoff1 (not_elem_of_nil _)) as Hrow2.
    unfold update_job. apply qwp_bind, wp_sql. simpl.
    apply (calm_trans p [] [_] d d2); [by apply (calm_trans p [] [] d d1)|].
    apply (row_calm p d2 _ j); [done|done|]. intros _. split_and!; [|by eapply job_ok_keep|done|].
    + by apply lc_status; [..|apply t_wait].
    + intros n. left. by apply occ_same.
  - unfold update_job. apply qwp_bind, wp_sql. simpl.
    apply (calm_trans p [] [_] d d1); [done|]. apply (row_calm p d1 _ j); [done|done|]. intros _. split_and!; [| |done|].
    + apply lc_status; [done|done|]. by apply t_place.
    + destruct Hok. split; simpl; try lia; [intros _; split; [done|lia]|done].
    + destruct Hp as [?|(_ & _ & Hroom)]; [done|]. intros n.
      destruct (decide (n = w)) as [->|Hn]; [by right|left]. rewrite occ_other; [apply occ_bounds|]. simpl. congruence.
Qed.

Lemma wp_schedule t now d :
  wf d → (onlines d < k)%nat →
  wp (pg_scheduleQueuedJobs nodes_of t now) (λ d' _, ∃ X, calm p X d d') d.
Proof.
  intros Hwf Hk. unfold pg_scheduleQueuedJobs. apply qwp_bind, wp_sql. simpl.
  set (t' := t ++ ["queued"%string]).
  pose proof (selected_rows t' d (λ j, is_waiting j = true) _ Hwf (sort_slice_perm t' created_first _)) as Hs.
  revert Hs. generalize (map scan (sort_slice t' created_first (filter (λ j, is_waiting j = true) (rows t' (db_jobs d))))) as l.
  intros l Hs. eapply wp_seq; [apply (wp_each _ (λ j, is_waiting j = true))|].
  - intros. by apply wp_schedule_step.
  - done.
  - done.
  - done.
  - intros j [_ Hw]%(proj2 Hs). apply andb_prop in Hw as [_ ->%bool_decide_eq_true]. by apply not_online_empty.
  - intros d' u Hc. by exists (job_ID <$> l).
Qed.
End placing.

(** *** Listings end *)

Lemma derived_same now node :
  node_ID (derived_node p now node) = node_ID node ∧ node_Resources (derived_node p now node) = node_Resources node.
Proof. unfold derived_node, pg_deriveNodeStatus. by repeat case_match. Qed.

Lemma wp_stale_step nodes_of k (Hnodes : nodes_spec nodes_of k) t now d0 d node :
  calm p [] d0 d → (onlines d0 < S k)%nat → online d0 (node_ID node) →
  wp (_ ⟵ update_node (t ++ ["stale"%string; node_ID node]) (node_ID node)
             (λ n, n <| node_Status := NodeStatusOffline |> <| node_UpdatedAt := micro now |>);
      pg_failActiveJobsForWorker nodes_of (t ++ ["timeout"%string; node_ID node]) (node_ID node) now
        "worker heartbeat timed out") (λ d' _, calm p [] d0 d') d.
Proof.
  intros C0 Hk Hon. pose proof (calm_wf _ _ _ _ C0) as Hwf.
  unfold update_node. apply qwp_bind, wp_sql.
  destruct Hon as (row0 & E0 & Hon0). pose proof (cm_nodes _ _ _ _ C0 (node_ID node)) as Hrow.
  rewrite E0 in Hrow. destruct (db_nodes d !! node_ID node) as [row|] eqn:E; [|by inversion Hrow]. cbn [fst snd].
  set (f := λ n : Node, n <| node_Status := NodeStatusOffline |> <| node_UpdatedAt := micro now |>).
  pose proof (offline_calm p d (node_ID node) row f Hwf E) as C1.
  specialize (C1 ltac:(by split_and!)). set (d1 := d <| db_nodes := _ |>) in *.
  assert (Hoff : ¬ online d1 (node_ID node)).
  { intros (n & En & Hn). unfold d1 in En. simpl in En. rewrite lookup_insert_eq in En. by simplify_eq. }
  pose proof (calm_trans p _ _ _ _ _ C0 C1) as C01.
  eapply qwp_mono; [apply (wp_failActive _ k Hnodes); [by eapply calm_wf| |done]|].
  - eapply Nat.lt_le_trans; [eapply onlines_lt; [eapply cm_nodes, C01|by exists row0|done]|lia].
  - intros d' _ (X & C2 & HX). eapply (calm_absorb p X d0 d1); [done|done|by exists row0|done].
Qed.

Lemma wp_Nodes fuel : nodes_spec (pg_Nodes p fuel) fuel.
Proof.
  induction fuel as [|fuel IH]; intros t d Hwf Hk; [lia|]. cbn [pg_Nodes]. apply qwp_bind, wp_sql. simpl.
  set (less := λ a b : Node, node_JoinedAt a <? node_JoinedAt b). set (now := w_clock _).
  assert (Hl : ∀ node, node ∈ sort_slice t less (rows t (db_nodes d)) → db_nodes d !! node_ID node = Some node).
  { intros node. rewrite elem_of_sort_slice. unfold rows. rewrite range_values_elem.
    intros [i Hi]. destruct (wf_nodes _ Hwf _ _ Hi) as [Hid _]. by rewrite Hid. }
  revert Hl. generalize (sort_slice t less (rows t (db_nodes d))) as l. intros l Hl.
  assert (Hstale : ∀ node, node ∈ stale_nodes p now l → online d (node_ID node)).
  { intros node [[? _] Hin]%list_elem_of_filter. exists node. by rewrite Hl. }
  eapply wp_seq with (R := λ d' _, calm p [] d d').
  - revert Hstale. generalize (stale_nodes p now l). intros stale Hstale.
    assert (Hgen : ∀ d1, calm p [] d d1 → wp (qeach (λ node,
        _ ⟵ update_node (t ++ ["stale"%string; node_ID node]) (node_ID node)
              (λ n, n <| node_Status := NodeStatusOffline |> <| node_UpdatedAt := micro now |>);
        pg_failActiveJobsForWorker (pg_Nodes p fuel) (t ++ ["timeout"%string; node_ID node]) (node_ID node) now
          "worker heartbeat timed out") stale) (λ d' _, calm p [] d d') d1); [|by apply Hgen, calm_refl].
    induction stale as [|node stale IHs]; intros d1 C1; cbn [qeach]; [done|].
    eapply wp_seq; [apply (wp_stale_step _ fuel IH t now d); [done|done|apply Hstale; by left]|].
    intros d2 u C2. apply IHs; [|done]. intros n Hn. apply Hstale. by right.
  - intros d' u Hc. simpl. split; [exact Hc|]. intros node (n & -> & Hn)%list_elem_of_fmap.
    destruct (derived_same now n) as [-> ->]. pose proof (cm_nodes _ _ _ _ Hc (node_ID n)) as Hrow.
    rewrite (Hl n Hn) in Hrow. inversion Hrow as [? row (_ & _ & E & _)|]; subst. by exists row.
Qed.
End runs.
