(* ===== verification/PgPool.v ===== *)
(** * The connections the PostgreSQL store needs

    A method that reads rows one by one keeps their connection while it looks for
    workers, which lists the nodes, which may fail the jobs of a worker that timed
    out, whose rows are read one by one in turn.  Here: how many connections are
    enough for a call to end, and that every call gives back what it took. *)

From S2P Require Import Prelude GoString GoSort GoFloat World Json Cdip Types Protocol Models State.
From S2P Require Import Codec Conversations Scheduling JobStore PgStore.
#[local] Open Scope query_scope.

(** ** Programs that never wait

    From [free] connections, whatever the statements answer, there is always one
    for the next statement, and [free'] are left at the end. *)
Fixpoint fits {A} (free free' : nat) (q : query A) : Prop :=
  match q with
  | QRet _ => free' = free
  | QOut => True
  | QStmt c f k => match takes c free with Some free => ∀ b, fits free free' (k b) | None => False end
  end.
Abbreviation balanced n q := (fits n n q).

Lemma fits_run {A} free free' (q : query A) d d' a :
  fits free free' q → qrun q d = Some (d', a) → prun free q d = Finished d' a.
Proof.
  revert free d. induction q as [x| |c B f k IH]; intros free d Hq Hr; simpl in *; [by simplify_eq|done|].
  destruct (takes c free) as [free1|]; [|done]. destruct (f d) as [d1 b]. by eapply IH.
Qed.
Lemma fits_bind {A B} n m r (q : query A) (h : A → query B) :
  fits n m q → (∀ a, fits m r (h a)) → fits n r (qbind q h).
Proof.
  intros Hq Hh. revert n Hq. induction q as [x| |c C f k IH]; intros n Hq; simpl in *; [subst; apply Hh|done|].
  destruct (takes c n) as [n1|]; [|done]. intros b. by apply IH.
Qed.
Lemma fits_each {X} n (f : X → query unit) l : (∀ x, balanced n (f x)) → balanced n (qeach f l).
Proof. intros Hf. induction l as [|x l IH]; [done|]. eapply fits_bind; [apply Hf|done]. Qed.

Section fitting.
Context `{W : World} `{Codecs} `{Postgres} (p : PostgresStore).

Lemma fits_sql {B : Set} t texts (f : DB → DB * B) failed n : (0 < n)%nat → balanced n (sql Pooled t texts f failed).
Proof. destruct n; [lia|done]. Qed.
(** What runs between taking a connection and giving it back has one less. *)
Lemma fits_opened {B : Set} {A} t texts (f : DB → DB * B) failed n (h : B → query A) :
  (0 < n)%nat → (∀ b, fits (n - 1) n (h b)) → balanced n (b ⟵ sql Opens t texts f failed; h b).
Proof. intros Hn Hh. destruct n as [|n]; [lia|]. simpl in *. by rewrite Nat.sub_0_r in Hh. Qed.
Lemma fits_give_back {A} n (q : query A) : (0 < n)%nat → balanced n q → fits (n - 1) n (_ ⟵ give_back; q).
Proof. intros Hn Hq. destruct n as [|n]; [lia|]. simpl. by rewrite Nat.sub_0_r. Qed.
Lemma fits_rows {X} n (f : X → query unit) l :
  (0 < n)%nat → (∀ x, balanced (n - 1) (f x)) → fits (n - 1) n (_ ⟵ qeach f l; give_back).
Proof.
  intros Hn Hf. eapply fits_bind; [by apply fits_each|]. intros _. destruct n as [|n]; [lia|]. simpl. by rewrite Nat.sub_0_r.
Qed.

Lemma fits_active t id n : (0 < n)%nat → balanced n (pg_activeJobsForWorker t id).
Proof. intros Hn. by eapply fits_bind; [apply fits_sql|]. Qed.
Lemma fits_scores t n : (0 < n)%nat → balanced n (pg_BenchmarkSummaryByNode t).
Proof. intros Hn. eapply fits_bind; [|done]. by eapply fits_bind; [apply fits_sql|]. Qed.
Lemma fits_update t texts id P f n : (0 < n)%nat → balanced n (update_job t texts id P f).
Proof. apply fits_sql. Qed.
Lemma fits_pick_loop t req excluded scores best l n :
  (0 < n)%nat → balanced n (pick_loop t req excluded scores best l).
Proof.
  intros Hn. revert best. induction l as [|node l IH]; intros best; cbn [pick_loop]; [done|]. destruct (_ || _); [apply IH|].
  eapply fits_bind; [by apply fits_active|]. intros active. destruct (_ <=? _); apply IH.
Qed.

Section placing.
Context (nodes_of : Tag → query (list Node)) (n : nat).
Context (Hn : (0 < n)%nat) (Hnodes : ∀ t, balanced n (nodes_of t)).

Lemma fits_pick t req excluded : balanced n (pg_pickWorkerExcept nodes_of t req excluded).
Proof.
  eapply fits_bind; [apply Hnodes|]. intros l. eapply fits_bind; [by apply fits_scores|]. intros scores. by apply fits_pick_loop.
Qed.
Lemma fits_waiting t req : balanced n (pg_waitingReason nodes_of t req).
Proof. by eapply fits_bind; [apply Hnodes|]. Qed.
Lemma fits_accept t id req : balanced n (pg_workerCanAccept nodes_of t id req).
Proof.
  eapply fits_bind; [apply Hnodes|]. intros l. destruct (find _ l); [|done]. destruct (_ || _); [done|].
  by eapply fits_bind; [apply fits_active|].
Qed.
Lemma fits_reschedule t j node now reason : balanced n (pg_rescheduleOrFailJob nodes_of t j node now reason).
Proof. unfold pg_rescheduleOrFailJob. destruct (_ <? _); [|done]. by eapply fits_bind; [apply fits_pick|]. Qed.
Lemma fits_fail_step t node now reason j : balanced n (pg_fail_step nodes_of t node now reason j).
Proof. eapply fits_bind; [apply fits_reschedule|]. intros j'. by eapply fits_bind; [apply fits_update|]. Qed.
Lemma fits_schedule_step t now j : balanced n (pg_schedule_step nodes_of t now j).
Proof.
  unfold pg_schedule_step. eapply fits_bind; [apply fits_pick|]. intros w. destruct (str_eqb w _).
  - destruct (_ || _); [|done]. eapply fits_bind; [apply fits_waiting|]. intros reason. by eapply fits_bind; [apply fits_update|].
  - by eapply fits_bind; [apply fits_update|].
Qed.
End placing.

(** Each takes one connection, and the listings it makes need the rest. *)
Lemma fits_fail nodes_of t node now reason n :
  (1 < n)%nat → (∀ t, balanced (n - 1) (nodes_of t)) → balanced n (pg_failActiveJobsForWorker nodes_of t node now reason).
Proof.
  intros Hn Hnodes. apply fits_opened; [lia|]. intros found. apply fits_rows; [lia|]. intros j. apply fits_fail_step; [lia|done].
Qed.
Lemma fits_schedule nodes_of t now n :
  (1 < n)%nat → (∀ t, balanced (n - 1) (nodes_of t)) → balanced n (pg_scheduleQueuedJobs nodes_of t now).
Proof.
  intros Hn Hnodes. apply fits_opened; [lia|]. intros found. apply fits_rows; [lia|]. intros j. apply fits_schedule_step; [lia|done].
Qed.
Lemma fits_Nodes fuel t n : (fuel < n)%nat → balanced n (pg_Nodes p fuel t).
Proof.
  revert t n. induction fuel as [|fuel IH]; intros t n Hn; cbn [pg_Nodes]; [done|].
  eapply fits_bind; [apply fits_sql; lia|]. intros found. eapply fits_bind; [|done]. apply fits_each. intros node.
  eapply fits_bind; [apply fits_sql; lia|]. intros _. apply fits_fail; [lia|]. intros t'. apply IH. lia.
Qed.

(** *** The methods *)

Context (fuel : nat).
Lemma fits_placed t now req m : (fuel < m)%nat → balanced m (pg_placed_job p fuel t now req).
Proof.
  intros Hm. assert (Hl : ∀ t, balanced m (nodes_of p fuel t)) by (intros t'; by apply fits_Nodes).
  assert (Hw : ∀ j, balanced m (reason ⟵ pg_waitingReason (nodes_of p fuel) t (job_Requirements j);
      QRet (j <| job_LastFailure := reason |>))) by (intros j; by eapply fits_bind; [apply fits_waiting|]).
  unfold pg_placed_job. destruct (cr_NoAutoAssign req); [done|]. destruct (negb _).
  - eapply fits_bind; [apply fits_accept; [lia|done]|]. intros [|]; [done|apply Hw].
  - eapply fits_bind; [apply fits_pick; [lia|done]|]. intros w. destruct (negb _); [done|apply Hw].
Qed.

Context (n : nat) (Hn : (S fuel < n)%nat).
Lemma fits_listing t : balanced (n - 1) (nodes_of p fuel t).
Proof. apply fits_Nodes. lia. Qed.
Lemma fits_scheduling {A} t now (q : query A) :
  balanced n q → balanced n (_ ⟵ pg_scheduleQueuedJobs (nodes_of p fuel) t now; q).
Proof. intros Hq. eapply fits_bind; [|done]. apply fits_schedule; [lia|apply fits_listing]. Qed.
Lemma fits_batch_loop t now i inserted reqs : balanced (n - 1) (batch_loop p fuel t now i inserted reqs).
Proof.
  revert i inserted. induction reqs as [|req reqs IH]; intros i inserted; cbn [batch_loop]; [done|].
  eapply fits_bind; [apply fits_placed; lia|]. intros job. eapply fits_bind; [done|]. intros [|]; [apply IH|done].
Qed.
End fitting.
