(* ===== verification/PgMethods.v ===== *)
(** * The methods of the PostgreSQL store implement the life cycle of jobs

    The same contract as the store in memory (JobStore.v), for each method run on
    its own over a database that answers; and the connections they need. *)

From S2P Require Import Prelude GoString GoSort GoFloat World Json Cdip Types Protocol Models State.
From S2P Require Import Codec Conversations Scheduling JobStore PgStore PgRun PgPool.
#[local] Open Scope query_scope.

(** ** The methods as operations of a store

    The store has no conversations and no memories: the server finds that it does
    not implement them, and calls nothing. *)

Section exec.
Context `{W : World} `{Codecs} `{Postgres} (p : PostgresStore) (fuel : nat).

Definition ignore {A} (q : query A) : query unit := _ ⟵ q; QRet tt.
Definition pg_exec (t : Tag) (op : store_op) : query unit :=
  match op with
  | OpRegisterWorker req => ignore (pg_RegisterWorker p fuel t req)
  | OpHeartbeat hb => ignore (pg_Heartbeat p fuel t hb)
  | OpMarkWorkerOffline nodeID => ignore (pg_MarkWorkerOffline p fuel t nodeID)
  | OpPutBenchmark res => ignore (pg_PutBenchmark t res)
  | OpPutRPCHealth update => ignore (pg_PutRPCHealth t update)
  | OpCreateJob req => ignore (pg_CreateJob p fuel t req)
  | OpCreateJobsBatch requests => ignore (pg_CreateJobsBatch p fuel t requests)
  | OpNextJobForWorker nodeID => ignore (pg_NextJobForWorker t nodeID)
  | OpUpdateJobProgress jobID req => ignore (pg_UpdateJobProgress t jobID req)
  | OpUpdateCDIPStageState jobID next detail => ignore (pg_UpdateCDIPStageState t jobID next detail)
  | OpCompleteCoordinatorJob jobID text errText => ignore (pg_CompleteCoordinatorJob t jobID text errText)
  | OpCompleteJob jobID req => ignore (pg_CompleteJob p fuel t jobID req)
  | OpCancelJob jobID => ignore (pg_CancelJob p fuel t jobID)
  | OpNodes => ignore (nodes_of p fuel t)
  | OpAppendConversationMessage _ _ _ _ _ | OpDeleteConversation _ | OpDeleteMemory _
  | OpUpsertMemory _ | OpDeleteMemoriesByModel _ => QRet tt
  end.
(** The identifiers drawn for the jobs it creates. *)
Definition pg_created (t : Tag) (op : store_op) : list string :=
  match op with
  | OpCreateJob _ => [newID "job" (w_rand (t ++ ["job"%string]))]
  | OpCreateJobsBatch requests => imap (λ i _, newID "job" (w_rand ((t ++ [pretty i]) ++ ["job"%string]))) requests
  | _ => []
  end.
(** A batch looks for its workers before any of its rows is visible. *)
Definition pg_within_slots (op : store_op) : bool :=
  match op with OpCreateJobsBatch _ => false | _ => places_within_slots op end.
End exec.

(** ** No method waits for a connection

    when the pool has two more than the listings may nest. *)

Lemma fits_exec `{W : World} `{Codecs} `{Postgres} (p : PostgresStore) (fuel n : nat) (t : Tag) (op : store_op) :
  (S fuel < n)%nat → balanced n (pg_exec p fuel t op).
Proof.
  intros Hn. assert (Hsql : ∀ {B : Set} t texts (f : DB → DB * B) failed, balanced n (sql Pooled t texts f failed))
    by (intros; apply fits_sql; lia).
  destruct op; cbn [pg_exec]; unfold ignore; try done; (eapply fits_bind; [|done]).
  - eapply fits_bind; [apply Hsql|]. intros _. by apply fits_scheduling.
  - eapply fits_bind; [apply Hsql|]. intros [|]; [|done]. by apply fits_scheduling.
  - eapply fits_bind; [apply Hsql|]. intros [|]; [|done]. eapply fits_bind; [|done].
    apply fits_fail; [lia|by apply fits_listing].
  - apply Hsql.
  - unfold pg_PutRPCHealth. destruct (str_eqb _ _); [done|]. apply Hsql.
  - apply fits_bind with n; [apply fits_placed; lia|]. intros job. by eapply fits_bind; [apply Hsql|].
  - apply fits_opened; [lia|]. intros [|]; cbn [negb]; [|by apply fits_give_back; [lia|]].
    eapply fits_bind; [by apply fits_batch_loop|]. intros [created|]; [|by apply fits_give_back; [lia|]].
    destruct n as [|n]; [lia|]. simpl. by rewrite Nat.sub_0_r.
  - apply fits_opened; [lia|]. intros [job|]; [|by apply fits_give_back; [lia|]].
    destruct n as [|n]; [lia|]. simpl. by rewrite Nat.sub_0_r.
  - apply Hsql.
  - eapply fits_bind; [apply Hsql|]. intros [j|]; [|done].
    destruct (bool_decide _); [done|]. destruct (negb _); [done|]. apply Hsql.
  - apply Hsql.
  - eapply fits_bind; [apply Hsql|]. intros [j|]; [|done]. destruct (bool_decide _); [done|].
    eapply fits_bind; [destruct (negb _); [apply fits_reschedule; [lia|intros t'; apply fits_Nodes; lia]|done]|]. intros j'.
    eapply fits_bind; [apply Hsql|]. intros [u|]; [|done]. by apply fits_scheduling.
  - eapply fits_bind; [apply Hsql|]. intros [u|]; [|done]. by apply fits_scheduling.
  - apply fits_Nodes. lia.
Qed.

(** ** Each method is a step *)

Section methods.
Context `{W : World} `{Codecs} `{Postgres} (p : PostgresStore).
Context (Hup : ∀ t texts, pg_fault t texts = false) (fuel : nat).
Abbreviation wf d := (state_wf (db_state p d)).
Abbreviation steps cap ids d := (λ d' _, store_step cap ids (db_state p d) (db_state p d')).

Lemma wp_ignore {A} (q : query A) (Q : DB → Prop) d : wp q (λ d' _, Q d') d → wp (ignore q) (λ d' _, Q d') d.
Proof. intros Hq. apply qwp_bind. exact Hq. Qed.

Lemma onlines_insert d id node :
  (onlines (d <| db_nodes := <[id := node]> (db_nodes d) |>) ≤ S (onlines d))%nat.
Proof.
  unfold onlines. simpl. rewrite map_filter_insert. case_decide.
  - rewrite map_size_insert. case_match; simpl; lia.
  - rewrite map_filter_delete, map_size_delete. case_match; simpl; lia.
Qed.
Lemma node_change_wf d id node :
  wf d → node_ID node = id → id ≠ ""%string → wf (d <| db_nodes := <[id := node]> (db_nodes d) |>).
Proof. intros Hwf HID Hne. exact (state_wf_nodes (db_state p d) node id Hwf HID Hne). Qed.

Lemma same_jobs cap ids d d1 d' :
  db_jobs d1 = db_jobs d → store_step cap ids (db_state p d1) (db_state p d') → store_step cap ids (db_state p d) (db_state p d').
Proof. intros E. by apply store_step_jobs. Qed.
Lemma steps_calm cap ids X d d1 d' :
  store_step cap ids (db_state p d) (db_state p d1) → calm p X d1 d' → store_step cap ids (db_state p d) (db_state p d').
Proof.
  intros S1 C. rewrite <- (app_nil_r ids). eapply store_step_trans; [|exact S1|].
  - apply nodes_slots, (cm_nodes _ _ _ _ C).
  - pose proof (cm_step _ _ _ _ C) as [W1 J1 N1 C1]. split; [exact W1|exact J1|exact N1|]. intros n _. by apply C1.
Qed.

(** Scheduling after a change of the nodes or of a job. *)
Lemma wp_then_schedule {A} cap ids t now (a : A) d d1 :
  wf d1 → (onlines d1 < fuel)%nat →
  (∀ d', store_step cap ids (db_state p d1) (db_state p d') → store_step cap ids (db_state p d) (db_state p d')) →
  store_step cap ids (db_state p d1) (db_state p d1) →
  wp (_ ⟵ pg_scheduleQueuedJobs (nodes_of p fuel) t now; QRet a) (steps cap ids d) d1.
Proof.
  intros Hwf Hk Hd1 Hr. eapply wp_seq; [by eapply (wp_schedule p Hup), Hk; [apply wp_Nodes|]|]. cbn beta.
  intros d' u (X & C). simpl. apply Hd1. by eapply steps_calm.
Qed.

Lemma wp_RegisterWorker t req d :
  wf d → (S (onlines d) < fuel)%nat → wp (pg_RegisterWorker p fuel t req) (steps true [] d) d.
Proof.
  intros Hwf Hk. unfold pg_RegisterWorker. apply qwp_bind, wp_sql; [done|].
  destruct (db_nodes d !! _); cbn [fst snd].
  - apply wp_then_schedule; [done|lia|done|by apply store_step_refl].
  - set (d1 := d <| db_nodes := _ |>). assert (wf d1) by (apply node_change_wf; [done|done|by destruct (w_rand _)]).
    apply wp_then_schedule; [done| |intros d'; by apply same_jobs|by apply store_step_refl].
    eapply Nat.le_lt_trans; [apply onlines_insert|done].
Qed.

Lemma wp_Heartbeat t hb d :
  wf d → (S (onlines d) < fuel)%nat → wp (pg_Heartbeat p fuel t hb) (steps true [] d) d.
Proof.
  intros Hwf Hk. unfold pg_Heartbeat, update_node. apply qwp_bind, wp_sql; [done|].
  destruct (db_nodes d !! hb_NodeID hb) as [node|] eqn:E; cbn [fst snd]; [|by apply store_step_refl].
  destruct (wf_nodes _ Hwf _ _ E) as [HID Hne].
  set (d1 := d <| db_nodes := _ |>). assert (wf d1) by (by apply node_change_wf).
  apply wp_then_schedule; [done| |intros d'; by apply same_jobs|by apply store_step_refl].
  eapply Nat.le_lt_trans; [apply onlines_insert|done].
Qed.

Lemma wp_MarkWorkerOffline t nodeID d :
  wf d → (S (onlines d) < fuel)%nat → wp (pg_MarkWorkerOffline p fuel t nodeID) (steps true [] d) d.
Proof.
  intros Hwf Hk. unfold pg_MarkWorkerOffline, update_node. apply qwp_bind, wp_sql; [done|].
  destruct (db_nodes d !! nodeID) as [node|] eqn:E; cbn [fst snd]; [|by apply store_step_refl].
  destruct (wf_nodes _ Hwf _ _ E) as [HID Hne].
  set (d1 := d <| db_nodes := _ |>). assert (Hwf1 : wf d1) by (by apply node_change_wf).
  eapply wp_seq; [eapply (wp_failActive p Hup _ fuel (wp_Nodes p Hup fuel)); [done| |]|].
  - eapply Nat.le_lt_trans; [apply onlines_insert|done].
  - intros (n & En & Hn). unfold d1 in En. simpl in En. rewrite lookup_insert_eq in En. by simplify_eq.
  - cbn beta. intros d' u (X & C & _). simpl. apply (same_jobs _ _ d d1); [done|]. apply (cm_step _ _ _ _ C).
Qed.

Lemma wp_Nodes_step t d : wf d → (S (onlines d) < fuel)%nat → wp (nodes_of p fuel t) (steps true [] d) d.
Proof.
  intros Hwf Hk. eapply qwp_mono; [apply wp_Nodes; [done|done|lia]|]. cbn beta. intros d' l [C _]. apply (cm_step _ _ _ _ C).
Qed.

Lemma quiet_tables d d' : wf d → db_jobs d' = db_jobs d → db_nodes d' = db_nodes d →
  store_step true [] (db_state p d) (db_state p d').
Proof.
  intros [Hn Hj] E1 E2. apply store_step_refl; [|done].
  split; simpl; [rewrite E2; exact Hn|rewrite E1; exact Hj].
Qed.
Lemma wp_PutBenchmark t res d : wf d → wp (pg_PutBenchmark t res) (steps true [] d) d.
Proof.
  intros Hwf. unfold pg_PutBenchmark. apply wp_sql; [done|]. by destruct (db_nodes d !! _); apply quiet_tables.
Qed.
Lemma wp_PutRPCHealth t update d : wf d → wp (pg_PutRPCHealth t update) (steps true [] d) d.
Proof.
  intros Hwf. unfold pg_PutRPCHealth. destruct (str_eqb _ _); [by apply quiet_tables|].
  apply wp_sql; [done|]. simpl. by destruct (record_fits _); apply quiet_tables.
Qed.

(** *** Jobs that stay where they are *)

Lemma update_row_step cap d id P f :
  wf d →
  (∀ row, db_jobs d !! id = Some row → P row = true → lifecycle row (f row) ∧ job_ok (f row) ∧
     (cap = true → ∀ n, occ n (f row) ≤ occ n row)) →
  store_step cap [] (db_state p d) (db_state p (update_row id P f d).1).
Proof.
  intros Hwf Hf. unfold update_row. destruct (db_jobs d !! id) as [row|] eqn:Hid; [|by apply store_step_refl].
  destruct (P row && row_fits (f row)) eqn:HP; simpl; [|by apply store_step_refl].
  apply andb_prop in HP as [HP _]. destruct (Hf row eq_refl HP) as (Hl & Hok & Hocc).
  pose proof (update_step cap (db_state p d) id row (f row) Hwf Hid Hl Hok) as Hs.
  destruct (wf_jobs _ Hwf _ _ Hid) as [HID _].
  assert (E : job_ID (f row) = id).
  { pose proof (lifecycle_core _ _ Hl) as Hc. apply (f_equal core_ID) in Hc. simpl in Hc. congruence. }
  rewrite E in Hs. apply Hs. intros Hc n. left. by apply Hocc.
Qed.
(** A change that moves the job along its life cycle without handing it to anybody. *)
Lemma quiet_row d id P f :
  wf d →
  (∀ row, db_jobs d !! id = Some row → P row = true → lifecycle row (f row) ∧
     job_Attempts (f row) = job_Attempts row ∧ job_AssignedTo (f row) = job_AssignedTo row ∧
     (is_active (f row) = true → is_active row = true) ∧ (job_Status (f row) = StatusQueued → job_Status row = StatusQueued)) →
  store_step true [] (db_state p d) (db_state p (update_row id P f d).1).
Proof.
  intros Hwf Hf. apply update_row_step; [done|]. intros row Hid HP.
  destruct (Hf row Hid HP) as (Hl & Ha & Hto & Hact & Hq). split_and!; [done| |intros _ n; by apply occ_same].
  destruct (wf_jobs _ Hwf _ _ Hid) as [_ Hok]. eapply job_ok_keep; try done.
  pose proof (lifecycle_core _ _ Hl) as Hc. by apply (f_equal core_MaxAttempts) in Hc.
Qed.

Lemma wp_NextJob t nodeID d : wf d → wp (pg_NextJobForWorker t nodeID) (steps true [] d) d.
Proof.
  intros Hwf. unfold pg_NextJobForWorker. apply qwp_bind, wp_sql; [done|]. cbn [fst snd].
  destruct (head _) as [job|] eqn:E; [|by apply store_step_refl].
  assert (Hrow : db_jobs d !! job_ID job = Some job ∧ job_Status job = StatusScheduled).
  { apply head_Some_elem_of in E. rewrite elem_of_sort_slice, list_elem_of_filter in E.
    destruct E as [[_ Hst] Hin]. split; [|done]. by apply (rows_elem p t d job Hwf). }
  destruct Hrow as [Hrow Hst]. cbn [wp].
  match goal with |- context [update_row ?i ?P ?f ?x] => pose proof (quiet_row d i P f Hwf) as Hq; destruct (update_row i P f x) as [d1 b] end.
  simpl in Hq. apply Hq. intros row Hid _. simplify_eq. split_and!; [|done|done| |done].
  - apply lc_status; [done|done|]. by apply t_start.
  - intros _. apply active_cases. by left.
Qed.

Lemma wp_UpdateJobProgress t jobID req d : wf d → wp (pg_UpdateJobProgress t jobID req) (steps true [] d) d.
Proof.
  intros Hwf. unfold pg_UpdateJobProgress, update_job. apply wp_sql; [done|]. apply quiet_row; [done|].
  intros row Hid HP. rewrite andb_true_iff, !bool_decide_eq_true in HP. destruct HP as [_ Hst].
  split_and!; [|done..]. apply lc_status; [done|done|]. by apply t_progress.
Qed.

Lemma wp_CompleteCoordinatorJob t jobID text errText d :
  wf d → wp (pg_CompleteCoordinatorJob t jobID text errText) (steps true [] d) d.
Proof.
  intros Hwf. unfold pg_CompleteCoordinatorJob, update_job. apply wp_sql; [done|]. apply quiet_row; [done|].
  intros row Hid Ht%bool_decide_eq_true. cbv zeta. split_and!; [|done|done| |].
  - apply lc_coordinator; try done. simpl. destruct (negb _); [by right|by left].
  - rewrite active_cases. simpl. destruct (negb _); naive_solver.
  - simpl. by destruct (negb _).
Qed.

Lemma wp_CancelJob t jobID d :
  wf d → (S (onlines d) < fuel)%nat → wp (pg_CancelJob p fuel t jobID) (steps true [] d) d.
Proof.
  intros Hwf Hk. unfold pg_CancelJob, update_job. apply qwp_bind, wp_sql; [done|].
  match goal with |- context [update_row ?i ?P ?f ?x] => pose proof (quiet_row d i P f Hwf) as Hq; 
    assert (Hn : db_nodes (update_row i P f x).1 = db_nodes d)
      by (unfold update_row; destruct (_ !! _); [by destruct (_ && _)|done]);
    destruct (update_row i P f x) as [d1 b] end.
  simpl in Hq, Hn. cbn [fst snd].
  assert (S1 : store_step true [] (db_state p d) (db_state p d1)).
  { apply Hq. intros row Hid Hc. split_and!; try done. apply lc_status; [done|done|]. by apply t_cancel. }
  destruct b as [job|]; [|done]. eapply wp_seq; [eapply (wp_schedule p Hup _ fuel (wp_Nodes p Hup fuel))|].
  - apply S1.
  - unfold onlines. rewrite Hn. unfold onlines in Hk. lia.
  - cbn beta. intros d' u (X & C). simpl. by eapply steps_calm.
Qed.

Lemma wp_UpdateCDIPStageState t jobID next detail d :
  wf d → wp (pg_UpdateCDIPStageState t jobID next detail) (steps (negb (bool_decide (next = StagePreparing))) [] d) d.
Proof.
  intros Hwf. set (cap := negb _). unfold pg_UpdateCDIPStageState, pg_Job. apply qwp_bind, wp_sql; [done|]. cbn [fst snd].
  destruct (db_jobs d !! jobID) as [row|] eqn:Hid; simpl; [|by apply store_step_refl].
  destruct (wf_jobs _ Hwf _ _ Hid) as [HID Hok]. rewrite (scan_ok row Hok).
  case_bool_decide as Ht; [by apply store_step_refl|].
  destruct (CanTransition (stage_current row) next) eqn:Hcan; simpl; [|by apply store_step_refl].
  set (now := w_clock _). unfold update_job. apply wp_sql; [done|]. apply update_row_step; [done|].
  intros row' Hid' _. assert (row' = row) as -> by congruence.
  destruct (stage_job_lifecycle row next detail now Hok Ht Hcan) as [Hl Hok'].
  match goal with |- lifecycle _ ?x ∧ _ => assert (Hv : vital (stage_job row next detail now) = vital x) end.
  { destruct (stage_job_spec row next detail now) as (Hc & Hs & Hto & _). unfold vital. rewrite Hc, Hs, Hto. done. }
  split_and!; [by eapply vital_lifecycle|by eapply vital_ok|]. unfold cap. case_bool_decide; [done|]. intros _ n.
  rewrite <- (vital_occ n _ _ Hv). by apply stage_job_occ.
Qed.

(** *** Creation *)

Lemma wp_canAccept t nodeID req d (Q : DB → bool → Prop) :
  wf d → (onlines d < fuel)%nat →
  (∀ d' b, calm p [] d d' → (b = true → nodeID ≠ ""%string ∧ has_slot d' nodeID) → Q d' b) →
  wp (pg_workerCanAccept (nodes_of p fuel) t nodeID req) Q d.
Proof.
  intros Hwf Hk HQ. unfold pg_workerCanAccept.
  eapply wp_seq; [by apply (wp_Nodes p Hup)|]. cbn beta. intros d1 l [C Hl].
  destruct (find _ l) as [node|] eqn:E; [|by apply HQ].
  apply find_some in E as [Hin%list_elem_of_In Heq%bool_decide_eq_true]. subst nodeID.
  destruct (_ || _); [by apply HQ|]. apply qwp_bind, wp_active; [done|]. simpl. apply HQ; [done|].
  intros Hlt%Z.ltb_lt. split; [eapply listed_named; [by eapply calm_wf|done|done]|].
  unfold has_slot. by rewrite (listed_slots d1 node l).
Qed.

(** The job a request makes: it may be stored without overloading its worker. *)
Definition fresh (d : DB) (id : string) (job : Job) : Prop :=
  job_ID job = id ∧ job_ok job ∧ ∃ n0, ∀ n, occ n job = 0 ∨ (n = n0 ∧ has_slot d n).
Lemma wp_placed_job t now req d :
  wf d → (onlines d < fuel)%nat → cr_MaxAttempts req < 2^63 →
  wp (pg_placed_job p fuel t now req)
    (λ d' job, calm p [] d d' ∧ fresh d' (newID "job" (w_rand (t ++ ["job"%string]))) job) d.
Proof.
  intros Hwf Hk Hmax. pose proof (normalizeMaxAttempts_range _ Hmax) as Hr.
  unfold pg_placed_job. set (job := new_job t now req).
  assert (Hqueued : ∀ d' j', job_ID j' = job_ID job → job_Status j' = StatusQueued → job_Attempts j' = 0 →
    job_MaxAttempts j' = job_MaxAttempts job → fresh d' (newID "job" (w_rand (t ++ ["job"%string]))) j').
  { intros d' j' HID Hst Ha HM. split_and!; [done| |exists ""%string; intros n; left; apply occ_zero; by rewrite (not_active_status j' StatusQueued)].
    split; rewrite ?Ha, ?HM; simpl; try lia. by rewrite (not_active_status j' StatusQueued). }
  assert (Hwait : ∀ d1, calm p [] d d1 →
    wp (reason ⟵ pg_waitingReason (nodes_of p fuel) t (job_Requirements job); QRet (job <| job_LastFailure := reason |>))
      (λ d' job, calm p [] d d' ∧ fresh d' (newID "job" (w_rand (t ++ ["job"%string]))) job) d1).
  { intros d1 C1. apply qwp_bind. apply (wp_waiting p (nodes_of p fuel) fuel (wp_Nodes p Hup fuel)); [by eapply calm_wf| |].
    - eapply Nat.le_lt_trans; [eapply onlines_le, (cm_nodes _ _ _ _ C1)|done].
    - intros d2 reason C2. simpl. split; [exact (calm_trans p [] [] _ _ _ C1 C2)|]. by apply Hqueued. }
  assert (Hplace : ∀ d' w, w ≠ ""%string → has_slot d' w → fresh d' (newID "job" (w_rand (t ++ ["job"%string])))
      (job <| job_AssignedTo := w |> <| job_Status := StatusScheduled |> <| job_Attempts := 1 |>)).
  { intros d' w Hw Hroom. split_and!; [done|by split; simpl; try lia|]. exists w. intros n.
    destruct (decide (n = w)) as [->|Hne]; [by right|left]. apply occ_other. simpl. congruence. }
  destruct (cr_NoAutoAssign req); [simpl; split; [by apply calm_refl|by apply Hqueued]|].
  case_bool_decide as Ha; cbn [negb].
  - eapply wp_seq; [by apply (wp_pick p Hup _ fuel (wp_Nodes p Hup fuel))|]. cbn beta. intros d1 w [C1 Hp].
    case_bool_decide as Hw; cbn [negb]; [by apply Hwait|]. destruct Hp as [?|(_ & _ & ?)]; [done|].
    simpl. split; [done|by apply Hplace].
  - apply qwp_bind, wp_canAccept; [done|done|]. intros d1 [|] C1 Hb; [|by apply Hwait].
    simpl. destruct (Hb eq_refl). split; [done|by apply Hplace].
Qed.

Lemma column_step cap d job id :
  wf d → fresh d id job ∨ (cap = false ∧ job_ID job = id ∧ job_ok job) →
  store_step cap [id] (db_state p d) (db_state p (d <| db_jobs := <[id := column_job job]> (db_jobs d) |>)).
Proof.
  intros Hwf Hf. assert (Hok : job_ID job = id ∧ job_ok (column_job job)).
  { assert (job_ID job = id ∧ job_ok job) as [? []] by (destruct Hf as [(? & ? & _)|(_ & ? & ?)]; done). by split. }
  destruct Hok as [<- Hok]. destruct Hf as [(_ & _ & n0 & Hn)|(-> & _)].
  - apply (insert_step cap (db_state p d) (column_job job) n0 Hwf Hok). intros _. exact Hn.
  - by apply (insert_step false (db_state p d) (column_job job) "" Hwf Hok).
Qed.

Lemma wp_CreateJob t req d :
  wf d → (S (onlines d) < fuel)%nat → cr_MaxAttempts req < 2^63 →
  wp (pg_CreateJob p fuel t req) (steps true [newID "job" (w_rand (t ++ ["job"%string]))] d) d.
Proof.
  intros Hwf Hk Hmax. unfold pg_CreateJob. eapply wp_seq; [apply wp_placed_job; [done|lia|done]|]. cbn beta.
  intros d1 job [C Hf]. unfold insert_job. apply qwp_bind, wp_sql; [done|].
  assert (S1 : store_step true [newID "job" (w_rand (t ++ ["job"%string]))] (db_state p d1)
            (db_state p (d1 <| db_jobs := <[job_ID job := column_job job]> (db_jobs d1) |>))).
  { destruct Hf as (E & Hf). rewrite E. apply column_step; [by eapply calm_wf|]. by left. }
  destruct (can_insert _ _); cbn [fst snd wp].
  - eapply (store_step_trans true [] _ _ (db_state p d1)); [done|apply (cm_step _ _ _ _ C)|exact S1].
  - rewrite <- (app_nil_l [_]). eapply (store_step_trans true [] _ _ (db_state p d1)); [done|apply (cm_step _ _ _ _ C)|].
    apply store_step_refl; [by eapply calm_wf|done].
Qed.

Lemma wp_batch_loop t now i inserted reqs d :
  wf d → (onlines d < fuel)%nat → Forall (λ req, cr_MaxAttempts req < 2^63) reqs → Forall job_ok inserted →
  wp (batch_loop p fuel t now i inserted reqs) (λ d' r, calm p [] d d' ∧ ∀ created, r = Some created →
    Forall job_ok created ∧ job_ID <$> created = (job_ID <$> inserted) ++
      imap (λ k _, newID "job" (w_rand ((t ++ [pretty (i + k)%nat]) ++ ["job"%string]))) reqs) d.
Proof.
  intros Hwf Hk Hr. revert i inserted d Hwf Hk. induction Hr as [|req reqs Hreq Hr IH]; intros i inserted d Hwf Hk Hins; cbn [batch_loop].
  { simpl. split; [by apply calm_refl|]. intros created [= <-]. by rewrite app_nil_r. }
  eapply wp_seq; [by apply wp_placed_job|]. cbn beta. intros d1 job [C1 (HID & Hok & _)].
  apply qwp_bind, wp_sql; [done|]. cbn [fst snd]. destruct (_ && _); simpl; [|by split].
  eapply qwp_mono; [apply IH; [by eapply calm_wf| |]|].
  - eapply Nat.le_lt_trans; [eapply onlines_le, (cm_nodes _ _ _ _ C1)|done].
  - apply Forall_app. split; [done|]. by constructor.
  - cbn beta. intros d' r [C2 Hc]. split; [exact (calm_trans p [] [] _ _ _ C1 C2)|].
    intros created ->. destruct (Hc created eq_refl) as [Hall Hids]. split; [done|]. rewrite Hids, fmap_app, <- app_assoc.
    f_equal. simpl. rewrite HID, Nat.add_0_r. f_equal. apply imap_ext. intros k x _. simpl. by rewrite Nat.add_succ_r.
Qed.

Lemma commit_step inserted d :
  wf d → Forall job_ok inserted →
  store_step false (job_ID <$> inserted) (db_state p d) (db_state p (commit inserted d).1).
Proof.
  intros Hwf Hall. unfold commit. destruct (forallb _ _); simpl.
  2:{ split; try done; by eauto using rtc_refl. }
  revert d Hwf. induction Hall as [|job inserted Hok _ IH]; intros d Hwf; simpl; [by apply store_step_refl|].
  set (d1 := d <| db_jobs := <[job_ID job := column_job job]> (db_jobs d) |>).
  pose proof (column_step false d job (job_ID job) Hwf (or_intror (conj eq_refl (conj eq_refl Hok)))) as S1. fold d1 in S1.
  refine (store_step_trans false [job_ID job] _ _ _ _ _ S1 (IH d1 (ss_wf _ _ _ _ S1))). done.
Qed.

Lemma wp_CreateJobsBatch t reqs d :
  wf d → (S (onlines d) < fuel)%nat → Forall (λ req, cr_MaxAttempts req < 2^63) reqs →
  wp (pg_CreateJobsBatch p fuel t reqs)
    (steps false (imap (λ k _, newID "job" (w_rand ((t ++ [pretty k]) ++ ["job"%string]))) reqs) d) d.
Proof.
  intros Hwf Hk Hr. unfold pg_CreateJobsBatch. apply qwp_bind, wp_sql; [done|]. cbn [fst snd negb].
  eapply wp_seq; [apply wp_batch_loop; [done|lia|done|done]|]. cbn beta. intros d1 r [C Hc].
  assert (Hstep : store_step false [] (db_state p d) (db_state p d1))
    by (destruct (cm_step _ _ _ _ C); by split).
  assert (Hquiet : ∀ ids, store_step false ids (db_state p d) (db_state p d1)).
  { intros ids. destruct Hstep as [Sw Sj Sn Sc]. split; [done| | |done].
    - intros id j Hj _. apply Sj; [done|]. apply not_elem_of_nil.
    - intros id Hs. left. by destruct (Sn id Hs) as [?|?%not_elem_of_nil]. }
  destruct r as [created|]; [|apply Hquiet].
  destruct (Hc created eq_refl) as [Hall Hids]. simpl in Hids. apply qwp_bind, wp_sql; [done|].
  rewrite <- Hids, <- (app_nil_l (job_ID <$> created)).
  eapply (store_step_trans false [] _ _ (db_state p d1)); [|exact Hstep|apply commit_step; [by eapply calm_wf|done]].
  intros n. unfold commit. by destruct (forallb _ _).
Qed.

(** *** Completion *)

(** The row of a job is overwritten from a copy read before a listing: it moved
    from what the copy was. *)
Lemma overwrite_step d d1 id row f :
  wf d → calm p [] d d1 → db_jobs d !! id = Some row →
  (∀ row1, core row1 = core row → job_CDIPState row1 = job_CDIPState row →
     lifecycle row (f row1) ∧ job_ok (f row1) ∧ ∀ n, occ n (f row1) = 0 ∨ has_slot d1 n) →
  store_step true [] (db_state p d) (db_state p (update_row id anyway f d1).1).
Proof.
  intros Hwf C Hid Hf. pose proof (cm_step _ _ _ _ C) as [W1 J1 N1 O1].
  destruct (J1 id row Hid (not_elem_of_nil _)) as (row1 & Hid1 & Hr). simpl in Hid1.
  destruct (cm_stage _ _ _ _ C id row Hid) as (row' & Hid' & Hst). assert (row' = row1) as -> by congruence.
  destruct (Hf row1 (rtc_lifecycle_core _ _ Hr) Hst) as (Hl & Hok & Hocc).
  unfold update_row. rewrite Hid1. destruct (anyway row1 && row_fits (f row1)); simpl; [|by split].
  destruct (wf_jobs _ Hwf _ _ Hid) as [HID _].
  assert (E : job_ID (f row1) = id).
  { pose proof (lifecycle_core _ _ Hl) as Hc. apply (f_equal core_ID) in Hc. simpl in Hc. congruence. }
  destruct W1 as [Wn Wj]. split; simpl.
  - split; [done|]. apply map_Forall_insert_2; [by split|done].
  - intros i j Hj _. destruct (decide (i = id)) as [->|Hne].
    + exists (f row1). rewrite lookup_insert_eq. split; [done|]. simplify_eq/=. by apply rtc_once.
    + rewrite lookup_insert_ne by done. apply J1; [done|apply not_elem_of_nil].
  - intros i. destruct (decide (i = id)) as [->|Hne]; [left; by exists row|].
    rewrite lookup_insert_ne by done. apply N1.
  - intros n _. specialize (O1 n eq_refl). simpl in O1. rewrite (active_on_update n _ _ row1) by done.
    pose proof (occ_bounds n row1). pose proof (occ_bounds n (f row1)). unfold has_slot in Hocc.
    destruct (Hocc n); lia.
Qed.

Lemma update_row_nodes id P f d : db_nodes (update_row id P f d).1 = db_nodes d.
Proof. unfold update_row. destruct (_ !! _); [by destruct (_ && _)|done]. Qed.

(** The end of [CompleteJob]: the row is written, then the queue is placed. *)
Lemma wp_written t now id texts f d d1 :
  (∀ n, slots_of (db_nodes d) n = slots_of (db_nodes d1) n) → (onlines d1 < fuel)%nat →
  store_step true [] (db_state p d) (db_state p (update_row id anyway f d1).1) →
  wp (updated ⟵ update_job (t ++ ["update"%string]) texts id anyway f;
      match updated with
      | None => QRet None
      | Some updated => _ ⟵ pg_scheduleQueuedJobs (nodes_of p fuel) t now; QRet (Some updated)
      end) (steps true [] d) d1.
Proof.
  intros Hn Hk S1. unfold update_job. apply qwp_bind, wp_sql; [done|].
  pose proof (update_row_nodes id anyway f d1) as En.
  destruct (update_row id anyway f d1) as [d2 [row|]]; simpl in S1, En; cbn [fst snd]; [|done].
  eapply wp_seq; [eapply (wp_schedule p Hup _ fuel (wp_Nodes p Hup fuel))|].
  - apply S1.
  - unfold onlines in *. by rewrite En.
  - cbn beta. intros d' u (X & C). simpl. by eapply steps_calm.
Qed.

Lemma wp_CompleteJob t jobID req d :
  wf d → (S (onlines d) < fuel)%nat → wp (pg_CompleteJob p fuel t jobID req) (steps true [] d) d.
Proof.
  intros Hwf Hk. unfold pg_CompleteJob. apply qwp_bind, wp_sql; [done|]. cbn [fst snd].
  destruct (db_jobs d !! jobID) as [row|] eqn:Hid; [|by apply store_step_refl].
  destruct (bool_decide (job_AssignedTo row = comp_NodeID req) && _) eqn:Hg; [|by apply store_step_refl].
  destruct (wf_jobs _ Hwf _ _ Hid) as [HID Hok]. rewrite (scan_ok row Hok).
  rewrite andb_true_iff, orb_true_iff, !bool_decide_eq_true in Hg.
  destruct (bool_decide (job_Status row = StatusCanceled)) eqn:Hcan; [by apply store_step_refl|].
  apply bool_decide_eq_false in Hcan. destruct Hg as [Hto [Hrun|?]]; [|done].
  assert (Hact : is_active row = true) by (apply active_cases; by right).
  set (now := w_clock _). set (job := row <| job_Result := _ |> <| job_Error := _ |> <| job_UpdatedAt := _ |>).
  assert (Hokj : job_ok job) by by eapply job_ok_keep.
  destruct (negb _).
  - eapply wp_seq; [apply (wp_reschedule p Hup _ fuel (wp_Nodes p Hup fuel)); [done|lia|by split]|]. cbn beta.
    intros d1 j' (C & Hm & Hfree).
    assert (E : job_ID j' = jobID) by (destruct Hm as (_ & (E & _) & _); by rewrite E).
    rewrite E. apply wp_written.
    + apply nodes_slots, (cm_nodes _ _ _ _ C).
    + eapply Nat.le_lt_trans; [eapply onlines_le, (cm_nodes _ _ _ _ C)|lia].
    + apply (overwrite_step d d1 jobID row); [done|done|done|]. intros row1 Hc Hst.
      pose proof (write_back_vital _ row1 job j' Hm Hst Hc Hokj) as Hv. split_and!.
      * eapply vital_lifecycle; [exact Hv|]. by apply (fail_moved_lifecycle (comp_NodeID req) row).
      * eapply vital_ok; [exact Hv|]. by eapply fail_moved_ok.
      * intros n. by rewrite <- (vital_occ n _ _ Hv).
  - cbn [qbind]. assert (E : job_ID job = jobID) by exact HID. simpl. rewrite HID.
    apply wp_written; [done|lia|]. apply quiet_row; [done|]. intros row1 Hid1 _. assert (row1 = row) as -> by congruence.
    split_and!; try done. apply lc_status; [done|done|]. by apply t_succeed.
Qed.

(** *** All of them *)

Lemma wp_exec t op d :
  wf d → op_ok op → (S (onlines d) < fuel)%nat →
  wp (pg_exec p fuel t op) (steps (pg_within_slots op) (pg_created t op) d) d.
Proof.
  intros Hwf Hop Hk. destruct op; simpl in Hop; cbn [pg_exec pg_within_slots pg_created];
    lazymatch goal with |- wp (QRet _) _ _ => by apply store_step_refl | _ => apply wp_ignore end.
  - by apply wp_RegisterWorker.
  - by apply wp_Heartbeat.
  - by apply wp_MarkWorkerOffline.
  - by apply wp_PutBenchmark.
  - by apply wp_PutRPCHealth.
  - by apply wp_CreateJob.
  - by apply wp_CreateJobsBatch.
  - by apply wp_NextJob.
  - by apply wp_UpdateJobProgress.
  - by apply wp_UpdateCDIPStageState.
  - by apply wp_CompleteCoordinatorJob.
  - by apply wp_CompleteJob.
  - by apply wp_CancelJob.
  - by apply wp_Nodes_step.
Qed.
End methods.

(** ** Reachable tables *)

Section reachable.
Context `{Codecs} `{Postgres} (p : PostgresStore).

(** Calls of methods that end, one after the other. *)
Inductive pg_reachable : DB → Prop :=
  | pg_init : pg_reachable empty_db
  | pg_step (W : World) (fuel : nat) (t : Tag) (d : DB) (op : store_op) (d' : DB) :
      pg_reachable d → op_ok op → (S (onlines d) < fuel)%nat → qrun (pg_exec p fuel t op) d = Some (d', tt) → pg_reachable d'.

Lemma pg_exec_step (Hup : ∀ t texts, pg_fault t texts = false) (W : World) fuel t op d :
  state_wf (db_state p d) → op_ok op → (S (onlines d) < fuel)%nat →
  ∃ d', qrun (pg_exec p fuel t op) d = Some (d', tt) ∧
    store_step (pg_within_slots op) (pg_created t op) (db_state p d) (db_state p d').
Proof.
  intros Hwf Hop Hk. destruct (qwp_run _ _ _ (wp_exec p Hup fuel t op d Hwf Hop Hk)) as (d' & [] & Hr & Hs).
  by exists d'.
Qed.
Lemma pg_reachable_wf (Hup : ∀ t texts, pg_fault t texts = false) d : pg_reachable d → state_wf (db_state p d).
Proof.
  induction 1 as [|W fuel t d op d' _ IH Hop Hk Hr]; [by split; apply map_Forall_empty|].
  destruct (pg_exec_step Hup W fuel t op d IH Hop Hk) as (d1 & Hr1 & Hs). simplify_eq. apply Hs.
Qed.

(** C2 (refinement). The PostgreSQL store implements the life cycle: over a database
    that answers, every method called on its own, on tables that calls left behind,
    ends, even though listing the nodes fails the jobs of workers that timed out,
    placing those jobs lists the nodes again, and so on, each of these keeping a
    connection, provided the pool has at least four more connections than there
    are workers online ([fuel] may be their number plus two).  Afterwards each job
    that existed has moved along its life cycle only, the new jobs are those the
    call created, and, but for batches and the report that a stage is preparing, no
    worker was placed above its slots.  (With fewer connections a call may wait for
    ever; so may calls that run at once.) *)
Theorem postgres_refines_lifecycle (W : World) (fuel pool : nat) (t : Tag) (d : DB) (op : store_op) :
  (∀ t texts, pg_fault t texts = false) → pg_reachable d → op_ok op →
  (S (onlines d) < fuel)%nat → (S fuel < pool)%nat →
  ∃ d', prun pool (pg_exec p fuel t op) d = Finished d' tt ∧
    (∀ id j, db_jobs d !! id = Some j → id ∉ pg_created t op →
       ∃ j', db_jobs d' !! id = Some j' ∧ rtc lifecycle j j') ∧
    (∀ id, is_Some (db_jobs d' !! id) → is_Some (db_jobs d !! id) ∨ id ∈ pg_created t op) ∧
    (pg_within_slots op = true → ∀ n, active_on n (db_jobs d') ≤ Z.max (active_on n (db_jobs d)) (slots_of (db_nodes d') n)).
Proof.
  intros Hup Hr Hop Hk Hpool. destruct (pg_exec_step Hup W fuel t op d (pg_reachable_wf Hup d Hr) Hop Hk) as (d' & Hd & [_ J N C]).
  exists d'. split_and!; [|exact J|exact N|intros Hc n; by apply C]. eapply fits_run, Hd. by apply fits_exec.
Qed.
End reachable.
