(* ===== verification/PgFaults.v ===== *)
(** * Concurrent calls and failures of the PostgreSQL store

    The statements of concurrent calls interleave and any of them may fail.  What
    holds of the rows whatever the interleaving; what the methods answer when the
    database does not; and examples of what the store does not promise, because a
    decision and the statement that acts on it are apart. *)

From S2P Require Import Prelude GoString GoSort GoFloat World Json Cdip Types Protocol Models State.
From S2P Require Import Codec Conversations Scheduling JobStore PgStore PgRun PgMethods.
#[local] Open Scope query_scope.

(** ** What every statement of a program does, and what it returns *)

Fixpoint safe {A} (G : DB → DB → Prop) (q : query A) (Q : A → Prop) : Prop :=
  match q with
  | QRet a => Q a
  | QOut => True
  | QStmt _ f k => (∀ d, G d (f d).1) ∧ ∀ b, safe G (k b) Q
  end.
Lemma safe_mono {A} G (q : query A) (Q Q' : A → Prop) : safe G q Q → (∀ a, Q a → Q' a) → safe G q Q'.
Proof. intros Hq HQ. induction q as [a| |c B f k IH]; simpl in *; [by apply HQ|done|]. split; [apply Hq|]. intros b. apply IH, Hq. Qed.
Lemma safe_bind {A B} G (q : query A) (h : A → query B) (R : A → Prop) Q :
  safe G q R → (∀ a, R a → safe G (h a) Q) → safe G (qbind q h) Q.
Proof.
  intros Hq Hh. induction q as [a| |c C f k IH]; simpl in *; [by apply Hh|done|]. split; [apply Hq|].
  intros b. apply IH, Hq.
Qed.
Definition any {A} (_ : A) : Prop := True.
Lemma safe_then {A B} G (q : query A) (h : A → query B) Q :
  safe G q any → (∀ a, safe G (h a) Q) → safe G (qbind q h) Q.
Proof. intros Hq Hh. by eapply safe_bind; [exact Hq|]. Qed.
Lemma safe_each {X} G (f : X → query unit) l : (∀ x, safe G (f x) any) → safe G (qeach f l) any.
Proof. intros Hf. induction l as [|x l IH]; [done|]. apply safe_then; [apply Hf|done]. Qed.

(** ** What no statement changes *)

(** What a job is, as opposed to where it stands. *)
Definition identity (j : Job) :=
  (job_ID j, job_Type j, job_RequestedBy j, job_Input j, job_Requirements j, job_CDIPParentJobID j, job_CDIPStageIndex j, job_CreatedAt j).
Definition node_identity (n : Node) := (node_ID n, node_Name n, node_Role n, node_Endpoint n, node_JoinedAt n).

(** Rows are not removed, nor change what they are; jobs appear under [ids] only;
    the numbers fit their columns. *)
Record keeps (ids : list string) (d d' : DB) : Prop := {
  kp_jobs id j : db_jobs d !! id = Some j → ∃ j', db_jobs d' !! id = Some j' ∧ identity j' = identity j;
  kp_new id : is_Some (db_jobs d' !! id) → is_Some (db_jobs d !! id) ∨ id ∈ ids;
  kp_nodes id n : db_nodes d !! id = Some n → ∃ n', db_nodes d' !! id = Some n' ∧ node_identity n' = node_identity n;
  kp_fit : map_Forall (λ _ j, row_fits j = true) (db_jobs d) → map_Forall (λ _ j, row_fits j = true) (db_jobs d');
}.
#[export] Instance keeps_preorder ids : PreOrder (keeps ids).
Proof.
  split.
  - intros d. split; eauto.
  - intros d1 d2 d3 [J1 N1 O1 F1] [J2 N2 O2 F2]. split; [| | |auto].
    + intros id j Hj. destruct (J1 id j Hj) as (j1 & Hj1 & E1). destruct (J2 id j1 Hj1) as (j2 & Hj2 & E2).
      exists j2. split; [done|congruence].
    + intros id [?|?]%N2; [by apply N1|by right].
    + intros id n Hn. destruct (O1 id n Hn) as (n1 & Hn1 & E1). destruct (O2 id n1 Hn1) as (n2 & Hn2 & E2).
      exists n2. split; [done|congruence].
Qed.

Section keeping.
Context `{W : World} `{Codecs} `{Postgres} (p : PostgresStore) (ids : list string).
Abbreviation ok q := (safe (keeps ids) q any).

Lemma keep_same d d' : db_jobs d' = db_jobs d → db_nodes d' = db_nodes d → keeps ids d d'.
Proof. intros E1 E2. split; rewrite ?E1, ?E2; eauto. Qed.
Lemma keep_row id P f d : (∀ j, identity (f j) = identity j) → keeps ids d (update_row id P f d).1.
Proof.
  intros Hf. unfold update_row. destruct (db_jobs d !! id) as [j|] eqn:E; [|done].
  destruct (P j && row_fits (f j)) eqn:HP; simpl; [|done]. apply andb_prop in HP as [_ HP]. split; simpl.
  - intros i j' Hj. destruct (decide (i = id)) as [->|Hne]; [|exists j'; by rewrite lookup_insert_ne].
    exists (f j). rewrite lookup_insert_eq. by simplify_eq.
  - intros i. destruct (decide (i = id)) as [->|Hne]; [left; by exists j|]. rewrite lookup_insert_ne by done. by left.
  - eauto.
  - intros Hall. by apply map_Forall_insert_2.
Qed.
Lemma keep_node id f d :
  (∀ n, node_identity (f n) = node_identity n) →
  keeps ids d (match db_nodes d !! id with
               | Some node => (d <| db_nodes := <[id := f node]> (db_nodes d) |>, true)
               | None => (d, false)
               end).1.
Proof.
  intros Hf. destruct (db_nodes d !! id) as [n|] eqn:E; [|done]. split; simpl; eauto.
  intros i m Hm. destruct (decide (i = id)) as [->|Hne]; [|exists m; by rewrite lookup_insert_ne].
  exists (f n). rewrite lookup_insert_eq. by simplify_eq.
Qed.
Lemma keep_insert d (js : gmap string Job) :
  (∀ id j, db_jobs d !! id = Some j → js !! id = Some j) →
  (∀ id, is_Some (js !! id) → is_Some (db_jobs d !! id) ∨ id ∈ ids) →
  (map_Forall (λ _ j, row_fits j = true) (db_jobs d) → map_Forall (λ _ j, row_fits j = true) js) →
  keeps ids d (d <| db_jobs := js |>).
Proof. intros H1 H2 H3. split; simpl; eauto. Qed.

Lemma safe_sql {B : Set} c t texts (f : DB → DB * B) failed : (∀ d, keeps ids d (f d).1) → ok (sql c t texts f failed).
Proof. intros Hf. split; [|done]. intros d. by destruct (pg_fault t texts). Qed.
Lemma safe_read {B : Set} c t texts (f : DB → B) failed : ok (sql c t texts (λ d, (d, f d)) failed).
Proof. by apply safe_sql. Qed.
Lemma safe_update t texts id P f : (∀ j, identity (f j) = identity j) → ok (update_job t texts id P f).
Proof. intros Hf. apply safe_sql. intros d. by apply keep_row. Qed.
Lemma safe_node t id f : (∀ n, node_identity (f n) = node_identity n) → ok (update_node t id f).
Proof. intros Hf. apply safe_sql. intros d. by apply keep_node. Qed.

Lemma safe_active t n : ok (pg_activeJobsForWorker t n).
Proof. by apply safe_then; [apply safe_read|]. Qed.
Lemma safe_scores t : ok (pg_BenchmarkSummaryByNode t).
Proof. apply safe_then; [|done]. by apply safe_then; [apply safe_read|]. Qed.
Lemma safe_pick_loop t req excluded scores best l : ok (pick_loop t req excluded scores best l).
Proof.
  revert best. induction l as [|node l IH]; intros best; cbn [pick_loop]; [done|]. destruct (_ || _); [apply IH|].
  apply safe_then; [apply safe_active|]. intros active. destruct (_ <=? _); apply IH.
Qed.

Section placing.
Context (nodes_of : Tag → query (list Node)) (Hnodes : ∀ t, ok (nodes_of t)).

Lemma safe_pick t req excluded : ok (pg_pickWorkerExcept nodes_of t req excluded).
Proof.
  apply safe_then; [apply Hnodes|]. intros l. apply safe_then; [apply safe_scores|]. intros scores. apply safe_pick_loop.
Qed.
Lemma safe_waiting t req : ok (pg_waitingReason nodes_of t req).
Proof. by apply safe_then; [apply Hnodes|]. Qed.
Lemma safe_accept t id req : ok (pg_workerCanAccept nodes_of t id req).
Proof.
  apply safe_then; [apply Hnodes|]. intros l. destruct (find _ l); [|done]. destruct (_ || _); [done|].
  by apply safe_then; [apply safe_active|].
Qed.
Lemma safe_reschedule t j node now reason : ok (pg_rescheduleOrFailJob nodes_of t j node now reason).
Proof. unfold pg_rescheduleOrFailJob. destruct (_ <? _); [|done]. by apply safe_then; [apply safe_pick|]. Qed.
Lemma safe_fail t node now reason : ok (pg_failActiveJobsForWorker nodes_of t node now reason).
Proof.
  apply safe_then; [apply safe_read|]. intros found. apply safe_then; [|done]. apply safe_each. intros j.
  apply safe_then; [apply safe_reschedule|]. intros j'. by apply safe_then; [apply safe_update|].
Qed.
Lemma safe_schedule t now : ok (pg_scheduleQueuedJobs nodes_of t now).
Proof.
  apply safe_then; [apply safe_read|]. intros found. apply safe_then; [|done]. apply safe_each. intros j. unfold pg_schedule_step.
  apply safe_then; [apply safe_pick|]. intros w. destruct (str_eqb w _).
  - destruct (_ || _); [|done]. apply safe_then; [apply safe_waiting|]. intros reason. by apply safe_then; [apply safe_update|].
  - by apply safe_then; [apply safe_update|].
Qed.
End placing.

Lemma safe_Nodes fuel t : ok (pg_Nodes p fuel t).
Proof.
  revert t. induction fuel as [|fuel IH]; intros t; cbn [pg_Nodes]; [done|].
  apply safe_then; [apply safe_read|]. intros found. apply safe_then; [|done]. apply safe_each. intros node.
  apply safe_then; [by apply safe_node|]. intros _. by apply safe_fail.
Qed.

(** *** The methods *)

Context (fuel : nat).
Definition made (t : Tag) (j : Job) : Prop := job_ID j = newID "job" (w_rand (t ++ ["job"%string])).
Lemma safe_placed t now req : safe (keeps ids) (pg_placed_job p fuel t now req) (made t).
Proof.
  assert (Hwait : safe (keeps ids) (reason ⟵ pg_waitingReason (nodes_of p fuel) t (job_Requirements (new_job t now req));
      QRet ((new_job t now req) <| job_LastFailure := reason |>)) (made t)).
  { by apply safe_then; [apply safe_waiting, safe_Nodes|]. }
  unfold pg_placed_job. destruct (cr_NoAutoAssign req); [done|]. destruct (negb _).
  - apply safe_then; [apply safe_accept, safe_Nodes|]. by intros [|].
  - apply safe_then; [apply safe_pick, safe_Nodes|]. intros w. by destruct (negb _).
Qed.
Lemma can_insert_keep d j :
  can_insert (db_jobs d) j = true → job_ID j ∈ ids →
  (∀ id j', db_jobs d !! id = Some j' → <[job_ID j := column_job j]> (db_jobs d) !! id = Some j') ∧
  (∀ id, is_Some (<[job_ID j := column_job j]> (db_jobs d) !! id) → is_Some (db_jobs d !! id) ∨ id ∈ ids) ∧
  row_fits (column_job j) = true.
Proof.
  intros [Hn%bool_decide_eq_true Hf]%andb_prop Hin. split_and!; [| |done].
  - intros id j' Hj. rewrite lookup_insert_ne; [done|congruence].
  - intros id. destruct (decide (id = job_ID j)) as [->|Hne]; [by right|]. rewrite lookup_insert_ne by done. by left.
Qed.
Lemma safe_CreateJob t req : newID "job" (w_rand (t ++ ["job"%string])) ∈ ids → ok (pg_CreateJob p fuel t req).
Proof.
  intros Hin. eapply safe_bind; [apply safe_placed|]. intros j Hj. apply safe_then; [|done]. apply safe_sql. intros d.
  destruct (can_insert (db_jobs d) j) eqn:E; [|done].
  destruct (can_insert_keep d j E) as (? & ? & ?); [by rewrite Hj|]. apply keep_insert; [done|done|].
  intros Hall. by apply map_Forall_insert_2.
Qed.
Lemma safe_batch_loop t now i inserted reqs :
  Forall (λ j, job_ID j ∈ ids) inserted →
  (∀ k, (k < length reqs)%nat → newID "job" (w_rand ((t ++ [pretty (i + k)%nat]) ++ ["job"%string])) ∈ ids) →
  safe (keeps ids) (batch_loop p fuel t now i inserted reqs) (λ r, ∀ l, r = Some l → Forall (λ j, job_ID j ∈ ids) l).
Proof.
  revert i inserted. induction reqs as [|req reqs IH]; intros i inserted Hins Hids; cbn [batch_loop].
  { by intros l [= <-]. }
  eapply safe_bind; [apply safe_placed|]. intros j Hj. apply safe_then; [apply safe_read|].
  intros [|]; simpl; [|done]. apply IH.
  - apply Forall_app. split; [done|]. constructor; [|done]. rewrite Hj. specialize (Hids 0%nat). rewrite Nat.add_0_r in Hids. apply Hids. simpl. lia.
  - intros k Hk. specialize (Hids (S k)). rewrite Nat.add_succ_r in Hids. apply Hids. simpl. lia.
Qed.
Lemma keep_commit l d : Forall (λ j, job_ID j ∈ ids) l → keeps ids d (commit l d).1.
Proof.
  intros Hl. unfold commit. destruct (forallb (can_insert (db_jobs d)) l) eqn:E; [|done]. simpl.
  rewrite forallb_forall in E.
  assert (Hgen : ∀ js, (∀ id j, db_jobs d !! id = Some j → js !! id = Some j) →
    (∀ id, is_Some (js !! id) → is_Some (db_jobs d !! id) ∨ id ∈ ids) →
    (map_Forall (λ _ j, row_fits j = true) (db_jobs d) → map_Forall (λ _ j, row_fits j = true) js) →
    keeps ids d (d <| db_jobs := foldl (λ js j, <[job_ID j := column_job j]> js) js l |>)); [|by apply Hgen; eauto].
  induction Hl as [|j l Hj _ IH]; intros js H1 H2 H3; cbn [foldl]; [by apply keep_insert|].
  destruct (can_insert_keep d j (E j (or_introl eq_refl)) Hj) as (K1 & K2 & K3).
  apply IH; [intros x Hx; apply E; by right| | |].
  - intros id j' Hj'. specialize (K1 id j' Hj'). destruct (decide (id = job_ID j)) as [->|Hne].
    + rewrite lookup_insert_eq in *. done.
    + rewrite lookup_insert_ne by done. by apply H1.
  - intros id. destruct (decide (id = job_ID j)) as [->|Hne]; [by right|]. rewrite lookup_insert_ne by done. apply H2.
  - intros Hall. apply map_Forall_insert_2; auto.
Qed.

Lemma safe_exec t op : pg_created t op ⊆ ids → ok (pg_exec p fuel t op).
Proof.
  intros Hids. destruct op; simpl in Hids; cbn [pg_exec]; unfold ignore; try done; (apply safe_then; [|done]).
  - apply safe_then; [|intros _; by apply safe_then; [apply safe_schedule, safe_Nodes|]].
    apply safe_sql. intros d. destruct (db_nodes d !! _) eqn:E; [done|]. split; simpl; eauto.
    intros i n Hn. exists n. rewrite lookup_insert_ne by congruence. done.
  - apply safe_then; [by apply safe_node|]. intros [|]; [|done]. by apply safe_then; [apply safe_schedule, safe_Nodes|].
  - apply safe_then; [by apply safe_node|]. intros [|]; [|done]. by apply safe_then; [apply safe_fail, safe_Nodes|].
  - apply safe_sql. intros d. destruct (db_nodes d !! _); [by apply keep_same|done].
  - unfold pg_PutRPCHealth. destruct (str_eqb _ _); [done|]. apply safe_sql. intros d. simpl. by destruct (record_fits _); [apply keep_same|].
  - apply safe_CreateJob. set_solver.
  - apply safe_then; [apply safe_read|]. intros [|]; [|done]. cbn [negb]. eapply safe_bind; [apply safe_batch_loop; [done|]|].
    + intros k Hk. apply Hids. apply lookup_lt_is_Some in Hk as [x Hx]. apply list_elem_of_lookup. exists k.
      by rewrite list_lookup_imap, Hx.
    + intros [l|] Hl; [|done]. apply safe_then; [|done]. apply safe_sql. intros d. by apply keep_commit, Hl.
  - apply safe_then; [apply safe_read|]. intros [j|]; [|done]. split; [|done]. intros d. by apply keep_row.
  - by apply safe_update.
  - apply safe_then; [apply safe_read|]. intros [j|]; [|done].
    destruct (bool_decide _); [done|]. destruct (negb _); [done|]. by apply safe_update.
  - by apply safe_update.
  - apply safe_then; [apply safe_read|]. intros [j|]; [|done]. destruct (bool_decide _); [done|].
    apply safe_then; [destruct (negb _); [apply safe_reschedule, safe_Nodes|done]|]. intros j'.
    apply safe_then; [by apply safe_update|]. intros [u|]; [|done]. by apply safe_then; [apply safe_schedule, safe_Nodes|].
  - apply safe_then; [by apply safe_update|]. intros [u|]; [|done]. by apply safe_then; [apply safe_schedule, safe_Nodes|].
  - apply safe_Nodes.
Qed.
End keeping.

(** ** Interleavings *)

(** The calls in progress; one of them runs its next statement.  Whether it has to
    wait for a connection is left open, so this holds of a pool of any size. *)
Inductive turn : (nat → query unit) * DB → (nat → query unit) * DB → Prop :=
  | turn_statement calls i c (B : Set) (f : DB → DB * B) k d :
      calls i = QStmt c f k → turn (calls, d) (λ n, if decide (n = i) then k (f d).2 else calls n, (f d).1).

Section interleaving.
Context `{Codecs}.

Lemma turns_keep ids calls d calls' d' :
  rtc turn (calls, d) (calls', d') → (∀ i, safe (keeps ids) (calls i) any) → keeps ids d d'.
Proof.
  intros Hr. remember (calls, d) as x eqn:Ex. remember (calls', d') as y eqn:Ey. revert calls d Ex.
  induction Hr as [x|x y z Hxy _ IH]; intros calls d -> Hs; [by simplify_eq|].
  inversion Hxy as [? i c B f k ? E]; subst. pose proof (Hs i) as Hi. rewrite E in Hi. destruct Hi as [Hi Hk].
  transitivity (f d).1; [apply Hi|]. eapply IH; [done|done|]. intros n. simpl. by destruct (decide _).
Qed.

(** C13 (safety). Whatever calls of the methods are in progress, over a database that
    may fail any statement, and however their statements interleave: no job and no
    node disappears; a job keeps its identifier, type, input, requirements and
    place in its plan, a node its identifier, name and role; every new job is one
    that a call created; and the numbers of all jobs fit their columns. *)
Theorem interleavings_keep_rows (ids : list string) (calls calls' : nat → query unit) (d d' : DB) :
  (∀ i, calls i = QRet tt ∨ ∃ (W : World) (P : Postgres) p fuel t op,
     calls i = pg_exec p fuel t op ∧ pg_created t op ⊆ ids) →
  rtc turn (calls, d) (calls', d') →
  (∀ id j, db_jobs d !! id = Some j → ∃ j', db_jobs d' !! id = Some j' ∧ identity j' = identity j) ∧
  (∀ id, is_Some (db_jobs d' !! id) → is_Some (db_jobs d !! id) ∨ id ∈ ids) ∧
  (∀ id n, db_nodes d !! id = Some n → ∃ n', db_nodes d' !! id = Some n' ∧ node_identity n' = node_identity n) ∧
  (map_Forall (λ _ j, row_fits j = true) (db_jobs d) → map_Forall (λ _ j, row_fits j = true) (db_jobs d')).
Proof.
  intros Hcalls Hr. destruct (turns_keep ids _ _ _ _ Hr) as [J N O F]; [|done].
  intros i. destruct (Hcalls i) as [->|(W & P & p & fuel & t & op & -> & Hids)]; [done|]. by apply safe_exec.
Qed.
End interleaving.

(** ** A database that does not answer *)

Lemma qrun_bind {A B} (q : query A) (h : A → query B) d :
  qrun (qbind q h) d = match qrun q d with Some (d', a) => qrun (h a) d' | None => None end.
Proof. revert d. induction q as [a| |c C f k IH]; intros d; simpl; [done|done|]. destruct (f d) as [d1 b]. apply IH. Qed.

Section outage.
Context `{W : World} `{Codecs} `{Postgres} (p : PostgresStore) (fuel : nat).
Context (Hdown : ∀ t texts, pg_fault t texts = true).

Lemma down_sql {B : Set} c t texts (f : DB → DB * B) failed d : qrun (sql c t texts f failed) d = Some (d, failed).
Proof. unfold sql. simpl. by rewrite Hdown. Qed.
Lemma down_Nodes t d : qrun (pg_Nodes p (S fuel) t) d = Some (d, []).
Proof. cbn [pg_Nodes]. by rewrite qrun_bind, down_sql. Qed.
Lemma down_schedule nodes_of t now d : qrun (pg_scheduleQueuedJobs nodes_of t now) d = Some (d, tt).
Proof. unfold pg_scheduleQueuedJobs. by rewrite qrun_bind, down_sql. Qed.
Lemma down_waiting t req d : qrun (pg_waitingReason (nodes_of p (S fuel)) t req) d = Some (d, waiting_capable).
Proof. unfold pg_waitingReason, nodes_of. by rewrite qrun_bind, down_Nodes. Qed.
Lemma down_pick t req d : qrun (pg_pickWorker (nodes_of p (S fuel)) t req) d = Some (d, ""%string).
Proof.
  unfold pg_pickWorker, pg_pickWorkerExcept, nodes_of, pg_BenchmarkSummaryByNode, pg_Benchmarks.
  rewrite qrun_bind, down_Nodes. simpl. by rewrite Hdown.
Qed.
Lemma down_accept t id req d : qrun (pg_workerCanAccept (nodes_of p (S fuel)) t id req) d = Some (d, false).
Proof. unfold pg_workerCanAccept, nodes_of. by rewrite qrun_bind, down_Nodes. Qed.
Lemma down_placed t now req d : ∃ job, qrun (pg_placed_job p (S fuel) t now req) d = Some (d, job).
Proof.
  unfold pg_placed_job. destruct (cr_NoAutoAssign req); [by eexists|]. destruct (negb _).
  - rewrite qrun_bind, down_accept. cbn beta iota. rewrite qrun_bind, down_waiting. by eexists.
  - rewrite qrun_bind, down_pick. cbn beta iota. rewrite bool_decide_eq_true_2 by done. cbn [negb]. rewrite qrun_bind, down_waiting. by eexists.
Qed.

(** The call ends with this answer, and the tables are as they were. *)
Definition answers {A} (q : query A) (a : A) : Prop := ∀ d, qrun q d = Some (d, a).
Lemma down_exec t op : answers (pg_exec p (S fuel) t op) tt.
Proof.
  intros d. destruct op; cbn [pg_exec]; unfold ignore; rewrite ?qrun_bind; try done.
  - unfold pg_RegisterWorker. by rewrite qrun_bind, down_sql, qrun_bind, down_schedule.
  - unfold pg_Heartbeat, update_node. by rewrite qrun_bind, down_sql.
  - unfold pg_MarkWorkerOffline, update_node. by rewrite qrun_bind, down_sql.
  - unfold pg_PutBenchmark. by rewrite down_sql.
  - unfold pg_PutRPCHealth. destruct (str_eqb _ _); [done|]. by rewrite down_sql.
  - unfold pg_CreateJob, insert_job. rewrite qrun_bind. destruct (down_placed t (w_clock (t ++ ["now"%string])) req d) as [job ->].
    cbn beta iota. by rewrite qrun_bind, down_sql.
  - unfold pg_CreateJobsBatch. by rewrite qrun_bind, down_sql.
  - unfold pg_NextJobForWorker. by rewrite qrun_bind, down_sql.
  - unfold pg_UpdateJobProgress, update_job. by rewrite down_sql.
  - unfold pg_UpdateCDIPStageState, pg_Job. by rewrite qrun_bind, down_sql.
  - unfold pg_CompleteCoordinatorJob, update_job. by rewrite down_sql.
  - unfold pg_CompleteJob. by rewrite qrun_bind, down_sql.
  - unfold pg_CancelJob, update_job. by rewrite qrun_bind, down_sql.
  - by rewrite down_Nodes.
Qed.

(** C32 (error). While the database answers nothing, every method still ends and
    leaves the tables alone.  A heartbeat, a departure and a benchmark are answered
    as if there were no such worker; a poll, a report of progress, of a stage or of
    a result, and a cancellation as if there were no such job; creating jobs is an
    error, one by one and in a batch; every listing is empty and the health of an
    endpoint is unknown.  But a worker that joins is told an identifier, as if it
    had been recorded. *)
Theorem outage_answers (t : Tag) :
  (∀ op, answers (pg_exec p (S fuel) t op) tt) ∧
  (∀ hb, answers (pg_Heartbeat p (S fuel) t hb) false) ∧
  (∀ nodeID, answers (pg_MarkWorkerOffline p (S fuel) t nodeID) false) ∧
  (∀ res, answers (pg_PutBenchmark t res) false) ∧
  (∀ nodeID, answers (pg_NextJobForWorker t nodeID) None) ∧
  (∀ jobID req, answers (pg_UpdateJobProgress t jobID req) None) ∧
  (∀ jobID next detail, answers (pg_UpdateCDIPStageState t jobID next detail) None) ∧
  (∀ jobID text err, answers (pg_CompleteCoordinatorJob t jobID text err) None) ∧
  (∀ jobID req, answers (pg_CompleteJob p (S fuel) t jobID req) None) ∧
  (∀ jobID, answers (pg_CancelJob p (S fuel) t jobID) None) ∧
  (∀ req d, ∃ job, qrun (pg_CreateJob p (S fuel) t req) d = Some (d, (job, false))) ∧
  (∀ reqs, answers (pg_CreateJobsBatch p (S fuel) t reqs) None) ∧
  answers (nodes_of p (S fuel) t) [] ∧ answers (pg_Jobs t) [] ∧ (∀ id, answers (pg_Job t id) None) ∧
  answers (pg_Benchmarks t) [] ∧ answers (pg_RPCHealth t) [] ∧
  (∀ update, answers (pg_PutRPCHealth t update) zero_RPCHealthRecord) ∧
  (∀ req, answers (pg_RegisterWorker p (S fuel) t req)
     (mkJoinResponse (newID "node" (w_rand (t ++ ["node"%string]))) ["http://127.0.0.1:8080"%string] (10 * Second))).
Proof.
  unfold answers. split_and!; try (intros; unfold pg_Heartbeat, pg_MarkWorkerOffline, update_node, pg_PutBenchmark,
    pg_NextJobForWorker, pg_UpdateJobProgress, pg_UpdateCDIPStageState, pg_CompleteCoordinatorJob, pg_CompleteJob,
    pg_CancelJob, pg_CreateJobsBatch, pg_Jobs, pg_Job, update_job, pg_Benchmarks, pg_RPCHealth;
    rewrite ?qrun_bind, ?down_sql; done).
  - intros op. apply down_exec.
  - intros req d. destruct (down_placed t (w_clock (t ++ ["now"%string])) req d) as [job Hj]. exists job.
    unfold pg_CreateJob, insert_job. rewrite qrun_bind, Hj. cbn beta iota. by rewrite qrun_bind, down_sql.
  - apply down_Nodes.
  - intros update d. unfold pg_PutRPCHealth. destruct (str_eqb _ _); [done|]. by rewrite down_sql.
  - intros req d. unfold pg_RegisterWorker. by rewrite qrun_bind, down_sql, qrun_bind, down_schedule.
Qed.
End outage.

(** ** Worked examples *)

Definition answering : Postgres :=
  {| pg_fault _ _ := false; jsonb_resources r := r; jsonb_requirements r := r; jsonb_metadata m := m |}.
Definition silent : Postgres :=
  {| pg_fault _ _ := true; jsonb_resources r := r; jsonb_requirements r := r; jsonb_metadata m := m |}.

Section examples.
#[local] Existing Instance demo_codecs.
Definition demo_pg : PostgresStore := NewPostgresStore 0.

(** A call on its own. *)
Definition call (salt : string) (now : Time) (op : store_op) (d : DB) : DB :=
  match qrun (pg_exec (W := salted_world salt now) (H0 := answering) demo_pg (S (S (onlines d))) [] op) d with
  | Some (d', _) => d' | None => d end.
Lemma call_reachable salt now op d :
  pg_reachable (H0 := answering) demo_pg d → op_ok op → pg_reachable (H0 := answering) demo_pg (call salt now op d).
Proof.
  intros Hr Hop.
  destruct (pg_exec_step (H0 := answering) demo_pg (λ _ _, eq_refl) (salted_world salt now) (S (S (onlines d))) [] op d) as (d' & E & _);
    [by apply (pg_reachable_wf (H0 := answering))|done|lia|].
  assert (call salt now op d = d') as -> by (unfold call; by rewrite E).
  by eapply (pg_step (H0 := answering)); [..|exact E]; [| |lia].
Qed.

Definition pg_node (salt : string) : string := newID "node" (Some (Join [salt; "node"] "/")).
Definition pg_job (salt : string) : string := newID "job" (Some (Join [salt; "job"] "/")).
(** Worker [a] joins, a job is created and polled, worker [b] joins. *)
Definition running_db : DB :=
  call "b" 40 (OpRegisterWorker (join "b")) $
  call "x" 30 (OpNextJobForWorker (pg_node "a")) $
  call "j" 20 (OpCreateJob (demo_request JobCleanup false)) $
  call "a" 10 (OpRegisterWorker (join "a")) empty_db.
Lemma running_db_reachable : pg_reachable (H0 := answering) demo_pg running_db.
Proof. unfold running_db. repeat (apply call_reachable; [|first [exact I|reflexivity]]). apply pg_init. Qed.
Definition job_in (d : DB) (id : string) : Job := default (demo_job "" 0) (db_jobs d !! id).
Lemma running_db_job : db_jobs running_db !! pg_job "j" = Some (job_in running_db (pg_job "j")).
Proof. vm_compute. reflexivity. Qed.

Lemma postgres_refines_lifecycle_witness :
  ∃ d', prun 6 (pg_exec (W := salted_world "y" 50) (H0 := answering) demo_pg 4 [] (OpMarkWorkerOffline (pg_node "a"))) running_db = Finished d' tt ∧
    (∃ j', db_jobs d' !! pg_job "j" = Some j' ∧ rtc lifecycle (job_in running_db (pg_job "j")) j').
Proof.
  assert (Hk : (S (onlines running_db) < 4)%nat) by (apply Nat.ltb_lt; vm_compute; reflexivity).
  assert (Hpool : (5 < 6)%nat) by (apply Nat.ltb_lt; reflexivity).
  pose proof (postgres_refines_lifecycle (H0 := answering) demo_pg (salted_world "y" 50) 4 6 [] running_db
    (OpMarkWorkerOffline (pg_node "a")) (λ _ _, eq_refl) running_db_reachable I Hk Hpool) as H.
  destruct H as (d' & Hd & Hj & _). exists d'. split; [exact Hd|]. apply Hj; [exact running_db_job|apply not_elem_of_nil].
Defined.

(** The job moved to the other worker, with one more attempt. *)
Example offline_moves_job :
  let j := job_in (call "y" 50 (OpMarkWorkerOffline (pg_node "a")) running_db) (pg_job "j") in
  job_AssignedTo j = pg_node "b" ∧ job_Attempts j = 2 ∧ job_Status j = StatusScheduled.
Proof. vm_compute. done. Qed.

Lemma outage_answers_witness :
  qrun (nodes_of (W := world_at 50) (H0 := silent) demo_pg 5 []) running_db = Some (running_db, []).
Proof.
  pose proof (outage_answers (W := world_at 50) (H0 := silent) demo_pg 4 (λ _ _, eq_refl) []) as H.
  apply H.
Defined.

(** *** A decision and its statement are apart

    Two calls, their statements in the order of [turns]. *)
Fixpoint race {A B} (turns : list bool) (p : query A) (q : query B) (d : DB) : DB * query A * query B :=
  match turns with
  | [] => (d, p, q)
  | first :: turns =>
      match first, p, q with
      | true, QStmt _ f k, _ => let '(d, b) := f d in race turns (k b) q d
      | false, _, QStmt _ f k => let '(d, b) := f d in race turns p (k b) d
      | _, _, _ => race turns p q d
      end
  end.
Definition answer {A} (q : query A) : option A := match q with QRet a => Some a | _ => None end.

Definition one_worker : DB := call "a" 10 (OpRegisterWorker (join "a")) empty_db.
Definition one_scheduled : DB := call "j" 20 (OpCreateJob (demo_request JobCleanup false)) one_worker.
Definition one_running : DB := call "x" 30 (OpNextJobForWorker (pg_node "a")) one_scheduled.

(** Two polls of a worker are both given its only job. *)
Example job_delivered_twice :
  let poll := pg_NextJobForWorker (W := world_at 30) (H0 := answering) [] (pg_node "a") in
  let '(d, p, q) := race [true; false; true; false] poll poll one_scheduled in
  (job_ID <$> default None (answer p)) = Some (pg_job "j") ∧ (job_ID <$> default None (answer q)) = Some (pg_job "j").
Proof. vm_compute. done. Qed.

(** A job canceled while its completion is being recorded ends succeeded, after
    the operator was told it is canceled. *)
Example cancel_lost :
  let complete := pg_CompleteJob (W := world_at 40) (H0 := answering) demo_pg 5 [] (pg_job "j")
    (mkCompleteRequest (pg_node "a") "done" "") in
  let cancel := pg_CancelJob (W := world_at 41) (H0 := answering) demo_pg 5 [] (pg_job "j") in
  let '(d, p, q) := race [true; false; false; false; true; true; true] complete cancel one_running in
  (job_Status <$> default None (answer q)) = Some StatusCanceled ∧
  job_Status (job_in d (pg_job "j")) = StatusSucceeded.
Proof. vm_compute. done. Qed.

(** The two jobs of a batch are both placed on a worker with one slot; the store
    in memory makes the second wait. *)
Example batch_overcommits :
  let reqs := [demo_request JobCleanup false; demo_request JobCleanup false] in
  let d := call "j" 20 (OpCreateJobsBatch reqs) one_worker in
  slots_of (db_nodes d) (pg_node "a") = 1 ∧ active_on (pg_node "a") (db_jobs d) = 2 ∧
  let s := do "j" 20 (OpCreateJobsBatch reqs) (do "a" 10 (OpRegisterWorker (join "a")) (NewState 0)) in
  active_on (node_of "a") (st_jobs s) = 1.
Proof. vm_compute. done. Qed.

(** *** Too few connections

    pgxpool opens four by default, or one for each processor.  When four workers
    have timed out with a job each, listing the nodes waits for a fifth, for ever:
    it keeps the rows of the jobs of each while it lists the nodes again. *)
Definition four_busy : DB :=
  foldr (λ salt, call ("job of " +:+ salt) 20 (OpCreateJob (demo_request JobCleanup false)))
    (foldr (λ salt, call salt 10 (OpRegisterWorker (join salt))) empty_db ["a"; "b"; "c"; "d"]%string) ["a"; "b"; "c"; "d"]%string.
Definition late_listing : query unit := pg_exec (W := world_at (100 * Second)) (H0 := answering) demo_pg 6 [] OpNodes.
Example listing_waits_for_ever : prun 4 late_listing four_busy = Waits.
Proof. vm_compute. reflexivity. Qed.
Example listing_ends_with_one_more : if prun 5 late_listing four_busy is Finished _ _ then True else False.
Proof. vm_compute. exact I. Qed.

(** Calls at once, over a pool; [turns] says who runs next, if it need not wait. *)
Fixpoint pool_race (turns : list nat) (free : nat) (calls : list (query unit)) (d : DB) : nat * list (query unit) * DB :=
  match turns with
  | [] => (free, calls, d)
  | i :: turns =>
      match calls !! i with
      | Some (QStmt c f k) =>
          match takes c free with
          | Some free => let '(d, b) := f d in pool_race turns free (<[i := k b]> calls) d
          | None => pool_race turns free calls d
          end
      | _ => pool_race turns free calls d
      end
  end.
Definition waiting_for (free : nat) (q : query unit) : bool :=
  match q with QStmt c _ _ => if takes c free then false else true | _ => false end.

(** Four heartbeats at once, while a job is queued, wait for each other for ever:
    each keeps the rows of the queue and needs a second connection.  No call of the
    store gets through after that. *)
Definition one_queued : DB :=
  call "k" 20 (OpCreateJob (demo_request JobCleanup false)) $ call "j" 20 (OpCreateJob (demo_request JobCleanup false)) one_worker.
Definition beat : query unit :=
  pg_exec (W := world_at 30) (H0 := answering) demo_pg 5 [] (OpHeartbeat (mkHeartbeat (pg_node "a") 30 (demo_resources 8 1))).
Example heartbeats_wait_for_each_other :
  let '(free, calls, _) := pool_race [0; 1; 2; 3; 0; 1; 2; 3]%nat 4 [beat; beat; beat; beat] one_queued in
  free = 0%nat ∧ forallb (waiting_for free) calls = true.
Proof. vm_compute. done. Qed.

(** A poll runs its first statement while a creation waits. *)
Definition two_calls (i : nat) : query unit :=
  match i with
  | O => pg_exec (W := world_at 30) (H0 := answering) demo_pg 5 [] (OpNextJobForWorker (pg_node "a"))
  | S O => pg_exec (W := salted_world "k" 30) (H0 := answering) demo_pg 5 [] (OpCreateJob (demo_request JobCleanup false))
  | _ => QRet tt
  end.
Lemma two_calls_run : ∃ calls d, rtc turn (two_calls, one_scheduled) (calls, d).
Proof. eexists _, _. eapply rtc_once, (turn_statement two_calls 0). reflexivity. Defined.
Lemma interleavings_keep_rows_witness :
  ∃ calls d, rtc turn (two_calls, one_scheduled) (calls, d) ∧
    (∀ id j, db_jobs one_scheduled !! id = Some j → ∃ j', db_jobs d !! id = Some j' ∧ identity j' = identity j).
Proof.
  destruct two_calls_run as (calls & d & Hr). exists calls, d. split; [exact Hr|].
  pose proof (interleavings_keep_rows [pg_job "k"] two_calls calls one_scheduled d) as H.
  apply H; [|exact Hr]. intros [|[|i]]; [right|right|by left].
  - exists (world_at 30), answering, demo_pg, 5%nat, [], (OpNextJobForWorker (pg_node "a")). split; [reflexivity|by intros ? ?%not_elem_of_nil].
  - exists (salted_world "k" 30), answering, demo_pg, 5%nat, [], (OpCreateJob (demo_request JobCleanup false)).
    split; [reflexivity|]. intros x Hx. exact Hx.
Defined.

(** *** A database that can only be read

    The worker has timed out with a job that may be retried; no listing of the
    nodes ends, however deep it may go, since each finds the worker still online
    and looks for another worker by listing the nodes. *)
Definition read_only : Postgres :=
  {| pg_fault t _ := bool_decide ("stale"%string ∈ t) || bool_decide ("failed"%string ∈ t);
     jsonb_resources r := r; jsonb_requirements r := r; jsonb_metadata m := m |}.
Definition late : Time := 100 * Second.
#[local] Instance read_only_instance : Postgres := read_only.
#[local] Instance late_world : World := world_at late.
Lemma qrun_sql {B : Set} c t texts (f : DB → DB * B) failed d :
  qrun (sql c t texts f failed) d = Some (if pg_fault t texts then (d, failed) else f d).
Proof. unfold sql. cbn [qrun]. destruct (pg_fault t texts); [done|]. by destruct (f d). Qed.
Definition reads (t : Tag) : Prop := "stale"%string ∉ t ∧ "failed"%string ∉ t.
Lemma reads_answer t texts : reads t → pg_fault t texts = false.
Proof. intros [H1 H2]. simpl. by rewrite !bool_decide_eq_false_2. Qed.
Lemma reads_app t u : reads t → reads u → reads (t ++ u).
Proof. unfold reads. rewrite !not_elem_of_app. tauto. Qed.

Definition stuck_node : Node := default (demo_node "" 0 0) (db_nodes one_running !! pg_node "a").
Definition stuck_job : Job := job_in one_running (pg_job "j").
Lemma stuck_names : reads ["timeout"%string; node_ID stuck_node] ∧ reads ["fail"%string; job_ID stuck_job] ∧
  reads ["active"%string] ∧ reads ["nodes"%string].
Proof. repeat split; apply (bool_decide_unpack _); vm_compute; reflexivity. Qed.

Example read_only_listing_never_ends fuel t : reads t → qrun (pg_Nodes demo_pg fuel t) one_running = None.
Proof.
  revert t. induction fuel as [|fuel IH]; intros t Ht; [done|]. cbn [pg_Nodes].
  rewrite qrun_bind, qrun_sql, reads_answer by done.
  set (found := sort_slice t _ _). assert (found = [stuck_node]) as -> by (vm_compute; reflexivity).
  cbn beta iota zeta delta [default from_option id]. set (now := w_clock _).
  assert (stale_nodes demo_pg now [stuck_node] = [stuck_node]) as -> by (vm_compute; reflexivity).
  cbn [qeach]. unfold update_node. rewrite !qrun_bind, qrun_sql.
  destruct stuck_names as (N1 & N2 & N3).
  replace (pg_fault _ _) with true; [|symmetry; apply orb_true_iff; left; apply bool_decide_eq_true, elem_of_app; right; left].
  unfold pg_failActiveJobsForWorker, select_jobs. rewrite qrun_bind, qrun_sql, reads_answer
    by (apply reads_app; [by apply reads_app|apply N3]).
  set (jobs := map scan _). assert (jobs = [stuck_job]) as -> by (vm_compute; reflexivity).
  cbn [qeach default from_option id]. unfold pg_fail_step at 1. rewrite !qrun_bind. unfold pg_rescheduleOrFailJob.
  set (job := stuck_job <| job_MaxAttempts := _ |>).
  assert ((job_Attempts job <=? 0) = false) as -> by (vm_compute; reflexivity).
  assert ((job_Attempts job <? job_MaxAttempts job) = true) as -> by (vm_compute; reflexivity).
  unfold pg_pickWorkerExcept. rewrite !qrun_bind, IH; [done|].
  repeat apply reads_app; first [done|apply N3].
Qed.
End examples.
