(* ===== verification/PgAgree.v ===== *)
(** * The PostgreSQL store and the store in memory

    Where the two stores do the same, and that the coordinator may run over
    either: the tables keep the promises of the interface [StageStore]. *)

From S2P Require Import Prelude GoString GoSort GoFloat World Json Cdip Types Protocol Models State.
From S2P Require Import Codec Conversations Scheduling JobStore Transport DistributedPlan Coordinator PgStore PgRun PgMethods PgFaults.
#[local] Open Scope query_scope.

(** A time once stored is stored as it is. *)
Lemma micro_idemp t : micro (micro t) = micro t.
Proof. unfold micro. rewrite Zminus_mod_idemp_r. replace (t - t) with 0 by lia. rewrite Zmod_0_l. lia. Qed.

Lemma TrimSpace_blank s : blank s = str_eqb (TrimSpace s) "".
Proof. reflexivity. Qed.

Section agree.
Context `{W : World} `{Codecs} `{Postgres} (p : PostgresStore).
Context (Hup : ∀ t texts, pg_fault t texts = false).
Abbreviation wf d := (state_wf (db_state p d)).

Lemma up_sql {B : Set} c t texts (f : DB → DB * B) failed d : qrun (sql c t texts f failed) d = Some (f d).
Proof. unfold sql. cbn [qrun]. rewrite Hup. by destruct (f d). Qed.

(** *** Stage transitions *)

Definition stage_columns (moved : Job) (next : StageState) (now : Time) (j : Job) : Job :=
  j <| job_CDIPState := next |> <| job_Status := job_Status moved |> <| job_Result := job_Result moved |>
    <| job_Error := job_Error moved |> <| job_LastFailure := job_LastFailure moved |>
    <| job_Attempts := job_Attempts moved |> <| job_UpdatedAt := micro now |>
    <| job_FinishedAt := micro (job_FinishedAt moved) |>.
Lemma stage_fits j next detail now : row_fits j = true → row_fits (stage_job j next detail now) = true.
Proof.
  intros Hf. destruct (stage_job_spec j next detail now) as (Hc & _ & _ & Ha).
  unfold row_fits in *. rewrite !andb_true_iff in *. destruct Hf as [[Hat Hm] Hi].
  assert (job_MaxAttempts (stage_job j next detail now) = job_MaxAttempts j ∧
    job_CDIPStageIndex (stage_job j next detail now) = job_CDIPStageIndex j) as [-> ->] by (by injection Hc).
  split_and!; [|done|done]. destruct Ha as [[-> _]|[[-> _]|(_ & _ & _ & _ & ->)]]; [done|done|].
  by destruct (_ =? _).
Qed.

(** A stage transition, run on its own. *)
Lemma stage_run t id next detail d :
  wf d →
  qrun (pg_UpdateCDIPStageState t id next detail) d =
    Some (match db_jobs d !! id with
          | Some j =>
              if bool_decide (stage_kind j) && CanTransition (stage_current j) next then
                update_row id (λ j, bool_decide (job_Type j = JobGenerateStage))
                  (stage_columns (stage_job j next detail (w_clock (t ++ ["now"%string]))) next (w_clock (t ++ ["now"%string]))) d
              else (d, None)
          | None => (d, None)
          end).
Proof.
  intros Hwf. unfold pg_UpdateCDIPStageState, pg_Job. rewrite qrun_bind, up_sql. cbn beta iota.
  destruct (db_jobs d !! id) as [j|] eqn:Hid; simpl option_map; [|done].
  destruct (wf_jobs _ Hwf _ _ Hid) as [_ Hok]. rewrite (scan_ok j Hok). unfold stage_kind.
  rewrite bool_decide_not. destruct (bool_decide (job_Type j = JobGenerateStage)); cbn [negb andb]; [|done].
  destruct (CanTransition _ _); cbn [negb]; [|done]. unfold update_job. by rewrite up_sql.
Qed.

(** ** The same effect as the store in memory

    What the columns keep of a record: times to the microsecond, metadata as
    [JSONB] keeps it, everything else as it is. *)
Definition stored_job (j : Job) : Job :=
  j <| job_CreatedAt := micro (job_CreatedAt j) |> <| job_UpdatedAt := micro (job_UpdatedAt j) |>
    <| job_StartedAt := micro (job_StartedAt j) |> <| job_FinishedAt := micro (job_FinishedAt j) |>.
Definition stored_benchmark (b : BenchmarkResult) : BenchmarkResult :=
  b <| bench_CreatedAt := micro (bench_CreatedAt b) |> <| bench_Metadata := jsonb_metadata (bench_Metadata b) |>.
Definition stored_health (r : RPCHealthRecord) : RPCHealthRecord := r <| rh_UpdatedAt := micro (rh_UpdatedAt r) |>.
Definition stored_by_kind (m : gmap BenchmarkKind BenchmarkResult) : gmap BenchmarkKind BenchmarkResult := stored_benchmark <$> m.
Definition stored (s : State) : State :=
  mkState (st_startedAt s) (st_heartbeatTimeout s) (st_nodes s) (stored_by_kind <$> st_benchmarks s)
    (stored_health <$> st_rpcHealth s) (stored_job <$> st_jobs s) (st_conversations s) (st_memories s).

#[local] Arguments stored : simpl never.

(** The rows hold what their columns can. *)
Record settled (d : DB) : Prop := {
  sd_jobs : stored_job <$> db_jobs d = db_jobs d;
  sd_health : stored_health <$> db_rpc_health d = db_rpc_health d;
  sd_benchmarks : stored_by_kind <$> db_benchmarks d = db_benchmarks d;
}.
(** The numbers of the rows the call reads fit [INTEGER], with one to spare where
    it counts. *)
Definition fits_columns (d : DB) (op : store_op) : Prop :=
  match op with
  | OpPutBenchmark _ => True
  | OpPutRPCHealth update =>
      ∀ r, db_rpc_health d !! TrimSpace (rhu_Endpoint update) = Some r →
        Forall (λ n, 0 ≤ n < 2^31 - 1) [rh_Successes r; rh_Failures r; rh_ConsecutiveFailures r]
  | OpUpdateJobProgress jobID _ | OpUpdateCDIPStageState jobID _ _ => ∀ j, db_jobs d !! jobID = Some j → row_fits j = true
  | _ => False
  end.

Lemma stored_same d : settled d → stored (db_state p d) = db_state p d.
Proof. intros [E1 E2 E3]. unfold stored, db_state. simpl. by rewrite E1, E2, E3. Qed.
Lemma settled_job d id j : settled d → db_jobs d !! id = Some j → stored_job j = j.
Proof. intros [E _ _] Hj. pose proof (f_equal (lookup id) E) as Ej. rewrite lookup_fmap, Hj in Ej. by injection Ej. Qed.
(** One job is replaced. *)
Lemma stored_put_job d id j : settled d →
  stored ((db_state p d) <| st_jobs := <[id := j]> (db_jobs d) |>) =
  db_state p (d <| db_jobs := <[id := stored_job j]> (db_jobs d) |>).
Proof. intros [E1 E2 E3]. unfold stored, db_state. simpl. by rewrite fmap_insert, E1, E2, E3. Qed.

Lemma stored_stage j next detail now : stored_job j = j →
  stored_job (stage_job j next detail now) = stage_columns (stage_job j next detail now) next now j.
Proof.
  destruct j. unfold stored_job, stage_columns, stage_job. simpl. intros [= Ec Eu Es Ef].
  destruct next; simpl; rewrite ?Ec, ?Es, ?Ef; try done. by repeat case_match; simpl; rewrite ?Ec, ?Es, ?Ef.
Qed.

Lemma agree_benchmark res d :
  settled d →
  ∃ d', qrun (pg_PutBenchmark [] res) d = Some d' ∧ db_state p d'.1 = stored (PutBenchmark (db_state p d) res).1 ∧
    d'.2 = (PutBenchmark (db_state p d) res).2.
Proof.
  intros Hs. unfold pg_PutBenchmark, PutBenchmark. rewrite up_sql. eexists. split; [done|]. simpl.
  set (res1 := if IsZero (bench_CreatedAt res) then _ else res).
  assert (bench_NodeID res1 = bench_NodeID res) as -> by (unfold res1; by destruct (IsZero _)).
  destruct (db_nodes d !! bench_NodeID res); simpl; [|by rewrite stored_same]. split; [|done].
  destruct Hs as [E1 E2 E3]. unfold db_state, stored. simpl. rewrite E1, E2, fmap_insert, E3. do 2 f_equal.
  assert (stored_by_kind (db_benchmarks d !!! bench_NodeID res) = db_benchmarks d !!! bench_NodeID res) as E4.
  { rewrite !lookup_total_alt. pose proof (f_equal (lookup (bench_NodeID res)) E3) as Eb. rewrite lookup_fmap in Eb.
    destruct (db_benchmarks d !! bench_NodeID res); simpl in *; [by injection Eb|apply fmap_empty]. }
  unfold stored_by_kind in *. rewrite fmap_insert, E4. do 2 f_equal; unfold res1; by destruct (IsZero _).
Qed.

Lemma agree_health update d :
  settled d → fits_columns d (OpPutRPCHealth update) →
  ∃ d', qrun (pg_PutRPCHealth [] update) d = Some d' ∧ db_state p d'.1 = stored (PutRPCHealth (db_state p d) update).1 ∧
    d'.2 = stored_health (PutRPCHealth (db_state p d) update).2.
Proof.
  intros Hs Hr. unfold pg_PutRPCHealth. simpl in Hr. set (endpoint := TrimSpace (rhu_Endpoint update)) in *.
  destruct (decide (endpoint = ""%string)) as [He|Hne].
  { unfold PutRPCHealth. fold endpoint. rewrite He. eexists. split; [done|]. simpl. by rewrite stored_same. }
  rewrite (bool_decide_eq_false_2 _ Hne), up_sql. eexists. split; [done|].
  set (checkedAt := if IsZero (rhu_CheckedAt update) then _ else _).
  set (base := default zero_RPCHealthRecord (db_rpc_health d !! endpoint)).
  assert (Hb : Forall (λ n, 0 ≤ n < 2^31 - 1) [rh_Successes base; rh_Failures base; rh_ConsecutiveFailures base]).
  { unfold base. destruct (db_rpc_health d !! endpoint) as [r|]; [by apply Hr|]. simpl. by repeat constructor. }
  rewrite !Forall_cons in Hb. destruct Hb as (B1 & B2 & B3 & _).
  assert (Hfit : record_fits (health_row endpoint update checkedAt (db_rpc_health d !! endpoint)) = true).
  { unfold record_fits, health_row, int4. fold base. simpl. destruct (rhu_Ready update); simpl;
      rewrite !andb_true_iff, !Z.leb_le, !Z.ltb_lt; lia. }
  simpl. fold checkedAt. rewrite Hfit. simpl.
  assert (E : health_row endpoint update checkedAt (db_rpc_health d !! endpoint) = stored_health (PutRPCHealth (db_state p d) update).2).
  { unfold PutRPCHealth, health_row, blank, stored_health. fold endpoint. simpl. fold base checkedAt.
    rewrite (bool_decide_eq_false_2 _ Hne). cbn [snd].
    destruct base as [b1 b2 b3 b4 b5 b6 b7 b8 b9 b10]; simpl in B1, B2, B3.
    destruct (bool_decide (TrimSpace (rhu_NodeID update) = _)), (bool_decide (TrimSpace (rhu_NodeName update) = _)), (rhu_Ready update);
      simpl; rewrite ?i64_small by lia; done. }
  split; [|exact E]. rewrite E.
  assert (E1 : (PutRPCHealth (db_state p d) update).1 = (db_state p d) <| st_rpcHealth := <[endpoint := (PutRPCHealth (db_state p d) update).2]> (db_rpc_health d) |>).
  { unfold PutRPCHealth. fold endpoint. by rewrite (bool_decide_eq_false_2 _ Hne). }
  rewrite E1. destruct Hs as [S1 S2 S3]. unfold stored, db_state. simpl. by rewrite S1, S3, fmap_insert, S2.
Qed.

(** C17 (equivalence). Storing a benchmark or a probe of an RPC endpoint, reporting
    progress, and moving a pipeline stage, each run on its own while the database
    answers, leave the tables in the state that the same call leaves the store
    in memory in, record by record, but for what columns do to every value:
    times are cut to the microsecond and metadata is as [JSONB] keeps it. For
    well-formed rows that hold what their columns can, and while the counters and
    attempts of the rows touched fit an [INTEGER]. *)
Theorem postgres_agrees_with_memory (fuel : nat) (d : DB) (op : store_op) :
  wf d → settled d → fits_columns d op →
  ∃ d', qrun (pg_exec p fuel [] op) d = Some (d', tt) ∧ db_state p d' = stored (exec (db_state p d) op).
Proof.
  intros Hwf Hs Hex. destruct op; try done; cbn [pg_exec exec]; unfold ignore; rewrite qrun_bind.
  - destruct (agree_benchmark res d Hs) as ([d' b] & -> & E & _). by exists d'.
  - destruct (agree_health update d Hs Hex) as ([d' r] & -> & E & _). by exists d'.
  - unfold pg_UpdateJobProgress, update_job, UpdateJobProgress, update_row. rewrite up_sql. simpl.
    destruct (db_jobs d !! jobID) as [j|] eqn:Hid; [|exists d; by split; [|symmetry; apply stored_same]].
    rewrite !bool_decide_not. destruct (wf_jobs _ Hwf _ _ Hid) as [HID _].
    destruct (bool_decide (job_AssignedTo j = _)), (bool_decide (job_Status j = _)); simpl; try by exists d; split; [|symmetry; apply stored_same].
    set (now := w_clock _) in *.
    assert (row_fits (j <| job_Result := jobProgressResult req now |> <| job_UpdatedAt := micro now |>) = true) as -> by exact (Hex j Hid).
    eexists. split; [done|]. rewrite HID, stored_put_job by done. do 4 f_equal.
    pose proof (settled_job _ _ _ Hs Hid) as Ej. destruct j. unfold stored_job in *. simpl in *. injection Ej as -> _ -> ->. done.
  - rewrite stage_run by done. unfold UpdateCDIPStageState, stage_kind. simpl.
    destruct (db_jobs d !! jobID) as [j|] eqn:Hid; [|exists d; by split; [|symmetry; apply stored_same]]. rewrite bool_decide_not.
    destruct (bool_decide (job_Type j = _)) eqn:Hk; simpl; [|exists d; by split; [|symmetry; apply stored_same]].
    destruct (CanTransition _ _); simpl; [|exists d; by split; [|symmetry; apply stored_same]].
    set (now := w_clock _). unfold update_row. rewrite Hid, <- stored_stage, Hk by (by eapply settled_job).
    assert (row_fits (stored_job (stage_job j next detail now)) = true) as -> by exact (stage_fits j next detail now (Hex j Hid)).
    eexists. split; [done|]. destruct (stage_job_spec j next detail now) as (Hc & _).
    apply (f_equal core_ID) in Hc. simpl in Hc. rewrite Hc. destruct (wf_jobs _ Hwf _ _ Hid) as [-> _].
    by rewrite stored_put_job.
Qed.

(** ** Which job a poll hands over *)

#[local] Instance created_first_swo : StrictWeakOrder created_first.
Proof. split; intros *; unfold created_first; rewrite ?Z.ltb_lt, !Z.ltb_ge; lia. Qed.

Definition scheduled_for (nodeID : string) (j : Job) : Prop := job_AssignedTo j = nodeID ∧ job_Status j = StatusScheduled.
Definition started (now : Time) (j : Job) : Job :=
  j <| job_Status := StatusRunning |> <| job_StartedAt := micro now |> <| job_UpdatedAt := micro now |>.

End agree.

(** ** The coordinator over the tables *)

Section coordinator.
Context `{Codecs} `{Postgres} (p : PostgresStore).
Context (Hup : ∀ t texts, pg_fault t texts = false).

(** The answer of a call run on its own. *)
Definition alone {A} (q : query A) (d : DB) (failed : A) : DB * A := default (d, failed) (qrun q d).
#[export] Instance Pg_store : StageStore DB := {|
  store_Job d id := (alone (pg_Job [] id) d None).2;
  store_Jobs W d := (alone (pg_Jobs (W := W) []) d []).2;
  store_UpdateCDIPStageState W d id next detail := alone (pg_UpdateCDIPStageState (W := W) [] id next detail) d None;
  store_CompleteCoordinatorJob W d id text err := alone (pg_CompleteCoordinatorJob (W := W) [] id text err) d None;
|}.

(** The rows are well formed and fit their columns. *)
Record tables_ok (d : DB) : Prop := {
  to_wf : state_wf (db_state p d);
  to_fit : map_Forall (λ _ j, row_fits j = true) (db_jobs d);
}.

Lemma pg_Job_row d id : tables_ok d → store_Job d id = db_jobs d !! id.
Proof.
  intros [Hwf _]. simpl. unfold alone, pg_Job. rewrite up_sql by done. simpl.
  destruct (db_jobs d !! id) as [j|] eqn:E; [|done]. simpl. destruct (wf_jobs _ Hwf _ _ E) as [_ Hok]. by rewrite scan_ok.
Qed.
Lemma pg_Jobs_rows (W : World) d : tables_ok d →
  ∃ l, store_Jobs W d = l ∧ l ≡ₚ rows (W := W) [] (db_jobs d).
Proof.
  intros [Hwf _]. eexists. split; [done|]. simpl. unfold alone, pg_Jobs. rewrite qrun_bind, up_sql by done. simpl.
  rewrite (map_scan p d); [apply sort_slice_perm|done|]. intros j. rewrite elem_of_sort_slice. by apply (rows_elem p).
Qed.

(** A row changed in place. *)
Lemma update_tables d id j P f :
  tables_ok d → db_jobs d !! id = Some j → P j = true → row_fits (f j) = true →
  lifecycle j (f j) → job_ok (f j) → 
  let '(d', r) := update_row id P f d in
  tables_ok d' ∧ r = Some (f j) ∧ ∀ k, db_jobs d' !! k = if bool_decide (k = id) then Some (f j) else db_jobs d !! k.
Proof.
  intros [Hwf Hfit] Hid HP Hf Hl Hok. unfold update_row. rewrite Hid, HP, Hf. simpl. rewrite (scan_ok _ Hok).
  destruct (wf_jobs _ Hwf _ _ Hid) as [HID _].
  assert (E : job_ID (f j) = id).
  { pose proof (lifecycle_core _ _ Hl) as Hc. apply (f_equal core_ID) in Hc. simpl in Hc. congruence. }
  split_and!; [|done|].
  - destruct Hwf as [Hn Hj]. split; [split; [done|]|]; simpl; by apply map_Forall_insert_2.
  - intros k. simpl. case_bool_decide as Hk; [subst; apply lookup_insert_eq|by apply lookup_insert_ne].
Qed.

Lemma pg_Update_law (W : World) d id next detail :
  tables_ok d →
  let '(d', r) := store_UpdateCDIPStageState W d id next detail in
  tables_ok d' ∧
  match store_Job d id with
  | Some j =>
      if bool_decide (stage_kind j) && CanTransition (stage_current j) next then
        ∃ j', r = Some j' ∧ stage_moved next j j' ∧
          ∀ k, store_Job d' k = if bool_decide (k = id) then Some j' else store_Job d k
      else r = None ∧ d' = d
  | None => r = None ∧ d' = d
  end.
Proof.
  intros Hd. rewrite pg_Job_row by done. cbn [store_UpdateCDIPStageState Pg_store]. unfold alone.
  rewrite (stage_run p Hup) by apply Hd. cbn [default from_option Datatypes.id].
  destruct (db_jobs d !! id) as [j|] eqn:Hid; [|done].
  destruct (bool_decide (stage_kind j)) eqn:Hk; cbn [andb]; [|done]. destruct (CanTransition (stage_current j) next) eqn:Hcan; [|done].
  apply bool_decide_eq_true in Hk. destruct (wf_jobs _ (to_wf _ Hd) _ _ Hid) as [_ Hok].
  set (now := w_clock _). destruct (stage_job_lifecycle j next detail now Hok Hk Hcan) as [Hl Hok'].
  destruct (stage_job_spec j next detail now) as (Hc & Hn & Hto & _).
  assert (Hv : vital (stage_job j next detail now) = vital (stage_columns (stage_job j next detail now) next now j))
    by (unfold vital; by rewrite Hc, Hn, Hto).
  pose proof (update_tables d id j (λ j, bool_decide (job_Type j = JobGenerateStage)) (stage_columns (stage_job j next detail now) next now) Hd Hid) as Hu.
  destruct (update_row id _ _ d) as [d' r]. destruct Hu as (Hd' & -> & Hlook).
  - by apply bool_decide_eq_true.
  - pose proof (stage_fits j next detail now (to_fit _ Hd id _ Hid)) as Hs. unfold row_fits in *.
    assert (job_MaxAttempts (stage_job j next detail now) = job_MaxAttempts j ∧
      job_CDIPStageIndex (stage_job j next detail now) = job_CDIPStageIndex j) as [E1 E2] by (by injection Hc).
    rewrite E1, E2 in Hs. exact Hs.
  - by eapply vital_lifecycle.
  - by eapply vital_ok.
  - split; [done|]. eexists. split; [done|]. split.
    + split; [done|done|done|]. by intros ->.
    + intros k. rewrite !pg_Job_row by done. apply Hlook.
Qed.

Lemma pg_Complete_law (W : World) d id text j :
  tables_ok d → store_Job d id = Some j → coordinator_kind j →
  let '(d', r) := store_CompleteCoordinatorJob W d id text "" in
  tables_ok d' ∧ ∃ j', r = Some j' ∧ parent_finished text j j' ∧
    ∀ k, store_Job d' k = if bool_decide (k = id) then Some j' else store_Job d k.
Proof.
  intros Hd. rewrite pg_Job_row by done. intros Hid Hk. cbn [store_CompleteCoordinatorJob Pg_store]. unfold alone, pg_CompleteCoordinatorJob, update_job.
  rewrite up_sql by done. cbn [default from_option Datatypes.id].
  destruct (wf_jobs _ (to_wf _ Hd) _ _ Hid) as [_ Hok].
  match goal with |- context [update_row id ?P ?f d] => pose proof (update_tables d id j P f Hd Hid) as Hu; destruct (update_row id P f d) as [d' r] end.
  simpl in Hu. destruct Hu as (Hd' & -> & Hlook).
  - by apply bool_decide_eq_true.
  - exact (to_fit _ Hd id _ Hid).
  - apply lc_coordinator; try done. by left.
  - eapply (job_ok_keep j); [done|done|done|done| |done]. by intros [?|?]%active_cases.
  - split; [done|]. eexists. split; [done|]. split; [done|]. intros k. rewrite !pg_Job_row by done. apply Hlook.
Qed.

Lemma pg_Job_ID_law d id j : tables_ok d → store_Job d id = Some j → job_ID j = id.
Proof. intros Hd. rewrite pg_Job_row by done. intros Hj. by destruct (wf_jobs _ (to_wf _ Hd) _ _ Hj). Qed.
Lemma pg_Jobs_law (W : World) d j : tables_ok d → j ∈ store_Jobs W d ↔ store_Job d (job_ID j) = Some j.
Proof.
  intros Hd. rewrite pg_Job_row by done. destruct (pg_Jobs_rows W d Hd) as (l & -> & Hl). rewrite Hl.
  by apply (rows_elem p [] d j), Hd.
Qed.
Lemma pg_Jobs_NoDup_law (W : World) d : tables_ok d → NoDup (job_ID <$> store_Jobs W d).
Proof.
  intros Hd. destruct (pg_Jobs_rows W d Hd) as (l & -> & Hl). rewrite Hl. by apply (rows_NoDup p [] d), Hd.
Qed.

(** So what Coordinator.v proves of any store holds when the manager keeps its
    jobs in PostgreSQL. *)
#[export] Instance Pg_laws : StageStoreLaws DB := {|
  store_wf := tables_ok;
  law_Job_ID := pg_Job_ID_law;
  law_Jobs := pg_Jobs_law;
  law_Jobs_NoDup := pg_Jobs_NoDup_law;
  law_Update := pg_Update_law;
  law_Complete := pg_Complete_law;
|}.
End coordinator.

(** ** Worked examples *)

Section examples.
#[local] Existing Instance demo_codecs.

Lemma running_db_ok : tables_ok demo_pg one_scheduled.
Proof.
  split; [|apply (bool_decide_unpack _); vm_compute; reflexivity].
  apply (pg_reachable_wf (H0 := answering)); [done|]. unfold one_scheduled, one_worker.
  repeat (apply call_reachable; [|first [exact I|reflexivity]]). apply pg_init.
Qed.

Lemma scheduled_settled : settled (H0 := answering) one_scheduled.
Proof. split; vm_compute; reflexivity. Qed.

(** A clock of nanoseconds: the record is kept to the microsecond. *)
Definition late_probe : RPCHealthUpdate := mkRPCHealthUpdate "10.0.0.1:50052" "" "" true 3 "" 0.
Lemma postgres_agrees_with_memory_witness :
  rh_UpdatedAt <$> db_rpc_health
    (default one_scheduled (fst <$> qrun (pg_exec (W := world_at 5678) (H0 := answering) demo_pg 1 [] (OpPutRPCHealth late_probe)) one_scheduled))
      !! "10.0.0.1:50052"%string = Some 5000 ∧
  ∃ d', qrun (pg_exec (W := world_at 5678) (H0 := answering) demo_pg 1 [] (OpPutRPCHealth late_probe)) one_scheduled = Some (d', tt) ∧
    db_state demo_pg d' = stored (H0 := answering) (exec (H := world_at 5678) (db_state demo_pg one_scheduled) (OpPutRPCHealth late_probe)).
Proof.
  assert (Hnone : db_rpc_health one_scheduled = ∅) by (vm_compute; reflexivity).
  split; [vm_compute; reflexivity|].
  apply (postgres_agrees_with_memory (W := world_at 5678) (H0 := answering) demo_pg (λ _ _, eq_refl) 1 one_scheduled
    (OpPutRPCHealth late_probe) (to_wf _ _ running_db_ok) scheduled_settled).
  simpl. rewrite Hnone. intros r [=].
Defined.

End examples.
