(* ===== verification/Flags.v ===== *)
(** * The flags of the command line

    The part of Go's [flag] and [strconv] packages that [cmd/cmesh] reads its
    arguments with, the flag sets it declares ([main.go], [dev.go]), and what the
    worker control ([internal/workercontrol/server.go]) and the worker make of
    each other's arguments. *)

From stdpp Require Import pretty.
From S2P Require Import Prelude GoString GoSort GoFloat World Json Cdip Types Protocol Models State.
From S2P Require Import Conversations Scheduling JobStore Http Transport Paths Files LlamaCpp Discovery.
From S2P Require Import Codec HttpTransport ModelJobs WorkerControl.

(** ** Numbers and truth values

    strconv.ParseUint(s, 0, 64), strconv.ParseInt(s, 0, 64), strconv.ParseBool *)

Definition ascii_code (a : Ascii.ascii) : Z := Z.of_nat (Ascii.nat_of_ascii a).
(** ['A'] to ['a'], as [c | ('x' - 'X')] *)
Definition low (a : Ascii.ascii) : Z := Z.lor (ascii_code a) 32.
Definition digit_of (a : Ascii.ascii) : option Z :=
  let c := ascii_code a in
  if (48 <=? c) && (c <=? 57) then Some (c - 48)
  else if (97 <=? low a) && (low a <=? 122) then Some (low a - 97 + 10)
  else None.
Definition underscore : Ascii.ascii := Ascii.ascii_of_nat 95.
(** The digits; underscores are passed over and noted. *)
Fixpoint digits_loop (base : Z) (n : Z) (seen : bool) (s : string) : option (Z * bool) :=
  match s with
  | EmptyString => Some (n, seen)
  | String a s =>
      if Ascii.eqb a underscore then digits_loop base n true s
      else
        d ← digit_of a;
        if base <=? d then None
        else
          let n := n * base + d in
          if n <? 2^64 then digits_loop base n seen s else None
  end.
(** What the last character was: nothing, a digit, an underscore, another. *)
Inductive last_char : Set := CBegin | CDigit | CUnderscore | COther.
Fixpoint underscore_loop (hex : bool) (i : last_char) (s : string) : bool :=
  match s with
  | EmptyString => negb (match i with CUnderscore => true | _ => false end)
  | String a s =>
      let c := ascii_code a in
      if ((48 <=? c) && (c <=? 57)) || (hex && (97 <=? low a) && (low a <=? 102)) then underscore_loop hex CDigit s
      else if Ascii.eqb a underscore then
        match i with CDigit => underscore_loop hex CUnderscore s | _ => false end
      else match i with CUnderscore => false | _ => underscore_loop hex COther s end
  end.
Definition base_prefix (s : string) : option (Z * string) :=
  match s with
  | String z (String a rest) =>
      if Ascii.eqb z (Ascii.ascii_of_nat 48) then
        if low a =? 98 then Some (2, rest) else if low a =? 111 then Some (8, rest)
        else if low a =? 120 then Some (16, rest) else None
      else None
  | _ => None
  end.
Definition underscoreOK (s : string) : bool :=
  match base_prefix s with
  | Some (base, rest) => underscore_loop (base =? 16) CDigit rest
  | None => underscore_loop false CBegin s
  end.
(** The base of the number and its digits. *)
Definition number_base (s : string) : Z * string :=
  match s with
  | String z rest =>
      if Ascii.eqb z (Ascii.ascii_of_nat 48) then
        match base_prefix s with
        | Some (base, String a digits) => (base, String a digits)
        | _ => (8, rest)
        end
      else (10, s)
  | EmptyString => (10, EmptyString)
  end.
Definition ParseUint0 (s : string) : option Z :=
  match s with
  | EmptyString => None
  | _ =>
      let '(base, digits) := number_base s in
      '(n, seen) ← digits_loop base 0 false digits;
      if seen && negb (underscoreOK s) then None else Some n
  end.
Definition ParseInt0 (s : string) : option Z :=
  let '(neg, digits) :=
    match s with
    | String a rest => if Ascii.eqb a (Ascii.ascii_of_nat 43) then (false, rest) else if Ascii.eqb a (Ascii.ascii_of_nat 45) then (true, rest) else (false, s)
    | EmptyString => (false, s)
    end in
  match s with
  | EmptyString => None
  | _ =>
      n ← ParseUint0 digits;
      if negb neg && (2^63 <=? n) then None
      else if neg && (2^63 <? n) then None
      else Some (if neg then - n else n)
  end.
Definition ParseBool (s : string) : option bool :=
  if bool_decide (s ∈ ["1"; "t"; "T"; "true"; "TRUE"; "True"]%string) then Some true
  else if bool_decide (s ∈ ["0"; "f"; "F"; "false"; "FALSE"; "False"]%string) then Some false
  else None.

(** ** Flag sets *)

Inductive flag_value :=
  | FString (s : string)
  | FBool (b : bool)
  | FInt (n : Z)
  | FUint64 (n : Z).
(** The flags of a set, with their values, at first the defaults. *)
Definition FlagSet := gmap string flag_value.

Inductive flag_error :=
  | BadFlagSyntax (arg : string)
  | FlagNotDefined (name : string)
  | FlagHelp
  | FlagNeedsArgument (name : string)
  | InvalidFlagValue (value name : string).

(** [Set] *)
Definition set_flag (old : flag_value) (value : string) : option flag_value :=
  match old with
  | FString _ => Some (FString value)
  | FBool _ => FBool <$> ParseBool value
  | FInt _ => FInt <$> ParseInt0 value
  | FUint64 _ => FUint64 <$> ParseUint0 value
  end.
Definition is_bool (v : flag_value) : bool := match v with FBool _ => true | _ => false end.
Definition dash : Ascii.ascii := Ascii.ascii_of_nat 45.

(** The name of a flag and the value after an equals sign, which cannot be first. *)
Fixpoint cut_equals (s : string) : string * option string :=
  match s with
  | "" => ("", None)
  | String a s =>
      if Ascii.eqb a (Ascii.ascii_of_nat 61) then ("", Some s)
      else let '(name, value) := cut_equals s in (String a name, value)
  end%string.
Definition flag_name (s : string) : string * option string :=
  match s with
  | "" => ("", None)
  | String a s => let '(name, value) := cut_equals s in (String a name, value)
  end%string.
(** What an argument is for the parser. *)
Inductive argument :=
  | NotAFlag
  | Terminator
  | BadSyntax
  | AFlag (name : string) (value : option string).
Definition is_dash (a : Ascii.ascii) : bool := Ascii.eqb a dash.
Definition classify (s : string) : argument :=
  match s with
  | String d (String a rest) =>
      if negb (is_dash d) then NotAFlag
      else
        if is_dash a then
          match rest with
          | "" => Terminator
          | String b _ => if is_dash b || Ascii.eqb b (Ascii.ascii_of_nat 61) then BadSyntax
                          else let '(name, value) := flag_name rest in AFlag name value
          end
        else if Ascii.eqb a (Ascii.ascii_of_nat 61) then BadSyntax
        else let '(name, value) := flag_name (String a rest) in AFlag name value
  | _ => NotAFlag
  end%string.

(** [FlagSet.Parse]: the values of the flags and the arguments left. *)
Fixpoint flag_parse (fs : FlagSet) (args : list string) : result flag_error (FlagSet * list string) :=
  match args with
  | [] => Ok (fs, [])
  | arg :: rest =>
      match classify arg with
      | NotAFlag => Ok (fs, arg :: rest)
      | Terminator => Ok (fs, rest)
      | BadSyntax => Err (BadFlagSyntax arg)
      | AFlag name value =>
          let take old value rest k :=
            match set_flag old value with
            | Some v => k (<[name := v]> fs) rest
            | None => Err (InvalidFlagValue value name)
            end in
          match fs !! name with
          | None => Err (if bool_decide (name = "help"%string) || bool_decide (name = "h"%string) then FlagHelp else FlagNotDefined name)
          | Some old =>
              match value, is_bool old, rest with
              | Some value, _, _ => take old value rest flag_parse
              | None, true, _ => take old "true"%string rest flag_parse
              | None, false, value :: rest' => take old value rest' flag_parse
              | None, false, [] => Err (FlagNeedsArgument name)
              end
          end
      end
  end.

Definition string_flag (fs : FlagSet) (name : string) : string := match fs !! name with Some (FString s) => s | _ => "" end.
Definition bool_flag (fs : FlagSet) (name : string) : bool := match fs !! name with Some (FBool b) => b | _ => false end.
Definition int_flag (fs : FlagSet) (name : string) : Z := match fs !! name with Some (FInt n) => n | _ => 0 end.
Definition uint64_flag (fs : FlagSet) (name : string) : Z := match fs !! name with Some (FUint64 n) => n | _ => 0 end.

(** ** The options of a worker *)

Record workerOptions := mkWorkerOptions {
  wo_managerURL : string;
  wo_name : string;
  wo_token : string;
  wo_cacheDir : string;
  wo_limits : ResourceLimits;
  wo_runBenchmark : bool;
  wo_runOnce : bool;
}.
Definition gbToBytes (gb : Z) : Z := u64 (u64 (u64 (gb * 1024) * 1024) * 1024).

Section options.
Context `{Facts} `{Surroundings} `{Host} `{Platform}.

Definition defaultNodeName : string :=
  match hostname with Some host => if str_eqb host "" then "worker" else host | None => "worker" end.
Definition defaultStatePath : string :=
  let value := getenv "CMESH_STATE_PATH" in
  if negb (str_eqb value "") then value
  else match user_config_dir with
       | Some dir => if str_eqb dir "" then "./data/cmesh-state.json" else dir +:+ "/cmesh/cmesh-state.json"
       | None => "./data/cmesh-state.json"
       end.

Definition worker_flags : FlagSet := list_to_map [
  ("manager", FString "http://127.0.0.1:8080"); ("name", FString defaultNodeName); ("token", FString "");
  ("cache-dir", FString defaultCacheDir); ("cpu", FInt num_cpu); ("memory-gb", FUint64 2); ("disk-gb", FUint64 10);
  ("gpu", FBool true); ("vram-gb", FUint64 0); ("job-slots", FInt 1); ("benchmark", FBool false); ("once", FBool false)]%string.
Definition parseWorkerOptions (args : list string) : result flag_error workerOptions :=
  match flag_parse worker_flags args with
  | Err e => Err e
  | Ok (fs, _) =>
      Ok (mkWorkerOptions (trim_right_slash (string_flag fs "manager")) (string_flag fs "name") (string_flag fs "token")
            (string_flag fs "cache-dir")
            (mkLimits (int_flag fs "cpu") (gbToBytes (uint64_flag fs "memory-gb")) (gbToBytes (uint64_flag fs "disk-gb"))
               (bool_flag fs "gpu") (gbToBytes (uint64_flag fs "vram-gb")) (int_flag fs "job-slots"))
            (bool_flag fs "benchmark") (bool_flag fs "once"))
  end.

(** The other flag sets. *)
Definition manager_flags : FlagSet := list_to_map [
  ("addr", FString ":8080"); ("join-token", FString (getenv "CMESH_JOIN_TOKEN")); ("operator-token", FString (getenv "CMESH_OPERATOR_TOKEN"));
  ("public-url", FString (getenv "CMESH_PUBLIC_URL")); ("database-url", FString (getenv "DATABASE_URL"));
  ("state-path", FString defaultStatePath); ("memory", FBool false)]%string.
Definition benchmark_flags : FlagSet := list_to_map [
  ("manager", FString "http://127.0.0.1:8080"); ("node-id", FString ""); ("cache-dir", FString defaultCacheDir)]%string.
Definition control_flags : FlagSet := list_to_map [
  ("addr", FString "127.0.0.1:9781"); ("config", FString (getenv "CMESH_WORKER_CONTROL_CONFIG"));
  ("token", FString (getenv "CMESH_WORKER_CONTROL_TOKEN"))]%string.
Definition job_flags (extra : list (string * flag_value)) : FlagSet := list_to_map ([
  ("manager", FString "http://127.0.0.1:8080"); ("operator-token", FString (getenv "CMESH_OPERATOR_TOKEN"))]%string ++ extra).
Definition submit_flags : FlagSet := job_flags [("type", FString "echo"); ("input", FString "")]%string.
Definition compute_flags : FlagSet := job_flags [("size", FInt 192); ("iterations", FInt 3)]%string.
Definition cluster_flags : FlagSet := list_to_map [
  ("manager", FString "http://127.0.0.1:8080"); ("workers", FInt 3); ("benchmark", FBool true)]%string.
End options.

(** ** What the worker reads of what the control wrote *)

(** *** Numbers *)


Ltac unbind := match goal with |- context [Some ?a ≫= ?f] => change (Some a ≫= f) with (f a); cbv beta end.
Lemma digit_char d : (d < 10)%N →
  digit_of (pretty_N_char d) = Some (Z.of_N d) ∧ Ascii.eqb (pretty_N_char d) underscore = false ∧
  Ascii.eqb (pretty_N_char d) (Ascii.ascii_of_nat 43) = false ∧ Ascii.eqb (pretty_N_char d) (Ascii.ascii_of_nat 45) = false ∧
  (Ascii.eqb (pretty_N_char d) (Ascii.ascii_of_nat 48) = true → d = 0%N).
Proof.
  intros Hd. assert (d ∈ [0; 1; 2; 3; 4; 5; 6; 7; 8; 9]%N) as Hin.
  { rewrite !elem_of_cons. lia. }
  repeat (apply elem_of_cons in Hin as [->|Hin]; [by vm_compute|]). by apply not_elem_of_nil in Hin.
Qed.

(** Written digits are read back. *)
Lemma digits_pretty x s : Z.of_N x < 2^64 → digits_loop 10 0 false (pretty_N_go x s) = digits_loop 10 (Z.of_N x) false s.
Proof.
  revert s. induction (N.lt_wf_0 x) as [x _ IH]. intros s Hx. destruct (decide (x = 0)%N) as [->|Hne]; [by rewrite pretty_N_go_0|].
  assert (0 < x)%N as Hpos by lia. rewrite pretty_N_go_step by done.
  pose proof (N.div_mod x 10 ltac:(done)) as Hdm. pose proof (N.mod_lt x 10 ltac:(done)) as Hm.
  assert (x `div` 10 < x)%N as Hlt by (apply N.div_lt; lia).
  rewrite IH; [|done|lia]. cbn [digits_loop].
  destruct (digit_char (x `mod` 10)%N) as (Hd & Hu & _); [lia|]. rewrite Hu, Hd. unbind.
  rewrite (proj2 (Z.leb_gt 10 (Z.of_N (x `mod` 10)))) by lia.
  replace (Z.of_N (x `div` 10) * 10 + Z.of_N (x `mod` 10)) with (Z.of_N x) by lia.
  by rewrite (proj2 (Z.ltb_lt _ _) Hx).
Qed.
(** The first of them is not zero. *)
Lemma pretty_first x s : (0 < x)%N → ∃ d s', (d < 10)%N ∧ (0 < d)%N ∧ pretty_N_go x s = String (pretty_N_char d) s'.
Proof.
  revert s. induction (N.lt_wf_0 x) as [x _ IH]. intros s Hx. rewrite pretty_N_go_step by done.
  destruct (decide (x `div` 10 = 0)%N) as [E|Hne].
  - rewrite E, pretty_N_go_0. exists (x `mod` 10)%N, s. split_and!; [by apply N.mod_lt| |done].
    pose proof (N.div_mod x 10 ltac:(done)). lia.
  - apply IH; [apply N.div_lt; lia|by apply N.neq_0_lt_0].
Qed.
Lemma Itoa_nonneg n : 0 ≤ n → Itoa n = pretty (Z.to_N n).
Proof. intros Hn. unfold Itoa, pretty, pretty_Z. destruct n as [|x|x]; [done|done|lia]. Qed.

Lemma ParseUint0_Itoa n : 0 ≤ n < 2^64 → ParseUint0 (Itoa n) = Some n.
Proof.
  intros Hn. rewrite Itoa_nonneg by lia. unfold pretty, pretty_N. destruct (decide (Z.to_N n = 0)%N) as [E|Hne].
  { assert (n = 0) as -> by lia. reflexivity. }
  assert (0 < Z.to_N n)%N as Hpos by lia. pose proof (digits_pretty (Z.to_N n) "" ltac:(lia)) as Hd.
  destruct (pretty_first (Z.to_N n) "" Hpos) as (d & s' & Hd10 & Hd0 & E). rewrite E in Hd |- *.
  destruct (digit_char d Hd10) as (_ & _ & _ & _ & Hz). unfold ParseUint0, number_base.
  destruct (Ascii.eqb (pretty_N_char d) (Ascii.ascii_of_nat 48)) eqn:Ez; [specialize (Hz eq_refl); lia|].
  rewrite Hd. simpl. by rewrite Z2N.id by lia.
Qed.
Lemma ParseInt0_Itoa n : 0 ≤ n < 2^63 → ParseInt0 (Itoa n) = Some n.
Proof.
  intros Hn. pose proof (ParseUint0_Itoa n ltac:(lia)) as Hu. rewrite Itoa_nonneg in * by lia.
  unfold ParseInt0. destruct (pretty (Z.to_N n)) as [|a s] eqn:E; [done|].
  assert (Ascii.eqb a (Ascii.ascii_of_nat 43) = false ∧ Ascii.eqb a (Ascii.ascii_of_nat 45) = false) as [-> ->].
  { unfold pretty, pretty_N in E. destruct (decide (Z.to_N n = 0)%N); [by injection E as <- _|].
    destruct (pretty_first (Z.to_N n) "" ltac:(lia)) as (d & s' & Hd & _ & E'). rewrite E' in E. injection E as <- _.
    by destruct (digit_char d Hd) as (_ & _ & ? & ? & _). }
  rewrite Hu. unbind. cbn [negb andb]. by rewrite (proj2 (Z.leb_gt _ _)) by lia.
Qed.

(** *** Flags *)

(** A flag and its value as two arguments, and as one. *)
Lemma parse_pair fs arg name old value v rest :
  classify arg = AFlag name None → fs !! name = Some old → is_bool old = false → set_flag old value = Some v →
  flag_parse fs (arg :: value :: rest) = flag_parse (<[name := v]> fs) rest.
Proof. intros Hc Ho Hb Hv. cbn [flag_parse]. by rewrite Hc, Ho, Hb, Hv. Qed.
Lemma parse_switch fs arg name value b rest :
  classify arg = AFlag name value → fs !! name = Some (FBool b) →
  ∀ b', ParseBool (default "true"%string value) = Some b' →
  flag_parse fs (arg :: rest) = flag_parse (<[name := FBool b']> fs) rest.
Proof. intros Hc Ho b' Hb. cbn [flag_parse]. rewrite Hc, Ho. destruct value; cbn [set_flag is_bool default from_option Datatypes.id] in *; by rewrite Hb. Qed.

Section roundtrip.
Context `{Facts} `{Surroundings} `{Host} `{Platform}.

(** What the worker is told by a configuration. *)
Definition config_options (cfg : Config) : workerOptions :=
  mkWorkerOptions (trim_right_slash (cfg_ManagerURL cfg)) (cfg_NodeName cfg) (cfg_JoinToken cfg) (cfg_WorkerCacheDir cfg)
    (mkLimits (cfg_CPU cfg) (gbToBytes (cfg_MemoryGB cfg)) (gbToBytes (cfg_DiskGB cfg)) (cfg_GPUEnabled cfg)
       (gbToBytes (cfg_VRAMGB cfg)) (cfg_JobSlots cfg))
    (cfg_Benchmark cfg) false.

(** The numbers of a configuration are Go [int]s. *)
Record config_ints (cfg : Config) : Prop := {
  ci_cpu : cfg_CPU cfg < 2^63; ci_memory : cfg_MemoryGB cfg < 2^63; ci_disk : cfg_DiskGB cfg < 2^63;
  ci_vram : cfg_VRAMGB cfg < 2^63; ci_slots : cfg_JobSlots cfg < 2^63;
}.

Ltac flag_lookup := repeat (rewrite lookup_insert_ne by done); first [apply lookup_insert_eq|reflexivity].
Ltac read_flag :=
  first [erewrite parse_pair; [|reflexivity|flag_lookup|reflexivity|first [reflexivity|simpl; by rewrite ?ParseUint0_Itoa, ?ParseInt0_Itoa by lia]]
        |erewrite parse_switch; [|reflexivity|flag_lookup|reflexivity]].

(** The worker reads what the control wrote: started with the
    arguments of a configuration that the control accepts, and whose graphics
    memory is not negative, the worker's options are the configuration's address,
    name, token, directory, limits (in bytes) and switches. *)
Lemma control_args_read_back (cfg : Config) :
  validateConfig cfg = None → config_ints cfg → 0 ≤ cfg_VRAMGB cfg →
  ∃ rest, workerArgs cfg = "worker"%string :: "run"%string :: rest ∧ parseWorkerOptions rest = Ok (config_options cfg).
Proof.
  intros Hv [B1 B2 B3 B4 B5] Hvram.
  assert (0 < cfg_CPU cfg ∧ 0 < cfg_MemoryGB cfg ∧ 0 < cfg_DiskGB cfg ∧ 0 < cfg_JobSlots cfg) as (P1 & P2 & P3 & P4).
  { unfold validateConfig in Hv. destruct (first_error _) eqn:E; [done|]. apply first_error_None in E.
    rewrite !Forall_cons in E. destruct E as (_ & _ & E1 & E2 & E3 & E4 & _). simpl in *. rewrite !Z.leb_gt in *. done. }
  eexists. split; [reflexivity|]. unfold parseWorkerOptions, worker_flags. cbn [app].
  do 8 read_flag.
  assert (Hg : ∀ fs rest, fs !! "gpu"%string = Some (FBool true) →
    flag_parse fs (("--gpu=" +:+ FormatBool (cfg_GPUEnabled cfg)) :: rest) = flag_parse (<["gpu"%string := FBool (cfg_GPUEnabled cfg)]> fs) rest).
  { intros fs rest Ho. apply (parse_switch _ _ _ (Some (FormatBool (cfg_GPUEnabled cfg))) true); [|done|]; by destruct (cfg_GPUEnabled cfg). }
  rewrite Hg by flag_lookup.
  read_flag. unfold config_options. destruct (cfg_Benchmark cfg); cbn [app]; [read_flag|]; cbn [flag_parse];
    unfold string_flag, int_flag, uint64_flag, bool_flag;
    repeat first [rewrite lookup_insert_eq|rewrite lookup_insert_ne by done]; reflexivity.
Qed.
End roundtrip.

(** ** Worked examples *)

Section examples.
#[local] Instance flag_facts : Facts := {| num_cpu := 4; statfs _ := None; command_output _ := None |}.
#[local] Instance flag_host : Host := {|
  look_path name := Some ("/usr/bin/" +:+ name); getenv _ := ""; home_dir := None; user_cache_dir := None; temp_name _ := "/tmp/x";
  web_get _ _ := Err "offline"%string; read_zip _ := Err "not a zip"%string; read_tar_gz _ := Err "not an archive"%string |}.
#[local] Instance flag_platform : Platform := {| GOOS := "linux"; GOARCH := "amd64" |}.
#[local] Instance flag_around : Surroundings := {|
  hostname := Some "box"%string; user_config_dir := None; executable := None; parse_url _ := None;
  loopback_ip _ := false; local_ip _ _ := None;
  local_ip_trimmed _ _ ip E := match E in _ = y return match y with Some ip => TrimSpace ip = ip ∧ ip ≠ ""%string | None => True end with eq_refl => I end;
  start_process _ _ _ _ := Err "no"%string; pipe_fault _ := None; interrupt_fails _ := false; environ := [] |}.
Definition demo_config (vram : Z) : Config :=
  mkConfig "http://m/" "tok" "n" 4 8 50 true vram 1 true "h" "a" 1 true "" "c".

Lemma demo_config_ints : config_ints (demo_config 6).
Proof. by split. Qed.
Lemma control_args_read_back_witness :
  ∃ rest, workerArgs (demo_config 6) = "worker"%string :: "run"%string :: rest ∧
    parseWorkerOptions rest = Ok (config_options (demo_config 6)).
Proof.
  assert (Hv : validateConfig (demo_config 6) = None) by (vm_compute; reflexivity).
  assert (Hp : 0 ≤ 6) by lia.
  pose proof (control_args_read_back (demo_config 6) Hv demo_config_ints Hp) as H. exact H.
Defined.

(** A negative amount of graphics memory, which the control accepts, is refused by
    the worker it starts. *)
Example negative_vram_refused :
  validateConfig (demo_config (-1)) = None ∧
  parseWorkerOptions (skipn 2 (workerArgs (demo_config (-1)))) = Err (InvalidFlagValue "-1" "vram-gb").
Proof. by vm_compute. Qed.

(** Numbers in other bases, and what is not one. *)
Example parsed_numbers :
  ParseUint0 "0x1F" = Some 31 ∧ ParseUint0 "1_000" = Some 1000 ∧ ParseUint0 "_1" = None ∧ ParseUint0 "08" = None ∧
  ParseUint0 "0b11" = Some 3 ∧ ParseUint0 "18446744073709551616" = None ∧ ParseInt0 "-0x8000000000000000" = Some (- 2^63) ∧
  ParseInt0 "9223372036854775808" = None.
Proof. by vm_compute. Qed.
(** Parsing stops at the first argument that is not a flag, or after two dashes. *)
Example parsed_arguments :
  (λ r, match r with Ok (fs, rest) => (fs !! "type"%string, rest) | Err _ => (None, []) end)
    (flag_parse submit_flags ["-type=x"; "--"; "--input"]%string) = (Some (FString "x"), ["--input"%string]) ∧
  flag_parse submit_flags ["--nope"]%string = Err (FlagNotDefined "nope") ∧
  flag_parse submit_flags ["--type"]%string = Err (FlagNeedsArgument "type").
Proof. by vm_compute. Qed.
End examples.
