(* ===== verification/Commands.v ===== *)
(** * The commands

    [cmd/cmesh/main.go] and [dev.go], the commands of the program: the life of a
    worker from joining to leaving, its benchmarks ([internal/resources/runner.go]),
    the operator's commands on jobs, and the manager's choice of its store. *)

From S2P Require Import Prelude GoString GoSort GoFloat World Json Cdip Types Protocol Models State.
From S2P Require Import Conversations Scheduling JobStore FileStore ModelView RpcPool DistributedPlan Views Capacity.
From S2P Require Import Transport Coordinator Http Handlers Demo ModelHandlers Server Access Codec.
From S2P Require Import MatrixJob Prompt HttpTransport Paths Files LlamaCpp Discovery ModelJobs Execute Worker WorkerControl Flags PgStore.

(** ** Benchmarks *)

(** Random bytes and the number of threads of the Go runtime. *)
Class Bench := {
  gomaxprocs : Z;
  rand_text : Tag → Z → string;
}.
Definition Millisecond : Z := 1000000.

Section benchmarks.
Context `{W : World} `{Files} `{Platform} `{Bench}.

(** One round of 1024 steps of the CPU benchmark. *)
Definition fnv_step (iterations value : Z) (i : nat) : Z :=
  u64 (Z.lxor value (u64 (Z.of_nat i + iterations)) * 1099511628211).
Definition cpu_round (iterations value : Z) : Z := foldl (fnv_step iterations) value (seq 0 1024).
(** The loops read the clock before each round. *)
Fixpoint timed_loop {A} (fuel : nat) (t : Tag) (i : nat) (deadline : Time) (round : A → A) (a : A) : option A :=
  match fuel with
  | O => None
  | S fuel => if w_clock (t ++ ["tick"%string; pretty i]) <? deadline then timed_loop fuel t (S i) deadline round (round a) else Some a
  end.
Definition runCPUBenchmark (fuel : nat) (t : Tag) (nodeID : string) : option BenchmarkResult :=
  let start := w_clock (t ++ ["start"%string]) in
  '(iterations, value) ← timed_loop fuel t 0 (start + 750 * Millisecond)
     (λ x, (u64 (x.1 + 1024), cpu_round x.1 x.2)) (0, 1469598103934665603);
  let duration := time_Sub (w_clock (t ++ ["end"%string])) start in
  let score := f_div (f_div (f_of_Z iterations) (Seconds duration)) (f_of_Z 1000000) in
  Some (mkBenchmarkResult nodeID "cpu" score "million_ops_per_second" duration 0
          (<["threads"%string := Itoa gomaxprocs]> $ <["sink"%string := Itoa value]> ∅)).
Definition memory_size : Z := 64 * 1024 * 1024.
Definition runMemoryBenchmark (fuel : nat) (t : Tag) (nodeID : string) : option BenchmarkResult :=
  let start := w_clock (t ++ ["start"%string]) in
  copied ← timed_loop fuel t 0 (start + 500 * Millisecond) (λ n, u64 (n + memory_size)) 0;
  let duration := time_Sub (w_clock (t ++ ["end"%string])) start in
  let kb := f_of_Z 1024 in
  let score := f_div (f_div (f_div (f_div (f_of_Z copied) (Seconds duration)) kb) kb) kb in
  Some (mkBenchmarkResult nodeID "memory" score "gb_per_second" duration 0 ∅).
Definition disk_payload : Z := 16 * 1024 * 1024.
Definition bench_file (cacheDir : string) : string :=
  PathJoin [if str_eqb cacheDir "" then "."%string else cacheDir; "benchmark.tmp"%string].
Definition runDiskBenchmark (t : Tag) (fs : tree) (nodeID cacheDir : string) : tree * result os_error BenchmarkResult :=
  let path := bench_file cacheDir in
  let start := w_clock (t ++ ["start"%string]) in
  match os_WriteFile (t ++ ["write"%string]) fs path (rand_text t disk_payload) with
  | (fs, Some e) => (fs, Err e)
  | (fs, None) =>
      match os_ReadFile (t ++ ["read"%string]) fs path with
      | Err e => (fs, Err e)
      | Ok _ =>
          let fs := (os_Remove (t ++ ["remove"%string]) fs path).1 in
          let duration := time_Sub (w_clock (t ++ ["end"%string])) start in
          let score := f_div (f_div (f_div (f_of_Z (disk_payload * 2)) (Seconds duration)) (f_of_Z 1024)) (f_of_Z 1024) in
          (fs, Ok (mkBenchmarkResult nodeID "disk" score "mb_per_second" duration 0 ∅))
      end
  end.

(** [None] when the fuel of a loop is spent. *)
Definition RunLocalBenchmarks (fuel : nat) (t : Tag) (fs : tree) (nodeID cacheDir : string)
    : option (tree * result os_error (list BenchmarkResult)) :=
  let '(fs, made) := if str_eqb cacheDir "" then (fs, None) else os_MkdirAll (t ++ ["mkdir"%string]) fs cacheDir in
  match made with
  | Some e => Some (fs, Err e)
  | None =>
      let now := w_clock (t ++ ["now"%string]) in
      cpu ← runCPUBenchmark fuel (t ++ ["cpu"%string]) nodeID;
      memory ← runMemoryBenchmark fuel (t ++ ["memory"%string]) nodeID;
      let '(fs, disk) := runDiskBenchmark (t ++ ["disk"%string]) fs nodeID cacheDir in
      Some (fs, disk ← disk; Ok ((λ r, r <| bench_CreatedAt := now |>) <$> [cpu; memory; disk]))
  end.
End benchmarks.

(** ** Calls of the commands *)

(** The texts between the commands and the manager: a request that JSON can carry
    decodes to itself, and so do the manager's answers. *)
Class CommandTexts `{ServerCodecs} `{!JobTexts} := {
  join_text : JoinRequest → string;
  leave_text : LeaveRequest → string;
  benchmark_text : BenchmarkResult → option string;
  create_text : CreateRequest → string;
  read_joined : string → option JoinResponse;
  read_job : string → option Job;
  read_jobs : string → option (list Job);
  sendable_join : JoinRequest → Prop;
  join_decodes req : sendable_join req → Decode (join_text req) = (req, true);
  leave_decodes nodeID at_ : nodeID ≠ ""%string → plain nodeID → Decode (leave_text (mkLeaveRequest nodeID at_)) = (mkLeaveRequest nodeID at_, true);
  joined_decodes resp : plain (joined_NodeID resp) → read_joined (response_text (BodyJoined resp)) = Some resp;
}.

Inductive run_error :=
  | OnManager (e : poll_error)
  | OnBenchmark (e : os_error)
  | UnsupportedScore                                  (** json.Marshal of an infinite score *)
  | OnFlags (e : flag_error)
  | OnMatrix (e : matrix_error)
  | UnknownCommand (group name : string)
  | JobIDRequired
  | WorkersNotPositive.

Section calls.
Context `{W : World} `{ServerCodecs} `{Dialer} `{ErrorTexts} `{Network} `{!JobTexts} `{!CommandTexts}.

Definition lift_result {A B : Type} (f : A → result poll_error B) (out : outcome (result poll_error A)) : outcome (result poll_error B) :=
  match out with
  | Returned (Ok a) => Returned (f a) | Returned (Err e) => Returned (Err e)
  | Blocked => Blocked | Panicked => Panicked
  end.
Definition decoded_body {A : Type} (read : string → option A) (resp : Response) : result poll_error A :=
  match read (response_text (rs_Body resp)) with Some a => Ok a | None => Err PollUndecodable end.

Definition joinWorker (t : Tag) (managerURL : string) (req : JoinRequest) (srv : Server)
    : Server * outcome (result poll_error JoinResponse) :=
  let '(srv, out) := call_manager t "POST" (managerURL +:+ "/v1/workers/join") (join_text req) srv in
  (srv, lift_result (decoded_body read_joined) out).
Definition sendLeave (t : Tag) (managerURL nodeID : string) (srv : Server) : Server * outcome (result poll_error Response) :=
  call_manager t "POST" (managerURL +:+ "/v1/workers/leave") (leave_text (mkLeaveRequest nodeID (w_clock (t ++ ["now"%string])))) srv.
Definition submitBenchmark (t : Tag) (managerURL : string) (res : BenchmarkResult) (srv : Server)
    : Server * outcome (result run_error unit) :=
  match benchmark_text res with
  | None => (srv, Returned (Err UnsupportedScore))
  | Some body =>
      let '(srv, out) := call_manager t "POST" (managerURL +:+ "/v1/benchmarks") body srv in
      (srv, match out with
            | Returned (Ok _) => Returned (Ok tt) | Returned (Err e) => Returned (Err (OnManager e))
            | Blocked => Blocked | Panicked => Panicked
            end)
  end.

(** [setOperatorToken]: the header by its canonical name. *)
Definition setOperatorToken (headers : gmap string string) (token : string) : gmap string string :=
  if str_eqb token "" then headers else <["X-Cmesh-Operator-Token"%string := token]> headers.
(** A call with a request of its own; another status than 2xx is an error. *)
Definition call_with (t : Tag) (method url : string) (headers : gmap string string) (body : string) (srv : Server)
    : Server * outcome (result poll_error Response) :=
  match Do t Background method url headers body srv with
  | (srv, Blocked) => (srv, Blocked)
  | (srv, Panicked) => (srv, Panicked)
  | (srv, Returned (Err e)) => (srv, Returned (Err (PollCallFailed e)))
  | (srv, Returned (Ok resp)) => (srv, Returned (if bad_status resp then Err (ManagerReturned (rs_Status resp)) else Ok resp))
  end.
Definition submitJob (t : Tag) (managerURL operatorToken : string) (req : CreateRequest) (srv : Server)
    : Server * outcome (result poll_error Job) :=
  let '(srv, out) := call_with t "POST" (managerURL +:+ "/v1/jobs")
    (setOperatorToken {["Content-Type"%string := "application/json"%string]} operatorToken) (create_text req) srv in
  (srv, lift_result (decoded_body read_job) out).
(** The jobs printed. *)
Definition listJobs (t : Tag) (managerURL operatorToken : string) (srv : Server) : Server * outcome (result poll_error (list Job)) :=
  let '(srv, out) := call_with t "GET" (managerURL +:+ "/v1/jobs") (setOperatorToken ∅ operatorToken) "" srv in
  (srv, lift_result (decoded_body read_jobs) out).
Definition getJob (t : Tag) (managerURL operatorToken jobID : string) (srv : Server) : Server * outcome (result poll_error Job) :=
  let '(srv, out) := call_with t "GET" (managerURL +:+ "/v1/jobs/" +:+ jobID) (setOperatorToken ∅ operatorToken) "" srv in
  (srv, lift_result (decoded_body read_job) out).
End calls.

(** ** The life of a worker *)

(** What happens while the main loop of a worker waits: it is interrupted; its ticker fires;
    a poll ends, or panics; or polls in flight and other clients change the manager's
    store and the worker's files. *)
Inductive loop_event :=
  | Interrupted
  | Ticked (t : Tag)
  | PollEnded (err : option poll_error)
  | PollPanicked
  | Meanwhile (ops : list (World * store_op)) (fs : tree).
(** [defer]: also after an error or a panic. *)
Definition with_defer {A : Type} (deferred : job_m unit) (body : job_m A) : job_m A := λ s,
  match body s with
  | (s, Blocked) => (s, Blocked)
  | (s, out) => match deferred s with
                | (s, Returned _) => (s, out) | (s, Blocked) => (s, Blocked) | (s, Panicked) => (s, Panicked)
                end
  end.
(** [if err := ...; err != nil { return err }]. *)
Definition mtry {E A B : Type} (wrap : E → run_error) (m : job_m (result E A)) (k : A → job_m (result run_error B))
    : job_m (result run_error B) :=
  mbind m (λ x, match x with Ok a => k a | Err e => mreturn (Err (wrap e)) end).

Section running.
Context `{W : World} `{ServerCodecs} `{Dialer} `{ErrorTexts} `{Network} `{!JobTexts} `{!CommandTexts}.
Context `{Files} `{Platform} `{Host} `{RuntimeTexts} `{JsonBody githubRelease} `{DiscoveryCodecs} `{ModelJobCodecs}.
Context `{Machine} `{Processes} `{WorkerCodecs} `{WorkerTexts} `{Facts} `{Bench}.

Definition discoverWorkerResources (t : Tag) (options : workerOptions) : job_m ResourceSnapshot := λ s,
  let '(fs, snapshot) := DiscoverLocal t (site_fs s) (mkDiscoveryOptions (wo_limits options) (wo_cacheDir options)) in
  (s <| site_fs := fs |>, Returned snapshot).
Definition workerJoinRequest (t : Tag) (options : workerOptions) : job_m JoinRequest :=
  mbind (discoverWorkerResources t options) (λ snapshot,
  mreturn (mkJoinRequest (wo_name options) NodeRoleWorker "" (wo_token options) snapshot)).
(** [joinWorker] with the request of the worker. *)
Definition join_manager (t : Tag) (options : workerOptions) : job_m (result poll_error JoinResponse) :=
  mbind (workerJoinRequest (t ++ ["resources"%string]) options) (λ req,
  on_manager (joinWorker (t ++ ["join"%string]) (wo_managerURL options) req)).
Definition workerJoinOnce (t : Tag) (options : workerOptions) : job_m (result run_error JoinResponse) :=
  mtry OnManager (join_manager t options) (λ resp, mreturn (Ok resp)).

Fixpoint submit_results (t : Tag) (i : nat) (managerURL : string) (results : list BenchmarkResult)
    : job_m (result run_error unit) :=
  match results with
  | [] => mreturn (Ok tt)
  | res :: results =>
      mtry Datatypes.id (on_manager (submitBenchmark (t ++ ["submit"%string; pretty i]) managerURL res)) (λ _,
      submit_results t (S i) managerURL results)
  end.
(** The benchmarks of a worker's machine; out of fuel they are still running. *)
Definition local_benchmarks (fuel : nat) (t : Tag) (nodeID cacheDir : string)
    : job_m (result os_error (list BenchmarkResult)) := λ s,
  match RunLocalBenchmarks fuel t (site_fs s) nodeID cacheDir with
  | None => (s, Blocked)
  | Some (fs, results) => (s <| site_fs := fs |>, Returned results)
  end.
Definition runAndSubmitBenchmarks (fuel : nat) (t : Tag) (managerURL nodeID cacheDir : string) : job_m (result run_error unit) :=
  mtry OnBenchmark (local_benchmarks fuel t nodeID cacheDir) (submit_results t 0 managerURL).
Definition workerBenchmark (fuel : nat) (t : Tag) (managerURL nodeID cacheDir : string) : job_m (result run_error unit) :=
  mtry OnBenchmark (local_benchmarks fuel t nodeID cacheDir) (λ results,
  if str_eqb nodeID "" then mreturn (Ok tt) else submit_results t 0 managerURL results).

Definition heartbeat (t : Tag) (options : workerOptions) (nodeID : string) (snapshot : ResourceSnapshot)
    : job_m (result poll_error Response) :=
  on_manager (sendHeartbeat t (wo_managerURL options) nodeID snapshot).
(** A round of the ticker: a recorded error ends the loop, otherwise the worker looks
    at its resources again, sends a heartbeat and starts the polls that are missing. *)
Definition tick_round (t : Tag) (options : workerOptions) (nodeID : string) (r : workerJobRunner)
    : job_m (result run_error workerJobRunner) :=
  match LastError r with
  | Some e => mreturn (Err (OnManager e))
  | None =>
      mbind (discoverWorkerResources (t ++ ["resources"%string]) options) (λ snapshot,
      mtry OnManager (heartbeat (t ++ ["heartbeat"%string]) options nodeID snapshot) (λ _,
      match PollAvailable r with
      | (_, Err e) => mreturn (Err (OnManager e))
      | (r, Ok _) => mreturn (Ok r)
      end))
  end.
Definition other_clients (ops : list (World * store_op)) (st : State) : State := foldl (λ st o, exec (H := o.1) st o.2) st ops.
Definition meanwhile (ops : list (World * store_op)) (fs : tree) : job_m unit := λ s,
  let srv := site_srv s in
  (s <| site_fs := fs |> <| site_srv := srv <| srv_state := other_clients ops (srv_state srv) |> |>, Returned tt).
(** The loop on what happens; when nothing more does it waits.  A poll runs in a
    goroutine that recovers nothing: its panic ends the process, and no call of the
    loop returns any more, nor does what was deferred run. *)
Fixpoint worker_loop (options : workerOptions) (nodeID : string) (events : list loop_event) (r : workerJobRunner)
    : job_m (result run_error unit) :=
  match events with
  | [] => λ s, (s, Blocked)
  | Interrupted :: _ => mreturn (Ok tt)
  | Ticked t :: events => mtry Datatypes.id (tick_round t options nodeID r) (worker_loop options nodeID events)
  | PollEnded err :: events =>
      worker_loop options nodeID events (if 0 <? run_active r then poll_done r err else r)
  | PollPanicked :: _ => λ s, (s, Blocked)
  | Meanwhile ops fs :: events => mbind (meanwhile ops fs) (λ _, worker_loop options nodeID events r)
  end.

(** The worker between joining and leaving. *)
Definition joined_worker (fuel : nat) (t : Tag) (options : workerOptions) (nodeID : string) (events : list loop_event)
    : job_m (result run_error unit) :=
  mbind (discoverWorkerResources (t ++ ["resources"%string]) options) (λ snapshot,
  mtry OnManager (heartbeat (t ++ ["heartbeat"%string]) options nodeID snapshot) (λ _,
  mtry Datatypes.id (if wo_runBenchmark options
                     then runAndSubmitBenchmarks fuel (t ++ ["benchmark"%string]) (wo_managerURL options) nodeID (wo_cacheDir options)
                     else mreturn (Ok tt)) (λ _,
  if wo_runOnce options then
    mtry OnManager (pollAndExecuteJob (t ++ ["once"%string]) (wo_managerURL options) nodeID (wo_cacheDir options) snapshot)
      (λ _, mreturn (Ok tt))
  else
    match PollAvailable (newWorkerJobRunner (res_JobSlots snapshot)) with
    | (_, Err e) => mreturn (Err (OnManager e))
    | (r, Ok _) => worker_loop options nodeID events r
    end))).
Definition leave (t : Tag) (options : workerOptions) (nodeID : string) : job_m unit :=
  mbind (on_manager (sendLeave (t ++ ["leave"%string]) (wo_managerURL options) nodeID)) (λ _, mreturn tt).
Definition workerRun (fuel : nat) (t : Tag) (options : workerOptions) (events : list loop_event) : job_m (result run_error unit) :=
  mtry OnManager (join_manager t options) (λ resp,
  with_defer (leave t options (joined_NodeID resp))
    (joined_worker fuel (t ++ ["run"%string]) options (joined_NodeID resp) events)).
End running.

(** ** The commands *)

(** Where a manager keeps its state. *)
Inductive store_choice :=
  | InMemory
  | InPostgres (databaseURL : string)
  | InFile (statePath : string).
Inductive command :=
  | Usage (group : string)                       (** the help text of a group is printed *)
  | PrintVersion
  | ManagerStart (addr : string) (options : ServerOptions) (store : store_choice)
  | ManagerJoin                                    (** only prints that it is reserved *)
  | WorkerJoin (options : workerOptions)
  | WorkerRun (options : workerOptions)
  | WorkerBenchmark (managerURL nodeID cacheDir : string)
  | WorkerControlStart (addr configPath token : string)
  | JobSubmit (managerURL operatorToken : string) (req : CreateRequest)
  | JobList (managerURL operatorToken : string)
  | JobGet (managerURL operatorToken jobID : string)
  | DevCluster (managerURL : string) (workers : Z) (benchmark : bool).

Definition is_help (name : string) : bool := bool_decide (name ∈ ["help"; "--help"; "-h"]%string).
(** Flags, then the command they make. *)
Definition with_flags (fs : FlagSet) (args : list string) (k : FlagSet → list string → result run_error command)
    : result run_error command :=
  match flag_parse fs args with Err e => Err (OnFlags e) | Ok (fs, rest) => k fs rest end.
Definition localHTTPURL (addr : string) : string :=
  if HasPrefix addr ":" then "http://127.0.0.1" +:+ addr
  else if HasPrefix addr "http://" || HasPrefix addr "https://" then addr
  else "http://" +:+ addr.

Section commands.
Context `{W : World} `{Facts} `{Surroundings} `{Host} `{Platform} `{Machine} `{Json matrixMultiplyInput} `{Json matrixMultiplyResult}.

Definition runManager (args : list string) : result run_error command :=
  match args with
  | [] => Ok (Usage "manager")
  | name :: args =>
      if str_eqb name "start" then with_flags manager_flags args (λ fs _,
        let databaseURL := string_flag fs "database-url" in
        Ok (ManagerStart (string_flag fs "addr")
              (mkServerOptions (string_flag fs "join-token") (string_flag fs "operator-token") (string_flag fs "public-url"))
              (if bool_flag fs "memory" then InMemory
               else if negb (str_eqb databaseURL "") then InPostgres databaseURL
               else InFile (string_flag fs "state-path"))))
      else if str_eqb name "join" then Ok ManagerJoin
      else if is_help name then Ok (Usage "manager")
      else Err (UnknownCommand "manager" name)
  end.

Definition worker_command (k : workerOptions → command) (args : list string) : result run_error command :=
  match parseWorkerOptions args with Err e => Err (OnFlags e) | Ok options => Ok (k options) end.
Definition runWorker (args : list string) : result run_error command :=
  match args with
  | [] => Ok (Usage "worker")
  | name :: args =>
      if str_eqb name "join" then worker_command WorkerJoin args
      else if str_eqb name "run" then worker_command WorkerRun args
      else if str_eqb name "benchmark" then with_flags benchmark_flags args (λ fs _,
        Ok (WorkerBenchmark (trim_right_slash (string_flag fs "manager")) (string_flag fs "node-id") (string_flag fs "cache-dir")))
      else if str_eqb name "control" then with_flags control_flags args (λ fs _,
        Ok (WorkerControlStart (string_flag fs "addr") (string_flag fs "config") (string_flag fs "token")))
      else if is_help name then Ok (Usage "worker")
      else Err (UnknownCommand "worker" name)
  end.

Definition submitted (jobType input : string) : CreateRequest :=
  mkCreateRequest jobType input defaultNodeName "" (mkRequirements 0 0 0 false 0) 0 false StageNone "" 0.
Definition runJob (args : list string) : result run_error command :=
  let manager fs := trim_right_slash (string_flag fs "manager") in
  let token fs := string_flag fs "operator-token" in
  match args with
  | [] => Ok (Usage "job")
  | name :: args =>
      if str_eqb name "submit" then with_flags submit_flags args (λ fs _,
        Ok (JobSubmit (manager fs) (token fs) (submitted (string_flag fs "type") (string_flag fs "input"))))
      else if str_eqb name "submit-compute" then with_flags compute_flags args (λ fs _,
        match newMatrixMultiplyInput (int_flag fs "size") (int_flag fs "iterations") with
        | Err e => Err (OnMatrix e)
        | Ok input => Ok (JobSubmit (manager fs) (token fs) (submitted "compute.matrix_multiply" input))
        end)
      else if str_eqb name "list" then with_flags (job_flags []) args (λ fs _, Ok (JobList (manager fs) (token fs)))
      else if str_eqb name "get" then with_flags (job_flags []) args (λ fs rest,
        match rest with [id] => Ok (JobGet (manager fs) (token fs) id) | _ => Err JobIDRequired end)
      else if is_help name then Ok (Usage "job")
      else Err (UnknownCommand "job" name)
  end.

Definition runDev (args : list string) : result run_error command :=
  match args with
  | [] => Ok (Usage "dev")
  | name :: args =>
      if str_eqb name "local-cluster" then with_flags cluster_flags args (λ fs _,
        let workers := int_flag fs "workers" in
        if workers <=? 0 then Err WorkersNotPositive
        else Ok (DevCluster (trim_right_slash (string_flag fs "manager")) workers (bool_flag fs "benchmark")))
      else if is_help name then Ok (Usage "dev")
      else Err (UnknownCommand "dev" name)
  end.

(** The command of the program's arguments. *)
Definition run (args : list string) : result run_error command :=
  match args with
  | [] => Ok (Usage "")
  | name :: args =>
      if str_eqb name "version" then Ok PrintVersion
      else if str_eqb name "manager" then runManager args
      else if str_eqb name "worker" then runWorker args
      else if str_eqb name "job" then runJob args
      else if str_eqb name "dev" then runDev args
      else if is_help name then Ok (Usage "")
      else Err (UnknownCommand "" name)
  end.
End commands.

(** *** A local cluster *)

Record localWorkerProfile := mkProfile {
  prof_name : string;
  prof_cpuCores : Z;
  prof_memoryGB : Z;
  prof_diskGB : Z;
  prof_gpu : bool;
}.
Definition base_profile (i : nat) : localWorkerProfile :=
  match (i mod 3)%nat with
  | 0%nat => mkProfile "local-small" 2 2 10 false
  | 1%nat => mkProfile "local-medium" 4 5 50 true
  | _ => mkProfile "local-large" 8 12 100 true
  end.
Definition local_profile (i : nat) : localWorkerProfile :=
  let profile := base_profile i in
  if (3 <=? i)%nat
  then mkProfile (prof_name profile +:+ "-" +:+ pretty (S i)) (prof_cpuCores profile) (prof_memoryGB profile)
         (prof_diskGB profile) (prof_gpu profile)
  else profile.
Definition localWorkerProfiles (count : Z) : list localWorkerProfile := local_profile <$> seq 0 (Z.to_nat count).

Section cluster.
Context `{W : World} `{ServerCodecs} `{Dialer} `{ErrorTexts} `{Network} `{!JobTexts} `{!CommandTexts}.
Context `{Files} `{Platform} `{Host} `{RuntimeTexts} `{JsonBody githubRelease} `{DiscoveryCodecs} `{ModelJobCodecs}.
Context `{Machine} `{Processes} `{WorkerCodecs} `{WorkerTexts} `{Facts} `{Bench}.

Definition profile_options (managerURL : string) (benchmark : bool) (profile : localWorkerProfile) : workerOptions :=
  mkWorkerOptions managerURL (prof_name profile) "" (defaultCacheDir +:+ "/" +:+ prof_name profile)
    (mkLimits (prof_cpuCores profile) (gbToBytes (prof_memoryGB profile)) (gbToBytes (prof_diskGB profile))
       (prof_gpu profile) 0 0)
    benchmark true.
(** Each worker runs once; the first error ends the command. *)
Fixpoint run_profiles (fuel : nat) (t : Tag) (managerURL : string) (benchmark : bool) (profiles : list localWorkerProfile)
    : job_m (result run_error unit) :=
  match profiles with
  | [] => mreturn (Ok tt)
  | profile :: profiles =>
      mtry Datatypes.id (workerRun fuel (t ++ [prof_name profile]) (profile_options managerURL benchmark profile) []) (λ _,
      run_profiles fuel t managerURL benchmark profiles)
  end.
Definition runDevLocalCluster (fuel : nat) (t : Tag) (managerURL : string) (workers : Z) (benchmark : bool)
    : job_m (result run_error unit) :=
  run_profiles fuel t managerURL benchmark (localWorkerProfiles workers).
End cluster.
