(* ===== verification/WorkerLife.v ===== *)
(** * From joining to leaving

    The commands of [cmd/cmesh/main.go] against the manager: a worker that runs
    leaves the manager without work of its own, however it ends; the benchmarks end;
    the names of a local cluster differ. *)

From S2P Require Import Prelude GoString GoSort GoFloat World Json Cdip Types Protocol Models State.
From S2P Require Import Conversations Scheduling JobStore FileStore ModelView RpcPool DistributedPlan Views Capacity.
From S2P Require Import Transport Coordinator Http Handlers Demo ModelHandlers Server Access Codec.
From S2P Require Import MatrixJob Prompt HttpTransport Paths Files LlamaCpp Discovery ModelJobs Execute Worker WorkerControl Flags PgStore Commands.

(** ** Nodes stay *)

Section nodes.
Context `{World} `{Codecs}.

Lemma next_loop_nodes s nodeID now jobs : st_nodes (next_loop s nodeID now jobs).1 = st_nodes s.
Proof. induction jobs as [|job jobs IH]; simpl; [done|]. by case_match. Qed.
Lemma cleanup_nodes s job : st_nodes (cleanupModelPersistenceForDeleteJobLocked s job).1 = st_nodes s.
Proof. unfold cleanupModelPersistenceForDeleteJobLocked. repeat case_match; by simplify_eq/=. Qed.
Lemma append_nodes s job now : st_nodes (appendAssistantMessageForJobLocked s job now) = st_nodes s.
Proof. unfold appendAssistantMessageForJobLocked. repeat case_match; by simplify_eq/=. Qed.

Lemma nodes_step_kept now s l k id : state_wf s →
  is_Some (st_nodes s !! id) → is_Some (st_nodes (nodes_step now (s, l) k).1 !! id).
Proof.
  intros Hwf Hid. unfold nodes_step. destruct (st_nodes s !! k) as [node|] eqn:E; [|done]. cbv zeta.
  destruct (_ && _); [|done]. cbn [fst]. destruct (wf_nodes s Hwf _ _ E) as [HID Hne].
  assert (node_ID (deriveNodeStatus s node now) = k) as HID' by (by rewrite deriveNodeStatus_ID).
  cbn [node_ID]. rewrite fail_nodes.
  - simpl. rewrite HID'. destruct (decide (id = k)) as [->|]; [by rewrite lookup_insert_eq|by rewrite lookup_insert_ne].
  - apply state_wf_nodes; [done|by simpl|]. simpl. by rewrite HID'.
Qed.
Lemma Nodes_kept s id : state_wf s → is_Some (st_nodes s !! id) → is_Some (st_nodes (Nodes s).1 !! id).
Proof.
  unfold Nodes. generalize (range_keys ["nodes"%string] (st_nodes s)) ([] : list Node). intros ks. revert s.
  induction ks as [|k ks IH]; intros s l Hwf Hid; cbn [foldl]; [done|].
  pose proof (nodes_step_kept (w_clock ["now"%string]) s l k id Hwf Hid) as Hk.
  destruct (nodes_step_spec (w_clock ["now"%string]) s l k Hwf) as [Hst _].
  destruct (nodes_step _ _ _) as [s1 l1]. apply IH; [by eapply ss_wf|done].
Qed.

(** No operation forgets a node. *)
Lemma exec_keeps_nodes s op id : state_wf s → op_ok op →
  is_Some (st_nodes s !! id) → is_Some (st_nodes (exec s op) !! id).
Proof.
  intros Hwf Hop Hid.
  assert (∀ s' k node, is_Some (st_nodes s !! id) → st_nodes s' = <[k := node]> (st_nodes s) → is_Some (st_nodes s' !! id)) as Hins.
  { intros s' k node Hs ->. destruct (decide (id = k)) as [->|]; [by rewrite lookup_insert_eq|by rewrite lookup_insert_ne]. }
  destruct op; cbn [exec].
  - unfold RegisterWorker. cbv zeta. cbn [fst]. eapply Hins; [done|]. rewrite schedule_keeps_nodes. reflexivity.
  - unfold HeartbeatOp. destruct (st_nodes s !! hb_NodeID hb) eqn:E; [|done]. cbv zeta. cbn [fst].
    eapply Hins; [done|]. rewrite schedule_keeps_nodes. reflexivity.
  - unfold MarkWorkerOffline, markWorkerOfflineLocked. destruct (st_nodes s !! nodeID) eqn:E; [|done]. cbv zeta. cbn [fst].
    destruct (wf_nodes s Hwf _ _ E) as [HID Hne].
    eapply Hins; [done|]. rewrite fail_nodes; [reflexivity|]. apply (state_wf_nodes s); done.
  - unfold PutBenchmark. by case_match.
  - unfold PutRPCHealth. by case_match.
  - unfold CreateJob. by rewrite (proj2 (create_job_step s _ _ req Hwf Hop)).
  - unfold CreateJobsBatch. by rewrite (proj2 (create_loop_step s 0 requests Hwf Hop)).
  - unfold NextJobForWorker. by rewrite next_loop_nodes.
  - unfold UpdateJobProgress. by repeat case_match.
  - unfold UpdateCDIPStageState. by repeat case_match.
  - unfold CompleteCoordinatorJob. by repeat case_match.
  - unfold CompleteJob. destruct (st_jobs s !! jobID) as [job|]; [|done]. cbv zeta.
    repeat (match goal with |- context [if bool_decide ?P then _ else _] => destruct (bool_decide P); [done|] end).
    destruct (negb _); cbn [fst].
    + by rewrite schedule_keeps_nodes.
    + match goal with |- context [cleanupModelPersistenceForDeleteJobLocked ?s0 ?j] =>
        pose proof (cleanup_nodes s0 j) as Hc; rewrite append_nodes in Hc;
        destruct (cleanupModelPersistenceForDeleteJobLocked s0 j) as [s2 [j2|p]] end; simpl in Hc.
      * cbn [fst]. rewrite schedule_keeps_nodes. simpl. by rewrite Hc.
      * cbn [fst]. by rewrite Hc.
  - unfold CancelJob. repeat case_match; try done. cbv zeta. cbn [fst]. by rewrite schedule_keeps_nodes.
  - by apply Nodes_kept.
  - unfold AppendConversationMessage. repeat case_match; by simplify_eq/=.
  - unfold DeleteConversation. by case_match.
  - unfold DeleteMemory. by case_match.
  - unfold UpsertMemory. repeat case_match; by simplify_eq/=.
  - unfold DeleteMemoriesByModel. repeat case_match; by simplify_eq/=.
Qed.
End nodes.

(** ** What every command keeps of the manager *)

Section keeping.
Context `{W : World} `{ServerCodecs} `{Dialer} `{ErrorTexts} `{Network} `{!JobTexts} `{!CommandTexts}.
Context `{Files} `{Platform} `{Host} `{RuntimeTexts} `{JsonBody githubRelease} `{DiscoveryCodecs} `{ModelJobCodecs}.
Context `{Machine} `{Processes} `{WorkerCodecs} `{WorkerTexts} `{Facts} `{Bench}.

(** The manager's state is well formed and knows the worker. *)
Definition knows (nodeID : string) (srv : Server) : Prop :=
  state_wf (srv_state srv) ∧ is_Some (st_nodes (srv_state srv) !! nodeID).

Lemma knows_store_run nodeID s s' :
  store_run op_ok s s' → state_wf s ∧ is_Some (st_nodes s !! nodeID) → state_wf s' ∧ is_Some (st_nodes s' !! nodeID).
Proof.
  induction 1 as [|s1 s2 s3 (W' & op & Hop & ->) _ IH]; [done|]. intros [Hwf Hid]. apply IH. split.
  - eapply ss_wf. by apply (JobStore.exec_step (H := W') s1 op).
  - by apply (exec_keeps_nodes (H := W')).
Qed.
Lemma Do_knows nodeID t ctx method url hdrs body srv :
  knows nodeID srv → knows nodeID (Do t ctx method url hdrs body srv).1.
Proof.
  intros Hk. unfold Do. destruct (ctx_done ctx); [done|].
  destruct (drop_prefix net_base url) as [target|]; [|done].
  assert (∀ p, does op_ok p → knows nodeID (run_prog p srv).1) as Hrun.
  { intros p Hp. destruct (does_run op_ok p srv Hp) as [Hr _]. by apply (knows_store_run nodeID _ _ Hr). }
  destruct (net_fault_of t); [|done|]; destruct (parse_target target) as [path query];
    match goal with |- context [run_prog ?p srv] => specialize (Hrun p (ServeHTTP_does _)); destruct (run_prog p srv) as [srv' [resp| |]] end;
    try exact Hrun; by destruct (ctx_deadline ctx).
Qed.
Lemma call_knows nodeID t method url body srv : knows nodeID srv → knows nodeID (call_manager t method url body srv).1.
Proof.
  intros Hk. unfold call_manager. cbv zeta.
  match goal with |- context [Do t Background method url ?h body srv] =>
    pose proof (Do_knows nodeID t Background method url h body srv Hk) as Hd; destruct (Do t Background method url h body srv) as [srv' [[resp|e]| |]] end;
  exact Hd.
Qed.

Section worker.
Context (nodeID : string).
Local Abbreviation keeping := (keeps (knows nodeID)).

Lemma keeps_manager {A : Type} (call : Server → Server * outcome A) :
  (∀ srv, knows nodeID srv → knows nodeID (call srv).1) → keeping (on_manager call).
Proof. intros Hc s Hs. unfold on_manager. specialize (Hc _ Hs). by destruct (call (site_srv s)) as [srv out]. Qed.
Lemma keeps_call t method url body : keeping (on_manager (call_manager t method url body)).
Proof. apply keeps_manager. intros srv. apply call_knows. Qed.
Lemma keeps_mtry {E A B : Type} (wrap : E → run_error) (m : job_m (result E A)) (k : A → job_m (result run_error B)) :
  keeping m → (∀ a, keeping (k a)) → keeping (mtry wrap m k).
Proof. intros Hm Hk. apply keeps_bind; [done|]. intros [a|e]; [apply Hk|apply keeps_return]. Qed.
Lemma keeps_discover t options : keeping (discoverWorkerResources t options).
Proof. intros s Hs. unfold discoverWorkerResources. by destruct (DiscoverLocal _ _ _). Qed.
Lemma keeps_local fuel t node cacheDir : keeping (local_benchmarks fuel t node cacheDir).
Proof. intros s Hs. unfold local_benchmarks. by destruct (RunLocalBenchmarks _ _ _ _ _) as [[fs results]|]. Qed.
Lemma keeps_submit t i url results : keeping (submit_results t i url results).
Proof.
  revert i. induction results as [|res results IH]; intros i; cbn [submit_results]; [apply keeps_return|].
  apply keeps_mtry; [|intros; apply IH]. apply keeps_manager. intros srv Hs. unfold submitBenchmark.
  destruct (benchmark_text res) as [body|]; [|done].
  match goal with |- context [call_manager ?t ?m ?u ?b srv] =>
    pose proof (call_knows nodeID t m u b srv Hs) as Hc; destruct (call_manager t m u b srv) as [srv' out] end.
  exact Hc.
Qed.
Lemma keeps_status t cacheDir status : keeping (write_status t cacheDir status).
Proof. by intros s Hs. Qed.
Lemma keeps_progress cacheDir node job startedAt url f t w total :
  modelInstallProgressWriter url cacheDir node job startedAt = Some f → keeping (f t w total).
Proof.
  unfold modelInstallProgressWriter. destruct (_ || _); [done|]. intros [= <-] s Hs.
  destruct (_ && _); [done|]. cbv zeta. destruct (blank url); [exact Hs|]. unfold postJobProgress. cbv zeta.
  match goal with |- context [Do ?t ?c ?m ?u ?h ?b ?srv] =>
    pose proof (Do_knows nodeID t c m u h b srv Hs) as Hd; destruct (Do t c m u h b srv) as [srv' [[resp|e]| |]] end;
  exact Hd.
Qed.
Lemma keeps_poll t url node cacheDir snapshot : keeping (pollAndExecuteJob t url node cacheDir snapshot).
Proof.
  apply keeps_bind; [apply keeps_call|]. intros [resp|e]; [|apply keeps_return].
  destruct (read_next _) as [[job|]|]; [|apply keeps_bind; [apply keeps_status|intros; apply keeps_return]|apply keeps_return].
  apply keeps_bind; [apply keeps_status|]. intros _.
  apply keeps_bind; [apply keeps_job; intros; by eapply keeps_progress|]. intros res.
  apply keeps_bind; [apply keeps_call|]. intros [answer|e]; [|apply keeps_return].
  apply keeps_bind; [apply keeps_status|]. intros _.
  apply keeps_bind; [|intros; apply keeps_return].
  intros s Hs. unfold refresh_models. destruct (isModelJobType _); [|done]. cbv zeta.
  match goal with |- context [sendHeartbeat _ _ _ ?r] => generalize r; intros refreshed end. revert s Hs.
  apply keeps_bind; [apply keeps_call|intros; apply keeps_return].
Qed.

(** What others do is store operations. *)
Definition event_ok (ev : loop_event) : Prop :=
  match ev with Meanwhile ops _ => Forall (λ o, op_ok o.2) ops | _ => True end.
Lemma keeps_tick t options node r : keeping (tick_round t options node r).
Proof.
  unfold tick_round. destruct (LastError r); [apply keeps_return|].
  apply keeps_bind; [apply keeps_discover|]. intros snapshot.
  apply keeps_mtry; [apply keeps_call|]. intros _. destruct (PollAvailable r) as [r' [n|e]]; apply keeps_return.
Qed.
Lemma keeps_meanwhile ops fs : Forall (λ o, op_ok o.2) ops → keeping (meanwhile ops fs).
Proof.
  intros Hops s Hs. unfold meanwhile. apply (knows_store_run nodeID (srv_state (site_srv s))); [|exact Hs].
  cbn. generalize (srv_state (site_srv s)). induction Hops as [|[W' op] ops Hop _ IH]; intros st; cbn; [apply rtc_refl|].
  eapply rtc_l; [|apply IH]. by exists W', op.
Qed.
Lemma keeps_loop options node events r : Forall event_ok events → keeping (worker_loop options node events r).
Proof.
  intros He. revert r. induction He as [|ev events Hev _ IH]; intros r; cbn [worker_loop]; [by intros s|].
  destruct ev as [|t|err| |ops fs];
    [apply keeps_return|apply keeps_mtry; [apply keeps_tick|intros; apply IH]|apply IH|by intros s|].
  apply keeps_bind; [by apply keeps_meanwhile|intros; apply IH].
Qed.
Lemma keeps_joined fuel t options node events :
  Forall event_ok events → keeping (joined_worker fuel t options node events).
Proof.
  intros He. apply keeps_bind; [apply keeps_discover|]. intros snapshot.
  apply keeps_mtry; [apply keeps_call|]. intros _. apply keeps_mtry.
  - destruct (wo_runBenchmark options); [|apply keeps_return].
    apply keeps_mtry; [apply keeps_local|intros; apply keeps_submit].
  - intros _. destruct (wo_runOnce options); [apply keeps_mtry; [apply keeps_poll|intros; apply keeps_return]|].
    destruct (PollAvailable _) as [r [n|e]]; [by apply keeps_loop|apply keeps_return].
Qed.
End worker.

(** *** Joining and leaving *)

Lemma plain_app s u : plain_chars (s +:+ u) = plain_chars s && plain_chars u.
Proof. induction s as [|a s IH]; simpl; [done|]. by rewrite IH, andb_assoc. Qed.
Lemma plain_hex s : plain_chars (hex_encode s) = true.
Proof.
  induction s as [|a s IH]; [done|]. cbn [hex_encode]. cbv zeta. rewrite !plain_app, IH, andb_true_r.
  assert (∀ n, (n < 16)%nat → plain_chars (hex_digit n) = true) as Hd.
  { intros n Hn. do 16 (destruct n as [|n]; [reflexivity|]). lia. }
  assert (Ascii.nat_of_ascii a < 256)%nat by apply Ascii.nat_ascii_bounded.
  rewrite !Hd; [done|by apply Nat.mod_upper_bound|apply Nat.Div0.div_lt_upper_bound; lia].
Qed.
Lemma plain_newID buf : plain (newID "node" buf).
Proof.
  unfold newID, plain. destruct buf as [buf|]; [|done]. split; [done|]. rewrite !plain_app, plain_hex. reflexivity.
Qed.

(** The request of a worker, and what the manager makes of it when it gets through. *)
Definition join_request (options : workerOptions) (snapshot : ResourceSnapshot) : JoinRequest :=
  mkJoinRequest (wo_name options) NodeRoleWorker "" (wo_token options) snapshot.
Record joined_as (options : workerOptions) (resp : JoinResponse) (srv srv' : Server) : Prop := {
  ja_plain : plain (joined_NodeID resp);
  ja_token : srv_joinToken srv = ""%string ∨ wo_token options = srv_joinToken srv;
  ja_node : ∃ node, st_nodes (srv_state srv') !! joined_NodeID resp = Some node ∧
    node_Name node = wo_name options ∧ node_Status node = NodeStatusOnline;
  ja_wf : state_wf (srv_state srv');
}.
Lemma join_answer t options snapshot srv :
  state_wf (srv_state srv) → net_fault_of t = Carried → sendable_join (join_request options snapshot) →
  let '(srv', out) := joinWorker t net_base (join_request options snapshot) srv in
  (∃ resp, out = Returned (Ok resp) ∧ joined_as options resp srv srv') ∨
  (∃ e, out = Returned (Err e) ∧ srv' = srv).
Proof.
  intros Hwf Hf Hsend. unfold joinWorker. rewrite call_carried by done.
  rewrite (join_route (W := sub_world t) (mkRequest "POST" "/v1/workers/join" net_base false ∅ (call_headers "POST") ∅
    (join_text (join_request options snapshot)) (net_context t)) eq_refl).
  unfold handleWorkerJoin. change (is_post (mkRequest "POST" _ _ _ _ _ _ _ _)) with true. cbn [negb guard].
  unfold decoded. cbn [rq_Body]. rewrite (join_decodes _ Hsend). cbn [negb guard].
  destruct (bool_decide _) eqn:Hname; cbn [guard run_prog]; [right; by eexists|].
  unfold look. cbn [prog_bind run_prog].
  destruct (negb (str_eqb (srv_joinToken srv) "") && _) eqn:Htok; cbn [guard run_prog]; [right; by eexists|].
  left. unfold store. cbn [prog_bind run_prog RegisterWorker].
  pose proof (RegisterWorker_step (H := sub_world (W := sub_world t) ["join"%string]) _ (join_request options snapshot) Hwf) as Hst.
  match goal with |- context [BodyJoined ?r] => exists r; change (bad_status (reply 201 (BodyJoined r))) with false end.
  split; [cbn [lift_result]; unfold decoded_body; cbn [reply rs_Body]; by rewrite joined_decodes by apply plain_newID|].
  split.
  - apply plain_newID.
  - rewrite andb_false_iff, !negb_false_iff, !bool_decide_eq_true in Htok. exact Htok.
  - eexists. cbn [srv_state]. simpl. rewrite (schedule_keeps_nodes (H := sub_world (W := sub_world t) ["join"%string])).
    simpl. split; [apply lookup_insert_eq|done].
  - by eapply ss_wf.
Qed.

Lemma leave_takes_offline t nodeID srv :
  knows nodeID srv → plain nodeID → net_fault_of t = Carried →
  let '(srv', out) := sendLeave t net_base nodeID srv in
  (∃ resp, out = Returned (Ok resp)) ∧
  not_online (srv_state srv') nodeID ∧ active_on nodeID (st_jobs (srv_state srv')) = 0.
Proof.
  intros [Hwf Hid] Hplain Hf. unfold sendLeave. rewrite call_carried by done.
  set (q := mkRequest _ _ _ _ _ _ _ _ _). change (ServeHTTP q) with (handleWorkerLeave (W := sub_world t) q).
  unfold handleWorkerLeave. change (is_post q) with true. cbn [negb guard].
  unfold decoded. cbn [rq_Body q]. rewrite leave_decodes by (done || apply Hplain). cbn [negb guard leave_NodeID].
  rewrite bool_decide_eq_false_2 by apply Hplain. cbn [guard].
  unfold store. cbn [prog_bind run_prog].
  pose proof (offline_worker_releases_jobs (H := sub_world (W := sub_world t) ["leave"%string]) (srv_state srv) nodeID Hwf) as Ho.
  destruct (MarkWorkerOffline _ _) as [s' known]. cbn [prog_bind run_prog].
  destruct Ho as (Hok & _ & Hoff). rewrite bool_decide_eq_true_2 in Hok by done. subst known. cbn [negb guard run_prog].
  destruct (Hoff eq_refl) as (Hno & Hact & _). by split; [eexists|].
Qed.

(** C10 (safety). A worker that joined leaves nothing behind: at a manager whose
    state is well formed, with options whose join request JSON can carry, and when
    the calls to join and to leave get through, [workerRun] either is refused, which
    changes nothing, or it is recorded online under its name; and however the run
    ends then (interrupted, by an error of a call, a benchmark or a poll, after one
    round, or in a panic of its own goroutine), whatever its polls and other clients
    did meanwhile, the manager then has the worker offline with no job active on it,
    and the error of the run is the one reported. Only a run that does not return,
    such as one whose process a panic in a polling goroutine has ended, tells the
    manager nothing. *)
Theorem worker_leaves_nothing (fuel : nat) (t : Tag) (options : workerOptions) (events : list loop_event) (s : Site) :
  wo_managerURL options = net_base → state_wf (srv_state (site_srv s)) → Forall event_ok events →
  net_fault_of (t ++ ["join"%string]) = Carried → net_fault_of (t ++ ["leave"%string]) = Carried →
  sendable_join (join_request options (DiscoverLocal (t ++ ["resources"%string]) (site_fs s)
    (mkDiscoveryOptions (wo_limits options) (wo_cacheDir options))).2) →
  match join_manager t options s with
  | (s1, Returned (Err e)) =>
      site_srv s1 = site_srv s ∧ workerRun fuel t options events s = (s1, Returned (Err (OnManager e)))
  | (s1, Returned (Ok resp)) =>
      let nodeID := joined_NodeID resp in
      joined_as options resp (site_srv s) (site_srv s1) ∧
      let '(s2, out) := joined_worker fuel (t ++ ["run"%string]) options nodeID events s1 in
      match out with
      | Blocked => workerRun fuel t options events s = (s2, Blocked)
      | _ => ∃ s3, workerRun fuel t options events s = (s3, out) ∧
               not_online (srv_state (site_srv s3)) nodeID ∧ active_on nodeID (st_jobs (srv_state (site_srv s3))) = 0
      end
  | _ => False
  end.
Proof.
  intros Hurl Hwf Hev Hf1 Hf2 Hsend. unfold workerRun, mtry, mbind at 2.
  unfold join_manager, workerJoinRequest, mbind, discoverWorkerResources, mreturn, on_manager.
  destruct (DiscoverLocal _ _ _) as [fs snapshot]. cbn [snd] in Hsend. rewrite Hurl. cbn [site_srv].
  pose proof (join_answer (t ++ ["join"%string]) options snapshot (site_srv s) Hwf Hf1 Hsend) as Hj.
  unfold join_request in Hj. change (site_srv (s <| site_fs := fs |>)) with (site_srv s).
  destruct (joinWorker _ _ _ _) as [srv1 out1].
  destruct Hj as [(resp & -> & Hj)|(e & -> & ->)]; [|done]. cbv zeta. split; [exact Hj|].
  destruct Hj as [Hplain _ (node & Hn & _) Hwf1].
  assert (knows (joined_NodeID resp) srv1) as Hk by (split; [done|by eexists]).
  match goal with |- context [joined_worker _ _ _ _ _ ?s1] =>
    pose proof (keeps_joined (joined_NodeID resp) fuel (t ++ ["run"%string]) options (joined_NodeID resp) events Hev s1 Hk) as Hk2 end.
  unfold with_defer. destruct (joined_worker _ _ _ _ _ _) as [s2 out]. cbn [fst] in Hk2.
  unfold leave, mbind, on_manager, mreturn. rewrite Hurl.
  pose proof (leave_takes_offline (t ++ ["leave"%string]) (joined_NodeID resp) (site_srv s2) Hk2 Hplain Hf2) as Hl.
  destruct (sendLeave _ _ _ _) as [srv3 out3]. destruct Hl as ((answer & ->) & Hno & Hact).
  destruct out as [r| |]; [|done|]; eexists; by split_and!.
Qed.
End keeping.

(** ** The benchmarks end *)

Section benchmarks.
Context `{W : World} `{Files} `{Platform} `{Bench}.

(** The reading before round [k] is the first past the deadline; the time between
    the readings before and after a benchmark. *)
Definition first_past (t : Tag) (deadline : Time) (k : nat) : Prop :=
  deadline ≤ w_clock (t ++ ["tick"%string; pretty k]) ∧
  ∀ i, (i < k)%nat → w_clock (t ++ ["tick"%string; pretty i]) < deadline.
Definition elapsed (t : Tag) : Z := time_Sub (w_clock (t ++ ["end"%string])) (w_clock (t ++ ["start"%string])).

(** A loop ends at the first reading of the clock past the deadline. *)
Lemma timed_loop_ends {A} (n fuel : nat) (t : Tag) (deadline : Time) (round : A → A) (a : A) :
  (n < fuel)%nat → deadline ≤ w_clock (t ++ ["tick"%string; pretty n]) →
  (∀ i, (i < n)%nat → w_clock (t ++ ["tick"%string; pretty i]) < deadline) →
  timed_loop fuel t 0 deadline round a = Some (Nat.iter n round a).
Proof.
  intros Hn Hd Hlt.
  assert (∀ k i a, (i + k = n)%nat → (k < fuel)%nat → ∀ fuel', (k < fuel')%nat →
    timed_loop fuel' t i deadline round a = Some (Nat.iter k round a)) as Hgo.
  { induction k as [|k IH]; intros i b Hi Hk [|fuel'] Hf; [lia| |lia|]; cbn [timed_loop].
    - assert (i = n) as -> by lia. by rewrite (proj2 (Z.ltb_ge _ _) Hd).
    - rewrite (proj2 (Z.ltb_lt _ _) (Hlt i ltac:(lia))). rewrite (IH (S i)) by lia. by rewrite Nat.iter_succ_r. }
  by apply (Hgo n).
Qed.
Lemma timed_loop_some {A} (n fuel : nat) (t : Tag) (deadline : Time) (round : A → A) (a : A) :
  (n < fuel)%nat → deadline ≤ w_clock (t ++ ["tick"%string; pretty n]) →
  ∃ k, first_past t deadline k ∧ timed_loop fuel t 0 deadline round a = Some (Nat.iter k round a).
Proof.
  intros Hn Hd. induction (lt_wf n) as [n _ IH].
  destruct (decide (Forall (λ i, w_clock (t ++ ["tick"%string; pretty i]) < deadline) (seq 0 n))) as [Hall|Hex].
  - assert (∀ i, (i < n)%nat → w_clock (t ++ ["tick"%string; pretty i]) < deadline) as Hlt.
    { intros i Hi. rewrite Forall_forall in Hall. apply Hall, elem_of_seq. lia. }
    exists n. split; [by split|]. by apply timed_loop_ends.
  - apply not_Forall_Exists in Hex; [|apply _]. apply Exists_exists in Hex as (i & Hi & Hnot). apply elem_of_seq in Hi.
    apply (IH i); [lia|lia|by apply Z.nlt_ge].
Qed.

Lemma cpu_steps k x : (Nat.iter k (λ x : Z * Z, (u64 (x.1 + 1024), cpu_round x.1 x.2)) (0, x)).1 = u64 (1024 * Z.of_nat k).
Proof.
  induction k as [|k IH]; [done|]. rewrite Nat.iter_succ. cbn [fst]. rewrite IH. unfold u64.
  rewrite Z.add_mod_idemp_l by done. f_equal. lia.
Qed.
Lemma memory_steps k : Nat.iter k (λ n : Z, u64 (n + memory_size)) 0 = u64 (memory_size * Z.of_nat k).
Proof.
  induction k as [|k IH]; [done|]. rewrite Nat.iter_succ. rewrite IH. unfold u64.
  rewrite Z.add_mod_idemp_l by done. f_equal. lia.
Qed.
Lemma disk_benchmark_files t fs nodeID cacheDir :
  changes (λ k, k = at_path (bench_file cacheDir)) fs (runDiskBenchmark t fs nodeID cacheDir).1.
Proof.
  unfold runDiskBenchmark. cbv zeta.
  match goal with |- context [os_WriteFile ?t ?fs ?p ?d] => pose proof (WriteFile_spec t fs p d) as Hw; destruct (os_WriteFile t fs p d) as [fs1 [e|]] end;
    destruct Hw as [Hw _]; [exact Hw|].
  destruct (os_ReadFile _ _ _); [|exact Hw]. cbn [fst].
  match goal with |- context [os_Remove ?t ?fs ?p] => pose proof (Remove_spec t fs p) as Hr; destruct (os_Remove t fs p) as [fs2 err] end.
  destruct Hr as [Hr _]. by eapply changes_trans.
Qed.
Lemma disk_benchmark_result t fs nodeID cacheDir r :
  (runDiskBenchmark t fs nodeID cacheDir).2 = Ok r → bench_NodeID r = nodeID ∧ bench_Kind r = "disk"%string ∧
    bench_Duration r = elapsed t ∧
    bench_Score r = f_div (f_div (f_div (f_of_Z (32 * 2^20)) (Seconds (elapsed t))) (f_of_Z 1024)) (f_of_Z 1024).
Proof.
  unfold runDiskBenchmark. cbv zeta. destruct (os_WriteFile _ _ _ _) as [fs1 [e|]]; [done|].
  destruct (os_ReadFile _ _ _); [|done]. by intros [= <-].
Qed.

(** C37 (termination). The benchmarks of a worker end as soon as the clock has passed their
    deadlines (three quarters of a second of hashing, half a second of copying),
    however the calls on files fail; they touch nothing but [benchmark.tmp] and make
    missing directories above it; and their results are the three benchmarks of
    the node, each with the time between its readings of the clock: the first is
    scored by 1024 steps and the second by 64 MB for each round begun before the
    first reading past the deadline, the third by 32 MB. *)
Theorem benchmarks_end (n m fuel : nat) (t : Tag) (fs : tree) (nodeID cacheDir : string) :
  let cpu_t := t ++ ["cpu"%string] in let mem_t := t ++ ["memory"%string] in
  w_clock (cpu_t ++ ["start"%string]) + 750 * Millisecond ≤ w_clock (cpu_t ++ ["tick"%string; pretty n]) →
  w_clock (mem_t ++ ["start"%string]) + 500 * Millisecond ≤ w_clock (mem_t ++ ["tick"%string; pretty m]) →
  (n < fuel)%nat → (m < fuel)%nat →
  ∃ fs' out, RunLocalBenchmarks fuel t fs nodeID cacheDir = Some (fs', out) ∧
    (∀ p, p ≠ at_path (bench_file cacheDir) →
      fs' !! p = fs !! p ∨ (fs !! p = None ∧ fs' !! p = Some EDir ∧ below p (at_path cacheDir) = true)) ∧
    match out with
    | Err _ => True
    | Ok results => ∃ cpu memory disk k l, results = [cpu; memory; disk] ∧
        bench_Kind <$> results = ["cpu"; "memory"; "disk"]%string ∧
        Forall (λ r, bench_NodeID r = nodeID ∧ bench_CreatedAt r = w_clock (t ++ ["now"%string])) results ∧
        bench_Duration <$> results = [elapsed cpu_t; elapsed mem_t; elapsed (t ++ ["disk"%string])] ∧
        first_past cpu_t (w_clock (cpu_t ++ ["start"%string]) + 750 * Millisecond) k ∧
        first_past mem_t (w_clock (mem_t ++ ["start"%string]) + 500 * Millisecond) l ∧
        let per_second total r := f_div (f_of_Z total) (Seconds (bench_Duration r)) in
        bench_Score cpu = f_div (per_second (u64 (1024 * Z.of_nat k)) cpu) (f_of_Z 1000000) ∧
        bench_Score memory =
          f_div (f_div (f_div (per_second (u64 (64 * 2^20 * Z.of_nat l)) memory) (f_of_Z 1024)) (f_of_Z 1024)) (f_of_Z 1024) ∧
        bench_Score disk = f_div (f_div (per_second (32 * 2^20) disk) (f_of_Z 1024)) (f_of_Z 1024)
    end.
Proof.
  intros cpu_t mem_t Hn Hm Hfn Hfm. unfold RunLocalBenchmarks.
  set (made := if str_eqb cacheDir "" then (fs, None) else os_MkdirAll (t ++ ["mkdir"%string]) fs cacheDir).
  assert (∀ p, made.1 !! p = fs !! p ∨ (fs !! p = None ∧ made.1 !! p = Some EDir ∧ below p (at_path cacheDir) = true)) as Hmade.
  { intros p. unfold made. case_bool_decide; [by left|].
    pose proof (MkdirAll_spec (t ++ ["mkdir"%string]) fs cacheDir) as Hmk. destruct (os_MkdirAll _ _ _) as [fs1 err].
    destruct Hmk as (_ & [Ho _] & _ & Hk). destruct (Hk p) as [?|[Hnone Hdir]]; [by left|right]. split_and!; [done..|].
    destruct (below p (at_path cacheDir)) eqn:Eb; [done|]. cbn in Hdir. rewrite (Ho p) in Hdir; congruence. }
  destruct made as [fs1 [e|]]; cbn [fst] in Hmade; [by exists fs1, (Err e)|]. cbv zeta. unfold runCPUBenchmark, runMemoryBenchmark.
  destruct (timed_loop_some n fuel cpu_t (w_clock (cpu_t ++ ["start"%string]) + 750 * Millisecond)
    (λ x, (u64 (x.1 + 1024), cpu_round x.1 x.2)) (0, 1469598103934665603) Hfn Hn) as (k & Hk & Ecpu).
  fold cpu_t mem_t. rewrite Ecpu.
  destruct (timed_loop_some m fuel mem_t (w_clock (mem_t ++ ["start"%string]) + 500 * Millisecond)
    (λ n, u64 (n + memory_size)) 0 Hfm Hm) as (l & Hl & Emem).
  pose proof (cpu_steps k 1469598103934665603) as Hsteps. destruct (Nat.iter k _ _) as [iterations value]. simpl in Hsteps.
  rewrite Emem, memory_steps. subst iterations.
  pose proof (disk_benchmark_files (t ++ ["disk"%string]) fs1 nodeID cacheDir) as [Hd _].
  pose proof (disk_benchmark_result (t ++ ["disk"%string]) fs1 nodeID cacheDir) as Hres.
  cbn [mbind option_bind]. destruct (runDiskBenchmark _ _ _ _) as [fs2 disk]. cbn [fst snd] in Hd, Hres.
  eexists fs2, _. split; [reflexivity|]. split.
  { intros p Hp. rewrite (Hd p Hp). apply Hmade. }
  destruct disk as [disk|e]; [|done]. destruct (Hres disk eq_refl) as (Hid & Hkind & Hdur & Hscore). cbn.
  eexists _, _, _, k, l. split; [reflexivity|]. cbn. rewrite Hkind, Hdur, Hscore. split_and!; try done.
  repeat constructor; done.
Qed.
End benchmarks.

(** ** Arguments *)

Section arguments.
Context `{W : World} `{Facts} `{Surroundings} `{Host} `{Platform} `{Machine} `{Json matrixMultiplyInput} `{Json matrixMultiplyResult}.

(** C23 (roundtrip). The program reads what the worker control wrote: called with the
    arguments of a configuration that the control accepts, and whose graphics memory
    is not negative, it runs a worker whose options are the configuration's address,
    name, token, directory, limits (in bytes) and switches. *)
Theorem control_starts_worker (cfg : Config) :
  validateConfig cfg = None → config_ints cfg → 0 ≤ cfg_VRAMGB cfg →
  run (workerArgs cfg) = Ok (WorkerRun (config_options cfg)).
Proof.
  intros Hv Hi Hvram. destruct (control_args_read_back cfg Hv Hi Hvram) as (rest & -> & Hp).
  change (run ("worker" :: "run" :: rest)%string) with (worker_command WorkerRun rest).
  unfold worker_command. by rewrite Hp.
Qed.
End arguments.

(** The workers of a local cluster have different names, each within its limits. *)
Lemma append_inj s u v : (s +:+ u) = (s +:+ v) → u = v.
Proof. induction s as [|a s IH]; simpl; [done|]. by intros [= ?%IH]. Qed.
Lemma local_profile_inj i j : prof_name (local_profile i) = prof_name (local_profile j) → i = j.
Proof.
  unfold local_profile, base_profile.
  pose proof (Nat.mod_upper_bound i 3 ltac:(done)) as Hi. pose proof (Nat.mod_upper_bound j 3 ltac:(done)) as Hj.
  pose proof (Nat.Div0.div_mod i 3) as Di. pose proof (Nat.Div0.div_mod j 3) as Dj.
  destruct (Nat.leb_spec 3 i), (Nat.leb_spec 3 j);
    destruct (i mod 3)%nat as [|[|[|?]]]; try lia; destruct (j mod 3)%nat as [|[|[|?]]]; try lia; cbn [prof_name];
    intros E; try (simpl in E; discriminate E); try lia.
  all: apply append_inj in E; injection E as E; apply (inj pretty) in E; lia.
Qed.

(** (functional). The workers of a local cluster are as many as asked for, their names
    and so their cache directories all differ, and each is given cores, memory, disk
    and one slot. *)
Theorem local_cluster_differs `{Host, Platform} (managerURL : string) (workers : Z) (benchmark : bool) :
  let options := profile_options managerURL benchmark <$> localWorkerProfiles workers in
  Z.of_nat (length options) = Z.max 0 workers ∧ NoDup (wo_name <$> options) ∧ NoDup (wo_cacheDir <$> options) ∧
  Forall (λ o, wo_runOnce o = true ∧ 0 < lim_CPUCores (wo_limits o) ∧ 0 < lim_MemoryBytes (wo_limits o) ∧
               0 < lim_DiskBytes (wo_limits o)) options.
Proof.
  cbv zeta. assert (NoDup (prof_name <$> localWorkerProfiles workers)) as Hnd.
  { unfold localWorkerProfiles. rewrite <- list_fmap_compose. apply NoDup_fmap_2_strong; [|apply NoDup_seq].
    intros i j _ _. apply local_profile_inj. }
  split_and!.
  - unfold localWorkerProfiles. rewrite !length_fmap, length_seq. lia.
  - rewrite <- list_fmap_compose. exact Hnd.
  - rewrite <- list_fmap_compose.
    rewrite (list_fmap_ext _ ((λ s, defaultCacheDir +:+ "/" +:+ s) ∘ prof_name)) by done.
    rewrite list_fmap_compose. apply NoDup_fmap_2_strong; [|done]. intros x y _ _. by intros ?%append_inj%append_inj.
  - apply Forall_fmap, Forall_fmap, Forall_forall. intros i _. cbn. unfold local_profile, base_profile.
    destruct (3 <=? i)%nat, (i mod 3)%nat as [|[|[|?]]]; by vm_compute.
Qed.

(** ** Worked examples *)

Section demo.
(** Texts of bits, for the bodies that are read back whole. *)
Definition bit (b : bool) : Ascii.ascii := Ascii.ascii_of_nat (if b then 49 else 48).
Fixpoint bits_text (p : positive) : string :=
  match p with xH => "" | xO p => String (bit false) (bits_text p) | xI p => String (bit true) (bits_text p) end.
Fixpoint text_bits (s : string) : positive :=
  match s with EmptyString => xH | String a s => if Ascii.eqb a (bit true) then xI (text_bits s) else xO (text_bits s) end.
Lemma bits_read p : text_bits (bits_text p) = p.
Proof. induction p as [p IH|p IH|]; simpl; by rewrite ?IH. Qed.
Definition leave_bits (r : LeaveRequest) : string := bits_text (encode (leave_NodeID r, leave_At r)).
Definition read_leave (s : string) : LeaveRequest * bool :=
  match decode (text_bits s) with Some (id, now) => (mkLeaveRequest id now, true) | None => (mkLeaveRequest "" 0, false) end.
Definition joined_bits (r : JoinResponse) : string :=
  bits_text (encode (joined_NodeID r, joined_ManagerPeers r, joined_HeartbeatEvery r)).
Definition joined_read (s : string) : option JoinResponse :=
  '(id, peers, every) ← decode (text_bits s); Some (mkJoinResponse id peers every).
Lemma joined_bits_read r : joined_read (joined_bits r) = Some r.
Proof. unfold joined_read, joined_bits. rewrite bits_read, decode_encode. by destruct r. Qed.

#[local] Existing Instance silent_network.
#[local] Existing Instance no_texts.
#[local] Existing Instance demo_files.
#[local] Existing Instance jobs_world.
#[local] Existing Instance jobs_platform.
#[local] Existing Instance jobs_host.
#[local] Existing Instance jobs_codecs.
#[local] Existing Instance jobs_discovery.
#[local] Existing Instance round_release.
#[local] Existing Instance round_errors.
#[local] Existing Instance round_runtime.
#[local] Existing Instance round_machine.
#[local] Existing Instance round_process.
#[local] Existing Instance round_json.
#[local] Existing Instance round_net.
#[local] Instance life_facts : Facts := {| num_cpu := 4; statfs _ := None; command_output _ := None |}.
#[local] Instance life_bench : Bench := {| gomaxprocs := 4; rand_text _ _ := "noise"%string |}.
Definition life_options : workerOptions :=
  mkWorkerOptions "http://manager" "n" "" "c" (mkLimits 2 (gbToBytes 2) (gbToBytes 4) false 0 1) false false.
Definition life_site : Site := mkSite demo_cached (NewServerWithOptions (mkServerOptions "" "" "") (NewState 1)) 0.
Definition life_snapshot : ResourceSnapshot :=
  (DiscoverLocal (["w"%string] ++ ["resources"%string]) (site_fs life_site)
     (mkDiscoveryOptions (wo_limits life_options) (wo_cacheDir life_options))).2.
Definition life_id : string :=
  newID "node" (w_rand (World := sub_world (W := sub_world ["w"; "join"]%string) ["join"%string]) ["node"%string]).
#[local] Instance life_codecs : ServerCodecs :=
  let c := demo_server_codecs (join_request life_options life_snapshot) (mkGenerateRequest "" "" "" "" 0 "") (demo_stage "a" "c")
    (demo_frame "p" "s" "x") (mkCompleteRequest "" "" "") in {|
  s_views := @s_views c; s_upper := @s_upper c; s_floats := @s_floats c; s_cleanup := @s_cleanup c;
  s_stage_result := @s_stage_result c; b_join := @b_join c;
  b_heartbeat := {| Decode _ := (mkHeartbeat life_id 0 life_snapshot, true) |};
  b_leave := {| Decode := read_leave |};
  b_benchmark := @b_benchmark c; b_cluster_benchmark := @b_cluster_benchmark c; b_snapshot := @b_snapshot c;
  b_create := @b_create c; b_complete := @b_complete c; b_progress := @b_progress c; b_node := @b_node c;
  b_generate := @b_generate c; b_distributed := @b_distributed c; b_memory := @b_memory c; b_detail := @b_detail c;
  b_advance := @b_advance c; b_step := @b_step c; b_output := @b_output c; b_frame := @b_frame c;
  Decode_int := @Decode_int c |}.
#[local] Instance life_job_texts : JobTexts := {|
  response_text b := match b with BodyJoined r => joined_bits r | _ => ""%string end;
  read_next _ := Some None; report_text _ := "x"%string; heartbeat_text _ := "x"%string; progress_text _ := "x"%string;
  sendable_job j := j = None; sendable_report r := r = mkCompleteRequest "" "" "";
  read_next_decodes j Hj := f_equal Some (eq_sym Hj);
  report_decodes r Hr := f_equal (λ x, (x, true)) (eq_sym Hr) |}.
Lemma leave_bits_read nodeID now : read_leave (leave_bits (mkLeaveRequest nodeID now)) = (mkLeaveRequest nodeID now, true).
Proof. unfold read_leave, leave_bits. by rewrite bits_read, decode_encode. Qed.
#[local] Instance life_texts : CommandTexts := {|
  join_text _ := "x"%string; leave_text := leave_bits; benchmark_text _ := None; create_text _ := ""%string;
  read_joined := joined_read; read_job _ := None; read_jobs _ := None;
  sendable_join r := r = join_request life_options life_snapshot;
  join_decodes r Hr := f_equal (λ x, (x, true)) (eq_sym Hr);
  leave_decodes nodeID now _ _ := leave_bits_read nodeID now;
  joined_decodes r _ := joined_bits_read r |}.

(** A worker joins, sends a heartbeat, is interrupted and leaves. *)
Definition life_events : list loop_event := [Ticked ["t"%string]; PollEnded None; Interrupted].
Lemma life_event_ok : Forall event_ok life_events.
Proof. by repeat constructor. Qed.
Lemma life_wf : state_wf (srv_state (site_srv life_site)).
Proof. split; [done|]. by intros ? ? ?. Qed.
Definition life_joined : Site := (join_manager ["w"%string] life_options life_site).1.
Definition life_response : JoinResponse := mkJoinResponse life_id ["http://127.0.0.1:8080"%string] (10 * Second).
Lemma life_joins : join_manager ["w"%string] life_options life_site = (life_joined, Returned (Ok life_response)).
Proof. unfold life_joined. rewrite (surjective_pairing (join_manager _ _ _)) at 1. apply pair_equal_spec. split; [done|by vm_compute]. Qed.
Definition life_body : Site * outcome (result run_error unit) :=
  joined_worker 0 (["w"%string] ++ ["run"%string]) life_options (joined_NodeID life_response) life_events life_joined.
Lemma life_runs : life_body = (life_body.1, Returned (Ok tt)).
Proof. rewrite (surjective_pairing life_body) at 1. apply pair_equal_spec. split; [done|by vm_compute]. Qed.
Lemma worker_leaves_nothing_witness :
  ∃ s3, workerRun 0 ["w"%string] life_options life_events life_site = (s3, Returned (Ok tt)) ∧
    not_online (srv_state (site_srv s3)) life_id.
Proof.
  pose proof (worker_leaves_nothing 0 ["w"%string] life_options life_events life_site eq_refl life_wf life_event_ok
    eq_refl eq_refl eq_refl) as H.
  rewrite life_joins in H. destruct H as [_ H].
  change (joined_worker _ _ _ _ _ _) with life_body in H. rewrite life_runs in H.
  destruct H as (s3 & Hrun & Hno & _). exists s3. split; [exact Hrun|exact Hno].
Defined.

(** After a panic in a poll the manager still takes the worker for online. *)
Example poll_panic_leaves_worker_online :
  let '(s, out) := workerRun 0 ["w"%string] life_options [Ticked ["t"%string]; PollPanicked; Interrupted] life_site in
  out = Blocked ∧ node_Status <$> st_nodes (srv_state (site_srv s)) !! life_id = Some NodeStatusOnline.
Proof. vm_compute. done. Qed.

(** A clock that passes the deadlines after one round. *)
Definition ticking_world : World := {|
  w_clock t := if existsb (λ x, str_eqb "start" x) t then 0 else if existsb (λ x, str_eqb "0" x) t then 100 else 1000 * Millisecond;
  w_perm t := λ A, @w_perm jobs_world t A; w_perm_ok t A l := @w_perm_ok jobs_world t A l;
  w_rand t := @w_rand jobs_world t; w_fconv := @w_fconv jobs_world |}.
Lemma benchmarks_end_witness :
  ∃ fs' out, RunLocalBenchmarks (W := ticking_world) 2 ["b"%string] demo_cached "n" "c" = Some (fs', out).
Proof.
  assert (H1 : (1 < 2)%nat) by lia.
  assert (Hcpu : w_clock (World := ticking_world) ((["b"%string] ++ ["cpu"%string]) ++ ["start"%string]) + 750 * Millisecond
    ≤ w_clock (World := ticking_world) ((["b"%string] ++ ["cpu"%string]) ++ ["tick"%string; pretty 1%nat])) by (vm_compute; discriminate).
  assert (Hmem : w_clock (World := ticking_world) ((["b"%string] ++ ["memory"%string]) ++ ["start"%string]) + 500 * Millisecond
    ≤ w_clock (World := ticking_world) ((["b"%string] ++ ["memory"%string]) ++ ["tick"%string; pretty 1%nat])) by (vm_compute; discriminate).
  destruct (benchmarks_end (W := ticking_world) 1 1 2 ["b"%string] demo_cached "n" "c" Hcpu Hmem H1 H1)
    as (fs' & out & Hrun & _ & _).
  exists fs', out. exact Hrun.
Defined.

#[local] Existing Instance flag_around.
#[local] Instance life_matrix_input : Json matrixMultiplyInput := opaque_codec _.
#[local] Instance life_matrix_result : Json matrixMultiplyResult := opaque_codec _.
Lemma control_starts_worker_witness :
  run (workerArgs (demo_config 6)) = Ok (WorkerRun (config_options (demo_config 6))).
Proof.
  assert (Hv : validateConfig (demo_config 6) = None) by (vm_compute; reflexivity).
  assert (Hp : 0 ≤ 6) by lia.
  exact (control_starts_worker (demo_config 6) Hv demo_config_ints Hp).
Defined.

(** A disk benchmark whose duration the clock does not show has an infinite score,
    which JSON cannot carry. *)
Example infinite_score :
  (λ r, f_lt (f_of_Z (2^62)) (bench_Score r)) <$>
    match (runDiskBenchmark ["d"%string] demo_cached "n" "c").2 with Ok r => Some r | Err _ => None end = Some true.
Proof. by vm_compute. Qed.
(** The disk benchmark writes over a file of the user and removes it. *)
Example benchmark_file_lost :
  let fs := <[at_path (bench_file "c") := EFile "mine" 1]> demo_cached in
  (runDiskBenchmark ["d"%string] fs "n" "c").1 !! at_path (bench_file "c") = None.
Proof. by vm_compute. Qed.
(** Commands of arguments. *)
Example parsed_commands :
  run ["manager"; "start"; "--memory"; "--database-url"; "db"]%string =
    Ok (ManagerStart ":8080" (mkServerOptions "" "" "") InMemory) ∧
  run ["manager"; "start"; "--database-url=db"]%string = Ok (ManagerStart ":8080" (mkServerOptions "" "" "") (InPostgres "db")) ∧
  run ["job"; "get"]%string = Err JobIDRequired ∧ run ["nope"]%string = Err (UnknownCommand "" "nope") ∧
  run ["dev"; "local-cluster"; "--workers"; "0"]%string = Err WorkersNotPositive ∧
  run ["worker"; "help"]%string = Ok (Usage "worker").
Proof. by vm_compute. Qed.
End demo.
