(* ===== verification/JobText.v ===== *)
(** * What the dashboard says about jobs

    [internal/manager/server.go], the functions behind the template of the
    dashboard that turn a job, a conversation, a memory or a worker's runtimes into
    a line of text.  The template itself is not modelled. *)

From S2P Require Import Prelude GoString GoSort GoFloat World Json Cdip Types Protocol Models State.
From S2P Require Import Conversations Scheduling JobStore ModelView RpcPool DistributedPlan Views MatrixJob.

(** ** Numbers and times *)

Definition to_gb (x : float64) : float64 := let k := f_of_Z 1024 in f_div (f_div (f_div x k) k) k.
(** [%.1f] of a number of bytes in GB. *)
Definition gb1 (x : float64) : string := f_fmt1 (to_gb x).
Definition f_units (m : positive) (e : Z) : Z :=
  if 0 <=? e then Z.pos m * 2^e
  else let q := Z.pos m / 2^(-e) in
       let r := Z.pos m mod 2^(-e) in
       if 2 * r <? 2^(-e) then q
       else if 2^(-e) <? 2 * r then q + 1
       else if Z.even q then q else q + 1.
(** The [%.0f] verb. *)
Definition f_fmt0 (x : float64) : string :=
  match x with
  | S754_nan => "NaN"
  | S754_infinity s => if s then "-Inf" else "+Inf"
  | S754_zero s => if s then "-0" else "0"
  | S754_finite s m e => (if s then "-" else "") +:+ Itoa (f_units m e)
  end.

Definition Minute : Z := 60 * Second.
Definition Hour : Z := 60 * Minute.
(** [Duration.Minutes] and [Duration.Hours] *)
Definition in_units (unit d : Z) : float64 := f_add (f_of_Z (Z.quot d unit)) (f_div (f_of_Z (Z.rem d unit)) (f_of_Z unit)).

(** [Duration.Round(time.Second)] and [Duration.String], of a minute or more. *)
Definition round_seconds (d : Z) : Z :=
  let r := d mod Second in
  if r + r <? Second then d - r else if d + Second - r <? 2^63 then d + Second - r else 2^63 - 1.
Definition whole_text (d : Z) : string :=
  if d =? 2^63 - 1 then "2562047h47m16.854775807s"
  else
    let total := d / Second in
    let minutes := Itoa (total / 60 mod 60) +:+ "m" +:+ Itoa (total mod 60) +:+ "s" in
    if 0 <? total / 3600 then Itoa (total / 3600) +:+ "h" +:+ minutes else minutes.
Definition formatDuration (value : Z) : string :=
  if value <? 0 then "-"
  else if value <? Second then Itoa (Milliseconds value) +:+ " ms"
  else if value <? Minute then f_fmt1 (Seconds value) +:+ " s"
  else whole_text (round_seconds value).

(** [Format("15:04")] and [formatClock], of a time in UTC. *)
Definition clock_minutes (t : Time) : string :=
  let sod := (t / Second) mod 86400 in pad 2 (sod / 3600) +:+ ":" +:+ pad 2 (sod / 60 mod 60).
Definition formatClock (t : Time) : string :=
  if IsZero t then "-" else clock_minutes t +:+ ":" +:+ pad 2 ((t / Second) mod 60) +:+ " UTC".

(** The age of a heartbeat at [now]. *)
Definition heartbeatAge (now t : Time) : string :=
  if IsZero t then "-"
  else
    let age := Z.max 0 (time_Sub now t) in
    if age <? Minute then f_fmt0 (Seconds age) +:+ "s ago"
    else if age <? Hour then f_fmt0 (in_units Minute age) +:+ "m ago"
    else f_fmt1 (in_units Hour age) +:+ "h ago".

(** ** Conversations, memories, workers *)

Definition dot : string := " · ".
Definition parts_or_dash (separator : string) (parts : list string) : string :=
  match parts with [] => "-" | _ => Join parts separator end.
(** A part that is there when a text is not empty, or a time not zero. *)
Definition text_part (s : string) : list string := if str_eqb s "" then [] else [s].
Definition time_part (t : Time) : list string := if IsZero t then [] else [clock_minutes t].

Definition memoryLabel (memory : Memory) : string := if str_eqb (memo_Key memory) "" then "-" else memo_Key memory.
Definition memorySubtitle (memory : Memory) : string :=
  parts_or_dash dot (text_part (memo_ModelID memory) ++ time_part (memo_UpdatedAt memory)).
Definition conversationSubtitle (conversation : Conversation) : string :=
  parts_or_dash dot (text_part (conv_ModelID conversation) ++ text_part (conv_NodeID conversation)
                     ++ time_part (conv_UpdatedAt conversation)).
Definition runtime_detail (runtime : RuntimeResource) : string :=
  rt_Name runtime +:+ " " +:+ (if rt_Ready runtime then "ready" else "missing")
  +:+ (if str_eqb (rt_Version runtime) "" then "" else " " +:+ rt_Version runtime)
  +:+ (if str_eqb (rt_Source runtime) "" then "" else " (" +:+ rt_Source runtime +:+ ")")
  +:+ (if negb (str_eqb (rt_Error runtime) "") && negb (rt_Ready runtime) then ": " +:+ rt_Error runtime else "").
Definition runtimeSummary (runtimes : list RuntimeResource) : string :=
  match runtimes with [] => "not reported" | _ => Join (runtime_detail <$> runtimes) "; " end.
Definition shortValueID (value : string) : string :=
  if (String.length value <=? 12)%nat then value else String.substring 0 12 value.

(** ** Jobs *)

Definition jobDuration (job : Job) : string :=
  if IsZero (job_StartedAt job) then "-"
  else
    let end_ := if IsZero (job_FinishedAt job) then job_UpdatedAt job else job_FinishedAt job in
    if IsZero end_ || (end_ <? job_StartedAt job) then "-" else formatDuration (time_Sub end_ (job_StartedAt job)).
Definition jobTimeline (job : Job) : string :=
  Join (["created " +:+ formatClock (job_CreatedAt job)]
        ++ (if IsZero (job_StartedAt job) then [] else ["started " +:+ formatClock (job_StartedAt job)])
        ++ (if IsZero (job_FinishedAt job) then [] else ["finished " +:+ formatClock (job_FinishedAt job)])) " / ".
Definition bytes_gb (bytes : Z) : string := gb1 (f_of_Z bytes).
Definition jobRequirements (job : Job) : string :=
  let req := job_Requirements job in
  parts_or_dash ", "
    ((if 0 <? req_CPUCores req then [Itoa (req_CPUCores req) +:+ " CPU"] else [])
     ++ (if 0 <? req_MemoryBytes req then [bytes_gb (req_MemoryBytes req) +:+ " GB RAM"] else [])
     ++ (if 0 <? req_DiskBytes req then [bytes_gb (req_DiskBytes req) +:+ " GB disk"] else [])
     ++ (if req_GPURequired req then ["GPU"%string] else [])
     ++ (if 0 <? req_VRAMBytes req then [bytes_gb (req_VRAMBytes req) +:+ " GB VRAM"] else [])).

Definition distributedRPCExecutionResultText (result : DistributedRPCExecutionResult) : string :=
  let endpoints := Z.of_nat (length (er_RPCEndpoints result)) in
  Join (["Distributed RPC"%string]
        ++ (if 0 <? er_DurationMS result then [Itoa (er_DurationMS result) +:+ " ms"] else [])
        ++ (if 0 <? er_RPCEndpointCount result then [Itoa (er_RPCEndpointCount result) +:+ " endpoint(s)"]
            else if 0 <? endpoints then [Itoa endpoints +:+ " endpoint(s)"] else [])
        ++ (if blank (er_Runtime result) then [] else [er_Runtime result])
        ++ (if blank (er_PlanID result) then [] else ["plan " +:+ shortValueID (er_PlanID result)])) dot.

(** Fields of a decoded result. *)
Definition payload := gmap string any.
Definition numberResult (result : payload) (key : string) : float64 :=
  match result !! key with Some (any_float f) => f | Some (any_int z) => f_of_Z z | _ => f_zero end.
Definition text_field (result : payload) (key : string) : option string :=
  match result !! key with Some (any_string s) => Some s | _ => None end.
Definition true_field (result : payload) (key : string) : bool :=
  match result !! key with Some (any_other text) => str_eqb text "true" | _ => false end.

Section jobs.
Context `{World} `{ViewCodecs}.

(** A text for a positive number. *)
Definition count_part (result : payload) (key prefix suffix : string) : list string :=
  let n := f_trunc_to_int (- 2^63) (2^63) w_fconv (numberResult result key) in
  if 0 <? n then [prefix +:+ Itoa n +:+ suffix] else [].
Definition size_part (result : payload) (key prefix : string) : list string :=
  let x := numberResult result key in
  if f_lt f_zero x then [prefix +:+ gb1 x +:+ " GB"] else [].
Definition flag_part (result : payload) (key text : string) : list string := if true_field result key then [text] else [].

Definition jobProgress (job : Job) : string :=
  if blank (job_Result job) then "" else
  match Unmarshal_map (job_Result job) with
  | None => ""
  | Some result =>
      let result := default ∅ result in
      if negb (str_eqb (default ""%string (text_field result "kind")) "job.progress") then ""
      else
        let label := default ""%string (text_field result "progress_label") in
        let label := if blank label then "Running"%string else label in
        let written := numberResult result "progress_bytes" in
        let total := numberResult result "total_bytes" in
        let percent := numberResult result "progress_percent" in
        if f_lt f_zero total
        then label +:+ " " +:+ f_fmt1 percent +:+ "%" +:+ dot +:+ gb1 written +:+ " / " +:+ gb1 total +:+ " GB"
        else if f_lt f_zero written then label +:+ dot +:+ gb1 written +:+ " GB"
        else label
  end.

Definition repair_parts (result : payload) : list string :=
  ["Model repaired"%string] ++ flag_part result "reinstalled" "reinstalled"
  ++ flag_part result "manifest_repaired" "manifest repaired" ++ flag_part result "temp_cleaned" "partial download removed"
  ++ size_part result "bytes" "".
Definition cleanup_parts (result : payload) : list string :=
  ["Model cache cleaned"%string] ++ count_part result "partial_files_removed" "removed " " partial file(s)"
  ++ count_part result "orphan_dirs_removed" "removed " " orphan dir(s)"
  ++ count_part result "stale_manifests_removed" "removed " " stale manifest(s)"
  ++ size_part result "total_bytes_removed" "freed ".
Definition delete_parts (result : payload) : list string :=
  ["Model files removed"%string] ++ size_part result "freed_bytes" "freed "
  ++ count_part result "deleted_memories" "cleared " " memory item(s)"
  ++ count_part result "deleted_conversations" "cleared " " conversation(s)".

Definition present (text : option string) : option string :=
  match text with Some s => if blank s then None else Some s | None => None end.
Definition jobDetail (job : Job) : string :=
  if negb (str_eqb (job_Error job) "") then job_Error job
  else if str_eqb (job_Result job) "" then
    if str_eqb (job_AssignedTo job) "" then
      if negb (str_eqb (job_LastFailure job) "") then job_LastFailure job else "Waiting for a capable worker."
    else "Waiting for worker result."
  else
    match Unmarshal_map (job_Result job) with
    | None => job_Result job
    | Some result =>
        let result := default ∅ result in
        match distributedRPCExecutionResult job with
        | Some trace => distributedRPCExecutionResultText trace
        | None =>
            match present (text_field result "output") with
            | Some output => output
            | None =>
                let progress := jobProgress job in
                if negb (str_eqb progress "") then progress
                else if str_eqb (job_Type job) JobRepair then Join (repair_parts result) "; "
                else if str_eqb (job_Type job) JobCleanup then Join (cleanup_parts result) "; "
                else if str_eqb (job_Type job) JobDelete then Join (delete_parts result) "; "
                else match present (text_field result "worker_runtime") with
                     | Some runtime => "Completed on " +:+ runtime
                     | None => "Completed."
                     end
            end
        end
    end.
End jobs.

(** ** The functions of the template itself *)

Section template_functions.
Context `{World} `{ViewCodecs}.

Definition jobOutput (job : Job) : string :=
  if negb (str_eqb (job_Error job) "") then job_Error job
  else if negb (str_eqb (job_Result job) "") then job_Result job else "-".
Definition nodeLabel (nodes : gmap string Node) (nodeID : string) : string :=
  match nodes !! nodeID with
  | Some node => if blank (node_Name node) then shortValueID nodeID else node_Name node
  | None => shortValueID nodeID
  end.
Definition jobWorkerLabel (nodes : gmap string Node) (job : Job) : string :=
  if str_eqb (job_AssignedTo job) "" then "Queued" else nodeLabel nodes (job_AssignedTo job).
Definition progress_or_dash (job : Job) : string :=
  let progress := jobProgress job in if negb (str_eqb progress "") then progress else "-".
Definition clip (value : string) (limit : Z) : string :=
  let value := TrimSpace value in
  if (limit <=? 0) || (Z.of_nat (String.length value) <=? limit) then value
  else String.substring 0 (Z.to_nat limit) value +:+ "...".
Definition jobPillClass (status : Status) : string :=
  match status with
  | StatusSucceeded => "pill"
  | StatusFailed | StatusCanceled => "pill pill-failed"
  | StatusRunning | StatusScheduled => "pill pill-job"
  | _ => "pill pill-muted"
  end.
Definition benchmarkPillClass (status : string) : string :=
  if str_eqb status "succeeded" then "pill"
  else if str_eqb status "failed" || str_eqb status "partial_failed" then "pill pill-failed"
  else if str_eqb status "running" || str_eqb status "queued" then "pill pill-job"
  else "pill pill-muted".
(** [int] of a float out of range is what the machine makes of it. *)
Definition barPercent (value maxValue : float64) : Z :=
  if f_le value f_zero || f_le maxValue f_zero then 2
  else
    let percent := f_trunc_to_int (- 2^63) (2^63) w_fconv (f_mul (f_div value maxValue) (f_of_Z 100)) in
    if percent <? 2 then 2 else if 100 <? percent then 100 else percent.
Definition modelReadyNodeOptions (nodes : gmap string Node) (summary : ModelSummary) : list Node :=
  sort_slice ["options"%string] (λ a b, string_lt (node_Name a) (node_Name b))
    (omap (λ nodeID, nodes !! nodeID) (sum_GeneratableOn summary)).
Definition model_moving (status : string) : bool :=
  str_eqb status "installing" || str_eqb status "deleting" || str_eqb status "repairing".
Definition modelStatusClass (status : string) : string :=
  if str_eqb status "installed" then "pill" else if model_moving status then "pill pill-job" else "pill pill-muted".
Definition modelCanInstall (summary : ModelSummary) : bool :=
  negb (model_moving (sum_Status summary)) && (0 <? sum_CapableNodes summary).
Definition modelCanGenerate (summary : ModelSummary) : bool :=
  (0 <? Z.of_nat (length (sum_GeneratableOn summary))) && negb (str_eqb (sum_Status summary) "deleting").
Definition distributedRPCTrace (job : Job) : string :=
  match distributedRPCExecutionResult job with Some result => distributedRPCExecutionResultText result | None => "" end.
Definition distributedRPCEndpoints (job : Job) : string :=
  match distributedRPCExecutionResult job with Some result => Join (er_RPCEndpoints result) ", " | None => "" end.

(** A bar is never empty and never wider than its box, whatever was measured. *)
Theorem bar_within_box (value maxValue : float64) : 2 ≤ barPercent value maxValue ≤ 100.
Proof.
  unfold barPercent. destruct (_ || _); [lia|]. cbv zeta.
  destruct (Z.ltb_spec (f_trunc_to_int (- 2^63) (2^63) w_fconv (f_mul (f_div value maxValue) (f_of_Z 100))) 2); [lia|].
  destruct (Z.ltb_spec 100 (f_trunc_to_int (- 2^63) (2^63) w_fconv (f_mul (f_div value maxValue) (f_of_Z 100)))); lia.
Qed.
End template_functions.

(** ** What is said *)

(** What [json.Unmarshal] makes of a map that [json.Marshal] wrote: numbers come
    back as floats, times as texts. *)
Class JsonMapRead `{JsonMap} := {
  map_text_ok : string → Prop;
  time_text : Z → string;
  decoded_any (v : any) : any :=
    match v with any_int z => any_float (f_of_Z z) | any_time t => any_string (time_text t) | _ => v end;
  map_reads m text :
    (∀ k s, m !! k = Some (any_string s) → map_text_ok s) → Marshal_map m = Some text →
    Unmarshal_map text = Some (Some (decoded_any <$> m));
}.

Lemma app_nonempty_l s t : s ≠ ""%string → (s +:+ t) ≠ ""%string.
Proof.
  intros Hs E. apply (f_equal String.length) in E. rewrite string_app_length in E. destruct s; simpl in E; [done|lia].
Qed.
Lemma Join_not_empty sep s l : s ≠ ""%string → Join (s :: l) sep ≠ ""%string.
Proof. intros Hs. destruct l; simpl; [done|]. by destruct s. Qed.

Lemma shortValueID_short value : (String.length (shortValueID value) <= 12)%nat.
Proof.
  unfold shortValueID. destruct (Nat.leb_spec (String.length value) 12); [done|].
  assert (∀ n s, (String.length (String.substring 0 n s) <= n)%nat) as Hs.
  { induction n as [|n IH]; intros [|a s]; simpl; try lia. apply le_n_S, IH. }
  apply Hs.
Qed.

Section said.
Context `{World} `{ViewCodecs}.

(** The dashboard says something about every job. *)
Theorem detail_not_empty (job : Job) : jobDetail job ≠ ""%string.
Proof.
  unfold jobDetail. destruct (bool_decide _) eqn:E1; cbn [negb]; [|by apply bool_decide_eq_false in E1].
  destruct (bool_decide (job_Result job = _)) eqn:E2.
  { destruct (bool_decide (job_AssignedTo job = _)); [|done].
    destruct (bool_decide (job_LastFailure job = _)) eqn:E3; cbn [negb]; [done|by apply bool_decide_eq_false in E3]. }
  apply bool_decide_eq_false in E2. destruct (Unmarshal_map _) as [result|]; [|done]. cbv zeta.
  destruct (distributedRPCExecutionResult job) as [trace|]; [by apply Join_not_empty|].
  assert (Hpresent : ∀ o x, present o = Some x → x ≠ ""%string).
  { intros [y|] x; simpl; [|done]. destruct (blank y) eqn:Eb; [done|]. intros [= <-] ->. by rewrite blank_empty in Eb. }
  destruct (present (text_field _ "output")) as [output|] eqn:Eo; [by eapply Hpresent|].
  destruct (bool_decide (jobProgress job = _)) eqn:E4; cbn [negb]; [|by apply bool_decide_eq_false in E4].
  destruct (bool_decide (job_Type job = JobRepair)); [by apply Join_not_empty|].
  destruct (bool_decide (job_Type job = JobCleanup)); [by apply Join_not_empty|].
  destruct (bool_decide (job_Type job = JobDelete)); [by apply Join_not_empty|].
  destruct (present (text_field _ "worker_runtime")); [by apply app_nonempty_l|done].
Qed.

(** The progress a worker reports is what the dashboard shows of the job. *)
Theorem progress_shown `{!JsonMapRead} (job : Job) (req : ProgressRequest) (now : Time) :
  job_Error job = ""%string → job_Type job ≠ JobGenerateDistributedRPC →
  job_Result job = jobProgressResult req now → blank (job_Result job) = false →
  map_text_ok "job.progress" → map_text_ok (TrimSpace (prog_ProgressLabel req)) →
  let label := if blank (TrimSpace (prog_ProgressLabel req)) then "Running"%string else TrimSpace (prog_ProgressLabel req) in
  let written := f_of_Z (prog_ProgressBytes req) in
  let total := f_of_Z (prog_TotalBytes req) in
  jobDetail job =
    if f_lt f_zero total
    then label +:+ " " +:+ f_fmt1 (prog_ProgressPercent req) +:+ "%" +:+ dot +:+ gb1 written +:+ " / " +:+ gb1 total +:+ " GB"
    else if f_lt f_zero written then label +:+ dot +:+ gb1 written +:+ " GB" else label.
Proof.
  intros He Ht Hr Hb Hk Hl label written total. unfold jobProgressResult in Hr. cbv zeta in Hr.
  destruct (Marshal_map _) as [text|] eqn:Em; cbn [default from_option Datatypes.id] in Hr.
  2: { by rewrite Hr, blank_empty in Hb. }
  apply map_reads in Em as Hread.
  2: { intros k s. rewrite !lookup_insert_Some, lookup_empty. naive_solver. }
  assert (Hname : ∀ s, label ≠ ""%string → (label +:+ s) ≠ ""%string) by (intros s ?; by apply app_nonempty_l).
  assert (Hlabel : label ≠ ""%string).
  { assert (∀ x, (if blank x then "Running"%string else x) ≠ ""%string) as Hx; [|apply Hx].
    intros x. destruct (blank x) eqn:E; [done|]. intros E'. by rewrite E', blank_empty in E. }
  unfold jobDetail. rewrite He, bool_decide_eq_true_2 by done. cbn [negb].
  rewrite bool_decide_eq_false_2 by (intros E; by rewrite E, blank_empty in Hb).
  assert (distributedRPCExecutionResult job = None) as ->.
  { unfold distributedRPCExecutionResult. by rewrite bool_decide_eq_false_2. }
  assert (jobProgress job = if f_lt f_zero total
    then label +:+ " " +:+ f_fmt1 (prog_ProgressPercent req) +:+ "%" +:+ dot +:+ gb1 written +:+ " / " +:+ gb1 total +:+ " GB"
    else if f_lt f_zero written then label +:+ dot +:+ gb1 written +:+ " GB" else label) as Hp.
  { unfold jobProgress. rewrite Hb, Hr, Hread. cbn [default from_option Datatypes.id]. unfold text_field, numberResult.
    reflexivity. }
  rewrite Hp, Hr, Hread. cbn [default from_option Datatypes.id].
  assert (text_field (decoded_any <$> _) "output" = None) as -> by reflexivity. cbn [present].
  rewrite bool_decide_eq_false_2; [done|]. destruct (f_lt f_zero total); [by apply Hname|].
  by destruct (f_lt f_zero written); [apply Hname|].
Qed.
End said.

(** ** Worked examples *)

Example durations :
  formatDuration (90 * Second) = "1m30s"%string ∧ formatDuration (3661 * Second + 600000000) = "1h1m2s"%string ∧
  formatDuration 1500000000 = "1.5 s"%string ∧ formatDuration 2500000 = "2 ms"%string ∧ formatDuration (-1) = "-"%string.
Proof. by vm_compute. Qed.
Example ages :
  heartbeatAge (100 * Second) (70 * Second) = "30s ago"%string ∧ heartbeatAge (200 * Second) (20 * Second) = "3m ago"%string ∧
  heartbeatAge (5500 * Second) (100 * Second) = "1.5h ago"%string ∧ heartbeatAge 0 1 = "0s ago"%string ∧
  heartbeatAge 5 0 = "-"%string.
Proof. by vm_compute. Qed.
(** A heartbeat is said to be sixty seconds old, never one minute, just before it is. *)
Example almost_a_minute : heartbeatAge (60 * Second) 600000000 = "59s ago"%string ∧ heartbeatAge (60 * Second) 400000000 = "60s ago"%string.
Proof. by vm_compute. Qed.
Example short_ids : shortValueID "rpc-plan-0123456789" = "rpc-plan-012"%string ∧ formatClock (3723 * Second) = "01:02:03 UTC"%string.
Proof. by vm_compute. Qed.
